(* ===== verification/_CoqProject ===== *)
-Q . S2P
Prelude.v
Bytes.v
CList.v
State.v
Pool.v
File.v
FileInv.v
FileSpec.v
FileOps.v
FileClone.v
FileClaims.v
DirPage.v
Pages.v
Dir.v
DirSpec.v
DirOps.v
DirEx.v
DirClaims.v
Session.v
DirList.v
Xattr.v
XattrSpec.v
Super.v
Itable.v
Iom.v
Inode.v
InodeSpec.v
InodeOps.v
GiveBack.v
Evict.v
Symlink.v
Life.v
Format.v
Mmap.v
Fba.v
PageAlloc.v
PageSpec.v
Slab.v
SlabInv.v
SlabSpec.v
SlabOps.v
SlabHeap.v
Md.v
MdSpec.v
MdInit.v
Wtz.v
Core.v
CoreSpec.v
Vfs.v
VfsSpec.v
Toy.v
ToySpec.v
Mount.v
MountSpec.v
CStr.v
Printz.v
PrintzLex.v
PrintzSpec.v
PrintzRead.v
PrintzInit.v
PrintzEx.v
Movnt.v
MovntSpec.v
Zt.v
ZtSpec.v
ZtStop.v
T2.v
T2Spec.v
Loader.v
LoaderSpec.v
Mkfs.v
Daemon.v
DaemonSpec.v
