(* ===== verification/Prelude.v ===== *)
(** * Verification library for zufs-zus

    zufs-zus is the user-space server of a file system whose kernel half (ZUF) hands it
    operations through memory and ioctls.  This library models the server, the file system
    toyfs that comes with it, and the tools around them, function by function, and proves what
    they promise.

    ** How to read it

    Every function is a definition with the name it has in the code.  State is passed
    explicitly: [ST S A] (this file) is a state monad in which [None] is a failed assertion,
    an access to memory that is not there, or undefined behaviour; [wp m s Q] says that [m]
    runs from [s] to its end and that [Q] holds of what it answers and leaves: total
    correctness.  Memory is typed: a heap per kind of object.  Integers are [Z] with the
    wrap-around of their type written out ([u64], [s32], ...).  Locks are recursion depths.  A
    file [X.v] holds the code, [XSpec.v], [XInv.v], [XOps.v] its theory; files named for
    neither hold the theorems of a component.

    ** The parts, from the client down

    - What clients see.  Session.v: files of bytes, names in a directory and requests in any
      order; toyfs answers as an abstract store may.  Format.v: the same from an unformatted
      device on, with nothing assumed.
    - toyfs (src/fs/toyfs).  State.v: the structures of toyfs.h.  CList.v: the rings of a_list.h
      and common.c, refined to lists; above it the lists are carried themselves.  Pool.v: pages,
      records and statvfs of super.c.  File.v, FileInv.v, FileSpec.v, FileOps.v, FileClone.v,
      FileClaims.v: file.c, a file as a map from offsets to blocks with shared pages and
      reference counts ([fs_inv] is the invariant).  DirPage.v (one page of entries as bytes),
      Pages.v, Dir.v, DirSpec.v, DirOps.v, DirEx.v, DirClaims.v, DirList.v: dir.c and namei.c, a
      directory as a map from names to numbers.  Xattr.v, XattrSpec.v: xattr.c.  Super.v,
      Itable.v: mounting, the inode table as a finite map (super.c).  Inode.v, InodeSpec.v,
      InodeOps.v, GiveBack.v (what a deletion frees), Evict.v, Symlink.v, Life.v, Mmap.v:
      inode.c, symlink.c, mmap.c.  Mkfs.v: mkfs.c
      and the times of zus.h.
    - The server (src).  Vfs.v, VfsSpec.v: the dispatcher of zus-vfs.c over tables of a file
      system's functions; Toy.v, ToySpec.v: toyfs as one such (common.c).  Mount.v, MountSpec.v:
      mounts, unmounts and private mounts (zus-vfs.c).  Core.v, CoreSpec.v: cpus, nodes and
      threads (zus-core.c); Wtz.v: starting the handler threads (wtz.h, zus-core.c); Zt.v,
      ZtSpec.v, ZtStop.v: what a handler thread does and how all are stopped.  Iom.v: iom_enc.h.
      Md.v, MdSpec.v, MdInit.v, T2.v, T2Spec.v: md_zus.c.  Fba.v, PageAlloc.v, PageSpec.v: pa.c;
      Slab.v, SlabInv.v, SlabSpec.v, SlabOps.v, SlabHeap.v: slab.c.  CStr.v, Printz.v, PrintzLex.v,
      PrintzSpec.v, PrintzRead.v, PrintzInit.v, PrintzEx.v: printz.c.  Movnt.v, MovntSpec.v:
      nvml_movnt.c and movnt.h.  Loader.v, LoaderSpec.v: fs-loader.c.  Daemon.v, DaemonSpec.v:
      main.c, signals.c, the limits of utils.c.
    - Prelude.v (this file): constants, integers, the monad, its [wp] and their tactics
      ([wp_step], [wp_use], [keeps]); Bytes.v: integers and slices in byte strings.

    How they meet: a handler thread (Zt.v) executes a command in a buffer, the parameter
    [do_command] of its section, which is [zus_do_command] of Vfs.v; Vfs.v looks at memory
    through the class [ZusMem] and at a file system through records of operations, both of which
    Toy.v fills for toyfs; VfsSpec.v proves lookups against a contract, [LookupContract],
    which ToySpec.v discharges for toyfs (creation through toyfs's table it cannot serve:
    ToySpec.toy_create_inverted).  Loader.v adds to the registry of Printz.v;
    T2.v builds with Iom.v and stamps with the checksum of Md.v; Mkfs.v is checked against
    Md.v's check.  SlabHeap.v allocates from PageAlloc.v, which takes its memory from Fba.v.

    ** What the theorems show

    - Refinement: toyfs is an abstract store, for every client and every interleaving of
      requests (Session.toyfs_refines, Format.serve_spec), as long as clients keep to the rules of
      [legal], among which: no renaming onto a name that is there, which toyfs gets wrong
      (DirClaims.rename_over_existing); a read answers what was written, if nothing in between
      writes there or truncates (toyfs_read_your_writes); link counts are numbers of names
      (toyfs_links); nothing a client
      can do breaks a structure (toyfs_types); the inode table is a map (Itable.itable_refines);
      every block of a tier is found on its device (MdInit.md_init_spec).
    - Functional behaviour, errors included: mounting, writing, reading, truncating, allocating,
      listing, creating and evicting (Format.v, FileClaims.v, DirList.v, Life.v), the page
      allocator, loading file systems, the main program.
    - Round trips: a write through the dispatcher is read back (ToySpec.vfs_write_read),
      attributes, device tables on tier 2, private mounts, debug commands printed and parsed.
    - Safety: a clone is isolated from its source; mounts and the creation of files are all or
      nothing; a handler thread gives back what it took; behind the start barrier every thread has
      ended its set up, and the error of a start is accounted for; copies to persistent memory are
      durable.
    - Equivalences: the non-temporal copy is memmove, the checksum by table the one by bits, the
      dispatcher its rules, the tokenizer its grammar, mkfs's table what the check accepts.
    - Progress: fair runs of the start of the threads end, so do those of the shutdown in which
      the break of each channel is heard, and chains of piggy-backed operations.

    Theorems also state what the code does wrong, under "findings" in the manifest:
    ZtStop.stop_can_hang, Wtz.start_fails_all_up, T2Spec.start_after_failure, ToySpec.toy_create_inverted,
    XattrSpec.second_xattr_clobbers_first, MdSpec.mdt_check_past_end, Wtz.barrier_two_channels,
    Mkfs.timespec_before_epoch, PrintzEx.read_cuts_newline and others.

    ** Fuel

    Where a loop is not structural it takes fuel, and running out is [None], which [wp] excludes;
    so every theorem stated with [wp] also shows that the fuel is enough.  [page_fuel]: the pages of
    a range and two, for the loops of file.c; [S DIRENTS] for the slots of a page of entries;
    [XE_FUEL], a page and one, since an attribute takes at least a byte; [GCD_FUEL] = 129, twice the
    bits of the operands and one; the number of cpus and one for masks; the length of a message
    or a list of names and one for the tokenizer and the loader; [PIGY_FUEL], the bytes of the
    buffer of operations, each of which takes at least one; the cache lines of a range and three for
    flushes; 2 for the page allocator's rescan, since one growth is enough for any request.  A handler thread takes the
    kernel's answers as a list instead, and ZtStop.v lets runs be infinite.

    ** What is a parameter

    Code that is not in the repository: zufs_api.h and md.h are submodules ([MdApi], [DevApi],
    [InodeApi], [IomApi], [XattrApi], [MountApi], [ToyApi], [ZtApi], [T2Api], [MkfsApi]); the
    kernel, the C library and pthreads ([MallocApi], [PaEnv], [SlabEnv], [FbaSys], [MountSys],
    [DlSys], the records of answers in Core.v, Zt.v, T2.v, Mkfs.v, Daemon.v).  What the code
    relies on is in the classes of laws beside them ([MdLaws], [DevLaws], [FbaLaws],
    [MountSysLaws], [ZusMemLaws], [T2Laws], [MkfsLaws]), each with an instance in the witnesses.

    ** Not modelled

    - src/fs/foofs: an example that is not written for the present interface: its tables
      fill slots ([get_block]) that zus.h does not have, and it calls [_zus_iom_start] with three
      arguments.
    - src/zuf_call.h: one ioctl per function; the answers are parameters, but for registering a
      handler thread and breaking the waits (Zt.v).
    - Printing: _pr.h, back traces and warnings of utils.c, usage texts; src/module.c is licence
      strings; zusd.h and b-minmax.h hold declarations.
    - The compile-time checks of layouts at the end of fs/toyfs/super.c: the models take the
      layouts they check. *)

From Stdlib Require Export ZArith Lia.
From Corelib Require Export ssreflect.
From stdpp Require Export base option numbers gmap fin_maps list.

#[export] Set Warnings "-rewrite-rw".
#[global] Open Scope Z_scope.
#[global] Open Scope general_if_scope.

(** ** Constants *)

Module Errno.
Definition EPERM : Z := 1.
Definition ENOENT : Z := 2.
Definition EIO : Z := 5.
Definition ENOMEM : Z := 12.
Definition EFAULT : Z := 14.
Definition EEXIST : Z := 17.
Definition EISDIR : Z := 21.
Definition EINVAL : Z := 22.
Definition ENOTTY : Z := 25.
Definition EFBIG : Z := 27.
Definition ENOSPC : Z := 28.
Definition ERANGE : Z := 34.
Definition ENOTEMPTY : Z := 39.
Definition ENODATA : Z := 61.
Definition ENOTSUP : Z := 95.
End Errno.
Export Errno.

(** The 4k page: the static assertions of fs/toyfs/super.c ([_check_typesizes])
    force it, since [struct toyfs_dentries] is 16 + 16 + 127 * 32 bytes. *)
Abbreviation PAGE_SIZE := 4096 (only parsing).

(** ** Machine integers: values of a [w]-bit unsigned or signed type. *)
Definition u64 (x : Z) : Z := x mod 2 ^ 64.
Definition u32 (x : Z) : Z := x mod 2 ^ 32.
Definition u16 (x : Z) : Z := x mod 2 ^ 16.
Definition u8 (x : Z) : Z := x mod 2 ^ 8.
Definition s64 (x : Z) : Z :=
  let y := x mod 2 ^ 64 in if y <? 2 ^ 63 then y else y - 2 ^ 64.
Definition s32 (x : Z) : Z :=
  let y := x mod 2 ^ 32 in if y <? 2 ^ 31 then y else y - 2 ^ 32.

Lemma u64_small x : 0 <= x < 2 ^ 64 -> u64 x = x.
Proof. apply Z.mod_small. Qed.
Lemma u32_small x : 0 <= x < 2 ^ 32 -> u32 x = x.
Proof. apply Z.mod_small. Qed.
Lemma s64_small x : - 2 ^ 63 <= x < 2 ^ 63 -> s64 x = x.
Proof.
  intros H. unfold s64.
  destruct (decide (0 <= x)).
  - rewrite Z.mod_small; [lia|]. destruct (Z.ltb_spec x (2 ^ 63)); lia.
  - assert (Hm : x mod 2 ^ 64 = x + 2 ^ 64).
    { symmetry. apply (Z.mod_unique _ _ (-1)); lia. }
    rewrite Hm. destruct (Z.ltb_spec (x + 2 ^ 64) (2 ^ 63)); lia.
Qed.
Lemma s32_small x : - 2 ^ 31 <= x < 2 ^ 31 -> s32 x = x.
Proof.
  intros Hx. rewrite /s32. destruct (Z.le_gt_cases 0 x).
  - rewrite Z.mod_small; [lia|]. destruct (Z.ltb_spec x (2 ^ 31)); lia.
  - rewrite -(Z.mod_add x 1) // Z.mod_small; [lia|]. destruct (Z.ltb_spec (x + 1 * 2 ^ 32) (2 ^ 31)); lia.
Qed.
Lemma u64_range x : 0 <= u64 x < 2 ^ 64.
Proof. apply Z.mod_pos_bound. lia. Qed.
Lemma s64_u64 x : - 2 ^ 63 <= x < 2 ^ 63 -> s64 (u64 x) = x.
Proof.
  intros H. unfold s64, u64. rewrite Z.mod_mod; [lia|].
  exact (s64_small x H).
Qed.

(** ** A state monad with abort

    [None] is a failed assertion ([toyfs_assert], [abort]) or an access to an
    object that does not exist; every specification below is total, so it also
    shows that neither happens. *)
Definition ST (S A : Type) : Type := S -> option (A * S).

#[export] Instance ST_ret S : MRet (ST S) := fun A a s => Some (a, s).
#[export] Instance ST_bind S : MBind (ST S) := fun A B f m s =>
  match m s with Some (a, s') => f a s' | None => None end.

Section ST_ops.
Context {S : Type}.

Definition gets {A} (f : S -> A) : ST S A := fun s => Some (f s, s).
Definition modify (f : S -> S) : ST S unit := fun s => Some (tt, f s).
Definition abort {A} : ST S A := fun _ => None.
Definition assert (b : bool) : ST S unit := if b then mret tt else abort.
Definition of_option {A} (o : option A) : ST S A :=
  match o with Some a => mret a | None => abort end.
(** Read object [p] of the heap [h]. *)
Definition load {V} (h : S -> gmap Z V) (p : Z) : ST S V :=
  fun s => match h s !! p with Some v => Some (v, s) | None => None end.
(** Change object [p] of the heap [h] with [f]; it must exist. *)
Definition update {V} (h : S -> gmap Z V) (upd : (gmap Z V -> gmap Z V) -> S -> S)
    (p : Z) (f : V -> V) : ST S unit :=
  fun s => match h s !! p with
           | Some v => Some (tt, upd (<[p := f v]>) s)
           | None => None
           end.
End ST_ops.

(** Run a computation on a component of the state. *)
Definition zoom {S T A} (get : S -> T) (set : T -> S -> S) (m : ST T A) : ST S A :=
  fun s => match m (get s) with Some (a, t) => Some (a, set t s) | None => None end.

(** Total correctness: [m] runs from [s] without aborting and [Q] holds of its
    result and final state. *)
Definition wp {S A} (m : ST S A) (s : S) (Q : A -> S -> Prop) : Prop :=
  match m s with Some (a, s') => Q a s' | None => False end.

Section wp_rules.
Context {S : Type}.

Lemma wp_ret {A} (a : A) (s : S) Q : Q a s -> wp (mret a) s Q.
Proof. done. Qed.
Lemma wp_bind {A B} (m : ST S A) (f : A -> ST S B) s Q :
  wp m s (fun a s' => wp (f a) s' Q) -> wp (m ≫= f) s Q.
Proof. rewrite /wp /mbind /ST_bind. by destruct (m s) as [[a s']|]. Qed.
Lemma wp_assoc {A B C} (m : ST S A) (f : A -> ST S B) (g : B -> ST S C) s Q : wp ((m ≫= f) ≫= g) s Q -> wp (m ≫= fun a => f a ≫= g) s Q.
Proof. rewrite /wp /mbind /ST_bind. by destruct (m s) as [[a s']|]. Qed.
Lemma wp_mono {A} (m : ST S A) s (P Q : A -> S -> Prop) :
  wp m s P -> (forall a s', P a s' -> Q a s') -> wp m s Q.
Proof. rewrite /wp. destruct (m s) as [[a s']|]; auto. Qed.
Lemma wp_gets {A} (f : S -> A) s Q : Q (f s) s -> wp (gets f) s Q.
Proof. done. Qed.
Lemma wp_modify (f : S -> S) s Q : Q tt (f s) -> wp (modify f) s Q.
Proof. done. Qed.
Lemma wp_assert b (s : S) Q : b = true -> Q tt s -> wp (assert b) s Q.
Proof. by intros ->. Qed.
Lemma wp_load {V} (h : S -> gmap Z V) p v s Q :
  h s !! p = Some v -> Q v s -> wp (load h p) s Q.
Proof. rewrite /wp /load. by intros ->. Qed.
Lemma wp_update {V} (h : S -> gmap Z V) upd p f v s Q :
  h s !! p = Some v -> Q tt (upd (<[p := f v]>) s) -> wp (update h upd p f) s Q.
Proof. rewrite /wp /update. by intros ->. Qed.
Lemma wp_zoom {T A} (get : S -> T) set (m : ST T A) s Q :
  wp m (get s) (fun a t => Q a (set t s)) -> wp (zoom get set m) s Q.
Proof. rewrite /wp /zoom. by destruct (m (get s)) as [[a t]|]. Qed.
Lemma wp_conj {A} (m : ST S A) s (P Q : A -> S -> Prop) :
  wp m s P -> wp m s Q -> wp m s (fun a s' => P a s' /\ Q a s').
Proof. rewrite /wp. by destruct (m s) as [[a s']|]. Qed.
Lemma wp_eq {A} (m m' : ST S A) s Q : m s = m' s -> wp m' s Q -> wp m s Q.
Proof. by rewrite /wp => ->. Qed.
Lemma wp_run {A} (m : ST S A) s Q a s' : wp m s Q -> m s = Some (a, s') -> Q a s'.
Proof. rewrite /wp. intros H E. by rewrite E in H. Qed.
(** Runs, for what cannot be said of every continuation: that a computation aborts. *)
Lemma run_eq {A} (m : ST S A) s a s' : wp m s (fun r t => r = a /\ t = s') -> m s = Some (a, s').
Proof. rewrite /wp. destruct (m s) as [[r t]|]; [|done]. by intros [-> ->]. Qed.
Lemma bind_run {A B} (m : ST S A) (f : A -> ST S B) s a s' : m s = Some (a, s') -> (m ≫= f) s = f a s'.
Proof. rewrite /mbind /ST_bind. by intros ->. Qed.
Lemma wp_exists {A} (m : ST S A) s Q :
  wp m s Q -> exists a s', m s = Some (a, s') /\ Q a s'.
Proof. rewrite /wp. destruct (m s) as [[a s']|]; naive_solver. Qed.
End wp_rules.

(** Partial preservation: no run of [m] breaks [R].  For facts that do not need
    the invariant of a component; [keeps] walks through the code. *)
Definition keeps {S A} (R : S -> Prop) (m : ST S A) : Prop :=
  forall s a s', R s -> m s = Some (a, s') -> R s'.

Section keeps_rules.
Context {S : Type} (R : S -> Prop).

Lemma keeps_ret {A} (a : A) : keeps R (mret a).
Proof. intros s x s' Hs [= _ <-]. done. Qed.
Lemma keeps_bind {A B} (m : ST S A) (f : A -> ST S B) :
  keeps R m -> (forall a, keeps R (f a)) -> keeps R (m ≫= f).
Proof.
  intros Hm Hf s b s' Hs. rewrite /mbind /ST_bind. destruct (m s) as [[a s1]|] eqn:E; [|done].
  apply Hf. by eapply Hm.
Qed.
Lemma keeps_gets {A} (f : S -> A) : keeps R (gets f).
Proof. intros s x s' Hs [= _ <-]. done. Qed.
Lemma keeps_modify f : (forall s, R s -> R (f s)) -> keeps R (modify f).
Proof. intros Hf s x s' Hs [= _ <-]. by apply Hf. Qed.
Lemma keeps_abort {A} : keeps R (abort (A := A)).
Proof. by intros s x s' Hs. Qed.
Lemma keeps_assert b : keeps R (assert b).
Proof. destruct b; [apply keeps_ret|apply keeps_abort]. Qed.
Lemma keeps_of_option {A} (o : option A) : keeps R (of_option o).
Proof. destruct o; [apply keeps_ret|apply keeps_abort]. Qed.
Lemma keeps_load {V} (h : S -> gmap Z V) p : keeps R (load h p).
Proof. intros s x s' Hs. rewrite /load. destruct (h s !! p); [|done]. by intros [= _ <-]. Qed.
Lemma keeps_update {V} (h : S -> gmap Z V) upd p f :
  (forall s v, R s -> h s !! p = Some v -> R (upd (<[p := f v]>) s)) -> keeps R (update h upd p f).
Proof.
  intros Hf s x s' Hs. rewrite /update. destruct (h s !! p) as [v|] eqn:E; [|done].
  intros [= _ <-]. by apply Hf.
Qed.
Lemma wp_keeps {A} (m : ST S A) s Q : keeps R m -> R s -> wp m s Q -> wp m s (fun a s' => Q a s' /\ R s').
Proof.
  rewrite /wp. intros Hk Hs. destruct (m s) as [[a s']|] eqn:E; [|done]. intros HQ. split; [done|]. by eapply Hk.
Qed.
End keeps_rules.

(** Walk through a computation; what is left are the steps that need an argument. *)
Ltac keeps :=
  repeat (cbn beta iota;
    lazymatch goal with
    | |- forall _, keeps _ _ => intro
    | |- keeps _ (mbind _ _) => apply keeps_bind
    | |- keeps _ (mret _) => apply keeps_ret
    | |- keeps _ (gets _) => apply keeps_gets
    | |- keeps _ (modify _) => apply keeps_modify; first done
    | |- keeps _ abort => apply keeps_abort
    | |- keeps _ (assert _) => apply keeps_assert
    | |- keeps _ (of_option _) => apply keeps_of_option
    | |- keeps _ (load _ _) => apply keeps_load
    | |- keeps _ (update _ _ _ _) => apply keeps_update; first done
    | |- keeps _ (match ?x with _ => _ end) => destruct x
    end).

(** One step of symbolic execution; the side conditions of [load] and [assert]
    are tried with [eauto]. *)
Ltac wp_step :=
  cbn beta iota;
  lazymatch goal with
  | |- wp (mbind _ _) _ _ => apply wp_bind
  | |- wp (mret _) _ _ => apply wp_ret
  | |- wp (gets _) _ _ => apply wp_gets
  | |- wp (modify _) _ _ => apply wp_modify
  | |- wp (assert _) _ _ => apply wp_assert
  | |- wp (load _ _) _ _ => eapply wp_load
  | |- wp (update _ _ _ _) _ _ => eapply wp_update
  | |- wp (zoom _ _ _) _ _ => apply wp_zoom
  end; cbn beta iota.
Ltac wp_steps := repeat wp_step.
(** Use a specification lemma for the call in head position. *)
Tactic Notation "wp_use" uconstr(H) := eapply wp_mono; [eapply H|cbn beta].
