(* ===== verification/Bytes.v ===== *)
(** * Byte strings: little-endian integers and slices

    The on-media structures of toyfs (directory pages, attribute pages) and the
    unmap encoding are byte arrays; a field is a slice of the array. *)

From S2P Require Import Prelude.

(** The [n] bytes of [x], least significant first, and back. *)
Fixpoint le_bytes (n : nat) (x : Z) : list Z :=
  match n with O => [] | S k => x mod 256 :: le_bytes k (x / 256) end.
Fixpoint le_val (l : list Z) : Z :=
  match l with [] => 0 | b :: l' => b + 256 * le_val l' end.
(** The [n] bytes from [o]. *)
Definition slice (o n : nat) (l : list Z) : list Z := take n (drop o l).
Definition is_byte (b : Z) : Prop := 0 <= b < 256.
Definition zero_bytes (n : nat) : list Z := replicate n 0.

Lemma le_bytes_length n x : length (le_bytes n x) = n.
Proof. revert x. induction n as [|n IH]; intros x; simpl; [done|]. by rewrite IH. Qed.
Lemma le_val_bytes n x : le_val (le_bytes n x) = x mod 256 ^ Z.of_nat n.
Proof.
  revert x. induction n as [|n IH]; intros x; cbn [le_bytes le_val]; [by rewrite Z.mod_1_r|].
  rewrite IH Nat2Z.inj_succ Z.pow_succ_r; [lia|]. rewrite Z.rem_mul_r; lia.
Qed.
Lemma le_val_small n x : 0 <= x < 256 ^ Z.of_nat n -> le_val (le_bytes n x) = x.
Proof. intros Hx. by rewrite le_val_bytes Z.mod_small. Qed.
Lemma le_bytes_zero n : le_bytes n 0 = zero_bytes n.
Proof. induction n as [|n IH]; simpl; [done|]. by rewrite Z.div_0_l // IH. Qed.
Lemma le_val_zero n : le_val (zero_bytes n) = 0.
Proof. induction n as [|n IH]; simpl; [done|]. by rewrite -/(zero_bytes n) IH. Qed.
Lemma zero_bytes_add n m : zero_bytes n ++ zero_bytes m = zero_bytes (n + m).
Proof. by rewrite /zero_bytes replicate_add. Qed.

(** Slices of an array whose part from [o] is known. *)
Lemma slice_drop o k n l : slice (o + k) n l = slice k n (drop o l).
Proof. by rewrite /slice drop_drop. Qed.
Lemma slice_app_l k n l l' : (k + n <= length l)%nat -> slice k n (l ++ l') = slice k n l.
Proof. intros Hl. rewrite /slice drop_app_le; [lia|]. rewrite take_app_le //. rewrite length_drop. lia. Qed.
Lemma slice_app_r k n l l' : slice (length l + k) n (l ++ l') = slice k n l'.
Proof. by rewrite slice_drop drop_app_length. Qed.
Lemma slice_app_at k n l l' : length l = k -> slice k n (l ++ l') = take n l'.
Proof. intros <-. by rewrite /slice drop_app_length. Qed.
