(* ===== verification/CList.v ===== *)
(** * Intrusive doubly linked lists: a_list.h and the list helpers of fs/toyfs/common.c

    The heads live in a memory that maps an address to its [next] and [prev]
    fields.  [dlist m h l] says that the ring through the head [h] visits the
    nodes [l] in order; each operation is shown to implement the corresponding
    operation on [l] and to leave every other ring alone, which is what lets the
    other components carry the list itself. *)

From S2P Require Import Prelude.

Record list_head := ListHead { next : Z; prev : Z }.
Definition lmem : Type := gmap Z list_head.

Definition set_next (p v : Z) : ST lmem unit := fun m =>
  match m !! p with
  | Some c => Some (tt, <[p := ListHead v (prev c)]> m)
  | None => None
  end.
Definition set_prev (p v : Z) : ST lmem unit := fun m =>
  match m !! p with
  | Some c => Some (tt, <[p := ListHead (next c) v]> m)
  | None => None
  end.
Definition get_next (p : Z) : ST lmem Z := c ← load id p; mret (next c).
Definition get_prev (p : Z) : ST lmem Z := c ← load id p; mret (prev c).

(** ** a_list.h *)
Definition a_list_init (list : Z) : ST lmem unit :=
  set_next list list;; set_prev list list.
Definition _link_list (list prv nxt : Z) : ST lmem unit :=
  set_prev nxt list;; set_next list nxt;; set_prev list prv;; set_next prv list.
Definition a_list_add (list head : Z) : ST lmem unit :=
  n ← get_next head; _link_list list head n.
Definition a_list_add_tail (list head : Z) : ST lmem unit :=
  p ← get_prev head; _link_list list p head.
Definition a_list_del (list : Z) : ST lmem unit :=
  n ← get_next list; p ← get_prev list;
  set_prev n p;;
  p' ← get_prev list; n' ← get_next list;
  set_next p' n'.
Definition a_list_del_init (list : Z) : ST lmem unit :=
  a_list_del list;; a_list_init list.
Definition a_list_empty (head : Z) : ST lmem bool :=
  n ← get_next head; mret (bool_decide (n = head)).

(** ** fs/toyfs/common.c: note that [toyfs_list_add] links at [head->prev]. *)
Definition toyfs_list_init (list : Z) : ST lmem unit :=
  set_next list list;; set_prev list list.
Definition _link_elem (elem prv nxt : Z) : ST lmem unit :=
  set_prev nxt elem;; set_next elem nxt;; set_prev elem prv;; set_next prv elem.
Definition toyfs_list_add (new head : Z) : ST lmem unit :=
  p ← get_prev head; _link_elem new p head.
Definition toyfs_list_del (elem : Z) : ST lmem unit :=
  n ← get_next elem; p ← get_prev elem;
  set_prev n p;;
  p' ← get_prev elem; n' ← get_next elem;
  set_next p' n'.
Definition toyfs_list_empty (head : Z) : ST lmem bool :=
  n ← get_next head; mret (bool_decide (n = head)).
Definition toyfs_list_add_tail (elem head : Z) : ST lmem unit :=
  p ← get_prev head; _link_elem elem p head.
Definition toyfs_list_add_before (elem head : Z) : ST lmem unit :=
  p ← get_prev head; _link_elem elem p head.

(** [a_list_for_each_entry]: the nodes visited from [pos] until [head]. *)
Fixpoint a_list_walk (fuel : nat) (pos head : Z) : ST lmem (list Z) :=
  match fuel with
  | O => abort
  | S k =>
    if bool_decide (pos = head) then mret [] else
    n ← get_next pos; rest ← a_list_walk k n head; mret (pos :: rest)
  end.
Definition a_list_for_each_entry (fuel : nat) (head : Z) : ST lmem (list Z) :=
  n ← get_next head; a_list_walk fuel n head.

(** ** The ring and the list it stands for *)
Definition nxt (m : lmem) (p : Z) : option Z := next <$> m !! p.
Definition prv (m : lmem) (p : Z) : option Z := prev <$> m !! p.

(** The chain from [a] through [l] to [b], in both directions. *)
Fixpoint lseg (m : lmem) (a : Z) (l : list Z) (b : Z) : Prop :=
  match l with
  | [] => nxt m a = Some b /\ prv m b = Some a
  | x :: l' => nxt m a = Some x /\ prv m x = Some a /\ lseg m x l' b
  end.
Definition dlist (m : lmem) (h : Z) (l : list Z) : Prop :=
  NoDup (h :: l) /\ lseg m h l h.

(** The list operations the pointer operations stand for. *)
Fixpoint insert_before (x y : Z) (l : list Z) : list Z :=
  match l with
  | [] => [x]
  | z :: l' => if bool_decide (z = y) then x :: z :: l' else z :: insert_before x y l'
  end.
Fixpoint remove1 (x : Z) (l : list Z) : list Z :=
  match l with
  | [] => []
  | z :: l' => if bool_decide (z = x) then l' else z :: remove1 x l'
  end.

(** ** Effects of the primitive accesses *)
Section access.
Implicit Types (m : lmem) (a p x v : Z).

Lemma nxt_Some m p v : nxt m p = Some v -> is_Some (m !! p).
Proof. rewrite /nxt. destruct (m !! p); naive_solver. Qed.
Lemma prv_Some m p v : prv m p = Some v -> is_Some (m !! p).
Proof. rewrite /prv. destruct (m !! p); naive_solver. Qed.

Lemma wp_get_next m p v Q : nxt m p = Some v -> Q v m -> wp (get_next p) m Q.
Proof.
  rewrite /nxt /get_next. destruct (m !! p) as [c|] eqn:E; [|done].
  intros [= <-] HQ. wp_step. eapply wp_load; [exact E|]. by wp_step.
Qed.
Lemma wp_get_prev m p v Q : prv m p = Some v -> Q v m -> wp (get_prev p) m Q.
Proof.
  rewrite /prv /get_prev. destruct (m !! p) as [c|] eqn:E; [|done].
  intros [= <-] HQ. wp_step. eapply wp_load; [exact E|]. by wp_step.
Qed.

(** [upd m m' p v] and [upv m m' p v]: [m'] is [m] with one field written. *)
Definition same_dom m m' : Prop := forall a, is_Some (m' !! a) <-> is_Some (m !! a).
Lemma wp_set_next m p v Q :
  is_Some (m !! p) ->
  (forall m', same_dom m m' ->
     (forall a, nxt m' a = if decide (a = p) then Some v else nxt m a) ->
     (forall a, prv m' a = prv m a) -> Q tt m') ->
  wp (set_next p v) m Q.
Proof.
  intros [c Hc] HQ. rewrite /wp /set_next Hc. apply HQ.
  - intros a. rewrite lookup_insert. case_decide; naive_solver.
  - intros a. rewrite /nxt lookup_insert. repeat case_decide; naive_solver.
  - intros a. rewrite /prv lookup_insert. case_decide; [subst; by rewrite Hc|done].
Qed.
Lemma wp_set_prev m p v Q :
  is_Some (m !! p) ->
  (forall m', same_dom m m' ->
     (forall a, prv m' a = if decide (a = p) then Some v else prv m a) ->
     (forall a, nxt m' a = nxt m a) -> Q tt m') ->
  wp (set_prev p v) m Q.
Proof.
  intros [c Hc] HQ. rewrite /wp /set_prev Hc. apply HQ.
  - intros a. rewrite lookup_insert. case_decide; naive_solver.
  - intros a. rewrite /prv lookup_insert. repeat case_decide; naive_solver.
  - intros a. rewrite /nxt lookup_insert. case_decide; [subst; by rewrite Hc|done].
Qed.

(** What linking [x] between [p] and [n], and unlinking, do to the fields. *)
Definition linked m m' x p n : Prop :=
  same_dom m m' /\
  (forall a, nxt m' a = if decide (a = p) then Some x
                        else if decide (a = x) then Some n else nxt m a) /\
  (forall a, prv m' a = if decide (a = x) then Some p
                        else if decide (a = n) then Some x else prv m a).
Definition unlinked m m' x p n : Prop :=
  same_dom m m' /\
  (forall a, nxt m' a = if decide (a = p) then Some n else nxt m a) /\
  (forall a, prv m' a = if decide (a = n) then Some p else prv m a).

Lemma wp_link_elem m x p n Q :
  is_Some (m !! x) -> is_Some (m !! p) -> is_Some (m !! n) -> x <> p -> x <> n ->
  (forall m', linked m m' x p n -> Q tt m') -> wp (_link_elem x p n) m Q.
Proof.
  intros Hx Hp Hn Hxp Hxn HQ. rewrite /_link_elem.
  wp_step. apply wp_set_prev; [done|intros m1 D1 P1 N1].
  wp_step. apply wp_set_next; [by apply D1|intros m2 D2 N2 P2].
  wp_step. apply wp_set_prev; [by apply D2, D1|intros m3 D3 P3 N3].
  apply wp_set_next; [by apply D3, D2, D1|intros m4 D4 N4 P4].
  apply HQ. split_and!.
  - intros a. by rewrite (D4 a) (D3 a) (D2 a) (D1 a).
  - intros a. rewrite N4 N3 N2 N1. repeat case_decide; congruence.
  - intros a. rewrite P4 P3 P2 P1. repeat case_decide; congruence.
Qed.

Lemma wp_unlink m x p n Q :
  nxt m x = Some n -> prv m x = Some p -> x <> p -> x <> n ->
  is_Some (m !! p) -> is_Some (m !! n) ->
  (forall m', unlinked m m' x p n -> Q tt m') -> wp (toyfs_list_del x) m Q.
Proof.
  intros Hn Hp Hxp Hxn Sp Sn HQ. rewrite /toyfs_list_del.
  wp_step. apply (wp_get_next _ _ n); [done|].
  wp_step. apply (wp_get_prev _ _ p); [done|].
  wp_step. apply wp_set_prev; [done|intros m1 D1 P1 N1].
  wp_step. apply (wp_get_prev _ _ p); [rewrite P1; by case_decide|].
  wp_step. apply (wp_get_next _ _ n); [by rewrite N1|].
  apply wp_set_next; [by apply D1|intros m2 D2 N2 P2].
  apply HQ. split_and!.
  - intros a. by rewrite (D2 a) (D1 a).
  - intros a. by rewrite N2 N1.
  - intros a. by rewrite P2 P1.
Qed.
End access.

(** ** Segments *)

(** Decide the address comparisons, with the memberships turned into
    disjunctions of equations. *)
Ltac ring_solve :=
  repeat match goal with
         | H : NoDup (_ :: _) |- _ => apply NoDup_cons in H as [? H]
         end;
  set_unfold;
  repeat case_decide; simplify_eq; try done; intuition congruence.
Section segments.
Implicit Types (m : lmem) (l : list Z).

Lemma lseg_app m a l1 x l2 b :
  lseg m a (l1 ++ x :: l2) b <-> lseg m a l1 x /\ lseg m x l2 b.
Proof. revert a. induction l1 as [|y l1 IH]; intros a; simpl; [naive_solver|]. rewrite IH. naive_solver. Qed.

Lemma lseg_ext m m' a l b :
  (forall y, y ∈ a :: l -> nxt m' y = nxt m y) ->
  (forall y, y ∈ l ++ [b] -> prv m' y = prv m y) ->
  lseg m a l b -> lseg m' a l b.
Proof.
  revert a. induction l as [|x l IH]; intros a Hn Hp; simpl in *.
  - rewrite Hn ?Hp; [set_solver..|]. done.
  - rewrite (Hn a) ?(Hp x); [set_solver..|]. intros (?&?&?). split_and!; try done.
    apply IH; set_solver.
Qed.

Lemma lseg_dom m a l b : lseg m a l b -> forall y, y ∈ a :: l ++ [b] -> is_Some (m !! y).
Proof.
  revert a. induction l as [|x l IH]; intros a; simpl.
  - intros [Hn Hp] y Hy. apply elem_of_cons in Hy as [->|Hy]; [by eapply nxt_Some, Hn|].
    apply list_elem_of_singleton in Hy as ->. by eapply prv_Some, Hp.
  - intros (Hn&Hp&Hl) y Hy. apply elem_of_cons in Hy as [->|Hy]; [by eapply nxt_Some, Hn|].
    by apply (IH x).
Qed.

Lemma lseg_insert m m' a l1 l2 b x p n :
  last (a :: l1) = Some p -> head (l2 ++ [b]) = Some n ->
  NoDup (a :: l1 ++ l2) -> NoDup (l1 ++ l2 ++ [b]) ->
  x ∉ a :: l1 ++ l2 ++ [b] ->
  linked m m' x p n -> lseg m a (l1 ++ l2) b -> lseg m' a (l1 ++ x :: l2) b.
Proof.
  intros Hp Hn Nd1 Nd2 Hx (D&N&P).
  revert a Hp Nd1 Hx. induction l1 as [|y l1 IH]; intros a Hp Nd1 Hx Hl; simpl in *.
  - injection Hp as ->. rewrite N P. destruct l2 as [|z l2]; simpl in *; injection Hn as ->.
    + rewrite N P. ring_solve.
    + destruct Hl as (Hz&Hz'&Hl). apply NoDup_cons in Nd1 as [Np Nd1]. rewrite N P.
      apply NoDup_cons in Nd2 as [Nn Nd2].
      split_and!; try by (ring_solve).
      eapply lseg_ext; [| |exact Hl]; intros y Hy; rewrite ?N ?P; ring_solve.
  - destruct Hl as (Hy&Hy'&Hl).
    assert (Hpin : p ∈ y :: l1) by (by apply last_Some_elem_of).
    assert (Hnin : n ∈ l2 ++ [b]) by (by apply head_Some_elem_of).
    apply NoDup_cons in Nd1 as [Na Nd1]. apply NoDup_cons in Nd2 as [Ny Nd2].
    rewrite N P. split_and!.
    + ring_solve.
    + ring_solve.
    + apply IH; try done. set_solver.
Qed.

Lemma lseg_remove m m' a l1 l2 b x p n :
  last (a :: l1) = Some p -> head (l2 ++ [b]) = Some n ->
  NoDup (a :: l1 ++ x :: l2) -> NoDup (l1 ++ x :: l2 ++ [b]) ->
  unlinked m m' x p n -> lseg m a (l1 ++ x :: l2) b -> lseg m' a (l1 ++ l2) b.
Proof.
  intros Hp Hn Nd1 Nd2 (D&N&P).
  revert a Hp Nd1. induction l1 as [|y l1 IH]; intros a Hp Nd1 Hl; simpl in *.
  - injection Hp as ->. destruct Hl as (Hx&Hx'&Hl).
    apply NoDup_cons in Nd1 as [Np Nd1]. apply NoDup_cons in Nd1 as [Nx Nd1].
    apply NoDup_cons in Nd2 as [Nx' Nd2].
    destruct l2 as [|z l2]; simpl in *; injection Hn as ->.
    + rewrite N P. ring_solve.
    + destruct Hl as (Hz&Hz'&Hl). rewrite N P. apply NoDup_cons in Nd2 as [Nn Nd2].
      split_and!; try by (ring_solve).
      eapply lseg_ext; [| |exact Hl]; intros y Hy; rewrite ?N ?P; ring_solve.
  - destruct Hl as (Hy&Hy'&Hl).
    assert (Hpin : p ∈ y :: l1) by (by apply last_Some_elem_of).
    assert (Hnin : n ∈ l2 ++ [b]) by (by apply head_Some_elem_of).
    apply NoDup_cons in Nd1 as [Na Nd1]. apply NoDup_cons in Nd2 as [Ny Nd2].
    rewrite N P. split_and!.
    + ring_solve.
    + ring_solve.
    + apply IH; done.
Qed.
End segments.

(** ** Rings *)

(** Rings disjoint from the nodes [s] are the same rings in [m']. *)
Definition rings_kept (m m' : lmem) (s : list Z) : Prop :=
  forall h l, dlist m h l -> (forall y, y ∈ h :: l -> y ∉ s) -> dlist m' h l.

Lemma wp_init m h :
  is_Some (m !! h) ->
  wp (toyfs_list_init h) m (fun _ m' => dlist m' h [] /\ rings_kept m m' [h]).
Proof.
  intros Hh. rewrite /toyfs_list_init.
  wp_step. apply wp_set_next; [done|intros m1 D1 N1 P1].
  apply wp_set_prev; [by apply D1|intros m2 D2 P2 N2]. split.
  - split; [apply NoDup_singleton|]. split.
    + rewrite N2 N1. by case_decide.
    + rewrite P2. by case_decide.
  - intros h' l' [Nd Hl] Hs. split; [done|].
    eapply lseg_ext; [| |exact Hl]; intros y Hy.
    + specialize (Hs _ Hy). rewrite N2 N1. ring_solve.
    + assert (y ∉ [h]) by (apply Hs; set_solver). rewrite P2. ring_solve.
Qed.

Lemma rings_kept_linked m m' x p n s :
  linked m m' x p n -> x ∈ s -> p ∈ s -> n ∈ s -> rings_kept m m' s.
Proof.
  intros (D&N&P) Hx Hp Hn h l [Hnd Hl] Hs. split; [done|].
  eapply lseg_ext; [| |exact Hl]; intros y Hy; rewrite ?N ?P.
  - specialize (Hs _ Hy). ring_solve.
  - assert (y ∉ s) by (apply Hs; set_solver). ring_solve.
Qed.
Lemma rings_kept_unlinked m m' x p n s :
  unlinked m m' x p n -> p ∈ s -> n ∈ s -> rings_kept m m' s.
Proof.
  intros (D&N&P) Hp Hn h l [Hnd Hl] Hs. split; [done|].
  eapply lseg_ext; [| |exact Hl]; intros y Hy; rewrite ?N ?P.
  - specialize (Hs _ Hy). ring_solve.
  - assert (y ∉ s) by (apply Hs; set_solver). ring_solve.
Qed.

(** Both neighbours of a cut of the ring are nodes of it. *)
Lemma ring_cut h (l1 l2 : list Z) :
  exists p n, last (h :: l1) = Some p /\ head (l2 ++ [h]) = Some n /\
              p ∈ h :: l1 /\ n ∈ h :: l2.
Proof.
  destruct (last (h :: l1)) as [p|] eqn:Ep; [|by apply last_None in Ep].
  destruct (head (l2 ++ [h])) as [n|] eqn:En; [|destruct l2; done].
  exists p, n. split_and!; try done.
  - by apply last_Some_elem_of.
  - apply head_Some_elem_of in En. set_solver.
Qed.

(** The fields at a cut of the ring. *)
Lemma dlist_cut m h l1 l2 p n :
  dlist m h (l1 ++ l2) -> last (h :: l1) = Some p -> head (l2 ++ [h]) = Some n ->
  nxt m p = Some n /\ prv m n = Some p.
Proof.
  intros [_ Hl] Hp Hn.
  assert (forall a, last (a :: l1) = Some p -> lseg m a (l1 ++ l2) h ->
            nxt m p = Some n /\ prv m n = Some p) as H; [|by eapply H].
  clear Hl Hp. induction l1 as [|y l1 IH]; intros a Hp Hl; simpl in *.
  - injection Hp as ->. destruct l2; simpl in *; injection Hn as ->; naive_solver.
  - apply (IH y); [exact Hp|naive_solver].
Qed.

Lemma NoDup_ring (h : Z) l : NoDup (h :: l) -> NoDup (l ++ [h]).
Proof. by rewrite -Permutation_cons_append. Qed.

Lemma dlist_linked m m' h l1 l2 x p n :
  dlist m h (l1 ++ l2) -> last (h :: l1) = Some p -> head (l2 ++ [h]) = Some n ->
  x ∉ h :: l1 ++ l2 -> linked m m' x p n -> dlist m' h (l1 ++ x :: l2).
Proof.
  intros [Hnd Hl] Hp Hn Hx HL. split.
  - apply NoDup_cons in Hnd as [Hh Hnd]. apply NoDup_cons. split; [set_solver|].
    rewrite -Permutation_middle. apply NoDup_cons. set_solver.
  - eapply lseg_insert; try done.
    + rewrite (assoc_L (++)). by apply NoDup_ring.
    + set_solver.
Qed.

Lemma dlist_unlinked m m' h l1 l2 x p n :
  dlist m h (l1 ++ x :: l2) -> last (h :: l1) = Some p -> head (l2 ++ [h]) = Some n ->
  unlinked m m' x p n -> dlist m' h (l1 ++ l2).
Proof.
  intros [Hnd Hl] Hp Hn HL. split.
  - move: Hnd. rewrite -Permutation_middle. rewrite !NoDup_cons. set_solver.
  - eapply lseg_remove; try done.
    rewrite (assoc_L (++) l1 (x :: l2) [h]). by apply NoDup_ring.
Qed.

(** *** The operations against the list operations *)
Lemma insert_before_split x y l1 l2 :
  y ∉ l1 -> insert_before x y (l1 ++ y :: l2) = l1 ++ x :: y :: l2.
Proof.
  induction l1 as [|z l1 IH]; intros Hy; simpl.
  - by rewrite bool_decide_eq_true_2.
  - rewrite bool_decide_eq_false_2; [set_solver|]. rewrite IH; [set_solver|done].
Qed.
Lemma insert_before_end x y l : y ∉ l -> insert_before x y l = l ++ [x].
Proof.
  induction l as [|z l IH]; intros Hy; simpl; [done|].
  rewrite bool_decide_eq_false_2; [set_solver|]. rewrite IH; [set_solver|done].
Qed.
Lemma remove1_split x l1 l2 : x ∉ l1 -> remove1 x (l1 ++ x :: l2) = l1 ++ l2.
Proof.
  induction l1 as [|z l1 IH]; intros Hy; simpl.
  - by rewrite bool_decide_eq_true_2.
  - rewrite bool_decide_eq_false_2; [set_solver|]. rewrite IH; [set_solver|done].
Qed.

Lemma remove1_perm x l : x ∈ l -> l ≡ₚ x :: remove1 x l.
Proof.
  induction l as [|y l IH]; [by intros ?%elem_of_nil|]. intros Hx. simpl. case_bool_decide as E.
  - by subst y.
  - rewrite {1}IH; [set_solver + Hx E|]. constructor.
Qed.
Lemma remove1_sublist x l : sublist (remove1 x l) l.
Proof. induction l as [|y l IH]; simpl; [constructor|]. case_bool_decide; by constructor. Qed.
Lemma elem_of_sublist (l l' : list Z) x : sublist l' l -> x ∈ l' -> x ∈ l.
Proof. intros Hs%sublist_submseteq Hx. by eapply elem_of_submseteq. Qed.
Lemma remove1_sub x l y : y ∈ remove1 x l -> y ∈ l.
Proof. by apply elem_of_sublist, remove1_sublist. Qed.
Lemma elem_of_remove1 x l y : NoDup l -> y ∈ remove1 x l <-> y ∈ l /\ y <> x.
Proof.
  intros Hnd. destruct (decide (x ∈ l)) as [Hx|Hx].
  - pose proof (remove1_perm x l Hx) as Hp. rewrite Hp in Hnd. apply NoDup_cons in Hnd as [Hn _].
    rewrite {2}Hp elem_of_cons. naive_solver.
  - assert (remove1 x l = l) as ->.
    { clear Hnd. induction l as [|z l IH]; [done|]. simpl. rewrite bool_decide_eq_false_2; [set_solver + Hx|].
      f_equal. apply IH. set_solver + Hx. }
    naive_solver.
Qed.
Lemma NoDup_remove1 x l : NoDup l -> NoDup (remove1 x l).
Proof. intros Hnd. eapply sublist_NoDup; [done|apply remove1_sublist]. Qed.
Lemma length_remove1 x l : x ∈ l -> length l = S (length (remove1 x l)).
Proof. intros Hx. by rewrite {1}(remove1_perm x l Hx). Qed.

(** Linking [x] at a cut of the ring. *)
Lemma wp_link_at m h l1 l2 x p n :
  dlist m h (l1 ++ l2) -> last (h :: l1) = Some p -> head (l2 ++ [h]) = Some n ->
  x ∉ h :: l1 ++ l2 -> is_Some (m !! x) ->
  wp (_link_elem x p n) m (fun _ m' =>
    dlist m' h (l1 ++ x :: l2) /\ rings_kept m m' (x :: h :: l1 ++ l2)).
Proof.
  intros Hd Hp Hn Hx Sx.
  destruct (ring_cut h l1 l2) as (p'&n'&Ep&En&Hp'&Hn').
  rewrite Ep in Hp. injection Hp as ->. rewrite En in Hn. injection Hn as ->.
  destruct (dlist_cut _ _ _ _ _ _ Hd Ep En) as [Np Pn].
  apply wp_link_elem; [done|by eapply nxt_Some, Np|by eapply prv_Some, Pn|set_solver..|].
  intros m' HL. split; [by eapply dlist_linked|].
  eapply rings_kept_linked; [exact HL|set_solver..].
Qed.

Lemma toyfs_list_add_before_core m h l x y :
  dlist m h l -> y ∈ h :: l -> x ∉ h :: l -> is_Some (m !! x) ->
  wp (toyfs_list_add_before x y) m (fun _ m' =>
    dlist m' h (insert_before x y l) /\ rings_kept m m' (x :: h :: l)).
Proof.
  intros Hd Hy Hx Sx. rewrite /toyfs_list_add_before.
  assert (exists l1 l2, l = l1 ++ l2 /\ head (l2 ++ [h]) = Some y /\
            insert_before x y l = l1 ++ x :: l2) as (l1&l2&->&Hn&->).
  { apply elem_of_cons in Hy as [->|Hy].
    - exists l, []. rewrite app_nil_r insert_before_end; [|done].
      destruct Hd as [[? _]%NoDup_cons _]. done.
    - apply list_elem_of_split_l in Hy as (l1&l2&->&Hy).
      exists l1, (y :: l2). by rewrite insert_before_split. }
  destruct (ring_cut h l1 l2) as (p&n&Ep&En&_).
  rewrite En in Hn. injection Hn as ->.
  wp_step. eapply wp_get_prev; [by eapply (dlist_cut m h l1 l2)|].
  by apply wp_link_at.
Qed.

(** [toyfs_list_add_before(elem, head)] inserts [elem] just before [head] in
    the ring they live in (at its end when [head] is the list head), runs without
    touching an unmapped address, and keeps every ring disjoint from it. *)
Theorem toyfs_list_add_before_spec m h l x y :
  dlist m h l -> y ∈ h :: l -> x ∉ h :: l -> is_Some (m !! x) ->
  wp (toyfs_list_add_before x y) m (fun _ m' =>
    dlist m' h (insert_before x y l) /\ rings_kept m m' (x :: h :: l)).
Proof. apply toyfs_list_add_before_core. Qed.

(** Adding at the head's [prev] appends, whatever the function is called. *)
Lemma wp_add_tail m h l x :
  dlist m h l -> x ∉ h :: l -> is_Some (m !! x) ->
  wp (toyfs_list_add_tail x h) m (fun _ m' =>
    dlist m' h (l ++ [x]) /\ rings_kept m m' (x :: h :: l)).
Proof.
  intros Hd Hx Sx. pose proof Hd as [[Hh _]%NoDup_cons _].
  rewrite -(insert_before_end x h l); [done|].
  apply toyfs_list_add_before_core; [done|set_solver|done..].
Qed.

(** [toyfs_list_add] (fs/toyfs/common.c) appends [new] at the end of the
    list, where a_list.h's [a_list_add] puts it at the front; both keep every
    disjoint ring. *)
Theorem list_add_ends m h l x :
  dlist m h l -> x ∉ h :: l -> is_Some (m !! x) ->
  wp (toyfs_list_add x h) m (fun _ m' =>
    dlist m' h (l ++ [x]) /\ rings_kept m m' (x :: h :: l)) /\
  wp (a_list_add_tail x h) m (fun _ m' =>
    dlist m' h (l ++ [x]) /\ rings_kept m m' (x :: h :: l)) /\
  wp (a_list_add x h) m (fun _ m' =>
    dlist m' h (x :: l) /\ rings_kept m m' (x :: h :: l)).
Proof.
  intros Hd Hx Sx. split_and!; [by apply wp_add_tail..|].
  destruct (ring_cut h [] l) as (p&n&Ep&En&_). injection Ep as <-.
  rewrite /a_list_add. wp_step. eapply wp_get_next; [by eapply (dlist_cut m h [] l)|].
  by apply (wp_link_at m h [] l).
Qed.

(** Deleting a member removes exactly it; after [a_list_del_init] the node
    is an empty ring of its own; disjoint rings are kept. *)
Theorem list_del_spec m h l x :
  dlist m h l -> x ∈ l ->
  wp (toyfs_list_del x) m (fun _ m' =>
    dlist m' h (remove1 x l) /\ rings_kept m m' (h :: l)) /\
  wp (a_list_del_init x) m (fun _ m' =>
    dlist m' h (remove1 x l) /\ dlist m' x [] /\ rings_kept m m' (h :: l)).
Proof.
  intros Hd Hx. apply list_elem_of_split_l in Hx as (l1&l2&->&Hx1).
  rewrite remove1_split; [done|].
  assert (Hdel : wp (toyfs_list_del x) m (fun _ m' =>
    dlist m' h (l1 ++ l2) /\ is_Some (m' !! x) /\ rings_kept m m' (h :: l1 ++ x :: l2))).
  { destruct (ring_cut h l1 l2) as (p&n&Ep&En&Hp&Hn).
    destruct (dlist_cut m h l1 (x :: l2) p x Hd Ep) as [Np Px]; [done|].
    assert (last (h :: l1 ++ [x]) = Some x) as Lx by (by rewrite app_comm_cons last_snoc).
    destruct (dlist_cut m h (l1 ++ [x]) l2 x n) as [Nx Pn]; try done.
    { by rewrite -(assoc_L (++)). }
    pose proof Hd as [Nd _]. rewrite -Permutation_middle !NoDup_cons in Nd.
    eapply wp_unlink; [done|done|set_solver..|by eapply nxt_Some, Np|by eapply prv_Some, Pn|].
    intros m' HU. split_and!.
    - by eapply dlist_unlinked.
    - apply HU. by eapply nxt_Some, Nx.
    - eapply rings_kept_unlinked; [exact HU|set_solver..]. }
  split; [eapply wp_mono; [exact Hdel|naive_solver]|].
  rewrite /a_list_del_init. wp_step. eapply wp_mono; [exact Hdel|].
  intros _ m1 (Hd1&Sx&Hk). eapply wp_mono; [by apply wp_init|].
  intros _ m2 [Hx0 Hk2]. split_and!; [|done|].
  - apply Hk2; [done|]. destruct Hd as [Nd _].
    rewrite -Permutation_middle !NoDup_cons in Nd. set_solver.
  - intros h' l' Hd' Hs. apply Hk2; [by apply Hk|set_solver].
Qed.

Lemma a_list_walk_spec m h l : forall fuel a pos,
  NoDup (h :: l) -> (length l < fuel)%nat -> lseg m a l h ->
  (nxt m a = Some pos -> wp (a_list_walk fuel pos h) m (fun r m' => r = l /\ m' = m)).
Proof.
  induction l as [|x l IH]; intros fuel a pos Hnd Hf Hl Hpos; destruct fuel as [|fuel]; try (simpl in Hf; lia).
  - destruct Hl as [Hn _]. rewrite Hn in Hpos. injection Hpos as <-.
    cbn [a_list_walk]. by rewrite bool_decide_eq_true_2.
  - destruct Hl as (Hn&_&Hl). rewrite Hn in Hpos. injection Hpos as <-.
    rewrite !NoDup_cons in Hnd. cbn [a_list_walk]. rewrite bool_decide_eq_false_2; [set_solver|].
    destruct l as [|y l'].
    + destruct Hl as [Hx Hp]. wp_step. eapply wp_get_next; [exact Hx|].
      wp_step. eapply wp_mono; [apply (IH fuel x h)|]; [|simpl in *; lia|done|done|].
      * apply NoDup_singleton.
      * intros r m' [-> ->]. by wp_step.
    + pose proof Hl as (Hx&_). wp_step. eapply wp_get_next; [exact Hx|].
      wp_step. eapply wp_mono; [apply (IH fuel x y)|]; [|simpl in *; lia|done|done|].
      * destruct Hnd as (Hh&_&Hny). apply NoDup_cons. split; [set_solver|exact Hny].
      * intros r m' [-> ->]. by wp_step.
Qed.

(** Walking the ring ([a_list_for_each_entry]) terminates within
    [length l + 1] steps, visits exactly [l] in order and changes nothing, and
    the emptiness tests answer whether [l] is empty. *)
Theorem list_for_each_spec m h l fuel :
  dlist m h l -> (length l < fuel)%nat ->
  a_list_for_each_entry fuel h m = Some (l, m) /\
  toyfs_list_empty h m = Some (bool_decide (l = []), m) /\
  a_list_empty h m = Some (bool_decide (l = []), m).
Proof.
  intros [Hnd Hl] Hf.
  assert (exists pos, nxt m h = Some pos /\ (pos = h <-> l = [])) as (pos&Hpos&Hnil).
  { destruct l as [|x l]; [exists h; naive_solver|].
    exists x. split; [apply Hl|]. apply NoDup_cons in Hnd. set_solver. }
  assert (He : toyfs_list_empty h m = Some (bool_decide (l = []), m)).
  { rewrite /toyfs_list_empty. rewrite (bool_decide_ext _ _ (iff_sym Hnil)).
    assert (wp (get_next h) m (fun v m' => v = pos /\ m' = m)) as Hg by (by eapply wp_get_next).
    apply wp_exists in Hg as (?&?&Hg&->&->). by rewrite /mbind /ST_bind Hg. }
  split_and!; [|done..].
  assert (wp (a_list_for_each_entry fuel h) m (fun r m' => r = l /\ m' = m)) as H.
  { rewrite /a_list_for_each_entry. wp_step. eapply wp_get_next; [exact Hpos|].
    by eapply a_list_walk_spec. }
  apply wp_exists in H as (?&?&->&->&->). done.
Qed.

(** ** Witnesses: the ring 100 -> 1 -> 2, the free node 3 and the ring 200 -> 7. *)
Definition ring_example : lmem :=
  list_to_map [(100, ListHead 1 2); (1, ListHead 2 100); (2, ListHead 100 1);
               (3, ListHead 0 0); (200, ListHead 7 7); (7, ListHead 200 200)].

Lemma ring_example_dlist : dlist ring_example 100 [1; 2].
Proof. split; [repeat constructor; set_solver|]. by vm_compute. Qed.
Lemma ring_example_other : dlist ring_example 200 [7].
Proof. split; [repeat constructor; set_solver|]. by vm_compute. Qed.

Lemma toyfs_list_add_before_spec_witness :
  wp (toyfs_list_add_before 3 2) ring_example (fun _ m' =>
    dlist m' 100 [1; 3; 2] /\ dlist m' 200 [7]).
Proof.
  eapply wp_mono; [apply (toyfs_list_add_before_spec ring_example 100 [1; 2] 3 2)|].
  - exact ring_example_dlist.
  - set_solver.
  - set_solver.
  - by eexists.
  - intros _ m' [H1 H2]. split; [exact H1|].
    apply H2; [exact ring_example_other|set_solver].
Defined.

Lemma list_add_ends_witness :
  wp (toyfs_list_add 3 100) ring_example (fun _ m' => dlist m' 100 [1; 2; 3]) /\
  wp (a_list_add 3 100) ring_example (fun _ m' => dlist m' 100 [3; 1; 2]).
Proof.
  destruct (list_add_ends ring_example 100 [1; 2] 3) as (H1&_&H2).
  - exact ring_example_dlist.
  - set_solver.
  - by eexists.
  - split; eapply wp_mono; [exact H1| |exact H2|]; naive_solver.
Defined.

Lemma list_del_spec_witness :
  wp (a_list_del_init 1) ring_example (fun _ m' => dlist m' 100 [2] /\ dlist m' 1 []).
Proof.
  destruct (list_del_spec ring_example 100 [1; 2] 1) as (_&H).
  - exact ring_example_dlist.
  - set_solver.
  - eapply wp_mono; [exact H|naive_solver].
Defined.

Lemma list_for_each_spec_witness :
  a_list_for_each_entry 3 100 ring_example = Some ([1; 2], ring_example).
Proof.
  destruct (list_for_each_spec ring_example 100 [1; 2] 3) as (H&_).
  - exact ring_example_dlist.
  - simpl; lia.
  - exact H.
Defined.
