(* ===== verification/State.v ===== *)
(** * The state of toyfs: the structures of fs/toyfs/toyfs.h, the memory they
    live in, and the primitives of its environment (the multi-device API of the
    kernel bridge, and malloc).

    Addresses are integers.  Memory is typed: one heap per type of object, so a
    page that is carved into records leaves the page heap, and an access to an
    object of the wrong type aborts. *)

From S2P Require Import Prelude.

(** ** Code outside the repository *)

(** md.h and zus_api.h: block numbers and addresses of the pmem device, and the
    limits of the wire protocol. *)
Class MdApi : Type := {
  md_baddr : Z -> Z;
  md_addr_to_offset : Z -> Z;
  md_o2p : Z -> Z;
  md_p2o : Z -> Z;
  pmem_dpp_t : Z -> Z;
  md_t1_blocks : Z;
  ZUS_API_MAP_MAX_SIZE : Z;
  ZUFS_NAME_LEN : Z;
  ZUFS_FL_TRUNCATE : Z;
}.
(** What toyfs relies on: the tier-1 device is one contiguous mapping of
    [md_t1_blocks] pages, offsets are byte offsets into it and page numbers are
    offsets shifted by the page shift. *)
Class MdLaws `{MdApi} : Prop := {
  md_baddr_linear bn k : 0 < bn -> 0 <= k -> md_baddr (bn + k) = md_baddr bn + PAGE_SIZE * k;
  md_baddr_pos bn : 0 < bn -> 0 < md_baddr bn;
  md_bn_roundtrip bn : 0 < bn < md_t1_blocks -> md_o2p (md_addr_to_offset (md_baddr bn)) = bn;
  md_p2o_page n : md_p2o n = PAGE_SIZE * n;
  md_dpp_roundtrip bn : 0 < bn < md_t1_blocks -> md_o2p (pmem_dpp_t (md_addr_to_offset (md_baddr bn))) = bn;
  pmem_dpp_range bn : 0 < bn < md_t1_blocks -> 0 <= pmem_dpp_t (md_addr_to_offset (md_baddr bn)) < 2 ^ 64;
  md_map_max : 0 < ZUS_API_MAP_MAX_SIZE < 2 ^ 50;
  md_t1_bound : md_t1_blocks < 2 ^ 51;
}.
(** malloc: given the addresses in use, an address or NULL. *)
Class MallocApi : Type := zus_malloc : gset Z -> option Z.
Class MallocLaws `{MallocApi} : Prop :=
  zus_malloc_fresh D p : zus_malloc D = Some p -> p ∉ D.

(** ** Data *)

(** struct statvfs, the fields toyfs fills *)
Record statvfs := Statvfs {
  f_bsize : Z;
  f_frsize : Z;
  f_blocks : Z;
  f_bfree : Z;
  f_bavail : Z;
  f_files : Z;
  f_ffree : Z;
  f_favail : Z;
  f_namemax : Z;
  f_flag : Z }.

(** The pool: the mutex is its recursion depth, the three free lists are the rings
    of CList.v carried as lists of record addresses, [pages] heads the chain of
    free pages. *)
Record toyfs_pool := ToyfsPool {
  p_mutex : Z;
  pages : option Z;
  free_dblkrefs : list Z;
  free_iblkrefs : list Z;
  free_inodes : list Z;
  pmem : Z;
  msz : Z }.

(** The inode table: a slot holds the chain of its [toyfs_inode_ref]s. *)
Record toyfs_itable := ToyfsItable {
  t_mutex : Z;
  icount : Z;
  imap : gmap Z (list Z) }.

(** A data-block reference: a reference count and a block number. *)
Record toyfs_dblkref := ToyfsDblkref {
  refcnt : Z;
  bn : Z }.

(** An inode-block reference: the block of a file at [off]. *)
Record toyfs_iblkref := ToyfsIblkref {
  dblkref : option Z;
  off : Z }.

(** An inode, also [struct zus_inode], which it must match field by field
    ([toyfs_ti2zi] is a cast).  [list_head] is the ring of the inode: the
    iblkrefs of a regular file, the dentries pages of a directory.  [i_union] is
    the 32-byte union of i_rdev, i_symlink, i_sym_dpp and i_dir. *)
Record toyfs_inode := ToyfsInode {
  i_flags : Z;
  i_mode : Z;
  i_nlink : Z;
  i_size : Z;
  list_head : list Z;
  i_blocks : Z;
  i_mtime : Z;
  i_ctime : Z;
  i_atime : Z;
  i_ino : Z;
  i_uid : Z;
  i_gid : Z;
  i_xattr : Z;
  i_generation : Z;
  i_union : list Z }.

(** The in-core inode; [zi] is [zii.zi], [op] and [zsbi] tell whether [zii.op] and
    [sbi] are set. *)
Record toyfs_inode_info := ToyfsInodeInfo {
  zi : option Z;
  zop : bool;
  tii_sbi : bool;
  ti : option Z;
  ino : Z;
  imagic : Z;
  ref : Z;
  mapped : bool;
  valid : bool }.

(** An entry of the inode table. *)
Record toyfs_inode_ref := ToyfsInodeRef {
  r_tii : option Z;
  r_ti : option Z;
  r_ino : Z }.

(** A page of the pool: its 4096 bytes, or the link to the next free page
    ([union toyfs_pool_pmemb]). *)
Inductive toyfs_pool_pmemb : Type :=
| Pmemb (dat : list Z)
| PoolNext (next : option Z).

(** The super-block info, with the memory it lives in: a heap per type of object. *)
Record toyfs_sb_info := ToyfsSbInfo {
  s_statvfs : statvfs;
  s_mutex : Z;
  s_inodes_lock : Z;
  s_pool : toyfs_pool;
  s_itable : toyfs_itable;
  s_root : option Z;
  z_root : option Z;
  s_top_ino : Z;
  h_page : gmap Z toyfs_pool_pmemb;
  h_dblkref : gmap Z toyfs_dblkref;
  h_iblkref : gmap Z toyfs_iblkref;
  h_inode : gmap Z toyfs_inode;
  h_tii : gmap Z toyfs_inode_info;
  h_tir : gmap Z toyfs_inode_ref }.

(** Field updates of [statvfs]. *)
Definition upd_f_bsize (g : Z -> Z) (x : statvfs) : statvfs :=
  Statvfs (g (f_bsize x)) (f_frsize x) (f_blocks x) (f_bfree x) (f_bavail x) (f_files x) (f_ffree x) (f_favail x) (f_namemax x) (f_flag x).
Definition upd_f_frsize (g : Z -> Z) (x : statvfs) : statvfs :=
  Statvfs (f_bsize x) (g (f_frsize x)) (f_blocks x) (f_bfree x) (f_bavail x) (f_files x) (f_ffree x) (f_favail x) (f_namemax x) (f_flag x).
Definition upd_f_blocks (g : Z -> Z) (x : statvfs) : statvfs :=
  Statvfs (f_bsize x) (f_frsize x) (g (f_blocks x)) (f_bfree x) (f_bavail x) (f_files x) (f_ffree x) (f_favail x) (f_namemax x) (f_flag x).
Definition upd_f_bfree (g : Z -> Z) (x : statvfs) : statvfs :=
  Statvfs (f_bsize x) (f_frsize x) (f_blocks x) (g (f_bfree x)) (f_bavail x) (f_files x) (f_ffree x) (f_favail x) (f_namemax x) (f_flag x).
Definition upd_f_bavail (g : Z -> Z) (x : statvfs) : statvfs :=
  Statvfs (f_bsize x) (f_frsize x) (f_blocks x) (f_bfree x) (g (f_bavail x)) (f_files x) (f_ffree x) (f_favail x) (f_namemax x) (f_flag x).
Definition upd_f_files (g : Z -> Z) (x : statvfs) : statvfs :=
  Statvfs (f_bsize x) (f_frsize x) (f_blocks x) (f_bfree x) (f_bavail x) (g (f_files x)) (f_ffree x) (f_favail x) (f_namemax x) (f_flag x).
Definition upd_f_ffree (g : Z -> Z) (x : statvfs) : statvfs :=
  Statvfs (f_bsize x) (f_frsize x) (f_blocks x) (f_bfree x) (f_bavail x) (f_files x) (g (f_ffree x)) (f_favail x) (f_namemax x) (f_flag x).
Definition upd_f_favail (g : Z -> Z) (x : statvfs) : statvfs :=
  Statvfs (f_bsize x) (f_frsize x) (f_blocks x) (f_bfree x) (f_bavail x) (f_files x) (f_ffree x) (g (f_favail x)) (f_namemax x) (f_flag x).
Definition upd_f_namemax (g : Z -> Z) (x : statvfs) : statvfs :=
  Statvfs (f_bsize x) (f_frsize x) (f_blocks x) (f_bfree x) (f_bavail x) (f_files x) (f_ffree x) (f_favail x) (g (f_namemax x)) (f_flag x).
Definition upd_f_flag (g : Z -> Z) (x : statvfs) : statvfs :=
  Statvfs (f_bsize x) (f_frsize x) (f_blocks x) (f_bfree x) (f_bavail x) (f_files x) (f_ffree x) (f_favail x) (f_namemax x) (g (f_flag x)).

(** Field updates of [toyfs_pool]. *)
Definition upd_p_mutex (g : Z -> Z) (x : toyfs_pool) : toyfs_pool :=
  ToyfsPool (g (p_mutex x)) (pages x) (free_dblkrefs x) (free_iblkrefs x) (free_inodes x) (pmem x) (msz x).
Definition upd_pages (g : option Z -> option Z) (x : toyfs_pool) : toyfs_pool :=
  ToyfsPool (p_mutex x) (g (pages x)) (free_dblkrefs x) (free_iblkrefs x) (free_inodes x) (pmem x) (msz x).
Definition upd_free_dblkrefs (g : list Z -> list Z) (x : toyfs_pool) : toyfs_pool :=
  ToyfsPool (p_mutex x) (pages x) (g (free_dblkrefs x)) (free_iblkrefs x) (free_inodes x) (pmem x) (msz x).
Definition upd_free_iblkrefs (g : list Z -> list Z) (x : toyfs_pool) : toyfs_pool :=
  ToyfsPool (p_mutex x) (pages x) (free_dblkrefs x) (g (free_iblkrefs x)) (free_inodes x) (pmem x) (msz x).
Definition upd_free_inodes (g : list Z -> list Z) (x : toyfs_pool) : toyfs_pool :=
  ToyfsPool (p_mutex x) (pages x) (free_dblkrefs x) (free_iblkrefs x) (g (free_inodes x)) (pmem x) (msz x).
Definition upd_pmem (g : Z -> Z) (x : toyfs_pool) : toyfs_pool :=
  ToyfsPool (p_mutex x) (pages x) (free_dblkrefs x) (free_iblkrefs x) (free_inodes x) (g (pmem x)) (msz x).
Definition upd_msz (g : Z -> Z) (x : toyfs_pool) : toyfs_pool :=
  ToyfsPool (p_mutex x) (pages x) (free_dblkrefs x) (free_iblkrefs x) (free_inodes x) (pmem x) (g (msz x)).

(** Field updates of [toyfs_itable]. *)
Definition upd_t_mutex (g : Z -> Z) (x : toyfs_itable) : toyfs_itable :=
  ToyfsItable (g (t_mutex x)) (icount x) (imap x).
Definition upd_icount (g : Z -> Z) (x : toyfs_itable) : toyfs_itable :=
  ToyfsItable (t_mutex x) (g (icount x)) (imap x).
Definition upd_imap (g : gmap Z (list Z) -> gmap Z (list Z)) (x : toyfs_itable) : toyfs_itable :=
  ToyfsItable (t_mutex x) (icount x) (g (imap x)).

(** Field updates of [toyfs_dblkref]. *)
Definition upd_refcnt (g : Z -> Z) (x : toyfs_dblkref) : toyfs_dblkref :=
  ToyfsDblkref (g (refcnt x)) (bn x).
Definition upd_bn (g : Z -> Z) (x : toyfs_dblkref) : toyfs_dblkref :=
  ToyfsDblkref (refcnt x) (g (bn x)).

(** Field updates of [toyfs_iblkref]. *)
Definition upd_dblkref (g : option Z -> option Z) (x : toyfs_iblkref) : toyfs_iblkref :=
  ToyfsIblkref (g (dblkref x)) (off x).
Definition upd_off (g : Z -> Z) (x : toyfs_iblkref) : toyfs_iblkref :=
  ToyfsIblkref (dblkref x) (g (off x)).

(** Field updates of [toyfs_inode]. *)
Definition upd_i_flags (g : Z -> Z) (x : toyfs_inode) : toyfs_inode :=
  ToyfsInode (g (i_flags x)) (i_mode x) (i_nlink x) (i_size x) (list_head x) (i_blocks x) (i_mtime x) (i_ctime x) (i_atime x) (i_ino x) (i_uid x) (i_gid x) (i_xattr x) (i_generation x) (i_union x).
Definition upd_i_mode (g : Z -> Z) (x : toyfs_inode) : toyfs_inode :=
  ToyfsInode (i_flags x) (g (i_mode x)) (i_nlink x) (i_size x) (list_head x) (i_blocks x) (i_mtime x) (i_ctime x) (i_atime x) (i_ino x) (i_uid x) (i_gid x) (i_xattr x) (i_generation x) (i_union x).
Definition upd_i_nlink (g : Z -> Z) (x : toyfs_inode) : toyfs_inode :=
  ToyfsInode (i_flags x) (i_mode x) (g (i_nlink x)) (i_size x) (list_head x) (i_blocks x) (i_mtime x) (i_ctime x) (i_atime x) (i_ino x) (i_uid x) (i_gid x) (i_xattr x) (i_generation x) (i_union x).
Definition upd_i_size (g : Z -> Z) (x : toyfs_inode) : toyfs_inode :=
  ToyfsInode (i_flags x) (i_mode x) (i_nlink x) (g (i_size x)) (list_head x) (i_blocks x) (i_mtime x) (i_ctime x) (i_atime x) (i_ino x) (i_uid x) (i_gid x) (i_xattr x) (i_generation x) (i_union x).
Definition upd_list_head (g : list Z -> list Z) (x : toyfs_inode) : toyfs_inode :=
  ToyfsInode (i_flags x) (i_mode x) (i_nlink x) (i_size x) (g (list_head x)) (i_blocks x) (i_mtime x) (i_ctime x) (i_atime x) (i_ino x) (i_uid x) (i_gid x) (i_xattr x) (i_generation x) (i_union x).
Definition upd_i_blocks (g : Z -> Z) (x : toyfs_inode) : toyfs_inode :=
  ToyfsInode (i_flags x) (i_mode x) (i_nlink x) (i_size x) (list_head x) (g (i_blocks x)) (i_mtime x) (i_ctime x) (i_atime x) (i_ino x) (i_uid x) (i_gid x) (i_xattr x) (i_generation x) (i_union x).
Definition upd_i_mtime (g : Z -> Z) (x : toyfs_inode) : toyfs_inode :=
  ToyfsInode (i_flags x) (i_mode x) (i_nlink x) (i_size x) (list_head x) (i_blocks x) (g (i_mtime x)) (i_ctime x) (i_atime x) (i_ino x) (i_uid x) (i_gid x) (i_xattr x) (i_generation x) (i_union x).
Definition upd_i_ctime (g : Z -> Z) (x : toyfs_inode) : toyfs_inode :=
  ToyfsInode (i_flags x) (i_mode x) (i_nlink x) (i_size x) (list_head x) (i_blocks x) (i_mtime x) (g (i_ctime x)) (i_atime x) (i_ino x) (i_uid x) (i_gid x) (i_xattr x) (i_generation x) (i_union x).
Definition upd_i_atime (g : Z -> Z) (x : toyfs_inode) : toyfs_inode :=
  ToyfsInode (i_flags x) (i_mode x) (i_nlink x) (i_size x) (list_head x) (i_blocks x) (i_mtime x) (i_ctime x) (g (i_atime x)) (i_ino x) (i_uid x) (i_gid x) (i_xattr x) (i_generation x) (i_union x).
Definition upd_i_ino (g : Z -> Z) (x : toyfs_inode) : toyfs_inode :=
  ToyfsInode (i_flags x) (i_mode x) (i_nlink x) (i_size x) (list_head x) (i_blocks x) (i_mtime x) (i_ctime x) (i_atime x) (g (i_ino x)) (i_uid x) (i_gid x) (i_xattr x) (i_generation x) (i_union x).
Definition upd_i_uid (g : Z -> Z) (x : toyfs_inode) : toyfs_inode :=
  ToyfsInode (i_flags x) (i_mode x) (i_nlink x) (i_size x) (list_head x) (i_blocks x) (i_mtime x) (i_ctime x) (i_atime x) (i_ino x) (g (i_uid x)) (i_gid x) (i_xattr x) (i_generation x) (i_union x).
Definition upd_i_gid (g : Z -> Z) (x : toyfs_inode) : toyfs_inode :=
  ToyfsInode (i_flags x) (i_mode x) (i_nlink x) (i_size x) (list_head x) (i_blocks x) (i_mtime x) (i_ctime x) (i_atime x) (i_ino x) (i_uid x) (g (i_gid x)) (i_xattr x) (i_generation x) (i_union x).
Definition upd_i_xattr (g : Z -> Z) (x : toyfs_inode) : toyfs_inode :=
  ToyfsInode (i_flags x) (i_mode x) (i_nlink x) (i_size x) (list_head x) (i_blocks x) (i_mtime x) (i_ctime x) (i_atime x) (i_ino x) (i_uid x) (i_gid x) (g (i_xattr x)) (i_generation x) (i_union x).
Definition upd_i_generation (g : Z -> Z) (x : toyfs_inode) : toyfs_inode :=
  ToyfsInode (i_flags x) (i_mode x) (i_nlink x) (i_size x) (list_head x) (i_blocks x) (i_mtime x) (i_ctime x) (i_atime x) (i_ino x) (i_uid x) (i_gid x) (i_xattr x) (g (i_generation x)) (i_union x).
Definition upd_i_union (g : list Z -> list Z) (x : toyfs_inode) : toyfs_inode :=
  ToyfsInode (i_flags x) (i_mode x) (i_nlink x) (i_size x) (list_head x) (i_blocks x) (i_mtime x) (i_ctime x) (i_atime x) (i_ino x) (i_uid x) (i_gid x) (i_xattr x) (i_generation x) (g (i_union x)).

(** Field updates of [toyfs_inode_info]. *)
Definition upd_zi (g : option Z -> option Z) (x : toyfs_inode_info) : toyfs_inode_info :=
  ToyfsInodeInfo (g (zi x)) (zop x) (tii_sbi x) (ti x) (ino x) (imagic x) (ref x) (mapped x) (valid x).
Definition upd_zop (g : bool -> bool) (x : toyfs_inode_info) : toyfs_inode_info :=
  ToyfsInodeInfo (zi x) (g (zop x)) (tii_sbi x) (ti x) (ino x) (imagic x) (ref x) (mapped x) (valid x).
Definition upd_tii_sbi (g : bool -> bool) (x : toyfs_inode_info) : toyfs_inode_info :=
  ToyfsInodeInfo (zi x) (zop x) (g (tii_sbi x)) (ti x) (ino x) (imagic x) (ref x) (mapped x) (valid x).
Definition upd_ti (g : option Z -> option Z) (x : toyfs_inode_info) : toyfs_inode_info :=
  ToyfsInodeInfo (zi x) (zop x) (tii_sbi x) (g (ti x)) (ino x) (imagic x) (ref x) (mapped x) (valid x).
Definition upd_ino (g : Z -> Z) (x : toyfs_inode_info) : toyfs_inode_info :=
  ToyfsInodeInfo (zi x) (zop x) (tii_sbi x) (ti x) (g (ino x)) (imagic x) (ref x) (mapped x) (valid x).
Definition upd_imagic (g : Z -> Z) (x : toyfs_inode_info) : toyfs_inode_info :=
  ToyfsInodeInfo (zi x) (zop x) (tii_sbi x) (ti x) (ino x) (g (imagic x)) (ref x) (mapped x) (valid x).
Definition upd_ref (g : Z -> Z) (x : toyfs_inode_info) : toyfs_inode_info :=
  ToyfsInodeInfo (zi x) (zop x) (tii_sbi x) (ti x) (ino x) (imagic x) (g (ref x)) (mapped x) (valid x).
Definition upd_mapped (g : bool -> bool) (x : toyfs_inode_info) : toyfs_inode_info :=
  ToyfsInodeInfo (zi x) (zop x) (tii_sbi x) (ti x) (ino x) (imagic x) (ref x) (g (mapped x)) (valid x).
Definition upd_valid (g : bool -> bool) (x : toyfs_inode_info) : toyfs_inode_info :=
  ToyfsInodeInfo (zi x) (zop x) (tii_sbi x) (ti x) (ino x) (imagic x) (ref x) (mapped x) (g (valid x)).

(** Field updates of [toyfs_inode_ref]. *)
Definition upd_r_tii (g : option Z -> option Z) (x : toyfs_inode_ref) : toyfs_inode_ref :=
  ToyfsInodeRef (g (r_tii x)) (r_ti x) (r_ino x).
Definition upd_r_ti (g : option Z -> option Z) (x : toyfs_inode_ref) : toyfs_inode_ref :=
  ToyfsInodeRef (r_tii x) (g (r_ti x)) (r_ino x).
Definition upd_r_ino (g : Z -> Z) (x : toyfs_inode_ref) : toyfs_inode_ref :=
  ToyfsInodeRef (r_tii x) (r_ti x) (g (r_ino x)).

(** Field updates of [toyfs_sb_info]. *)
Definition upd_s_statvfs (g : statvfs -> statvfs) (x : toyfs_sb_info) : toyfs_sb_info :=
  ToyfsSbInfo (g (s_statvfs x)) (s_mutex x) (s_inodes_lock x) (s_pool x) (s_itable x) (s_root x) (z_root x) (s_top_ino x) (h_page x) (h_dblkref x) (h_iblkref x) (h_inode x) (h_tii x) (h_tir x).
Definition upd_s_mutex (g : Z -> Z) (x : toyfs_sb_info) : toyfs_sb_info :=
  ToyfsSbInfo (s_statvfs x) (g (s_mutex x)) (s_inodes_lock x) (s_pool x) (s_itable x) (s_root x) (z_root x) (s_top_ino x) (h_page x) (h_dblkref x) (h_iblkref x) (h_inode x) (h_tii x) (h_tir x).
Definition upd_s_inodes_lock (g : Z -> Z) (x : toyfs_sb_info) : toyfs_sb_info :=
  ToyfsSbInfo (s_statvfs x) (s_mutex x) (g (s_inodes_lock x)) (s_pool x) (s_itable x) (s_root x) (z_root x) (s_top_ino x) (h_page x) (h_dblkref x) (h_iblkref x) (h_inode x) (h_tii x) (h_tir x).
Definition upd_s_pool (g : toyfs_pool -> toyfs_pool) (x : toyfs_sb_info) : toyfs_sb_info :=
  ToyfsSbInfo (s_statvfs x) (s_mutex x) (s_inodes_lock x) (g (s_pool x)) (s_itable x) (s_root x) (z_root x) (s_top_ino x) (h_page x) (h_dblkref x) (h_iblkref x) (h_inode x) (h_tii x) (h_tir x).
Definition upd_s_itable (g : toyfs_itable -> toyfs_itable) (x : toyfs_sb_info) : toyfs_sb_info :=
  ToyfsSbInfo (s_statvfs x) (s_mutex x) (s_inodes_lock x) (s_pool x) (g (s_itable x)) (s_root x) (z_root x) (s_top_ino x) (h_page x) (h_dblkref x) (h_iblkref x) (h_inode x) (h_tii x) (h_tir x).
Definition upd_s_root (g : option Z -> option Z) (x : toyfs_sb_info) : toyfs_sb_info :=
  ToyfsSbInfo (s_statvfs x) (s_mutex x) (s_inodes_lock x) (s_pool x) (s_itable x) (g (s_root x)) (z_root x) (s_top_ino x) (h_page x) (h_dblkref x) (h_iblkref x) (h_inode x) (h_tii x) (h_tir x).
Definition upd_z_root (g : option Z -> option Z) (x : toyfs_sb_info) : toyfs_sb_info :=
  ToyfsSbInfo (s_statvfs x) (s_mutex x) (s_inodes_lock x) (s_pool x) (s_itable x) (s_root x) (g (z_root x)) (s_top_ino x) (h_page x) (h_dblkref x) (h_iblkref x) (h_inode x) (h_tii x) (h_tir x).
Definition upd_s_top_ino (g : Z -> Z) (x : toyfs_sb_info) : toyfs_sb_info :=
  ToyfsSbInfo (s_statvfs x) (s_mutex x) (s_inodes_lock x) (s_pool x) (s_itable x) (s_root x) (z_root x) (g (s_top_ino x)) (h_page x) (h_dblkref x) (h_iblkref x) (h_inode x) (h_tii x) (h_tir x).
Definition upd_h_page (g : gmap Z toyfs_pool_pmemb -> gmap Z toyfs_pool_pmemb) (x : toyfs_sb_info) : toyfs_sb_info :=
  ToyfsSbInfo (s_statvfs x) (s_mutex x) (s_inodes_lock x) (s_pool x) (s_itable x) (s_root x) (z_root x) (s_top_ino x) (g (h_page x)) (h_dblkref x) (h_iblkref x) (h_inode x) (h_tii x) (h_tir x).
Definition upd_h_dblkref (g : gmap Z toyfs_dblkref -> gmap Z toyfs_dblkref) (x : toyfs_sb_info) : toyfs_sb_info :=
  ToyfsSbInfo (s_statvfs x) (s_mutex x) (s_inodes_lock x) (s_pool x) (s_itable x) (s_root x) (z_root x) (s_top_ino x) (h_page x) (g (h_dblkref x)) (h_iblkref x) (h_inode x) (h_tii x) (h_tir x).
Definition upd_h_iblkref (g : gmap Z toyfs_iblkref -> gmap Z toyfs_iblkref) (x : toyfs_sb_info) : toyfs_sb_info :=
  ToyfsSbInfo (s_statvfs x) (s_mutex x) (s_inodes_lock x) (s_pool x) (s_itable x) (s_root x) (z_root x) (s_top_ino x) (h_page x) (h_dblkref x) (g (h_iblkref x)) (h_inode x) (h_tii x) (h_tir x).
Definition upd_h_inode (g : gmap Z toyfs_inode -> gmap Z toyfs_inode) (x : toyfs_sb_info) : toyfs_sb_info :=
  ToyfsSbInfo (s_statvfs x) (s_mutex x) (s_inodes_lock x) (s_pool x) (s_itable x) (s_root x) (z_root x) (s_top_ino x) (h_page x) (h_dblkref x) (h_iblkref x) (g (h_inode x)) (h_tii x) (h_tir x).
Definition upd_h_tii (g : gmap Z toyfs_inode_info -> gmap Z toyfs_inode_info) (x : toyfs_sb_info) : toyfs_sb_info :=
  ToyfsSbInfo (s_statvfs x) (s_mutex x) (s_inodes_lock x) (s_pool x) (s_itable x) (s_root x) (z_root x) (s_top_ino x) (h_page x) (h_dblkref x) (h_iblkref x) (h_inode x) (g (h_tii x)) (h_tir x).
Definition upd_h_tir (g : gmap Z toyfs_inode_ref -> gmap Z toyfs_inode_ref) (x : toyfs_sb_info) : toyfs_sb_info :=
  ToyfsSbInfo (s_statvfs x) (s_mutex x) (s_inodes_lock x) (s_pool x) (s_itable x) (s_root x) (z_root x) (s_top_ino x) (h_page x) (h_dblkref x) (h_iblkref x) (h_inode x) (h_tii x) (g (h_tir x)).

(** Compute the fields of an updated state. *)
Ltac fs_simpl :=
  cbn [f_bsize upd_f_bsize f_frsize upd_f_frsize f_blocks upd_f_blocks f_bfree upd_f_bfree
    f_bavail upd_f_bavail f_files upd_f_files f_ffree upd_f_ffree f_favail upd_f_favail
    f_namemax upd_f_namemax f_flag upd_f_flag p_mutex upd_p_mutex pages upd_pages
    free_dblkrefs upd_free_dblkrefs free_iblkrefs upd_free_iblkrefs free_inodes
    upd_free_inodes pmem upd_pmem msz upd_msz t_mutex upd_t_mutex icount upd_icount imap
    upd_imap refcnt upd_refcnt bn upd_bn dblkref upd_dblkref off upd_off i_flags
    upd_i_flags i_mode upd_i_mode i_nlink upd_i_nlink i_size upd_i_size list_head
    upd_list_head i_blocks upd_i_blocks i_mtime upd_i_mtime i_ctime upd_i_ctime i_atime
    upd_i_atime i_ino upd_i_ino i_uid upd_i_uid i_gid upd_i_gid i_xattr upd_i_xattr
    i_generation upd_i_generation i_union upd_i_union zi upd_zi zop upd_zop tii_sbi
    upd_tii_sbi ti upd_ti ino upd_ino imagic upd_imagic ref upd_ref mapped upd_mapped
    valid upd_valid r_tii upd_r_tii r_ti upd_r_ti r_ino upd_r_ino s_statvfs
    upd_s_statvfs s_mutex upd_s_mutex s_inodes_lock upd_s_inodes_lock s_pool upd_s_pool
    s_itable upd_s_itable s_root upd_s_root z_root upd_z_root s_top_ino upd_s_top_ino
    h_page upd_h_page h_dblkref upd_h_dblkref h_iblkref upd_h_iblkref h_inode
    upd_h_inode h_tii upd_h_tii h_tir upd_h_tir].
Tactic Notation "fs_simpl" "in" hyp(H) :=
  cbn [f_bsize upd_f_bsize f_frsize upd_f_frsize f_blocks upd_f_blocks f_bfree upd_f_bfree
    f_bavail upd_f_bavail f_files upd_f_files f_ffree upd_f_ffree f_favail upd_f_favail
    f_namemax upd_f_namemax f_flag upd_f_flag p_mutex upd_p_mutex pages upd_pages
    free_dblkrefs upd_free_dblkrefs free_iblkrefs upd_free_iblkrefs free_inodes
    upd_free_inodes pmem upd_pmem msz upd_msz t_mutex upd_t_mutex icount upd_icount imap
    upd_imap refcnt upd_refcnt bn upd_bn dblkref upd_dblkref off upd_off i_flags
    upd_i_flags i_mode upd_i_mode i_nlink upd_i_nlink i_size upd_i_size list_head
    upd_list_head i_blocks upd_i_blocks i_mtime upd_i_mtime i_ctime upd_i_ctime i_atime
    upd_i_atime i_ino upd_i_ino i_uid upd_i_uid i_gid upd_i_gid i_xattr upd_i_xattr
    i_generation upd_i_generation i_union upd_i_union zi upd_zi zop upd_zop tii_sbi
    upd_tii_sbi ti upd_ti ino upd_ino imagic upd_imagic ref upd_ref mapped upd_mapped
    valid upd_valid r_tii upd_r_tii r_ti upd_r_ti r_ino upd_r_ino s_statvfs
    upd_s_statvfs s_mutex upd_s_mutex s_inodes_lock upd_s_inodes_lock s_pool upd_s_pool
    s_itable upd_s_itable s_root upd_s_root z_root upd_z_root s_top_ino upd_s_top_ino
    h_page upd_h_page h_dblkref upd_h_dblkref h_iblkref upd_h_iblkref h_inode
    upd_h_inode h_tii upd_h_tii h_tir upd_h_tir] in H.

(** ** Mutexes (fs/toyfs/common.c)

    toyfs runs its mutexes recursive ([PTHREAD_MUTEX_RECURSIVE]): the state of one
    is its depth.  Unlocking a mutex that is not held is an error, and
    [toyfs_panic_if_err] aborts. *)
Notation FS := (ST toyfs_sb_info).

Definition toyfs_mutex_lock (upd : (Z -> Z) -> toyfs_sb_info -> toyfs_sb_info) : FS unit :=
  modify (upd Z.succ).
Definition toyfs_mutex_unlock (get : toyfs_sb_info -> Z)
    (upd : (Z -> Z) -> toyfs_sb_info -> toyfs_sb_info) : FS unit :=
  d ← gets get; assert (0 <? d);; modify (upd Z.pred).

(** Destroying a mutex that is held is an error too. *)
Definition toyfs_mutex_destroy (get : toyfs_sb_info -> Z) : FS unit := d ← gets get; assert (d =? 0).

Definition toyfs_sbi_lock : FS unit := toyfs_mutex_lock upd_s_mutex.
Definition toyfs_sbi_unlock : FS unit := toyfs_mutex_unlock s_mutex upd_s_mutex.
Definition toyfs_lock_inodes : FS unit := toyfs_mutex_lock upd_s_inodes_lock.
Definition toyfs_unlock_inodes : FS unit := toyfs_mutex_unlock s_inodes_lock upd_s_inodes_lock.

(** ** Addresses and block numbers (fs/toyfs/super.c) *)
Section addresses.
Context `{MdApi}.

Definition toyfs_addr2bn (ptr : Z) : Z := md_o2p (md_addr_to_offset ptr).
Definition toyfs_bn2addr (bn : Z) : Z := md_baddr bn.
Definition toyfs_bn2pmemb (bn : Z) : Z := toyfs_bn2addr bn.
Definition toyfs_page2dpp (page : Z) : Z := pmem_dpp_t (md_addr_to_offset page).
Definition toyfs_dpp2pmemb (dpp : Z) : Z := toyfs_bn2pmemb (md_o2p dpp).

Lemma bn2pmemb_addr2bn `{!MdLaws} n :
  0 < n < md_t1_blocks -> toyfs_bn2pmemb (toyfs_addr2bn (md_baddr n)) = md_baddr n.
Proof. intros Hn. by rewrite /toyfs_bn2pmemb /toyfs_bn2addr /toyfs_addr2bn md_bn_roundtrip. Qed.
End addresses.

(** ** Access to inodes (fs/toyfs/common.c, toyfs.h) *)
Definition S_IFMT : Z := 61440.
Definition S_IFSOCK : Z := 49152.
Definition S_IFLNK : Z := 40960.
Definition S_IFREG : Z := 32768.
Definition S_IFBLK : Z := 24576.
Definition S_IFDIR : Z := 16384.
Definition S_IFCHR : Z := 8192.
Definition S_IFIFO : Z := 4096.
Definition S_ISTYPE (t mode : Z) : bool := Z.land mode S_IFMT =? t.

(** [container_of] with the checks of [toyfs_zii_to_tii]; [zii] is the first field. *)
Definition toyfs_zii_to_tii (zii : Z) : FS Z :=
  if zii =? 0 then mret 0 else
  t ← load h_tii zii; assert (zop t);; assert (valid t);; mret zii.

(** [tii->ti] and [tii->zii.zi]; a NULL one aborts where it is dereferenced. *)
Definition tii_ti (tii : Z) : FS Z := t ← load h_tii tii; of_option (ti t).
Definition tii_zi (tii : Z) : FS Z := t ← load h_tii tii; of_option (zi t).
Definition get_inode {A} (p : Z) (f : toyfs_inode -> A) : FS A :=
  i ← load h_inode p; mret (f i).
Definition set_inode (p : Z) (f : toyfs_inode -> toyfs_inode) : FS unit :=
  update h_inode upd_h_inode p f.

Lemma wp_tii_ti s tii t p (Q : Z -> toyfs_sb_info -> Prop) :
  h_tii s !! tii = Some t -> ti t = Some p -> Q p s -> wp (tii_ti tii) s Q.
Proof. intros Ht Hp HQ. rewrite /tii_ti. wp_step. wp_step; [exact Ht|]. by rewrite Hp. Qed.
Lemma wp_tii_zi s tii t p (Q : Z -> toyfs_sb_info -> Prop) :
  h_tii s !! tii = Some t -> zi t = Some p -> Q p s -> wp (tii_zi tii) s Q.
Proof. intros Ht Hp HQ. rewrite /tii_zi. wp_step. wp_step; [exact Ht|]. by rewrite Hp. Qed.
Lemma wp_get_inode {A} s p i (f : toyfs_inode -> A) Q :
  h_inode s !! p = Some i -> Q (f i) s -> wp (get_inode p f) s Q.
Proof. intros Hi HQ. rewrite /get_inode. wp_step. wp_step; [exact Hi|]. by wp_step. Qed.
Lemma wp_set_inode s p i f (Q : unit -> toyfs_sb_info -> Prop) :
  h_inode s !! p = Some i -> Q tt (upd_h_inode (<[p := f i]>) s) -> wp (set_inode p f) s Q.
Proof. intros Hi HQ. rewrite /set_inode. by wp_step. Qed.

(** ** A concrete instance, for the witnesses: a device of 64 pages mapped at
    address 0, and a malloc that hands out the first address above all others. *)
Definition example_md : MdApi := {|
  md_baddr bn := PAGE_SIZE * bn;
  md_addr_to_offset a := a;
  md_o2p o := o / PAGE_SIZE;
  md_p2o n := PAGE_SIZE * n;
  pmem_dpp_t o := o;
  md_t1_blocks := 64;
  ZUS_API_MAP_MAX_SIZE := 4194304;
  ZUFS_NAME_LEN := 255;
  ZUFS_FL_TRUNCATE := 2 ^ 31;
|}.
#[export] Instance example_md_laws : @MdLaws example_md.
Proof.
  split; cbn [md_baddr md_addr_to_offset md_o2p md_p2o pmem_dpp_t md_t1_blocks ZUS_API_MAP_MAX_SIZE example_md].
  - lia.
  - lia.
  - intros n _. rewrite Z.mul_comm Z.div_mul; lia.
  - done.
  - intros n _. rewrite Z.mul_comm Z.div_mul; lia.
  - intros n Hn. lia.
  - lia.
  - lia.
Qed.
Definition example_malloc : MallocApi := fun D => Some (fresh D).
#[export] Instance example_malloc_laws : @MallocLaws example_malloc.
Proof. intros D p [= <-]. apply is_fresh. Qed.

(** Cleared memory, an empty device. *)
Definition sbi_zero : toyfs_sb_info :=
  ToyfsSbInfo (Statvfs 0 0 0 0 0 0 0 0 0 0) 0 0 (ToyfsPool 0 None [] [] [] 0 0)
    (ToyfsItable 0 0 ∅) None None 0 ∅ ∅ ∅ ∅ ∅ ∅.
