(* ===== verification/Pool.v ===== *)
(** * The page and record pools of fs/toyfs/super.c

    Pages are handed out by [toyfs_acquire_pmemb], which also keeps the free-block
    counters of statvfs; records (inodes, dblkrefs, iblkrefs) are carved from
    pages on demand and recycled through free lists. *)

From S2P Require Import Prelude State.

(** sizeof and per-page counts, as the static assertions of super.c fix them. *)
Definition sizeof_dblkref : Z := 32.
Definition sizeof_iblkref : Z := 32.
Definition sizeof_inode : Z := 128.
Definition TOYFS_INODES_PER_PAGE : nat := 32.
Definition TOYFS_DBLKREFS_PER_PAGE : nat := 128.
Definition TOYFS_IBLKREFS_PER_PAGE : nat := 128.

(** The addresses of an array of [n] records of [size] bytes at [p]. *)
Definition array_at (p size : Z) (n : nat) : list Z :=
  (fun i => p + size * Z.of_nat i) <$> seq 0 n.

Definition zeros (n : nat) : list Z := replicate n 0.
Definition zero_inode : toyfs_inode :=
  ToyfsInode 0 0 0 0 [] 0 0 0 0 0 0 0 0 0 (zeros 32).

(** ** Operations *)
Definition pool_mutex (s : toyfs_sb_info) : Z := p_mutex (s_pool s).
Definition upd_pool_mutex (g : Z -> Z) : toyfs_sb_info -> toyfs_sb_info :=
  upd_s_pool (upd_p_mutex g).
Definition _pool_lock : FS unit := toyfs_mutex_lock upd_pool_mutex.
Definition _pool_unlock : FS unit := toyfs_mutex_unlock pool_mutex upd_pool_mutex.

Definition _pool_init : FS unit :=
  modify (upd_s_pool (fun _ => ToyfsPool 0 None [] [] [] 0 0)).

(** [_pool_setup]: thread the pages of [mem] into the free chain. *)
Fixpoint _pool_setup_loop (n : nat) (pagei mem : Z) (nxt : option Z) : FS (option Z) :=
  match n with
  | O => mret nxt
  | S k =>
    let page := mem + PAGE_SIZE * pagei in
    modify (upd_h_page (<[page := PoolNext nxt]>));;
    _pool_setup_loop k (pagei + 1) mem (Some page)
  end.
Definition _pool_setup (mem sz : Z) : FS unit :=
  let npages := Z.to_nat (sz / PAGE_SIZE) in
  page ← _pool_setup_loop npages 0 mem None;
  modify (upd_s_pool (upd_pmem (fun _ => mem)));;
  modify (upd_s_pool (upd_msz (fun _ => sz)));;
  modify (upd_s_pool (upd_pages (fun _ => page))).

Definition _pool_destroy : FS unit :=
  modify (upd_s_pool (fun p =>
    ToyfsPool (p_mutex p) None (free_dblkrefs p) (free_iblkrefs p) (free_inodes p) 0 0));;
  toyfs_mutex_destroy pool_mutex.

Definition load_pool_next (p : Z) : FS (option Z) :=
  pg ← load h_page p;
  match pg with PoolNext n => mret n | Pmemb _ => abort end.

Definition _pool_pop_pmemb_without_lock : FS (option Z) :=
  pages ← gets (fun s => pages (s_pool s));
  match pages with
  | None => mret None
  | Some pp =>
    nxt ← load_pool_next pp;
    modify (upd_s_pool (upd_pages (fun _ => nxt)));;
    modify (upd_h_page (<[pp := PoolNext None]>));;
    mret (Some pp)
  end.
Definition _pool_pop_pmemb : FS (option Z) :=
  _pool_lock;; pmemb ← _pool_pop_pmemb_without_lock; _pool_unlock;; mret pmemb.
Definition _pool_push_pmemb (pmemb : Z) : FS unit :=
  _pool_lock;;
  pages ← gets (fun s => pages (s_pool s));
  update h_page upd_h_page pmemb (fun _ => PoolNext pages);;
  modify (upd_s_pool (upd_pages (fun _ => Some pmemb)));;
  _pool_unlock.

(** Carving: the page leaves the page heap, its records join the free list (each
    is linked at the end, see [list_add_ends] in CList.v). *)
Definition carve (upd : (list Z -> list Z) -> toyfs_pool -> toyfs_pool) (size : Z) (n : nat) (field : Z) : FS Z :=
  pmemb ← _pool_pop_pmemb_without_lock;
  match pmemb with
  | None => mret (- ENOMEM)
  | Some p =>
    modify (upd_h_page (delete p));;
    modify (upd_s_pool (upd (fun l => l ++ array_at (p + field) size n)));;
    mret 0
  end.
(** The first record of a free list, unlinked. *)
Definition pop_free (get : toyfs_pool -> list Z)
    (upd : (list Z -> list Z) -> toyfs_pool -> toyfs_pool) : FS (option Z) :=
  l ← gets (fun s => get (s_pool s));
  match l with
  | [] => mret None
  | e :: l' => modify (upd_s_pool (upd (fun _ => l')));; mret (Some e)
  end.

(** The list head is the 16 bytes at offset 16 of an inode: the free list holds
    the heads, [_list_head_to_inode] steps back. *)
Definition _inode_to_list_head (ti : Z) : Z := ti + 16.
Definition _list_head_to_inode (head : Z) : Z := head - 16.

Definition _pool_add_free_inodes : FS Z :=
  carve upd_free_inodes sizeof_inode TOYFS_INODES_PER_PAGE 16.
Definition _pool_pop_free_inode : FS (option Z) :=
  e ← pop_free free_inodes upd_free_inodes; mret (_list_head_to_inode <$> e).
Definition _pool_pop_inode : FS (option Z) :=
  _pool_lock;;
  ti ← _pool_pop_free_inode;
  match ti with
  | Some _ => _pool_unlock;; mret ti
  | None =>
    err ← _pool_add_free_inodes;
    if negb (err =? 0) then _pool_unlock;; mret ti else
    ti ← _pool_pop_free_inode;
    _pool_unlock;; mret ti
  end.
Definition _pool_push_inode (inode : Z) : FS unit :=
  modify (upd_h_inode (<[inode := zero_inode]>));;
  _pool_lock;;
  modify (upd_s_pool (upd_free_inodes (fun l => l ++ [_inode_to_list_head inode])));;
  _pool_unlock.
Definition toyfs_acquire_inode : FS (option Z) := _pool_pop_inode.
Definition toyfs_release_inode (inode : Z) : FS unit := _pool_push_inode inode.

Definition _pool_add_free_dblkrefs : FS Z :=
  carve upd_free_dblkrefs sizeof_dblkref TOYFS_DBLKREFS_PER_PAGE 0.
Definition _pool_pop_free_dblkref : FS (option Z) := pop_free free_dblkrefs upd_free_dblkrefs.
Definition _pool_pop_dblkref : FS (option Z) :=
  _pool_lock;;
  dblkref ← _pool_pop_free_dblkref;
  dblkref ← match dblkref with
            | Some _ => mret dblkref
            | None =>
              err ← _pool_add_free_dblkrefs;
              if err =? 0 then _pool_pop_free_dblkref else mret dblkref
            end;
  _pool_unlock;; mret dblkref.
Definition _pool_push_dblkref (d : Z) : FS unit :=
  _pool_lock;;
  modify (upd_s_pool (upd_free_dblkrefs (fun l => l ++ [d])));;
  _pool_unlock.

Definition _pool_add_free_iblkrefs : FS Z :=
  carve upd_free_iblkrefs sizeof_iblkref TOYFS_IBLKREFS_PER_PAGE 0.
Definition _pool_pop_free_iblkref : FS (option Z) := pop_free free_iblkrefs upd_free_iblkrefs.
Definition _pool_pop_iblkref : FS (option Z) :=
  _pool_lock;;
  iblkref ← _pool_pop_free_iblkref;
  iblkref ← match iblkref with
            | Some _ => mret iblkref
            | None =>
              err ← _pool_add_free_iblkrefs;
              if err =? 0 then _pool_pop_free_iblkref else mret iblkref
            end;
  _pool_unlock;; mret iblkref.
Definition _pool_push_iblkref (i : Z) : FS unit :=
  _pool_lock;;
  modify (upd_s_pool (upd_free_iblkrefs (fun l => l ++ [i])));;
  _pool_unlock.

(** ** Pages with the statvfs accounting *)
Definition toyfs_acquire_pmemb : FS (option Z) :=
  toyfs_sbi_lock;;
  sv ← gets s_statvfs;
  r ← (if f_bfree sv =? 0 then mret None
       else if f_bavail sv =? 0 then mret None
       else
         pmemb ← _pool_pop_pmemb;
         match pmemb with
         | None => mret None
         | Some p =>
           modify (upd_h_page (<[p := Pmemb (zeros 4096)]>));;
           modify (upd_s_statvfs (upd_f_bfree (fun n => u64 (n - 1))));;
           modify (upd_s_statvfs (upd_f_bavail (fun n => u64 (n - 1))));;
           mret (Some p)
         end);
  toyfs_sbi_unlock;; mret r.
Definition toyfs_release_pmemb (pmemb : Z) : FS unit :=
  toyfs_sbi_lock;;
  _pool_push_pmemb pmemb;;
  modify (upd_s_statvfs (upd_f_bfree (fun n => u64 (n + 1))));;
  modify (upd_s_statvfs (upd_f_bavail (fun n => u64 (n + 1))));;
  toyfs_sbi_unlock.

Definition toyfs_acquire_dblkref : FS (option Z) :=
  d ← _pool_pop_dblkref;
  match d with
  | Some p => modify (upd_h_dblkref (<[p := ToyfsDblkref 0 0]>));; mret d
  | None => mret d
  end.
Definition toyfs_release_dblkref (d : Z) : FS unit :=
  update h_dblkref upd_h_dblkref d (upd_bn (fun _ => 0));;
  _pool_push_dblkref d.
Definition toyfs_acquire_iblkref : FS (option Z) :=
  i ← _pool_pop_iblkref;
  match i with
  | Some p => modify (upd_h_iblkref (<[p := ToyfsIblkref None (-1)]>));; mret i
  | None => mret i
  end.
Definition toyfs_release_iblkref (i : Z) : FS unit :=
  update h_iblkref upd_h_iblkref i (fun _ => ToyfsIblkref None (-1));;
  _pool_push_iblkref i.

(** ** The pool invariant

    [P], [D], [I] and [N] are the pages, dblkrefs, iblkrefs and inodes that were
    handed out and not yet released. *)

(** The chain of free pages from [p]. *)
Fixpoint chain (h : gmap Z toyfs_pool_pmemb) (p : option Z) (l : list Z) : Prop :=
  match l with
  | [] => p = None
  | x :: l' => p = Some x /\ exists n, h !! x = Some (PoolNext n) /\ chain h n l'
  end.

(** At most [n] pages are free. *)
Definition free_le (s : toyfs_sb_info) (n : nat) : Prop :=
  exists fl, chain (h_page s) (pages (s_pool s)) fl /\ (length fl <= n)%nat.

(** A free list and the live records, all inside the carved pages [C]. *)
Definition rec_inv (size : Z) (n : nat) (fr : list Z) (live C : gset Z) : Prop :=
  NoDup fr /\ (forall x, x ∈ fr -> x ∉ live) /\
  (forall x, x ∈ fr \/ x ∈ live -> exists q i, q ∈ C /\ 0 <= i < Z.of_nat n /\ x = q + size * i).

Section inv.
Context `{MdApi}.

Definition page_addr (p : Z) : Prop := exists n, 2 <= n < md_t1_blocks /\ p = md_baddr n.
Definition pmemb_ok (h : gmap Z toyfs_pool_pmemb) (p : Z) : Prop :=
  exists dat, h !! p = Some (Pmemb dat) /\ length dat = 4096%nat.

Definition locks_ok (s : toyfs_sb_info) : Prop :=
  0 <= s_mutex s /\ 0 <= s_inodes_lock s /\ 0 <= p_mutex (s_pool s) /\ 0 <= t_mutex (s_itable s).

(** The pages: free chain [fl], live pages [P], pages carved into records [C]. *)
Definition pages_inv (s : toyfs_sb_info) (fl : list Z) (P C : gset Z) : Prop :=
  chain (h_page s) (pages (s_pool s)) fl /\ NoDup fl /\
  (forall p, p ∈ fl \/ p ∈ P \/ p ∈ C -> page_addr p) /\
  (forall p, p ∈ P -> pmemb_ok (h_page s) p) /\
  (forall p, p ∈ fl -> p ∉ P /\ p ∉ C) /\ P ## C.
(** The counters: a page counts as used only when it was handed out as a page. *)
Definition counts_inv (s : toyfs_sb_info) (fl : list Z) (P C : gset Z) : Prop :=
  f_bfree (s_statvfs s) + Z.of_nat (size P) = f_blocks (s_statvfs s) /\
  Z.of_nat (length fl) + Z.of_nat (size P) + Z.of_nat (size C) = f_blocks (s_statvfs s) /\
  f_bavail (s_statvfs s) = f_bfree (s_statvfs s) /\ f_blocks (s_statvfs s) < 2 ^ 64.
Definition recs_inv (s : toyfs_sb_info) (D I N C : gset Z) : Prop :=
  rec_inv sizeof_dblkref TOYFS_DBLKREFS_PER_PAGE (free_dblkrefs (s_pool s)) D C /\
  rec_inv sizeof_iblkref TOYFS_IBLKREFS_PER_PAGE (free_iblkrefs (s_pool s)) I C /\
  rec_inv sizeof_inode TOYFS_INODES_PER_PAGE
    (_list_head_to_inode <$> free_inodes (s_pool s)) N C.
Definition pool_inv (s : toyfs_sb_info) (P D I N : gset Z) : Prop :=
  locks_ok s /\ exists fl C, pages_inv s fl P C /\ counts_inv s fl P C /\ recs_inv s D I N C.
End inv.

(** What the pool operations leave alone: everything but the pool, the counters,
    the page heap and the record heaps; and the contents of live pages. *)
Definition rest (s : toyfs_sb_info) :=
  (s_mutex s, s_inodes_lock s, p_mutex (s_pool s), s_itable s, s_root s, z_root s,
   s_top_ino s, h_tii s, h_tir s).
Definition recs (s : toyfs_sb_info) := (h_dblkref s, h_iblkref s, h_inode s).
Definition same_pages (P : gset Z) (s s' : toyfs_sb_info) : Prop :=
  forall p, p ∈ P -> h_page s' !! p = h_page s !! p.

Lemma same_pages_refl P s : same_pages P s s.
Proof. done. Qed.
Lemma same_pages_trans P s1 s2 s3 :
  same_pages P s1 s2 -> same_pages P s2 s3 -> same_pages P s1 s3.
Proof. intros H1 H2 p Hp. by rewrite H2 ?H1. Qed.

(** ** Chains *)
Lemma chain_ext h h' p l :
  (forall x, x ∈ l -> h' !! x = h !! x) -> chain h p l -> chain h' p l.
Proof.
  revert p. induction l as [|x l IH]; intros p Hh; simpl; [done|].
  intros [-> (n&Hn&Hl)]. split; [done|]. exists n. split.
  - rewrite Hh; [set_solver|done].
  - apply IH; [set_solver|done].
Qed.

Lemma chain_inj h p l l' : chain h p l -> chain h p l' -> l = l'.
Proof.
  revert p l'. induction l as [|x l IH]; intros p [|y l']; simpl; naive_solver.
Qed.
Lemma free_le_0 s n : pages (s_pool s) = None -> free_le s n.
Proof. intros Hp. exists []. split; [done|simpl; lia]. Qed.

(** ** Record lists *)
Section records.
Context `{MdLaws}.

Lemma page_addr_lt p q : page_addr p -> page_addr q -> p <> q -> p + PAGE_SIZE <= q \/ q + PAGE_SIZE <= p.
Proof.
  intros (n&Hn&->) (m&Hm&->).
  pose proof (md_baddr_linear 1 (n - 1)) as En. pose proof (md_baddr_linear 1 (m - 1)) as Em.
  replace (1 + (n - 1)) with n in En by lia. replace (1 + (m - 1)) with m in Em by lia.
  lia.
Qed.

Lemma rec_inv_pop sz n x fr live C :
  rec_inv sz n (x :: fr) live C -> x ∉ live /\ rec_inv sz n fr ({[x]} ∪ live) C.
Proof.
  intros (Hnd&Hl&Hc). apply NoDup_cons in Hnd as [Hx Hnd].
  split; [apply Hl; set_solver|]. split_and!; [done|set_solver|].
  intros y Hy. apply Hc. set_solver.
Qed.
Lemma rec_inv_push sz n x fr live C :
  x ∈ live -> rec_inv sz n fr live C -> rec_inv sz n (fr ++ [x]) (live ∖ {[x]}) C.
Proof.
  intros Hx (Hnd&Hl&Hc). split_and!.
  - apply NoDup_app. split_and!; [done| |apply NoDup_singleton]. set_solver.
  - set_solver.
  - intros y Hy. apply Hc. set_solver.
Qed.
Lemma array_at_elem x p sz n :
  x ∈ array_at p sz n <-> exists i, 0 <= i < Z.of_nat n /\ x = p + sz * i.
Proof.
  rewrite /array_at list_elem_of_fmap. split.
  - intros (i&->&Hi%elem_of_seq). exists (Z.of_nat i). lia.
  - intros (i&Hi&->). exists (Z.to_nat i). rewrite elem_of_seq. rewrite Z2Nat.id; lia.
Qed.
Lemma array_at_NoDup p sz n : 0 < sz -> NoDup (array_at p sz n).
Proof. intros Hsz. apply NoDup_fmap_2; [|apply NoDup_seq]. intros i j Hij. nia. Qed.

Lemma rec_inv_carve sz n q live C :
  0 < sz -> sz * Z.of_nat n <= PAGE_SIZE -> q ∉ C -> page_addr q ->
  (forall p, p ∈ C -> page_addr p) ->
  rec_inv sz n [] live C -> rec_inv sz n (array_at q sz n) live ({[q]} ∪ C).
Proof.
  intros Hsz Hn Hq Hpq HC (_&_&Hc). split_and!.
  - by apply array_at_NoDup.
  - intros x (i&Hi&->)%array_at_elem Hx.
    destruct (Hc (q + sz * i)) as (q'&j&Hq'&Hj&Heq); [by right|].
    destruct (page_addr_lt q q') as [?|?]; [done|by apply HC|set_solver|nia|nia].
  - intros x [(i&Hi&->)%array_at_elem|Hx].
    + exists q, i. set_solver.
    + destruct (Hc x) as (q'&j&Hq'&Hj&->); [by right|]. exists q', j. set_solver.
Qed.
Lemma rec_inv_mono sz n fr live C q :
  rec_inv sz n fr live C -> rec_inv sz n fr live ({[q]} ∪ C).
Proof.
  intros (Hnd&Hl&Hc). split_and!; [done..|].
  intros x Hx. destruct (Hc x Hx) as (q'&i&?&?). exists q', i. set_solver.
Qed.
End records.

Ltac fs_unfold := rewrite /rest /recs /pool_mutex /upd_pool_mutex; fs_simpl.

(** ** Locks *)
Lemma wp_sbi_lock s (Q : unit -> toyfs_sb_info -> Prop) :
  Q tt (upd_s_mutex Z.succ s) -> wp toyfs_sbi_lock s Q.
Proof. done. Qed.
Lemma wp_sbi_unlock s (Q : unit -> toyfs_sb_info -> Prop) :
  0 < s_mutex s -> Q tt (upd_s_mutex Z.pred s) -> wp toyfs_sbi_unlock s Q.
Proof.
  intros Hd HQ. rewrite /toyfs_sbi_unlock /toyfs_mutex_unlock. do 2 wp_step.
  wp_step. wp_step; [by apply Z.ltb_lt|]. by wp_step.
Qed.
Lemma wp_pool_lock s (Q : unit -> toyfs_sb_info -> Prop) :
  Q tt (upd_s_pool (upd_p_mutex Z.succ) s) -> wp _pool_lock s Q.
Proof. done. Qed.
Lemma wp_pool_unlock s (Q : unit -> toyfs_sb_info -> Prop) :
  0 < p_mutex (s_pool s) -> Q tt (upd_s_pool (upd_p_mutex Z.pred) s) -> wp _pool_unlock s Q.
Proof.
  intros Hd HQ. rewrite /_pool_unlock /toyfs_mutex_unlock. do 2 wp_step.
  wp_step. wp_step; [by apply Z.ltb_lt|]. by wp_step.
Qed.

(** ** Pages *)
Section page_ops.
Context `{MdLaws}.

(** Popping a free page: nothing but the chain and that page changes. *)
Lemma wp_pop_pmemb_without_lock s fl P C Q :
  pages_inv s fl P C ->
  (fl = [] -> pages (s_pool s) = None -> Q None s) ->
  (forall p fl' n, fl = p :: fl' ->
     pages_inv (upd_h_page (<[p := PoolNext None]>) (upd_s_pool (upd_pages (fun _ => n)) s)) fl' P C ->
     Q (Some p) (upd_h_page (<[p := PoolNext None]>) (upd_s_pool (upd_pages (fun _ => n)) s))) ->
  wp _pool_pop_pmemb_without_lock s Q.
Proof.
  intros (Hch&Hnd&Hpa&Hok&Hfl&HPC) HN HS. rewrite /_pool_pop_pmemb_without_lock. do 2 wp_step.
  destruct fl as [|p fl]; simpl in Hch.
  { rewrite Hch. wp_step. by apply HN. }
  destruct Hch as (->&n&Hp&Hch). apply NoDup_cons in Hnd as [Hpf Hnd].
  rewrite /load_pool_next. do 2 wp_step. wp_step; [exact Hp|]. wp_step.
  do 4 wp_step. wp_step. apply (HS p fl); [done|].
  split_and!; fs_simpl.
  - eapply chain_ext; [|exact Hch]. intros x Hx. rewrite lookup_insert_ne; set_solver.
  - done.
  - set_solver.
  - intros q Hq. destruct (Hok q Hq) as (dat&Hdat&Hlen). exists dat.
    rewrite lookup_insert_ne; [|done]. set_solver.
  - set_solver.
  - done.
Qed.
End page_ops.

(** Everything the invariant reads. *)
Definition pview (s : toyfs_sb_info) :=
  (s_mutex s, s_inodes_lock s, p_mutex (s_pool s), t_mutex (s_itable s), pages (s_pool s),
   free_dblkrefs (s_pool s), free_iblkrefs (s_pool s), free_inodes (s_pool s),
   h_page s, s_statvfs s).

Ltac fs_solve := rewrite /pview /rest /recs /pool_mutex /upd_pool_mutex; fs_simpl;
  rewrite ?Z.pred_succ; auto.

Ltac locks_solve :=
  match goal with H : locks_ok _ |- locks_ok _ => move: H end;
  rewrite /locks_ok /upd_pool_mutex; fs_simpl; lia.

(** ** Acquire and release of pages *)
Section acquire.
Context `{MdLaws}.
Implicit Types (P D I N C : gset Z).

Lemma pool_inv_view s s' P D I N : pview s' = pview s -> pool_inv s P D I N -> pool_inv s' P D I N.
Proof.
  intros E. injection E as E1 E2 E3 E4 E5 E6 E7 E8 E9 E10.
  rewrite /pool_inv /locks_ok /pages_inv /counts_inv /recs_inv.
  by rewrite E1 E2 E3 E4 E5 E6 E7 E8 E9 E10.
Qed.
Lemma locks_ok_eq s s' : rest s' = rest s -> locks_ok s -> locks_ok s'.
Proof. rewrite /locks_ok. intros E. injection E as E1 E2 E3 E4 _ _ _ _ _. by rewrite E1 E2 E3 E4. Qed.
Lemma pview_chain s s' : pview s' = pview s -> pages (s_pool s') = pages (s_pool s).
Proof. intros E. apply (f_equal (fun v => v.1.1.1.1.1.2) E). Qed.
Lemma pview_pages s s' P : pview s' = pview s -> same_pages P s s'.
Proof. intros E p _. assert (h_page s' = h_page s) as -> by apply (f_equal (fun v => v.1.2) E). done. Qed.
Lemma pages_inv_view s s' fl P C :
  h_page s' = h_page s -> pages (s_pool s') = pages (s_pool s) ->
  pages_inv s fl P C -> pages_inv s' fl P C.
Proof. rewrite /pages_inv. by intros -> ->. Qed.
Lemma pool_inv_locks s P D I N : pool_inv s P D I N -> locks_ok s.
Proof. by intros []. Qed.

(** The counters never run out before the pages do. *)
Lemma counts_bfree_0 s fl P C : counts_inv s fl P C -> f_bfree (s_statvfs s) = 0 -> fl = [].
Proof. intros (H1&H2&H3&H4) E. destruct fl; [done|]. rewrite E in H1. simpl in H2. lia. Qed.

(** A page becomes live with the contents the caller gives it. *)
Lemma pages_inv_live s fl P C p dat :
  pages_inv s fl P C -> page_addr p -> p ∉ fl -> p ∉ C -> length dat = 4096%nat ->
  pages_inv (upd_h_page (<[p := Pmemb dat]>) s) fl ({[p]} ∪ P) C.
Proof.
  intros (Hch&Hnd&Hpa&Hok&Hfl&HPC) Hp Hpf HpC Hl. split_and!; fs_simpl.
  - eapply chain_ext; [|exact Hch]. intros x Hx. rewrite lookup_insert_ne; set_solver.
  - done.
  - set_solver.
  - intros q Hq. destruct (decide (q = p)) as [->|Hne].
    + exists dat. by rewrite lookup_insert_eq.
    + destruct (Hok q) as (dat'&Hd&?); [set_solver|]. exists dat'. by rewrite lookup_insert_ne.
  - set_solver.
  - set_solver.
Qed.

Lemma wp_pool_pop_pmemb s fl P C Q :
  locks_ok s -> pages_inv s fl P C ->
  (fl = [] -> pages (s_pool s) = None ->
     Q None (upd_s_pool (upd_p_mutex Z.pred) (upd_s_pool (upd_p_mutex Z.succ) s))) ->
  (forall p fl' n, fl = p :: fl' ->
     let s' := upd_s_pool (upd_p_mutex Z.pred) (upd_h_page (<[p := PoolNext None]>)
                 (upd_s_pool (upd_pages (fun _ => n)) (upd_s_pool (upd_p_mutex Z.succ) s))) in
     pages_inv s' fl' P C -> Q (Some p) s') ->
  wp _pool_pop_pmemb s Q.
Proof.
  intros Hlk Hpg HN HS. assert (0 <= p_mutex (s_pool s)) by apply Hlk.
  rewrite /_pool_pop_pmemb. wp_step. apply wp_pool_lock. wp_step.
  eapply (wp_pop_pmemb_without_lock _ fl P C); [eapply pages_inv_view; [..|exact Hpg]; done| |].
  - intros Hfl Hn. wp_step. apply wp_pool_unlock; [fs_simpl; lia|]. wp_step. by apply HN.
  - intros p fl' n Hfl Hpg'. wp_step. apply wp_pool_unlock; [fs_simpl; lia|]. wp_step.
    eapply HS; [exact Hfl|]. eapply pages_inv_view; [..|exact Hpg']; done.
Qed.

Lemma wp_acquire_pmemb s P D I N Q :
  pool_inv s P D I N ->
  (forall s', rest s' = rest s -> recs s' = recs s -> h_page s' = h_page s ->
     s_statvfs s' = s_statvfs s -> pages (s_pool s) = None -> pages (s_pool s') = None ->
     pool_inv s' P D I N -> Q None s') ->
  (forall p s', p ∉ P -> page_addr p -> pages (s_pool s) = Some p ->
     rest s' = rest s -> recs s' = recs s ->
     h_page s' = <[p := Pmemb (zeros 4096)]> (h_page s) ->
     s_statvfs s' = upd_f_bavail Z.pred (upd_f_bfree Z.pred (s_statvfs s)) ->
     pool_inv s' ({[p]} ∪ P) D I N -> Q (Some p) s') ->
  wp toyfs_acquire_pmemb s Q.
Proof.
  intros Hinv HN HS. pose proof Hinv as (Hlk&fl&C&Hpg&Hct&Hrc).
  assert (0 <= s_mutex s) by apply Hlk.
  assert (Hnone : fl = [] -> pages (s_pool s) = None).
  { intros ->. by destruct Hpg as (?&_). }
  rewrite /toyfs_acquire_pmemb. wp_step. apply wp_sbi_lock. do 2 wp_step. wp_step. fs_simpl.
  pose proof Hct as (Hf1&Hf2&Hf3&Hf4). rewrite Hf3.
  destruct (Z.eqb_spec (f_bfree (s_statvfs s)) 0) as [E|Hne].
  { wp_step. wp_step. apply wp_sbi_unlock; [fs_simpl; lia|]. wp_step.
    apply HN; [fs_solve..| | |eapply pool_inv_view; [fs_solve|done]];
      by eapply Hnone, counts_bfree_0. }
  wp_step. apply (wp_pool_pop_pmemb _ fl P C);
    [locks_solve|eapply pages_inv_view; [..|exact Hpg]; done| |].
  { intros Hfl _. do 2 wp_step. apply wp_sbi_unlock; [fs_simpl; lia|]. wp_step.
    apply HN; [fs_solve..|by apply Hnone|by apply Hnone|eapply pool_inv_view; [fs_solve|done]]. }
  intros p fl' n -> s1 Hpg1. subst s1. do 7 wp_step. wp_step.
  apply wp_sbi_unlock; [fs_simpl; lia|]. wp_step.
  pose proof Hpg as (_&Hnd&Hpa&_&Hfl&_). apply NoDup_cons in Hnd as [Hpf Hnd].
  assert (Hin : p ∈ p :: fl') by constructor.
  destruct (Hfl p Hin) as [HpP HpC]. pose proof (Hpa p (or_introl Hin)) as Hpp.
  assert (Hu : u64 (f_bfree (s_statvfs s) - 1) = Z.pred (f_bfree (s_statvfs s))).
  { simpl in Hf2. rewrite u64_small; lia. }
  apply HS; [done|done|by destruct Hpg as [[? _] _]|fs_solve..| |].
  - by rewrite insert_insert_eq.
  - rewrite /upd_f_bavail /upd_f_bfree; fs_simpl. by rewrite Hf3 Hu.
  - split; [locks_solve|]. exists fl', C. split_and!.
    + eapply pages_inv_view; [..|eapply (pages_inv_live _ fl' P C p (zeros 4096))]; done.
    + rewrite /counts_inv; fs_simpl. rewrite Hf3 Hu size_union; [by apply disjoint_singleton_l|].
      rewrite size_singleton. simpl in Hf2. lia.
    + exact Hrc.
Qed.

Lemma wp_release_pmemb s P D I N p Q :
  pool_inv s P D I N -> p ∈ P ->
  (forall s', rest s' = rest s -> recs s' = recs s -> pages (s_pool s') = Some p ->
     (exists n, h_page s' = <[p := PoolNext n]> (h_page s)) ->
     (forall n, free_le s n -> free_le s' (S n)) ->
     s_statvfs s' = upd_f_bavail Z.succ (upd_f_bfree Z.succ (s_statvfs s)) ->
     pool_inv s' (P ∖ {[p]}) D I N -> Q tt s') ->
  wp (toyfs_release_pmemb p) s Q.
Proof.
  intros (Hlk&fl&C&Hpg&Hct&Hrc) Hp HQ.
  assert (0 <= s_mutex s /\ 0 <= p_mutex (s_pool s)) as [? ?] by (split; apply Hlk).
  pose proof Hpg as (Hch&Hnd&Hpa&Hok&Hfl&HPC). destruct (Hok p Hp) as (dat&Hdat&_).
  rewrite /toyfs_release_pmemb. wp_step. apply wp_sbi_lock. wp_step.
  rewrite /_pool_push_pmemb. wp_step. apply wp_pool_lock. do 2 wp_step.
  wp_step. wp_step; [exact Hdat|]. do 2 wp_step.
  apply wp_pool_unlock; [fs_simpl; lia|]. do 4 wp_step.
  apply wp_sbi_unlock; [fs_simpl; lia|].
  destruct Hct as (Hf1&Hf2&Hf3&Hf4).
  assert (Hsz : Z.of_nat (size (P ∖ {[p]})) = Z.of_nat (size P) - 1).
  { rewrite size_difference; [set_solver|]. rewrite size_singleton.
    assert (size P <> 0)%nat; [|lia]. rewrite size_non_empty_iff. set_solver. }
  assert (Hu : u64 (f_bfree (s_statvfs s) + 1) = Z.succ (f_bfree (s_statvfs s))).
  { assert (size P <> 0)%nat by (rewrite size_non_empty_iff; set_solver).
    rewrite u64_small; lia. }
  assert (Hpf : p ∉ fl) by (intros Hx; by destruct (Hfl p Hx)).
  assert (Hch' : chain (<[p := PoolNext (pages (s_pool s))]> (h_page s)) (Some p) (p :: fl)).
  { split; [done|]. eexists. rewrite lookup_insert_eq. split; [done|].
    eapply chain_ext; [|exact Hch]. intros x Hx. rewrite lookup_insert_ne //. by intros ->. }
  apply HQ; [fs_solve..| | |].
  - eauto.
  - intros n (fl'&Hfl'&Hn). rewrite (chain_inj _ _ _ _ Hfl' Hch) in Hn.
    exists (p :: fl). split; [exact Hch'|simpl; lia].
  - rewrite /upd_f_bavail /upd_f_bfree; fs_simpl. by rewrite Hf3 Hu.
  - split; [locks_solve|]. exists (p :: fl), C. split_and!.
    + split_and!; fs_simpl.
      * exact Hch'.
      * by apply NoDup_cons.
      * set_solver.
      * intros q Hq. destruct (Hok q) as (dat'&Hd&?); [set_solver|].
        exists dat'. rewrite lookup_insert_ne; set_solver.
      * set_solver.
      * set_solver.
    + rewrite /counts_inv; fs_simpl. rewrite Hf3 Hu Hsz /=. lia.
    + exact Hrc.
Qed.
End acquire.

(** ** Records *)

(** Take a record from the free list, carving a page when it is empty: the body
    of the three [_pool_pop_*] functions. *)
Definition pop_rec (get : toyfs_pool -> list Z)
    (upd : (list Z -> list Z) -> toyfs_pool -> toyfs_pool) (size : Z) (n : nat)
    (field : Z) : FS (option Z) :=
  e ← pop_free get upd;
  match e with
  | Some _ => mret e
  | None =>
    err ← carve upd size n field;
    if err =? 0 then pop_free get upd else mret e
  end.

Section record_ops.
Context `{MdLaws}.
Implicit Types (P D I N C : gset Z).

(** A free list of the pool, as a lens. *)
Context (get : toyfs_pool -> list Z) (upd : (list Z -> list Z) -> toyfs_pool -> toyfs_pool).
Class FreeList : Prop := {
  fl_get g x : get (upd g x) = g (get x);
  fl_upd g g' x : upd g (upd g' x) = upd (fun l => g (g' l)) x;
  fl_id x : upd (fun _ => get x) x = x;
  fl_ext l x : upd (fun _ => l) x = upd (fun _ => l) (upd (fun _ => []) x);
  fl_pages g x : pages (upd g x) = pages x;
  fl_mutex g x : p_mutex (upd g x) = p_mutex x;
  fl_comm g g' x : upd g (upd_pages g' x) = upd_pages g' (upd g x);
  fl_comm_get g x : get (upd_pages g x) = get x;
  fl_mutex_get g x : get (upd_p_mutex g x) = get x;
  fl_mutex_comm g g' x : upd g (upd_p_mutex g' x) = upd_p_mutex g' (upd g x);
}.
Context `{!FreeList} (toRec : Z -> Z) (sz field : Z) (n : nat).

Lemma wp_carve s fl P C Q :
  pages_inv s fl P C ->
  (fl = [] -> Q (- ENOMEM) s) ->
  (forall p fl' nx s', fl = p :: fl' ->
     s' = upd_s_pool (upd (fun l => l ++ array_at (p + field) sz n))
            (upd_h_page (delete p) (upd_h_page (<[p := PoolNext None]>)
               (upd_s_pool (upd_pages (fun _ => nx)) s))) ->
     pages_inv s' fl' P ({[p]} ∪ C) -> Q 0 s') ->
  wp (carve upd sz n field) s Q.
Proof.
  intros Hpg HN HS. rewrite /carve. wp_step.
  eapply wp_pop_pmemb_without_lock; [exact Hpg|intros Hfl _; wp_step; by apply HN|].
  intros p fl' nx Hfl Hpg'. do 4 wp_step. wp_step. eapply HS; [exact Hfl|done|].
  assert (Hin : p ∈ fl) by (subst fl; constructor).
  pose proof Hpg as (_&_&Hpa&_&Hd&_). destruct (Hd p Hin) as [HpP _].
  pose proof (Hpa p (or_introl Hin)) as Hpp.
  pose proof Hpg as (_&Hnd&_). rewrite Hfl in Hnd. apply NoDup_cons in Hnd as [Hpf Hnd].
  destruct Hpg' as (Hch&_&Hpa'&Hok&Hfl'&HPC). clear Hpg HS HN.
  split_and!; fs_simpl; rewrite ?fl_pages; fs_simpl.
  - eapply chain_ext; [|exact Hch]. intros x Hx. fs_simpl.
    rewrite lookup_delete_ne; [by intros ->|done].
  - done.
  - intros q [?|[?|[->%elem_of_singleton|?]%elem_of_union]]; [apply Hpa'; tauto..|done|apply Hpa'; tauto].
  - intros q Hq. destruct (Hok q Hq) as (dat&Hdat&?). exists dat.
    rewrite lookup_delete_ne; [by intros ->|done].
  - intros q Hq. destruct (Hfl' q Hq). split; [done|].
    rewrite elem_of_union elem_of_singleton. intros [->|?]; done.
  - apply disjoint_union_r. split; [by apply disjoint_singleton_r|done].
Qed.

(** The list of records, and the counters, across a carve. *)
Lemma counts_inv_carve s s' p fl P C :
  s_statvfs s' = s_statvfs s -> p ∉ C ->
  counts_inv s (p :: fl) P C -> counts_inv s' fl P ({[p]} ∪ C).
Proof.
  rewrite /counts_inv. intros -> Hp (?&?&?&?).
  rewrite size_union; [by apply disjoint_singleton_l|]. rewrite size_singleton. simpl in *. lia.
Qed.

(** The pool apart from the chain of pages and the list of the lens. *)
Definition other_lists (s : toyfs_sb_info) : toyfs_pool :=
  upd (fun _ => []) (upd_pages (fun _ => None) (s_pool s)).

Lemma wp_pop_rec s fl P C live Q :
  0 < sz -> sz * Z.of_nat n <= PAGE_SIZE -> (0 < n)%nat ->
  (forall p, toRec <$> array_at (p + field) sz n = array_at p sz n) ->
  pages_inv s fl P C -> counts_inv s fl P C ->
  rec_inv sz n (toRec <$> get (s_pool s)) live C ->
  (get (s_pool s) = [] -> fl = [] -> Q None s) ->
  (forall x s' fl' C',
     toRec x ∉ live -> rest s' = rest s -> recs s' = recs s -> s_statvfs s' = s_statvfs s ->
     same_pages P s s' -> pages_inv s' fl' P C' -> counts_inv s' fl' P C' ->
     (forall sz' n' fr' live', rec_inv sz' n' fr' live' C -> rec_inv sz' n' fr' live' C') ->
     rec_inv sz n (toRec <$> get (s_pool s')) ({[toRec x]} ∪ live) C' ->
     other_lists s' = other_lists s -> Q (Some x) s') ->
  wp (pop_rec get upd sz n field) s Q.
Proof.
  intros Hsz Hszn Hn Harr Hpg Hct Hrec HN HS. rewrite /pop_rec /pop_free. do 3 wp_step.
  destruct (get (s_pool s)) as [|x l] eqn:Eg; simpl in Hrec.
  - wp_step. wp_step. eapply wp_carve; [exact Hpg|intros ->; change (- ENOMEM =? 0) with false; cbv iota; wp_step; by apply HN|].
    intros q fl' nx s' -> -> Hpg'.
    assert (Hin : q ∈ q :: fl') by constructor.
    pose proof Hpg as (_&_&Hpa&_&Hd&_). destruct (Hd q Hin) as [HqP HqC].
    pose proof (Hpa q (or_introl Hin)) as Hpq.
    pose proof (rec_inv_carve sz n q live C Hsz Hszn HqC Hpq (fun p Hp => Hpa p (or_intror (or_intror Hp))) Hrec) as Hrec'.
    rewrite -(Harr q) in Hrec'.
    cbn beta iota. rewrite Z.eqb_refl. do 2 wp_step. fs_simpl. rewrite fl_get fl_comm_get Eg /=.
    destruct (array_at (q + field) sz n) as [|x l] eqn:Ea.
    { apply (f_equal length) in Ea. rewrite /array_at length_fmap length_seq /= in Ea. lia. }
    simpl in Hrec'. do 2 wp_step. apply rec_inv_pop in Hrec' as [Hx Hrec'].
    apply (HS x _ fl' ({[q]} ∪ C)); rewrite /rest /recs; fs_simpl; rewrite ?fl_mutex ?fl_get; try done.
    + intros p Hp. fs_simpl. rewrite lookup_delete_ne; [by intros ->|]. by rewrite lookup_insert_ne; [intros ->|].
    + eapply pages_inv_view; [..|exact Hpg']; [done|fs_simpl; by rewrite !fl_pages].
    + by eapply counts_inv_carve; [..|exact Hct].
    + intros ????. apply rec_inv_mono.
    + rewrite /other_lists; fs_simpl. rewrite -!fl_comm !fl_upd. by destruct (s_pool s).
  - do 2 wp_step. wp_step. apply rec_inv_pop in Hrec as [Hx Hrec].
    apply (HS x _ fl C); rewrite /rest /recs; fs_simpl; rewrite ?fl_mutex ?fl_get; try done.
    + by eapply pages_inv_view; [..|exact Hpg]; [|fs_simpl; rewrite fl_pages].
    + rewrite /other_lists; fs_simpl. by rewrite -!fl_comm !fl_upd.
Qed.

Lemma wp_pop_rec_locked s fl P C live (f : option Z -> option Z) Q :
  0 < sz -> sz * Z.of_nat n <= PAGE_SIZE -> (0 < n)%nat ->
  (forall p, toRec <$> array_at (p + field) sz n = array_at p sz n) ->
  locks_ok s -> pages_inv s fl P C -> counts_inv s fl P C ->
  rec_inv sz n (toRec <$> get (s_pool s)) live C ->
  (forall s', rest s' = rest s -> recs s' = recs s -> s_statvfs s' = s_statvfs s ->
     pview s' = pview s -> fl = [] -> Q (f None) s') ->
  (forall x s' fl' C',
     toRec x ∉ live -> rest s' = rest s -> recs s' = recs s -> s_statvfs s' = s_statvfs s ->
     same_pages P s s' -> pages_inv s' fl' P C' -> counts_inv s' fl' P C' ->
     (forall sz' n' fr' live', rec_inv sz' n' fr' live' C -> rec_inv sz' n' fr' live' C') ->
     rec_inv sz n (toRec <$> get (s_pool s')) ({[toRec x]} ∪ live) C' ->
     other_lists s' = other_lists s -> Q (f (Some x)) s') ->
  wp (_pool_lock;; e ← pop_rec get upd sz n field; _pool_unlock;; mret (f e)) s Q.
Proof.
  intros Hsz Hszn Hn Harr Hlk Hpg Hct Hrec HN HS.
  assert (0 <= p_mutex (s_pool s)) by apply Hlk.
  wp_step. apply wp_pool_lock. wp_step.
  eapply (wp_pop_rec _ fl P C live); try done;
    [fs_simpl; by rewrite fl_mutex_get| |].
  - intros _ Hfl. wp_step. apply wp_pool_unlock; [fs_simpl; lia|]. wp_step.
    apply HN; fs_solve.
  - intros x s1 fl1 C1 Hx Hr1 Hre1 Hs1 Hp1 Hpg1 Hct1 Hm Hrd1 Ho.
    injection Hr1 as E1 E2 E3 E4 E5 E6 E7 E8 E9.
    wp_step. apply wp_pool_unlock; [rewrite E3; fs_simpl; lia|]. wp_step.
    apply (HS x _ fl1 C1); try done; rewrite /rest; fs_simpl.
    + by rewrite E1 E2 E3 E4 E5 E6 E7 E8 E9 Z.pred_succ.
    + by rewrite fl_mutex_get.
    + move: Ho. rewrite /other_lists; fs_simpl => Ho.
      transitivity (upd_p_mutex Z.pred (upd (fun _ => []) (upd_pages (fun _ => None) (s_pool s1)))).
      { by rewrite -fl_mutex_comm. }
      rewrite Ho -fl_mutex_comm. rewrite /upd_pages /upd_p_mutex; fs_simpl. by rewrite Z.pred_succ.
Qed.
End record_ops.

#[export] Instance free_dblkrefs_list : FreeList free_dblkrefs upd_free_dblkrefs.
Proof. split; by intros; try (match goal with x : toyfs_pool |- _ => destruct x end). Qed.
#[export] Instance free_iblkrefs_list : FreeList free_iblkrefs upd_free_iblkrefs.
Proof. split; by intros; try (match goal with x : toyfs_pool |- _ => destruct x end). Qed.
#[export] Instance free_inodes_list : FreeList free_inodes upd_free_inodes.
Proof. split; by intros; try (match goal with x : toyfs_pool |- _ => destruct x end). Qed.

(** ** The three record pools *)
Section record_pools.
Context `{MdLaws}.
Implicit Types (P D I N C : gset Z).

Lemma id_array p sz n : id <$> array_at (p + 0) sz n = array_at p sz n.
Proof. by rewrite list_fmap_id Z.add_0_r. Qed.
Lemma inode_array p : _list_head_to_inode <$> array_at (p + 16) sizeof_inode TOYFS_INODES_PER_PAGE
  = array_at p sizeof_inode TOYFS_INODES_PER_PAGE.
Proof.
  rewrite /array_at -list_fmap_compose. apply list_fmap_ext. intros i x _.
  rewrite /= /_list_head_to_inode. lia.
Qed.

Lemma wp_pool_pop_dblkref s P D I N Q :
  pool_inv s P D I N ->
  (forall s', rest s' = rest s -> recs s' = recs s -> s_statvfs s' = s_statvfs s ->
     same_pages P s s' -> pages (s_pool s') = None -> pool_inv s' P D I N -> Q None s') ->
  (forall x s', x ∉ D -> rest s' = rest s -> recs s' = recs s -> s_statvfs s' = s_statvfs s ->
     same_pages P s s' -> pool_inv s' P ({[x]} ∪ D) I N -> Q (Some x) s') ->
  wp _pool_pop_dblkref s Q.
Proof.
  intros Hinv HN HS. pose proof Hinv as (Hlk&fl&C&Hpg&Hct&Hrd&Hri&Hrn).
  eapply wp_eq; [|eapply (wp_pop_rec_locked free_dblkrefs upd_free_dblkrefs id sizeof_dblkref 0
    TOYFS_DBLKREFS_PER_PAGE s fl P C D id); try done].
  - rewrite /_pool_pop_dblkref /pop_rec /mbind /ST_bind /_pool_pop_free_dblkref.
    destruct (_pool_lock s) as [[[] s1]|]; [|done].
    by destruct (pop_free _ _ s1) as [[[] ?]|].
  - rewrite /TOYFS_DBLKREFS_PER_PAGE; lia.
  - intros p. apply id_array.
  - by rewrite list_fmap_id.
  - intros s' Hr He Hs Hv ->. apply HN; try done; [by apply pview_pages| |by eapply pool_inv_view].
    destruct Hpg as (Hch&_). by rewrite (pview_chain s s' Hv).
  - intros x s' fl' C' Hx Hr He Hs Hp Hpg' Hct' Hm Hrd' Ho. apply HS; try done.
    split; [by eapply locks_ok_eq|]. exists fl', C'. split_and!; try done.
    rewrite list_fmap_id in Hrd'. injection Ho as _ Hi Hn _ _.
    split_and!; [done|rewrite Hi|rewrite Hn]; by apply Hm.
Qed.
Lemma wp_pool_pop_iblkref s P D I N Q :
  pool_inv s P D I N ->
  (forall s', rest s' = rest s -> recs s' = recs s -> s_statvfs s' = s_statvfs s ->
     same_pages P s s' -> pages (s_pool s') = None -> pool_inv s' P D I N -> Q None s') ->
  (forall x s', x ∉ I -> rest s' = rest s -> recs s' = recs s -> s_statvfs s' = s_statvfs s ->
     same_pages P s s' -> pool_inv s' P D ({[x]} ∪ I) N -> Q (Some x) s') ->
  wp _pool_pop_iblkref s Q.
Proof.
  intros Hinv HN HS. pose proof Hinv as (Hlk&fl&C&Hpg&Hct&Hrd&Hri&Hrn).
  eapply wp_eq; [|eapply (wp_pop_rec_locked free_iblkrefs upd_free_iblkrefs id sizeof_iblkref 0
    TOYFS_IBLKREFS_PER_PAGE s fl P C I id); try done].
  - rewrite /_pool_pop_iblkref /pop_rec /mbind /ST_bind /_pool_pop_free_iblkref.
    destruct (_pool_lock s) as [[[] s1]|]; [|done].
    by destruct (pop_free _ _ s1) as [[[] ?]|].
  - rewrite /TOYFS_IBLKREFS_PER_PAGE; lia.
  - intros p. apply id_array.
  - by rewrite list_fmap_id.
  - intros s' Hr He Hs Hv ->. apply HN; try done; [by apply pview_pages| |by eapply pool_inv_view].
    destruct Hpg as (Hch&_). by rewrite (pview_chain s s' Hv).
  - intros x s' fl' C' Hx Hr He Hs Hp Hpg' Hct' Hm Hrd' Ho. apply HS; try done.
    split; [by eapply locks_ok_eq|]. exists fl', C'. split_and!; try done.
    rewrite list_fmap_id in Hrd'. injection Ho as _ Hd Hn _ _.
    split_and!; [rewrite Hd|done|rewrite Hn]; by apply Hm.
Qed.
Lemma wp_pool_pop_inode s P D I N Q :
  pool_inv s P D I N ->
  (forall s', rest s' = rest s -> recs s' = recs s -> s_statvfs s' = s_statvfs s ->
     same_pages P s s' -> pages (s_pool s') = None -> pool_inv s' P D I N -> Q None s') ->
  (forall x s', x ∉ N -> rest s' = rest s -> recs s' = recs s -> s_statvfs s' = s_statvfs s ->
     same_pages P s s' -> pool_inv s' P D I ({[x]} ∪ N) -> Q (Some x) s') ->
  wp _pool_pop_inode s Q.
Proof.
  intros Hinv HN HS. pose proof Hinv as (Hlk&fl&C&Hpg&Hct&Hrd&Hri&Hrn).
  eapply wp_eq; [|eapply (wp_pop_rec_locked free_inodes upd_free_inodes _list_head_to_inode
    sizeof_inode 16 TOYFS_INODES_PER_PAGE s fl P C N (fmap _list_head_to_inode)); try done].
  - rewrite /_pool_pop_inode /pop_rec /mbind /ST_bind /_pool_pop_free_inode
      /_pool_add_free_inodes /mbind /ST_bind.
    destruct (_pool_lock s) as [[[] s1]|]; [|done].
    destruct (pop_free _ _ s1) as [[[?|] s2]|]; [done| |done].
    rewrite /=. destruct (carve _ _ _ _ s2) as [[err s3]|]; [|done].
    destruct (err =? 0); simpl; [|done].
    by destruct (pop_free _ _ s3) as [[? ?]|].
  - rewrite /TOYFS_INODES_PER_PAGE; lia.
  - intros p. apply inode_array.
  - intros s' Hr He Hs Hv ->. apply HN; try done; [by apply pview_pages| |by eapply pool_inv_view].
    destruct Hpg as (Hch&_). by rewrite (pview_chain s s' Hv).
  - intros x s' fl' C' Hx Hr He Hs Hp Hpg' Hct' Hm Hrd' Ho. apply HS; try done.
    split; [by eapply locks_ok_eq|]. exists fl', C'. split_and!; try done.
    injection Ho as _ Hd Hi _ _.
    split_and!; [rewrite Hd|rewrite Hi|done]; by apply Hm.
Qed.
Lemma wp_pool_push_dblkref s P D I N x Q :
  pool_inv s P D I N -> x ∈ D ->
  (forall s', rest s' = rest s -> recs s' = recs s -> s_statvfs s' = s_statvfs s ->
     h_page s' = h_page s -> pages (s_pool s') = pages (s_pool s) -> pool_inv s' P (D ∖ {[x]}) I N -> Q tt s') ->
  wp (_pool_push_dblkref x) s Q.
Proof.
  intros Hinv Hx HQ. pose proof Hinv as (Hlk&fl&C&Hpg&Hct&Hrd&Hri&Hrn).
  assert (0 <= p_mutex (s_pool s)) by apply Hlk.
  rewrite /_pool_push_dblkref. wp_step. apply wp_pool_lock. do 2 wp_step.
  apply wp_pool_unlock; [fs_simpl; lia|]. apply HQ; [fs_solve..|].
  split; [locks_solve|]. exists fl, C. split_and!.
  - eapply pages_inv_view; [..|exact Hpg]; done.
  - exact Hct.
  - split_and!; fs_simpl; [by apply rec_inv_push|done..].
Qed.

Lemma wp_acquire_dblkref s P D I N Q :
  pool_inv s P D I N ->
  (forall s', rest s' = rest s -> recs s' = recs s -> s_statvfs s' = s_statvfs s ->
     same_pages P s s' -> pages (s_pool s') = None -> pool_inv s' P D I N -> Q None s') ->
  (forall x s', x ∉ D -> rest s' = rest s ->
     recs s' = (<[x := ToyfsDblkref 0 0]> (h_dblkref s), h_iblkref s, h_inode s) ->
     s_statvfs s' = s_statvfs s ->
     same_pages P s s' -> pool_inv s' P ({[x]} ∪ D) I N -> Q (Some x) s') ->
  wp toyfs_acquire_dblkref s Q.
Proof.
  intros Hinv HN HS. rewrite /toyfs_acquire_dblkref. wp_step.
  apply (wp_pool_pop_dblkref s P D I N); [done| |].
  - intros s' ??????. wp_step. by apply HN.
  - intros x s' Hx Hr He Hs Hp Hinv'. do 2 wp_step. wp_step. injection He as E1 E2 E3.
    apply HS; [done|by rewrite -Hr| |done..].
    rewrite /recs; fs_simpl. by rewrite E1 E2 E3.
Qed.

Lemma wp_release_dblkref s P D I N x v Q :
  pool_inv s P D I N -> x ∈ D -> h_dblkref s !! x = Some v ->
  (forall s', rest s' = rest s ->
     recs s' = (<[x := ToyfsDblkref (refcnt v) 0]> (h_dblkref s), h_iblkref s, h_inode s) ->
     s_statvfs s' = s_statvfs s -> h_page s' = h_page s ->
     pages (s_pool s') = pages (s_pool s) -> pool_inv s' P (D ∖ {[x]}) I N -> Q tt s') ->
  wp (toyfs_release_dblkref x) s Q.
Proof.
  intros Hinv Hx Hv HQ. rewrite /toyfs_release_dblkref. wp_step. wp_step; [exact Hv|].
  apply (wp_pool_push_dblkref _ P D I N); [eapply pool_inv_view; [|exact Hinv]; done|done|].
  intros s' Hr He Hs Hp Hpg Hinv'. by apply HQ.
Qed.

Lemma wp_pool_push_iblkref s P D I N x Q :
  pool_inv s P D I N -> x ∈ I ->
  (forall s', rest s' = rest s -> recs s' = recs s -> s_statvfs s' = s_statvfs s ->
     h_page s' = h_page s -> pages (s_pool s') = pages (s_pool s) -> pool_inv s' P D (I ∖ {[x]}) N -> Q tt s') ->
  wp (_pool_push_iblkref x) s Q.
Proof.
  intros Hinv Hx HQ. pose proof Hinv as (Hlk&fl&C&Hpg&Hct&Hrd&Hri&Hrn).
  assert (0 <= p_mutex (s_pool s)) by apply Hlk.
  rewrite /_pool_push_iblkref. wp_step. apply wp_pool_lock. do 2 wp_step.
  apply wp_pool_unlock; [fs_simpl; lia|]. apply HQ; [fs_solve..|].
  split; [locks_solve|]. exists fl, C. split_and!.
  - eapply pages_inv_view; [..|exact Hpg]; done.
  - exact Hct.
  - split_and!; fs_simpl; [done|by apply rec_inv_push|done].
Qed.

Lemma wp_acquire_iblkref s P D I N Q :
  pool_inv s P D I N ->
  (forall s', rest s' = rest s -> recs s' = recs s -> s_statvfs s' = s_statvfs s ->
     same_pages P s s' -> pages (s_pool s') = None -> pool_inv s' P D I N -> Q None s') ->
  (forall x s', x ∉ I -> rest s' = rest s ->
     recs s' = (h_dblkref s, <[x := ToyfsIblkref None (-1)]> (h_iblkref s), h_inode s) ->
     s_statvfs s' = s_statvfs s ->
     same_pages P s s' -> pool_inv s' P D ({[x]} ∪ I) N -> Q (Some x) s') ->
  wp toyfs_acquire_iblkref s Q.
Proof.
  intros Hinv HN HS. rewrite /toyfs_acquire_iblkref. wp_step.
  apply (wp_pool_pop_iblkref s P D I N); [done| |].
  - intros s' ??????. wp_step. by apply HN.
  - intros x s' Hx Hr He Hs Hp Hinv'. do 2 wp_step. wp_step. injection He as E1 E2 E3.
    apply HS; [done|by rewrite -Hr| |done..].
    rewrite /recs; fs_simpl. by rewrite E1 E2 E3.
Qed.

Lemma wp_release_iblkref s P D I N x v Q :
  pool_inv s P D I N -> x ∈ I -> h_iblkref s !! x = Some v ->
  (forall s', rest s' = rest s ->
     recs s' = (h_dblkref s, <[x := ToyfsIblkref None (-1)]> (h_iblkref s), h_inode s) ->
     s_statvfs s' = s_statvfs s -> h_page s' = h_page s ->
     pages (s_pool s') = pages (s_pool s) -> pool_inv s' P D (I ∖ {[x]}) N -> Q tt s') ->
  wp (toyfs_release_iblkref x) s Q.
Proof.
  intros Hinv Hx Hv HQ. rewrite /toyfs_release_iblkref. wp_step. wp_step; [exact Hv|].
  apply (wp_pool_push_iblkref _ P D I N); [eapply pool_inv_view; [|exact Hinv]; done|done|].
  intros s' Hr He Hs Hp Hpg Hinv'. by apply HQ.
Qed.

Lemma wp_release_inode s P D I N x Q :
  pool_inv s P D I N -> x ∈ N ->
  (forall s', rest s' = rest s ->
     recs s' = (h_dblkref s, h_iblkref s, <[x := zero_inode]> (h_inode s)) ->
     s_statvfs s' = s_statvfs s -> h_page s' = h_page s ->
     pages (s_pool s') = pages (s_pool s) -> pool_inv s' P D I (N ∖ {[x]}) -> Q tt s') ->
  wp (toyfs_release_inode x) s Q.
Proof.
  intros Hinv Hx HQ. pose proof Hinv as (Hlk&fl&C&Hpg&Hct&Hrd&Hri&Hrn).
  assert (0 <= p_mutex (s_pool s)) by apply Hlk.
  rewrite /toyfs_release_inode /_pool_push_inode. do 2 wp_step. wp_step. apply wp_pool_lock.
  do 2 wp_step. apply wp_pool_unlock; [fs_simpl; lia|]. apply HQ; [fs_solve..|].
  split; [locks_solve|]. exists fl, C. split_and!.
  - eapply pages_inv_view; [..|exact Hpg]; done.
  - exact Hct.
  - split_and!; fs_simpl; [done..|]. rewrite fmap_app /=.
    replace (_list_head_to_inode (_inode_to_list_head x)) with x
      by (rewrite /_list_head_to_inode /_inode_to_list_head; lia).
    by apply rec_inv_push.
Qed.
End record_pools.

(** ** Formatting: [_pool_setup] and [_sbi_setup] *)
Definition _sbi_setup `{MdApi} : FS unit :=
  fssize ← gets (fun s => msz (s_pool s));
  let fssize_blocks := fssize / PAGE_SIZE in
  modify (upd_s_top_ino (fun _ => 2));;
  modify (upd_s_statvfs (fun v =>
    Statvfs PAGE_SIZE PAGE_SIZE fssize_blocks fssize_blocks fssize_blocks
            fssize_blocks fssize_blocks fssize_blocks ZUFS_NAME_LEN (f_flag v))).

Section setup.
Context `{MdLaws}.

Lemma wp_pool_setup_loop mem : forall n i nxt l s (Q : option Z -> toyfs_sb_info -> Prop),
  chain (h_page s) nxt l -> (forall x, x ∈ l -> x < mem + PAGE_SIZE * i) ->
  (forall h' r, chain h' r (reverse ((fun k => mem + PAGE_SIZE * (i + Z.of_nat k)) <$> seq 0 n) ++ l) ->
     Q r (upd_h_page (fun _ => h') s)) ->
  wp (_pool_setup_loop n i mem nxt) s Q.
Proof.
  induction n as [|n IH]; intros i nxt l s Q Hch Hlt HQ; cbn [_pool_setup_loop].
  { wp_step. assert (upd_h_page (fun _ => h_page s) s = s) as <- by by destruct s. by apply HQ. }
  do 2 wp_step.
  apply (IH (i + 1) _ ((mem + PAGE_SIZE * i) :: l)); fs_simpl.
  - split; [done|]. eexists. rewrite lookup_insert_eq. split; [done|].
    eapply chain_ext; [|exact Hch]. intros x Hx. rewrite lookup_insert_ne; [|done].
    specialize (Hlt x Hx). lia.
  - intros x [->|Hx]%elem_of_cons; [lia|]. specialize (Hlt x Hx). lia.
  - intros h' r Hch'. apply (HQ h' r). revert Hch'.
    rewrite -cons_seq fmap_cons reverse_cons -(assoc_L (++)) /= -fmap_S_seq -list_fmap_compose.
    rewrite (list_fmap_ext _ (fun k => mem + 4096 * (i + 1 + Z.of_nat k))); [intros ???; simpl; lia|].
    by rewrite Z.add_0_r.
Qed.

(** The state a mount formats: nothing allocated, no record carved. *)
Definition pool_blank (s : toyfs_sb_info) : Prop :=
  locks_ok s /\ free_dblkrefs (s_pool s) = [] /\ free_iblkrefs (s_pool s) = [] /\
  free_inodes (s_pool s) = [].

Lemma rec_inv_empty sz n C : rec_inv sz n [] ∅ C.
Proof. split_and!; [constructor|set_solver|]. intros x [?%elem_of_nil|?]; set_solver. Qed.

(** What formatting leaves alone, besides the records. *)
Definition setup_rest (s : toyfs_sb_info) :=
  (s_mutex s, s_inodes_lock s, s_itable s, s_root s, z_root s, h_tii s, h_tir s, free_inodes (s_pool s), p_mutex (s_pool s)).
Lemma wp_pool_setup s n :
  pool_blank s -> 0 <= n -> n + 2 <= md_t1_blocks ->
  wp (_pool_setup (md_baddr 2) (md_p2o n);; _sbi_setup) s (fun _ s' =>
    chain (h_page s') (pages (s_pool s'))
      (reverse (array_at (md_baddr 2) PAGE_SIZE (Z.to_nat n))) /\
    f_bfree (s_statvfs s') = n /\ f_blocks (s_statvfs s') = n /\ f_ffree (s_statvfs s') = n /\
    s_top_ino s' = 2 /\ pool_inv s' ∅ ∅ ∅ ∅ /\ f_favail (s_statvfs s') = n /\ recs s' = recs s /\ setup_rest s' = setup_rest s).
Proof.
  intros (Hlk&Ed&Ei&En) Hn Hb. rewrite md_p2o_page.
  assert (Hdiv : PAGE_SIZE * n / PAGE_SIZE = n) by (rewrite Z.mul_comm Z.div_mul; lia).
  wp_step. rewrite /_pool_setup Hdiv. wp_step.
  eapply (wp_pool_setup_loop _ _ _ _ []); [done|set_solver|]. intros h' r Hch.
  do 5 wp_step. rewrite /_sbi_setup. do 5 wp_step. fs_simpl. rewrite Hdiv.
  rewrite app_nil_r in Hch.
  assert (Harr : chain h' r (reverse (array_at (md_baddr 2) PAGE_SIZE (Z.to_nat n)))) by done.
  assert (Hpa : forall p, p ∈ reverse (array_at (md_baddr 2) PAGE_SIZE (Z.to_nat n)) -> page_addr p).
  { intros p (i&Hi&->)%elem_of_reverse%array_at_elem. exists (2 + i). rewrite md_baddr_linear; lia. }
  split_and!; try done. split; [locks_solve|].
  exists (reverse (array_at (md_baddr 2) PAGE_SIZE (Z.to_nat n))), ∅. split_and!; fs_simpl.
  - split_and!; fs_simpl; [done| | |set_solver..].
    + rewrite reverse_Permutation. by apply array_at_NoDup.
    + intros p [Hp|Hp]; [by apply Hpa|set_solver].
  - pose proof md_t1_bound. rewrite /counts_inv; fs_simpl.
    rewrite length_reverse /array_at length_fmap length_seq size_empty. lia.
  - rewrite /recs_inv; fs_simpl. rewrite Ed Ei En. split_and!; apply rec_inv_empty.
Qed.

(** Formatting threads exactly the [n] pages from block 2 into the free chain,
    highest address first, sets every counter of statvfs to [n], and establishes
    the invariant of the pool with nothing handed out. *)
Theorem pool_setup_spec s n :
  pool_blank s -> 0 <= n -> n + 2 <= md_t1_blocks ->
  wp (_pool_setup (md_baddr 2) (md_p2o n);; _sbi_setup) s (fun _ s' =>
    chain (h_page s') (pages (s_pool s'))
      (reverse (array_at (md_baddr 2) PAGE_SIZE (Z.to_nat n))) /\
    f_bfree (s_statvfs s') = n /\ f_blocks (s_statvfs s') = n /\ f_ffree (s_statvfs s') = n /\
    s_top_ino s' = 2 /\ pool_inv s' ∅ ∅ ∅ ∅).
Proof.
  intros Hb Hn Hm. eapply wp_mono; [by apply wp_pool_setup|]. intros _ s' (H1 & H2 & H3 & H4 & H5 & H6 & _). by split_and!.
Qed.
End setup.

(** ** What the pool promises *)
Section promises.
Context `{MdLaws}.

(** [toyfs_acquire_pmemb] never aborts.  It hands out a page that was not
    already handed out, filled with zeros, takes one from both free-block counters
    and keeps the contents of every other live page and every record; it fails only
    when the free chain is empty, and then changes nothing. *)
Theorem acquire_pmemb_spec s P D I N :
  pool_inv s P D I N ->
  wp toyfs_acquire_pmemb s (fun r s' =>
    rest s' = rest s /\ recs s' = recs s /\ same_pages P s s' /\
    match r with
    | Some p =>
      p ∉ P /\ page_addr p /\ h_page s' !! p = Some (Pmemb (zeros 4096)) /\
      f_bfree (s_statvfs s') = f_bfree (s_statvfs s) - 1 /\
      f_bavail (s_statvfs s') = f_bavail (s_statvfs s) - 1 /\
      pool_inv s' ({[p]} ∪ P) D I N
    | None => pages (s_pool s) = None /\ s_statvfs s' = s_statvfs s /\ pool_inv s' P D I N
    end).
Proof.
  intros Hinv. apply (wp_acquire_pmemb s P D I N); [done| |].
  - intros s' Hr He Hp Hs Hn _ Hinv'. split_and!; try done. intros p _. by rewrite Hp.
  - intros p s' HpP Hpa _ Hr He Hp Hs Hinv'. split_and!; try done.
    + intros q Hq. rewrite Hp lookup_insert_ne; set_solver.
    + by rewrite Hp lookup_insert_eq.
    + rewrite Hs /=. lia.
    + rewrite Hs /=. lia.
Qed.

(** A released page goes back to the head of the chain: the counters return
    and the next [toyfs_acquire_pmemb] hands out that very page, zeroed. *)
Theorem release_acquire_pmemb s P D I N p :
  pool_inv s P D I N -> p ∈ P ->
  wp (toyfs_release_pmemb p;; toyfs_acquire_pmemb) s (fun r s' =>
    r = Some p /\ h_page s' = <[p := Pmemb (zeros 4096)]> (h_page s) /\
    s_statvfs s' = s_statvfs s /\ rest s' = rest s /\ recs s' = recs s /\
    pool_inv s' P D I N).
Proof.
  intros Hinv Hp. wp_step. apply (wp_release_pmemb s P D I N); [done..|].
  intros s1 Hr1 He1 Hpg1 (n&Hp1) _ Hs1 Hinv1.
  apply (wp_acquire_pmemb s1 (P ∖ {[p]}) D I N); [done| |].
  - intros s2 _ _ _ _ Hn _ _. congruence.
  - intros q s2 Hq _ Hpq Hr2 He2 Hp2 Hs2 Hinv2. rewrite Hpg1 in Hpq. injection Hpq as <-.
    rewrite Hp2 Hp1 Hs2 Hs1 insert_insert_eq. split_and!; [done..| | | |].
    + destruct (s_statvfs s). rewrite /upd_f_bavail /upd_f_bfree /=. by rewrite !Z.pred_succ.
    + by rewrite Hr2.
    + by rewrite He2.
    + replace ({[p]} ∪ P ∖ {[p]}) with P in Hinv2; [done|]. apply union_difference_L. set_solver.
Qed.

(** The record pools never hand out a live record, whether they recycle one
    or carve a page for 128 dblkrefs or iblkrefs or 32 inodes; they keep the
    contents of every live page, and do not touch the free-block counters. *)
Theorem acquire_records_fresh s P D I N :
  pool_inv s P D I N ->
  wp toyfs_acquire_dblkref s (fun r s' =>
    same_pages P s s' /\ s_statvfs s' = s_statvfs s /\
    match r with
    | Some x => x ∉ D /\ h_dblkref s' = <[x := ToyfsDblkref 0 0]> (h_dblkref s) /\
                pool_inv s' P ({[x]} ∪ D) I N
    | None => pool_inv s' P D I N
    end) /\
  wp toyfs_acquire_iblkref s (fun r s' =>
    same_pages P s s' /\ s_statvfs s' = s_statvfs s /\
    match r with
    | Some x => x ∉ I /\ h_iblkref s' = <[x := ToyfsIblkref None (-1)]> (h_iblkref s) /\
                pool_inv s' P D ({[x]} ∪ I) N
    | None => pool_inv s' P D I N
    end) /\
  wp toyfs_acquire_inode s (fun r s' =>
    same_pages P s s' /\ s_statvfs s' = s_statvfs s /\
    match r with
    | Some x => x ∉ N /\ pool_inv s' P D I ({[x]} ∪ N)
    | None => pool_inv s' P D I N
    end).
Proof.
  intros Hinv. split_and!.
  - apply (wp_acquire_dblkref s P D I N); [done..|]. intros x s' ?? He ???. by injection He.
  - apply (wp_acquire_iblkref s P D I N); [done..|]. intros x s' ?? He ???. by injection He.
  - apply (wp_pool_pop_inode s P D I N); done.
Qed.
End promises.

(** ** Witnesses: a pool of five pages on the example device. *)
Section examples.
#[local] Existing Instance example_md.

Definition pool_example : toyfs_sb_info :=
  match (_pool_setup (md_baddr 2) (md_p2o 5);; _sbi_setup) sbi_zero with
  | Some (_, s) => s
  | None => sbi_zero
  end.

Lemma pool_blank_zero : pool_blank sbi_zero.
Proof. by split_and!. Qed.

Lemma pool_setup_spec_witness :
  wp (_pool_setup (md_baddr 2) (md_p2o 5);; _sbi_setup) sbi_zero (fun _ s' =>
    chain (h_page s') (pages (s_pool s')) [24576; 20480; 16384; 12288; 8192] /\
    f_bfree (s_statvfs s') = 5).
Proof.
  eapply wp_mono; [apply (pool_setup_spec sbi_zero 5);
    [exact pool_blank_zero|lia|cbn [md_t1_blocks example_md]; lia]|].
  intros _ s' (Hc&Hf&_). split; [exact Hc|exact Hf].
Defined.

Lemma pool_example_inv : pool_inv pool_example ∅ ∅ ∅ ∅.
Proof.
  assert (wp (_pool_setup (md_baddr 2) (md_p2o 5);; _sbi_setup) sbi_zero
            (fun _ s' => pool_inv s' ∅ ∅ ∅ ∅)) as Hw.
  { eapply wp_mono; [apply (wp_pool_setup sbi_zero 5 pool_blank_zero); cbn [md_t1_blocks example_md]; lia|].
    naive_solver. }
  apply wp_exists in Hw as (?&?&E&?). by rewrite /pool_example E.
Qed.

Lemma acquire_pmemb_spec_witness :
  wp toyfs_acquire_pmemb pool_example (fun r s' =>
    match r with Some p => p ∉ (∅ : gset Z) | None => pages (s_pool pool_example) = None end).
Proof.
  eapply wp_mono; [apply (acquire_pmemb_spec pool_example ∅ ∅ ∅ ∅ pool_example_inv)|].
  intros [p|] s' H; apply H.
Defined.

(** The same pool after one page was handed out. *)
Definition pool_example1 : toyfs_sb_info :=
  match toyfs_acquire_pmemb pool_example with Some (_, s) => s | None => sbi_zero end.
Lemma pool_example_pages : pages (s_pool pool_example) = Some 24576.
Proof. vm_compute. reflexivity. Qed.
Lemma pool_example1_inv : pool_inv pool_example1 ({[24576]} ∪ ∅) ∅ ∅ ∅.
Proof.
  assert (wp toyfs_acquire_pmemb pool_example (fun r s' =>
    r = Some 24576 /\ pool_inv s' ({[24576]} ∪ ∅) ∅ ∅ ∅)) as Hw.
  { apply (wp_acquire_pmemb _ ∅ ∅ ∅ ∅ _ pool_example_inv).
    - intros ????? Hn. by rewrite pool_example_pages in Hn.
    - intros p s' _ _ Hp _ _ _ _. rewrite pool_example_pages in Hp. by injection Hp as <-. }
  apply wp_exists in Hw as (?&?&E&_&?). by rewrite /pool_example1 E.
Qed.

Lemma release_acquire_pmemb_witness :
  wp (toyfs_release_pmemb 24576;; toyfs_acquire_pmemb) pool_example1 (fun r _ => r = Some 24576).
Proof.
  eapply wp_mono; [apply (release_acquire_pmemb pool_example1 _ ∅ ∅ ∅ 24576 pool_example1_inv)|].
  - apply elem_of_union_l, elem_of_singleton_2. reflexivity.
  - intros r s' H. apply H.
Defined.

Lemma acquire_records_fresh_witness :
  wp toyfs_acquire_dblkref pool_example1 (fun r s' =>
    match r with Some x => x ∉ (∅ : gset Z) | None => True end).
Proof.
  destruct (acquire_records_fresh pool_example1 _ ∅ ∅ ∅ pool_example1_inv) as (H&_).
  eapply wp_mono; [exact H|]. intros [x|] s' Hx; [apply Hx|exact I].
Defined.
End examples.
