(* ===== verification/File.v ===== *)
(** * Regular files: fs/toyfs/file.c

    The blocks of a file are the iblkrefs on its inode's list, ordered by offset;
    an iblkref points to a dblkref, which counts the iblkrefs that share its page. *)

From S2P Require Import Prelude CList State Pool.

Definition TOYFS_ISIZE_MAX : Z := 2 ^ 50.

(** linux/falloc.h and unistd.h *)
Definition FALLOC_FL_KEEP_SIZE : Z := 1.
Definition FALLOC_FL_PUNCH_HOLE : Z := 2.
Definition FALLOC_FL_NO_HIDE_STALE : Z := 4.
Definition FALLOC_FL_COLLAPSE_RANGE : Z := 8.
Definition FALLOC_FL_ZERO_RANGE : Z := 16.
Definition FALLOC_FL_INSERT_RANGE : Z := 32.
Definition FALLOC_FL_UNSHARE_RANGE : Z := 64.
Definition SEEK_DATA : Z := 3.
Definition SEEK_HOLE : Z := 4.
Definition FIEMAP_EXTENT_LAST : Z := 1.
Definition FIEMAP_EXTENT_SHARED : Z := 8192.
Definition flag_set (flags f : Z) : bool := negb (Z.land flags f =? 0).

(** ** Offsets: C division truncates *)
Definition _off_to_boff (off : Z) : Z := Z.quot off PAGE_SIZE * PAGE_SIZE.
Definition _off_in_page (off : Z) : Z := Z.rem off PAGE_SIZE.
Definition _next_page (off : Z) : Z := Z.quot (off + PAGE_SIZE) PAGE_SIZE * PAGE_SIZE.
Definition _ispagealigned (off len : Z) : bool :=
  (Z.rem off PAGE_SIZE =? 0) && (Z.rem len PAGE_SIZE =? 0).
Definition _nbytes_in_range (off nxt end_ : Z) : Z :=
  u64 (if nxt <? end_ then nxt - off else end_ - off).
Definition _max_offset (off len isize : Z) : Z :=
  let end_ := off + s64 len in if s64 isize <? end_ then end_ else s64 isize.
Definition _tin_offset (off len isize : Z) : Z :=
  let end_ := off + s64 len in if end_ <? s64 isize then end_ else s64 isize.
Definition _is_entire_page (src_off dst_off len : Z) : bool :=
  (len =? PAGE_SIZE) && (_off_in_page src_off =? 0) && (_off_in_page dst_off =? 0).

(** The number of iterations of a [while (off < end) off = _next_page(off)] loop,
    with one to leave it. *)
Definition page_fuel (off end_ : Z) : nat := S (Z.to_nat ((end_ - off) / PAGE_SIZE + 2)).

(** ** Argument checks *)
Definition _check_io (off len : Z) : Z :=
  let uoff := u64 off in
  if off <? 0 then - EINVAL
  else if len =? 0 then - EINVAL
  else if TOYFS_ISIZE_MAX <? uoff then - EFBIG
  else if TOYFS_ISIZE_MAX <? u64 (uoff + len) then - EFBIG
  else 0.
Definition _check_falloc (flags off len : Z) : Z :=
  if flag_set flags FALLOC_FL_NO_HIDE_STALE then - ENOTSUP
  else if flag_set flags FALLOC_FL_INSERT_RANGE then - ENOTSUP
  else if flag_set flags FALLOC_FL_UNSHARE_RANGE then - ENOTSUP
  else if flag_set flags FALLOC_FL_PUNCH_HOLE && negb (flag_set flags FALLOC_FL_KEEP_SIZE)
  then - ENOTSUP
  else if flag_set flags FALLOC_FL_COLLAPSE_RANGE && negb (flags =? FALLOC_FL_COLLAPSE_RANGE)
  then - ENOTSUP
  else if flag_set flags FALLOC_FL_COLLAPSE_RANGE && negb (_ispagealigned off len)
  then - ENOTSUP
  else 0.

(** ** Page contents *)

(** The bytes [src] written over [dat] from [o]. *)
Definition splice (dat : list Z) (o : Z) (src : list Z) : list Z :=
  take (Z.to_nat o) dat ++ src ++ drop (Z.to_nat o + length src) dat.
Definition load_pmemb (p : Z) : FS (list Z) :=
  pg ← load h_page p;
  match pg with Pmemb dat => mret dat | PoolNext _ => abort end.
Definition store_pmemb (p : Z) (dat : list Z) : FS unit :=
  update h_page upd_h_page p (fun _ => Pmemb dat).

Definition _fill_zeros (len : Z) : list Z := zeros (Z.to_nat len).
Definition _copy_out (pmemb off len : Z) : FS (list Z) :=
  assert (len <=? PAGE_SIZE);;
  assert (u64 (u64 off + len) <=? PAGE_SIZE);;
  dat ← load_pmemb pmemb;
  mret (take (Z.to_nat len) (drop (Z.to_nat off) dat)).
Definition _copy_in (pmemb : Z) (src : list Z) (off len : Z) : FS unit :=
  assert (negb (pmemb =? 0));;
  assert (len <=? PAGE_SIZE);;
  assert (u64 (u64 off + len) <=? PAGE_SIZE);;
  dat ← load_pmemb pmemb;
  store_pmemb pmemb (splice dat off (take (Z.to_nat len) src)).
Definition _copy_pmemb (pmemb other : Z) : FS unit :=
  src ← load_pmemb other; _copy_in pmemb src 0 PAGE_SIZE.
Definition _assign_zeros (pmemb off len : Z) : FS unit :=
  assert (len <=? PAGE_SIZE);;
  assert (u64 (u64 off + len) <=? PAGE_SIZE);;
  dat ← load_pmemb pmemb;
  store_pmemb pmemb (splice dat off (_fill_zeros len)).

(** ** Records *)
Section file.
Context `{MdApi}.

Definition _check_rw (off len : Z) : Z :=
  if ZUS_API_MAP_MAX_SIZE <? len then - EINVAL else _check_io off len.

Definition iblkref_off (i : Z) : FS Z := r ← load h_iblkref i; mret (off r).
(** [iblkref->dblkref], dereferenced by every caller. *)
Definition iblkref_dblkref (i : Z) : FS Z := r ← load h_iblkref i; of_option (dblkref r).
Definition dblkref_bn (d : Z) : FS Z := r ← load h_dblkref d; mret (bn r).
Definition dblkref_refcnt (d : Z) : FS Z := r ← load h_dblkref d; mret (refcnt r).
Definition set_refcnt (d : Z) (f : Z -> Z) : FS unit :=
  update h_dblkref upd_h_dblkref d (upd_refcnt (fun n => u64 (f n))).
Definition set_iblkref_dblkref (i d : Z) : FS unit :=
  update h_iblkref upd_h_iblkref i (upd_dblkref (fun _ => Some d)).
Definition set_iblkref_off (i : Z) (f : Z -> Z) : FS unit :=
  update h_iblkref upd_h_iblkref i (upd_off f).

Definition _new_dblkref : FS (option Z) :=
  pmemb ← toyfs_acquire_pmemb;
  match pmemb with
  | None => mret None
  | Some p =>
    d ← toyfs_acquire_dblkref;
    match d with
    | None => toyfs_release_pmemb p;; mret None
    | Some q =>
      update h_dblkref upd_h_dblkref q (upd_bn (fun _ => toyfs_addr2bn p));;
      set_refcnt q (fun _ => 1);;
      mret (Some q)
    end
  end.
Definition _free_dblkref (d : Z) : FS unit :=
  bn ← dblkref_bn d;
  toyfs_release_dblkref d;;
  toyfs_release_pmemb (toyfs_bn2pmemb bn).
Definition _decref_dblkref (d : Z) : FS unit :=
  toyfs_sbi_lock;;
  n ← dblkref_refcnt d;
  assert (0 <? n);;
  set_refcnt d Z.pred;;
  refcnt ← dblkref_refcnt d;
  toyfs_sbi_unlock;;
  if refcnt =? 0 then _free_dblkref d else mret tt.
Definition _new_iblkref (tii o : Z) : FS (option Z) :=
  zi ← tii_zi tii;
  d ← _new_dblkref;
  match d with
  | None => mret None
  | Some q =>
    i ← toyfs_acquire_iblkref;
    match i with
    | None => _decref_dblkref q;; mret None
    | Some x =>
      set_iblkref_dblkref x q;;
      set_iblkref_off x (fun _ => o);;
      set_inode zi (upd_i_blocks (fun n => u64 (n + 1)));;
      mret (Some x)
    end
  end.
Definition _free_iblkref (tii i : Z) : FS unit :=
  zi ← tii_zi tii;
  blocks ← get_inode zi i_blocks;
  assert (negb (blocks =? 0));;
  d ← iblkref_dblkref i;
  _decref_dblkref d;;
  toyfs_release_iblkref i;;
  set_inode zi (upd_i_blocks (fun n => u64 (n - 1))).

(** ** The block list of a file *)
Definition toyfs_iblkrefs_list_of (tii : Z) : FS (list Z) :=
  ti ← tii_ti tii; get_inode ti list_head.
Definition set_iblkrefs_list (tii : Z) (f : list Z -> list Z) : FS unit :=
  ti ← tii_ti tii; set_inode ti (upd_list_head f).

(** [container_of] of the list node, which is the first field. *)
Definition iblkref_of (itr : Z) : Z := itr.

(** The first node of [l] whose offset satisfies [p]. *)
Fixpoint find_iblkref (p : Z -> bool) (l : list Z) : FS (option Z) :=
  match l with
  | [] => mret None
  | itr :: l' =>
    o ← iblkref_off (iblkref_of itr);
    if p o then mret (Some (iblkref_of itr)) else find_iblkref p l'
  end.
Definition _fetch_iblkref (tii off : Z) : FS (option Z) :=
  let boff := _off_to_boff off in
  iblkrefs ← toyfs_iblkrefs_list_of tii;
  find_iblkref (fun o => o =? boff) iblkrefs.
Definition _fetch_iblkref_from (tii off : Z) : FS (option Z) :=
  let boff := _off_to_boff off in
  iblkrefs ← toyfs_iblkrefs_list_of tii;
  find_iblkref (fun o => boff <=? o) iblkrefs.
(** NULL is 0. *)
Definition _fetch_pmemb_by_offset (tii off : Z) : FS Z :=
  iblkref ← _fetch_iblkref tii off;
  match iblkref with
  | None => mret 0
  | Some i => d ← iblkref_dblkref i; bn ← dblkref_bn d; mret (toyfs_bn2pmemb bn)
  end.
Definition toyfs_resolve_pmemb (tii off : Z) : FS Z := _fetch_pmemb_by_offset tii off.

Definition _clone_data (dst src : Z) : FS unit :=
  toyfs_sbi_lock;;
  dbn ← dblkref_bn dst;
  sbn ← dblkref_bn src;
  _copy_pmemb (toyfs_bn2pmemb dbn) (toyfs_bn2pmemb sbn);;
  toyfs_sbi_unlock.

(** The search of [_require_iblkref]: the block at [boff], or the node to insert
    before ([None] is the list head). *)
Fixpoint _require_search (boff : Z) (l : list Z) : FS (option Z * option Z) :=
  match l with
  | [] => mret (None, None)
  | itr :: l' =>
    o ← iblkref_off (iblkref_of itr);
    if o =? boff then mret (Some (iblkref_of itr), Some itr)
    else if boff <? o then mret (None, Some itr)
    else _require_search boff l'
  end.
(** [toyfs_list_add_before], on the list the ring stands for (CList.v). *)
Definition add_before (x : Z) (itr : option Z) (l : list Z) : list Z :=
  match itr with Some y => insert_before x y l | None => l ++ [x] end.
Definition _require_iblkref (tii off : Z) : FS (option Z) :=
  let boff := _off_to_boff off in
  iblkrefs ← toyfs_iblkrefs_list_of tii;
  r ← _require_search boff iblkrefs;
  match r with
  | (None, itr) =>
    iblkref ← _new_iblkref tii boff;
    match iblkref with
    | None => mret None
    | Some x => set_iblkrefs_list tii (add_before x itr);; mret (Some x)
    end
  | (Some i, _) =>
    d ← iblkref_dblkref i;
    n ← dblkref_refcnt d;
    if 1 <? n then
      dblkref ← _new_dblkref;
      match dblkref with
      | None => mret None
      | Some q =>
        src ← iblkref_dblkref i;
        _clone_data q src;;
        set_iblkref_dblkref i q;;
        mret (Some i)
      end
    else mret (Some i)
  end.
Definition toyfs_require_pmem_bn (tii off : Z) : FS Z :=
  iblkref ← _require_iblkref tii off;
  match iblkref with
  | Some i => d ← iblkref_dblkref i; dblkref_bn d
  | None => mret 0
  end.

(** ** Read and write *)
Fixpoint _read_loop (fuel : nat) (tii off end_ cnt : Z) : FS (Z * list Z) :=
  match fuel with
  | O => abort
  | S k =>
    if off <? end_ then
      pmemb ← _fetch_pmemb_by_offset tii off;
      let nxt := _next_page off in
      let len := _nbytes_in_range off nxt end_ in
      buf ← (if negb (pmemb =? 0) then _copy_out pmemb (_off_in_page off) len
             else mret (_fill_zeros len));
      r ← _read_loop k tii nxt end_ (cnt + len);
      mret (r.1, buf ++ r.2)
    else mret (cnt, [])
  end.
(** The result and the bytes stored into the buffer. *)
Definition _read (tii off len : Z) : FS (Z * list Z) :=
  let err := _check_rw off len in
  if negb (err =? 0) then mret (err, []) else
  ti ← tii_ti tii;
  isize ← get_inode ti i_size;
  let end_ := _tin_offset off len isize in
  _read_loop (page_fuel off end_) tii off end_ 0.

(** [struct zufs_ioc_IO], the fields toyfs uses. *)
Record zufs_ioc_IO := ZufsIocIO { io_zus_ii : Z; io_filepos : Z; io_len : Z; io_last_pos : Z; io_rw : Z }.
Definition toyfs_read (io : zufs_ioc_IO) : FS (Z * list Z * zufs_ioc_IO) :=
  tii ← toyfs_zii_to_tii (io_zus_ii io);
  r ← _read tii (s64 (io_filepos io)) (io_len io);
  if r.1 <? 0 then mret (r.1, r.2, io) else
  mret (0, r.2, ZufsIocIO (io_zus_ii io) (io_filepos io) (io_len io)
                          (u64 (io_filepos io + r.1)) (io_rw io)).
Definition toyfs_pre_read (io : zufs_ioc_IO) : FS (Z * list Z * zufs_ioc_IO) := toyfs_read io.

Fixpoint _write_loop (fuel : nat) (tii : Z) (buf : list Z) (off end_ cnt : Z) : FS (option Z) :=
  match fuel with
  | O => abort
  | S k =>
    if off <? end_ then
      iblkref ← _require_iblkref tii off;
      match iblkref with
      | None => mret None
      | Some i =>
        d ← iblkref_dblkref i;
        bn ← dblkref_bn d;
        let pmemb := toyfs_bn2pmemb bn in
        let nxt := _next_page off in
        let len := _nbytes_in_range off nxt end_ in
        _copy_in pmemb buf (_off_in_page off) len;;
        _write_loop k tii (drop (Z.to_nat len) buf) nxt end_ (cnt + len)
      end
    else mret (Some cnt)
  end.
Definition _write (tii : Z) (buf : list Z) (off len : Z) : FS Z :=
  let from := off in
  let err := _check_rw off len in
  if negb (err =? 0) then mret err else
  let end_ := off + s64 len in
  r ← _write_loop (page_fuel off end_) tii buf off end_ 0;
  match r with
  | None => mret (- ENOSPC)
  | Some cnt =>
    ti ← tii_ti tii;
    set_inode ti (fun i => upd_i_size (fun sz => u64 (_max_offset from cnt sz)) i);;
    mret cnt
  end.
Definition toyfs_write (buf : list Z) (io : zufs_ioc_IO) : FS (Z * zufs_ioc_IO) :=
  tii ← toyfs_zii_to_tii (io_zus_ii io);
  ret ← _write tii buf (s64 (io_filepos io)) (io_len io);
  if ret <? 0 then mret (ret, io) else
  mret (0, ZufsIocIO (io_zus_ii io) (io_filepos io) (io_len io)
                     (u64 (io_filepos io + ret)) (io_rw io)).

(** ** Dropping and zeroing blocks *)
Definition _drop_iblkref (tii i : Z) : FS unit :=
  set_iblkrefs_list tii (remove1 i);;
  _free_iblkref tii i.
Fixpoint _drop_loop (tii pos : Z) (l : list Z) : FS unit :=
  match l with
  | [] => mret tt
  | itr :: l' =>
    o ← iblkref_off (iblkref_of itr);
    (if pos <=? o then _drop_iblkref tii (iblkref_of itr) else mret tt);;
    _drop_loop tii pos l'
  end.
Definition _drop_range (tii pos : Z) : FS unit :=
  let pos := if Z.rem pos PAGE_SIZE =? 0 then pos else _next_page pos in
  iblkrefs ← toyfs_iblkrefs_list_of tii;
  _drop_loop tii pos iblkrefs.

Definition _unique_pmemb (i : Z) : FS Z :=
  d ← iblkref_dblkref i;
  bn ← dblkref_bn d;
  let pmemb := toyfs_bn2pmemb bn in
  n ← dblkref_refcnt d;
  if 1 <? n then
    q ← _new_dblkref;
    match q with
    | None => mret 0
    | Some q =>
      nbn ← dblkref_bn q;
      let new_pmemb := toyfs_bn2pmemb nbn in
      assert (negb (new_pmemb =? 0));;
      _copy_pmemb new_pmemb pmemb;;
      d' ← iblkref_dblkref i;
      set_refcnt d' Z.pred;;
      set_iblkref_dblkref i q;;
      mret new_pmemb
    end
  else mret pmemb.
Definition _zero_after (tii pos : Z) : FS Z :=
  if Z.rem pos PAGE_SIZE =? 0 then mret 0 else
  iblkref ← _fetch_iblkref tii pos;
  match iblkref with
  | None => mret 0
  | Some i =>
    pmemb ← _unique_pmemb i;
    if pmemb =? 0 then mret (- ENOSPC) else
    let poff := _off_in_page pos in
    _assign_zeros pmemb poff (u64 (PAGE_SIZE - poff));;
    mret 0
  end.
Definition toyfs_truncate (tii size : Z) : FS Z :=
  zi ← tii_zi tii;
  mode ← get_inode zi i_mode;
  if S_ISTYPE S_IFDIR mode then mret (- EISDIR) else
  if negb (S_ISTYPE S_IFREG mode) then mret (- EINVAL) else
  isize ← get_inode zi i_size;
  err ← (if size <? isize then _drop_range tii (s64 size);; _zero_after tii (s64 size)
         else mret 0);
  set_inode zi (upd_i_size (fun _ => size));;
  mret err.

(** ** fallocate *)
Definition _zero_range_at (i off len : Z) : FS unit :=
  d ← iblkref_dblkref i;
  bn ← dblkref_bn d;
  let pmemb := toyfs_bn2pmemb bn in
  let poff := _off_in_page off in
  let pnxt := _next_page poff in
  let plen := _nbytes_in_range poff pnxt (poff + s64 len) in
  _assign_zeros pmemb poff plen.
Definition _punch_hole_at (tii i off len : Z) : FS unit :=
  if len <? PAGE_SIZE then _zero_range_at i off len else _drop_iblkref tii i.
Fixpoint _punch_loop (fuel : nat) (tii off end_ : Z) : FS unit :=
  match fuel with
  | O => abort
  | S k =>
    if off <? end_ then
      iblkref ← _fetch_iblkref tii off;
      let nxt := _next_page off in
      let len := _nbytes_in_range off nxt end_ in
      match iblkref with
      | Some i => _punch_hole_at tii i off len
      | None => mret tt
      end;;
      _punch_loop k tii nxt end_
    else mret tt
  end.
Definition _punch_hole (tii from nbytes : Z) : FS Z :=
  let end_ := from + s64 nbytes in
  _punch_loop (page_fuel from end_) tii from end_;;
  mret 0.

(** The nodes of [l] from [i] on. *)
Fixpoint list_from (i : Z) (l : list Z) : list Z :=
  match l with
  | [] => []
  | x :: l' => if bool_decide (x = i) then l else list_from i l'
  end.
(** [off] is the offset the iteration starts at: [from], then the block's own. *)
Fixpoint _zero_loop (l : list Z) (off end_ : Z) : FS unit :=
  match l with
  | [] => mret tt
  | i :: l' =>
    ioff ← iblkref_off i;
    if ioff <? end_ then
      let nxt := _next_page ioff in
      let len := _nbytes_in_range off nxt end_ in
      _zero_range_at i off len;;
      match l' with
      | [] => mret tt
      | j :: _ => joff ← iblkref_off j; _zero_loop l' joff end_
      end
    else mret tt
  end.
Definition _zero_range (tii from nbytes : Z) : FS Z :=
  iblkrefs ← toyfs_iblkrefs_list_of tii;
  let end_ := from + s64 nbytes in
  iblkref ← _fetch_iblkref_from tii from;
  match iblkref with
  | None => mret 0
  | Some i => _zero_loop (list_from i iblkrefs) from end_;; mret 0
  end.

Fixpoint _shift_loop (l : list Z) (nbytes : Z) : FS unit :=
  match l with
  | [] => mret tt
  | i :: l' => set_iblkref_off i (fun o => o - s64 nbytes);; _shift_loop l' nbytes
  end.
Definition _collapse_range (tii from nbytes : Z) : FS Z :=
  err ← _punch_hole tii from nbytes;
  if negb (err =? 0) then mret err else
  zi ← tii_zi tii;
  isize ← get_inode zi i_size;
  (if nbytes <=? isize then
     ti ← tii_ti tii; set_inode ti (upd_i_size (fun sz => u64 (sz - nbytes)))
   else mret tt);;
  iblkref ← _fetch_iblkref_from tii from;
  match iblkref with
  | None => mret 0
  | Some i =>
    iblkrefs ← toyfs_iblkrefs_list_of tii;
    _shift_loop (list_from i iblkrefs) nbytes;;
    mret 0
  end.

Fixpoint _falloc_loop (fuel : nat) (tii off end_ cnt : Z) : FS (option Z) :=
  match fuel with
  | O => abort
  | S k =>
    if off <? end_ then
      iblkref ← _require_iblkref tii off;
      match iblkref with
      | None => mret None
      | Some _ =>
        let nxt := _next_page off in
        let len := _nbytes_in_range off nxt end_ in
        _falloc_loop k tii nxt end_ (cnt + len)
      end
    else mret (Some cnt)
  end.
Definition _falloc_range (tii from nbytes : Z) : FS Z :=
  let end_ := from + s64 nbytes in
  r ← _falloc_loop (page_fuel from end_) tii from end_ 0;
  match r with
  | None => mret (- ENOSPC)
  | Some cnt =>
    ti ← tii_ti tii;
    set_inode ti (upd_i_size (fun sz => u64 (_max_offset from cnt sz)));;
    mret 0
  end.
Definition _fallocate (tii mode off len : Z) : FS Z :=
  let err := _check_io off len in
  if negb (err =? 0) then mret err else
  let err := _check_falloc mode off len in
  if negb (err =? 0) then mret err else
  if flag_set mode FALLOC_FL_PUNCH_HOLE then _punch_hole tii off len
  else if flag_set mode FALLOC_FL_ZERO_RANGE then _zero_range tii off len
  else if flag_set mode FALLOC_FL_COLLAPSE_RANGE then _collapse_range tii off len
  else _falloc_range tii off len.
Definition toyfs_fallocate (zii : Z) (io : zufs_ioc_IO) : FS Z :=
  let mode := s64 (io_rw io) in
  tii ← toyfs_zii_to_tii zii;
  if flag_set mode ZUFS_FL_TRUNCATE then toyfs_truncate tii (io_filepos io) else
  let pos := s64 (io_filepos io) in
  let end_pos := s64 (io_last_pos io) in
  let len := end_pos - pos in
  _fallocate tii (s32 mode) pos (u64 len).

(** ** Seek *)
Fixpoint _seek_loop (fuel : nat) (tii off end_ : Z) (seek_exist : bool) : FS (option Z) :=
  match fuel with
  | O => abort
  | S k =>
    if off <? end_ then
      pmemb ← _fetch_pmemb_by_offset tii off;
      let present := negb (pmemb =? 0) in
      if (present && seek_exist) || (negb present && negb seek_exist) then mret (Some off)
      else _seek_loop k tii (_next_page off) end_ seek_exist
    else mret None
  end.
(** [out] is the value [*out_off] has before. *)
Definition _seek_block (tii from : Z) (seek_exist : bool) (out : Z) : FS Z :=
  ti ← tii_ti tii;
  isize ← get_inode ti i_size;
  let end_ := s64 isize in
  r ← _seek_loop (page_fuel from end_) tii from end_ seek_exist;
  mret (match r with Some o => o | None => out end).
Definition _seek_data (tii from out : Z) : FS Z := _seek_block tii from true out.
Definition _seek_hole (tii from out : Z) : FS Z := _seek_block tii from false out.
(** The error and [offset_out]. *)
Definition toyfs_seek (zii offset_in whence : Z) : FS (Z * Z) :=
  tii ← toyfs_zii_to_tii zii;
  let off_in := s64 offset_in in
  let off := -1 in
  if whence =? SEEK_DATA then o ← _seek_data tii off_in off; mret (0, u64 o)
  else if whence =? SEEK_HOLE then o ← _seek_hole tii off_in off; mret (0, u64 o)
  else mret (- ENOTSUP, u64 off).

(** ** Clone *)
Fixpoint _clone_loop (dst_tii : Z) (l : list Z) : FS bool :=
  match l with
  | [] => mret true
  | src :: l' =>
    i ← toyfs_acquire_iblkref;
    match i with
    | None => mret false
    | Some dst =>
      o ← iblkref_off src;
      set_iblkref_off dst (fun _ => o);;
      d ← iblkref_dblkref src;
      set_iblkref_dblkref dst d;;
      set_refcnt d Z.succ;;
      set_iblkrefs_list dst_tii (fun l => l ++ [dst]);;
      zi ← tii_zi dst_tii;
      set_inode zi (upd_i_blocks (fun n => u64 (n + 1)));;
      _clone_loop dst_tii l'
    end
  end.
Definition _clone_entire_file_range (src_tii dst_tii : Z) : FS Z :=
  _drop_range dst_tii 0;;
  toyfs_sbi_lock;;
  src_iblkrefs ← toyfs_iblkrefs_list_of src_tii;
  ok ← _clone_loop dst_tii src_iblkrefs;
  toyfs_sbi_unlock;;
  if negb ok then mret (- ENOSPC) else
  src_zi ← tii_zi src_tii;
  size ← get_inode src_zi i_size;
  dst_zi ← tii_zi dst_tii;
  set_inode dst_zi (upd_i_size (fun _ => size));;
  mret 0.

Definition _share_page (src dst : Z) : FS unit :=
  r ← load h_iblkref dst;
  match dblkref r with
  | Some d =>
    set_refcnt d Z.pred;;
    n ← dblkref_refcnt d;
    if n =? 0 then _free_dblkref d else mret tt
  | None => mret tt
  end;;
  d ← iblkref_dblkref src;
  set_iblkref_dblkref dst d;;
  set_refcnt d Z.succ.
Definition _clone_range (src_tii dst_tii src_off dst_off len : Z) : FS Z :=
  assert (_is_entire_page src_off dst_off len);;
  src_iblkref ← _fetch_iblkref src_tii src_off;
  r ← match src_iblkref with
      | Some src =>
        dst_iblkref ← _require_iblkref dst_tii dst_off;
        match dst_iblkref with
        | None => mret (Some (- ENOSPC))
        | Some dst => _share_page src dst;; mret None
        end
      | None =>
        dst_iblkref ← _fetch_iblkref dst_tii dst_off;
        match dst_iblkref with
        | None => mret (Some 0)
        | Some dst =>
          dst_pmemb ← _unique_pmemb dst;
          if dst_pmemb =? 0 then mret (Some (- ENOSPC)) else
          _assign_zeros dst_pmemb (_off_in_page dst_off) len;; mret None
        end
      end;
  match r with
  | Some err => mret err
  | None =>
    let size := u64 (dst_off + len) in
    dst_zi ← tii_zi dst_tii;
    isize ← get_inode dst_zi i_size;
    (if isize <? size then set_inode dst_zi (upd_i_size (fun _ => size)) else mret tt);;
    mret 0
  end.
Fixpoint _clone_sub_loop (fuel : nat) (src_tii dst_tii src_off src_end dst_off dst_end : Z) : FS Z :=
  match fuel with
  | O => abort
  | S k =>
    if (src_off <? src_end) && (dst_off <? dst_end) then
      let src_nxt := _next_page src_off in
      let src_len := _nbytes_in_range src_off src_nxt src_end in
      let dst_nxt := _next_page dst_off in
      let dst_len := _nbytes_in_range dst_off dst_nxt dst_end in
      let len := if src_len <? dst_len then src_len else dst_len in
      err ← _clone_range src_tii dst_tii src_off dst_off len;
      if negb (err =? 0) then mret err else
      _clone_sub_loop k src_tii dst_tii (src_off + s64 len) src_end (dst_off + s64 len) dst_end
    else mret 0
  end.
Definition _clone_sub_file_range (src_tii dst_tii src_pos dst_pos nbytes : Z) : FS Z :=
  toyfs_sbi_lock;;
  let src_end := src_pos + s64 nbytes in
  let dst_end := dst_pos + s64 nbytes in
  err ← _clone_sub_loop (page_fuel src_pos src_end) src_tii dst_tii src_pos src_end dst_pos dst_end;
  toyfs_sbi_unlock;;
  mret err.
Definition _clone (src_tii dst_tii src_pos dst_pos len : Z) : FS Z :=
  src_zi ← tii_zi src_tii;
  dst_zi ← tii_zi dst_tii;
  smode ← get_inode src_zi i_mode;
  dmode ← get_inode dst_zi i_mode;
  if negb (S_ISTYPE S_IFREG smode) || negb (S_ISTYPE S_IFREG dmode) then mret (- ENOTSUP) else
  if src_tii =? dst_tii then mret 0 else
  if (src_pos =? 0) && (len =? 0) && (dst_pos =? 0)
  then _clone_entire_file_range src_tii dst_tii else
  if negb (_ispagealigned src_pos 0) || negb (_ispagealigned src_pos len) ||
     negb (_ispagealigned dst_pos 0) || negb (_ispagealigned dst_pos len)
  then mret (- ENOTSUP) else
  _clone_sub_file_range src_tii dst_tii src_pos dst_pos len.
Definition toyfs_clone (src_zii dst_zii pos_in pos_out len : Z) : FS Z :=
  src_tii ← toyfs_zii_to_tii src_zii;
  dst_tii ← toyfs_zii_to_tii dst_zii;
  _clone src_tii dst_tii (s64 pos_in) (s64 pos_out) len.

(** ** fiemap *)
Definition physaddr_of (i : Z) : FS Z :=
  d ← iblkref_dblkref i; bn ← dblkref_bn d; mret (toyfs_page2dpp (toyfs_bn2pmemb bn)).
(** The inner loop: the length, the flags and the rest of an extent that starts at
    [i] with [itr] the nodes from the current one on. *)
Fixpoint _fiemap_extent (i ioff refcnt : Z) (itr : list Z) (length : Z) : FS (Z * Z * list Z) :=
  match itr with
  | [] => mret (length, 0, [])
  | _ :: itr' =>
    let length := u64 (length + PAGE_SIZE) in
    let flags := Z.lor (if 1 <? refcnt then FIEMAP_EXTENT_SHARED else 0)
                       (match itr' with [] => FIEMAP_EXTENT_LAST | _ => 0 end) in
    if negb (flags =? 0) then mret (length, flags, itr') else
    match itr' with
    | [] => mret (length, flags, itr')
    | j :: _ =>
      joff ← iblkref_off j;
      if ioff + PAGE_SIZE <? joff then mret (length, flags, itr')
      else _fiemap_extent i ioff refcnt itr' length
    end
  end.
(** [fill] is [zufs_fiemap_fill_next_extent] of zus_api.h, which records an extent
    in the caller's array and answers 1 when it is full. *)
Fixpoint _fiemap_loop {F : Type} (fill : F -> Z -> Z -> Z -> Z -> Z * F)
    (fuel : nat) (fi : F) (itr : list Z) (flags err : Z) : FS (Z * F) :=
  match fuel with
  | O => abort
  | S k =>
    match itr with
    | [] => mret (err, fi)
    | i :: _ =>
      if flag_set flags FIEMAP_EXTENT_LAST then mret (err, fi) else
      logical ← iblkref_off i;
      phys ← physaddr_of i;
      d ← iblkref_dblkref i;
      n ← dblkref_refcnt d;
      e ← _fiemap_extent i logical n itr 0;
      let '(length, flags, itr) := e in
      let '(err, fi) := fill fi (u64 logical) phys length flags in
      if negb (err =? 0) then mret (if err =? 1 then 0 else err, fi)
      else _fiemap_loop fill k fi itr flags err
    end
  end.
Definition _fiemap {F : Type} (fill : F -> Z -> Z -> Z -> Z -> Z * F)
    (tii : Z) (fieinfo : F) (offset : Z) : FS (Z * F) :=
  zi ← tii_zi tii;
  mode ← get_inode zi i_mode;
  if negb (S_ISTYPE S_IFREG mode) then mret (- ENOTSUP, fieinfo) else
  toyfs_sbi_lock;;
  iblkrefs ← toyfs_iblkrefs_list_of tii;
  iblkref ← _fetch_iblkref_from tii offset;
  r ← match iblkref with
      | None => mret (0, fieinfo)
      | Some i => _fiemap_loop fill (S (length iblkrefs)) fieinfo (list_from i iblkrefs) 0 0
      end;
  toyfs_sbi_unlock;;
  mret r.
End file.
