(* ===== verification/FileInv.v ===== *)
(** * The block store behind regular files: invariant and the low-level operations

    [A] is the set of iblkrefs attached to files, [L] a reference to a dblkref held
    in a local variable, [X] the live pages that are not data blocks (directories,
    extended attributes, symlinks).  The reference count of every live dblkref is
    at least the number of attached iblkrefs that point to it. *)

From S2P Require Import Prelude State Pool File.

Section view.
Context `{MdApi}.

(** ** Views *)
Definition ib_off (s : toyfs_sb_info) (i : Z) : Z := default (-1) (off <$> h_iblkref s !! i).
Definition ib_d (s : toyfs_sb_info) (i : Z) : option Z := h_iblkref s !! i ≫= dblkref.
Definition d_page (s : toyfs_sb_info) (d : Z) : option Z :=
  (fun r => toyfs_bn2pmemb (bn r)) <$> h_dblkref s !! d.
Definition page_dat (s : toyfs_sb_info) (p : Z) : option (list Z) :=
  match h_page s !! p with Some (Pmemb dat) => Some dat | _ => None end.
(** The bytes of the block an iblkref stands for. *)
Definition ib_dat (s : toyfs_sb_info) (i : Z) : option (list Z) :=
  d ← ib_d s i; p ← d_page s d; page_dat s p.

Definition cnt (s : toyfs_sb_info) (A : gset Z) (d : Z) : Z :=
  Z.of_nat (size (filter (fun i => ib_d s i = Some d) A)).
Definition rsv (L : option Z) (d : Z) : Z := if decide (L = Some d) then 1 else 0.

Definition dblkref_ok (s : toyfs_sb_info) (P A : gset Z) (L : option Z) (d : Z) : Prop :=
  exists r, h_dblkref s !! d = Some r /\ 0 < bn r /\ toyfs_bn2pmemb (bn r) ∈ P /\
            1 <= refcnt r < 2 ^ 64 /\ cnt s A d + rsv L d <= refcnt r.
Definition store_inv (s : toyfs_sb_info) (P D A : gset Z) (L : option Z) : Prop :=
  (forall d, d ∈ D -> dblkref_ok s P A L d) /\
  (forall d d' p, d ∈ D -> d' ∈ D -> d_page s d = Some p -> d_page s d' = Some p -> d = d') /\
  (forall i, i ∈ A -> exists d, ib_d s i = Some d /\ d ∈ D) /\
  (forall d, L = Some d -> d ∈ D).
Definition st_inv (s : toyfs_sb_info) (I N A X : gset Z) (L : option Z) : Prop :=
  exists P D, pool_inv s P D I N /\ store_inv s P D A L /\ A ⊆ I /\ X ⊆ P /\
              (forall d, d ∈ D -> forall p, d_page s d = Some p -> p ∉ X).

(** What a step on the store leaves alone: everything but the pools and counters;
    the attached iblkrefs in [A] with their bytes; and the foreign pages. *)
Definition store_step (s s' : toyfs_sb_info) (A X : gset Z) : Prop :=
  rest s' = rest s /\ h_inode s' = h_inode s /\
  (forall i, i ∈ A -> h_iblkref s' !! i = h_iblkref s !! i /\ ib_dat s' i = ib_dat s i) /\
  (forall p, p ∈ X -> h_page s' !! p = h_page s !! p).
End view.

(** ** Record accesses *)
Lemma wp_iblkref_off s i r (Q : Z -> toyfs_sb_info -> Prop) :
  h_iblkref s !! i = Some r -> Q (off r) s -> wp (iblkref_off i) s Q.
Proof. intros Hr HQ. rewrite /iblkref_off. wp_step. wp_step; [exact Hr|]. by wp_step. Qed.
Lemma wp_iblkref_dblkref s i d o (Q : Z -> toyfs_sb_info -> Prop) :
  h_iblkref s !! i = Some (ToyfsIblkref (Some d) o) -> Q d s -> wp (iblkref_dblkref i) s Q.
Proof. intros Hr HQ. rewrite /iblkref_dblkref. wp_step. by wp_step; [exact Hr|]. Qed.
Lemma wp_dblkref_bn s d r (Q : Z -> toyfs_sb_info -> Prop) :
  h_dblkref s !! d = Some r -> Q (bn r) s -> wp (dblkref_bn d) s Q.
Proof. intros Hr HQ. rewrite /dblkref_bn. wp_step. wp_step; [exact Hr|]. by wp_step. Qed.
Lemma wp_dblkref_refcnt s d r (Q : Z -> toyfs_sb_info -> Prop) :
  h_dblkref s !! d = Some r -> Q (refcnt r) s -> wp (dblkref_refcnt d) s Q.
Proof. intros Hr HQ. rewrite /dblkref_refcnt. wp_step. wp_step; [exact Hr|]. by wp_step. Qed.
Lemma wp_update_dblkref s d f r (Q : unit -> toyfs_sb_info -> Prop) :
  h_dblkref s !! d = Some r -> Q tt (upd_h_dblkref (<[d := f r]>) s) ->
  wp (update h_dblkref upd_h_dblkref d f) s Q.
Proof. intros Hr HQ. by eapply wp_update. Qed.

Section store.
Context `{MdLaws}.
Implicit Types (P D I N A X : gset Z) (L : option Z).

Lemma store_step_refl s A X : store_step s s A X.
Proof. by split_and!. Qed.
Lemma store_step_trans s1 s2 s3 A X :
  store_step s1 s2 A X -> store_step s2 s3 A X -> store_step s1 s3 A X.
Proof.
  intros (R1&N1&I1&P1) (R2&N2&I2&P2). split_and!.
  - by rewrite R2.
  - by rewrite N2.
  - intros i Hi. destruct (I1 i Hi), (I2 i Hi). split; congruence.
  - intros p Hp. by rewrite P2 ?P1.
Qed.
Lemma store_step_sub s s' A A' X : A' ⊆ A -> store_step s s' A X -> store_step s s' A' X.
Proof. intros HA (R&N&Hi&Hp). split_and!; [done..| |done]. intros i ?. apply Hi. set_solver. Qed.

Lemma rsv_None d : rsv None d = 0.
Proof. done. Qed.
Lemma rsv_self d : rsv (Some d) d = 1.
Proof. rewrite /rsv. by case_decide. Qed.
Lemma rsv_ne d e : d <> e -> rsv (Some d) e = 0.
Proof. rewrite /rsv. case_decide; congruence. Qed.

Lemma cnt_same s s' A d :
  (forall i, i ∈ A -> ib_d s' i = ib_d s i) -> cnt s' A d = cnt s A d.
Proof.
  intros Hi. rewrite /cnt. do 2 f_equal. apply leibniz_equiv. intros i.
  rewrite !elem_of_filter. split; intros [Hd HA]; (split; [|done]); by rewrite ?Hi // -?Hi.
Qed.
Lemma cnt_add s A i d : i ∉ A -> cnt s ({[i]} ∪ A) d = (if decide (ib_d s i = Some d) then 1 else 0) + cnt s A d.
Proof.
  intros Hi. rewrite /cnt filter_union_L filter_singleton_L. case_decide as Hd.
  - rewrite size_union ?size_singleton; [|lia].
    apply disjoint_singleton_l. rewrite elem_of_filter. tauto.
  - rewrite union_empty_l_L. lia.
Qed.
Lemma cnt_nonneg s A d : 0 <= cnt s A d.
Proof. rewrite /cnt. lia. Qed.
Lemma cnt_remove s A i d :
  i ∈ A -> cnt s A d = (if decide (ib_d s i = Some d) then 1 else 0) + cnt s (A ∖ {[i]}) d.
Proof.
  intros Hi. rewrite -cnt_add; [set_solver|]. f_equal. apply union_difference_singleton_L. done.
Qed.

(** The invariant only reads the dblkrefs of [D] and the targets of [A]. *)
Lemma store_inv_same s s' P P' D A L :
  (forall d, d ∈ D -> h_dblkref s' !! d = h_dblkref s !! d) ->
  (forall i, i ∈ A -> ib_d s' i = ib_d s i) -> P ⊆ P' ->
  store_inv s P D A L -> store_inv s' P' D A L.
Proof.
  intros Hd Hi HP (H1&H2&H3&H4). split_and!; [| | |done].
  - intros d HD. destruct (H1 d HD) as (r&?&?&?&?&?). exists r.
    rewrite Hd // (cnt_same s s') //. split_and!; try done; try lia. set_solver.
  - intros d d' p HD HD'. rewrite /d_page !Hd //. by apply H2.
  - intros i HA. rewrite Hi //. by apply H3.
Qed.
Lemma ib_dat_same s s' P D A L i :
  store_inv s P D A L -> i ∈ A ->
  h_iblkref s' !! i = h_iblkref s !! i ->
  (forall d, d ∈ D -> d_page s' d = d_page s d) -> same_pages P s s' -> ib_dat s' i = ib_dat s i.
Proof.
  intros (H1&_&H3&_) Hi He Hd Hp. destruct (H3 i Hi) as (d&Hid&HD).
  rewrite /ib_dat. assert (ib_d s' i = ib_d s i) as -> by (by rewrite /ib_d He).
  rewrite Hid /= Hd //. destruct (H1 d HD) as (r&Hr&_&HrP&_). rewrite /d_page Hr /=.
  by rewrite /page_dat Hp.
Qed.
Lemma store_inv_page s P D A L d r :
  store_inv s P D A L -> d ∈ D -> h_dblkref s !! d = Some r -> toyfs_bn2pmemb (bn r) ∈ P.
Proof. intros (H1&_) HD Hr. destruct (H1 d HD) as (r'&Hr'&_&?&_). congruence. Qed.

(** A pool operation that keeps the records and the live pages. *)
Lemma pool_store_step s s' P D A L X :
  store_inv s P D A L -> X ⊆ P -> rest s' = rest s -> recs s' = recs s -> same_pages P s s' ->
  store_step s s' A X /\ store_inv s' P D A L.
Proof.
  intros Hst HX Hr He Hp. injection He as E1 E2 E3. split.
  - split_and!; [done..| |].
    + intros i Hi. rewrite E2. split; [done|].
      eapply ib_dat_same; [exact Hst|done|by rewrite E2|by rewrite /d_page E1|done].
    + intros p Hx. apply Hp. set_solver.
  - eapply store_inv_same; [| | |exact Hst]; [by rewrite E1|by rewrite /ib_d E2|done].
Qed.

(** ** Allocating and freeing a data block *)
Lemma page_addr_bn p :
  page_addr p -> 0 < toyfs_addr2bn p /\ toyfs_bn2pmemb (toyfs_addr2bn p) = p.
Proof.
  intros (n&Hn&->). rewrite bn2pmemb_addr2bn; [lia|].
  rewrite /toyfs_addr2bn md_bn_roundtrip; [lia|]. split; [lia|done].
Qed.

Lemma cnt_new s P D A L q :
  store_inv s P D A L -> q ∉ D -> cnt s A q = 0.
Proof.
  intros (_&_&H3&_) Hq. rewrite /cnt.
  assert (filter (fun i => ib_d s i = Some q) A = ∅) as ->; [|by rewrite size_empty].
  apply elem_of_equiv_empty_L. intros i [Hi HA]%elem_of_filter. destruct (H3 i HA) as (d&Hd&HD). congruence.
Qed.

(** Adding a dblkref [q] that holds one reference to a page [p] new to the store. *)
Lemma store_inv_new s P D A q p b :
  store_inv s P D A None -> q ∉ D -> p ∉ P -> 0 < b -> toyfs_bn2pmemb b = p ->
  h_dblkref s !! q = Some (ToyfsDblkref 1 b) ->
  store_inv s ({[p]} ∪ P) ({[q]} ∪ D) A (Some q).
Proof.
  intros Hst HqD HpP Hb Hbp Hq. pose proof Hst as (H1&H2&H3&_).
  assert (Hqp : d_page s q = Some p) by (by rewrite /d_page Hq /= Hbp).
  assert (Hnew : forall e, e ∈ D -> d_page s e <> Some p).
  { intros e He. destruct (H1 e He) as (r&Hr&_&HrP&_). rewrite /d_page Hr /=.
    intros [= Hrp]. by rewrite Hrp in HrP. }
  split_and!.
  - intros d [->%elem_of_singleton|Hd]%elem_of_union.
    + exists (ToyfsDblkref 1 b). rewrite Hq /= Hbp (cnt_new s _ _ _ _ _ Hst HqD) /rsv.
      case_decide; [|done]. split_and!; [done|lia|set_solver|lia..].
    + destruct (H1 d Hd) as (r&?&?&?&?&Hc). exists r. split_and!; [done..|set_solver|lia|lia|].
      rewrite /rsv in Hc |- *. repeat case_decide; simplify_eq; lia.
  - intros d d' x [->%elem_of_singleton|Hd]%elem_of_union [->%elem_of_singleton|Hd']%elem_of_union;
      [done| | |by apply H2]; rewrite Hqp; intros Hx Hx'; simplify_eq; by edestruct Hnew.
  - intros i Hi. destruct (H3 i Hi) as (d&?&?). exists d. set_solver.
  - intros d [= <-]. set_solver.
Qed.

(** A new data block: one reference, held in [L]; a page of zeros nobody shares. *)
Lemma wp_new_dblkref s I N A X Q :
  st_inv s I N A X None ->
  (forall s', store_step s s' A X -> h_iblkref s' = h_iblkref s -> free_le s' 1 ->
     st_inv s' I N A X None -> Q None s') ->
  (forall q r s', store_step s s' A X -> h_iblkref s' = h_iblkref s ->
     (forall i, i ∈ A -> ib_d s' i <> Some q) ->
     h_dblkref s' = <[q := r]> (h_dblkref s) -> refcnt r = 1 ->
     h_page s' !! toyfs_bn2pmemb (bn r) = Some (Pmemb (zeros 4096)) ->
     st_inv s' I N A X (Some q) -> Q (Some q) s') ->
  wp _new_dblkref s Q.
Proof.
  intros (P&D&Hpool&Hst&HA&HX&HDX) HN HS. rewrite /_new_dblkref. wp_step.
  apply (wp_acquire_pmemb s P D I N); [done| |].
  { intros s1 Hr1 He1 Hp1 _ _ Hpg1 Hpool1. wp_step.
    assert (same_pages P s s1) as Hsp by (intros p _; by rewrite Hp1).
    destruct (pool_store_step s s1 P D A None X) as [Hstep Hst1]; [done..|].
    injection He1 as E1 E2 E3.
    apply HN; [done|done|by apply free_le_0|]. exists P, D. split_and!; try done. by rewrite /d_page E1. }
  intros p s1 HpP Hpa _ Hr1 He1 Hp1 _ Hpool1.
  assert (Hsp1 : same_pages P s s1).
  { intros q Hq. rewrite Hp1 lookup_insert_ne; [by intros ->|done]. }
  destruct (pool_store_step s s1 P D A None X) as [Hstep1 Hst1]; [done..|].
  wp_step. apply (wp_acquire_dblkref s1 ({[p]} ∪ P) D I N); [done| |].
  { intros s2 Hr2 He2 _ Hsp2 Hpg2 Hpool2. wp_step.
    apply (wp_release_pmemb s2 ({[p]} ∪ P) D I N); [done|set_solver +|].
    intros s3 Hr3 He3 _ (n&Hp3) Hfree _ Hpool3. wp_step.
    assert (Hr : rest s3 = rest s) by congruence. assert (He : recs s3 = recs s) by congruence.
    assert (Hsp : same_pages P s s3).
    { intros q Hq. assert (q <> p) by (by intros ->).
      rewrite Hp3 lookup_insert_ne // Hsp2; [set_solver + Hq|]. by apply Hsp1. }
    destruct (pool_store_step s s3 P D A None X) as [Hstep Hst3]; [done..|].
    replace (({[p]} ∪ P) ∖ {[p]}) with P in Hpool3 by (set_solver + HpP).
    injection He as E1 E2 E3. apply HN; [done|done|by apply Hfree, free_le_0|].
    exists P, D. split_and!; try done. by rewrite /d_page E1. }
  intros q s2 HqD Hr2 He2 _ Hsp2 Hpool2. injection He2 as E1 E2 E3.
  injection He1 as F1 F2 F3. rewrite F1 in E1. rewrite F2 in E2.
  destruct (page_addr_bn p Hpa) as [Hbn Hbnp].
  wp_step. eapply wp_update_dblkref; [by rewrite E1 lookup_insert_eq|].
  wp_step. rewrite /set_refcnt. eapply wp_update_dblkref; [by fs_simpl; rewrite lookup_insert_eq|].
  wp_step. set (s3 := upd_h_dblkref _ _).
  assert (E3' : h_dblkref s3 = <[q := ToyfsDblkref 1 (toyfs_addr2bn p)]> (h_dblkref s)).
  { subst s3. fs_simpl. by rewrite E1 !insert_insert_eq. }
  assert (Hi3 : h_iblkref s3 = h_iblkref s) by (subst s3; by fs_simpl).
  assert (Hsp : same_pages P s s3).
  { intros x Hx. subst s3. fs_simpl. rewrite Hsp2; [set_solver + Hx|]. by apply Hsp1. }
  assert (Hds : forall d, d ∈ D -> h_dblkref s3 !! d = h_dblkref s !! d).
  { intros d Hd. rewrite E3' lookup_insert_ne //. by intros ->. }
  apply (HS q (ToyfsDblkref 1 (toyfs_addr2bn p))).
  - split_and!; [by subst s3; rewrite /rest; fs_simpl; rewrite -/(rest s2) Hr2 Hr1
      |subst s3; fs_simpl; congruence| |].
    + intros i Hi. rewrite Hi3. split; [done|].
      eapply ib_dat_same; [exact Hst|done|by rewrite Hi3|by intros d Hd; rewrite /d_page Hds|done].
    + intros x Hx. apply Hsp. set_solver + Hx HX.
  - done.
  - intros i Hi. rewrite /ib_d Hi3. destruct Hst as (_&_&H3&_).
    destruct (H3 i Hi) as (d&Hd&HD). rewrite /ib_d in Hd. rewrite Hd. intros [= ->]. done.
  - done.
  - done.
  - cbn [bn]. rewrite Hbnp. subst s3. fs_simpl. rewrite Hsp2; [set_solver +|].
    by rewrite Hp1 lookup_insert_eq.
  - exists ({[p]} ∪ P), ({[q]} ∪ D). split_and!; [|eapply (store_inv_new s3); try done|done|set_solver + HX|].
    + eapply pool_inv_view; [|exact Hpool2]. done.
    + by eapply (store_inv_same s s3 P P); [exact Hds|by rewrite /ib_d Hi3|done|exact Hst].
    + by rewrite E3' lookup_insert_eq.
    + intros d [->%elem_of_singleton|Hd]%elem_of_union x Hx HxX.
      * rewrite /d_page E3' lookup_insert_eq /= Hbnp in Hx. injection Hx as <-. by apply HpP, HX.
      * rewrite /d_page Hds // in Hx. by eapply HDX.
Qed.

(** *** Dropping a reference *)
Lemma cnt_zero s A d : cnt s A d = 0 -> forall i, i ∈ A -> ib_d s i <> Some d.
Proof.
  rewrite /cnt. intros Hc i Hi Hd. assert (size (filter (fun i => ib_d s i = Some d) A) <> 0)%nat; [|lia].
  rewrite size_non_empty_iff. intros He%leibniz_equiv.
  assert (i ∈ filter (fun i => ib_d s i = Some d) A) by (by apply elem_of_filter).
  rewrite He in H1. set_solver + H1.
Qed.

(** The held reference of [d] is given up while others remain ... *)
Lemma store_inv_decr s P D A d r :
  store_inv s P D A (Some d) -> h_dblkref s !! d = Some r -> 1 < refcnt r ->
  store_inv (upd_h_dblkref (<[d := upd_refcnt (fun n => u64 (Z.pred n)) r]>) s) P D A None.
Proof.
  intros (H1&H2&H3&H4) Hr Hn.
  assert (Hdp : forall e, d_page (upd_h_dblkref (<[d := upd_refcnt (fun n => u64 (Z.pred n)) r]>) s) e = d_page s e).
  { intros e. rewrite /d_page; fs_simpl. rewrite lookup_insert. case_decide; [subst; by rewrite Hr|done]. }
  split_and!; [| | |done].
  - intros e He. destruct (H1 e He) as (r'&Hr'&Hb&HP&Href&Hc).
    rewrite /dblkref_ok (cnt_same s) //; fs_simpl. rewrite lookup_insert.
    rewrite rsv_None. case_decide as Hde.
    + subst e. rewrite Hr in Hr'. injection Hr' as <-. rewrite rsv_self in Hc.
      eexists. split; [done|]. fs_simpl. rewrite u64_small; [lia|]. split_and!; try done; lia.
    + exists r'. by rewrite rsv_ne in Hc.
  - intros e e' p. rewrite !Hdp. apply H2.
  - done.
Qed.
(** ... or with the last one the dblkref and its page leave the store. *)
Lemma store_inv_drop s s' P D A d r :
  store_inv s P D A (Some d) -> h_dblkref s !! d = Some r -> refcnt r = 1 ->
  (forall e, e ∈ D ∖ {[d]} -> h_dblkref s' !! e = h_dblkref s !! e) ->
  h_iblkref s' = h_iblkref s ->
  store_inv s' (P ∖ {[toyfs_bn2pmemb (bn r)]}) (D ∖ {[d]}) A None /\
  (forall i, i ∈ A -> ib_d s i <> Some d).
Proof.
  intros (H1&H2&H3&H4) Hr Hn He Hi. specialize (H4 d eq_refl).
  assert (Hc0 : forall i, i ∈ A -> ib_d s i <> Some d).
  { apply cnt_zero. destruct (H1 d H4) as (r'&Hr'&_&_&_&Hc). rewrite Hr in Hr'. injection Hr' as <-.
    rewrite rsv_self in Hc. pose proof (cnt_nonneg s A d). lia. }
  split; [|exact Hc0]. split_and!; [| | |done].
  - intros e Hed. assert (HeD : e ∈ D) by set_solver + Hed.
    destruct (H1 e HeD) as (r'&Hr'&Hb&HP&Href&Hc). exists r'. rewrite He // (cnt_same s s').
    { intros i _. by rewrite /ib_d Hi. }
    rewrite rsv_None. rewrite rsv_ne in Hc; [set_solver + Hed|].
    split_and!; try done; try lia. apply elem_of_difference. split; [done|].
    intros Hp%elem_of_singleton. assert (e = d) as ->; [|set_solver + Hed].
    apply (H2 e d (toyfs_bn2pmemb (bn r'))); [done..| |]; rewrite /d_page ?Hr' ?Hr //= Hp //.
  - intros e e' p Hed Hed'. rewrite /d_page !He //. apply H2; [set_solver + Hed|set_solver + Hed'].
  - intros i HA. destruct (H3 i HA) as (e&Hie&HeD). exists e. rewrite /ib_d Hi. split; [done|].
    apply elem_of_difference. split; [done|]. intros ->%elem_of_singleton. by eapply Hc0.
Qed.

(** The free itself, from [s0], where the count of [d] already reads 0. *)
Lemma wp_free_dblkref s s0 P D I N A X d r Q :
  store_inv s P D A (Some d) -> A ⊆ I -> X ⊆ P ->
  (forall d, d ∈ D -> forall p, d_page s d = Some p -> p ∉ X) ->
  h_dblkref s !! d = Some r -> refcnt r = 1 ->
  pool_inv s0 P D I N -> rest s0 = rest s -> h_page s0 = h_page s ->
  recs s0 = (<[d := ToyfsDblkref 0 (bn r)]> (h_dblkref s), h_iblkref s, h_inode s) ->
  (forall s', store_step s s' A X -> h_iblkref s' = h_iblkref s ->
     (forall n, free_le s0 n -> free_le s' (S n)) -> st_inv s' I N A X None -> Q tt s') ->
  wp (_free_dblkref d) s0 Q.
Proof.
  intros Hst HA HX HDX Hr Hn Hpool Hr0 Hp0 He0 HQ. pose proof Hst as (H1&H2&H3&H4). specialize (H4 d eq_refl).
  destruct (H1 d H4) as (r'&Hr'&_&HP&_). rewrite Hr in Hr'. injection Hr' as <-.
  injection He0 as G1 G2 G3. assert (Hd0 : h_dblkref s0 !! d = Some (ToyfsDblkref 0 (bn r)))
    by (by rewrite G1 lookup_insert_eq).
  rewrite /_free_dblkref. wp_step. rewrite /dblkref_bn. wp_step. wp_step; [exact Hd0|]. wp_step. wp_step.
  eapply (wp_release_dblkref s0 P D I N d); [done..|].
  intros s1 Hr1 He1 _ Hp1 Hpg1 Hpool1. injection He1 as E1 E2 E3.
  eapply (wp_release_pmemb s1 P (D ∖ {[d]}) I N); [done..|].
  intros s2 Hr2 He2 _ (n&Hp2) Hfree _ Hpool2. injection He2 as F1 F2 F3. cbn [bn] in *.
  rewrite E1 G1 !insert_insert_eq in F1. rewrite E2 G2 in F2. rewrite Hp1 Hp0 in Hp2.
  destruct (store_inv_drop s s2 P D A d r) as [Hst2 Hc0]; [done..| |congruence|].
  { intros e He. rewrite F1 lookup_insert_ne //. set_solver + He. }
  assert (HpX : forall x, x ∈ X -> x <> toyfs_bn2pmemb (bn r)).
  { intros x Hx ->. eapply HDX; [exact H4| |exact Hx]. by rewrite /d_page Hr. }
  apply HQ; [split_and!; [congruence..| |]|congruence| |].
  - intros i Hi. rewrite F2. split; [done|].
    destruct (H3 i Hi) as (e&Hie&HeD). rewrite /ib_dat /ib_d F2 -/(ib_d s i) Hie /=.
    assert (Hed : e <> d) by (intros ->; by eapply Hc0).
    rewrite /d_page F1 lookup_insert_ne //. destruct (H1 e HeD) as (re&Hre&_).
    rewrite Hre /= /page_dat Hp2 lookup_insert_ne //.
    intros Hp. apply Hed. apply (H2 e d (toyfs_bn2pmemb (bn re))); [done..| |]; rewrite /d_page ?Hre ?Hr //= -Hp //.
  - intros x Hx. rewrite Hp2 lookup_insert_ne //. intros Hp. by eapply HpX.
  - intros k (fl&Hfl&Hk). apply Hfree. exists fl. by rewrite Hp1 Hpg1.
  - exists (P ∖ {[toyfs_bn2pmemb (bn r)]}), (D ∖ {[d]}). split_and!; [done..| |].
    + intros x Hx. apply elem_of_difference. split; [by apply HX|].
      intros ->%elem_of_singleton. by eapply HpX.
    + intros e He p. rewrite /d_page F1 lookup_insert_ne; [set_solver + He|]. apply HDX. set_solver + He.
Qed.

Lemma wp_decref_dblkref s I N A X d Q :
  st_inv s I N A X (Some d) ->
  (forall s', store_step s s' A X -> h_iblkref s' = h_iblkref s ->
     (forall n, free_le s n -> free_le s' (S n)) -> st_inv s' I N A X None -> Q tt s') ->
  wp (_decref_dblkref d) s Q.
Proof.
  intros (P&D&Hpool&Hst&HA&HX&HDX) HQ. pose proof Hst as (H1&_&H3&H4). specialize (H4 d eq_refl).
  destruct (H1 d H4) as (r&Hr&Hb&HP&Href&Hc).
  assert (0 <= s_mutex s) by apply Hpool.
  rewrite /_decref_dblkref. wp_step. apply wp_sbi_lock.
  rewrite /dblkref_refcnt. wp_step. wp_step. wp_step; [fs_simpl; exact Hr|]. wp_step.
  wp_step. wp_step; [apply Z.ltb_lt; lia|]. wp_step. eapply wp_update_dblkref; [exact Hr|].
  wp_step. wp_step. wp_step; [fs_simpl; by rewrite lookup_insert_eq|]. wp_step. fs_simpl.
  wp_step. apply wp_sbi_unlock; [fs_simpl; lia|].
  rewrite u64_small; [lia|]. destruct (Z.eqb_spec (Z.pred (refcnt r)) 0) as [Hz|Hz].
  - eapply (wp_free_dblkref s _ P D I N A X d r); try done; cycle 1.
    + eapply pool_inv_view; [|exact Hpool]. fs_solve.
    + fs_solve.
    + rewrite /recs /upd_refcnt /upd_bn; fs_simpl. rewrite u64_small; [lia|]. by rewrite Hz.
    + lia.
  - wp_step. assert (Hst' := store_inv_decr s P D A d r Hst Hr ltac:(lia)).
    apply HQ; [|done| |].
    + split_and!; [fs_solve|done| |done]. intros i Hi. split; [done|].
      eapply ib_dat_same; [exact Hst|done|done| |done].
      intros e He. rewrite /d_page; fs_simpl. rewrite lookup_insert. case_decide; [subst; by rewrite Hr|done].
    + intros n (fl&Hfl&Hk). exists fl. split; [exact Hfl|lia].
    + exists P, D. split_and!; try done.
      * eapply pool_inv_view; [|exact Hpool]. fs_solve.
      * intros e He p. rewrite /d_page; fs_simpl. rewrite lookup_insert.
        case_decide; [subst e|by apply HDX]. intros Hp. eapply HDX; [exact He|]. by rewrite /d_page Hr.
Qed.

(** *** Attaching and detaching an iblkref *)
Lemma store_inv_attach s s' P D A q x :
  store_inv s P D A (Some q) -> x ∉ A -> ib_d s' x = Some q ->
  (forall i, i ∈ A -> ib_d s' i = ib_d s i) -> h_dblkref s' = h_dblkref s ->
  store_inv s' P D ({[x]} ∪ A) None.
Proof.
  intros (H1&H2&H3&H4) Hx Hq Hi Hd. split_and!; [| | |done].
  - intros d HD. destruct (H1 d HD) as (r&Hr&Hb&HP&Href&Hc). exists r.
    rewrite Hd cnt_add // (cnt_same s s') // Hq rsv_None. split_and!; try done; try lia.
    case_decide as E; [injection E as <-; rewrite rsv_self in Hc; lia|].
    rewrite rsv_ne in Hc; [congruence|lia].
  - intros d d' p. rewrite /d_page Hd. apply H2.
  - intros i [->%elem_of_singleton|HA]%elem_of_union; [exists q; auto|]. rewrite Hi //. by apply H3.
Qed.
Lemma store_inv_detach s P D A i d :
  store_inv s P D A None -> i ∈ A -> ib_d s i = Some d -> store_inv s P D (A ∖ {[i]}) (Some d).
Proof.
  intros (H1&H2&H3&H4) Hi Hd. split_and!; [|done| |].
  - intros e HD. destruct (H1 e HD) as (r&Hr&Hb&HP&Href&Hc). exists r.
    rewrite (cnt_remove s A i e Hi) Hd rsv_None in Hc. split_and!; try done; try lia.
    case_decide as E; [injection E as <-; rewrite rsv_self; lia|]. rewrite rsv_ne; [congruence|lia].
  - intros j Hj. apply H3. set_solver + Hj.
  - intros e [= <-]. destruct (H3 i Hi) as (e&He&HD). congruence.
Qed.

(** The bytes of an attached iblkref, computed. *)
Lemma ib_dat_eq s i d r p dat :
  ib_d s i = Some d -> h_dblkref s !! d = Some r -> toyfs_bn2pmemb (bn r) = p ->
  h_page s !! p = Some (Pmemb dat) -> ib_dat s i = Some dat.
Proof. intros Hd Hr Hp Hdat. by rewrite /ib_dat Hd /= /d_page Hr /= Hp /page_dat Hdat. Qed.

(** What a step does when it also adds to the inode [ti]. *)
Definition store_step_at (s s' : toyfs_sb_info) (A X : gset Z) (ti : Z) (ino : toyfs_inode) : Prop :=
  rest s' = rest s /\ h_inode s' = <[ti := ino]> (h_inode s) /\
  (forall i, i ∈ A -> h_iblkref s' !! i = h_iblkref s !! i /\ ib_dat s' i = ib_dat s i) /\
  (forall p, p ∈ X -> h_page s' !! p = h_page s !! p).

Lemma rest_tii s s' : rest s' = rest s -> h_tii s' = h_tii s.
Proof. intros E. by injection E. Qed.

Lemma wp_new_iblkref s I N A X tii t ti i o Q :
  st_inv s I N A X None -> h_tii s !! tii = Some t -> zi t = Some ti -> h_inode s !! ti = Some i ->
  (forall s', store_step s s' A X -> free_le s' 1 -> st_inv s' I N A X None -> Q None s') ->
  (forall x q r s', x ∉ A -> store_step_at s s' A X ti (upd_i_blocks (fun n => u64 (n + 1)) i) ->
     h_iblkref s' !! x = Some (ToyfsIblkref (Some q) o) -> ib_dat s' x = Some (zeros 4096) ->
     h_dblkref s' !! q = Some r -> refcnt r = 1 ->
     st_inv s' ({[x]} ∪ I) N ({[x]} ∪ A) X None -> Q (Some x) s') ->
  wp (_new_iblkref tii o) s Q.
Proof.
  intros Hinv Ht Hzi Hi HN HS. rewrite /_new_iblkref. wp_step. eapply wp_tii_zi; [done..|]. wp_step. apply (wp_new_dblkref s I N A X); [done| |].
  { intros s1 Hs1 _ Hfree1 Hinv1. wp_step. by apply HN. }
  intros q r s1 Hs1 Hib1 Hq Hdq Hn Hpg (P&D&Hpool&Hst&HA&HX&HDX). wp_step.
  assert (Hr : h_dblkref s1 !! q = Some r) by (by rewrite Hdq lookup_insert_eq).
  apply (wp_acquire_iblkref s1 P D I N); [done| |].
  { intros s2 Hr2 He2 _ Hsp2 Hpg2 Hpool2. wp_step.
    destruct (pool_store_step s1 s2 P D A (Some q) X) as [Hs2 Hst2]; [done..|].
    injection He2 as E1 E2 E3.
    apply (wp_decref_dblkref s2 I N A X); [exists P, D; split_and!; try done; by rewrite /d_page E1|].
    intros s3 Hs3 _ Hfree3 Hinv3. wp_step. apply HN; [|by apply Hfree3, free_le_0|done].
    by do 2 (eapply store_step_trans; [eassumption|]). }
  intros x s2 HxI Hr2 He2 _ Hsp2 Hpool2. injection He2 as E1 E2 E3.
  assert (HxA : x ∉ A) by (set_solver + HxI HA).
  rewrite /set_iblkref_dblkref /set_iblkref_off /set_inode.
  wp_step. wp_step; [by rewrite E2 lookup_insert_eq|].
  wp_step. wp_step; [by fs_simpl; rewrite lookup_insert_eq|]. wp_step.
  wp_step; [fs_simpl; rewrite E3; destruct Hs1 as (_&->&_); exact Hi|]. wp_step.
  set (s3 := upd_h_inode _ _).
  assert (G2 : h_iblkref s3 = <[x := ToyfsIblkref (Some q) o]> (h_iblkref s1)).
  { subst s3. fs_simpl. rewrite E2 !insert_insert_eq. done. }
  assert (G1 : h_dblkref s3 = h_dblkref s1) by (by subst s3).
  assert (Hsp3 : same_pages P s1 s3) by (by subst s3).
  assert (Hib3 : forall j, j ∈ A -> h_iblkref s3 !! j = h_iblkref s1 !! j).
  { intros j Hj. rewrite G2 lookup_insert_ne //. by intros ->. }
  assert (Hx3 : ib_d s3 x = Some q) by (by rewrite /ib_d G2 lookup_insert_eq).
  assert (HqP : toyfs_bn2pmemb (bn r) ∈ P).
  { eapply store_inv_page; [exact Hst|by apply Hst|exact Hr]. }
  destruct Hs1 as (R1&N1&I1&X1).
  apply (HS x q r); [done| |by rewrite G2 lookup_insert_eq| |by rewrite G1|done|].
  - split_and!; [by rewrite -R1 -Hr2|by subst s3; fs_simpl; rewrite E3 N1| |].
    + intros j Hj. destruct (I1 j Hj) as [F1 F2]. rewrite Hib3 //. split; [done|]. rewrite -F2.
      eapply ib_dat_same; [exact Hst|done|by apply Hib3|by rewrite /d_page G1|done].
    + intros p Hp. rewrite -X1 //. apply Hsp3. set_solver + Hp HX.
  - eapply (ib_dat_eq _ _ q r); [done|by rewrite G1|done|]. by rewrite Hsp3.
  - exists P, D. split_and!; [| |set_solver + HA|done|].
    + eapply pool_inv_view; [|exact Hpool2]. done.
    + eapply (store_inv_attach s1); [exact Hst|done|done| |done].
      intros j Hj. by rewrite /ib_d Hib3.
    + intros d Hd p. rewrite /d_page G1. by apply HDX.
Qed.

Lemma wp_free_iblkref s I N A X tii t ti i x Q :
  st_inv s I N A X None -> h_tii s !! tii = Some t -> zi t = Some ti -> h_inode s !! ti = Some i ->
  i_blocks i <> 0 -> x ∈ A ->
  (forall s', store_step_at s s' (A ∖ {[x]}) X ti (upd_i_blocks (fun n => u64 (n - 1)) i) ->
     st_inv s' (I ∖ {[x]}) N (A ∖ {[x]}) X None -> Q tt s') ->
  wp (_free_iblkref tii x) s Q.
Proof.
  intros (P&D&Hpool&Hst&HA&HX&HDX) Ht Hzi Hi Hb Hx HQ.
  pose proof Hst as (_&_&H3&_). destruct (H3 x Hx) as (d&Hd&HD).
  assert (exists o, h_iblkref s !! x = Some (ToyfsIblkref (Some d) o)) as (o&Hxo).
  { rewrite /ib_d in Hd. destruct (h_iblkref s !! x) as [[d' o]|]; [|done]. exists o. by simpl in Hd; subst. }
  rewrite /_free_iblkref. wp_step. eapply wp_tii_zi; [done..|]. wp_step.
  eapply wp_get_inode; [exact Hi|]. wp_step.
  wp_step; [by apply negb_true_iff, Z.eqb_neq|]. wp_step.
  eapply wp_iblkref_dblkref; [exact Hxo|]. wp_step.
  apply (wp_decref_dblkref s I N (A ∖ {[x]}) X).
  { exists P, D. split_and!; try done; [by eapply store_inv_detach|set_solver + HA]. }
  intros s1 (R1&N1&I1&X1) Hib1 _ (P1&D1&Hpool1&Hst1&HA1&HX1&HDX1). wp_step.
  assert (Hx1 : h_iblkref s1 !! x = Some (ToyfsIblkref (Some d) o)) by (by rewrite Hib1).
  eapply (wp_release_iblkref s1 P1 D1 I N x _ _ Hpool1); [set_solver + HA Hx|exact Hx1|].
  intros s2 Hr2 He2 _ Hp2 _ Hpool2. injection He2 as E1 E2 E3.
  rewrite /set_inode. wp_step; [by rewrite E3 N1|].
  assert (Hib2 : forall j, j ∈ A ∖ {[x]} -> h_iblkref s2 !! j = h_iblkref s1 !! j).
  { intros j Hj. rewrite E2 lookup_insert_ne //. set_solver + Hj. }
  apply HQ; [split_and!|].
  - by rewrite -R1 -Hr2.
  - fs_simpl. by rewrite E3 N1.
  - intros j Hj. fs_simpl. destruct (I1 j Hj) as [F1 F2]. rewrite Hib2 //. split; [done|]. rewrite -F2.
    eapply (ib_dat_same s1); [exact Hst1|done|by apply Hib2|by rewrite /d_page; fs_simpl; rewrite E1|].
    intros p _. fs_simpl. by rewrite Hp2.
  - intros p Hp. fs_simpl. by rewrite Hp2 X1.
  - exists P1, D1. split_and!; [| |set_solver + HA1|done|].
    + eapply pool_inv_view; [|exact Hpool2]. done.
    + eapply (store_inv_same s1 _ P1 P1); [| |done|exact Hst1].
      * intros e _. fs_simpl. by rewrite E1.
      * intros j Hj. rewrite /ib_d; fs_simpl. by rewrite Hib2.
    + intros e He p. rewrite /d_page; fs_simpl. rewrite E1. by apply HDX1.
Qed.

(** *** Writing a data page *)
Lemma pool_inv_store s P D I N p dat :
  pool_inv s P D I N -> p ∈ P -> length dat = 4096%nat ->
  pool_inv (upd_h_page (<[p := Pmemb dat]>) s) P D I N.
Proof.
  intros (Hlk&fl&C&(Hch&Hnd&Hpa&Hok&Hfl&HPC)&Hct&Hrc) Hp Hl. split; [done|].
  exists fl, C. split_and!; [|done|done]. split_and!; fs_simpl; [|done|done| |done|done].
  - eapply chain_ext; [|exact Hch]. intros x Hx. rewrite lookup_insert_ne //.
    intros <-. by destruct (Hfl _ Hx).
  - intros q Hq. destruct (decide (q = p)) as [->|Hne].
    + exists dat. by rewrite lookup_insert_eq.
    + destruct (Hok q Hq) as (dat'&?&?). exists dat'. by rewrite lookup_insert_ne.
Qed.

(** [q] is reachable: held, or the target of an attached iblkref. *)
Definition reachable (s : toyfs_sb_info) (A : gset Z) (L : option Z) (q : Z) : Prop :=
  L = Some q \/ exists i, i ∈ A /\ ib_d s i = Some q.

Lemma reachable_live s I N A X L q r :
  st_inv s I N A X L -> reachable s A L q -> h_dblkref s !! q = Some r ->
  0 < toyfs_bn2pmemb (bn r) /\
  exists dat, h_page s !! toyfs_bn2pmemb (bn r) = Some (Pmemb dat) /\ length dat = 4096%nat.
Proof.
  intros (P&D&Hpool&Hst&HA&HX&HDX) Hq Hr.
  assert (HqD : q ∈ D).
  { destruct Hst as (_&_&H3&H4). destruct Hq as [->|(i&Hi&Hd)]; [by apply H4|].
    destruct (H3 i Hi) as (d&?&?). congruence. }
  destruct Hst as (H1&_). destruct (H1 q HqD) as (r'&Hr'&Hb&HP&_). rewrite Hr in Hr'. injection Hr' as <-.
  split; [by apply md_baddr_pos|]. destruct Hpool as (_&fl&C&(_&_&_&Hok&_)&_). by apply Hok.
Qed.

Lemma st_inv_store s I N A X L q r dat :
  st_inv s I N A X L -> reachable s A L q -> h_dblkref s !! q = Some r -> length dat = 4096%nat ->
  let s' := upd_h_page (<[toyfs_bn2pmemb (bn r) := Pmemb dat]>) s in
  st_inv s' I N A X L /\
  (forall i, i ∈ A -> ib_d s i <> Some q -> ib_dat s' i = ib_dat s i) /\
  (forall i, ib_d s i = Some q -> ib_dat s' i = Some dat) /\
  (forall p, p ∈ X -> h_page s' !! p = h_page s !! p).
Proof.
  intros (P&D&Hpool&Hst&HA&HX&HDX) Hq Hr Hl s'.
  assert (HqD : q ∈ D).
  { destruct Hst as (_&_&H3&H4). destruct Hq as [->|(i&Hi&Hd)]; [by apply H4|].
    destruct (H3 i Hi) as (d&?&?). congruence. }
  pose proof Hst as (H1&H2&H3&_).
  assert (HP : toyfs_bn2pmemb (bn r) ∈ P) by (by eapply store_inv_page).
  split_and!.
  - exists P, D. split_and!; try done. by apply pool_inv_store.
  - intros i Hi Hne. destruct (H3 i Hi) as (e&He&HeD).
    destruct (H1 e HeD) as (re&Hre&_).
    change (ib_dat s' i) with (d ← ib_d s i; p ← d_page s d; page_dat s' p).
    rewrite /ib_dat He /= /d_page Hre /= /page_dat. subst s'. fs_simpl.
    rewrite lookup_insert_ne //. intros Hp. apply Hne. rewrite He. f_equal.
    apply (H2 e q (toyfs_bn2pmemb (bn re))); [done..| |]; rewrite /d_page ?Hre ?Hr /= ?Hp //.
  - intros i Hi. eapply (ib_dat_eq s' i q r); [done..|]. subst s'. fs_simpl. by rewrite lookup_insert_eq.
  - intros p Hp. subst s'. fs_simpl. rewrite lookup_insert_ne //. intros <-.
    eapply HDX; [exact HqD| |exact Hp]. by rewrite /d_page Hr.
Qed.

Lemma excl_unique s I N A X L q r i :
  st_inv s I N A X L -> h_dblkref s !! q = Some r -> refcnt r <= 1 -> i ∈ A -> ib_d s i = Some q ->
  forall j, j ∈ A -> j <> i -> ib_d s j <> Some q.
Proof.
  intros (P&D&_&(H1&_&H3&_)&_) Hr Hn Hi Hd j Hj Hne Hdj.
  destruct (H3 i Hi) as (d&Hd'&HD). rewrite Hd in Hd'. injection Hd' as <-.
  destruct (H1 q HD) as (r'&Hr'&_&_&_&Hc). rewrite Hr in Hr'. injection Hr' as <-.
  rewrite (cnt_remove s A i q Hi) Hd in Hc.
  rewrite (cnt_remove s (A ∖ {[i]}) j q) in Hc; [set_solver + Hj Hne|]. rewrite Hdj in Hc.
  pose proof (cnt_nonneg s (A ∖ {[i]} ∖ {[j]}) q). rewrite !decide_True // in Hc.
  rewrite /rsv in Hc. case_decide; lia.
Qed.

(** *** Page accesses *)
Lemma wp_load_pmemb s p dat (Q : list Z -> toyfs_sb_info -> Prop) :
  h_page s !! p = Some (Pmemb dat) -> Q dat s -> wp (load_pmemb p) s Q.
Proof. intros Hp HQ. rewrite /load_pmemb. wp_step. wp_step; [exact Hp|]. by wp_step. Qed.
Lemma wp_copy_in s p dat src o len (Q : unit -> toyfs_sb_info -> Prop) :
  h_page s !! p = Some (Pmemb dat) -> 0 < p -> 0 <= o -> 0 <= len -> o + len <= PAGE_SIZE ->
  Q tt (upd_h_page (<[p := Pmemb (splice dat o (take (Z.to_nat len) src))]>) s) ->
  wp (_copy_in p src o len) s Q.
Proof.
  intros Hp Hp0 Ho Hlen Hol HQ. rewrite /_copy_in.
  wp_step. wp_step; [by apply negb_true_iff, Z.eqb_neq; lia|].
  wp_step. wp_step; [by apply Z.leb_le; lia|].
  wp_step. wp_step; [apply Z.leb_le; rewrite (u64_small o) ?u64_small; lia|].
  wp_step. eapply wp_load_pmemb; [exact Hp|]. rewrite /store_pmemb. by wp_step; [exact Hp|].
Qed.
Lemma wp_assign_zeros s p dat o len (Q : unit -> toyfs_sb_info -> Prop) :
  h_page s !! p = Some (Pmemb dat) -> 0 <= o -> 0 <= len -> o + len <= PAGE_SIZE ->
  Q tt (upd_h_page (<[p := Pmemb (splice dat o (_fill_zeros len))]>) s) ->
  wp (_assign_zeros p o len) s Q.
Proof.
  intros Hp Ho Hlen Hol HQ. rewrite /_assign_zeros.
  wp_step. wp_step; [by apply Z.leb_le; lia|].
  wp_step. wp_step; [apply Z.leb_le; rewrite (u64_small o) ?u64_small; lia|].
  wp_step. eapply wp_load_pmemb; [exact Hp|]. rewrite /store_pmemb. by wp_step; [exact Hp|].
Qed.
Lemma splice_all dat src : length src = length dat -> splice dat 0 src = src.
Proof. intros Hl. rewrite /splice /=. rewrite drop_ge ?app_nil_r //. lia. Qed.
Lemma splice_length dat o src :
  0 <= o -> o + Z.of_nat (length src) <= Z.of_nat (length dat) -> length (splice dat o src) = length dat.
Proof. intros Ho Hl. rewrite /splice !length_app length_take length_drop. lia. Qed.
Lemma wp_copy_pmemb s p q dat dat' (Q : unit -> toyfs_sb_info -> Prop) :
  h_page s !! p = Some (Pmemb dat) -> h_page s !! q = Some (Pmemb dat') ->
  length dat = 4096%nat -> length dat' = 4096%nat -> 0 < p ->
  Q tt (upd_h_page (<[p := Pmemb dat']>) s) -> wp (_copy_pmemb p q) s Q.
Proof.
  intros Hp Hq Hl Hl' Hp0 HQ. rewrite /_copy_pmemb. wp_step. eapply wp_load_pmemb; [exact Hq|].
  eapply wp_copy_in; [exact Hp|lia..|]. rewrite take_ge; [lia|]. rewrite splice_all //. lia.
Qed.

(** *** Copy on write *)
Lemma reachable_rec s I N A X L q :
  st_inv s I N A X L -> reachable s A L q ->
  exists r, h_dblkref s !! q = Some r /\ 0 < bn r /\ 1 <= refcnt r < 2 ^ 64.
Proof.
  intros (P&D&_&(H1&_&H3&H4)&_) Hq.
  assert (HqD : q ∈ D).
  { destruct Hq as [->|(i&Hi&Hd)]; [by apply H4|]. destruct (H3 i Hi) as (d&?&?). congruence. }
  destruct (H1 q HqD) as (r&?&?&_&?&_). by exists r.
Qed.

(** Moving the iblkref [i] to the held dblkref [q]; the old target may lose the
    reference (or keep it, as [_require_iblkref] leaves it). *)
Lemma store_inv_repoint s s' P D A i q :
  store_inv s P D A (Some q) -> i ∈ A -> ib_d s' i = Some q -> ib_d s i <> Some q ->
  (forall j, j ∈ A -> j <> i -> ib_d s' j = ib_d s j) ->
  (forall e r, e ∈ D -> h_dblkref s !! e = Some r -> exists r', h_dblkref s' !! e = Some r' /\
     bn r' = bn r /\ 1 <= refcnt r' < 2 ^ 64 /\
     refcnt r - (if decide (ib_d s i = Some e) then 1 else 0) <= refcnt r') ->
  store_inv s' P D A None.
Proof.
  intros (H1&H2&H3&H4) Hi Hq Hne Hj He.
  assert (Hdp : forall e p, e ∈ D -> d_page s' e = Some p -> d_page s e = Some p).
  { intros e p HeD. destruct (H1 e HeD) as (r&Hr&_). destruct (He e r HeD Hr) as (r'&Hr'&Hb&_).
    by rewrite /d_page Hr Hr' /= Hb. }
  split_and!; [| | |done].
  - intros e HeD. destruct (H1 e HeD) as (r&Hr&Hb&HP&_&Hc).
    destruct (He e r HeD Hr) as (r'&Hr'&Hb'&Href&Hn). exists r'. rewrite Hb'.
    split_and!; [done..|lia|lia|]. rewrite rsv_None (cnt_remove s' A i e Hi) Hq.
    rewrite (cnt_remove s A i e Hi) in Hc.
    rewrite (cnt_same s s') in Hc |- *; [intros j Hj'; apply Hj; set_solver + Hj'|].
    destruct (decide (q = e)) as [->|Hqe].
    + rewrite rsv_self in Hc. rewrite (decide_False (P := ib_d s i = Some e)) // in Hc Hn.
      rewrite decide_True //. lia.
    + rewrite rsv_ne // in Hc. rewrite (decide_False (P := Some q = Some e)); [congruence|]. lia.
  - intros e e' p HeD HeD' Hp Hp'. apply (H2 e e' p); auto.
  - intros j HA. destruct (decide (j = i)) as [->|Hji]; [exists q; auto|]. rewrite Hj //. by apply H3.
Qed.

(** What a step does when it changes the iblkref [i] only. *)
Definition store_step_ib (s s' : toyfs_sb_info) (A X : gset Z) (i : Z) : Prop :=
  rest s' = rest s /\ h_inode s' = h_inode s /\
  (forall j, j ∈ A -> j <> i -> h_iblkref s' !! j = h_iblkref s !! j /\ ib_dat s' j = ib_dat s j) /\
  (forall p, p ∈ X -> h_page s' !! p = h_page s !! p).

(** The common end of the two copy-on-write paths: the page of [q] holds the bytes
    of [i], [i] is moved to [q] and [f] is applied to the count of the old target. *)
Lemma st_inv_cow s I N A X i q d o r rq dat f :
  st_inv s I N A X (Some q) -> i ∈ A -> h_iblkref s !! i = Some (ToyfsIblkref (Some d) o) -> d <> q ->
  (forall j, j ∈ A -> ib_d s j <> Some q) ->
  h_dblkref s !! d = Some r -> h_dblkref s !! q = Some rq -> length dat = 4096%nat ->
  1 <= f (refcnt r) < 2 ^ 64 -> refcnt r - 1 <= f (refcnt r) ->
  let s' := upd_h_iblkref (<[i := ToyfsIblkref (Some q) o]>)
              (upd_h_dblkref (<[d := ToyfsDblkref (f (refcnt r)) (bn r)]>)
                (upd_h_page (<[toyfs_bn2pmemb (bn rq) := Pmemb dat]>) s)) in
  st_inv s' I N A X None /\ store_step_ib s s' A X i /\ ib_dat s' i = Some dat.
Proof.
  intros Hinv Hi Hio Hdq HqA Hr Hrq Hl Hf1 Hf2 s'.
  destruct (st_inv_store s I N A X (Some q) q rq dat) as (Hinv1&Hdat1&_&HX1); [done|by left|done..|].
  set (s1 := upd_h_page _ s) in *.
  assert (Hdp : forall e, d_page s' e = d_page s e).
  { intros e. subst s' s1. rewrite /d_page; fs_simpl. rewrite lookup_insert.
    case_decide as E; [subst e; by rewrite Hr|done]. }
  assert (Hids : forall j, j <> i -> h_iblkref s' !! j = h_iblkref s !! j).
  { intros j Hj. subst s' s1. fs_simpl. by rewrite lookup_insert_ne. }
  assert (Hidi : ib_d s' i = Some q) by (subst s'; rewrite /ib_d; fs_simpl; by rewrite lookup_insert_eq).
  split_and!.
  - destruct Hinv1 as (P&D&Hpool&Hst&HA&HX&HDX). exists P, D. split_and!; [| |done..|].
    + eapply pool_inv_view; [|exact Hpool]. done.
    + eapply (store_inv_repoint s1); [exact Hst|done|done| | |].
      * by apply (HqA i).
      * intros j _ Hji. by rewrite /ib_d Hids.
      * assert (ib_d s1 i = Some d) as -> by (by rewrite /ib_d /s1 /= Hio).
        intros e re HeD Hre. subst s' s1. fs_simpl. fs_simpl in Hre. rewrite lookup_insert.
        case_decide as E.
        -- subst e. rewrite Hr in Hre. injection Hre as <-. eexists. split; [done|].
           fs_simpl. by rewrite decide_True.
        -- exists re. rewrite decide_False; [congruence|].
           destruct Hst as (H1&_). destruct (H1 e HeD) as (re'&Hre'&_&_&?&_).
           fs_simpl in Hre'. assert (re' = re) as -> by congruence. split_and!; (done || lia).
    + intros e He p. rewrite Hdp. by apply HDX.
  - split_and!; [done..| |exact HX1]. intros j Hj Hji. split; [by apply Hids|].
    rewrite -Hdat1; [done|by apply HqA|]. rewrite /ib_dat.
    assert (ib_d s' j = ib_d s1 j) as -> by (by rewrite /ib_d Hids).
    destruct (ib_d s1 j) as [e|]; [|done]. cbn. by rewrite Hdp.
  - eapply (ib_dat_eq s' i q rq); [done|subst s' s1; fs_simpl; by rewrite lookup_insert_ne|done|].
    subst s' s1. fs_simpl. by rewrite lookup_insert_eq.
Qed.

(** The end of the copy-on-write of [_require_iblkref]: the old count stays. *)
Lemma wp_require_cow s I N A X i d o Q :
  st_inv s I N A X None -> i ∈ A -> h_iblkref s !! i = Some (ToyfsIblkref (Some d) o) ->
  (forall s', store_step s s' A X -> free_le s' 1 -> st_inv s' I N A X None -> Q None s') ->
  (forall q rq s', store_step_ib s s' A X i -> h_iblkref s' !! i = Some (ToyfsIblkref (Some q) o) ->
     ib_dat s' i = ib_dat s i -> h_dblkref s' !! q = Some rq -> refcnt rq = 1 ->
     st_inv s' I N A X None -> Q (Some i) s') ->
  wp (dblkref ← _new_dblkref;
      match dblkref with
      | None => mret None
      | Some q =>
        src ← iblkref_dblkref i; _clone_data q src;; set_iblkref_dblkref i q;; mret (Some i)
      end) s Q.
Proof.
  intros Hinv Hi Hio HN HS. wp_step. apply (wp_new_dblkref s I N A X); [done| |].
  { intros s1 Hs1 _ Hfree1 Hinv1. wp_step. by apply HN. }
  intros q rq s1 Hs1 Hib1 HqA Hdq Hn Hpq Hinv1. wp_step.
  assert (Hio1 : h_iblkref s1 !! i = Some (ToyfsIblkref (Some d) o)) by (by rewrite Hib1).
  assert (Hid1 : ib_d s1 i = Some d) by (by rewrite /ib_d Hio1).
  assert (Hdq' : d <> q) by (intros ->; by apply (HqA i Hi); rewrite -Hid1 /ib_d Hib1).
  assert (Hrq : h_dblkref s1 !! q = Some rq) by (by rewrite Hdq lookup_insert_eq).
  destruct (reachable_rec s1 I N A X (Some q) d) as (r&Hr&_&Href); [done|right; eauto|].
  destruct (reachable_live s1 I N A X (Some q) d r) as (_&dat&Hdat&Hl); [done|right; eauto|done|].
  destruct (reachable_live s1 I N A X (Some q) q rq) as (Hpq0&_); [done|by left|done|].
  assert (0 <= s_mutex s1) by (destruct Hinv1 as (?&?&Hp&_); apply Hp).
  eapply wp_iblkref_dblkref; [exact Hio1|]. wp_step. rewrite /_clone_data.
  wp_step. apply wp_sbi_lock. wp_step. eapply wp_dblkref_bn; [exact Hrq|].
  wp_step. eapply wp_dblkref_bn; [exact Hr|]. wp_step.
  eapply wp_copy_pmemb; [exact Hpq|exact Hdat|by rewrite length_replicate|done|done|].
  apply wp_sbi_unlock; [fs_simpl; lia|]. rewrite /set_iblkref_dblkref. wp_step.
  wp_step; [exact Hio1|]. wp_step.
  destruct (st_inv_cow s1 I N A X i q d o r rq dat (fun n => n)) as (Hinv2&(R2&N2&I2&X2)&Hdat2);
    [done..|lia|lia|].
  cbv zeta in Hinv2. set (s2 := upd_h_iblkref _ _) in Hinv2, R2, N2, I2, X2, Hdat2.
  match goal with |- Q (Some i) ?s => assert (s = s2) as -> end.
  { assert (Hid : <[d := ToyfsDblkref (refcnt r) (bn r)]> (h_dblkref s1) = h_dblkref s1)
      by (destruct r; by apply insert_id).
    subst s2. rewrite /upd_h_iblkref /upd_h_dblkref /upd_h_page /upd_s_mutex /upd_dblkref; fs_simpl.
    by rewrite Hid Z.pred_succ. }
  destruct Hs1 as (R1&N1&I1&X1).
  apply (HS q rq); [split_and!|subst s2; fs_simpl; by rewrite lookup_insert_eq| | |done|done].
  - by rewrite R2.
  - by rewrite N2.
  - intros j Hj Hji. destruct (I1 j Hj), (I2 j Hj Hji). split; congruence.
  - intros p Hp. by rewrite X2 ?X1.
  - rewrite Hdat2. destruct (I1 i Hi) as [_ <-]. symmetry. by eapply (ib_dat_eq s1 i d r).
  - subst s2. fs_simpl. by rewrite lookup_insert_ne.
Qed.

(** [_unique_pmemb]: the block gets a page of its own, with the same bytes; the
    old dblkref loses the reference. *)
Lemma wp_unique_pmemb s I N A X i d o r Q :
  st_inv s I N A X None -> i ∈ A -> h_iblkref s !! i = Some (ToyfsIblkref (Some d) o) ->
  h_dblkref s !! d = Some r ->
  (forall s', store_step s s' A X -> free_le s' 1 -> st_inv s' I N A X None -> Q 0 s') ->
  (forall q rq s', store_step_ib s s' A X i -> h_iblkref s' !! i = Some (ToyfsIblkref (Some q) o) ->
     ib_dat s' i = ib_dat s i -> h_dblkref s' !! q = Some rq -> refcnt rq <= 1 ->
     st_inv s' I N A X None -> Q (toyfs_bn2pmemb (bn rq)) s') ->
  wp (_unique_pmemb i) s Q.
Proof.
  intros Hinv Hi Hio Hr0 HN HS. rewrite /_unique_pmemb.
  wp_step. eapply wp_iblkref_dblkref; [exact Hio|]. wp_step. eapply wp_dblkref_bn; [exact Hr0|].
  wp_step. eapply wp_dblkref_refcnt; [exact Hr0|].
  destruct (Z.ltb_spec 1 (refcnt r)) as [Hgt|Hle].
  2:{ wp_step. by apply (HS d r). }
  wp_step. apply (wp_new_dblkref s I N A X); [done| |].
  { intros s1 Hs1 _ Hfree1 Hinv1. wp_step. by apply HN. }
  intros q rq s1 Hs1 Hib1 HqA Hdq Hn Hpq Hinv1.
  assert (Hio1 : h_iblkref s1 !! i = Some (ToyfsIblkref (Some d) o)) by (by rewrite Hib1).
  assert (Hid1 : ib_d s1 i = Some d) by (by rewrite /ib_d Hio1).
  assert (Hdq' : d <> q) by (intros ->; by apply (HqA i Hi); rewrite -Hid1 /ib_d Hib1).
  assert (Hrq : h_dblkref s1 !! q = Some rq) by (by rewrite Hdq lookup_insert_eq).
  assert (Hr : h_dblkref s1 !! d = Some r) by (by rewrite Hdq lookup_insert_ne).
  destruct (reachable_rec s1 I N A X (Some q) d) as (r'&Hr'&_&Href); [done|right; eauto|].
  rewrite Hr in Hr'. injection Hr' as <-.
  destruct (reachable_live s1 I N A X (Some q) d r) as (_&dat&Hdat&Hl); [done|right; eauto|done|].
  destruct (reachable_live s1 I N A X (Some q) q rq) as (Hpq0&_); [done|by left|done|].
  wp_step. eapply wp_dblkref_bn; [exact Hrq|]. wp_step.
  wp_step; [by apply negb_true_iff, Z.eqb_neq; lia|]. wp_step.
  eapply wp_copy_pmemb; [exact Hpq|exact Hdat|by rewrite length_replicate|done|done|]. wp_step.
  eapply wp_iblkref_dblkref; [exact Hio1|]. rewrite /set_refcnt /set_iblkref_dblkref. wp_step.
  eapply wp_update_dblkref; [exact Hr|]. wp_step. wp_step; [exact Hio1|]. wp_step.
  destruct (st_inv_cow s1 I N A X i q d o r rq dat (fun n => u64 (Z.pred n))) as (Hinv2&(R2&N2&I2&X2)&Hdat2);
    [done..|rewrite u64_small; lia|rewrite u64_small; lia|].
  cbv zeta in Hinv2. set (s2 := upd_h_iblkref _ _) in Hinv2, R2, N2, I2, X2, Hdat2.
  match goal with |- Q _ ?s => change s with s2 end.
  destruct Hs1 as (R1&N1&I1&X1).
  apply (HS q rq); [split_and!|subst s2; fs_simpl; by rewrite lookup_insert_eq| | |lia|done].
  - by rewrite R2.
  - by rewrite N2.
  - intros j Hj Hji. destruct (I1 j Hj), (I2 j Hj Hji). split; congruence.
  - intros p Hp. by rewrite X2 ?X1.
  - rewrite Hdat2. destruct (I1 i Hi) as [_ <-]. symmetry. by eapply (ib_dat_eq s1 i d r).
  - subst s2. fs_simpl. by rewrite lookup_insert_ne.
Qed.
End store.
