(* ===== verification/FileSpec.v ===== *)
(** * Regular files as maps from block offsets to bytes

    [fblocks s ti] is the abstract content of the file of inode [ti]: the bytes of
    every block it has, keyed by offset.  The invariant [fs_inv s F N X] speaks of
    the files [F]; each block operation of file.c is specified by what it does to
    [fblocks] of one file, and keeps those of all the others. *)

From stdpp Require Import sorting.
From S2P Require Import Prelude CList State Pool File FileInv.

Section abstraction.
Context `{MdApi}.

Definition flist (s : toyfs_sb_info) (ti : Z) : list Z := default [] (list_head <$> h_inode s !! ti).
Definition fsize (s : toyfs_sb_info) (ti : Z) : Z := default 0 (i_size <$> h_inode s !! ti).
Definition lblocks (s : toyfs_sb_info) (l : list Z) : gmap Z (list Z) :=
  list_to_map ((fun x => (ib_off s x, default [] (ib_dat s x))) <$> l).
Definition fblocks (s : toyfs_sb_info) (ti : Z) : gmap Z (list Z) := lblocks s (flist s ti).

(** The block list of a file: attached, ordered by offset, page aligned. *)
Definition list_ok (s : toyfs_sb_info) (A : gset Z) (l : list Z) : Prop :=
  (forall x, x ∈ l -> x ∈ A /\ 0 <= ib_off s x <= 2 ^ 50 /\ (PAGE_SIZE | ib_off s x)) /\
  StronglySorted Z.lt (ib_off s <$> l).
Definition inode_ok (s : toyfs_sb_info) (A : gset Z) (i : toyfs_inode) : Prop :=
  list_ok s A (list_head i) /\ i_blocks i = Z.of_nat (length (list_head i)) /\
  0 <= i_size i < 2 ^ 63.

Definition fs_inv_at (s : toyfs_sb_info) (F N X A I : gset Z) : Prop :=
  st_inv s I N A X None /\
  (forall ti, ti ∈ F -> exists i, h_inode s !! ti = Some i /\ inode_ok s A i) /\
  (forall ti ti' x, ti ∈ F -> ti' ∈ F -> ti <> ti' -> x ∈ flist s ti -> x ∉ flist s ti').
Definition fs_inv (s : toyfs_sb_info) (F N X : gset Z) : Prop :=
  exists A I, fs_inv_at s F N X A I.

(** The inode with what file operations may change erased. *)
Definition meta (i : toyfs_inode) : toyfs_inode :=
  upd_list_head (fun _ => []) (upd_i_blocks (fun _ => 0) (upd_i_size (fun _ => 0) i)).
(** What an operation on the file [ti] leaves alone. *)
Definition fs_step (s s' : toyfs_sb_info) (F X : gset Z) (ti : Z) : Prop :=
  rest s' = rest s /\
  (forall tj, tj <> ti -> h_inode s' !! tj = h_inode s !! tj) /\
  meta <$> h_inode s' !! ti = meta <$> h_inode s !! ti /\
  (forall tj, tj ∈ F -> tj <> ti -> fblocks s' tj = fblocks s tj) /\
  (forall p, p ∈ X -> h_page s' !! p = h_page s !! p).

Definition tii_of (s : toyfs_sb_info) (tii p : Z) : Prop :=
  exists t, h_tii s !! tii = Some t /\ ti t = Some p /\ zi t = Some p.

(** [x] is the block of [ti] at [b], and nobody shares its page. *)
Definition excl (s : toyfs_sb_info) (ti b x : Z) : Prop :=
  x ∈ flist s ti /\ exists d r, h_iblkref s !! x = Some (ToyfsIblkref (Some d) b) /\
    h_dblkref s !! d = Some r /\ refcnt r <= 1.
End abstraction.

Section facts.
Context `{MdLaws}.
Implicit Types (F N X A I : gset Z).

Lemma fs_step_refl s F X ti : fs_step s s F X ti.
Proof. by split_and!. Qed.
Lemma fs_step_trans s1 s2 s3 F X ti :
  fs_step s1 s2 F X ti -> fs_step s2 s3 F X ti -> fs_step s1 s3 F X ti.
Proof.
  intros (R1&N1&M1&B1&P1) (R2&N2&M2&B2&P2). split_and!.
  - by rewrite R2.
  - intros tj Hj. by rewrite N2 ?N1.
  - by rewrite M2.
  - intros tj Hj Hne. by rewrite B2 ?B1.
  - intros p Hp. by rewrite P2 ?P1.
Qed.
Lemma fs_step_tii s s' F X ti tii p : fs_step s s' F X ti -> tii_of s tii p -> tii_of s' tii p.
Proof. intros (R&_) (t&Ht&?). exists t. by rewrite (rest_tii _ _ R). Qed.

Lemma wp_ti s tii p (Q : Z -> toyfs_sb_info -> Prop) : tii_of s tii p -> Q p s -> wp (tii_ti tii) s Q.
Proof. intros (t&Ht&Hp&_) HQ. by eapply wp_tii_ti. Qed.
Lemma wp_zi s tii p (Q : Z -> toyfs_sb_info -> Prop) : tii_of s tii p -> Q p s -> wp (tii_zi tii) s Q.
Proof. intros (t&Ht&_&Hp) HQ. by eapply wp_tii_zi. Qed.

(** ** Block lists *)
Lemma ib_off_eq s s' x : h_iblkref s' !! x = h_iblkref s !! x -> ib_off s' x = ib_off s x.
Proof. by rewrite /ib_off => ->. Qed.
Lemma ib_off_fmap s s' (l : list Z) :
  (forall x, x ∈ l -> h_iblkref s' !! x = h_iblkref s !! x) -> ib_off s' <$> l = ib_off s <$> l.
Proof. intros Hl. apply list_fmap_ext. intros k x Hx%list_elem_of_lookup_2. by apply ib_off_eq, Hl. Qed.

Lemma lblocks_same s s' l :
  (forall x, x ∈ l -> h_iblkref s' !! x = h_iblkref s !! x /\ ib_dat s' x = ib_dat s x) ->
  lblocks s' l = lblocks s l.
Proof.
  intros Hl. rewrite /lblocks. f_equal. apply list_fmap_ext. intros k x Hx%list_elem_of_lookup_2.
  destruct (Hl x Hx) as [Ho Hd]. by rewrite (ib_off_eq _ _ _ Ho) Hd.
Qed.
Lemma list_ok_same s s' A A' l :
  (forall x, x ∈ l -> h_iblkref s' !! x = h_iblkref s !! x) -> (forall x, x ∈ l -> x ∈ A -> x ∈ A') ->
  list_ok s A l -> list_ok s' A' l.
Proof.
  intros Hi HA [Hl Hs]. split.
  - intros x Hx. rewrite (ib_off_eq s s') ?Hi //. destruct (Hl x Hx) as (?&?&?). auto.
  - by rewrite (ib_off_fmap s s').
Qed.

Lemma sorted_NoDup l : StronglySorted Z.lt l -> NoDup l.
Proof.
  induction l as [|x l IH]; [constructor|]. intros [Hx Hl]%StronglySorted_cons.
  apply NoDup_cons. split; [|by apply IH]. intros Hin. rewrite Forall_forall in Hx.
  specialize (Hx x Hin). lia.
Qed.
Lemma list_ok_offs s A l : list_ok s A l -> NoDup (ib_off s <$> l).
Proof. intros [_ Hs]. by apply sorted_NoDup. Qed.
Lemma list_ok_NoDup s A l : list_ok s A l -> NoDup l.
Proof. intros Hl%list_ok_offs. by eapply NoDup_fmap_1. Qed.

Lemma lblocks_fst s l : ((fun x => (ib_off s x, default [] (ib_dat s x))) <$> l).*1 = ib_off s <$> l.
Proof. rewrite -list_fmap_compose. by apply list_fmap_ext. Qed.
Lemma lblocks_perm s l l' : NoDup (ib_off s <$> l) -> l ≡ₚ l' -> lblocks s l = lblocks s l'.
Proof. intros Hnd Hp. apply list_to_map_proper; [by rewrite lblocks_fst|by rewrite Hp]. Qed.
Lemma lblocks_cons s x l : lblocks s (x :: l) = <[ib_off s x := default [] (ib_dat s x)]> (lblocks s l).
Proof. done. Qed.
Lemma lblocks_Some s l b dat :
  NoDup (ib_off s <$> l) ->
  lblocks s l !! b = Some dat <-> exists x, x ∈ l /\ ib_off s x = b /\ default [] (ib_dat s x) = dat.
Proof.
  intros Hnd. rewrite -elem_of_list_to_map; [by rewrite lblocks_fst|]. rewrite list_elem_of_fmap.
  split; [intros (x&[= -> ->]&Hx); eauto|intros (x&Hx&<-&<-); eauto].
Qed.
Lemma lblocks_None s l b : lblocks s l !! b = None <-> forall x, x ∈ l -> ib_off s x <> b.
Proof.
  rewrite -not_elem_of_list_to_map lblocks_fst list_elem_of_fmap. naive_solver.
Qed.

(** A sorted list of distinct page offsets below 2^50 is short. *)
Lemma sorted_length (l : list Z) m :
  (forall x, x ∈ l -> m <= x /\ (PAGE_SIZE | x)) -> (PAGE_SIZE | m) -> StronglySorted Z.lt l ->
  forall b, (forall x, x ∈ l -> x <= b) -> l <> [] -> m + PAGE_SIZE * (Z.of_nat (length l) - 1) <= b.
Proof.
  revert m. induction l as [|x l IH]; [done|]. intros m Hl Hm [Hx Hs]%StronglySorted_cons b Hb _.
  destruct (Hl x) as [Hmx Hdx]; [set_solver +|]. destruct (decide (l = [])) as [->|Hne].
  { simpl. specialize (Hb x). assert (x <= b) by (apply Hb; set_solver +). lia. }
  assert (x + PAGE_SIZE + PAGE_SIZE * (Z.of_nat (length l) - 1) <= b); [|simpl; lia].
  apply IH; [|apply Z.divide_add_r; [done|apply Z.divide_refl]|done|set_solver + Hb|done].
  intros y Hy. rewrite Forall_forall in Hx. specialize (Hx y Hy). split; [|apply Hl; set_solver + Hy].
  destruct (Hl y) as [_ [q ->]]; [set_solver + Hy|]. destruct Hdx as [q' ->]. lia.
Qed.
Lemma list_ok_length s A l : list_ok s A l -> Z.of_nat (length l) <= 2 ^ 40.
Proof.
  intros [Hl Hs]. destruct (decide (l = [])) as [->|Hne]; [simpl; lia|].
  assert (0 + PAGE_SIZE * (Z.of_nat (length (ib_off s <$> l)) - 1) <= 2 ^ 50) as Hb.
  { eapply sorted_length; [|by apply Z.divide_0_r|done| |].
    - intros x (y&->&Hy)%list_elem_of_fmap. destruct (Hl y Hy) as (_&?&?). split; [lia|done].
    - intros x (y&->&Hy)%list_elem_of_fmap. by destruct (Hl y Hy) as (_&[_ ?]&_).
    - by destruct l. }
  rewrite length_fmap in Hb. lia.
Qed.
End facts.

(** ** Rebuilding the invariant after a step on the file [ti] *)
Section rebuild.
Context `{MdLaws}.
Implicit Types (F N X A I : gset Z).

Lemma flist_eq s ti i : h_inode s !! ti = Some i -> flist s ti = list_head i.
Proof. by rewrite /flist => ->. Qed.
Lemma fblocks_eq s ti i : h_inode s !! ti = Some i -> fblocks s ti = lblocks s (list_head i).
Proof. intros Hi. by rewrite /fblocks (flist_eq _ _ _ Hi). Qed.
Lemma fsize_eq s ti i : h_inode s !! ti = Some i -> fsize s ti = i_size i.
Proof. by rewrite /fsize => ->. Qed.

Lemma fs_inv_intro s s' F N X A I A' I' ti i' :
  fs_inv_at s F N X A I -> st_inv s' I' N A' X None ->
  (forall x, x ∈ A -> x ∉ flist s ti ->
     x ∈ A' /\ h_iblkref s' !! x = h_iblkref s !! x /\ ib_dat s' x = ib_dat s x) ->
  (forall tj, tj <> ti -> h_inode s' !! tj = h_inode s !! tj) ->
  h_inode s' !! ti = Some i' -> inode_ok s' A' i' ->
  (forall x, x ∈ list_head i' -> x ∈ flist s ti \/ x ∉ A) ->
  ti ∈ F ->
  fs_inv s' F N X /\ forall tj, tj ∈ F -> tj <> ti -> fblocks s' tj = fblocks s tj.
Proof.
  intros (Hst&HF&Hdis) Hst' HA Hino Hi' Hok Hnew Hti.
  assert (Hother : forall tj j, tj ∈ F -> tj <> ti -> h_inode s !! tj = Some j -> inode_ok s A j ->
    forall x, x ∈ list_head j -> x ∈ A /\ x ∉ flist s ti).
  { intros tj j Htj Hne Hj [[Hl _] _] x Hx. split; [by apply Hl|].
    apply (Hdis tj ti); try done. by rewrite (flist_eq _ _ _ Hj). }
  split.
  - exists A', I'. split_and!; [done| |].
    + intros tj Htj. destruct (decide (tj = ti)) as [->|Hne]; [by exists i'|].
      rewrite Hino //. destruct (HF tj Htj) as (j&Hj&Hjok). exists j. split; [done|].
      pose proof (Hother tj j Htj Hne Hj Hjok) as Hjo. destruct Hjok as (Hl&?). split; [|done].
      eapply list_ok_same; [| |exact Hl]; intros x Hx; destruct (Hjo x Hx) as [Ha Hb]; by destruct (HA x Ha Hb) as (?&?&?).
    + intros t1 t2 x H1 H2 Hne. destruct (decide (t1 = ti)) as [->|H1i], (decide (t2 = ti)) as [->|H2i]; try done.
      * rewrite (flist_eq _ _ _ Hi') {1}/flist Hino // -/(flist s t2). intros Hx Hx2.
        destruct (Hnew x Hx) as [Hs|Hs]; [by apply (Hdis ti t2 x)|].
        destruct (HF t2 H2) as (j&Hj&Hjok). rewrite (flist_eq _ _ _ Hj) in Hx2.
        by destruct (Hother t2 j H2 H2i Hj Hjok x Hx2).
      * rewrite (flist_eq _ _ _ Hi') {1}/flist Hino // -/(flist s t1). intros Hx2 Hx.
        destruct (Hnew x Hx) as [Hs|Hs]; [by apply (Hdis t1 ti x)|].
        destruct (HF t1 H1) as (j&Hj&Hjok). rewrite (flist_eq _ _ _ Hj) in Hx2.
        by destruct (Hother t1 j H1 H1i Hj Hjok x Hx2).
      * rewrite /flist !Hino //. by apply Hdis.
  - intros tj Htj Hne. destruct (HF tj Htj) as (j&Hj&Hjok).
    rewrite (fblocks_eq s tj j) // (fblocks_eq s' tj j); [by rewrite Hino|].
    apply lblocks_same. intros x Hx. destruct (Hother tj j Htj Hne Hj Hjok x Hx) as [HxA Hxl].
    by destruct (HA x HxA Hxl) as (_&?&?).
Qed.

(** ** The search of [_require_iblkref] *)
Lemma wp_require_search s A boff l (Q : option Z * option Z -> toyfs_sb_info -> Prop) :
  (forall x, x ∈ l -> exists r, h_iblkref s !! x = Some r) ->
  StronglySorted Z.lt (ib_off s <$> l) ->
  (forall x, x ∈ l -> ib_off s x = boff -> Q (Some x, Some x) s) ->
  (forall l1 l2, l = l1 ++ l2 -> (forall x, x ∈ l1 -> ib_off s x < boff) ->
     (forall x, x ∈ l2 -> boff < ib_off s x) -> Q (None, head l2) s) ->
  wp (_require_search boff l) s Q.
Proof.
  intros Hex Hs HS HN. revert Q HS HN.
  induction l as [|x l IH]; intros Q HS HN; cbn [_require_search].
  { wp_step. apply (HN [] []); [done|by intros x ?%elem_of_nil..]. }
  rewrite fmap_cons in Hs. apply StronglySorted_cons in Hs as [Hx Hs].
  destruct (Hex x) as (r&Hr); [set_solver +|]. wp_step. eapply wp_iblkref_off; [exact Hr|].
  assert (Ho : ib_off s x = off r) by (by rewrite /ib_off Hr).
  assert (Hgt : forall y, y ∈ l -> ib_off s x < ib_off s y).
  { intros y Hy. rewrite Forall_forall in Hx. apply Hx, list_elem_of_fmap. eauto. }
  destruct (Z.eqb_spec (off r) boff) as [E|Hne].
  { wp_step. apply HS; [set_solver +|]. by rewrite Ho. }
  destruct (Z.ltb_spec boff (off r)) as [Hlt|Hle].
  { wp_step. apply (HN [] (x :: l)); [done|set_solver +|].
    intros y [->|Hy]%elem_of_cons; [lia|]. specialize (Hgt y Hy). lia. }
  apply IH; [set_solver + Hex|done|set_solver + HS|].
  intros l1 l2 -> H1 H2. apply (HN (x :: l1) l2); [done| |done].
  intros y [->|Hy]%elem_of_cons; [lia|auto].
Qed.

Lemma add_before_perm x itr l : add_before x itr l ≡ₚ x :: l.
Proof.
  destruct itr as [y|]; simpl; [|by rewrite -Permutation_cons_append].
  induction l as [|z l IH]; simpl; [done|]. case_bool_decide; [done|]. rewrite IH. constructor.
Qed.
Lemma add_before_split x l1 l2 :
  NoDup (l1 ++ l2) -> add_before x (head l2) (l1 ++ l2) = l1 ++ x :: l2.
Proof.
  intros Hnd. destruct l2 as [|y l2]; simpl; [by rewrite app_nil_r|].
  apply insert_before_split. rewrite -Permutation_middle in Hnd. apply NoDup_cons in Hnd. set_solver.
Qed.

(** Inserting a new block at its place. *)
Lemma list_ok_insert s s' A x l1 l2 b :
  list_ok s A (l1 ++ l2) ->
  (forall y, y ∈ l1 ++ l2 -> h_iblkref s' !! y = h_iblkref s !! y) ->
  ib_off s' x = b -> 0 <= b <= 2 ^ 50 -> (PAGE_SIZE | b) ->
  (forall y, y ∈ l1 -> ib_off s y < b) -> (forall y, y ∈ l2 -> b < ib_off s y) ->
  list_ok s' ({[x]} ∪ A) (l1 ++ x :: l2).
Proof.
  intros Hl Hsame Hx Hb Hdiv H1 H2.
  destruct (list_ok_same s s' A ({[x]} ∪ A) (l1 ++ l2)) as [Hm Hs]; [done|set_solver +|done|].
  split.
  - intros y Hy. destruct (decide (y = x)) as [->|Hne]; [rewrite Hx; set_solver + Hb Hdiv|].
    apply Hm. set_solver + Hy Hne.
  - rewrite fmap_app in Hs. rewrite fmap_app fmap_cons Hx.
    apply StronglySorted_app in Hs as (Hs12&Hs1&Hs2).
    assert (O1 : forall o, o ∈ ib_off s' <$> l1 -> o < b).
    { intros o (y&->&Hy)%list_elem_of_fmap. rewrite (ib_off_eq s); [apply Hsame; set_solver + Hy|auto]. }
    assert (O2 : forall o, o ∈ ib_off s' <$> l2 -> b < o).
    { intros o (y&->&Hy)%list_elem_of_fmap. rewrite (ib_off_eq s); [apply Hsame; set_solver + Hy|auto]. }
    apply StronglySorted_app. split_and!; [|done|].
    + intros o1 o2 Ho1 [->|Ho2]%elem_of_cons; auto.
    + apply StronglySorted_cons. split; [|done]. apply Forall_forall. auto.
Qed.
End rebuild.

(** ** Block operations on files *)
Section block_ops.
Context `{MdLaws}.
Implicit Types (F N X A I : gset Z).

Lemma boff_props o : 0 <= o <= 2 ^ 50 ->
  0 <= _off_to_boff o <= 2 ^ 50 /\ (PAGE_SIZE | _off_to_boff o) /\
  _off_to_boff o <= o < _off_to_boff o + PAGE_SIZE.
Proof.
  intros Ho. rewrite /_off_to_boff Z.quot_div_nonneg; [lia..|].
  pose proof (Z.div_mod o PAGE_SIZE). pose proof (Z.mod_pos_bound o PAGE_SIZE).
  split_and!; try lia. by exists (o / PAGE_SIZE).
Qed.

Lemma list_ok_recs s A I N X l :
  st_inv s I N A X None -> list_ok s A l ->
  forall x, x ∈ l -> exists d o, h_iblkref s !! x = Some (ToyfsIblkref (Some d) o) /\
    ib_off s x = o /\ reachable s A None d /\ ib_d s x = Some d.
Proof.
  intros (P&D&_&(_&_&H3&_)&_) [Hl _] x Hx. destruct (Hl x Hx) as (HA&_).
  destruct (H3 x HA) as (d&Hd&_). rewrite /ib_d in Hd.
  destruct (h_iblkref s !! x) as [[d' o]|] eqn:E; [|done]. simpl in Hd. subst d'.
  exists d, o. split_and!; [done|by rewrite /ib_off E| |by rewrite /ib_d E].
  right. exists x. split; [done|]. by rewrite /ib_d E.
Qed.

(** The bytes of an attached iblkref exist. *)
Lemma ib_dat_attached s A I N X L x d :
  st_inv s I N A X L -> x ∈ A -> ib_d s x = Some d ->
  exists dat, ib_dat s x = Some dat /\ length dat = 4096%nat.
Proof.
  intros Hinv Hx Hd. destruct (reachable_rec s I N A X L d) as (r&Hr&_); [done|right; eauto|].
  destruct (reachable_live s I N A X L d r) as (_&dat&Hdat&Hl); [done|right; eauto|done|].
  exists dat. split; [|done]. by eapply (ib_dat_eq s x d r).
Qed.

Lemma st_inv_upd_inode f s I N A X L : st_inv s I N A X L -> st_inv (upd_h_inode f s) I N A X L.
Proof.
  intros (P&D&Hpool&Hst&HA&HX&HDX). exists P, D. split_and!; try done.
Qed.

Lemma meta_list f i : meta (upd_list_head f i) = meta i.
Proof. done. Qed.
Lemma meta_blocks f i : meta (upd_i_blocks f i) = meta i.
Proof. done. Qed.

(** The new block of [_require_iblkref]. *)
Lemma wp_require_new s F N X tii ti b l1 l2 (Q : option Z -> toyfs_sb_info -> Prop) :
  fs_inv s F N X -> ti ∈ F -> tii_of s tii ti -> 0 <= b <= 2 ^ 50 -> (PAGE_SIZE | b) ->
  flist s ti = l1 ++ l2 ->
  (forall x, x ∈ l1 -> ib_off s x < b) -> (forall x, x ∈ l2 -> b < ib_off s x) ->
  (forall s', fs_step s s' F X ti -> fs_inv s' F N X -> fblocks s' ti = fblocks s ti ->
     fsize s' ti = fsize s ti -> free_le s' 1 -> Q None s') ->
  (forall x s', fs_step s s' F X ti -> fs_inv s' F N X ->
     fblocks s' ti = <[b := zeros 4096]> (fblocks s ti) ->
     fsize s' ti = fsize s ti -> excl s' ti b x -> Q (Some x) s') ->
  wp (iblkref ← _new_iblkref tii b;
      match iblkref with
      | None => mret None
      | Some x => set_iblkrefs_list tii (add_before x (head l2));; mret (Some x)
      end) s Q.
Proof.
  intros (A&I&Hat) Hti Htii Hb Hdiv Hl H1 H2 HN HS.
  pose proof Hat as (Hst&HF&Hdis). destruct (HF ti Hti) as (i&Hi&Hok).
  pose proof Hok as (Hlok&Hblk&Hsz). rewrite (flist_eq _ _ _ Hi) in Hl.
  pose proof Htii as (t&Ht&Htt&Htz).
  wp_step. eapply (wp_new_iblkref s I N A X); [done..| |].
  - intros s1 (R1&N1&I1&X1) Hfree1 Hst1. wp_step.
    destruct (fs_inv_intro s s1 F N X A I A I ti i) as [Hfs Hfb]; try done.
    { intros x Hx _. split; [done|]. by apply I1. }
    { intros tj _. by rewrite N1. }
    { by rewrite N1. }
    { destruct Hok. split; [|done]. eapply list_ok_same; [| |exact Hlok]; [|done].
      intros x Hx. apply I1. by apply Hlok. }
    { intros x Hx. left. by rewrite (flist_eq _ _ _ Hi). }
    assert (Hi1 : h_inode s1 !! ti = Some i) by (by rewrite N1).
    apply HN; [split_and!|done| | |done].
    + done.
    + intros tj _. by rewrite N1.
    + by rewrite N1.
    + done.
    + done.
    + rewrite (fblocks_eq _ _ _ Hi) (fblocks_eq _ _ _ Hi1).
      apply lblocks_same. intros x Hx. apply I1. by apply Hlok.
    + by rewrite /fsize Hi Hi1.
  - intros x q r s1 HxA (R1&N1&I1&X1) Hx Hxd Hq Hr Hst1. wp_step.
    rewrite /set_iblkrefs_list. wp_step.
    eapply wp_tii_ti; [by rewrite (rest_tii _ _ R1)|exact Htt|].
    eapply wp_set_inode; [by rewrite N1 lookup_insert_eq|]. wp_step. fs_simpl.
    set (i' := upd_list_head _ _). set (s2 := upd_h_inode _ s1).
    assert (Hi' : h_inode s2 !! ti = Some i') by (subst s2; fs_simpl; by rewrite lookup_insert_eq).
    assert (Hl' : list_head i' = l1 ++ x :: l2).
    { subst i'. fs_simpl. rewrite Hl. apply add_before_split. rewrite -Hl. by eapply list_ok_NoDup. }
    assert (Hino : forall tj, tj <> ti -> h_inode s2 !! tj = h_inode s !! tj).
    { intros tj Hne. subst s2. fs_simpl. rewrite lookup_insert_ne // N1 lookup_insert_ne //. }
    assert (Hst2 : st_inv s2 ({[x]} ∪ I) N ({[x]} ∪ A) X None) by (by apply st_inv_upd_inode).
    assert (Hxo : ib_off s2 x = b) by (by rewrite /ib_off /s2; fs_simpl; rewrite Hx).
    assert (Hin : forall y, y ∈ l1 ++ l2 -> y ∈ A) by (intros y Hy; apply Hlok; by rewrite Hl).
    assert (Hsame : forall y, y ∈ l1 ++ l2 -> h_iblkref s2 !! y = h_iblkref s !! y).
    { intros y Hy. by apply I1, Hin. }
    assert (Hlok' : list_ok s2 ({[x]} ∪ A) (l1 ++ x :: l2)).
    { eapply (list_ok_insert s); [by rewrite -Hl|done|done|lia|done|done|done]. }
    destruct (fs_inv_intro s s2 F N X A I ({[x]} ∪ A) ({[x]} ∪ I) ti i') as [Hfs Hfb]; try done.
    { intros y Hy _. split; [set_solver + Hy|]. by apply I1. }
    { split_and!; [by rewrite Hl'| |by apply Hsz..].
      rewrite Hl'. subst i'. fs_simpl. rewrite Hblk Hl !length_app /=. rewrite u64_small; [|lia].
      apply list_ok_length in Hlok. rewrite Hl length_app in Hlok. lia. }
    { rewrite Hl'. intros y Hy. rewrite (flist_eq _ _ _ Hi) Hl.
      destruct (decide (y = x)) as [->|]; [by right|left; set_solver + Hy n]. }
    apply HS; [split_and!|done| | |].
    + by rewrite -R1.
    + done.
    + rewrite Hi' Hi /=. f_equal.
    + done.
    + intros p Hp. by rewrite -(X1 p Hp).
    + rewrite (fblocks_eq _ _ _ Hi) (fblocks_eq _ _ _ Hi') Hl' Hl.
      rewrite (lblocks_perm s2 _ (x :: l1 ++ l2)); [by eapply list_ok_offs|by rewrite -Permutation_middle|].
      rewrite lblocks_cons Hxo. f_equal; [by rewrite /s2 (Hxd : ib_dat s2 x = _)|].
      apply lblocks_same. intros y Hy. split; [by apply Hsame|]. by apply I1, Hin.
    + by rewrite (fsize_eq _ _ _ Hi) (fsize_eq _ _ _ Hi').
    + split; [rewrite (flist_eq _ _ _ Hi') Hl'; set_solver +|].
      exists q, r. split_and!; [done..|lia].
Qed.

(** A change to the block [x] of the file only. *)
Lemma lblocks_update s s' l x :
  NoDup (ib_off s <$> l) -> x ∈ l -> ib_off s' x = ib_off s x ->
  (forall y, y ∈ l -> y <> x -> h_iblkref s' !! y = h_iblkref s !! y /\ ib_dat s' y = ib_dat s y) ->
  lblocks s' l = <[ib_off s x := default [] (ib_dat s' x)]> (lblocks s l).
Proof.
  intros Hnd Hx Ho Hy.
  assert (Hnd' : NoDup (ib_off s' <$> l)).
  { replace (ib_off s' <$> l) with (ib_off s <$> l); [done|]. apply list_fmap_ext.
    intros k y Hk%list_elem_of_lookup_2. destruct (decide (y = x)) as [->|Hne]; [done|].
    symmetry. by apply ib_off_eq, Hy. }
  apply elem_of_Permutation in Hx as (l'&Hp).
  assert (Hxl : x ∉ l') by (rewrite Hp in Hnd; apply NoDup_fmap_1, NoDup_cons in Hnd; tauto).
  rewrite (lblocks_perm s' l (x :: l')) // (lblocks_perm s l (x :: l')) //.
  rewrite !lblocks_cons Ho insert_insert_eq. f_equal. apply lblocks_same.
  intros y Hyl. apply Hy; [rewrite Hp; set_solver + Hyl|]. intros ->. done.
Qed.

Lemma fs_inv_ib s s' F N X A I ti i x :
  fs_inv_at s F N X A I -> ti ∈ F -> h_inode s !! ti = Some i -> x ∈ list_head i ->
  store_step_ib s s' A X x -> ib_off s' x = ib_off s x -> st_inv s' I N A X None ->
  fs_inv s' F N X /\ fs_step s s' F X ti /\ h_inode s' !! ti = Some i /\
  fblocks s' ti = <[ib_off s x := default [] (ib_dat s' x)]> (fblocks s ti).
Proof.
  intros Hat Hti Hi Hx (R1&N1&I1&X1) Ho Hst'. pose proof Hat as (Hst&HF&Hdis).
  destruct (HF ti Hti) as (i0&Hi0&Hok). rewrite Hi in Hi0. injection Hi0 as <-.
  pose proof Hok as (Hlok&Hblk&Hsz).
  assert (Hi' : h_inode s' !! ti = Some i) by (by rewrite N1).
  assert (Hoff : ib_off s' <$> list_head i = ib_off s <$> list_head i).
  { apply list_fmap_ext. intros k y Hk%list_elem_of_lookup_2.
    destruct (decide (y = x)) as [->|Hne]; [done|]. apply ib_off_eq, I1; [by apply Hlok|done]. }
  destruct (fs_inv_intro s s' F N X A I A I ti i) as [Hfs Hfb]; try done.
  { intros y Hy Hyl. split; [done|]. apply I1; [done|]. intros ->. apply Hyl. by rewrite (flist_eq _ _ _ Hi). }
  { intros tj _. by rewrite N1. }
  { split; [|by split]. split; [|rewrite Hoff; by apply Hlok]. intros y Hy.
    destruct (decide (y = x)) as [->|Hne]; [rewrite Ho; by apply Hlok|].
    rewrite (ib_off_eq s s'); [|by apply Hlok]. apply I1; [by apply Hlok|done]. }
  { intros y Hy. left. by rewrite (flist_eq _ _ _ Hi). }
  split_and!; [done|split_and!; try done|done|].
  - intros tj _. by rewrite N1.
  - by rewrite N1.
  - rewrite (fblocks_eq _ _ _ Hi) (fblocks_eq _ _ _ Hi'). apply lblocks_update; [|done|done|].
    + by eapply list_ok_offs.
    + intros y Hy Hne. apply I1; [by apply Hlok|done].
Qed.

(** The content at a block of the list. *)
Lemma fblocks_at s A ti i x :
  h_inode s !! ti = Some i -> list_ok s A (list_head i) -> x ∈ list_head i ->
  fblocks s ti !! ib_off s x = Some (default [] (ib_dat s x)).
Proof.
  intros Hi Hl Hx. rewrite (fblocks_eq _ _ _ Hi). apply lblocks_Some; [by eapply list_ok_offs|]. eauto.
Qed.

Lemma wp_require_iblkref s F N X tii ti o (Q : option Z -> toyfs_sb_info -> Prop) :
  fs_inv s F N X -> ti ∈ F -> tii_of s tii ti -> 0 <= o <= 2 ^ 50 ->
  (forall s', fs_step s s' F X ti -> fs_inv s' F N X -> fblocks s' ti = fblocks s ti ->
     fsize s' ti = fsize s ti -> free_le s' 1 -> Q None s') ->
  (forall x s', fs_step s s' F X ti -> fs_inv s' F N X ->
     fblocks s' ti = <[_off_to_boff o := default (zeros 4096) (fblocks s ti !! _off_to_boff o)]> (fblocks s ti) ->
     fsize s' ti = fsize s ti -> excl s' ti (_off_to_boff o) x -> Q (Some x) s') ->
  wp (_require_iblkref tii o) s Q.
Proof.
  intros Hfs Hti Htii Ho HN HS. destruct (boff_props o Ho) as (Hb&Hdiv&_).
  pose proof Hfs as (A&I&Hat). pose proof Hat as (Hst&HF&Hdis).
  destruct (HF ti Hti) as (i&Hi&Hok). pose proof Hok as (Hlok&_&_).
  rewrite /_require_iblkref /toyfs_iblkrefs_list_of. wp_step. wp_step.
  eapply wp_ti; [exact Htii|]. eapply wp_get_inode; [exact Hi|]. wp_step.
  pose proof (list_ok_recs s A I N X _ Hst Hlok) as Hrecs.
  apply (wp_require_search s A); [|by apply Hlok| |].
  { intros x Hx. destruct (Hrecs x Hx) as (d&o'&?&_). eauto. }
  - intros x Hx Hxo. destruct (Hrecs x Hx) as (d&o'&Hxr&Hxo'&Hreach&Hxd). rewrite Hxo in Hxo'. subst o'.
    assert (HxA : x ∈ A) by (by apply Hlok).
    destruct (reachable_rec s I N A X None d) as (r&Hr&_&_); [done|done|].
    assert (Hb1 : fblocks s ti !! _off_to_boff o = Some (default [] (ib_dat s x))).
    { rewrite -Hxo. by eapply fblocks_at. }
    wp_step. eapply wp_iblkref_dblkref; [exact Hxr|]. wp_step. eapply wp_dblkref_refcnt; [exact Hr|].
    destruct (Z.ltb_spec 1 (refcnt r)) as [Hgt|Hle]; cycle 1.
    { wp_step. apply HS; [apply fs_step_refl|done|by rewrite Hb1 insert_id|done|].
      split; [by rewrite (flist_eq _ _ _ Hi)|]. by exists d, r. }
    eapply (wp_require_cow s I N A X x d _); [done|done|exact Hxr| |].
    + intros s1 (R1&N1&I1&X1) Hfree1 Hst1.
      destruct (fs_inv_ib s s1 F N X A I ti i x) as (Hfs1&Hstep1&Hi1&Hfb1); try done.
      { by split_and!; try done; intros; apply I1. }
      { by apply ib_off_eq, I1. }
      apply HN; [done|done| |by rewrite (fsize_eq _ _ _ Hi) (fsize_eq _ _ _ Hi1)|done].
      rewrite Hfb1. apply insert_id. destruct (I1 x HxA) as [_ ->]. by eapply fblocks_at.
    + intros q rq s1 Hs1 Hx1 Hd1 Hq Hrq Hst1.
      destruct (fs_inv_ib s s1 F N X A I ti i x) as (Hfs1&Hstep1&Hi1&Hfb1); try done.
      { by rewrite /ib_off Hx1 Hxr. }
      apply HS; [done|done| |by rewrite (fsize_eq _ _ _ Hi) (fsize_eq _ _ _ Hi1)|].
      * by rewrite Hfb1 Hd1 Hxo Hb1.
      * split; [by rewrite (flist_eq _ _ _ Hi1)|]. exists q, rq. split_and!; [done..|lia].
  - intros l1 l2 Hl H1 H2.
    assert (Hnone : fblocks s ti !! _off_to_boff o = None).
    { rewrite (fblocks_eq _ _ _ Hi) Hl. apply lblocks_None.
      intros x [Hx|Hx]%elem_of_app; [specialize (H1 x Hx)|specialize (H2 x Hx)]; lia. }
    eapply (wp_require_new s F N X tii ti _ l1 l2); try done.
    + by rewrite (flist_eq _ _ _ Hi).
    + intros x s' ?? Hfb. apply HS; try done. by rewrite Hnone Hfb.
Qed.

(** ** Storing into a block nobody shares *)
Lemma excl_page s F N X ti b x :
  fs_inv s F N X -> ti ∈ F -> excl s ti b x ->
  exists d r dat, h_iblkref s !! x = Some (ToyfsIblkref (Some d) b) /\ h_dblkref s !! d = Some r /\
    0 < toyfs_bn2pmemb (bn r) /\ h_page s !! toyfs_bn2pmemb (bn r) = Some (Pmemb dat) /\
    fblocks s ti !! b = Some dat /\ length dat = 4096%nat.
Proof.
  intros (A&I&Hst&HF&_) Hti (Hx&d&r&Hxr&Hr&_). destruct (HF ti Hti) as (i&Hi&Hlok&_).
  rewrite (flist_eq _ _ _ Hi) in Hx. assert (Hxd : ib_d s x = Some d) by (by rewrite /ib_d Hxr).
  assert (HxA : x ∈ A) by (by apply Hlok).
  destruct (reachable_live s I N A X None d r) as (Hp0&dat&Hdat&Hl); [done|right; eauto|done|].
  exists d, r, dat. split_and!; try done.
  assert (b = ib_off s x) as -> by (by rewrite /ib_off Hxr).
  rewrite (fblocks_at s A ti i x) //. by rewrite (ib_dat_eq s x d r (toyfs_bn2pmemb (bn r)) dat).
Qed.

Lemma fs_inv_store s F N X ti b x d r dat :
  fs_inv s F N X -> ti ∈ F -> excl s ti b x ->
  h_iblkref s !! x = Some (ToyfsIblkref (Some d) b) -> h_dblkref s !! d = Some r ->
  length dat = 4096%nat ->
  let s' := upd_h_page (<[toyfs_bn2pmemb (bn r) := Pmemb dat]>) s in
  fs_inv s' F N X /\ fs_step s s' F X ti /\ fblocks s' ti = <[b := dat]> (fblocks s ti) /\
  fsize s' ti = fsize s ti /\ excl s' ti b x.
Proof.
  intros (A&I&Hat) Hti Hex Hxr Hr Hl s'. pose proof Hat as (Hst&HF&_).
  destruct Hex as (Hx&d'&r'&Hxr'&Hr'&Hn). rewrite Hxr in Hxr'. injection Hxr' as <-.
  rewrite Hr in Hr'. injection Hr' as <-.
  destruct (HF ti Hti) as (i&Hi&Hlok&_). pose proof Hx as Hx'. rewrite (flist_eq _ _ _ Hi) in Hx'.
  assert (HxA : x ∈ A) by (by apply Hlok).
  assert (Hxd : ib_d s x = Some d) by (by rewrite /ib_d Hxr).
  destruct (st_inv_store s I N A X None d r dat) as (Hst1&Hoth&Hsame&HX1); [done|right; eauto|done|done|].
  assert (Hb : ib_off s x = b) by (by rewrite /ib_off Hxr).
  destruct (fs_inv_ib s s' F N X A I ti i x) as (Hfs1&Hstep1&Hi1&Hfb1); try done.
  { split_and!; [done..| |done]. intros j Hj Hji. split; [done|]. apply Hoth; [done|].
    by eapply (excl_unique s I N A X None d r x). }
  split_and!; [done|done| |done|].
  - rewrite Hfb1 Hb. f_equal. by rewrite (Hsame x Hxd).
  - split; [done|]. by exists d, r.
Qed.

(** ** Looking blocks up *)
Lemma wp_find_iblkref s p l (Q : option Z -> toyfs_sb_info -> Prop) :
  (forall x, x ∈ l -> exists r, h_iblkref s !! x = Some r) ->
  (forall l1 x l2, l = l1 ++ x :: l2 -> p (ib_off s x) = true ->
     (forall y, y ∈ l1 -> p (ib_off s y) = false) -> Q (Some x) s) ->
  ((forall y, y ∈ l -> p (ib_off s y) = false) -> Q None s) ->
  wp (find_iblkref p l) s Q.
Proof.
  revert Q. induction l as [|x l IH]; intros Q Hex HS HN; cbn [find_iblkref].
  { wp_step. apply HN. by intros y ?%elem_of_nil. }
  destruct (Hex x) as (r&Hr); [set_solver +|]. wp_step. eapply wp_iblkref_off; [exact Hr|].
  assert (Ho : off r = ib_off s x) by (by rewrite /ib_off Hr). rewrite Ho.
  destruct (p (ib_off s x)) eqn:E.
  - wp_step. apply (HS [] x l); [done..|]. by intros y ?%elem_of_nil.
  - apply IH; [set_solver + Hex| |].
    + intros l1 y l2 -> Hy Hl1. apply (HS (x :: l1) y l2); [done..|].
      intros z [->|Hz]%elem_of_cons; auto.
    + intros Hl. apply HN. intros y [->|Hy]%elem_of_cons; auto.
Qed.

Lemma wp_fetch_iblkref s F N X tii ti o (Q : option Z -> toyfs_sb_info -> Prop) :
  fs_inv s F N X -> ti ∈ F -> tii_of s tii ti ->
  (fblocks s ti !! _off_to_boff o = None -> Q None s) ->
  (forall x d, x ∈ flist s ti -> h_iblkref s !! x = Some (ToyfsIblkref (Some d) (_off_to_boff o)) ->
     fblocks s ti !! _off_to_boff o = Some (default [] (ib_dat s x)) -> Q (Some x) s) ->
  wp (_fetch_iblkref tii o) s Q.
Proof.
  intros (A&I&Hst&HF&_) Hti Htii HN HS. destruct (HF ti Hti) as (i&Hi&Hlok&_).
  rewrite /_fetch_iblkref /toyfs_iblkrefs_list_of. wp_step. wp_step.
  eapply wp_ti; [exact Htii|]. eapply wp_get_inode; [exact Hi|].
  pose proof (list_ok_recs s A I N X _ Hst Hlok) as Hrecs.
  apply wp_find_iblkref.
  - intros x Hx. destruct (Hrecs x Hx) as (d&o'&?&_). eauto.
  - intros l1 x l2 Hl Hx%Z.eqb_eq _. assert (Hxl : x ∈ list_head i) by (rewrite Hl; set_solver +).
    destruct (Hrecs x Hxl) as (d&o'&Hxr&Ho'&_). apply (HS x d).
    + by rewrite (flist_eq _ _ _ Hi).
    + by rewrite Hxr -Ho' Hx.
    + rewrite -Hx. by eapply fblocks_at.
  - intros Hl. apply HN. rewrite (fblocks_eq _ _ _ Hi). apply lblocks_None.
    intros y Hy. by apply Z.eqb_neq, Hl.
Qed.

Lemma wp_fetch_pmemb s F N X tii ti o (Q : Z -> toyfs_sb_info -> Prop) :
  fs_inv s F N X -> ti ∈ F -> tii_of s tii ti ->
  (fblocks s ti !! _off_to_boff o = None -> Q 0 s) ->
  (forall p dat, 0 < p -> h_page s !! p = Some (Pmemb dat) ->
     fblocks s ti !! _off_to_boff o = Some dat -> length dat = 4096%nat -> Q p s) ->
  wp (_fetch_pmemb_by_offset tii o) s Q.
Proof.
  intros Hfs Hti Htii HN HS. rewrite /_fetch_pmemb_by_offset. wp_step.
  eapply (wp_fetch_iblkref s F N X); [done..| |].
  - intros H1. wp_step. by apply HN.
  - intros x d Hx Hxr Hfb. pose proof Hfs as (A&I&Hst&HF&_). destruct (HF ti Hti) as (i&Hi&Hlok&_).
    rewrite (flist_eq _ _ _ Hi) in Hx. assert (HxA : x ∈ A) by (by apply Hlok).
    assert (Hxd : ib_d s x = Some d) by (by rewrite /ib_d Hxr).
    destruct (reachable_rec s I N A X None d) as (r&Hr&_&_); [done|right; eauto|].
    destruct (reachable_live s I N A X None d r) as (Hp0&dat&Hdat&Hl); [done|right; eauto|done|].
    wp_step. eapply wp_iblkref_dblkref; [exact Hxr|]. wp_step. eapply wp_dblkref_bn; [exact Hr|].
    wp_step. apply (HS _ dat); [done..| |done]. by rewrite Hfb (ib_dat_eq s x d r (toyfs_bn2pmemb (bn r)) dat).
Qed.

(** ** Dropping a block *)
Lemma list_ok_sublist s A l l' : sublist l' l -> list_ok s A l -> list_ok s A l'.
Proof.
  intros Hs [Hl Hsort]. split.
  - intros x Hx. apply Hl. by eapply elem_of_sublist.
  - clear Hl. induction Hs as [|x l1 l2 Hs IH|x l1 l2 Hs IH]; [done| |].
    + rewrite fmap_cons in Hsort |- *. apply StronglySorted_cons in Hsort as [Hx Hsort].
      apply StronglySorted_cons. split; [|by apply IH]. rewrite Forall_forall in Hx. apply Forall_forall.
      intros o (y&->&Hy)%list_elem_of_fmap. apply Hx, list_elem_of_fmap. exists y.
      split; [done|]. by eapply elem_of_sublist.
    + rewrite fmap_cons in Hsort. apply StronglySorted_cons in Hsort as [_ Hsort]. by apply IH.
Qed.

Lemma wp_drop_iblkref s F N X tii ti x (Q : unit -> toyfs_sb_info -> Prop) :
  fs_inv s F N X -> ti ∈ F -> tii_of s tii ti -> x ∈ flist s ti ->
  (forall s', fs_step s s' F X ti -> fs_inv s' F N X ->
     flist s' ti = remove1 x (flist s ti) ->
     (forall y, y ∈ remove1 x (flist s ti) -> h_iblkref s' !! y = h_iblkref s !! y) ->
     fblocks s' ti = delete (ib_off s x) (fblocks s ti) -> fsize s' ti = fsize s ti -> Q tt s') ->
  wp (_drop_iblkref tii x) s Q.
Proof.
  intros (A&I&Hat) Hti Htii Hx HQ. pose proof Hat as (Hst&HF&_).
  destruct (HF ti Hti) as (i&Hi&Hok). pose proof Hok as (Hlok&Hblk&Hsz).
  rewrite (flist_eq _ _ _ Hi) in Hx HQ. pose proof Htii as (t&Ht&Htt&Htz).
  assert (HxA : x ∈ A) by (by apply Hlok).
  pose proof (list_ok_NoDup _ _ _ Hlok) as Hnd. pose proof (list_ok_offs _ _ _ Hlok) as Hndo.
  pose proof (remove1_perm x _ Hx) as Hperm.
  assert (Hxr : x ∉ remove1 x (list_head i)) by (rewrite Hperm in Hnd; apply NoDup_cons in Hnd; tauto).
  pose proof (Permutation_length Hperm) as Hlen. simpl in Hlen.
  rewrite /_drop_iblkref /set_iblkrefs_list. wp_step. wp_step. eapply wp_ti; [exact Htii|].
  eapply wp_set_inode; [exact Hi|]. fs_simpl.
  eapply (wp_free_iblkref _ I N A X); [by apply st_inv_upd_inode|exact Ht|exact Htz
    |by fs_simpl; rewrite lookup_insert_eq|fs_simpl; lia|done|].
  intros s1 (R1&N1&I1&X1) Hst1. fs_simpl in N1. rewrite insert_insert_eq in N1.
  set (i' := upd_i_blocks _ _) in N1.
  assert (Hi' : h_inode s1 !! ti = Some i') by (by rewrite N1 lookup_insert_eq).
  assert (Hsub : forall y, y ∈ remove1 x (list_head i) -> y ∈ A ∖ {[x]}).
  { intros y Hy. apply elem_of_difference. split; [|set_solver + Hy Hxr].
    apply Hlok. rewrite Hperm. set_solver + Hy. }
  assert (Hlok' : list_ok s1 (A ∖ {[x]}) (remove1 x (list_head i))).
  { eapply (list_ok_same s); [| |eapply list_ok_sublist; [apply remove1_sublist|exact Hlok]];
      intros y Hy; [by apply I1, Hsub|by intros _; apply Hsub]. }
  destruct (fs_inv_intro s s1 F N X A I (A ∖ {[x]}) (I ∖ {[x]}) ti i') as [Hfs Hfb]; try done.
  { intros y Hy Hyl. rewrite (flist_eq _ _ _ Hi) in Hyl.
    assert (y ∈ A ∖ {[x]}) by (set_solver + Hy Hyl Hx). split; [done|]. by apply I1. }
  { intros tj Hne. by rewrite N1 lookup_insert_ne. }
  { split_and!; [done| |by apply Hsz..]. subst i'. fs_simpl.
    apply list_ok_length in Hlok. rewrite Hblk u64_small; lia. }
  { intros y Hy. left. rewrite (flist_eq _ _ _ Hi) Hperm. set_solver + Hy. }
  apply HQ; [split_and!|done|by rewrite (flist_eq _ _ _ Hi')| | |].
  - done.
  - intros tj Hne. by rewrite N1 lookup_insert_ne.
  - by rewrite Hi' Hi.
  - done.
  - done.
  - intros y Hy. by apply I1, Hsub.
  - rewrite (fblocks_eq _ _ _ Hi) (fblocks_eq _ _ _ Hi').
    change (list_head i') with (remove1 x (list_head i)).
    rewrite (lblocks_perm s (list_head i) (x :: remove1 x (list_head i))) // lblocks_cons.
    rewrite delete_insert_id.
    + apply lblocks_None. intros y Hy Heq. rewrite Hperm fmap_cons in Hndo.
      apply NoDup_cons in Hndo as [Hn _]. apply Hn. rewrite -Heq. by apply list_elem_of_fmap_2.
    + apply lblocks_same. intros y Hy. by apply I1, Hsub.
  - by rewrite (fsize_eq _ _ _ Hi) (fsize_eq _ _ _ Hi').
Qed.

(** ** A page of its own for a block *)
Lemma wp_unique_file s F N X ti b x d (Q : Z -> toyfs_sb_info -> Prop) :
  fs_inv s F N X -> ti ∈ F -> x ∈ flist s ti -> h_iblkref s !! x = Some (ToyfsIblkref (Some d) b) ->
  (forall s', fs_step s s' F X ti -> fs_inv s' F N X -> fblocks s' ti = fblocks s ti ->
     fsize s' ti = fsize s ti -> free_le s' 1 -> Q 0 s') ->
  (forall s' q r dat, fs_step s s' F X ti -> fs_inv s' F N X -> fblocks s' ti = fblocks s ti ->
     fsize s' ti = fsize s ti -> excl s' ti b x ->
     h_iblkref s' !! x = Some (ToyfsIblkref (Some q) b) -> h_dblkref s' !! q = Some r ->
     0 < toyfs_bn2pmemb (bn r) -> h_page s' !! toyfs_bn2pmemb (bn r) = Some (Pmemb dat) ->
     fblocks s' ti !! b = Some dat -> length dat = 4096%nat -> Q (toyfs_bn2pmemb (bn r)) s') ->
  wp (_unique_pmemb x) s Q.
Proof.
  intros (A&I&Hat) Hti Hx Hxr HN HS. pose proof Hat as (Hst&HF&_). destruct (HF ti Hti) as (i&Hi&Hok).
  pose proof Hok as (Hlok&_&_). pose proof Hx as Hx'. rewrite (flist_eq _ _ _ Hi) in Hx'.
  assert (HxA : x ∈ A) by (by apply Hlok). assert (Hxd : ib_d s x = Some d) by (by rewrite /ib_d Hxr).
  assert (Hb : ib_off s x = b) by (by rewrite /ib_off Hxr).
  destruct (reachable_rec s I N A X None d) as (r&Hr&_&_); [done|right; eauto|].
  eapply (wp_unique_pmemb s I N A X x d b r); [done|done|exact Hxr|exact Hr| |].
  - intros s1 (R1&N1&I1&X1) Hfree1 Hst1.
    destruct (fs_inv_ib s s1 F N X A I ti i x) as (Hfs1&Hstep1&Hi1&Hfb1); try done.
    { by split_and!; try done; intros; apply I1. }
    { by apply ib_off_eq, I1. }
    apply HN; [done|done| |by rewrite (fsize_eq _ _ _ Hi) (fsize_eq _ _ _ Hi1)|done].
    rewrite Hfb1. apply insert_id. destruct (I1 x HxA) as [_ ->]. by eapply fblocks_at.
  - intros q rq s1 Hs1 Hx1 Hd1 Hq Hrq Hst1.
    destruct (fs_inv_ib s s1 F N X A I ti i x) as (Hfs1&Hstep1&Hi1&Hfb1); try done.
    { by rewrite /ib_off Hx1 Hxr. }
    assert (Hfb : fblocks s1 ti = fblocks s ti).
    { rewrite Hfb1 Hd1. apply insert_id. by eapply fblocks_at. }
    assert (Hex : excl s1 ti b x).
    { split; [by rewrite (flist_eq _ _ _ Hi1)|]. by exists q, rq. }
    destruct (excl_page s1 F N X ti b x) as (q'&r'&dat&Hx1'&Hr'&Hp0&Hpg&Hdat&Hl); [done..|].
    rewrite Hx1 in Hx1'. injection Hx1' as <-. rewrite Hq in Hr'. injection Hr' as <-.
    apply (HS s1 q rq dat); try done. by rewrite (fsize_eq _ _ _ Hi) (fsize_eq _ _ _ Hi1).
Qed.
End block_ops.
