(* ===== verification/FileOps.v ===== *)
(** * Reading, writing, truncating and cloning files, byte by byte

    [bbyte B o] is the byte at offset [o] of a file whose blocks are [B]: a hole
    reads as zero. *)

From S2P Require Import Prelude CList State Pool File FileInv FileSpec.

Definition bbyte (B : gmap Z (list Z)) (o : Z) : Z :=
  match B !! (PAGE_SIZE * (o / PAGE_SIZE)) with
  | Some dat => default 0 (dat !! Z.to_nat (o mod PAGE_SIZE))
  | None => 0
  end.
(** The [n] bytes from [o]. *)
Definition bbytes (B : gmap Z (list Z)) (o : Z) (n : nat) : list Z :=
  (fun k => bbyte B (o + Z.of_nat k)) <$> seq 0 n.

(** ** Offsets *)
Lemma boff_div o : 0 <= o -> _off_to_boff o = PAGE_SIZE * (o / PAGE_SIZE).
Proof. intros Ho. rewrite /_off_to_boff Z.quot_div_nonneg; lia. Qed.
Lemma poff_mod o : 0 <= o -> _off_in_page o = o mod PAGE_SIZE.
Proof. intros Ho. rewrite /_off_in_page Z.rem_mod_nonneg; lia. Qed.
Lemma next_page_div o : 0 <= o -> _next_page o = PAGE_SIZE * (o / PAGE_SIZE) + PAGE_SIZE.
Proof.
  intros Ho. rewrite /_next_page Z.quot_div_nonneg; [lia..|].
  replace (o + PAGE_SIZE) with (o + 1 * PAGE_SIZE) by lia. rewrite Z.div_add; lia.
Qed.
(** The decomposition every proof about a page loop starts from. *)
Lemma page_split o : 0 <= o ->
  exists q r, 0 <= q /\ 0 <= r < PAGE_SIZE /\ o = PAGE_SIZE * q + r /\
    _off_to_boff o = PAGE_SIZE * q /\ _off_in_page o = r /\ _next_page o = PAGE_SIZE * q + PAGE_SIZE.
Proof.
  intros Ho. exists (o / PAGE_SIZE), (o mod PAGE_SIZE).
  rewrite boff_div // poff_mod // next_page_div //.
  pose proof (Z.div_mod o PAGE_SIZE). pose proof (Z.mod_pos_bound o PAGE_SIZE).
  pose proof (Z.div_pos o PAGE_SIZE). split_and!; lia.
Qed.
Lemma nbytes_eq o nxt e :
  o <= nxt -> o <= e < 2 ^ 63 -> _nbytes_in_range o nxt e = Z.min nxt e - o \/ o < 0.
Proof.
  intros Hn He. destruct (Z.ltb_spec o 0); [by right|left].
  rewrite /_nbytes_in_range. destruct (Z.ltb_spec nxt e); rewrite u64_small; lia.
Qed.

(** ** Bytes of blocks *)
Lemma splice_lookup dat o src k :
  (o + length src <= length dat)%nat ->
  splice dat (Z.of_nat o) src !! k =
    if decide (k < o)%nat then dat !! k
    else if decide (k < o + length src)%nat then src !! (k - o)%nat else dat !! k.
Proof.
  intros Hl. rewrite /splice Nat2Z.id. case_decide.
  - rewrite lookup_app_l ?lookup_take_lt //. rewrite length_take. lia.
  - rewrite lookup_app_r; rewrite length_take; [lia|]. rewrite Nat.min_l; [lia|]. case_decide.
    + rewrite lookup_app_l //. lia.
    + rewrite lookup_app_r; [lia|]. rewrite lookup_drop. f_equal. lia.
Qed.

Lemma bbyte_split B q r : 0 <= r < PAGE_SIZE ->
  bbyte B (PAGE_SIZE * q + r) =
  match B !! (PAGE_SIZE * q) with Some dat => default 0 (dat !! Z.to_nat r) | None => 0 end.
Proof.
  intros Hr. rewrite /bbyte.
  replace ((PAGE_SIZE * q + r) / PAGE_SIZE) with q by (rewrite Z.add_comm Z.mul_comm Z.div_add; [lia|]; rewrite Z.div_small; lia).
  replace ((PAGE_SIZE * q + r) mod PAGE_SIZE) with r; [done|].
  rewrite Z.add_comm Z.mul_comm Z_mod_plus_full Z.mod_small; lia.
Qed.

Lemma zeros_lookup n k : default 0 (zeros n !! k) = 0.
Proof. rewrite /zeros. destruct (replicate n 0 !! k) eqn:E; [|done]. by apply lookup_replicate in E as [-> _]. Qed.

(** Materialising a hole does not change any byte. *)
Lemma bbyte_materialise B b o :
  bbyte (<[b := default (zeros 4096) (B !! b)]> B) o = bbyte B o.
Proof.
  rewrite /bbyte lookup_insert. case_decide as E; [|done]. subst b.
  destruct (B !! _); simpl; [done|]. by rewrite zeros_lookup.
Qed.

(** Replacing one block by a spliced copy changes the bytes of the splice only. *)
Lemma bbyte_splice B q dat p src o :
  length dat = 4096%nat -> B !! (PAGE_SIZE * q) = Some dat ->
  0 <= p -> p + Z.of_nat (length src) <= PAGE_SIZE ->
  bbyte (<[PAGE_SIZE * q := splice dat p src]> B) o =
    if decide (PAGE_SIZE * q + p <= o < PAGE_SIZE * q + p + Z.of_nat (length src))
    then default 0 (src !! Z.to_nat (o - (PAGE_SIZE * q + p))) else bbyte B o.
Proof.
  intros Hl HB Hp Hps. rewrite /bbyte lookup_insert.
  pose proof (Z.div_mod o PAGE_SIZE ltac:(lia)) as Hdm. pose proof (Z.mod_pos_bound o PAGE_SIZE ltac:(lia)).
  destruct (decide (PAGE_SIZE * q = PAGE_SIZE * (o / PAGE_SIZE))) as [E|Hne]; cycle 1.
  { rewrite decide_False //. intros Hr. apply Hne. assert (q = o / PAGE_SIZE) as <-; [|done]. lia. }
  assert (q = o / PAGE_SIZE) as -> by lia. rewrite HB.
  rewrite -(Z2Nat.id p) // splice_lookup; [lia|]. rewrite Z2Nat.id //.
  repeat case_decide; try lia; try done. do 2 f_equal. lia.
Qed.

Section loops.
Context `{MdLaws}.
Implicit Types (F N X : gset Z).

(** The number of pages a loop still has to visit is bounded by its fuel. *)
Definition fuel_ok (fuel : nat) (o e : Z) : Prop :=
  (0 < fuel)%nat /\ (o < e -> e - PAGE_SIZE * (o / PAGE_SIZE) <= PAGE_SIZE * (Z.of_nat fuel - 1)).
Lemma page_fuel_ok o e : 0 <= o -> fuel_ok (page_fuel o e) o e.
Proof.
  intros Ho. rewrite /fuel_ok /page_fuel. split; [lia|]. intros Hlt.
  pose proof (Z.div_mod o PAGE_SIZE ltac:(lia)). pose proof (Z.mod_pos_bound o PAGE_SIZE ltac:(lia)).
  pose proof (Z.div_mod (e - o) PAGE_SIZE ltac:(lia)). pose proof (Z.mod_pos_bound (e - o) PAGE_SIZE ltac:(lia)).
  assert (0 <= (e - o) / PAGE_SIZE) by (apply Z.div_pos; lia). lia.
Qed.
Lemma fuel_ok_next k q r e :
  0 <= r < PAGE_SIZE -> PAGE_SIZE * q + r < e -> fuel_ok (S k) (PAGE_SIZE * q + r) e ->
  fuel_ok k (PAGE_SIZE * q + PAGE_SIZE) e.
Proof.
  intros Hr Hlt [_ Hf]. specialize (Hf Hlt).
  assert (E : (PAGE_SIZE * q + r) / PAGE_SIZE = q).
  { rewrite Z.add_comm Z.mul_comm Z.div_add; [lia|]. rewrite Z.div_small; lia. }
  rewrite E in Hf. split; [lia|]. intros _.
  replace (PAGE_SIZE * q + PAGE_SIZE) with ((q + 1) * PAGE_SIZE) by lia. rewrite Z.div_mul; lia.
Qed.

(** The length of the piece a page loop handles at [o]. *)
Lemma piece_len q r e :
  0 <= q -> 0 <= r < PAGE_SIZE -> PAGE_SIZE * q + r < e < 2 ^ 63 ->
  let n := _nbytes_in_range (PAGE_SIZE * q + r) (PAGE_SIZE * q + PAGE_SIZE) e in
  n = Z.min (PAGE_SIZE * q + PAGE_SIZE) e - (PAGE_SIZE * q + r) /\ 0 < n /\ r + n <= PAGE_SIZE.
Proof.
  intros Hq Hr He. cbv zeta. rewrite /_nbytes_in_range.
  destruct (Z.ltb_spec (PAGE_SIZE * q + PAGE_SIZE) e); rewrite u64_small; lia.
Qed.

(** What a partial update of the bytes in [o, e) keeps. *)
Definition outside (B B' : gmap Z (list Z)) (o e : Z) : Prop :=
  forall k, k < o \/ e <= k -> bbyte B' k = bbyte B k.

(** ** The write loop *)
Lemma wp_write_loop F N X tii ti e : forall fuel buf o c s (Q : option Z -> toyfs_sb_info -> Prop),
  fs_inv s F N X -> ti ∈ F -> tii_of s tii ti -> 0 <= o -> e <= 2 ^ 50 -> fuel_ok fuel o e ->
  e - o <= Z.of_nat (length buf) ->
  (forall s', fs_step s s' F X ti -> fs_inv s' F N X -> fsize s' ti = fsize s ti ->
     outside (fblocks s ti) (fblocks s' ti) o e -> free_le s' 1 -> Q None s') ->
  (forall s', fs_step s s' F X ti -> fs_inv s' F N X -> fsize s' ti = fsize s ti ->
     (forall k, bbyte (fblocks s' ti) k =
        if decide (o <= k < e) then default 0 (buf !! Z.to_nat (k - o)) else bbyte (fblocks s ti) k) ->
     Q (Some (c + Z.max 0 (e - o))) s') ->
  wp (_write_loop fuel tii buf o e c) s Q.
Proof.
  induction fuel as [|fuel IH]; intros buf o c s Q Hfs Hti Htii Ho He Hfuel Hbuf HN HS; [by destruct Hfuel; lia|].
  cbn [_write_loop]. destruct (Z.ltb_spec o e) as [Hlt|Hge]; cycle 1.
  { wp_step. replace c with (c + Z.max 0 (e - o)) by lia. apply HS; [apply fs_step_refl|done|done|].
    intros k. rewrite decide_False //. lia. }
  destruct (page_split o Ho) as (q&r&Hq&Hr&Eo&Hbo&Hpo&Hno). rewrite Hpo Hno.
  subst o. destruct (piece_len q r e) as (Hn&Hn0&Hrn); [lia..|]. set (n := _nbytes_in_range _ _ _) in *.
  wp_step. apply (wp_require_iblkref s F N X tii ti); [done|done|done|lia| |].
  { intros s1 Hs1 Hfs1 Hfb1 Hsz1 Hfree1. wp_step. apply HN; try done. intros k _. by rewrite Hfb1. }
  rewrite Hbo. intros x s1 Hs1 Hfs1 Hfb1 Hsz1 Hex1.
  destruct (excl_page s1 F N X ti (PAGE_SIZE * q) x) as (d&rr&dat&Hxr&Hrr&Hp0&Hpg&Hdat&Hl); [done..|].
  wp_step. eapply wp_iblkref_dblkref; [exact Hxr|]. wp_step. eapply wp_dblkref_bn; [exact Hrr|].
  wp_step. eapply wp_copy_in; [exact Hpg|lia..|].
  assert (Hlt' : length (take (Z.to_nat n) buf) = Z.to_nat n) by (rewrite length_take; lia).
  destruct (fs_inv_store s1 F N X ti (PAGE_SIZE * q) x d rr (splice dat r (take (Z.to_nat n) buf)))
    as (Hfs2&Hs2&Hfb2&Hsz2&_); [done..| |].
  { rewrite splice_length; lia. }
  set (s2 := upd_h_page _ s1) in *.
  assert (Hstep : fs_step s s2 F X ti) by (by eapply fs_step_trans).
  assert (Hb2 : forall k, bbyte (fblocks s2 ti) k =
    if decide (PAGE_SIZE * q + r <= k < PAGE_SIZE * q + r + n)
    then default 0 (buf !! Z.to_nat (k - (PAGE_SIZE * q + r))) else bbyte (fblocks s ti) k).
  { intros k. rewrite Hfb2 (bbyte_splice _ q dat) //; [lia|lia|]. rewrite Hlt' Z2Nat.id; [lia|].
    rewrite Hfb1 bbyte_materialise. case_decide; [|done]. rewrite lookup_take_lt //. lia. }
  apply (IH (drop (Z.to_nat n) buf) _ _ s2); try done; try lia.
  - by eapply fs_step_tii.
  - by eapply fuel_ok_next.
  - rewrite length_drop. lia.
  - intros s3 Hs3 Hfs3 Hsz3 Hout Hfree3. apply HN; [by eapply fs_step_trans|done|congruence| |done].
    intros k Hk. rewrite Hout; [lia|]. rewrite Hb2 decide_False //. lia.
  - intros s3 Hs3 Hfs3 Hsz3 Hb3.
    replace (c + n + Z.max 0 (e - (PAGE_SIZE * q + PAGE_SIZE)))
      with (c + Z.max 0 (e - (PAGE_SIZE * q + r))) by lia.
    apply HS; [by eapply fs_step_trans|done|congruence|]. intros k. rewrite Hb3 Hb2.
    repeat case_decide; try lia; try done. rewrite lookup_drop. do 2 f_equal. lia.
Qed.

(** ** The read loop *)
Lemma wp_copy_out s p dat o len (Q : list Z -> toyfs_sb_info -> Prop) :
  h_page s !! p = Some (Pmemb dat) -> 0 <= o -> 0 <= len -> o + len <= PAGE_SIZE ->
  Q (take (Z.to_nat len) (drop (Z.to_nat o) dat)) s -> wp (_copy_out p o len) s Q.
Proof.
  intros Hp Ho Hlen Hol HQ. rewrite /_copy_out.
  wp_step. wp_step; [by apply Z.leb_le; lia|].
  wp_step. wp_step; [apply Z.leb_le; rewrite (u64_small o) ?u64_small; lia|].
  wp_step. eapply wp_load_pmemb; [exact Hp|]. by wp_step.
Qed.

Lemma bbytes_app B o n m : 0 <= n -> bbytes B o (Z.to_nat n) ++ bbytes B (o + n) m = bbytes B o (Z.to_nat n + m).
Proof.
  intros Hn. rewrite /bbytes seq_app fmap_app. f_equal.
  assert (seq (0 + Z.to_nat n) m = Nat.add (Z.to_nat n) <$> seq 0 m) as ->
    by (rewrite fmap_add_seq; f_equal; lia).
  rewrite -list_fmap_compose. apply list_fmap_ext. intros k x _. simpl. f_equal. lia.
Qed.
(** The piece of a page is the bytes at its place. *)
Lemma bbytes_piece B q r n dat :
  0 <= r -> 0 <= n -> r + n <= PAGE_SIZE -> length dat = 4096%nat -> B !! (PAGE_SIZE * q) = Some dat ->
  take (Z.to_nat n) (drop (Z.to_nat r) dat) = bbytes B (PAGE_SIZE * q + r) (Z.to_nat n).
Proof.
  intros Hr Hn Hrn Hl HB. apply list_eq. intros k. rewrite /bbytes list_lookup_fmap.
  destruct (decide (k < Z.to_nat n)%nat) as [Hk|Hk].
  - rewrite lookup_take_lt // lookup_drop lookup_seq_lt //=.
    rewrite -Z.add_assoc bbyte_split; [lia|]. rewrite HB.
    replace (Z.to_nat (r + Z.of_nat k)) with (Z.to_nat r + k)%nat by lia.
    destruct (lookup_lt_is_Some_2 dat (Z.to_nat r + k)) as [v ->]; [lia|done].
  - rewrite !lookup_ge_None_2 //; rewrite ?length_take ?length_seq; lia.
Qed.
Lemma bbytes_hole B q r n :
  0 <= r -> 0 <= n -> r + n <= PAGE_SIZE -> B !! (PAGE_SIZE * q) = None ->
  zeros (Z.to_nat n) = bbytes B (PAGE_SIZE * q + r) (Z.to_nat n).
Proof.
  intros Hr Hn Hrn HB. apply list_eq. intros k. rewrite /bbytes /zeros list_lookup_fmap.
  destruct (decide (k < Z.to_nat n)%nat) as [Hk|Hk].
  - rewrite lookup_replicate_2 // lookup_seq_lt //=. rewrite -Z.add_assoc bbyte_split; [lia|]. by rewrite HB.
  - rewrite !lookup_ge_None_2 //; rewrite ?length_replicate ?length_seq; lia.
Qed.

Lemma wp_read_loop F N X tii ti e s : forall fuel o c (Q : Z * list Z -> toyfs_sb_info -> Prop),
  fs_inv s F N X -> ti ∈ F -> tii_of s tii ti -> 0 <= o -> e < 2 ^ 63 -> fuel_ok fuel o e ->
  Q (c + Z.max 0 (e - o), bbytes (fblocks s ti) o (Z.to_nat (e - o))) s ->
  wp (_read_loop fuel tii o e c) s Q.
Proof.
  induction fuel as [|fuel IH]; intros o c Q Hfs Hti Htii Ho He Hfuel HQ; [by destruct Hfuel; lia|].
  cbn [_read_loop]. destruct (Z.ltb_spec o e) as [Hlt|Hge]; cycle 1.
  { wp_step. replace (Z.to_nat (e - o)) with 0%nat in HQ by lia.
    by replace (c + Z.max 0 (e - o)) with c in HQ by lia. }
  destruct (page_split o Ho) as (q&r&Hq&Hr&Eo&Hbo&Hpo&Hno). rewrite Hpo Hno.
  subst o. destruct (piece_len q r e) as (Hn&Hn0&Hrn); [lia..|]. set (n := _nbytes_in_range _ _ _) in *.
  assert (Hrest : forall buf, buf = bbytes (fblocks s ti) (PAGE_SIZE * q + r) (Z.to_nat n) ->
    wp (r0 ← _read_loop fuel tii (PAGE_SIZE * q + PAGE_SIZE) e (c + n); mret (r0.1, buf ++ r0.2)) s Q).
  { intros buf ->. wp_step. apply IH; try done; [lia|by eapply fuel_ok_next|]. wp_step. cbn [fst snd].
    replace (c + n + Z.max 0 (e - (PAGE_SIZE * q + PAGE_SIZE)))
      with (c + Z.max 0 (e - (PAGE_SIZE * q + r))) by lia.
    destruct (Z.ltb_spec (PAGE_SIZE * q + PAGE_SIZE) e).
    - replace (PAGE_SIZE * q + PAGE_SIZE) with (PAGE_SIZE * q + r + n) by lia.
      rewrite bbytes_app; [lia|]. replace (Z.to_nat n + _)%nat with (Z.to_nat (e - (PAGE_SIZE * q + r))) by lia. done.
    - replace (Z.to_nat (e - (PAGE_SIZE * q + PAGE_SIZE))) with 0%nat by lia.
      replace (Z.to_nat n) with (Z.to_nat (e - (PAGE_SIZE * q + r))) by lia. by rewrite app_nil_r. }
  wp_step. apply (wp_fetch_pmemb s F N X tii ti); [done..| |]; rewrite Hbo.
  - intros HB. wp_step. change (negb (0 =? 0)) with false. cbv iota. wp_step. apply Hrest. by apply bbytes_hole; [lia..|].
  - intros p dat Hp0 Hpg HB Hl. wp_step. rewrite (proj2 (Z.eqb_neq p 0)) /=; [lia|].
    eapply wp_copy_out; [exact Hpg|lia..|]. apply Hrest. by apply bbytes_piece; [lia..| |].
Qed.

(** Setting the size of the file. *)
Lemma fs_inv_set_size s F N X ti i f :
  fs_inv s F N X -> ti ∈ F -> h_inode s !! ti = Some i -> 0 <= f (i_size i) < 2 ^ 63 ->
  let s' := upd_h_inode (<[ti := upd_i_size f i]>) s in
  fs_inv s' F N X /\ fs_step s s' F X ti /\ fblocks s' ti = fblocks s ti /\ fsize s' ti = f (fsize s ti).
Proof.
  intros (A&I&Hat) Hti Hi Hf s'. pose proof Hat as (Hst&HF&_). destruct (HF ti Hti) as (i0&Hi0&Hok).
  rewrite Hi in Hi0. injection Hi0 as <-. destruct Hok as (Hlok&Hblk&Hsz).
  assert (Hi' : h_inode s' !! ti = Some (upd_i_size f i)) by (by rewrite /s'; fs_simpl; rewrite lookup_insert_eq).
  assert (Hino : forall tj, tj <> ti -> h_inode s' !! tj = h_inode s !! tj).
  { intros tj Hne. rewrite /s'; fs_simpl. by rewrite lookup_insert_ne. }
  destruct (fs_inv_intro s s' F N X A I A I ti (upd_i_size f i)) as [Hfs Hfb]; try done.
  { intros x Hx. left. by rewrite (flist_eq _ _ _ Hi). }
  split_and!; [done|split_and!; try done| |].
  - by rewrite Hi' Hi.
  - by rewrite (fblocks_eq _ _ _ Hi) (fblocks_eq _ _ _ Hi').
  - by rewrite (fsize_eq _ _ _ Hi) (fsize_eq _ _ _ Hi').
Qed.

Lemma fs_inv_fsize s F N X ti : fs_inv s F N X -> ti ∈ F -> 
  exists i, h_inode s !! ti = Some i /\ fsize s ti = i_size i /\ 0 <= fsize s ti < 2 ^ 63.
Proof.
  intros (A&I&_&HF&_) Hti. destruct (HF ti Hti) as (i&Hi&_&_&Hsz). exists i.
  by rewrite (fsize_eq _ _ _ Hi).
Qed.

Lemma _max_offset_eq o n sz : 0 <= o -> 0 <= n < 2 ^ 63 -> 0 <= sz < 2 ^ 63 -> _max_offset o n sz = Z.max (o + n) sz.
Proof. intros Ho Hn Hsz. rewrite /_max_offset !s64_small; [lia..|]. destruct (Z.ltb_spec sz (o + n)); lia. Qed.
Lemma _tin_offset_eq o n sz : 0 <= n < 2 ^ 63 -> 0 <= sz < 2 ^ 63 -> _tin_offset o n sz = Z.min (o + n) sz.
Proof. intros Hn Hsz. rewrite /_tin_offset !s64_small; [lia..|]. destruct (Z.ltb_spec (o + n) sz); lia. Qed.

(** ** Argument checks *)
Lemma check_io_0 o n : - 2 ^ 63 <= o < 2 ^ 63 -> 0 <= n < 2 ^ 64 ->
  _check_io o n = 0 <->
  0 <= o <= 2 ^ 50 /\ n <> 0 /\ (o + n <= 2 ^ 50 \/ 2 ^ 64 <= o + n).
Proof.
  intros Ho Hn. rewrite /_check_io /TOYFS_ISIZE_MAX.
  destruct (Z.ltb_spec o 0); [split; [done|lia]|].
  destruct (Z.eqb_spec n 0); [split; [done|lia]|].
  rewrite (u64_small o); [lia|]. destruct (Z.ltb_spec (2 ^ 50) o); [split; [done|lia]|].
  destruct (Z.ltb_spec (2 ^ 50) (u64 (o + n))) as [Hlt|Hle].
  - split; [done|]. intros (_&_&[Hs|Hw]).
    + rewrite u64_small in Hlt; lia.
    + assert (u64 (o + n) = o + n - 2 ^ 64) as E; [|rewrite E in Hlt; lia].
      rewrite /u64. symmetry. apply (Z.mod_unique _ _ 1); lia.
  - split; [intros _|done]. split_and!; [lia..|].
    destruct (Z.lt_ge_cases (o + n) (2 ^ 64)); [left; rewrite u64_small in Hle; lia|by right].
Qed.
Lemma check_rw_0 o n : - 2 ^ 63 <= o < 2 ^ 63 -> 0 <= n < 2 ^ 64 ->
  _check_rw o n = 0 <-> 0 <= o /\ 0 < n <= ZUS_API_MAP_MAX_SIZE /\ o + n <= 2 ^ 50.
Proof.
  intros Ho Hn. pose proof md_map_max. rewrite /_check_rw.
  destruct (Z.ltb_spec ZUS_API_MAP_MAX_SIZE n); [split; [done|lia]|].
  rewrite check_io_0 //. lia.
Qed.

(** The errors of the checks. *)
Lemma check_rw_neg o n : _check_rw o n = 0 \/ _check_rw o n = - EINVAL \/ _check_rw o n = - EFBIG.
Proof. rewrite /_check_rw /_check_io. repeat case_match; auto. Qed.

(** ** The write of a byte range *)
Lemma wp_write F N X s tii ti buf o n (Q : Z -> toyfs_sb_info -> Prop) :
  fs_inv s F N X -> ti ∈ F -> tii_of s tii ti ->
  - 2 ^ 63 <= o < 2 ^ 63 -> 0 <= n < 2 ^ 64 -> n <= Z.of_nat (length buf) ->
  (_check_rw o n <> 0 -> Q (_check_rw o n) s) ->
  (forall s', _check_rw o n = 0 -> fs_step s s' F X ti -> fs_inv s' F N X -> fsize s' ti = fsize s ti ->
     outside (fblocks s ti) (fblocks s' ti) o (o + n) -> free_le s' 1 -> Q (- ENOSPC) s') ->
  (forall s', _check_rw o n = 0 -> fs_step s s' F X ti -> fs_inv s' F N X ->
     fsize s' ti = Z.max (o + n) (fsize s ti) ->
     (forall k, bbyte (fblocks s' ti) k =
        if decide (o <= k < o + n) then default 0 (buf !! Z.to_nat (k - o)) else bbyte (fblocks s ti) k) ->
     Q n s') ->
  wp (_write tii buf o n) s Q.
Proof.
  intros Hfs Hti Htii Ho Hn Hbuf HE HN HS. rewrite /_write.
  destruct (Z.eqb_spec (_check_rw o n) 0) as [Hc|Hc]; cycle 1.
  { cbn [negb]. wp_step. by apply HE. }
  pose proof Hc as Hr. apply check_rw_0 in Hr as (Ho'&Hn'&Hmax); [|done..]. pose proof md_map_max.
  cbn [negb]. cbv iota. rewrite s64_small; [lia|]. wp_step.
  apply (wp_write_loop F N X tii ti); try done; try lia; [by apply page_fuel_ok| |].
  - intros s1 ?????. wp_step. by apply HN.
  - intros s1 Hs1 Hfs1 Hsz1 Hb1. wp_step. eapply wp_ti; [by eapply fs_step_tii|].
    destruct (fs_inv_fsize s1 F N X ti) as (i&Hi&Hisz&Hib); [done..|].
    replace (0 + Z.max 0 (o + n - o)) with n by lia.
    wp_step. eapply wp_set_inode; [exact Hi|]. wp_step.
    assert (Hnew : u64 (_max_offset o n (i_size i)) = Z.max (o + n) (i_size i)).
    { rewrite _max_offset_eq; [lia..|]. rewrite u64_small; lia. }
    destruct (fs_inv_set_size s1 F N X ti i (fun sz => u64 (_max_offset o n sz))) as (Hfs2&Hs2&Hfb2&Hsz2);
      [done..|rewrite Hnew; lia|].
    apply HS; [done|by eapply fs_step_trans|done| |].
    + by rewrite Hsz2 -Hsz1 Hisz Hnew.
    + intros k. by rewrite Hfb2.
Qed.

Lemma wp_read F N X s tii ti o n (Q : Z * list Z -> toyfs_sb_info -> Prop) :
  fs_inv s F N X -> ti ∈ F -> tii_of s tii ti ->
  - 2 ^ 63 <= o < 2 ^ 63 -> 0 <= n < 2 ^ 64 ->
  (_check_rw o n <> 0 -> Q (_check_rw o n, []) s) ->
  (_check_rw o n = 0 -> let c := Z.max 0 (Z.min (o + n) (fsize s ti) - o) in
     Q (c, bbytes (fblocks s ti) o (Z.to_nat c)) s) ->
  wp (_read tii o n) s Q.
Proof.
  intros Hfs Hti Htii Ho Hn HE HS. rewrite /_read.
  destruct (Z.eqb_spec (_check_rw o n) 0) as [Hc|Hc]; cycle 1.
  { cbn [negb]. wp_step. by apply HE. }
  pose proof Hc as Hr. apply check_rw_0 in Hr as (Ho'&Hn'&Hmax); [|done..]. pose proof md_map_max.
  destruct (fs_inv_fsize s F N X ti) as (i&Hi&Hisz&Hib); [done..|].
  cbn [negb]. cbv iota. wp_step. eapply wp_ti; [done|]. wp_step. eapply wp_get_inode; [exact Hi|].
  rewrite _tin_offset_eq -?Hisz; [lia..|].
  apply (wp_read_loop F N X tii ti); try done; [lia|by apply page_fuel_ok|]. cbv zeta in HS.
  replace (Z.to_nat (Z.min (o + n) (fsize s ti) - o)) with
    (Z.to_nat (Z.max 0 (Z.min (o + n) (fsize s ti) - o))) by lia. by apply HS.
Qed.

(** ** Dropping blocks *)
Lemma fs_list_recs s F N X ti x :
  fs_inv s F N X -> ti ∈ F -> x ∈ flist s ti ->
  exists d, h_iblkref s !! x = Some (ToyfsIblkref (Some d) (ib_off s x)).
Proof.
  intros (A&I&Hst&HF&_) Hti Hx. destruct (HF ti Hti) as (i&Hi&Hlok&_). rewrite (flist_eq _ _ _ Hi) in Hx.
  destruct (list_ok_recs s A I N X _ Hst Hlok x Hx) as (d&o&Hr&->&_). eauto.
Qed.
Lemma fs_list_NoDup s F N X ti :
  fs_inv s F N X -> ti ∈ F -> NoDup (flist s ti) /\ NoDup (ib_off s <$> flist s ti).
Proof.
  intros (A&I&Hst&HF&_) Hti. destruct (HF ti Hti) as (i&Hi&Hlok&_). rewrite (flist_eq _ _ _ Hi).
  split; [by eapply list_ok_NoDup|by eapply list_ok_offs].
Qed.

Lemma wp_drop_loop F N X tii ti pos : forall l s (Q : unit -> toyfs_sb_info -> Prop),
  fs_inv s F N X -> ti ∈ F -> tii_of s tii ti -> NoDup l -> (forall x, x ∈ l -> x ∈ flist s ti) ->
  (forall s', fs_step s s' F X ti -> fs_inv s' F N X -> fsize s' ti = fsize s ti ->
     (forall x, x ∈ l -> pos <= ib_off s x -> fblocks s' ti !! ib_off s x = None) ->
     (forall b, (forall x, x ∈ l -> pos <= ib_off s x -> ib_off s x <> b) ->
        fblocks s' ti !! b = fblocks s ti !! b) -> Q tt s') ->
  wp (_drop_loop tii pos l) s Q.
Proof.
  induction l as [|x l IH]; intros s Q Hfs Hti Htii Hnd Hl HQ; cbn [_drop_loop].
  { wp_step. apply HQ; [apply fs_step_refl|done|done|by intros x ?%elem_of_nil|done]. }
  apply NoDup_cons in Hnd as [Hxl Hnd]. assert (Hx : x ∈ flist s ti) by (apply Hl; constructor).
  destruct (fs_list_recs s F N X ti x) as (d&Hxr); [done..|].
  wp_step. eapply wp_iblkref_off; [exact Hxr|]. cbn [off iblkref_of]. wp_step.
  destruct (Z.leb_spec pos (ib_off s x)) as [Hle|Hgt].
  - eapply (wp_drop_iblkref s F N X tii ti); [done..|]. unfold iblkref_of.
    intros s1 Hs1 Hfs1 Hl1 Hr1 Hfb1 Hsz1.
    destruct (fs_list_NoDup s F N X ti) as [Hnds Hndo]; [done..|].
    assert (Hin : forall y, y ∈ l -> y ∈ remove1 x (flist s ti)).
    { intros y Hy. assert (Hyf : y ∈ flist s ti) by (apply Hl; by constructor).
      rewrite (remove1_perm x _ Hx) in Hyf. apply elem_of_cons in Hyf as [->|?]; done. }
    assert (Ho1 : forall y, y ∈ l -> ib_off s1 y = ib_off s y).
    { intros y Hy. by apply ib_off_eq, Hr1, Hin. }
    apply IH; try done; [by eapply fs_step_tii|intros y Hy; rewrite Hl1; by apply Hin|].
    intros s2 Hs2 Hfs2 Hsz2 Hdrop Hkeep.
    apply HQ; [by eapply fs_step_trans|done|congruence| |].
    + intros y [->|Hy]%elem_of_cons Hpos.
      * rewrite Hkeep; [|by rewrite Hfb1 lookup_delete_eq].
        intros y Hy _. rewrite Ho1 //. intros Heq. apply Hxl.
        rewrite (remove1_perm x _ Hx) fmap_cons in Hndo. apply NoDup_cons in Hndo as [Hn _].
        exfalso. apply Hn. rewrite -Heq. by apply list_elem_of_fmap_2, Hin.
      * rewrite -Ho1 //. apply Hdrop; [done|by rewrite Ho1].
    + intros b Hb. rewrite Hkeep.
      * intros y Hy. rewrite Ho1 //. apply Hb. by constructor.
      * rewrite Hfb1 lookup_delete_ne //. apply Hb; [constructor|done].
  - wp_step. apply IH; try done; [intros y Hy; apply Hl; by constructor|].
    intros s2 Hs2 Hfs2 Hsz2 Hdrop Hkeep. apply HQ; try done.
    + intros y [->|Hy]%elem_of_cons Hpos; [lia|by apply Hdrop].
    + intros b Hb. apply Hkeep. intros y Hy. apply Hb. by constructor.
Qed.

(** [_drop_range] drops the blocks that start at or after [pos], rounded up. *)
Definition round_up (pos : Z) : Z := PAGE_SIZE * ((pos + PAGE_SIZE - 1) / PAGE_SIZE).
Lemma round_up_eq pos : 0 <= pos ->
  (if Z.rem pos PAGE_SIZE =? 0 then pos else _next_page pos) = round_up pos.
Proof.
  intros Hp. rewrite /round_up Z.rem_mod_nonneg; [lia..|].
  pose proof (Z.div_mod pos PAGE_SIZE ltac:(lia)). pose proof (Z.mod_pos_bound pos PAGE_SIZE ltac:(lia)).
  destruct (Z.eqb_spec (pos mod PAGE_SIZE) 0).
  - replace (pos + PAGE_SIZE - 1) with (PAGE_SIZE - 1 + pos / PAGE_SIZE * PAGE_SIZE) by lia.
    rewrite Z.div_add; [lia|]. rewrite (Z.div_small (PAGE_SIZE - 1)); lia.
  - rewrite next_page_div //.
    replace (pos + PAGE_SIZE - 1) with (pos mod PAGE_SIZE - 1 + (pos / PAGE_SIZE + 1) * PAGE_SIZE) by lia.
    rewrite Z.div_add; [lia|]. rewrite (Z.div_small (pos mod PAGE_SIZE - 1)); lia.
Qed.
Lemma round_up_props pos : 0 <= pos -> pos <= round_up pos < pos + PAGE_SIZE /\ (PAGE_SIZE | round_up pos).
Proof.
  intros Hp. rewrite /round_up.
  pose proof (Z.div_mod (pos + PAGE_SIZE - 1) PAGE_SIZE ltac:(lia)).
  pose proof (Z.mod_pos_bound (pos + PAGE_SIZE - 1) PAGE_SIZE ltac:(lia)).
  split; [lia|]. exists ((pos + PAGE_SIZE - 1) / PAGE_SIZE). lia.
Qed.

Lemma wp_drop_range s F N X tii ti pos (Q : unit -> toyfs_sb_info -> Prop) :
  fs_inv s F N X -> ti ∈ F -> tii_of s tii ti -> 0 <= pos ->
  (forall s', fs_step s s' F X ti -> fs_inv s' F N X -> fsize s' ti = fsize s ti ->
     (forall b, fblocks s' ti !! b = if decide (round_up pos <= b) then None else fblocks s ti !! b) ->
     Q tt s') ->
  wp (_drop_range tii pos) s Q.
Proof.
  intros Hfs Hti Htii Hpos HQ. rewrite /_drop_range round_up_eq // /toyfs_iblkrefs_list_of.
  destruct (fs_inv_fsize s F N X ti) as (i&Hi&_); [done..|].
  do 2 wp_step. eapply wp_ti; [done|]. eapply wp_get_inode; [exact Hi|].
  destruct (fs_list_NoDup s F N X ti) as [Hnd _]; [done..|]. rewrite (flist_eq _ _ _ Hi) in Hnd.
  apply (wp_drop_loop F N X tii ti); [done..| |].
  { intros x. by rewrite (flist_eq _ _ _ Hi). }
  intros s' Hs Hfs' Hsz Hdrop Hkeep. apply HQ; [done..|]. intros b.
  destruct (fblocks s ti !! b) as [dat|] eqn:Eb.
  - assert (Hndo : NoDup (ib_off s <$> list_head i)).
    { rewrite -(flist_eq _ _ _ Hi). by eapply fs_list_NoDup. }
    pose proof Eb as Ex. rewrite (fblocks_eq _ _ _ Hi) in Ex.
    apply lblocks_Some in Ex as (x&Hx&<-&_); [|done]. case_decide as Hle; [by apply Hdrop|].
    rewrite Hkeep //. intros y Hy Hpy Heq. by rewrite Heq in Hpy.
  - rewrite Hkeep; [|by case_decide].
    intros x Hx _. rewrite (fblocks_eq _ _ _ Hi) in Eb. by eapply lblocks_None in Eb.
Qed.

(** ** Truncate *)
Definition fmode (s : toyfs_sb_info) (ti : Z) : Z := default 0 (i_mode <$> h_inode s !! ti).
Definition is_reg (s : toyfs_sb_info) (ti : Z) : Prop :=
  exists i, h_inode s !! ti = Some i /\ S_ISTYPE S_IFREG (i_mode i) = true.

Lemma fs_step_reg s s' F X ti : fs_step s s' F X ti -> is_reg s ti -> is_reg s' ti.
Proof.
  intros (_&_&M&_) (i&Hi&Hm). rewrite Hi /= in M. destruct (h_inode s' !! ti) as [i'|] eqn:E; [|done].
  exists i'. split; [done|]. apply (inj Some), (f_equal i_mode) in M. cbn in M. by rewrite M.
Qed.

Lemma wp_zero_after s F N X tii ti pos (Q : Z -> toyfs_sb_info -> Prop) :
  fs_inv s F N X -> ti ∈ F -> tii_of s tii ti -> 0 <= pos ->
  (forall s', fs_step s s' F X ti -> fs_inv s' F N X -> fsize s' ti = fsize s ti ->
     (forall k, bbyte (fblocks s' ti) k =
        if decide (pos <= k < round_up pos) then 0 else bbyte (fblocks s ti) k) -> Q 0 s') ->
  (forall s', fs_step s s' F X ti -> fs_inv s' F N X -> fsize s' ti = fsize s ti ->
     fblocks s' ti = fblocks s ti -> free_le s' 1 -> Q (- ENOSPC) s') ->
  wp (_zero_after tii pos) s Q.
Proof.
  intros Hfs Hti Htii Hpos HS HN. rewrite /_zero_after Z.rem_mod_nonneg; [lia..|].
  destruct (page_split pos Hpos) as (q&r&Hq&Hr&Eo&Hbo&Hpo&Hno).
  assert (Hmod : pos mod PAGE_SIZE = r) by (rewrite -poff_mod; lia).
  rewrite Hmod. destruct (Z.eqb_spec r 0) as [Hr0|Hr0].
  { wp_step. apply HS; [apply fs_step_refl|done..|]. intros k. rewrite decide_False //.
    rewrite -round_up_eq // Z.rem_mod_nonneg; [lia..|]. rewrite Hmod Hr0 /=. lia. }
  assert (Hru : round_up pos = PAGE_SIZE * q + PAGE_SIZE).
  { rewrite -round_up_eq // Z.rem_mod_nonneg; [lia..|]. by rewrite Hmod (proj2 (Z.eqb_neq r 0)) // Hno. }
  rewrite Hru in HS. wp_step. eapply (wp_fetch_iblkref s F N X tii ti); [done..| |]; rewrite Hbo.
  - intros HB. wp_step. apply HS; [apply fs_step_refl|done..|]. intros k. case_decide as Hk; [|done].
    replace k with (PAGE_SIZE * q + (k - PAGE_SIZE * q)) by lia. rewrite bbyte_split; [lia|]. by rewrite HB.
  - intros x d Hx Hxr HB. wp_step. eapply (wp_unique_file s F N X ti _ x); [done..| |].
    { intros s1 Hs1 Hfs1 Hfb1 Hsz1 Hfree1. cbn [Z.eqb]. wp_step. by apply HN. }
    intros s1 d1 r1 dat Hs1 Hfs1 Hfb1 Hsz1 Hex1 Hx1 Hr1 Hp0 Hpg Hdat Hl.
    rewrite (proj2 (Z.eqb_neq _ 0)); [lia|]. rewrite Hpo. wp_step.
    eapply wp_assign_zeros; [exact Hpg|lia|rewrite u64_small; lia|rewrite u64_small; lia|]. wp_step.
    rewrite u64_small; [lia|].
    destruct (fs_inv_store s1 F N X ti (PAGE_SIZE * q) x d1 r1 (splice dat r (_fill_zeros (PAGE_SIZE - r))))
      as (Hfs2&Hs2&Hfb2&Hsz2&_); [done..| |].
    { rewrite splice_length; rewrite /_fill_zeros /zeros ?length_replicate; lia. }
    apply HS; [by eapply fs_step_trans|done|congruence|]. intros k.
    rewrite Hfb2 (bbyte_splice _ q dat) // /_fill_zeros /zeros ?length_replicate; [lia|lia|].
    rewrite Z2Nat.id; [lia|]. rewrite Hfb1. case_decide as Hk.
    + rewrite decide_True; [lia|]. by rewrite -/(zeros _) zeros_lookup.
    + rewrite decide_False //. lia.
Qed.

(** The blocks at or after a page boundary are gone. *)
Lemma bbyte_dropped B B' p k :
  (PAGE_SIZE | p) -> (forall b, B' !! b = if decide (p <= b) then None else B !! b) ->
  bbyte B' k = if decide (p <= k) then 0 else bbyte B k.
Proof.
  intros [q ->] HB. rewrite /bbyte HB. pose proof (Z.div_mod k PAGE_SIZE ltac:(lia)).
  pose proof (Z.mod_pos_bound k PAGE_SIZE ltac:(lia)).
  destruct (decide (q * PAGE_SIZE <= k)) as [Hk|Hk].
  - rewrite decide_True //. assert (q <= k / PAGE_SIZE); [|lia]. apply Z.div_le_lower_bound; lia.
  - rewrite decide_False //. lia.
Qed.

Lemma wp_truncate s F N X tii ti size (Q : Z -> toyfs_sb_info -> Prop) :
  fs_inv s F N X -> ti ∈ F -> tii_of s tii ti -> is_reg s ti -> 0 <= size < 2 ^ 63 ->
  (forall s', fs_step s s' F X ti -> fs_inv s' F N X -> fsize s' ti = size ->
     (forall k, bbyte (fblocks s' ti) k =
        if decide (size < fsize s ti /\ size <= k) then 0 else bbyte (fblocks s ti) k) -> Q 0 s') ->
  (forall s', size < fsize s ti -> fs_step s s' F X ti -> fs_inv s' F N X -> fsize s' ti = size ->
     (forall k, k < size -> bbyte (fblocks s' ti) k = bbyte (fblocks s ti) k) ->
     free_le s' 1 -> Q (- ENOSPC) s') ->
  wp (toyfs_truncate tii size) s Q.
Proof.
  intros Hfs Hti Htii (i&Hi&Hreg) Hsize HS HN. rewrite /toyfs_truncate.
  destruct (fs_inv_fsize s F N X ti) as (i0&Hi0&Hisz&Hib); [done..|]. rewrite Hi in Hi0. injection Hi0 as <-.
  wp_step. eapply wp_zi; [done|]. wp_step. eapply wp_get_inode; [exact Hi|].
  assert (S_ISTYPE S_IFDIR (i_mode i) = false) as ->.
  { rewrite /S_ISTYPE /S_IFDIR in Hreg |- *. apply Z.eqb_eq in Hreg. by rewrite Hreg. }
  rewrite Hreg. cbn [negb]. cbv iota. wp_step. eapply wp_get_inode; [exact Hi|]. rewrite -Hisz.
  assert (Hend : forall s1 err, fs_inv s1 F N X -> fs_step s s1 F X ti ->
    (forall s2, fs_step s s2 F X ti -> fs_inv s2 F N X -> fsize s2 ti = size ->
       fblocks s2 ti = fblocks s1 ti -> (free_le s1 1 -> free_le s2 1) -> Q err s2) ->
    wp (set_inode ti (upd_i_size (fun _ => size));; mret err) s1 Q).
  { intros s1 err Hfs1 Hs1 H1. destruct (fs_inv_fsize s1 F N X ti) as (i1&Hi1&_); [done..|].
    wp_step. eapply wp_set_inode; [exact Hi1|]. wp_step.
    destruct (fs_inv_set_size s1 F N X ti i1 (fun _ => size)) as (Hfs2&Hs2&Hfb2&Hsz2); [done..|].
    apply H1; [by eapply fs_step_trans|done..]. }
  wp_step. destruct (Z.ltb_spec size (fsize s ti)) as [Hlt|Hge]; cycle 1.
  { wp_step. apply Hend; [done|apply fs_step_refl|]. intros s2 Hs2 Hfs2 Hsz2 Hfb2 _. apply HS; [done..|].
    intros k. rewrite Hfb2 decide_False //. lia. }
  rewrite s64_small; [lia|]. wp_step.
  apply (wp_drop_range s F N X tii ti); [done..|lia|]. intros s1 Hs1 Hfs1 Hsz1 Hfb1.
  destruct (round_up_props size) as [Hru Hrd]; [lia|].
  apply (wp_zero_after s1 F N X tii ti); [done|done|by eapply fs_step_tii|lia| |].
  - intros s2 Hs2 Hfs2 Hsz2 Hb2. apply Hend; [done|by eapply fs_step_trans|].
    intros s3 Hs3 Hfs3 Hsz3 Hfb3 _. apply HS; [done..|]. intros k.
    rewrite Hfb3 Hb2 (bbyte_dropped _ _ _ k Hrd Hfb1). repeat case_decide; (done || lia).
  - intros s2 Hs2 Hfs2 Hsz2 Hfb2 Hfree2. apply Hend; [done|by eapply fs_step_trans|].
    intros s3 Hs3 Hfs3 Hsz3 Hfb3 Hf. apply HN; [done..| |by apply Hf]. intros k Hk.
    rewrite Hfb3 Hfb2 (bbyte_dropped _ _ _ k Hrd Hfb1) decide_False //. lia.
Qed.
End loops.
