(* ===== verification/FileClone.v ===== *)
(** * Cloning a file: the loop of [_clone_entire_file_range]

    The clone shares every page of its source: each block of the destination is a
    new iblkref to the source's dblkref, whose count grows by one. *)

From stdpp Require Import sorting.
From S2P Require Import Prelude CList State Pool File FileInv FileSpec FileOps.

(** ** Dropping blocks does not raise a reference count *)
Section counts.
Context `{MdApi}.

Definition rc_le (m : Z) (s : toyfs_sb_info) : Prop :=
  forall d r, h_dblkref s !! d = Some r -> refcnt r <= m.

Lemma rc_le_upd m s d r :
  rc_le m s -> refcnt r <= m -> rc_le m (upd_h_dblkref (<[d := r]>) s).
Proof. intros Hs Hr e re. fs_simpl. rewrite lookup_insert. case_decide; [by intros [= <-]|]. apply Hs. Qed.

Lemma keeps_dec {A} m d (k : FS A) :
  keeps (rc_le m) k ->
  keeps (rc_le m) (n ← dblkref_refcnt d; assert (0 <? n);; set_refcnt d Z.pred;; k).
Proof.
  intros Hk s b s' Hs. rewrite /dblkref_refcnt /set_refcnt /mbind /ST_bind /load /update.
  destruct (h_dblkref s !! d) as [r|] eqn:Hr; [|done]. rewrite /mret /ST_ret.
  destruct (Z.ltb_spec 0 (refcnt r)) as [Hlt|]; [|done]. rewrite /assert /mret /ST_ret Hr.
  apply Hk, rc_le_upd; [done|]. rewrite /upd_refcnt. cbn [refcnt]. specialize (Hs d r Hr).
  pose proof (Z.mod_le (Z.pred (refcnt r)) (2 ^ 64)). rewrite /u64. lia.
Qed.
Lemma keeps_decref m d : keeps (rc_le m) (_decref_dblkref d).
Proof.
  rewrite /_decref_dblkref /toyfs_sbi_lock /toyfs_mutex_lock. apply keeps_bind; [keeps|intros _]. apply keeps_dec.
  rewrite /_free_dblkref /dblkref_refcnt /dblkref_bn /toyfs_release_dblkref /_pool_push_dblkref
    /toyfs_release_pmemb /_pool_push_pmemb /_pool_lock /_pool_unlock /toyfs_sbi_lock /toyfs_sbi_unlock
    /toyfs_mutex_lock /toyfs_mutex_unlock.
  keeps. apply keeps_update. intros s v Hs Hv. apply rc_le_upd; [exact Hs|]. exact (Hs d v Hv).
Qed.
Lemma keeps_drop_loop m tii pos l : keeps (rc_le m) (_drop_loop tii pos l).
Proof.
  induction l as [|x l IH]; cbn [_drop_loop]; [keeps|].
  apply keeps_bind; [rewrite /iblkref_off; keeps|intros o].
  apply keeps_bind; [|intros _; exact IH]. destruct (pos <=? o); [|keeps].
  rewrite /_drop_iblkref /set_iblkrefs_list /tii_ti /set_inode.
  apply keeps_bind; [keeps|intros _]. rewrite /_free_iblkref /tii_zi /get_inode /iblkref_dblkref.
  do 4 (apply keeps_bind; [keeps|intros ?]). apply keeps_bind; [apply keeps_decref|intros _].
  rewrite /toyfs_release_iblkref /_pool_push_iblkref /_pool_lock /_pool_unlock /toyfs_mutex_lock
    /toyfs_mutex_unlock /set_inode. keeps.
Qed.
Lemma keeps_drop_range m tii pos : keeps (rc_le m) (_drop_range tii pos).
Proof.
  rewrite /_drop_range /toyfs_iblkrefs_list_of /tii_ti /get_inode.
  apply keeps_bind; [keeps|intros l]. apply keeps_drop_loop.
Qed.
End counts.

Section clone.
Context `{MdLaws}.
Implicit Types (F N X A I P D : gset Z).

Lemma store_inv_incr s s' P D A d r :
  store_inv s P D A None -> h_dblkref s !! d = Some r -> d ∈ D -> refcnt r + 1 < 2 ^ 64 ->
  h_dblkref s' = <[d := ToyfsDblkref (refcnt r + 1) (bn r)]> (h_dblkref s) ->
  (forall i, i ∈ A -> ib_d s' i = ib_d s i) -> store_inv s' P D A (Some d).
Proof.
  intros (H1&H2&H3&_) Hr Hd Hmax He Hi.
  assert (Hp : forall e, d_page s' e = d_page s e).
  { intros e. rewrite /d_page He lookup_insert. case_decide; [subst e; by rewrite Hr|done]. }
  split_and!.
  - intros e HeD. destruct (H1 e HeD) as (re&Hre&Hb&HP&Hn&Hc). rewrite rsv_None in Hc.
    rewrite /dblkref_ok He lookup_insert (cnt_same s s') //. case_decide as E.
    + subst e. rewrite Hr in Hre. injection Hre as <-. eexists. split; [reflexivity|]. cbn [refcnt bn].
      rewrite rsv_self. split_and!; (done || lia).
    + exists re. rewrite rsv_ne; [done|]. split_and!; (done || lia).
  - intros e e' p HeD HeD'. rewrite !Hp. by apply H2.
  - intros i HA. rewrite Hi //. by apply H3.
  - by intros e [= <-].
Qed.

(** The part of an iteration that does not touch the destination's inode. *)
Definition clone_block (src : Z) : FS (option Z) :=
  i ← toyfs_acquire_iblkref;
  match i with
  | None => mret None
  | Some dst =>
    o ← iblkref_off src;
    set_iblkref_off dst (fun _ => o);;
    d ← iblkref_dblkref src;
    set_iblkref_dblkref dst d;;
    set_refcnt d Z.succ;;
    mret (Some dst)
  end.
Lemma clone_loop_cons tii src l s :
  _clone_loop tii (src :: l) s =
  (i ← clone_block src;
   match i with
   | None => mret false
   | Some dst =>
     set_iblkrefs_list tii (fun l => l ++ [dst]);;
     zi ← tii_zi tii;
     set_inode zi (upd_i_blocks (fun n => u64 (n + 1)));;
     _clone_loop tii l
   end) s.
Proof.
  cbn [_clone_loop]. rewrite /clone_block /mbind /ST_bind.
  destruct (toyfs_acquire_iblkref s) as [[[dst|] s1]|]; [|done..].
  destruct (iblkref_off src s1) as [[o s2]|]; [|done].
  destruct (set_iblkref_off dst _ s2) as [[[] s3]|]; [|done].
  destruct (iblkref_dblkref src s3) as [[d s4]|]; [|done].
  destruct (set_iblkref_dblkref dst d s4) as [[[] s5]|]; [|done].
  by destruct (set_refcnt d Z.succ s5) as [[[] s6]|].
Qed.

(** One block, up to the update of the destination's inode. *)
Lemma wp_clone_block s F N X A I src d r o (Q : option Z -> toyfs_sb_info -> Prop) :
  fs_inv_at s F N X A I -> src ∈ A -> h_iblkref s !! src = Some (ToyfsIblkref (Some d) o) ->
  h_dblkref s !! d = Some r -> refcnt r + 1 < 2 ^ 64 ->
  (forall s', store_step s s' A X -> pages (s_pool s') = None -> st_inv s' I N A X None -> Q None s') ->
  (forall x s', x ∉ A -> store_step s s' A X ->
     h_iblkref s' = <[x := ToyfsIblkref (Some d) o]> (h_iblkref s) ->
     h_dblkref s' = <[d := ToyfsDblkref (refcnt r + 1) (bn r)]> (h_dblkref s) ->
     ib_dat s' x = ib_dat s src -> st_inv s' ({[x]} ∪ I) N ({[x]} ∪ A) X None -> Q (Some x) s') ->
  wp (clone_block src) s Q.
Proof.
  rewrite /clone_block.
  intros ((P&D&Hpool&Hst&HA&HX&HDX)&_) Hsrc Hio Hr Hn HN HS.
  pose proof Hst as (H1&_&H3&_). wp_step. apply (wp_acquire_iblkref s P D I N); [done| |].
  { intros s1 Hr1 He1 _ Hsp1 Hpg1 Hpool1. wp_step.
    destruct (pool_store_step s s1 P D A None X) as [Hs1 Hst1]; [done..|]. injection He1 as E1 E2 E3.
    apply HN; [done..|]. exists P, D. split_and!; try done. by rewrite /d_page E1. }
  intros x s1 HxI Hr1 He1 _ Hsp1 Hpool1. injection He1 as E1 E2 E3.
  assert (HxA : x ∉ A) by (set_solver + HxI HA).
  assert (Hne : x <> src) by (by intros ->).
  assert (HdD : d ∈ D).
  { destruct (H3 src Hsrc) as (e&He&HeD). rewrite /ib_d Hio /= in He. by injection He as <-. }
  assert (Hio1 : h_iblkref s1 !! src = Some (ToyfsIblkref (Some d) o)) by (by rewrite E2 lookup_insert_ne).
  rewrite /set_iblkref_dblkref /set_iblkref_off /set_refcnt.
  wp_step. eapply wp_iblkref_off; [exact Hio1|]. wp_step. wp_step; [by rewrite E2 lookup_insert_eq|].
  wp_step. eapply wp_iblkref_dblkref; [fs_simpl; rewrite lookup_insert_ne; done|].
  wp_step. wp_step; [by fs_simpl; rewrite lookup_insert_eq|].
  wp_step. wp_step; [fs_simpl; rewrite E1; exact Hr|]. wp_step.
  set (s2 := upd_h_dblkref _ _).
  assert (G2 : h_iblkref s2 = <[x := ToyfsIblkref (Some d) o]> (h_iblkref s)).
  { subst s2. fs_simpl. by rewrite E2 !insert_insert_eq. }
  assert (G1 : h_dblkref s2 = <[d := ToyfsDblkref (refcnt r + 1) (bn r)]> (h_dblkref s)).
  { subst s2. rewrite /upd_refcnt; fs_simpl. rewrite E1. destruct (H1 d HdD) as (r'&Hr'&_&_&?&_).
    rewrite Hr in Hr'. injection Hr' as <-. by rewrite u64_small; [lia|]. }
  assert (Gi : forall j, j ∈ A -> h_iblkref s2 !! j = h_iblkref s !! j).
  { intros j Hj. rewrite G2 lookup_insert_ne //. by intros ->. }
  assert (Gd : forall e, d_page s2 e = d_page s e).
  { intros e. rewrite /d_page G1 lookup_insert. case_decide; [subst e; by rewrite Hr|done]. }
  assert (Hsp2 : same_pages P s s2) by exact Hsp1.
  assert (Hst2 : store_inv s2 P D ({[x]} ∪ A) None).
  { eapply (store_inv_attach (upd_h_dblkref (fun _ => h_dblkref s2) s)); [|done| | |done].
    - eapply store_inv_incr; [exact Hst|exact Hr|done|lia|exact G1|done].
    - by rewrite /ib_d G2 lookup_insert_eq.
    - intros j Hj. by rewrite /ib_d Gi. }
  apply HS; [done| |done..| |].
  - split_and!; [exact Hr1|exact E3| |].
    + intros j Hj. split; [by apply Gi|]. by eapply ib_dat_same; [exact Hst|..|]; auto.
    + intros p Hp. apply Hsp2. set_solver + Hp HX.
  - transitivity (ib_dat s2 src); [|by eapply ib_dat_same; [exact Hst|..|]; auto].
    rewrite /ib_dat. assert (ib_d s2 x = ib_d s2 src) as ->; [|done].
    by rewrite /ib_d (Gi src Hsrc) Hio G2 lookup_insert_eq.
  - exists P, D. split_and!; [by eapply pool_inv_view; [|exact Hpool1]|done|set_solver + HA|done|].
    intros e He p. rewrite Gd. by apply HDX.
Qed.

(** The new block joins the destination. *)
Lemma fs_inv_append s s1 F N X A I ti i x o :
  fs_inv_at s F N X A I -> ti ∈ F -> h_inode s !! ti = Some i -> x ∉ A -> store_step s s1 A X ->
  ib_off s1 x = o -> st_inv s1 ({[x]} ∪ I) N ({[x]} ∪ A) X None ->
  0 <= o <= 2 ^ 50 -> (PAGE_SIZE | o) -> (forall y, y ∈ list_head i -> ib_off s y < o) ->
  let s2 := upd_h_inode (<[ti := upd_i_blocks (fun n => u64 (n + 1))
                                   (upd_list_head (fun l => l ++ [x]) i)]>) s1 in
  fs_inv s2 F N X /\ fs_step s s2 F X ti /\ flist s2 ti = flist s ti ++ [x] /\
  fblocks s2 ti = <[o := default [] (ib_dat s1 x)]> (fblocks s ti) /\ fsize s2 ti = fsize s ti.
Proof.
  intros Hat Hti Hi HxA (R1&N1&I1&X1) Hxo Hst1 Ho Hdiv Hlt s2.
  pose proof Hat as (Hst&HF&Hdis). destruct (HF ti Hti) as (i0&Hi0&Hok). rewrite Hi in Hi0. injection Hi0 as <-.
  pose proof Hok as (Hlok&Hblk&Hsz). set (i' := upd_i_blocks _ _) in s2.
  assert (Hi' : h_inode s2 !! ti = Some i') by (subst s2; fs_simpl; by rewrite lookup_insert_eq).
  assert (Hin : forall y, y ∈ list_head i -> y ∈ A) by (intros y Hy; by apply Hlok).
  assert (Hino : forall tj, tj <> ti -> h_inode s2 !! tj = h_inode s !! tj).
  { intros tj Hne. subst s2. fs_simpl. rewrite lookup_insert_ne // N1 //. }
  assert (Hl' : list_ok s2 ({[x]} ∪ A) (list_head i ++ [x])).
  { apply (list_ok_insert s s2 A x (list_head i) [] o); rewrite ?app_nil_r; try done.
    - intros y Hy. by apply I1, Hin.
    - by intros y ?%elem_of_nil. }
  destruct (fs_inv_intro s s2 F N X A I ({[x]} ∪ A) ({[x]} ∪ I) ti i') as [Hfs Hfb]; try done.
  { intros y Hy _. split; [set_solver + Hy|]. by apply I1. }
  { split_and!; [done| |by apply Hsz..]. subst i'. fs_simpl. rewrite Hblk length_app /= u64_small; [|lia].
    apply list_ok_length in Hlok. lia. }
  { intros y [Hy|Hy]%elem_of_app; [left; by rewrite (flist_eq _ _ _ Hi)|right; set_solver + Hy HxA]. }
  split_and!; [done|split_and!; [done..| |done|]| | |].
  - by rewrite Hi' Hi.
  - intros p Hp. by rewrite -(X1 p Hp).
  - by rewrite (flist_eq _ _ _ Hi) (flist_eq _ _ _ Hi').
  - rewrite (fblocks_eq _ _ _ Hi) (fblocks_eq _ _ _ Hi').
    rewrite (lblocks_perm s2 _ (x :: list_head i)); [by eapply list_ok_offs|symmetry; apply Permutation_cons_append|].
    rewrite lblocks_cons (Hxo : ib_off s2 x = _). f_equal. apply lblocks_same. intros y Hy. by apply I1, Hin.
  - by rewrite (fsize_eq _ _ _ Hi) (fsize_eq _ _ _ Hi').
Qed.

(** A step on the store that changes no attached block. *)
Lemma fs_inv_quiet s s1 F N X A I ti :
  fs_inv_at s F N X A I -> ti ∈ F -> store_step s s1 A X -> st_inv s1 I N A X None ->
  fs_inv s1 F N X /\ fs_step s s1 F X ti.
Proof.
  intros Hat Hti (R1&N1&I1&X1) Hst1. pose proof Hat as (Hst&HF&Hdis).
  destruct (HF ti Hti) as (i&Hi&Hok). pose proof Hok as (Hlok&Hblk).
  destruct (fs_inv_intro s s1 F N X A I A I ti i) as [Hfs Hfb]; try done.
  - intros x Hx _. split; [done|]. by apply I1.
  - intros tj _. by rewrite N1.
  - by rewrite N1.
  - split; [|done]. eapply list_ok_same; [| |exact Hlok]; [|done]. intros x Hx. apply I1. by apply Hlok.
  - intros x Hx. left. by rewrite (flist_eq _ _ _ Hi).
  - split; [done|]. split_and!; [done| | |done..].
    + intros tj _. by rewrite N1.
    + by rewrite N1.
Qed.

Definition counts_room (s : toyfs_sb_info) (l : list Z) (n : nat) : Prop :=
  forall x d o r, x ∈ l -> h_iblkref s !! x = Some (ToyfsIblkref (Some d) o) ->
    h_dblkref s !! d = Some r -> refcnt r + Z.of_nat n < 2 ^ 64.

Lemma wp_clone_loop F N X dtii dst src : forall l s (Q : bool -> toyfs_sb_info -> Prop),
  fs_inv s F N X -> dst ∈ F -> src ∈ F -> src <> dst -> tii_of s dtii dst ->
  (forall x, x ∈ l -> x ∈ flist s src) -> StronglySorted Z.lt (ib_off s <$> l) ->
  (forall x y, x ∈ l -> y ∈ flist s dst -> ib_off s y < ib_off s x) ->
  counts_room s l (length l) ->
  (forall s', fs_step s s' F X dst -> fs_inv s' F N X -> free_le s' 1 -> Q false s') ->
  (forall s', fs_step s s' F X dst -> fs_inv s' F N X -> fsize s' dst = fsize s dst ->
     fblocks s' dst = lblocks s l ∪ fblocks s dst -> Q true s') ->
  wp (_clone_loop dtii l) s Q.
Proof.
  induction l as [|x l IH]; intros s Q Hfs Hdst Hsrc Hne Htii Hl Hsort Hlt Hroom HN HS.
  { cbn [_clone_loop]. wp_step. apply HS; [apply fs_step_refl|done|done|]. by rewrite map_empty_union. }
  pose proof Hfs as (A&I&Hat). pose proof Hat as (Hst&HF&Hdis).
  destruct (HF src Hsrc) as (i&Hi&Hlok&_). assert (Hx : x ∈ list_head i) by (rewrite -(flist_eq _ _ _ Hi); apply Hl; constructor).
  destruct (list_ok_recs s A I N X _ Hst Hlok x Hx) as (d&o&Hxr&Hxo&Hreach&_).
  destruct (reachable_rec s I N A X None d) as (r&Hr&_); [done..|].
  assert (Hlok' := Hlok). destruct Hlok' as [Hlk _]. destruct (Hlk x Hx) as (HxA&Ho&Hdiv). rewrite Hxo in Ho, Hdiv.
  destruct (HF dst Hdst) as (j&Hj&Hjok). pose proof Htii as (t&Ht&Htt&Htz).
  eapply wp_eq; [apply clone_loop_cons|]. wp_step.
  apply (wp_clone_block s F N X A I x d r o); try done.
  { specialize (Hroom x d o r ltac:(constructor) Hxr Hr). simpl in Hroom. lia. }
  { intros s1 Hs1 Hpg Hst1. wp_step. destruct (fs_inv_quiet s s1 F N X A I dst) as [Hfs1 Hfstep]; [done..|].
    apply HN; [done..|]. exists []. rewrite Hpg. split; [done|simpl; lia]. }
  intros y s1 HyA Hs1 Hib1 Hdb1 Hdat Hst1.
  assert (Hyo : ib_off s1 y = o) by (by rewrite /ib_off Hib1 lookup_insert_eq).
  destruct (fs_inv_append s s1 F N X A I dst j y o) as (Hfs2&Hs2&Hl2&Hb2&Hsz2); try done.
  { intros z Hz. rewrite -Hxo. apply Hlt; [constructor|by rewrite (flist_eq _ _ _ Hj)]. }
  set (s2 := upd_h_inode _ s1) in *. assert (R1 := Hs1). destruct R1 as (R1&N1&I1&X1).
  rewrite /set_iblkrefs_list. wp_step. wp_step. eapply wp_tii_ti; [by rewrite (rest_tii _ _ R1)|exact Htt|].
  eapply wp_set_inode; [by rewrite N1|]. wp_step.
  eapply wp_tii_zi; [fs_simpl; by rewrite (rest_tii _ _ R1)|exact Htz|]. wp_step.
  eapply wp_set_inode; [fs_simpl; by rewrite lookup_insert_eq|].
  match goal with |- wp _ ?st _ => assert (st = s2) as -> end.
  { subst s2. rewrite /upd_h_inode; fs_simpl. by rewrite insert_insert_eq. }
  assert (HlA : forall z, z ∈ l -> z ∈ A).
  { intros z Hz. apply Hlk. rewrite -(flist_eq _ _ _ Hi). apply Hl. by constructor. }
  assert (Hib2 : forall z, z ∈ A -> h_iblkref s2 !! z = h_iblkref s !! z) by (intros z Hz; by apply I1).
  rewrite fmap_cons in Hsort. apply StronglySorted_cons in Hsort as [Hxl Hsort].
  assert (Hofs : ib_off s2 <$> l = ib_off s <$> l) by (apply ib_off_fmap; auto).
  apply IH; try done.
  - by eapply fs_step_tii.
  - intros z Hz. destruct Hs2 as (_&Nn&_). rewrite /flist Nn // -/(flist s src). apply Hl. by constructor.
  - by rewrite Hofs.
  - intros z w Hz. rewrite Hl2 (ib_off_eq s s2 z); [by apply Hib2, HlA|]. intros [Hw|Hw]%elem_of_app.
    + rewrite (ib_off_eq s s2 w); [|by apply Hlt; [by constructor|]]. apply Hib2.
      rewrite (flist_eq _ _ _ Hj) in Hw. by apply Hjok.
    + assert (w = y) as -> by set_solver + Hw. rewrite -/(ib_off s1 y) (Hyo : ib_off s2 y = o) -Hxo.
      rewrite Forall_forall in Hxl. by apply Hxl, list_elem_of_fmap_2.
  - intros z e oz re Hz Hze Hre. rewrite Hib2 in Hze; [by apply HlA|].
    rewrite (Hdb1 : h_dblkref s2 = _) lookup_insert in Hre.
    assert (refcnt re <= default 0 (refcnt <$> h_dblkref s !! e) + 1 /\ is_Some (h_dblkref s !! e)) as [Hle (rs&Hrs)].
    { case_decide as E; [subst e; injection Hre as <-; rewrite Hr /=; split; [lia|done]|]. rewrite Hre /=.
      split; [lia|done]. }
    rewrite Hrs /= in Hle. specialize (Hroom z e oz rs ltac:(by constructor) Hze Hrs). simpl in Hroom. lia.
  - intros s3 Hs3 Hfs3. apply HN; [by eapply fs_step_trans|done].
  - intros s3 Hs3 Hfs3 Hsz3 Hb3. apply HS; [by eapply fs_step_trans|done|congruence|].
    assert (Hlb : lblocks s2 l = lblocks s l) by (apply lblocks_same; intros z Hz; by apply I1, HlA).
    rewrite Hb3 Hb2 lblocks_cons Hxo Hdat Hlb -insert_union_l insert_union_r //.
    apply lblocks_None. intros z Hz Hzo. rewrite Forall_forall in Hxl.
    assert (ib_off s x < ib_off s z) by (by apply Hxl, list_elem_of_fmap_2). lia.
Qed.

(** ** The lock of the super block around a step *)
Lemma fs_inv_lock s F N X f : fs_inv s F N X -> 0 <= f (s_mutex s) -> fs_inv (upd_s_mutex f s) F N X.
Proof.
  intros (A&I&(P&D&(Hlk&Hpool)&Hst)&HF) Hf. exists A, I. split; [|exact HF]. exists P, D. split; [|exact Hst].
  split; [|exact Hpool]. revert Hlk. rewrite /locks_ok; fs_simpl. lia.
Qed.
Lemma fs_inv_mutex s F N X : fs_inv s F N X -> 0 <= s_mutex s.
Proof. intros (A&I&(P&D&(Hlk&_)&_)&_). apply Hlk. Qed.
(** Locked, stepped, unlocked: a step. *)
Lemma fs_step_unlock s s1 F X ti :
  fs_step (upd_s_mutex Z.succ s) s1 F X ti -> fs_step s (upd_s_mutex Z.pred s1) F X ti.
Proof.
  intros (R&N1&M&B&P). split_and!; try done. revert R. rewrite /rest; fs_simpl.
  intros R. injection R as -> -> -> -> -> -> -> -> ->. by rewrite Z.pred_succ.
Qed.
Lemma fs_step_mutex s s1 F X ti : fs_step (upd_s_mutex Z.succ s) s1 F X ti -> s_mutex s1 = Z.succ (s_mutex s).
Proof. intros (R&_). by injection R. Qed.

Lemma flist_disjoint s F N X t1 t2 x :
  fs_inv s F N X -> t1 ∈ F -> t2 ∈ F -> t1 <> t2 -> x ∈ flist s t1 -> x ∉ flist s t2.
Proof. intros (A&I&_&_&Hdis) ???. by apply Hdis. Qed.

Lemma counts_room_le s F N X ti m :
  fs_inv s F N X -> ti ∈ F -> rc_le m s -> m + 2 ^ 40 < 2 ^ 64 ->
  counts_room s (flist s ti) (length (flist s ti)).
Proof.
  intros (A&I&_&HF&_) Hti Hm Hmax x d o r Hx _ Hr. destruct (HF ti Hti) as (i&Hi&Hlok&_).
  rewrite (flist_eq _ _ _ Hi) in Hx |- *. apply list_ok_length in Hlok. specialize (Hm d r Hr). lia.
Qed.

(** Dropping everything leaves no block. *)
Lemma wp_drop_all s F N X tii ti m (Q : unit -> toyfs_sb_info -> Prop) :
  fs_inv s F N X -> ti ∈ F -> tii_of s tii ti -> rc_le m s ->
  (forall s', fs_step s s' F X ti -> fs_inv s' F N X -> fsize s' ti = fsize s ti ->
     fblocks s' ti = ∅ -> rc_le m s' -> Q tt s') ->
  wp (_drop_range tii 0) s Q.
Proof.
  intros Hfs Hti Htii Hm HQ. eapply wp_mono; [apply wp_keeps; [apply keeps_drop_range|exact Hm|]|].
  - apply (wp_drop_range s F N X tii ti 0 (fun _ s' => fs_step s s' F X ti /\ fs_inv s' F N X /\
      fsize s' ti = fsize s ti /\ fblocks s' ti = ∅)); try done.
    intros s' Hs Hfs' Hsz Hb. split_and!; try done. apply map_eq. intros b. rewrite Hb lookup_empty.
    case_decide as E; [done|]. destruct (fblocks s ti !! b) eqn:Eb; [|done]. exfalso. apply E.
    change (round_up 0) with 0. pose proof Hfs as (A&I&Hst&HF&_). destruct (HF ti Hti) as (i&Hi&Hlok&_).
    rewrite (fblocks_eq _ _ _ Hi) in Eb. apply lblocks_Some in Eb as (x&Hx&<-&_); [|by eapply list_ok_offs].
    by apply Hlok.
  - intros [] s' [(?&?&?&?) ?]. by apply HQ.
Qed.

Lemma fblocks_empty s F N X ti : fs_inv s F N X -> ti ∈ F -> fblocks s ti = ∅ -> flist s ti = [].
Proof.
  intros (A&I&_&HF&_) Hti Hb. destruct (HF ti Hti) as (i&Hi&Hlok&_).
  rewrite (fblocks_eq _ _ _ Hi) in Hb. rewrite (flist_eq _ _ _ Hi).
  destruct (list_head i) as [|x l]; [done|]. exfalso. rewrite lblocks_cons in Hb. by apply insert_non_empty in Hb.
Qed.

(** The clone of a whole file. *)
Lemma wp_clone_entire s F N X stii dtii src dst m (Q : Z -> toyfs_sb_info -> Prop) :
  fs_inv s F N X -> dst ∈ F -> src ∈ F -> src <> dst -> tii_of s stii src -> tii_of s dtii dst ->
  rc_le m s -> m + 2 ^ 40 < 2 ^ 64 ->
  (forall s', fs_step s s' F X dst -> fs_inv s' F N X -> free_le s' 1 -> Q (- ENOSPC) s') ->
  (forall s', fs_step s s' F X dst -> fs_inv s' F N X -> fsize s' dst = fsize s src ->
     fblocks s' dst = fblocks s src -> Q 0 s') ->
  wp (_clone_entire_file_range stii dtii) s Q.
Proof.
  intros Hfs Hdst Hsrc Hne Hstii Hdtii Hm Hmax HN HS. rewrite /_clone_entire_file_range. wp_step.
  apply (wp_drop_all s F N X dtii dst m); [done..|]. intros s1 Hs1 Hfs1 _ Hb1 Hm1.
  wp_step. apply wp_sbi_lock. pose proof (fs_inv_mutex _ _ _ _ Hfs1) as Hmx.
  set (s2 := upd_s_mutex Z.succ s1). assert (Hfs2 : fs_inv s2 F N X) by (apply fs_inv_lock; [done|lia]).
  pose proof Hfs1 as (A&I&Hst&HF&_). destruct (HF src Hsrc) as (i&Hi&Hlok&_&Hsz).
  assert (Hfl : flist s2 src = list_head i) by (by rewrite -(flist_eq _ _ _ Hi)).
  rewrite /toyfs_iblkrefs_list_of. do 2 wp_step. eapply (wp_ti s2 stii src); [by eapply (fs_step_tii s s1)|].
  eapply wp_get_inode; [exact Hi|]. wp_step.
  assert (Hfb : fblocks s2 src = fblocks s src).
  { destruct Hs1 as (_&_&_&Hfb&_). change (fblocks s1 src = fblocks s src). by apply Hfb. }
  assert (Hbd : fsize s2 src = fsize s src).
  { destruct Hs1 as (_&Hino&_). change (fsize s1 src = fsize s src). by rewrite /fsize Hino. }
  apply (wp_clone_loop F N X dtii dst src); try done.
  - by eapply (fs_step_tii s s1).
  - by rewrite Hfl.
  - by apply Hlok.
  - intros x y _. assert (flist s2 dst = []) as -> by (by eapply (fblocks_empty s1 F N X dst)). intros Hy%elem_of_nil. done.
  - rewrite -Hfl. by eapply (counts_room_le s2 F N X src m).
  - intros s3 Hs3 Hfs3 Hfree. wp_step. pose proof (fs_step_mutex _ _ _ _ _ Hs3) as Hmx3.
    apply wp_sbi_unlock; [lia|]. cbn [negb]. wp_step.
    apply HN; [eapply fs_step_trans; [done|by apply fs_step_unlock]|apply fs_inv_lock; [done|lia]|exact Hfree].
  - intros s3 Hs3 Hfs3 Hsz3 Hb3. wp_step. pose proof (fs_step_mutex _ _ _ _ _ Hs3) as Hmx3.
    apply wp_sbi_unlock; [lia|]. cbn [negb]. cbv iota. set (s4 := upd_s_mutex Z.pred s3).
    assert (Hs4 : fs_step s s4 F X dst) by (eapply fs_step_trans; [done|by apply fs_step_unlock]).
    assert (Hfs4 : fs_inv s4 F N X) by (apply fs_inv_lock; [done|lia]).
    wp_step. eapply wp_zi; [by eapply fs_step_tii|].
    destruct (fs_inv_fsize s4 F N X src) as (i4&Hi4&Hsz4&Hrg4); [done..|].
    wp_step. eapply wp_get_inode; [exact Hi4|]. wp_step. eapply wp_zi; [by eapply fs_step_tii|].
    destruct (fs_inv_fsize s4 F N X dst) as (j4&Hj4&_); [done..|].
    wp_step. eapply wp_set_inode; [exact Hj4|]. wp_step.
    destruct (fs_inv_set_size s4 F N X dst j4 (fun _ => i_size i4)) as (Hfs5&Hs5&Hb5&Hsz5); [done..|by rewrite -Hsz4|].
    apply HS; [by eapply fs_step_trans|done| |].
    + rewrite Hsz5 -Hsz4. destruct Hs4 as (_&Hino&_). by rewrite /fsize Hino.
    + rewrite Hb5. change (fblocks s3 dst = fblocks s src). rewrite Hb3.
      change (fblocks s2 dst) with (fblocks s1 dst). rewrite Hb1 map_union_empty -Hfb. by rewrite /fblocks Hfl.
Qed.
End clone.
