(* ===== verification/FileClaims.v ===== *)
(** * What file operations promise

    The contract of the read, write, truncate, allocate and clone entry points of
    fs/toyfs/file.c, over the bytes of a file. *)

From S2P Require Import Prelude CList State Pool File FileInv FileSpec FileOps FileClone.

Section newfile.
Context `{MdLaws}.
Implicit Types (F N X A I P D : gset Z).

Lemma st_inv_new s s' P D I N (N' : gset Z) A X :
  pool_inv s' P D I N' -> store_inv s P D A None -> A ⊆ I -> X ⊆ P ->
  (forall d, d ∈ D -> forall p, d_page s d = Some p -> p ∉ X) ->
  h_dblkref s' = h_dblkref s -> h_iblkref s' = h_iblkref s -> st_inv s' I N' A X None.
Proof.
  intros Hp (H1&H2&H3&H4) HA HX HDX Hd Hi. exists P, D. split_and!; [done| |done..|].
  - rewrite /store_inv /dblkref_ok /cnt /d_page /ib_d Hd Hi. by split_and!.
  - rewrite /d_page Hd. exact HDX.
Qed.

(** An inode from the pool, made an empty file. *)
Lemma wp_new_file s F N X (Q : option Z -> toyfs_sb_info -> Prop) :
  fs_inv s F N X -> F ⊆ N ->
  (forall s', rest s' = rest s -> recs s' = recs s -> Q None s') ->
  (forall x s', x ∉ N -> rest s' = rest s -> recs s' = recs s ->
     (forall i, list_head i = [] -> i_blocks i = 0 -> 0 <= i_size i < 2 ^ 63 ->
        fs_inv (upd_h_inode (<[x := i]>) s') ({[x]} ∪ F) ({[x]} ∪ N) X) -> Q (Some x) s') ->
  wp toyfs_acquire_inode s Q.
Proof.
  intros (A&I&(P&D&Hpool&Hst&HA&HX&HDX)&HF&Hdis) HFN HN HS.
  apply (wp_pool_pop_inode s P D I N); [done|by auto|]. intros x s' Hx Hr He _ _ Hpool'.
  apply HS; [done..|]. intros i Hl Hb Hsz. injection He as Ed Ei En. set (s1 := upd_h_inode _ s').
  assert (Hi1 : h_inode s1 = <[x := i]> (h_inode s)) by (rewrite /s1; fs_simpl; by rewrite En).
  assert (Hother : forall tj, tj ∈ F -> h_inode s1 !! tj = h_inode s !! tj).
  { intros tj Hj. rewrite Hi1 lookup_insert_ne //. set_solver + Hx HFN Hj. }
  assert (Hx1 : h_inode s1 !! x = Some i) by (by rewrite Hi1 lookup_insert_eq).
  assert (Hf0 : flist s1 x = []) by (by rewrite (flist_eq _ _ _ Hx1)).
  exists A, I. split_and!.
  - eapply (st_inv_new s s1 P D); try done.
  - intros tj [->%elem_of_singleton|Hj]%elem_of_union.
    + exists i. split; [done|]. rewrite /inode_ok /list_ok Hl Hb. split_and!; try done; try lia.
      * by intros y ?%elem_of_nil.
      * constructor.
    + destruct (HF tj Hj) as (j&Hjs&Hok&Hjb). exists j. rewrite Hother //. split; [done|]. split; [|done].
      eapply list_ok_same; [|..|exact Hok]; [intros y _; by rewrite /s1; fs_simpl; rewrite Ei|done].
  - assert (Hfl : forall tj, tj ∈ F -> flist s1 tj = flist s tj) by (intros; by rewrite /flist Hother).
    intros tj tk y [->%elem_of_singleton|Hj]%elem_of_union [->%elem_of_singleton|Hk]%elem_of_union Hne.
    + done.
    + by rewrite Hf0 => /elem_of_nil.
    + rewrite Hf0 => _ /elem_of_nil. done.
    + rewrite !Hfl //. by apply Hdis.
Qed.

Lemma fs_inv_pool s P N : pool_inv s P ∅ ∅ N -> fs_inv s ∅ N P.
Proof.
  intros Hp. exists ∅, ∅. split_and!; [|set_solver +..]. exists P, ∅. split_and!; try done; try set_solver +.
Qed.
Lemma fs_inv_tii s F N X f : fs_inv s F N X -> fs_inv (upd_h_tii f s) F N X.
Proof. done. Qed.
End newfile.

(** ** The claims *)
Section claims.
Context `{MdLaws}.
Implicit Types (F N X : gset Z).

(** The handle of an open file. *)
Definition zii_of (s : toyfs_sb_info) (zii p : Z) : Prop :=
  exists t, h_tii s !! zii = Some t /\ ti t = Some p /\ zi t = Some p /\ zop t = true /\ valid t = true.

Lemma zii_tii s zii p : zii_of s zii p -> tii_of s zii p.
Proof. intros (t&?&?&?&_). by exists t. Qed.
Lemma fs_step_zii s s' F X p zii tj : fs_step s s' F X p -> zii_of s zii tj -> zii_of s' zii tj.
Proof. intros (R&_) (t&Ht&?). exists t. by rewrite (rest_tii _ _ R). Qed.
Lemma wp_zii s zii p (Q : Z -> toyfs_sb_info -> Prop) :
  zii_of s zii p -> Q zii s -> wp (toyfs_zii_to_tii zii) s Q.
Proof.
  intros (t&Ht&_&_&Hop&Hv) HQ. rewrite /toyfs_zii_to_tii.
  destruct (Z.eqb_spec zii 0) as [->|]; [by wp_step|].
  wp_step. wp_step; [exact Ht|]. wp_step. wp_step; [done|]. wp_step. wp_step; [done|]. by wp_step.
Qed.

(** What the write of [n] bytes of [buf] at [o] leaves. *)
Definition written (s s' : toyfs_sb_info) (ti o n : Z) (buf : list Z) : Prop :=
  fsize s' ti = Z.max (o + n) (fsize s ti) /\
  forall k, bbyte (fblocks s' ti) k =
    if decide (o <= k < o + n) then default 0 (buf !! Z.to_nat (k - o)) else bbyte (fblocks s ti) k.

Lemma wp_toyfs_write s F N X zii ti buf pos n rw last :
  fs_inv s F N X -> ti ∈ F -> zii_of s zii ti ->
  0 <= pos < 2 ^ 63 -> 0 <= n < 2 ^ 64 -> n <= Z.of_nat (length buf) ->
  wp (toyfs_write buf (ZufsIocIO zii pos n last rw)) s (fun r s' =>
    fs_inv s' F N X /\ fs_step s s' F X ti /\
    (if decide (0 < n <= ZUS_API_MAP_MAX_SIZE /\ pos + n <= 2 ^ 50)
     then (r = (0, ZufsIocIO zii pos n (pos + n) rw) /\ written s s' ti pos n buf) \/
          (r = (- ENOSPC, ZufsIocIO zii pos n last rw) /\ fsize s' ti = fsize s ti /\
           outside (fblocks s ti) (fblocks s' ti) pos (pos + n) /\ free_le s' 1)
     else s' = s /\ (r.1 = - EINVAL \/ r.1 = - EFBIG) /\ r.2 = ZufsIocIO zii pos n last rw)).
Proof.
  intros Hfs Hti Hz Hpos Hn Hbuf. rewrite /toyfs_write. wp_step. cbn [io_zus_ii io_filepos io_len io_rw].
  eapply wp_zii; [exact Hz|]. rewrite s64_small; [lia|]. wp_step.
  pose proof (check_rw_0 pos n ltac:(lia) Hn) as Hiff. pose proof md_map_max.
  apply (wp_write F N X s zii ti); [done|done|by apply zii_tii|lia|lia|lia| | |].
  - intros Hne. destruct (check_rw_neg pos n) as [E|[E|E]]; [done|..];
      rewrite E; (replace (_ <? 0) with true by done); cbv iota; wp_step;
      (split_and!; [done|apply fs_step_refl|]); rewrite decide_False; [|by auto| |by auto];
      intros ?; apply Hne, Hiff; lia.
  - intros s' Hc Hs Hfs' Hsz Hout Hfree. replace (- ENOSPC <? 0) with true by done. cbv iota. wp_step.
    split_and!; [done..|]. rewrite decide_True; [apply Hiff in Hc; lia|]. by right.
  - intros s' Hc Hs Hfs' Hsz Hb. apply Hiff in Hc as (_&Hm&Hmax).
    replace (n <? 0) with false by (symmetry; apply Z.ltb_ge; lia). wp_step.
    split_and!; [done..|]. rewrite decide_True; [lia|]. left. rewrite u64_small; [lia|]. by split.
Qed.

(** C7: The write system call, on every branch: a range the file cannot have is refused
    with nothing changed; otherwise the bytes of the range become those of the
    buffer, all others stay, and the size grows to the end of the range; or the pool
    is empty, the size and the bytes outside the range are as before, and the result
    is ENOSPC.  No other file, foreign page or record is touched. *)
Theorem toyfs_write_spec s F N X zii ti buf pos n rw last :
  fs_inv s F N X -> ti ∈ F -> zii_of s zii ti ->
  0 <= pos < 2 ^ 63 -> 0 <= n < 2 ^ 64 -> n <= Z.of_nat (length buf) ->
  wp (toyfs_write buf (ZufsIocIO zii pos n last rw)) s (fun r s' =>
    fs_inv s' F N X /\ fs_step s s' F X ti /\
    (if decide (0 < n <= ZUS_API_MAP_MAX_SIZE /\ pos + n <= 2 ^ 50)
     then (r = (0, ZufsIocIO zii pos n (pos + n) rw) /\ written s s' ti pos n buf) \/
          (r = (- ENOSPC, ZufsIocIO zii pos n last rw) /\ fsize s' ti = fsize s ti /\
           outside (fblocks s ti) (fblocks s' ti) pos (pos + n) /\ free_le s' 1)
     else s' = s /\ (r.1 = - EINVAL \/ r.1 = - EFBIG) /\ r.2 = ZufsIocIO zii pos n last rw)).
Proof. apply wp_toyfs_write. Qed.

Lemma wp_toyfs_read s F N X zii ti pos n rw last :
  fs_inv s F N X -> ti ∈ F -> zii_of s zii ti -> 0 <= pos < 2 ^ 63 -> 0 <= n < 2 ^ 64 ->
  wp (toyfs_read (ZufsIocIO zii pos n last rw)) s (fun r s' =>
    s' = s /\
    if decide (0 < n <= ZUS_API_MAP_MAX_SIZE /\ pos + n <= 2 ^ 50)
    then let c := Z.max 0 (Z.min (pos + n) (fsize s ti) - pos) in
         r = (0, bbytes (fblocks s ti) pos (Z.to_nat c), ZufsIocIO zii pos n (pos + c) rw)
    else (r.1.1 = - EINVAL \/ r.1.1 = - EFBIG) /\ r.1.2 = [] /\ r.2 = ZufsIocIO zii pos n last rw).
Proof.
  intros Hfs Hti Hz Hpos Hn. rewrite /toyfs_read. wp_step. cbn [io_zus_ii io_filepos io_len io_rw].
  eapply wp_zii; [exact Hz|]. rewrite s64_small; [lia|]. wp_step.
  pose proof (check_rw_0 pos n ltac:(lia) Hn) as Hiff. pose proof md_map_max.
  apply (wp_read F N X s zii ti); [done|done|by apply zii_tii|lia|lia| |].
  - intros Hne. destruct (check_rw_neg pos n) as [E|[E|E]]; [done|..];
      rewrite E; cbn [fst snd]; (replace (_ <? 0) with true by done); cbv iota; wp_step;
      (split; [done|]); rewrite decide_False; [|by auto| |by auto];
      intros ?; apply Hne, Hiff; lia.
  - intros Hc. apply Hiff in Hc as (_&Hm&Hmax). cbv zeta. cbn [fst snd].
    rewrite (proj2 (Z.ltb_ge _ 0)); [lia|]. wp_step. split; [done|]. rewrite decide_True; [lia|].
    rewrite u64_small; [lia|]. done.
Qed.

(** C8: The read system call: a bad range is refused; otherwise the bytes of the range
    that lie before the end of the file are stored into the buffer, holes as zeros,
    and [last_pos] is advanced past them.  Nothing changes. *)
Theorem toyfs_read_spec s F N X zii ti pos n rw last :
  fs_inv s F N X -> ti ∈ F -> zii_of s zii ti -> 0 <= pos < 2 ^ 63 -> 0 <= n < 2 ^ 64 ->
  wp (toyfs_read (ZufsIocIO zii pos n last rw)) s (fun r s' =>
    s' = s /\
    if decide (0 < n <= ZUS_API_MAP_MAX_SIZE /\ pos + n <= 2 ^ 50)
    then let c := Z.max 0 (Z.min (pos + n) (fsize s ti) - pos) in
         r = (0, bbytes (fblocks s ti) pos (Z.to_nat c), ZufsIocIO zii pos n (pos + c) rw)
    else (r.1.1 = - EINVAL \/ r.1.1 = - EFBIG) /\ r.1.2 = [] /\ r.2 = ZufsIocIO zii pos n last rw).
Proof. apply wp_toyfs_read. Qed.

Lemma written_bytes s s' ti o n buf :
  written s s' ti o n buf -> 0 <= n <= Z.of_nat (length buf) ->
  bbytes (fblocks s' ti) o (Z.to_nat n) = take (Z.to_nat n) buf.
Proof.
  intros [_ Hb] Hn. apply list_eq. intros k. rewrite /bbytes list_lookup_fmap.
  destruct (decide (k < Z.to_nat n)%nat) as [Hk|Hk].
  - rewrite lookup_seq_lt // lookup_take_lt //= Hb decide_True; [lia|].
    replace (Z.to_nat (o + Z.of_nat k - o)) with k by lia.
    by destruct (lookup_lt_is_Some_2 buf k) as [v ->]; [lia|].
  - rewrite !lookup_ge_None_2 //; rewrite ?length_take ?length_seq; lia.
Qed.

(** Reading a range that was just written gives the bytes written. *)
Theorem write_read s F N X zii ti buf pos n rw last :
  fs_inv s F N X -> ti ∈ F -> zii_of s zii ti ->
  0 <= pos < 2 ^ 63 -> 0 <= n < 2 ^ 64 -> n <= Z.of_nat (length buf) ->
  wp (w ← toyfs_write buf (ZufsIocIO zii pos n last rw);
      if w.1 =? 0 then r ← toyfs_read (ZufsIocIO zii pos n last rw); mret (Some r.1)
      else mret None) s (fun r _ =>
    match r with Some r => r = (0, take (Z.to_nat n) buf) | None => True end).
Proof.
  intros Hfs Hti Hz Hpos Hn Hbuf. wp_step.
  eapply wp_mono; [by eapply wp_toyfs_write|]. intros [err io] s' (Hfs'&Hs'&Hcase). cbn [fst snd].
  destruct (Z.eqb_spec err 0) as [->|]; [|by wp_step]. case_decide as Hr; [|naive_solver].
  destruct Hcase as [[_ Hw]|[E _]]; [|done]. pose proof Hw as [Hsz _].
  wp_step. eapply wp_mono; [eapply (wp_toyfs_read s' F N X zii ti pos n); try done|].
  - by eapply fs_step_zii.
  - intros r s'' [-> Hrd]. wp_step. rewrite decide_True // in Hrd. rewrite Hrd. cbn [fst].
    destruct (fs_inv_fsize s F N X ti) as (_&_&_&Hb); [done..|].
    replace (Z.max 0 (Z.min (pos + n) (fsize s' ti) - pos)) with n by lia.
    by rewrite (written_bytes s s' ti pos n buf Hw); [lia|].
Qed.

(** C19: Truncation, on every branch: a directory and a special file are refused; on a
    regular file the size becomes [size] and, when it shrinks, every byte from
    [size] on becomes zero while the bytes before stay.  When the shared page of the
    cut cannot be copied the size is set all the same and the result is ENOSPC. *)
Theorem truncate_spec s F N X tii ti i size :
  fs_inv s F N X -> ti ∈ F -> tii_of s tii ti -> h_inode s !! ti = Some i -> 0 <= size < 2 ^ 63 ->
  wp (toyfs_truncate tii size) s (fun r s' =>
    fs_inv s' F N X /\ fs_step s s' F X ti /\
    if S_ISTYPE S_IFREG (i_mode i) then
      fsize s' ti = size /\
      (forall k, k < size -> bbyte (fblocks s' ti) k = bbyte (fblocks s ti) k) /\
      ((r = 0 /\ forall k, size <= k ->
          bbyte (fblocks s' ti) k = if decide (size < fsize s ti) then 0 else bbyte (fblocks s ti) k) \/
       (r = - ENOSPC /\ size < fsize s ti /\ free_le s' 1))
    else s' = s /\ r = (if S_ISTYPE S_IFDIR (i_mode i) then - EISDIR else - EINVAL)).
Proof.
  intros Hfs Hti Htii Hi Hsize. destruct (S_ISTYPE S_IFREG (i_mode i)) eqn:Hreg.
  - apply (wp_truncate s F N X tii ti); [done..|by exists i|done| |].
    + intros s' Hs Hfs' Hsz Hb. split_and!; try done.
      * intros k Hk. rewrite Hb decide_False //. lia.
      * left. split; [done|]. intros k Hk. rewrite Hb. repeat case_decide; (done || lia).
    + intros s' Hlt Hs Hfs' Hsz Hb Hf. split_and!; try done. by right.
  - rewrite /toyfs_truncate. wp_step. eapply wp_zi; [done|]. wp_step. eapply wp_get_inode; [exact Hi|].
    rewrite Hreg. cbn [negb]. cbv iota.
    destruct (S_ISTYPE S_IFDIR (i_mode i)); wp_step; (split_and!; [done|apply fs_step_refl|done..]).
Qed.

(** Cutting a file and growing it again exposes none of the old bytes: what lies
    between the two sizes reads as zeros. *)
Theorem truncate_grow_zeros s F N X tii ti a b :
  fs_inv s F N X -> ti ∈ F -> tii_of s tii ti -> is_reg s ti ->
  0 <= a < fsize s ti -> a < b <= 2 ^ 50 -> b - a <= ZUS_API_MAP_MAX_SIZE ->
  wp (err ← toyfs_truncate tii a;
      if err =? 0 then
        err ← toyfs_truncate tii b;
        r ← _read tii a (b - a); mret (Some (err, r))
      else mret None) s (fun r _ =>
    match r with Some r => r = (0, (b - a, zeros (Z.to_nat (b - a)))) | None => True end).
Proof.
  intros Hfs Hti Htii Hreg Ha Hb Hm. pose proof md_map_max. wp_step.
  apply (wp_truncate s F N X tii ti); [done..|lia| |];
    [|intros; replace (- ENOSPC =? 0) with false by done; by wp_step].
  intros s1 Hs1 Hfs1 Hsz1 Hb1. replace (0 =? 0) with true by done. cbv iota. wp_step.
  apply (wp_truncate s1 F N X tii ti); [done|done|by eapply fs_step_tii|by eapply fs_step_reg|lia| |]; [|lia].
  intros s2 Hs2 Hfs2 Hsz2 Hb2. wp_step.
  apply (wp_read F N X s2 tii ti); [done|done|by eapply fs_step_tii; [|eapply fs_step_tii]|lia|lia| |].
  { intros Hne. exfalso. apply Hne, check_rw_0; lia. }
  intros _ c. assert (c = b - a) as -> by (rewrite /c Hsz2; lia). wp_step. do 3 f_equal.
  apply list_eq. intros k. rewrite /bbytes /zeros list_lookup_fmap.
  destruct (decide (k < Z.to_nat (b - a))%nat) as [Hk|Hk].
  - rewrite lookup_replicate_2 // lookup_seq_lt //=. rewrite Hb2 decide_False; [lia|].
    rewrite Hb1 decide_True //. lia.
  - rewrite !lookup_ge_None_2 //; rewrite ?length_replicate ?length_seq; lia.
Qed.

Lemma wp_clone s F N X stii dtii src dst m :
  fs_inv s F N X -> src ∈ F -> dst ∈ F -> src <> dst -> stii <> dtii ->
  tii_of s stii src -> tii_of s dtii dst -> is_reg s src -> is_reg s dst ->
  rc_le m s -> m + 2 ^ 40 < 2 ^ 64 ->
  wp (_clone stii dtii 0 0 0) s (fun r s' =>
    fs_inv s' F N X /\ fs_step s s' F X dst /\
    ((r = 0 /\ fsize s' dst = fsize s src /\ fblocks s' dst = fblocks s src) \/
     (r = - ENOSPC /\ free_le s' 1))).
Proof.
  intros Hfs Hsrc Hdst Hne Hnt Hs Hd (i&Hi&Hri) (j&Hj&Hrj) Hm Hmax. rewrite /_clone.
  wp_step. eapply wp_zi; [exact Hs|]. wp_step. eapply wp_zi; [exact Hd|].
  wp_step. eapply wp_get_inode; [exact Hi|]. wp_step. eapply wp_get_inode; [exact Hj|].
  rewrite Hri Hrj (proj2 (Z.eqb_neq stii dtii)) //=.
  apply (wp_clone_entire s F N X stii dtii src dst m); try done.
  - intros s' Hs' Hfs' Hf. split_and!; [done..|]. by right.
  - intros s' Hs' Hfs' Hsz Hb. split_and!; [done..|]. by left.
Qed.

(** Cloning a whole file, over whatever the destination held: it ends with the size
    and the blocks of the source, whose bytes it shares; or the pool ran out of
    iblkrefs and the result is ENOSPC.  No other file is touched. *)
Theorem clone_spec s F N X stii dtii src dst m :
  fs_inv s F N X -> src ∈ F -> dst ∈ F -> src <> dst -> stii <> dtii ->
  tii_of s stii src -> tii_of s dtii dst -> is_reg s src -> is_reg s dst ->
  rc_le m s -> m + 2 ^ 40 < 2 ^ 64 ->
  wp (_clone stii dtii 0 0 0) s (fun r s' =>
    fs_inv s' F N X /\ fs_step s s' F X dst /\
    ((r = 0 /\ fsize s' dst = fsize s src /\ fblocks s' dst = fblocks s src) \/
     (r = - ENOSPC /\ free_le s' 1))).
Proof. apply wp_clone. Qed.

(** C12: Copy on write isolates a clone: after a clone, a write to either file leaves the
    bytes of the other as they were when it was taken. *)
Theorem clone_isolated s F N X stii dtii src dst m buf o n :
  fs_inv s F N X -> src ∈ F -> dst ∈ F -> src <> dst -> stii <> dtii ->
  tii_of s stii src -> tii_of s dtii dst -> is_reg s src -> is_reg s dst ->
  rc_le m s -> m + 2 ^ 40 < 2 ^ 64 ->
  0 <= o < 2 ^ 63 -> 0 <= n < 2 ^ 64 -> n <= Z.of_nat (length buf) ->
  wp (err ← _clone stii dtii 0 0 0; w ← _write dtii buf o n; mret err) s (fun err s' =>
    fblocks s' src = fblocks s src /\ fsize s' src = fsize s src) /\
  wp (err ← _clone stii dtii 0 0 0; w ← _write stii buf o n; mret err) s (fun err s' =>
    err = 0 -> fblocks s' dst = fblocks s src /\ fsize s' dst = fsize s src).
Proof.
  intros Hfs Hsrc Hdst Hne Hnt Hs Hd Hrs Hrd Hm Hmax Ho Hn Hbuf.
  assert (Hkeep : forall s1 s2 t1 t2, fs_step s1 s2 F X t1 -> t2 ∈ F -> t2 <> t1 ->
    fblocks s2 t2 = fblocks s1 t2 /\ fsize s2 t2 = fsize s1 t2).
  { intros s1 s2 t1 t2 (_&Hi&_&Hb&_) Ht2 Hne2. split; [by apply Hb|]. by rewrite /fsize Hi. }
  assert (Hw : forall s1 tii ti (err : Z) (Q : Z -> toyfs_sb_info -> Prop),
    fs_inv s1 F N X -> ti ∈ F -> tii_of s1 tii ti -> (forall s2, fs_step s1 s2 F X ti -> Q err s2) ->
    wp (w ← _write tii buf o n; mret err) s1 Q).
  { intros s1 tii ti err Q Hfs1 Hti Htii HQ. wp_step. apply (wp_write F N X s1 tii ti); try done; try lia.
    - intros _. wp_step. apply HQ, fs_step_refl.
    - intros s2 _ Hs2 ????. wp_step. by apply HQ.
    - intros s2 _ Hs2 ???. wp_step. by apply HQ. }
  split; wp_step; (eapply wp_mono; [by eapply (wp_clone s F N X stii dtii src dst m)|]);
    intros err s1 (Hfs1&Hs1&Hcase).
  - apply (Hw s1 dtii dst); [done|done|by eapply fs_step_tii|]. intros s2 Hs2.
    apply (Hkeep s s2 dst src); [by eapply fs_step_trans|done|done].
  - apply (Hw s1 stii src); [done|done|by eapply fs_step_tii|]. intros s2 Hs2 ->.
    destruct (Hkeep s1 s2 src dst) as [-> ->]; [done|done|congruence|]. naive_solver.
Qed.

(** ** Allocation *)
Definition same_bytes (s s' : toyfs_sb_info) (ti : Z) : Prop :=
  forall k, bbyte (fblocks s' ti) k = bbyte (fblocks s ti) k.
Definition allocated (s : toyfs_sb_info) (ti o : Z) : Prop :=
  is_Some (fblocks s ti !! (PAGE_SIZE * (o / PAGE_SIZE))).

Lemma wp_falloc_loop F N X tii ti e : forall fuel o c s (Q : option Z -> toyfs_sb_info -> Prop),
  fs_inv s F N X -> ti ∈ F -> tii_of s tii ti -> 0 <= o -> e <= 2 ^ 50 -> fuel_ok fuel o e ->
  (forall s', fs_step s s' F X ti -> fs_inv s' F N X -> fsize s' ti = fsize s ti ->
     same_bytes s s' ti -> free_le s' 1 -> Q None s') ->
  (forall s', fs_step s s' F X ti -> fs_inv s' F N X -> fsize s' ti = fsize s ti ->
     same_bytes s s' ti -> (forall k, o <= k < e \/ allocated s ti k -> allocated s' ti k) ->
     Q (Some (c + Z.max 0 (e - o))) s') ->
  wp (_falloc_loop fuel tii o e c) s Q.
Proof.
  induction fuel as [|fuel IH]; intros o c s Q Hfs Hti Htii Ho He Hfuel HN HS; [by destruct Hfuel; lia|].
  cbn [_falloc_loop]. destruct (Z.ltb_spec o e) as [Hlt|Hge]; cycle 1.
  { wp_step. replace c with (c + Z.max 0 (e - o)) by lia. apply HS; [apply fs_step_refl|done|done|done|].
    intros k [Hk|Hk]; [lia|done]. }
  destruct (page_split o Ho) as (q&r&Hq&Hr&Eo&Hbo&_&Hno). rewrite Hno.
  subst o. destruct (piece_len q r e) as (Hn&Hn0&Hrn); [lia..|]. set (n := _nbytes_in_range _ _ _) in *.
  wp_step. apply (wp_require_iblkref s F N X tii ti); [done|done|done|lia| |].
  { intros s1 Hs1 Hfs1 Hfb1 Hsz1 Hfree1. wp_step. apply HN; try done. intros k. by rewrite Hfb1. }
  rewrite Hbo. intros x s1 Hs1 Hfs1 Hfb1 Hsz1 _. cbn beta iota.
  assert (Hsame : same_bytes s s1 ti) by (intros k; by rewrite Hfb1 bbyte_materialise).
  apply (IH _ _ s1); try done; try lia; [by eapply fs_step_tii|by eapply fuel_ok_next| |].
  - intros s2 Hs2 Hfs2 Hsz2 Hb2 Hfree2. apply HN; [by eapply fs_step_trans|done|congruence| |done].
    intros k. by rewrite Hb2.
  - intros s2 Hs2 Hfs2 Hsz2 Hb2 Hal.
    replace (c + n + Z.max 0 (e - (PAGE_SIZE * q + PAGE_SIZE)))
      with (c + Z.max 0 (e - (PAGE_SIZE * q + r))) by lia.
    apply HS; [by eapply fs_step_trans|done|congruence| |]; [intros k; by rewrite Hb2|].
    assert (Hal1 : forall k, allocated s ti k -> allocated s1 ti k).
    { intros k (d&Hd). rewrite /allocated Hfb1 lookup_insert. case_decide; [done|by exists d]. }
    intros k [Hk|Hk]; [|apply Hal; right; by apply Hal1].
    destruct (Z.lt_ge_cases k (PAGE_SIZE * q + PAGE_SIZE)) as [Hlo|Hhi]; [|apply Hal; left; lia].
    apply Hal. right. rewrite /allocated Hfb1.
    replace (k / PAGE_SIZE) with q; [by rewrite lookup_insert_eq|].
    apply Z.div_unique with (k - PAGE_SIZE * q); lia.
Qed.

Lemma wp_toyfs_fallocate s F N X zii ti pos last mode io :
  fs_inv s F N X -> ti ∈ F -> zii_of s zii ti ->
  mode = 0 \/ mode = FALLOC_FL_KEEP_SIZE -> Z.land mode ZUFS_FL_TRUNCATE = 0 ->
  0 <= pos < last -> last <= 2 ^ 50 ->
  io_filepos io = pos -> io_last_pos io = last -> io_rw io = mode ->
  wp (toyfs_fallocate zii io) s (fun r s' =>
    fs_inv s' F N X /\ fs_step s s' F X ti /\ same_bytes s s' ti /\
    ((r = 0 /\ fsize s' ti = Z.max last (fsize s ti) /\ forall k, pos <= k < last -> allocated s' ti k) \/
     (r = - ENOSPC /\ fsize s' ti = fsize s ti /\ free_le s' 1))).
Proof.
  intros Hfs Hti Hz Hmode Htr Hpos Hlast E1 E2 E3. rewrite /toyfs_fallocate E1 E2 E3. wp_step.
  eapply wp_zii; [exact Hz|]. apply zii_tii in Hz.
  assert (s64 mode = mode) as -> by (by destruct Hmode as [->| ->]).
  rewrite {1}/flag_set Htr. cbn [negb Z.eqb]. cbv iota. rewrite !s64_small; [lia..|].
  rewrite /_fallocate u64_small; [lia|].
  assert (_check_io pos (last - pos) = 0) as -> by (apply check_io_0; lia).
  assert (_check_falloc (s32 mode) pos (last - pos) = 0) as -> by (by destruct Hmode as [->| ->]).
  assert (forall f, (f = FALLOC_FL_PUNCH_HOLE \/ f = FALLOC_FL_ZERO_RANGE \/ f = FALLOC_FL_COLLAPSE_RANGE) ->
    flag_set (s32 mode) f = false) as Hfl by (destruct Hmode as [->| ->]; naive_solver).
  cbn [Z.eqb negb]. cbv iota. rewrite !Hfl; [auto..|]. rewrite /_falloc_range s64_small; [lia|].
  replace (pos + (last - pos)) with last by lia. wp_step.
  apply (wp_falloc_loop F N X zii ti); [done|done|done|lia|lia|by apply page_fuel_ok; lia| |].
  - intros s1 ?????. wp_step. split_and!; [done..|]. by right.
  - intros s1 Hs1 Hfs1 Hsz1 Hb1 Hal. wp_step. eapply wp_ti; [by eapply fs_step_tii|].
    destruct (fs_inv_fsize s1 F N X ti) as (i&Hi&Hisz&Hib); [done..|].
    replace (0 + Z.max 0 (last - pos)) with (last - pos) by lia.
    wp_step. eapply wp_set_inode; [exact Hi|]. wp_step.
    assert (Hnew : u64 (_max_offset pos (last - pos) (i_size i)) = Z.max last (i_size i)).
    { rewrite _max_offset_eq; [lia..|]. rewrite u64_small; lia. }
    destruct (fs_inv_set_size s1 F N X ti i (fun sz => u64 (_max_offset pos (last - pos) sz)))
      as (Hfs2&Hs2&Hfb2&Hsz2); [done..|rewrite Hnew; lia|].
    split_and!; [done|by eapply fs_step_trans|intros k; by rewrite Hfb2 Hb1|].
    left. split_and!; [done|by rewrite Hsz2 -Hsz1 Hisz Hnew|].
    intros k Hk. rewrite /allocated Hfb2. apply Hal. by left.
Qed.
(** C20: Plain allocation: every page of the range gets a block, no byte changes, and the
    size grows to the end of the range, whether or not [FALLOC_FL_KEEP_SIZE] was
    asked for; or the pool is empty and the result is ENOSPC. *)
Theorem fallocate_spec s F N X zii ti pos last mode io :
  fs_inv s F N X -> ti ∈ F -> zii_of s zii ti ->
  mode = 0 \/ mode = FALLOC_FL_KEEP_SIZE -> Z.land mode ZUFS_FL_TRUNCATE = 0 ->
  0 <= pos < last -> last <= 2 ^ 50 ->
  io_filepos io = pos -> io_last_pos io = last -> io_rw io = mode ->
  wp (toyfs_fallocate zii io) s (fun r s' =>
    fs_inv s' F N X /\ fs_step s s' F X ti /\ same_bytes s s' ti /\
    ((r = 0 /\ fsize s' ti = Z.max last (fsize s ti) /\ forall k, pos <= k < last -> allocated s' ti k) \/
     (r = - ENOSPC /\ fsize s' ti = fsize s ti /\ free_le s' 1))).
Proof. apply wp_toyfs_fallocate. Qed.

(** ** Seek *)
Lemma wp_seek_loop F N X tii ti e s b : forall fuel o (Q : option Z -> toyfs_sb_info -> Prop),
  fs_inv s F N X -> ti ∈ F -> tii_of s tii ti -> 0 <= o -> fuel_ok fuel o e ->
  (forall r, o <= r < e -> (allocated s ti r <-> b = true) ->
     (forall k, o <= k < r -> ~ (allocated s ti k <-> b = true)) -> Q (Some r) s) ->
  ((forall k, o <= k < e -> ~ (allocated s ti k <-> b = true)) -> Q None s) ->
  wp (_seek_loop fuel tii o e b) s Q.
Proof.
  induction fuel as [|fuel IH]; intros o Q Hfs Hti Htii Ho Hfuel HS HN; [by destruct Hfuel; lia|].
  cbn [_seek_loop]. destruct (Z.ltb_spec o e) as [Hlt|Hge]; [|wp_step; apply HN; lia].
  destruct (page_split o Ho) as (q&r&Hq&Hr&Eo&Hbo&_&Hno). rewrite Hno. subst o.
  assert (Hpage : forall k, PAGE_SIZE * q + r <= k < PAGE_SIZE * q + PAGE_SIZE ->
    (allocated s ti k <-> is_Some (fblocks s ti !! (PAGE_SIZE * q)))).
  { intros k Hk. rewrite /allocated. replace (k / PAGE_SIZE) with q; [done|].
    apply Z.div_unique with (k - PAGE_SIZE * q); lia. }
  assert (Hgo : ~ (is_Some (fblocks s ti !! (PAGE_SIZE * q)) <-> b = true) ->
    wp (_seek_loop fuel tii (PAGE_SIZE * q + PAGE_SIZE) e b) s Q).
  { intros Hno'. apply IH; try done; [lia|by eapply fuel_ok_next| |].
    - intros x Hx Hxa Hall. apply HS; [lia|done|]. intros k Hk.
      destruct (Z.lt_ge_cases k (PAGE_SIZE * q + PAGE_SIZE)); [rewrite Hpage //|apply Hall]; lia.
    - intros Hall. apply HN. intros k Hk.
      destruct (Z.lt_ge_cases k (PAGE_SIZE * q + PAGE_SIZE)); [rewrite Hpage //|apply Hall]; lia. }
  wp_step. apply (wp_fetch_pmemb s F N X tii ti); [done..| |]; rewrite Hbo.
  - intros Hb. cbn [Z.eqb negb]. rewrite /= Hb in Hgo. destruct b; cbn [negb orb andb].
    + apply Hgo. by intros [_ [? ?]].
    + wp_step. apply HS; [lia| |lia]. rewrite Hpage ?Hb; [lia|]. by split; [intros [? ?]|].
  - intros p dat Hp _ Hb _. rewrite (proj2 (Z.eqb_neq p 0)); [lia|]. rewrite Hb in Hgo.
    destruct b; cbn [negb orb andb].
    + wp_step. apply HS; [lia| |lia]. rewrite Hpage ?Hb; [lia|]. split; [done|by eexists].
    + apply Hgo. intros [Hx _]. by discriminate Hx.
Qed.

Definition wanted (s : toyfs_sb_info) (ti whence k : Z) : Prop :=
  if whence =? SEEK_DATA then allocated s ti k else ~ allocated s ti k.

Lemma wp_seek_block s F N X tii ti o b whence (Q : Z * Z -> toyfs_sb_info -> Prop) :
  fs_inv s F N X -> ti ∈ F -> tii_of s tii ti -> 0 <= o ->
  (forall k, wanted s ti whence k <-> (allocated s ti k <-> b = true)) ->
  (forall r, o <= r < fsize s ti -> wanted s ti whence r ->
     (forall k, o <= k < r -> ~ wanted s ti whence k) -> Q (0, r) s) ->
  ((forall k, o <= k < fsize s ti -> ~ wanted s ti whence k) -> Q (0, 2 ^ 64 - 1) s) ->
  wp (x ← _seek_block tii o b (-1); mret (0, u64 x)) s Q.
Proof.
  intros Hfs Hti Htii Ho Hw HS HN. destruct (fs_inv_fsize s F N X ti) as (i&Hi&Hisz&Hib); [done..|].
  rewrite /_seek_block. do 2 wp_step. eapply wp_ti; [exact Htii|].
  wp_step. eapply wp_get_inode; [exact Hi|]. rewrite -Hisz s64_small; [lia|]. wp_step.
  apply (wp_seek_loop F N X tii ti); [done|done|done|lia|apply page_fuel_ok; lia| |].
  - intros r Hr Ha Hall. do 2 wp_step. rewrite u64_small; [lia|].
    apply HS; [done|by apply Hw|]. intros k Hk ?%Hw. by apply (Hall k Hk).
  - intros Hall. do 2 wp_step. apply HN. intros k Hk ?%Hw. by apply (Hall k Hk).
Qed.

(** SEEK_DATA and SEEK_HOLE answer the first offset from [o] on, before the end of the
    file, that lies in an allocated block (resp. in none); when there is none the
    answer is the all-ones offset with no error.  Any other [whence] is refused. *)
Theorem seek_spec s F N X zii ti o whence :
  fs_inv s F N X -> ti ∈ F -> zii_of s zii ti -> 0 <= o < 2 ^ 63 ->
  wp (toyfs_seek zii o whence) s (fun r s' => s' = s /\
    if decide (whence = SEEK_DATA \/ whence = SEEK_HOLE) then
      r.1 = 0 /\
      ((o <= r.2 < fsize s ti /\ wanted s ti whence r.2 /\ forall k, o <= k < r.2 -> ~ wanted s ti whence k) \/
       (r.2 = 2 ^ 64 - 1 /\ forall k, o <= k < fsize s ti -> ~ wanted s ti whence k))
    else r = (- ENOTSUP, 2 ^ 64 - 1)).
Proof.
  intros Hfs Hti Hz Ho. rewrite /toyfs_seek. wp_step. eapply wp_zii; [exact Hz|]. apply zii_tii in Hz.
  rewrite s64_small; [lia|]. destruct (Z.eqb_spec whence SEEK_DATA) as [->|Hd].
  { rewrite /_seek_data. apply (wp_seek_block s F N X zii ti o true SEEK_DATA); try done; try lia.
    - intros k. rewrite /wanted /=. naive_solver.
    - intros r Hr Hw Hall. split; [done|]. case_decide; [|tauto]. split; [done|]. by left.
    - intros Hall. split; [done|]. case_decide; [|tauto]. split; [done|]. by right. }
  destruct (Z.eqb_spec whence SEEK_HOLE) as [->|Hh].
  { rewrite /_seek_hole. apply (wp_seek_block s F N X zii ti o false SEEK_HOLE); try done; try lia.
    - intros k. rewrite /wanted /=. naive_solver.
    - intros r Hr Hw Hall. split; [done|]. case_decide; [|tauto]. split; [done|]. by left.
    - intros Hall. split; [done|]. case_decide; [|tauto]. split; [done|]. by right. }
  wp_step. split; [done|]. case_decide; [naive_solver|done].
Qed.
End claims.

(** ** An example: a device of 64 pages, 16 of them formatted, with two regular
    files, open as [tii] 1 and 2. *)
Section example.
#[local] Existing Instance example_md.

Definition reg_inode (n : Z) : toyfs_inode :=
  upd_i_mode (fun _ => S_IFREG) (upd_i_nlink (fun _ => 1) (upd_i_ino (fun _ => n) zero_inode)).
Definition reg_tii (p n : Z) : toyfs_inode_info := ToyfsInodeInfo (Some p) true true (Some p) n 0 1 true true.
Definition new_example (tii n : Z) : FS unit :=
  r ← toyfs_acquire_inode; p ← of_option r;
  modify (upd_h_inode (<[p := reg_inode n]>));; modify (upd_h_tii (<[tii := reg_tii p n]>)).
Definition run_or {A} (m : FS A) (s : toyfs_sb_info) : toyfs_sb_info :=
  match m s with Some (_, s') => s' | None => s end.
Definition fs_empty : toyfs_sb_info := run_or (_pool_setup (md_baddr 2) (md_p2o 16);; _sbi_setup) sbi_zero.
Definition fs_example1 : toyfs_sb_info := run_or (new_example 1 11) fs_empty.
Definition fs_example : toyfs_sb_info := run_or (new_example 2 12) fs_example1.
Definition file1 : Z := 69632.
Definition file2 : Z := 69760.
Definition ex_files : gset Z := {[file2]} ∪ ({[file1]} ∪ ∅).

Lemma wp_new_example s F N X tii n (Q : unit -> toyfs_sb_info -> Prop) :
  fs_inv s F N X -> F ⊆ N -> (exists x, toyfs_acquire_inode s = Some x /\ is_Some x.1) ->
  (forall p s', p ∉ N -> fs_inv s' ({[p]} ∪ F) ({[p]} ∪ N) X ->
     h_tii s' = <[tii := reg_tii p n]> (h_tii s) ->
     h_inode s' = <[p := reg_inode n]> (h_inode s) -> Q tt s') ->
  wp (new_example tii n) s Q.
Proof.
  intros Hfs HFN ([x s1]&Hrun&[p Hp]) HQ. cbn in Hp. subst x. rewrite /new_example. wp_step.
  assert (wp toyfs_acquire_inode s (fun r s' => forall x, r = Some x -> 
    wp (modify (upd_h_inode (<[x := reg_inode n]>));; modify (upd_h_tii (<[tii := reg_tii x n]>))) s' Q)) as Hw.
  { apply (wp_new_file s F N X); [done|done| |].
    - intros s' _ _ x Hx. discriminate Hx.
    - intros y s' Hy Hr He Hinv x [= <-]. do 2 wp_step. injection He as E1 E2 E3.
      apply HQ with y; [done| | |by fs_simpl; rewrite E3].
      + apply fs_inv_tii, Hinv; [done..|]. by split.
      + fs_simpl. by rewrite (rest_tii _ _ Hr). }
  rewrite /wp Hrun in Hw |- *. cbn [of_option mret ST_ret mbind ST_bind]. by apply Hw.
Qed.

Lemma run_or_wp {A} (m : FS A) s (Q : toyfs_sb_info -> Prop) : wp m s (fun _ s' => Q s') -> Q (run_or m s).
Proof. rewrite /wp /run_or. by destruct (m s) as [[a s']|]. Qed.

Lemma fs_empty_inv : fs_inv fs_empty ∅ ∅ ∅.
Proof.
  apply (run_or_wp _ sbi_zero (fun s => fs_inv s ∅ ∅ ∅)).
  eapply wp_mono; [apply (wp_pool_setup sbi_zero 16 pool_blank_zero); cbn [md_t1_blocks example_md]; lia|].
  intros _ s' (_&_&_&_&_&Hp&_). by apply fs_inv_pool.
Qed.
Lemma fs_example1_inv : fs_inv fs_example1 ({[file1]} ∪ ∅) ({[file1]} ∪ ∅) ∅.
Proof.
  assert (exists p, fs_inv fs_example1 ({[p]} ∪ ∅) ({[p]} ∪ ∅) ∅ /\ h_tii fs_example1 !! 1 = Some (reg_tii p 11))
    as (p&Hinv&Hp).
  { apply (run_or_wp (new_example 1 11) fs_empty (fun s => exists p,
      fs_inv s ({[p]} ∪ ∅) ({[p]} ∪ ∅) ∅ /\ h_tii s !! 1 = Some (reg_tii p 11))).
    apply (wp_new_example fs_empty ∅ ∅ ∅); [exact fs_empty_inv|done| |].
    - eexists. split; [vm_compute; reflexivity|by eexists].
    - intros p s' _ Hinv Htii _. exists p. split; [done|]. by rewrite Htii lookup_insert_eq. }
  assert (E : (ti <$> h_tii fs_example1 !! 1) = Some (Some file1)) by (vm_compute; reflexivity).
  rewrite Hp in E. apply (inj Some), (inj Some) in E. cbn in E. by subst p.
Qed.
Lemma fs_example_facts :
  fs_inv fs_example ex_files ex_files ∅ /\
  h_tii fs_example !! 1 = Some (reg_tii file1 11) /\ h_tii fs_example !! 2 = Some (reg_tii file2 12) /\
  h_inode fs_example !! file1 = Some (reg_inode 11) /\ h_inode fs_example !! file2 = Some (reg_inode 12).
Proof.
  split; [|vm_compute; done].
  assert (exists p, fs_inv fs_example ({[p]} ∪ ({[file1]} ∪ ∅)) ({[p]} ∪ ({[file1]} ∪ ∅)) ∅ /\
      h_tii fs_example !! 2 = Some (reg_tii p 12)) as (p&Hinv&Hp).
  { apply (run_or_wp (new_example 2 12) fs_example1 (fun s => exists p,
      fs_inv s ({[p]} ∪ ({[file1]} ∪ ∅)) ({[p]} ∪ ({[file1]} ∪ ∅)) ∅ /\ h_tii s !! 2 = Some (reg_tii p 12))).
    apply (wp_new_example fs_example1 ({[file1]} ∪ ∅) ({[file1]} ∪ ∅) ∅); [exact fs_example1_inv|done| |].
    - eexists. split; [vm_compute; reflexivity|by eexists].
    - intros p s' _ Hinv Htii _. exists p. split; [done|]. by rewrite Htii lookup_insert_eq. }
  assert (E : (ti <$> h_tii fs_example !! 2) = Some (Some file2)) by (vm_compute; reflexivity).
  rewrite Hp in E. apply (inj Some), (inj Some) in E. cbn in E. by subst p.
Qed.
Lemma fs_example_inv : fs_inv fs_example ex_files ex_files ∅.
Proof. apply fs_example_facts. Qed.
Lemma ex_zii1 : zii_of fs_example 1 file1.
Proof. destruct fs_example_facts as (_&H&_). exists (reg_tii file1 11). by rewrite H. Qed.
Lemma ex_zii2 : zii_of fs_example 2 file2.
Proof. destruct fs_example_facts as (_&_&H&_). exists (reg_tii file2 12). by rewrite H. Qed.
Lemma ex_in1 : file1 ∈ ex_files.
Proof. rewrite /ex_files. set_solver. Qed.
Lemma ex_in2 : file2 ∈ ex_files.
Proof. rewrite /ex_files. set_solver. Qed.
Lemma ex_reg1 : is_reg fs_example file1.
Proof. exists (reg_inode 11). split; [apply fs_example_facts|done]. Qed.
Lemma ex_reg2 : is_reg fs_example file2.
Proof. exists (reg_inode 12). split; [apply fs_example_facts|done]. Qed.
Lemma ex_counts : rc_le 0 fs_example.
Proof.
  intros d r Hr. assert (h_dblkref fs_example = ∅) as E by (vm_compute; reflexivity).
  by rewrite E lookup_empty in Hr.
Qed.

(** Five bytes written across a page boundary. *)
Definition ex_buf : list Z := [104; 101; 108; 108; 111].

Lemma toyfs_write_spec_witness :
  wp (toyfs_write ex_buf (ZufsIocIO 1 4094 5 0 0)) fs_example (fun r s' =>
    fs_step fs_example s' ex_files ∅ file1 /\ (r.1 = 0 \/ r.1 = - ENOSPC)).
Proof.
  eapply wp_mono; [apply (toyfs_write_spec fs_example ex_files ex_files ∅ 1 file1 ex_buf 4094 5 0 0);
    [exact fs_example_inv|exact ex_in1|exact ex_zii1|lia|lia|simpl; lia]|].
  intros r s' (_&Hs&Hc). split; [exact Hs|]. change ZUS_API_MAP_MAX_SIZE with 4194304 in Hc.
  case_decide as Hd; [|exfalso; apply Hd; lia]. destruct Hc as [[-> _]|[-> _]]; [left|right]; reflexivity.
Defined.
Lemma toyfs_read_spec_witness :
  wp (toyfs_read (ZufsIocIO 1 4094 5 0 0)) fs_example (fun r s' => s' = fs_example /\ r.1.1 = 0).
Proof.
  eapply wp_mono; [apply (toyfs_read_spec fs_example ex_files ex_files ∅ 1 file1 4094 5 0 0);
    [exact fs_example_inv|exact ex_in1|exact ex_zii1|lia|lia]|].
  intros r s' (Hs&Hc). split; [exact Hs|]. change ZUS_API_MAP_MAX_SIZE with 4194304 in Hc.
  case_decide as Hd; [|exfalso; apply Hd; lia]. cbv zeta in Hc. rewrite Hc. reflexivity.
Defined.
Lemma write_read_witness :
  wp (w ← toyfs_write ex_buf (ZufsIocIO 1 4094 5 0 0);
      if w.1 =? 0 then r ← toyfs_read (ZufsIocIO 1 4094 5 0 0); mret (Some r.1) else mret None)
    fs_example (fun r _ => match r with Some r => r = (0, ex_buf) | None => True end).
Proof.
  apply (write_read fs_example ex_files ex_files ∅ 1 file1 ex_buf 4094 5 0 0);
    [exact fs_example_inv|exact ex_in1|exact ex_zii1|lia|lia|simpl; lia].
Defined.
Lemma truncate_spec_witness :
  wp (toyfs_truncate 1 100) fs_example (fun r s' => fsize s' file1 = 100).
Proof.
  eapply wp_mono; [apply (truncate_spec fs_example ex_files ex_files ∅ 1 file1 (reg_inode 11) 100);
    [exact fs_example_inv|exact ex_in1|exact (zii_tii _ _ _ ex_zii1)|apply fs_example_facts|lia]|].
  intros r s' (_&_&H). apply H.
Defined.
Lemma clone_spec_witness :
  wp (_clone 1 2 0 0 0) fs_example (fun r s' => r = 0 \/ r = - ENOSPC).
Proof.
  eapply wp_mono; [apply (clone_spec fs_example ex_files ex_files ∅ 1 2 file1 file2 0);
    [exact fs_example_inv|exact ex_in1|exact ex_in2|done|done|exact (zii_tii _ _ _ ex_zii1)|
     exact (zii_tii _ _ _ ex_zii2)|exact ex_reg1|exact ex_reg2|exact ex_counts|lia]|].
  intros r s' (_&_&H). destruct H as [[-> _]|[-> _]]; auto.
Defined.
Lemma clone_isolated_witness :
  wp (err ← _clone 1 2 0 0 0; w ← _write 2 ex_buf 4094 5; mret err) fs_example (fun _ s' =>
    fsize s' file1 = fsize fs_example file1).
Proof.
  destruct (clone_isolated fs_example ex_files ex_files ∅ 1 2 file1 file2 0 ex_buf 4094 5) as [H _];
    [exact fs_example_inv|exact ex_in1|exact ex_in2|done|done|exact (zii_tii _ _ _ ex_zii1)|
     exact (zii_tii _ _ _ ex_zii2)|exact ex_reg1|exact ex_reg2|exact ex_counts|lia|lia|lia|simpl; lia|].
  eapply wp_mono; [exact H|]. intros r s' Hs. apply Hs.
Defined.
Lemma fallocate_spec_witness :
  wp (toyfs_fallocate 1 (ZufsIocIO 1 4094 0 9000 1)) fs_example (fun r s' => r = 0 \/ r = - ENOSPC).
Proof.
  eapply wp_mono; [apply (fallocate_spec fs_example ex_files ex_files ∅ 1 file1 4094 9000 1);
    [exact fs_example_inv|exact ex_in1|exact ex_zii1|right; reflexivity|reflexivity|lia|lia|reflexivity..]|].
  intros r s' (_&_&_&H). destruct H as [[-> _]|[-> _]]; auto.
Defined.
Lemma seek_spec_witness :
  wp (toyfs_seek 1 0 SEEK_DATA) fs_example (fun r s' => r.1 = 0).
Proof.
  eapply wp_mono; [apply (seek_spec fs_example ex_files ex_files ∅ 1 file1 0 SEEK_DATA);
    [exact fs_example_inv|exact ex_in1|exact ex_zii1|lia]|].
  intros r s' (_&H). case_decide as Hd; [|exfalso; apply Hd; by left]. apply H.
Defined.

(** A file of 9000 bytes. *)
Definition fs_example_sz : toyfs_sb_info := run_or (toyfs_truncate 1 9000) fs_example.
Lemma fs_example_sz_ok :
  fs_inv fs_example_sz ex_files ex_files ∅ /\ tii_of fs_example_sz 1 file1 /\ is_reg fs_example_sz file1.
Proof.
  apply (run_or_wp _ fs_example (fun s => fs_inv s ex_files ex_files ∅ /\ tii_of s 1 file1 /\ is_reg s file1)).
  assert (Hc : forall s', fs_step fs_example s' ex_files ∅ file1 -> fs_inv s' ex_files ex_files ∅ ->
    fs_inv s' ex_files ex_files ∅ /\ tii_of s' 1 file1 /\ is_reg s' file1).
  { intros s' Hs Hfs. split_and!; [done|eapply fs_step_tii; [done|apply zii_tii, ex_zii1]|eapply fs_step_reg; [done|exact ex_reg1]]. }
  apply (wp_truncate fs_example ex_files ex_files ∅ 1 file1); [exact fs_example_inv|exact ex_in1|
    apply zii_tii, ex_zii1|exact ex_reg1|lia|auto|auto].
Qed.
Lemma truncate_grow_zeros_witness :
  wp (err ← toyfs_truncate 1 5000;
      if err =? 0 then
        err ← toyfs_truncate 1 5010; r ← _read 1 5000 (5010 - 5000); mret (Some (err, r))
      else mret None) fs_example_sz (fun r _ =>
    match r with Some r => r = (0, (5010 - 5000, zeros (Z.to_nat (5010 - 5000)))) | None => True end).
Proof.
  destruct fs_example_sz_ok as (Hfs&Hti&Hreg).
  apply (truncate_grow_zeros fs_example_sz ex_files ex_files ∅ 1 file1 5000 5010);
    [exact Hfs|exact ex_in1|exact Hti|exact Hreg| |lia|change ZUS_API_MAP_MAX_SIZE with 4194304; lia].
  assert (fsize fs_example_sz file1 = 9000) as -> by (vm_compute; reflexivity). lia.
Defined.

(** ** Where sharing goes wrong *)
Definition fs_shared : toyfs_sb_info :=
  run_or (toyfs_write ex_buf (ZufsIocIO 1 0 5 0 0);; _clone 1 2 0 0 0) fs_example.

(** Punching a partial page writes zeros into the page without making it private
    first: punching four bytes out of a clone zeroes them in the original too. *)
Theorem punch_hole_breaks_clone :
  bbytes (fblocks fs_shared file1) 0 5 = ex_buf /\ bbytes (fblocks fs_shared file2) 0 5 = ex_buf /\
  wp (_punch_hole 2 0 4) fs_shared (fun r s' =>
    r = 0 /\ bbytes (fblocks s' file1) 0 5 = [0; 0; 0; 0; 111]).
Proof. split_and!; vm_compute; [reflexivity..|split; reflexivity]. Qed.

(** The copy-on-write of [_require_iblkref] does not drop the reference to the old
    page, as [_unique_pmemb] does: once a cloned block was overwritten, emptying both
    files leaves one page of the pool unaccounted for, where without the overwrite
    none is. *)
Theorem cow_leaks_page :
  f_bfree (s_statvfs fs_example) = 16 /\
  wp (toyfs_truncate 1 0;; toyfs_truncate 2 0) fs_shared (fun r s' => f_bfree (s_statvfs s') = 16) /\
  wp (toyfs_write ex_buf (ZufsIocIO 2 0 5 0 0);; toyfs_truncate 1 0;; toyfs_truncate 2 0) fs_shared
    (fun r s' => flist s' file1 = [] /\ flist s' file2 = [] /\ f_bfree (s_statvfs s') = 15).
Proof. split_and!; vm_compute; [reflexivity..|split_and!; reflexivity]. Qed.
End example.
