(* ===== verification/DirPage.v ===== *)
(** * A page of directory entries: [struct toyfs_dentries] of fs/toyfs/dir.c

    A page holds a 32-byte head and 127 slots of 32 bytes.  An entry starts at a
    slot; a name longer than the 14 bytes of [d_name] runs on over the following
    slots.  The first half of the file is the code on the bytes of one page; the
    second reads a page as a list of slots and shows what the code does to it. *)

From S2P Require Import Prelude Bytes.

#[local] Open Scope nat_scope.

(** ** The code *)
Definition sizeof_dirent : nat := 32.
Definition DIRENTS : nat := 127.
(** [&dentries->de[k]] *)
Definition de_at (k : nat) : nat := 32 + sizeof_dirent * k.
(** The fields of [struct toyfs_dirent]. *)
Definition d_off (dat : list Z) (k : nat) : Z := s64 (le_val (slice (de_at k) 8 dat)).
Definition d_ino (dat : list Z) (k : nat) : Z := le_val (slice (de_at k + 8) 8 dat).
Definition d_type (dat : list Z) (k : nat) : Z := le_val (slice (de_at k + 16) 1 dat).
Definition d_nlen (dat : list Z) (k : nat) : nat := Z.to_nat (le_val (slice (de_at k + 17) 1 dat)).
Definition d_name (dat : list Z) (k n : nat) : list Z := slice (de_at k + 18) n dat.

Definition _namelen_to_nde (nlen : nat) : nat :=
  if 14 <? nlen then 1 + (nlen - 14 + sizeof_dirent - 1) / sizeof_dirent else 1.

(** [memset] and [memcpy] into a page. *)
Definition blit (dat : list Z) (o : nat) (src : list Z) : list Z :=
  take o dat ++ src ++ drop (o + length src) dat.

(** The dirent at slot [k] with the inode number and mode of [tii]. *)
Definition IFTODT (mode : Z) : Z := Z.shiftr (Z.land mode 61440) 12.
Definition _set_dirent (dat : list Z) (k : nat) (name : list Z) (ino mode off : Z) : list Z :=
  let nlen := length name in
  let nde := _namelen_to_nde nlen in
  let dat := blit dat (de_at k) (zero_bytes (nde * sizeof_dirent)) in
  let dat := blit dat (de_at k + 18) name in
  let dat := blit dat (de_at k + 17) (le_bytes 1 (Z.of_nat nlen)) in
  let dat := blit dat (de_at k + 8) (le_bytes 8 ino) in
  let dat := blit dat (de_at k + 16) (le_bytes 1 (IFTODT mode)) in
  blit dat (de_at k) (le_bytes 8 off).

Definition _is_active (dat : list Z) (k : nat) : bool :=
  (0 <? d_nlen dat k) && negb (d_ino dat k =? 0)%Z.

(** [strncmp(a, b, n) == 0] *)
Fixpoint strncmp_eq (n : nat) (a b : list Z) : bool :=
  match n with
  | O => true
  | S m =>
    let x := hd 0%Z a in let y := hd 0%Z b in
    (x =? y)%Z && ((x =? 0)%Z || strncmp_eq m (tl a) (tl b))
  end.
(** [struct zufs_str] is a length and that many bytes: here a list. *)
Definition _hasname (dat : list Z) (k : nat) (str : list Z) : bool :=
  (d_nlen dat k =? length str) && strncmp_eq (d_nlen dat k) (d_name dat k (d_nlen dat k)) str.

Definition _next_dirent (dat : list Z) (k : nat) : nat :=
  k + (if _is_active dat k then _namelen_to_nde (d_nlen dat k) else 1).

(** The loops take as fuel the slots that are left, which is at least the number of
    iterations, as each one advances. *)
Fixpoint _count_free_de (fuel : nat) (dat : list Z) (k : nat) : nat :=
  match fuel with
  | O => 0
  | S f => if k <? DIRENTS then (if negb (d_nlen dat k =? 0) then 0 else S (_count_free_de f dat (S k))) else 0
  end.
Fixpoint _search_free (fuel : nat) (dat : list Z) (required k : nat) : option nat :=
  match fuel with
  | O => None
  | S f =>
    if k <? DIRENTS then
      let count := _count_free_de (DIRENTS - k) dat k in
      if required <=? count then Some k
      else _search_free f dat required
             (k + (if negb (count =? 0) then count else _namelen_to_nde (d_nlen dat k)))
    else None
  end.
Fixpoint _find_dirent (fuel : nat) (dat : list Z) (str : list Z) (k : nat) : option nat :=
  match fuel with
  | O => None
  | S f =>
    if k <? DIRENTS then
      if _hasname dat k str then Some k else _find_dirent f dat str (_next_dirent dat k)
    else None
  end.
(** The assertion of [_reset_dirent] is [None]. *)
Definition _reset_dirent (dat : list Z) (k : nat) : option (list Z) :=
  let nde := _namelen_to_nde (d_nlen dat k) in
  if 0 <? d_nlen dat k then Some (blit dat (de_at k) (zero_bytes (nde * sizeof_dirent))) else None.

(** ** A page as a list of slots *)
Record dent := Dent { e_name : list Z; e_ino : Z; e_type : Z; e_off : Z }.
Inductive slot : Type :=
| Free
| Used (e : dent).

Definition slots_of (x : slot) : nat :=
  match x with Free => 1 | Used e => _namelen_to_nde (length (e_name e)) end.
Definition enc_dent (e : dent) : list Z :=
  le_bytes 8 (e_off e) ++ le_bytes 8 (e_ino e) ++ le_bytes 1 (e_type e) ++
  le_bytes 1 (Z.of_nat (length (e_name e))) ++ e_name e ++
  zero_bytes (_namelen_to_nde (length (e_name e)) * 32 - (18 + length (e_name e))).
Definition enc (x : slot) : list Z :=
  match x with Free => zero_bytes 32 | Used e => enc_dent e end.
Definition enc_all (l : list slot) : list Z := concat (enc <$> l).
Definition nslots (l : list slot) : nat := sum_list (slots_of <$> l).

(** Names are the non-empty C strings of at most 255 bytes, inode numbers are not 0. *)
Definition name_ok (n : list Z) : Prop :=
  0 < length n < 256 /\ forall b, b ∈ n -> (0 < b < 256)%Z.
Definition dent_ok (e : dent) : Prop :=
  name_ok (e_name e) /\ (0 < e_ino e < 2 ^ 64)%Z /\ (0 <= e_type e < 256)%Z /\
  (- 2 ^ 63 <= e_off e < 2 ^ 63)%Z.
Definition slot_ok (x : slot) : Prop := match x with Free => True | Used e => dent_ok e end.

(** The page [dat] holds [l]. *)
Definition page_rep (dat : list Z) (l : list slot) : Prop :=
  length dat = 4096 /\ drop 32 dat = enc_all l /\ nslots l = DIRENTS /\ Forall slot_ok l.

Lemma nde_pos n : 1 <= _namelen_to_nde n.
Proof. rewrite /_namelen_to_nde. destruct (Nat.ltb_spec 14 n); lia. Qed.
Lemma nde_fits n : 18 + n <= _namelen_to_nde n * 32.
Proof.
  rewrite /_namelen_to_nde /sizeof_dirent. destruct (Nat.ltb_spec 14 n); [|lia].
  pose proof (Nat.div_mod (n - 14 + 32 - 1) 32 ltac:(lia)).
  pose proof (Nat.mod_upper_bound (n - 14 + 32 - 1) 32 ltac:(lia)). lia.
Qed.
Lemma slots_pos x : 1 <= slots_of x.
Proof. destruct x; [done|apply nde_pos]. Qed.
Lemma enc_length x : length (enc x) = slots_of x * 32.
Proof.
  destruct x as [|e]; [done|]. rewrite /enc /enc_dent !length_app !le_bytes_length length_replicate /=.
  pose proof (nde_fits (length (e_name e))). lia.
Qed.
Lemma enc_all_cons x l : enc_all (x :: l) = enc x ++ enc_all l.
Proof. done. Qed.
Lemma enc_all_app l l' : enc_all (l ++ l') = enc_all l ++ enc_all l'.
Proof. by rewrite /enc_all fmap_app concat_app. Qed.
Lemma nslots_cons x l : nslots (x :: l) = slots_of x + nslots l.
Proof. done. Qed.
Lemma nslots_app l l' : nslots (l ++ l') = nslots l + nslots l'.
Proof. induction l as [|x l IH]; simpl; [done|]. rewrite !nslots_cons IH. lia. Qed.
Lemma enc_all_length l : length (enc_all l) = nslots l * 32.
Proof. induction l as [|x l IH]; [done|]. rewrite enc_all_cons length_app enc_length nslots_cons IH. lia. Qed.

(** The suffix [l] of a page starts at slot [k]. *)
Definition at_slot (dat : list Z) (k : nat) (l : list slot) : Prop :=
  drop (de_at k) dat = enc_all l /\ k + nslots l = DIRENTS /\ Forall slot_ok l.

Lemma page_rep_at dat l : page_rep dat l -> at_slot dat 0 l.
Proof. intros (_&?&?&?). by split_and!. Qed.
Lemma at_slot_next dat k x l : at_slot dat k (x :: l) -> at_slot dat (k + slots_of x) l.
Proof.
  intros (Hd&Hn&Hok). apply Forall_cons in Hok as [_ Hok]. split_and!; [| |done].
  - replace (de_at (k + slots_of x)) with (de_at k + length (enc x)).
    + by rewrite -drop_drop Hd enc_all_cons drop_app_length.
    + rewrite enc_length /de_at /sizeof_dirent. lia.
  - rewrite nslots_cons in Hn. lia.
Qed.
Lemma at_slot_app dat k l1 l2 : at_slot dat k (l1 ++ l2) -> at_slot dat (k + nslots l1) l2.
Proof.
  revert k. induction l1 as [|x l1 IH]; intros k Hat; [by rewrite Nat.add_0_r|].
  rewrite nslots_cons Nat.add_assoc. by apply IH, at_slot_next.
Qed.

(** ** Reading the entry at a slot *)
Lemma slice_at dat k x l c n :
  at_slot dat k (x :: l) -> c + n <= slots_of x * 32 -> slice (de_at k + c) n dat = slice c n (enc x).
Proof.
  intros (Hd&_&_) Hn. rewrite slice_drop Hd enc_all_cons slice_app_l //. by rewrite enc_length.
Qed.
(** The pieces of an encoded entry. *)
Lemma enc_dent_slices e : length (e_name e) < 256 ->
  slice 0 8 (enc_dent e) = le_bytes 8 (e_off e) /\ slice 8 8 (enc_dent e) = le_bytes 8 (e_ino e) /\
  slice 16 1 (enc_dent e) = le_bytes 1 (e_type e) /\
  slice 17 1 (enc_dent e) = le_bytes 1 (Z.of_nat (length (e_name e))) /\
  slice 18 (length (e_name e)) (enc_dent e) = e_name e.
Proof.
  intros Hl. rewrite /enc_dent. split_and!.
  - by rewrite slice_app_l.
  - rewrite (slice_app_r 0 8 (le_bytes 8 (e_off e)) _ : slice 8 _ _ = _) slice_app_l //.
  - rewrite (slice_app_r 8 1 (le_bytes 8 (e_off e)) _ : slice 16 _ _ = _)
      (slice_app_r 0 1 (le_bytes 8 (e_ino e)) _ : slice 8 _ _ = _) slice_app_l //.
  - rewrite (slice_app_r 9 1 (le_bytes 8 (e_off e)) _ : slice 17 _ _ = _)
      (slice_app_r 1 1 (le_bytes 8 (e_ino e)) _ : slice 9 _ _ = _)
      (slice_app_r 0 1 (le_bytes 1 (e_type e)) _ : slice 1 _ _ = _) slice_app_l //.
  - rewrite (slice_app_r 10 _ (le_bytes 8 (e_off e)) _ : slice 18 _ _ = _)
      (slice_app_r 2 _ (le_bytes 8 (e_ino e)) _ : slice 10 _ _ = _)
      (slice_app_r 1 _ (le_bytes 1 (e_type e)) _ : slice 2 _ _ = _)
      (slice_app_r 0 _ (le_bytes 1 _) _ : slice 1 _ _ = _) slice_app_l // /slice drop_0.
    by rewrite firstn_all.
Qed.

Lemma slice_at0 dat k x l n :
  at_slot dat k (x :: l) -> n <= slots_of x * 32 -> slice (de_at k) n dat = slice 0 n (enc x).
Proof. intros Hat Hn. rewrite -{1}(Nat.add_0_r (de_at k)). by apply (slice_at _ _ _ l). Qed.

Lemma le_byte_small x : (0 <= x < 256)%Z -> le_val (le_bytes 1 x) = x.
Proof. intros Hx. by apply le_val_small. Qed.
Lemma at_used dat k e l :
  at_slot dat k (Used e :: l) ->
  d_nlen dat k = length (e_name e) /\ d_name dat k (length (e_name e)) = e_name e /\
  d_ino dat k = e_ino e /\ d_type dat k = e_type e /\ d_off dat k = e_off e.
Proof.
  intros Hat. pose proof Hat as (_&_&Hok). apply Forall_cons in Hok as [((Hl&_)&Hi&Ht&Ho) _].
  destruct (enc_dent_slices e ltac:(lia)) as (E1&E2&E3&E4&E5).
  assert (Hs : 18 + length (e_name e) <= slots_of (Used e) * 32) by apply nde_fits.
  split_and!.
  - rewrite /d_nlen (slice_at dat k (Used e) l); [done|lia|]. rewrite E4 le_byte_small; lia.
  - rewrite /d_name (slice_at dat k (Used e) l); [done|lia|]. exact E5.
  - rewrite /d_ino (slice_at dat k (Used e) l); [done|lia|]. rewrite E2. by apply le_val_small; lia.
  - rewrite /d_type (slice_at dat k (Used e) l); [done|lia|]. rewrite E3 le_byte_small; lia.
  - rewrite /d_off (slice_at0 dat k (Used e) l); [done|lia|]. rewrite E1 le_val_bytes.
    rewrite -[(256 ^ _)%Z]/(2 ^ 64)%Z -/(u64 (e_off e)). apply s64_u64. lia.
Qed.
Lemma at_free dat k l : at_slot dat k (Free :: l) -> d_nlen dat k = 0.
Proof. intros Hat. rewrite /d_nlen (slice_at dat k Free l) //; simpl; lia. Qed.

Lemma strncmp_eq_spec n a b :
  length a = n -> length b = n -> (forall x, x ∈ a -> (x <> 0)%Z) -> strncmp_eq n a b = true <-> a = b.
Proof.
  revert a b. induction n as [|n IH]; intros a b Ha Hb Hne.
  { destruct a, b; done. }
  destruct a as [|x a], b as [|y b]; try done. cbn [strncmp_eq hd tl].
  assert ((x =? 0)%Z = false) as -> by (apply Z.eqb_neq, Hne; constructor).
  rewrite andb_true_iff Z.eqb_eq orb_false_l IH; [by injection Ha|by injection Hb|intros z Hz; apply Hne; by constructor|].
  split; [by intros [-> ->]|by intros [= -> ->]].
Qed.
Lemma hasname_used dat k e l str :
  at_slot dat k (Used e :: l) -> _hasname dat k str = bool_decide (e_name e = str).
Proof.
  intros Hat. destruct (at_used _ _ _ _ Hat) as (E1&E2&_). rewrite /_hasname E1 E2.
  pose proof Hat as (_&_&Hok). apply Forall_cons in Hok as [((Hl&Hb)&_) _].
  destruct (Nat.eqb_spec (length (e_name e)) (length str)) as [Hn|Hn]; cbn [andb].
  - apply eq_bool_prop_intro. rewrite bool_decide_spec Is_true_true. apply strncmp_eq_spec; [done..|].
    intros x Hx. specialize (Hb x Hx). lia.
  - symmetry. apply bool_decide_eq_false. intros He. apply Hn. by rewrite He.
Qed.
Lemma hasname_free dat k l str :
  at_slot dat k (Free :: l) -> str <> [] -> _hasname dat k str = false.
Proof. intros Hat Hs. rewrite /_hasname (at_free _ _ _ Hat). by destruct str. Qed.
Lemma next_slot dat k x l : at_slot dat k (x :: l) -> _next_dirent dat k = k + slots_of x.
Proof.
  intros Hat. rewrite /_next_dirent /_is_active. destruct x as [|e].
  - by rewrite (at_free _ _ _ Hat).
  - destruct (at_used _ _ _ _ Hat) as (->&_&->&_). pose proof Hat as (_&_&Hok).
    apply Forall_cons in Hok as [((Hl&_)&Hi&_) _].
    destruct (Nat.ltb_spec 0 (length (e_name e))); [|lia]. by rewrite (proj2 (Z.eqb_neq _ 0)); [lia|].
Qed.

(** ** Finding a name *)
Lemma find_dirent_spec dat str : forall l fuel k,
  at_slot dat k l -> str <> [] -> nslots l < fuel ->
  match _find_dirent fuel dat str k with
  | Some j => exists l1 e l2, l = l1 ++ Used e :: l2 /\ e_name e = str /\ j = k + nslots l1 /\
                (forall e', Used e' ∈ l1 -> e_name e' <> str)
  | None => forall e, Used e ∈ l -> e_name e <> str
  end.
Proof.
  induction l as [|x l IH]; intros fuel k Hat Hs Hf.
  { destruct fuel as [|fuel]; [lia|]. cbn [_find_dirent]. pose proof Hat as (_&Hn&_).
    assert (k = DIRENTS) as -> by (rewrite -Hn; symmetry; apply Nat.add_0_r). by intros e ?%elem_of_nil. }
  destruct fuel as [|fuel]; [lia|]. cbn [_find_dirent].
  pose proof (slots_pos x). pose proof Hat as (_&Hn&_). rewrite nslots_cons in Hn, Hf.
  destruct (Nat.ltb_spec k DIRENTS); [|lia]. rewrite (next_slot _ _ _ _ Hat).
  specialize (IH fuel (k + slots_of x) (at_slot_next _ _ _ _ Hat) Hs ltac:(lia)).
  assert (Hgo : (forall e, x = Used e -> e_name e <> str) ->
    match _find_dirent fuel dat str (k + slots_of x) with
    | Some j => exists l1 e l2, x :: l = l1 ++ Used e :: l2 /\ e_name e = str /\ j = k + nslots l1 /\
                (forall e', Used e' ∈ l1 -> e_name e' <> str)
    | None => forall e, Used e ∈ x :: l -> e_name e <> str
    end).
  { intros Hx. destruct (_find_dirent _ _ _ _) as [j|].
    - destruct IH as (l1&e&l2&->&He&->&Hall). exists (x :: l1), e, l2. rewrite nslots_cons.
      split_and!; [done..|lia|]. intros e' [<-|He']%elem_of_cons; [by apply Hx|by apply Hall].
    - intros e [<-|He]%elem_of_cons; [by apply Hx|by apply IH]. }
  destruct x as [|e].
  - rewrite (hasname_free _ _ _ _ Hat Hs). by apply Hgo.
  - rewrite (hasname_used _ _ _ _ _ Hat). case_bool_decide as He.
    + exists [], e, l. rewrite Nat.add_0_r. split_and!; [done..|]. by intros e' ?%elem_of_nil.
    + apply Hgo. intros e' E. injection E as E. by subst e'.
Qed.

(** ** Finding room *)
Fixpoint leading_free (l : list slot) : nat :=
  match l with Free :: l' => S (leading_free l') | _ => 0 end.
Lemma leading_free_split l : exists l', l = replicate (leading_free l) Free ++ l' /\ leading_free l' = 0.
Proof.
  induction l as [|[|e] l (l'&IH&H0)]; [by exists []| |by exists (Used e :: l)].
  exists l'. cbn [leading_free replicate app]. split; [|done]. by rewrite -IH.
Qed.
Lemma nslots_free n : nslots (replicate n Free) = n.
Proof. induction n as [|n IH]; [done|]. cbn [replicate]. by rewrite nslots_cons IH. Qed.
Lemma leading_free_le l : leading_free l <= nslots l.
Proof. destruct (leading_free_split l) as (l'&E&_). rewrite {2}E nslots_app nslots_free. lia. Qed.

Lemma count_free_spec dat : forall l fuel k,
  at_slot dat k l -> nslots l <= fuel -> _count_free_de fuel dat k = leading_free l.
Proof.
  induction l as [|x l IH]; intros fuel k Hat Hf.
  { pose proof Hat as (_&Hn&_). assert (k = DIRENTS) as -> by (rewrite -Hn; symmetry; apply Nat.add_0_r). by destruct fuel. }
  pose proof (slots_pos x). pose proof Hat as (_&Hn&_). rewrite nslots_cons in Hn, Hf.
  destruct fuel as [|fuel]; [lia|]. cbn [_count_free_de]. destruct (Nat.ltb_spec k DIRENTS); [|lia].
  destruct x as [|e].
  - rewrite (at_free _ _ _ Hat). cbn [Nat.eqb negb leading_free]. f_equal. simpl in Hf.
    apply IH; [|lia]. apply at_slot_next in Hat. simpl in Hat. by rewrite Nat.add_1_r in Hat.
  - destruct (at_used _ _ _ _ Hat) as (->&_). pose proof Hat as (_&_&Hok).
    apply Forall_cons in Hok as [((Hl&_)&_) _]. by rewrite (proj2 (Nat.eqb_neq _ 0)); [lia|].
Qed.

(** A run of [n] free slots in [l]. *)
Definition has_run (l : list slot) (n : nat) : Prop :=
  exists l1 l2, l = l1 ++ replicate n Free ++ l2.
Lemma has_run_used e l n : 1 <= n -> has_run (Used e :: l) n -> has_run l n.
Proof.
  intros Hn (l1&l2&E). destruct l1 as [|y l1]; [by destruct n; [lia|]|]. injection E as _ ->. by exists l1, l2.
Qed.
Lemma has_run_short l n : leading_free l < n -> has_run l n -> has_run (drop (leading_free l) l) n.
Proof.
  induction l as [|[|e] l IH]; [done| |done]. cbn [leading_free drop]. intros Hlt (l1&l2&E).
  apply IH; [lia|]. destruct l1 as [|y l1]; [|injection E as _ ->; by exists l1, l2].
  exfalso. destruct n as [|n]; [lia|]. injection E as E.
  assert (n <= leading_free l); [|lia]. rewrite E. clear. induction n as [|n IH]; simpl; lia.
Qed.

Lemma search_free_spec dat n : forall fuel l k,
  at_slot dat k l -> 1 <= n -> nslots l < fuel ->
  match _search_free fuel dat n k with
  | Some j => exists l1 l2, l = l1 ++ replicate n Free ++ l2 /\ j = k + nslots l1
  | None => ~ has_run l n
  end.
Proof.
  induction fuel as [|fuel IH]; intros l k Hat Hn Hf; [lia|]. cbn [_search_free].
  pose proof Hat as (_&Hk&_). destruct (Nat.ltb_spec k DIRENTS); cycle 1.
  { assert (nslots l = 0) by lia. destruct l as [|x l]; [|pose proof (slots_pos x); rewrite nslots_cons in H0; lia].
    intros ([|]&l2&E); [destruct n; [lia|done]|done]. }
  assert (Hc : _count_free_de (DIRENTS - k) dat k = leading_free l) by (apply count_free_spec; [done|lia]).
  rewrite Hc. destruct (leading_free_split l) as (l'&El&H0). destruct (Nat.leb_spec n (leading_free l)) as [Hle|Hgt].
  { exists [], (replicate (leading_free l - n) Free ++ l'). rewrite Nat.add_0_r. split; [|done].
    rewrite {1}El /= app_assoc -replicate_add. do 2 f_equal. lia. }
  assert (Hstep : exists l1 l2, l = l1 ++ l2 /\ 0 < nslots l1 /\ (has_run l n -> has_run l2 n) /\
    k + (if negb (leading_free l =? 0) then leading_free l else _namelen_to_nde (d_nlen dat k)) = k + nslots l1).
  { destruct (Nat.eqb_spec (leading_free l) 0) as [Hz|Hz]; cbn [negb].
    - destruct l as [|[|e] l]; [rewrite /nslots in Hk; cbn [fmap list_fmap sum_list] in Hk; lia|done|].
      destruct (at_used _ _ _ _ Hat) as (->&_). exists [Used e], l. split_and!; [done| |by apply has_run_used|].
      + rewrite nslots_cons. pose proof (slots_pos (Used e)). lia.
      + rewrite nslots_cons /nslots /=. lia.
    - exists (replicate (leading_free l) Free), l'. rewrite nslots_free. split_and!; [done|lia| |done].
      intros Hr%has_run_short; [|done]. by rewrite {2}El drop_app_length' in Hr; [rewrite length_replicate|]. }
  destruct Hstep as (l1&l2&->&Hpos&Hrun&->). rewrite nslots_app in Hf.
  specialize (IH l2 (k + nslots l1) (at_slot_app _ _ _ _ Hat) Hn ltac:(lia)).
  destruct (_search_free fuel dat n (k + nslots l1)) as [j|]; [|naive_solver].
  destruct IH as (m1&m2&->&->). exists (l1 ++ m1), m2. rewrite nslots_app -app_assoc. split; [done|lia].
Qed.

(** ** Writing an entry *)
Lemma blit_mid a b c src n : n = length a -> length src = length b -> blit (a ++ b ++ c) n src = a ++ src ++ c.
Proof.
  intros -> Hl. rewrite /blit take_app_length. do 2 f_equal.
  rewrite Hl -drop_drop drop_app_length. by rewrite drop_app_length.
Qed.
Lemma blit_eq dat a b c src n : dat = a ++ b ++ c -> n = length a -> length src = length b -> blit dat n src = a ++ src ++ c.
Proof. intros ->. apply blit_mid. Qed.
Lemma blit_length dat o src : o + length src <= length dat -> length (blit dat o src) = length dat.
Proof. intros Hl. rewrite /blit !length_app length_take length_drop. lia. Qed.
Lemma blit_frame a b c o src :
  o + length src <= length b -> blit (a ++ b ++ c) (length a + o) src = a ++ blit b o src ++ c.
Proof.
  intros Hl. rewrite /blit take_app_add' // -!app_assoc. f_equal. rewrite take_app_le; [lia|]. f_equal. f_equal.
  rewrite -Nat.add_assoc -drop_drop drop_app_length drop_app_le //.
Qed.

(** The fields written one by one into zeroed slots make the entry. *)
Lemma enc_dent_blits e :
  let n := length (e_name e) in
  blit (blit (blit (blit (blit (zero_bytes (_namelen_to_nde n * 32)) 18 (e_name e)) 17 (le_bytes 1 (Z.of_nat n)))
    8 (le_bytes 8 (e_ino e))) 16 (le_bytes 1 (e_type e))) 0 (le_bytes 8 (e_off e)) = enc_dent e.
Proof.
  intros n. pose proof (nde_fits n). set (pad := zero_bytes (_namelen_to_nde n * 32 - (18 + n))).
  assert (zero_bytes (_namelen_to_nde n * 32) = zero_bytes 18 ++ zero_bytes n ++ pad) as ->.
  { rewrite /pad !zero_bytes_add. f_equal. lia. }
  set (l1 := le_bytes 1 (Z.of_nat n)). set (l8 := le_bytes 8 (e_ino e)). set (lt := le_bytes 1 (e_type e)).
  assert (blit (zero_bytes 18 ++ zero_bytes n ++ pad) 18 (e_name e) = zero_bytes 18 ++ e_name e ++ pad) as ->.
  { apply blit_mid; [done|]. by rewrite length_replicate. }
  assert (blit (zero_bytes 18 ++ e_name e ++ pad) 17 l1 = zero_bytes 17 ++ l1 ++ e_name e ++ pad) as ->
    by (by apply (blit_eq _ (zero_bytes 17) (zero_bytes 1))).
  set (r := l1 ++ e_name e ++ pad).
  assert (blit (zero_bytes 17 ++ r) 8 l8 = zero_bytes 8 ++ l8 ++ zero_bytes 1 ++ r) as ->
    by (by apply (blit_eq _ (zero_bytes 8) (zero_bytes 8) (zero_bytes 1 ++ r))).
  assert (blit (zero_bytes 8 ++ l8 ++ zero_bytes 1 ++ r) 16 lt = (zero_bytes 8 ++ l8) ++ lt ++ r) as ->
    by (by apply (blit_eq _ (zero_bytes 8 ++ l8) (zero_bytes 1) r)).
  rewrite -app_assoc. by apply (blit_eq _ [] (zero_bytes 8) (l8 ++ lt ++ r)).
Qed.

Lemma set_dirent_frame hd mid tl k name ino mode off :
  length hd = de_at k -> length mid = _namelen_to_nde (length name) * 32 ->
  _set_dirent (hd ++ mid ++ tl) k name ino mode off = hd ++ enc_dent (Dent name ino (IFTODT mode) off) ++ tl.
Proof.
  intros Hh Hm. pose proof (nde_fits (length name)) as Hf. rewrite /_set_dirent -!Hh.
  rewrite -{1}(Nat.add_0_r (length hd)) blit_frame ?length_replicate ?Hm //.
  assert (blit mid 0 (zero_bytes (_namelen_to_nde (length name) * sizeof_dirent)) =
    zero_bytes (_namelen_to_nde (length name) * 32)) as ->.
  { rewrite /blit /= drop_ge ?app_nil_r // length_replicate Hm. done. }
  set (z := zero_bytes _). assert (Hz : length z = _namelen_to_nde (length name) * 32) by apply length_replicate.
  assert (Hl : forall b, length (blit b 18 name) = length b \/ length b < 18 + length name).
  { intros b. destruct (Nat.le_gt_cases (18 + length name) (length b)); [left; by apply blit_length|by right]. }
  rewrite blit_frame; [rewrite Hz; lia|].
  rewrite blit_frame ?blit_length ?le_bytes_length ?Hz //; [lia..|].
  rewrite blit_frame ?blit_length ?le_bytes_length ?Hz //; [lia..|].
  rewrite blit_frame ?blit_length ?le_bytes_length ?Hz //; [lia..|].
  rewrite -{1}(Nat.add_0_r (length hd)) blit_frame ?blit_length ?le_bytes_length ?Hz //; [lia..|].
  do 2 f_equal. rewrite -enc_dent_blits. done.
Qed.

Lemma iftodt_range mode : (0 <= IFTODT mode < 16)%Z.
Proof.
  rewrite /IFTODT Z.shiftr_land. change (Z.shiftr 61440 12) with (Z.ones 4).
  rewrite Z.land_ones; [lia|]. by apply Z.mod_pos_bound.
Qed.

(** The bytes of a page around a run of slots. *)
Lemma page_split_at dat l1 m l2 :
  page_rep dat (l1 ++ m ++ l2) ->
  dat = (take 32 dat ++ enc_all l1) ++ enc_all m ++ enc_all l2 /\
  length (take 32 dat ++ enc_all l1) = de_at (nslots l1).
Proof.
  intros (Hl&Hd&_&_). split.
  - rewrite -app_assoc -!enc_all_app -Hd. symmetry. apply take_drop.
  - rewrite length_app length_take enc_all_length Hl /de_at /sizeof_dirent. lia.
Qed.
Lemma page_rebuild hd32 l : length hd32 = 32 -> nslots l = DIRENTS -> Forall slot_ok l -> page_rep (hd32 ++ enc_all l) l.
Proof.
  intros Hh Hn Hok. split_and!; [| |done..].
  - by rewrite length_app Hh enc_all_length Hn.
  - by rewrite -Hh drop_app_length.
Qed.
Lemma page_rep_replace dat l1 m m' l2 :
  page_rep dat (l1 ++ m ++ l2) -> nslots m' = nslots m -> Forall slot_ok m' ->
  page_rep ((take 32 dat ++ enc_all l1) ++ enc_all m' ++ enc_all l2) (l1 ++ m' ++ l2).
Proof.
  intros (Hl&_&Hn&Hok) Hm Hok'. rewrite -app_assoc -!enc_all_app. apply page_rebuild.
  - rewrite length_take Hl. lia.
  - rewrite !nslots_app Hm. by rewrite !nslots_app in Hn.
  - apply Forall_app in Hok as [? [? ?]%Forall_app]. apply Forall_app; split; [done|]. by apply Forall_app.
Qed.

Lemma set_dirent_rep dat l1 l2 name ino mode off :
  let e := Dent name ino (IFTODT mode) off in
  page_rep dat (l1 ++ replicate (_namelen_to_nde (length name)) Free ++ l2) -> dent_ok e ->
  page_rep (_set_dirent (blit dat (de_at (nslots l1)) (le_bytes 8 off)) (nslots l1) name ino mode off)
    (l1 ++ Used e :: l2).
Proof.
  intros e Hp He. pose proof (nde_pos (length name)). destruct (page_split_at _ _ _ _ Hp) as [Ed Hh].
  set (h := take 32 dat ++ enc_all l1) in *. set (m := enc_all (replicate _ Free)) in *.
  assert (Hm : length m = _namelen_to_nde (length name) * 32) by (by rewrite /m enc_all_length nslots_free).
  rewrite {1}Ed -Hh -{1}(Nat.add_0_r (length h)) blit_frame; [rewrite le_bytes_length Hm; lia|].
  rewrite set_dirent_frame; [done| |].
  { rewrite blit_length // le_bytes_length Hm. lia. }
  assert (enc_dent (Dent name ino (IFTODT mode) off) = enc_all [Used e]) as -> by (by rewrite enc_all_cons app_nil_r).
  apply (page_rep_replace dat l1 (replicate (_namelen_to_nde (length name)) Free) [Used e]); [done| |by apply Forall_singleton].
  rewrite nslots_free /nslots /=. lia.
Qed.

Lemma reset_dirent_rep dat l1 e l2 :
  page_rep dat (l1 ++ Used e :: l2) ->
  exists dat', _reset_dirent dat (nslots l1) = Some dat' /\
    page_rep dat' (l1 ++ replicate (slots_of (Used e)) Free ++ l2).
Proof.
  intros Hp. pose proof (page_rep_at _ _ Hp) as Hat%at_slot_app. destruct (at_used _ _ _ _ Hat) as (En&_).
  assert (Hok : dent_ok e).
  { destruct Hp as (_&_&_&Hok). apply Forall_app in Hok as [_ Hok]. by apply Forall_cons in Hok as [? _]. }
  rewrite /_reset_dirent En. destruct (Nat.ltb_spec 0 (length (e_name e))); [|destruct Hok as [[? _] _]; lia].
  eexists. split; [reflexivity|]. destruct (page_split_at dat l1 [Used e] l2 Hp) as [Ed Hh].
  set (h := take 32 dat ++ enc_all l1) in *. set (n := _namelen_to_nde (length (e_name e))).
  change (0 + nslots l1) with (nslots l1). rewrite {1}Ed -Hh.
  assert (blit (h ++ enc_all [Used e] ++ enc_all l2) (length h) (zero_bytes (n * sizeof_dirent)) =
    h ++ enc_all (replicate n Free) ++ enc_all l2) as ->.
  { assert (Hz : enc_all (replicate n Free) = zero_bytes (n * sizeof_dirent)).
    { clear. induction n as [|n IH]; [done|]. cbn [replicate]. rewrite enc_all_cons IH. by rewrite /enc zero_bytes_add. }
    rewrite Hz. apply blit_mid; [done|]. rewrite length_replicate enc_all_length /nslots /= /sizeof_dirent. lia. }
  apply (page_rep_replace dat l1 [Used e] (replicate n Free)); [done| |].
  - rewrite nslots_free /nslots /=. lia.
  - by apply Forall_replicate.
Qed.
Lemma page_rep_zero : page_rep (zero_bytes 4096) (replicate DIRENTS Free).
Proof. split_and!; [done|by vm_compute|by vm_compute|by apply Forall_replicate]. Qed.
