(* ===== verification/Pages.v ===== *)
(** * Pages outside the block lists

    Directories, long symbolic links and extended attributes keep their bytes in
    whole pages.  They are the set [X] of the file invariant: files never touch
    them, and taking, changing or giving back one touches no file. *)

From S2P Require Import Prelude CList State Pool File FileInv FileSpec.

Section pages.
Context `{MdLaws}.
Implicit Types (F N X A I P D : gset Z).

(** What a step on foreign pages and on inodes that are not files leaves alone. *)
Definition x_step (s s' : toyfs_sb_info) (F : gset Z) : Prop :=
  rest s' = rest s /\ (forall ti, ti ∈ F -> h_inode s' !! ti = h_inode s !! ti /\ fblocks s' ti = fblocks s ti).
Lemma x_step_refl s F : x_step s s F.
Proof. done. Qed.
Lemma x_step_trans s1 s2 s3 F : x_step s1 s2 F -> x_step s2 s3 F -> x_step s1 s3 F.
Proof.
  intros [R1 H1] [R2 H2]. split; [congruence|]. intros ti Hti.
  destruct (H1 ti Hti), (H2 ti Hti). split; congruence.
Qed.

(** Changing the pages in [X], and inodes that are not files, keeps the invariant. *)
Lemma fs_inv_frame s s' F N X A I P D X' :
  fs_inv_at s F N X A I -> pool_inv s' P D I N -> store_inv s P D A None -> A ⊆ I -> X' ⊆ P ->
  (forall d, d ∈ D -> forall p, d_page s d = Some p -> p ∉ X') ->
  h_dblkref s' = h_dblkref s -> h_iblkref s' = h_iblkref s ->
  (forall ti, ti ∈ F -> h_inode s' !! ti = h_inode s !! ti) ->
  (forall d p, d ∈ D -> d_page s d = Some p -> h_page s' !! p = h_page s !! p) -> rest s' = rest s ->
  fs_inv s' F N X' /\ x_step s s' F.
Proof.
  intros (_&HF&Hdis) Hpool Hst HA HX HDX Ed Ei Hino Hpg HR.
  assert (Hd : forall x, x ∈ A -> ib_dat s' x = ib_dat s x).
  { intros x Hx. destruct Hst as (_&_&H3&_). destruct (H3 x Hx) as (d&Hxd&HdD).
    rewrite /ib_dat /ib_d Ei -/(ib_d s x) Hxd /=. rewrite /d_page Ed -/(d_page s d).
    destruct (d_page s d) as [p|] eqn:Ep; [|done]. simpl. by rewrite /page_dat (Hpg d p). }
  assert (Hfl : forall ti, ti ∈ F -> flist s' ti = flist s ti) by (intros ti Hti; by rewrite /flist Hino).
  split; [|split; [done|]].
  - exists A, I. split_and!.
    + exists P, D. split_and!; [done| |done|done|by rewrite /d_page Ed].
      rewrite /store_inv /dblkref_ok /cnt /d_page /ib_d Ed Ei. exact Hst.
    + intros ti Hti. destruct (HF ti Hti) as (i&Hi&Hl&Hb). exists i. rewrite Hino //. split; [done|]. split; [|done].
      eapply list_ok_same; [|..|exact Hl]; [intros; by rewrite Ei|done].
    + intros t1 t2 x H1 H2. rewrite !Hfl //. by apply Hdis.
  - intros ti Hti. split; [by apply Hino|]. rewrite /fblocks Hfl //. apply lblocks_same. intros x Hx.
    destruct (HF ti Hti) as (i&Hi&Hl&_). rewrite (flist_eq _ _ _ Hi) in Hx. rewrite Ei. split; [done|]. by apply Hd, Hl.
Qed.

Lemma fs_inv_page_ok s F N X p : fs_inv s F N X -> p ∈ X -> exists dat, h_page s !! p = Some (Pmemb dat) /\ length dat = 4096%nat.
Proof.
  intros (A&I&(P&D&(_&fl&C&(_&_&_&Hok&_)&_)&_&_&HX&_)&_) Hp. by apply Hok, HX.
Qed.

(** Storing into a page of [X]. *)
Lemma fs_inv_store_x s F N X p dat :
  fs_inv s F N X -> p ∈ X -> length dat = 4096%nat ->
  let s' := upd_h_page (<[p := Pmemb dat]>) s in fs_inv s' F N X /\ x_step s s' F.
Proof.
  intros (A&I&Hat) Hp Hl s'. pose proof Hat as ((P&D&Hpool&Hst&HA&HX&HDX)&_).
  apply (fs_inv_frame s s' F N X A I P D X); try done.
  - apply pool_inv_store; [done|by apply HX|done].
  - intros d q Hd Hq. subst s'. fs_simpl. rewrite lookup_insert_ne //. intros <-. by eapply HDX.
Qed.
(** Changing an inode that is not a file. *)
Lemma fs_inv_inode_x s F N X ti f :
  fs_inv s F N X -> ti ∉ F -> let s' := upd_h_inode (alter f ti) s in fs_inv s' F N X /\ x_step s s' F.
Proof.
  intros (A&I&Hat) Hti s'. pose proof Hat as ((P&D&Hpool&Hst&HA&HX&HDX)&_).
  apply (fs_inv_frame s s' F N X A I P D X); try done.
  intros tj Hj. subst s'. fs_simpl. rewrite lookup_alter_ne //. by intros ->.
Qed.

Lemma wp_set_inode_x s F N X ti i f (Q : unit -> toyfs_sb_info -> Prop) :
  fs_inv s F N X -> ti ∉ F -> h_inode s !! ti = Some i ->
  (let s' := upd_h_inode (<[ti := f i]>) s in fs_inv s' F N X -> x_step s s' F -> Q tt s') ->
  wp (set_inode ti f) s Q.
Proof.
  intros Hfs Hti Hi HQ. eapply wp_set_inode; [exact Hi|].
  destruct (fs_inv_inode_x s F N X ti f) as [Hfs' Hs']; [done..|].
  assert (E : upd_h_inode (alter f ti) s = upd_h_inode (<[ti := f i]>) s).
  { rewrite /upd_h_inode. f_equal. apply map_eq. intros j. destruct (decide (j = ti)) as [->|Hne].
    - by rewrite lookup_alter_eq lookup_insert_eq Hi.
    - by rewrite lookup_alter_ne // lookup_insert_ne. }
  rewrite E in Hfs', Hs'. by apply HQ.
Qed.

(** Taking a page and giving one back. *)
Lemma wp_acquire_x s F N X (Q : option Z -> toyfs_sb_info -> Prop) :
  fs_inv s F N X ->
  (forall s', fs_inv s' F N X -> x_step s s' F -> h_inode s' = h_inode s -> h_page s' = h_page s ->
     free_le s' 0 -> Q None s') ->
  (forall p s', p ∉ X -> fs_inv s' F N ({[p]} ∪ X) -> x_step s s' F -> h_inode s' = h_inode s ->
     h_page s' = <[p := Pmemb (zeros 4096)]> (h_page s) -> 0 < p -> Q (Some p) s') ->
  wp toyfs_acquire_pmemb s Q.
Proof.
  intros (A&I&Hat) HN HS. pose proof Hat as ((P&D&Hpool&Hst&HA&HX&HDX)&_).
  assert (HdP : forall d p, d ∈ D -> d_page s d = Some p -> p ∈ P).
  { intros d p Hd. destruct Hst as (H1&_). destruct (H1 d Hd) as (r&Hr&_&HrP&_). rewrite /d_page Hr. by intros [= <-]. }
  apply (wp_acquire_pmemb s P D I N); [done| |].
  - intros s' Hr He Hp _ _ Hpg Hpool'. injection He as E1 E2 E3.
    destruct (fs_inv_frame s s' F N X A I P D X) as [Hfs' Hs']; try done.
    { intros; by rewrite E3. }
    { intros; by rewrite Hp. }
    apply HN; try done. exists []. by rewrite Hpg.
  - intros p s' HpP (n&Hn&Hpa) _ Hr He Hp _ Hpool'. injection He as E1 E2 E3.
    destruct (fs_inv_frame s s' F N X A I ({[p]} ∪ P) D ({[p]} ∪ X)) as [Hfs' Hs']; try done.
    { destruct Hst as (H1&?&?&?). split_and!; [|done..]. intros d Hd. destruct (H1 d Hd) as (r&?&?&HrP&?&?).
      exists r. split_and!; try done; [|lia..]. by apply elem_of_union_r. }
    { set_solver + HX. }
    { intros d Hd q Hq [->%elem_of_singleton|HqX]%elem_of_union; [|by eapply HDX]. by apply HpP, (HdP d). }
    { intros; by rewrite E3. }
    { intros d q Hd Hq. rewrite Hp lookup_insert_ne //. intros <-. by apply HpP, (HdP d). }
    apply HS; try done; [set_solver + HpP HX|]. rewrite Hpa. apply md_baddr_pos. lia.
Qed.
Lemma wp_release_x s F N X p (Q : unit -> toyfs_sb_info -> Prop) :
  fs_inv s F N X -> p ∈ X ->
  (forall s' n, fs_inv s' F N (X ∖ {[p]}) -> x_step s s' F -> h_inode s' = h_inode s ->
     h_page s' = <[p := PoolNext n]> (h_page s) -> Q tt s') ->
  wp (toyfs_release_pmemb p) s Q.
Proof.
  intros (A&I&Hat) Hp HQ. pose proof Hat as ((P&D&Hpool&Hst&HA&HX&HDX)&_).
  apply (wp_release_pmemb s P D I N); [done|by apply HX|].
  intros s' Hr He _ (n&Hpg) _ _ Hpool'. injection He as E1 E2 E3.
  destruct (fs_inv_frame s s' F N X A I (P ∖ {[p]}) D (X ∖ {[p]})) as [Hfs' Hs']; try done.
  - destruct Hst as (H1&?&?&?). split_and!; [|done..]. intros d Hd. destruct (H1 d Hd) as (r&Hr'&?&HrP&?&?).
    exists r. split_and!; try done; [|lia..]. apply elem_of_difference. split; [done|].
    intros Hrp%elem_of_singleton. eapply HDX; [exact Hd| |exact Hp]. by rewrite /d_page Hr' -Hrp.
  - set_solver + HX.
  - intros d Hd q Hq Hqx. eapply HDX; [exact Hd|exact Hq|set_solver + Hqx].
  - intros; by rewrite E3.
  - intros d q Hd Hq. rewrite Hpg lookup_insert_ne //. intros <-. by eapply HDX.
  - by eapply HQ.
Qed.
End pages.
