(* ===== verification/Dir.v ===== *)
(** * Directories: fs/toyfs/dir.c and fs/toyfs/namei.c

    The operations on the dentries pages of a directory inode (DirPage.v has the
    code on the bytes of one page).  A [struct toyfs_dirent *] is the page that holds
    it and the number of its slot. *)

From S2P Require Import Prelude Bytes CList State Pool File DirPage.

Definition TOYFS_NULL_INO : Z := 0.
Definition DT_DIR : Z := 4.

(** ** Link counts (zus.h) *)
Definition zi_isdir (i : toyfs_inode) : bool := S_ISTYPE S_IFDIR (i_mode i).
Definition le32_add (n : Z) : Z -> Z := fun x => u32 (x + n).
(** [zi] takes the link count that [le32_add] already stored. *)
Definition zus_std_add_dentry (dir_zi zi : Z) : FS unit :=
  set_inode zi (upd_i_nlink (le32_add 1));;
  isdir ← get_inode zi zi_isdir;
  if isdir : bool then set_inode dir_zi (upd_i_nlink (le32_add 1)) else mret tt.
Definition zus_std_remove_dentry (dir_zi zi : Z) : FS unit :=
  isdir ← get_inode zi zi_isdir;
  (if isdir : bool then
     set_inode zi (upd_i_nlink (le32_add (-1)));; set_inode dir_zi (upd_i_nlink (le32_add (-1)))
   else mret tt);;
  set_inode zi (upd_i_nlink (le32_add (-1))).
Definition zus_std_new_dir (dir_zi zi : Z) : FS unit :=
  parent ← get_inode dir_zi i_ino;
  set_inode zi (upd_i_union (fun u => take 8 u ++ le_bytes 8 parent ++ drop 16 u));;
  set_inode zi (upd_i_nlink (fun _ => 1)).
(** [i_dir.parent] is at offset 8 of the union. *)
Definition i_dir_parent (i : toyfs_inode) : Z := le_val (slice 8 8 (i_union i)).
Definition upd_i_dir_parent (f : Z -> Z) : toyfs_inode -> toyfs_inode :=
  upd_i_union (fun u => take 8 u ++ le_bytes 8 (f (le_val (slice 8 8 u))) ++ drop 16 u).

(** ** Lookup *)
Definition toyfs_childs_list_of (dir_tii : Z) : FS (list Z) :=
  ti ← tii_ti dir_tii; get_inode ti list_head.
(** [container_of] of the page's list head, its first field. *)
Definition _dentries_of (head : Z) : Z := head.
Definition _mode_of (tii : Z) : FS Z := ti ← tii_ti tii; get_inode ti i_mode.
Definition tii_ino (tii : Z) : FS Z := t ← load h_tii tii; mret (ino t).

Fixpoint lookup_pages (str : list Z) (childs : list Z) : FS (option (Z * nat)) :=
  match childs with
  | [] => mret None
  | itr :: l =>
    dat ← load_pmemb (_dentries_of itr);
    match _find_dirent (S DIRENTS) dat str 0 with
    | Some k => mret (Some (_dentries_of itr, k))
    | None => lookup_pages str l
    end
  end.
Definition toyfs_lookup_dirent (dir_tii : Z) (str : list Z) : FS (option (Z * nat)) :=
  childs ← toyfs_childs_list_of dir_tii; lookup_pages str childs.

Definition load_dirent_ino (de : Z * nat) : FS Z := dat ← load_pmemb de.1; mret (d_ino dat de.2).
Definition _lookup (dir_tii : Z) (str : list Z) : FS Z :=
  dirent ← toyfs_lookup_dirent dir_tii str;
  match dirent with Some de => load_dirent_ino de | None => mret TOYFS_NULL_INO end.
Definition toyfs_lookup (dir_zii : Z) (str : list Z) : FS Z :=
  tii ← toyfs_zii_to_tii dir_zii; _lookup tii str.

(** ** Adding and removing entries *)
Section dir.
Context `{MdApi}.

(** The slot found and the offset of the entry it will hold. *)
Fixpoint acquire_pages (nlen : nat) (childs : list Z) (doff : Z) : FS (option (Z * nat) * Z) :=
  match childs with
  | [] => mret (None, doff)
  | itr :: l =>
    dat ← load_pmemb (_dentries_of itr);
    match _search_free (S DIRENTS) dat (_namelen_to_nde nlen) 0 with
    | Some k => mret (Some (_dentries_of itr, k), doff + Z.of_nat k)
    | None => acquire_pages nlen l (doff + Z.of_nat DIRENTS)
    end
  end.
Definition set_d_off (de : Z * nat) (off : Z) : FS unit :=
  dat ← load_pmemb de.1; store_pmemb de.1 (blit dat (de_at de.2) (le_bytes 8 off)).
Definition _acquire_dirent (dir_tii : Z) (nlen : nat) : FS (option (Z * nat)) :=
  childs ← toyfs_childs_list_of dir_tii;
  r ← acquire_pages nlen childs 2;
  match r with
  | (Some de, off) => set_d_off de off;; mret (Some de)
  | (None, off) =>
    pmemb ← toyfs_acquire_pmemb;
    match pmemb with
    | None => mret None
    | Some p =>
      ti ← tii_ti dir_tii;
      set_inode ti (upd_i_blocks (fun n => u64 (n + 1)));;
      set_inode ti (upd_list_head (fun l => l ++ [p]));;
      set_d_off (p, 0%nat) off;;
      mret (Some (p, 0%nat))
    end
  end.
Definition _add_dirent (dir_tii tii : Z) (str : list Z) (de : Z * nat) : FS unit :=
  dat ← load_pmemb de.1;
  ino ← tii_ino tii;
  mode ← _mode_of tii;
  store_pmemb de.1 (_set_dirent dat de.2 str ino mode (d_off dat de.2));;
  dir_ti ← tii_ti dir_tii;
  set_inode dir_ti (upd_i_size (fun n => u64 (n + PAGE_SIZE)));;
  dir_zi ← tii_zi dir_tii;
  zi ← tii_zi tii;
  zus_std_add_dentry dir_zi zi.
(** The error and, on success, the new entry. *)
Definition toyfs_add_dirent (dir_tii tii : Z) (str : list Z) : FS (Z * option (Z * nat)) :=
  dirent ← _acquire_dirent dir_tii (length str);
  match dirent with
  | None => mret (- ENOSPC, None)
  | Some de => _add_dirent dir_tii tii str de;; mret (0, Some de)
  end.
Definition toyfs_add_dentry (dir_zii zii : Z) (str : list Z) : FS Z :=
  dir_tii ← toyfs_zii_to_tii dir_zii;
  tii ← toyfs_zii_to_tii zii;
  r ← toyfs_add_dirent dir_tii tii str; mret r.1.

Definition toyfs_remove_dirent (dir_tii tii : Z) (de : Z * nat) : FS unit :=
  dat ← load_pmemb de.1;
  dat' ← of_option (_reset_dirent dat de.2);
  store_pmemb de.1 dat';;
  dir_ti ← tii_ti dir_tii;
  set_inode dir_ti (upd_i_size (fun n => u64 (n - PAGE_SIZE)));;
  dir_zi ← tii_zi dir_tii;
  zi ← tii_zi tii;
  zus_std_remove_dentry dir_zi zi.
Definition toyfs_remove_dentry (dir_zii zii : Z) (str : list Z) : FS Z :=
  dir_tii ← toyfs_zii_to_tii dir_zii;
  tii ← toyfs_zii_to_tii zii;
  dirent ← toyfs_lookup_dirent dir_tii str;
  match dirent with
  | None => mret (- ENOENT)
  | Some de =>
    zi ← tii_zi tii;
    isdir ← get_inode zi zi_isdir;
    ti ← tii_ti tii;
    size ← get_inode ti i_size;
    if isdir && negb (size =? 0) then mret (- ENOTEMPTY) else
    toyfs_remove_dirent dir_tii tii de;;
    nlink ← get_inode zi i_nlink;
    size ← get_inode ti i_size;
    (if isdir && (nlink =? 1) && (size =? 0) then set_inode zi (upd_i_nlink (fun _ => 0)) else mret tt);;
    mret 0
  end.

(** ** Rename (namei.c) *)
Definition set_times (ti time : Z) : FS unit :=
  set_inode ti (upd_i_mtime (fun _ => time));; set_inode ti (upd_i_ctime (fun _ => time)).
(** [new_ii], the inode that has the new name, is not looked at. *)
Definition _do_rename (old_dir_ii new_dir_ii old_ii new_ii : Z) (old_name new_name : list Z) (time flags : Z) : FS Z :=
  if old_ii =? 0 then mret (- EINVAL) else
  if negb (flags =? 0) then mret (- ENOTSUP) else
  old_de ← toyfs_lookup_dirent old_dir_ii old_name;
  match old_de with
  | None => mret (- ENOENT)
  | Some old_de =>
    new_de ← toyfs_lookup_dirent new_dir_ii new_name;
    err ← match new_de with
          | Some _ => mret 0
          | None => r ← toyfs_add_dirent new_dir_ii old_ii new_name; mret r.1
          end;
    if negb (err =? 0) then mret err else
    toyfs_remove_dirent old_dir_ii old_ii old_de;;
    old_ti ← tii_ti old_ii;
    mode ← get_inode old_ti i_mode;
    (if S_ISTYPE S_IFDIR mode then set_inode old_ti (upd_i_nlink (fun n => u32 (n + 1))) else mret tt);;
    old_dir ← tii_ti old_dir_ii;
    new_dir ← tii_ti new_dir_ii;
    set_times old_dir time;;
    set_times new_dir time;;
    set_inode old_ti (upd_i_ctime (fun _ => time));;
    mret 0
  end.
Definition toyfs_rename (old_dir new_dir old_zii new_zii : Z) (old_name new_name : list Z) (time flags : Z) : FS Z :=
  old_dir_ii ← toyfs_zii_to_tii old_dir;
  new_dir_ii ← toyfs_zii_to_tii new_dir;
  old_ii ← toyfs_zii_to_tii old_zii;
  new_ii ← toyfs_zii_to_tii new_zii;
  if old_ii =? 0 then mret (- EINVAL) else
  _do_rename old_dir_ii new_dir_ii old_ii new_ii old_name new_name time flags.

Fixpoint release_pages (ti : Z) (childs : list Z) : FS unit :=
  match childs with
  | [] => mret tt
  | itr :: l =>
    blocks ← get_inode ti i_blocks;
    assert (0 <? blocks);;
    set_inode ti (upd_list_head (remove1 itr));;
    toyfs_release_pmemb (_dentries_of itr);;
    set_inode ti (upd_i_blocks (fun n => u64 (n - 1)));;
    release_pages ti l
  end.
Definition toyfs_release_dir (dir_tii : Z) : FS unit :=
  childs ← toyfs_childs_list_of dir_tii;
  ti ← tii_ti dir_tii;
  release_pages ti childs;;
  blocks ← get_inode ti i_blocks;
  assert (blocks =? 0).
End dir.

(** ** Reading a directory

    [emit] is the actor of the context, which passes an entry (name, inode number,
    type, position) to [zufs_zde_emit] of zus_api.h: it answers whether there was
    room.  [R] is the state of the caller's buffer. *)
Section readdir.
Context {R : Type} (emit : R -> list Z -> Z -> Z -> Z -> bool * R).

Record toyfs_dir_context := DirContext { pos : Z; ctx_out : R }.

Definition _emit (ctx : toyfs_dir_context) (name : list Z) (ino type : Z) : bool * toyfs_dir_context :=
  let r := emit (ctx_out ctx) name ino type (pos ctx) in (r.1, DirContext (pos ctx) r.2).
Definition _emit_dirent (ctx : toyfs_dir_context) (dat : list Z) (k : nat) : bool * toyfs_dir_context :=
  let r := _emit ctx (d_name dat k (d_nlen dat k)) (d_ino dat k) (d_type dat k) in
  if r.1 then (true, DirContext (d_off dat k + 1) (ctx_out r.2)) else r.
Fixpoint _iterate_dentries (fuel : nat) (dat : list Z) (k : nat) (ctx : toyfs_dir_context) : bool * toyfs_dir_context :=
  match fuel with
  | O => (true, ctx)
  | S f =>
    if (k <? DIRENTS)%nat then
      let r := if (0 <? d_nlen dat k)%nat && (pos ctx <=? d_off dat k) then _emit_dirent ctx dat k
               else (true, ctx) in
      if r.1 then _iterate_dentries f dat (_next_dirent dat k) r.2 else r
    else (true, ctx)
  end.
(** The loop over the pages; the first component tells whether some are left. *)
Fixpoint iterate_pages (childs : list Z) (ok : bool) (ctx : toyfs_dir_context) : FS (bool * toyfs_dir_context) :=
  match childs with
  | [] => mret (false, ctx)
  | itr :: l =>
    if ok then
      dat ← load_pmemb (_dentries_of itr);
      let r := _iterate_dentries (S DIRENTS) dat 0 ctx in
      if r.1 then iterate_pages l true r.2 else mret (true, r.2)
    else mret (true, ctx)
  end.
Definition _iterate_dir (dir_tii : Z) (ctx : toyfs_dir_context) : FS (bool * toyfs_dir_context) :=
  ti ← tii_ti dir_tii;
  ino ← get_inode ti i_ino;
  parent ← get_inode ti i_dir_parent;
  let r := if pos ctx =? 0 then
             let r := _emit ctx [46] ino DT_DIR in (r.1, DirContext 1 (ctx_out r.2))
           else (true, ctx) in
  let r := if (pos r.2 =? 1) && r.1 then
             let r := _emit r.2 [46; 46] parent DT_DIR in (r.1, DirContext 2 (ctx_out r.2))
           else r in
  childs ← toyfs_childs_list_of dir_tii;
  iterate_pages childs r.1 r.2.
(** [zir->pos] in, [zir->more], [zir->pos] and the buffer out. *)
Definition toyfs_iterate_dir (dir_tii zpos : Z) (out : R) : FS (bool * Z * R) :=
  r ← _iterate_dir dir_tii (DirContext zpos out);
  mret (r.1, pos r.2, ctx_out r.2).
Definition toyfs_readdir (dir_zii zpos : Z) (out : R) : FS (bool * Z * R) :=
  tii ← toyfs_zii_to_tii dir_zii; toyfs_iterate_dir tii zpos out.
End readdir.
