(* ===== verification/DirSpec.v ===== *)
(** * What a directory is: a map from names to inode numbers

    [dir_is s X d m] says that the pages of the directory inode [d], all in [X],
    hold exactly the entries of [m], each at the offset its place gives it. *)

From S2P Require Import Prelude Bytes CList State Pool File FileInv FileSpec DirPage Pages Dir.

Definition used (l : list slot) : list dent :=
  omap (fun x => match x with Used e => Some e | Free => None end) l.
(** The offset of an entry is 2 plus the number of slots before it. *)
Fixpoint offs_ok (o : Z) (l : list slot) : Prop :=
  match l with
  | [] => True
  | x :: l' => match x with Used e => e_off e = o | Free => True end /\ offs_ok (o + Z.of_nat (slots_of x)) l'
  end.
Definition page_holds (s : toyfs_sb_info) (p : Z) (l : list slot) : Prop :=
  exists dat, h_page s !! p = Some (Pmemb dat) /\ page_rep dat l.
Definition dir_pages (s : toyfs_sb_info) (ps : list Z) (ls : list (list slot)) : Prop :=
  Forall2 (page_holds s) ps ls.
Definition names (l : list slot) : list (list Z) := e_name <$> used l.

Definition dir_ok (s : toyfs_sb_info) (X : gset Z) (d : Z) (ps : list Z) (ls : list (list slot)) : Prop :=
  (exists i, h_inode s !! d = Some i /\ list_head i = ps /\ i_blocks i = Z.of_nat (length ps) /\
     S_ISTYPE S_IFDIR (i_mode i) = true) /\
  NoDup ps /\ (forall p, p ∈ ps -> p ∈ X) /\ dir_pages s ps ls /\ offs_ok 2 (concat ls) /\ NoDup (names (concat ls)).
Definition dir_map (l : list slot) : gmap (list Z) Z := list_to_map ((fun e => (e_name e, e_ino e)) <$> used l).
Definition dir_is (s : toyfs_sb_info) (X : gset Z) (d : Z) (m : gmap (list Z) Z) : Prop :=
  exists ps ls, dir_ok s X d ps ls /\ dir_map (concat ls) = m.

(** ** Lists of slots *)
Lemma used_app l l' : used (l ++ l') = used l ++ used l'.
Proof. by rewrite /used omap_app. Qed.
Lemma used_free n : used (replicate n Free) = [].
Proof. by induction n. Qed.
Lemma elem_of_used e l : e ∈ used l <-> Used e ∈ l.
Proof.
  rewrite /used list_elem_of_omap. split; [|intros H; by exists (Used e)].
  intros ([|e']&H&[= <-]). done.
Qed.
Lemma names_app l l' : names (l ++ l') = names l ++ names l'.
Proof. by rewrite /names used_app fmap_app. Qed.
Lemma elem_of_names n l : n ∈ names l <-> exists e, Used e ∈ l /\ e_name e = n.
Proof. rewrite /names list_elem_of_fmap. setoid_rewrite elem_of_used. naive_solver. Qed.
Lemma offs_ok_app o l l' : offs_ok o (l ++ l') <-> offs_ok o l /\ offs_ok (o + Z.of_nat (nslots l)) l'.
Proof.
  revert o. induction l as [|x l IH]; intros o; simpl; [by rewrite Z.add_0_r; tauto|].
  rewrite IH nslots_cons Nat2Z.inj_add Z.add_assoc. tauto.
Qed.
Lemma offs_ok_free o n : offs_ok o (replicate n Free).
Proof. revert o. induction n as [|n IH]; intros o; simpl; auto. Qed.
Lemma dir_pages_nslots s ps ls : dir_pages s ps ls -> nslots (concat ls) = (DIRENTS * length ps)%nat.
Proof.
  induction 1 as [|p l ps ls (dat&_&_&_&Hn&_) _ IH]; [by rewrite Nat.mul_0_r|].
  cbn [concat length]. rewrite nslots_app IH Hn. lia.
Qed.

(** Replacing one run of slots by another of the same width. *)
Lemma offs_ok_replace o l1 m m' l2 :
  offs_ok o (l1 ++ m ++ l2) -> nslots m' = nslots m -> offs_ok (o + Z.of_nat (nslots l1)) m' -> offs_ok o (l1 ++ m' ++ l2).
Proof. rewrite !offs_ok_app. intros (?&_&?) -> ?. done. Qed.

(** ** The map of the entries *)
Lemma names_fst l : ((fun e => (e_name e, e_ino e)) <$> used l).*1 = names l.
Proof. rewrite -list_fmap_compose. by apply list_fmap_ext. Qed.
Lemma dir_map_perm l l' : NoDup (names l) -> used l ≡ₚ used l' -> dir_map l = dir_map l'.
Proof.
  intros Hnd Hp. apply list_to_map_proper; [by rewrite names_fst|by rewrite Hp].
Qed.
Lemma dir_map_lookup l e : NoDup (names l) -> Used e ∈ l -> dir_map l !! e_name e = Some (e_ino e).
Proof.
  intros Hnd He. apply elem_of_list_to_map_1.
  - by rewrite names_fst.
  - apply list_elem_of_fmap. exists e. split; [done|by apply elem_of_used].
Qed.
Lemma dir_map_None l n : dir_map l !! n = None <-> n ∉ names l.
Proof.
  by rewrite /dir_map -not_elem_of_list_to_map names_fst.
Qed.
Lemma used_mid l1 e l2 : used (l1 ++ Used e :: l2) ≡ₚ e :: used (l1 ++ l2).
Proof. rewrite !used_app. change (used (Used e :: l2)) with (e :: used l2). by rewrite Permutation_middle. Qed.
Lemma dir_map_add l1 e l2 : NoDup (names (l1 ++ Used e :: l2)) ->
  dir_map (l1 ++ Used e :: l2) = <[e_name e := e_ino e]> (dir_map (l1 ++ l2)).
Proof.
  intros Hnd. rewrite (dir_map_perm _ (Used e :: l1 ++ l2)) //. rewrite used_mid //.
Qed.
Lemma names_mid l1 e l2 : NoDup (names (l1 ++ Used e :: l2)) <-> e_name e ∉ names (l1 ++ l2) /\ NoDup (names (l1 ++ l2)).
Proof. rewrite -NoDup_cons /names used_mid //. Qed.
Lemma dir_map_remove l1 e l2 n : NoDup (names (l1 ++ Used e :: l2)) ->
  NoDup (names (l1 ++ replicate n Free ++ l2)) /\
  dir_map (l1 ++ replicate n Free ++ l2) = delete (e_name e) (dir_map (l1 ++ Used e :: l2)).
Proof.
  intros Hnd. assert (Hu : used (l1 ++ replicate n Free ++ l2) = used (l1 ++ l2)) by (by rewrite !used_app used_free).
  apply names_mid in Hnd as Hnd'. destruct Hnd' as [He Hnd']. split; [by rewrite /names Hu|].
  rewrite dir_map_add // /dir_map Hu -/(dir_map _) delete_insert_id //. by apply dir_map_None.
Qed.

(** ** Lookup *)
(** The entry [e] is at slot [k] of page [p], with [l1] before it and [l2] after. *)
Definition dir_at (ps : list Z) (ls : list (list slot)) (p : Z) (k : nat) (m l1 l2 : list slot) : Prop :=
  exists c1 c2 ls1 a b ls2, ps = c1 ++ p :: c2 /\ ls = ls1 ++ (a ++ m ++ b) :: ls2 /\
    length c1 = length ls1 /\ k = nslots a /\ l1 = concat ls1 ++ a /\ l2 = b ++ concat ls2.
Lemma dir_at_concat ps ls p k m l1 l2 : dir_at ps ls p k m l1 l2 -> concat ls = l1 ++ m ++ l2.
Proof.
  intros (c1&c2&ls1&a&b&ls2&->&->&_&_&->&->). by rewrite concat_app /= -!app_assoc.
Qed.
Lemma dir_at_page s ps ls p k m l1 l2 :
  dir_pages s ps ls -> dir_at ps ls p k m l1 l2 ->
  exists dat a b, h_page s !! p = Some (Pmemb dat) /\ page_rep dat (a ++ m ++ b) /\ k = nslots a.
Proof.
  intros Hp (c1&c2&ls1&a&b&ls2&->&->&Hl&->&_&_). apply Forall2_app_inv in Hp as [_ Hp]; [|done].
  apply Forall2_cons in Hp as [(dat&Hd&Hr) _]. by exists dat, a, b.
Qed.

Lemma wp_lookup_pages s str : forall ps ls (Q : option (Z * nat) -> toyfs_sb_info -> Prop),
  dir_pages s ps ls -> str <> [] ->
  (forall p k e l1 l2, dir_at ps ls p k [Used e] l1 l2 -> e_name e = str -> Q (Some (p, k)) s) ->
  (str ∉ names (concat ls) -> Q None s) ->
  wp (lookup_pages str ps) s Q.
Proof.
  induction ps as [|p ps IH]; intros ls Q Hp Hs HS HN.
  { apply Forall2_nil_inv_l in Hp as ->. cbn [lookup_pages]. wp_step. apply HN. by intros ?%elem_of_nil. }
  apply Forall2_cons_inv_l in Hp as (l&ls'&(dat&Hd&Hr)&Hp&->). cbn [lookup_pages].
  wp_step. eapply wp_load_pmemb; [exact Hd|]. pose proof (page_rep_at _ _ Hr) as Hat.
  pose proof (find_dirent_spec dat str l (S DIRENTS) 0 Hat Hs) as Hf.
  destruct (_find_dirent (S DIRENTS) dat str 0) as [k|].
  - destruct Hf as (a&e&b&->&He&->&_); [by destruct Hr as (_&_&->&_); lia|]. wp_step. apply (HS p _ e a (b ++ concat ls')); [|done].
    exists [], ps, [], a, b, ls'. done.
  - specialize (Hf ltac:(destruct Hr as (_&_&->&_); lia)). apply (IH ls'); [done|done| |].
    + intros q k e l1 l2 (c1&c2&ls1&a&b&ls2&->&->&Hl&->&->&->) He.
      apply (HS q _ e (l ++ concat ls1 ++ a) (b ++ concat ls2)); [|done].
      exists (p :: c1), c2, (l :: ls1), a, b, ls2. split_and!; try done; [by cbn; f_equal|by cbn; rewrite app_assoc].
    + intros Hn. apply HN. cbn [concat]. rewrite names_app. intros [Hx|Hx]%elem_of_app; [|done].
      apply elem_of_names in Hx as (e&He&Hne). by apply (Hf e).
Qed.

(** ** Room for an entry *)
Lemma dir_at_cons p0 l0 ps ls p k m l1 l2 :
  dir_at ps ls p k m l1 l2 -> dir_at (p0 :: ps) (l0 :: ls) p k m (l0 ++ l1) l2.
Proof.
  intros (c1&c2&ls1&a&b&ls2&->&->&Hl&->&->&->). exists (p0 :: c1), c2, (l0 :: ls1), a, b, ls2.
  split_and!; try done; [by cbn; f_equal|by cbn; rewrite app_assoc].
Qed.
Lemma wp_acquire_pages s nlen : forall ps ls o (Q : option (Z * nat) * Z -> toyfs_sb_info -> Prop),
  dir_pages s ps ls ->
  (forall p k l1 l2, dir_at ps ls p k (replicate (_namelen_to_nde nlen) Free) l1 l2 ->
     Q (Some (p, k), o + Z.of_nat (nslots l1)) s) ->
  (Q (None, o + Z.of_nat (nslots (concat ls))) s) ->
  wp (acquire_pages nlen ps o) s Q.
Proof.
  induction ps as [|p ps IH]; intros ls o Q Hp HS HN.
  { apply Forall2_nil_inv_l in Hp as ->. cbn [acquire_pages]. wp_step. by rewrite Z.add_0_r in HN. }
  apply Forall2_cons_inv_l in Hp as (l&ls'&(dat&Hd&Hr)&Hp&->). cbn [acquire_pages].
  wp_step. eapply wp_load_pmemb; [exact Hd|]. pose proof (page_rep_at _ _ Hr) as Hat.
  pose proof Hr as (_&_&Hn&_).
  pose proof (search_free_spec dat (_namelen_to_nde nlen) (S DIRENTS) l 0 Hat (nde_pos _) ltac:(lia)) as Hf.
  destruct (_search_free _ _ _ _) as [k|].
  - destruct Hf as (a&b&->&->). wp_step.
    apply (HS p _ a (b ++ concat ls')). exists [], ps, [], a, b, ls'. done.
  - apply (IH ls'); [done| |].
    + intros q k l1 l2 Hd'. rewrite -Hn -Z.add_assoc -Nat2Z.inj_add -nslots_app.
      apply (HS q k (l ++ l1) l2). by apply dir_at_cons.
    + rewrite -Hn -Z.add_assoc -Nat2Z.inj_add -nslots_app. exact HN.
Qed.

Lemma dir_pages_same s s' ps ls :
  dir_pages s ps ls -> (forall q, q ∈ ps -> h_page s' !! q = h_page s !! q) -> dir_pages s' ps ls.
Proof.
  induction 1 as [|p l ps ls (dat&Hd&Hr) Hp IH]; intros Hq; constructor.
  - exists dat. by rewrite Hq; [constructor|].
  - apply IH. intros q ?. apply Hq. by constructor.
Qed.

(** Rewriting a run of slots of one page. *)
Lemma dir_pages_update s s' ps ls p k m m' l1 l2 :
  dir_pages s ps ls -> dir_at ps ls p k m l1 l2 -> NoDup ps ->
  (forall dat a b, h_page s !! p = Some (Pmemb dat) -> page_rep dat (a ++ m ++ b) -> k = nslots a ->
     page_holds s' p (a ++ m' ++ b)) ->
  (forall q, q ∈ ps -> q <> p -> h_page s' !! q = h_page s !! q) ->
  exists ls', dir_pages s' ps ls' /\ concat ls' = l1 ++ m' ++ l2.
Proof.
  intros Hp (c1&c2&ls1&a&b&ls2&->&->&Hl&->&->&->) Hnd Hnew Hq.
  apply Forall2_app_inv in Hp as [Hp1 Hp]; [|done]. apply Forall2_cons in Hp as [(dat&Hd&Hr) Hp2].
  apply NoDup_app in Hnd as (_&Hnd&Hnd2). apply NoDup_cons in Hnd2 as [Hpc _].
  exists (ls1 ++ (a ++ m' ++ b) :: ls2). split.
  - apply Forall2_app; [|constructor].
    + apply (dir_pages_same s); [done|]. intros q Hqc. apply Hq; [set_solver + Hqc|]. intros ->. by apply (Hnd p); [|constructor].
    + by apply (Hnew dat).
    + apply (dir_pages_same s); [done|]. intros q Hqc. apply Hq; [set_solver + Hqc|]. by intros ->.
  - by rewrite concat_app /= -!app_assoc.
Qed.

(** ** Entries by their place *)
Definition entry_at (s : toyfs_sb_info) (p : Z) (k : nat) (e : dent) : Prop :=
  exists dat a b, h_page s !! p = Some (Pmemb dat) /\ page_rep dat (a ++ Used e :: b) /\ k = nslots a.

Lemma dent_ext e e' : e_name e = e_name e' -> e_ino e = e_ino e' -> e_type e = e_type e' -> e_off e = e_off e' -> e = e'.
Proof. destruct e, e'. simpl. by intros -> -> -> ->. Qed.
Lemma at_slot_inj dat : forall l l' k, at_slot dat k l -> at_slot dat k l' -> l = l'.
Proof.
  induction l as [|x l IH]; intros l' k H1 H2; destruct l' as [|y l']; [done| | |].
  - destruct H1 as (_&E1&_), H2 as (_&E2&_). pose proof (slots_pos y).
    rewrite nslots_cons in E2. rewrite /nslots /= in E1. lia.
  - destruct H1 as (_&E1&_), H2 as (_&E2&_). pose proof (slots_pos x).
    rewrite nslots_cons in E1. rewrite /nslots /= in E2. lia.
  - assert (x = y) as <-.
    { destruct x as [|e], y as [|e']; [done| | |].
      - pose proof (at_free _ _ _ H1) as E. destruct (at_used _ _ _ _ H2) as (E'&_).
        destruct H2 as (_&_&[((?&_)&_) _]%Forall_cons). lia.
      - pose proof (at_free _ _ _ H2) as E. destruct (at_used _ _ _ _ H1) as (E'&_).
        destruct H1 as (_&_&[((?&_)&_) _]%Forall_cons). lia.
      - destruct (at_used _ _ _ _ H1) as (E1&E2&E3&E4&E5), (at_used _ _ _ _ H2) as (F1&F2&F3&F4&F5).
        f_equal. apply dent_ext; [|congruence..]. rewrite -E2 -F2. by rewrite -E1 -F1. }
    f_equal. by eapply IH; eapply at_slot_next.
Qed.
Lemma page_rep_inj dat l l' : page_rep dat l -> page_rep dat l' -> l = l'.
Proof. intros H1 H2. by eapply at_slot_inj; apply page_rep_at. Qed.

Lemma dir_at_of_entry s ps ls p k e :
  dir_pages s ps ls -> p ∈ ps -> entry_at s p k e -> exists l1 l2, dir_at ps ls p k [Used e] l1 l2.
Proof.
  intros Hp Hin (dat&a&b&Hd&Hr&->). apply list_elem_of_split in Hin as (c1&c2&->).
  apply Forall2_app_inv_l in Hp as (ls1&ls'&Hp1&Hp&->). apply Forall2_cons_inv_l in Hp as (l&ls2&(dat'&Hd'&Hr')&_&->).
  rewrite Hd in Hd'. injection Hd' as <-. rewrite (page_rep_inj _ _ _ Hr' Hr).
  exists (concat ls1 ++ a), (b ++ concat ls2), c1, c2, ls1, a, b, ls2. split_and!; try done. by eapply Forall2_length.
Qed.
Lemma entry_of_dir_at s ps ls p k e l1 l2 :
  dir_pages s ps ls -> dir_at ps ls p k [Used e] l1 l2 -> p ∈ ps /\ entry_at s p k e.
Proof.
  intros Hp Hat. destruct (dir_at_page _ _ _ _ _ _ _ _ Hp Hat) as (dat&a&b&Hd&Hr&->).
  split; [|by exists dat, a, b]. destruct Hat as (c1&c2&_&_&_&_&->&_). set_solver +.
Qed.
(** Entries stay at their slots when a free run elsewhere is filled. *)
Lemma entry_stable e b0 m n : forall a a0 b,
  nslots m = n -> a0 ++ Used e :: b0 = a ++ replicate n Free ++ b ->
  exists a' b', a ++ m ++ b = a' ++ Used e :: b' /\ nslots a' = nslots a0.
Proof.
  induction a as [|x a IH]; intros a0 b Hm E.
  - cbn [app] in *. assert (exists a1, a0 = replicate n Free ++ a1 /\ b = a1 ++ Used e :: b0) as (a1&->&->).
    { clear Hm. revert a0 E. induction n as [|n IHn]; intros a0 E; [by exists a0|].
      destruct a0 as [|y a0]; [done|]. injection E as -> E. destruct (IHn a0 E) as (a1&->&->). by exists a1. }
    exists (m ++ a1), b0. by rewrite -app_assoc !nslots_app nslots_free Hm.
  - destruct a0 as [|y a0]; injection E as -> E; [by exists [], (a ++ m ++ b)|].
    destruct (IH a0 b Hm E) as (a'&b'&E'&En). exists (x :: a'), b'. split; [by cbn [app]; rewrite E'|]. by rewrite !nslots_cons En.
Qed.

(** ** The steps of a directory operation *)
Definition link0 (i : toyfs_inode) : toyfs_inode := upd_i_nlink (fun _ => 0) i.
Definition inlink (s : toyfs_sb_info) (ti : Z) : Z := default 0 (i_nlink <$> h_inode s !! ti).

Section ops.
Context `{MdLaws}.
Implicit Types (F N X : gset Z).

(** What an operation on the entries of [d] and the inode [c] leaves alone: every
    file but for the link count of [c], every other inode, and the pages of [X]
    outside [ps]. *)
Definition d_step (s s' : toyfs_sb_info) (F X : gset Z) (ps : list Z) (d c : Z) : Prop :=
  rest s' = rest s /\ (forall tj, tj <> d -> tj <> c -> h_inode s' !! tj = h_inode s !! tj) /\
  (c <> d -> link0 <$> h_inode s' !! c = link0 <$> h_inode s !! c) /\
  (forall tj, tj ∈ F -> fblocks s' tj = fblocks s tj) /\
  (forall p, p ∈ X -> p ∉ ps -> h_page s' !! p = h_page s !! p).
Lemma d_step_refl s F X ps d c : d_step s s F X ps d c.
Proof. by split_and!. Qed.
Lemma d_step_trans s1 s2 s3 F X ps d c :
  d_step s1 s2 F X ps d c -> d_step s2 s3 F X ps d c -> d_step s1 s3 F X ps d c.
Proof.
  intros (R1&N1&C1&B1&P1) (R2&N2&C2&B2&P2). split_and!; [by rewrite R2| | | |].
  - intros tj ??. by rewrite N2 ?N1.
  - intros Hc. by rewrite C2 ?C1.
  - intros tj Hj. by rewrite B2 ?B1.
  - intros p ??. by rewrite P2 ?P1.
Qed.

(** Changing the link count of any inode. *)
Lemma fs_inv_nlink s F N X c i f :
  fs_inv s F N X -> h_inode s !! c = Some i ->
  let s' := upd_h_inode (<[c := upd_i_nlink f i]>) s in
  fs_inv s' F N X /\ forall tj, fblocks s' tj = fblocks s tj.
Proof.
  intros (A&I&Hst&HF&Hdis) Hi s'.
  assert (Hino : forall tj j, h_inode s !! tj = Some j -> exists j', h_inode s' !! tj = Some j' /\
    list_head j' = list_head j /\ i_blocks j' = i_blocks j /\ i_size j' = i_size j).
  { intros tj j Hj. subst s'. fs_simpl. rewrite lookup_insert. case_decide as E; [|by exists j].
    subst tj. rewrite Hi in Hj. injection Hj as <-. by eexists. }
  assert (Hfl : forall tj, flist s' tj = flist s tj).
  { intros tj. rewrite /flist. subst s'. fs_simpl. rewrite lookup_insert. case_decide as E; [|done]. subst tj. by rewrite Hi. }
  split.
  - exists A, I. split_and!; [by apply st_inv_upd_inode| |].
    + intros tj Hj. destruct (HF tj Hj) as (j&Hjs&Hl&Hb&Hz). destruct (Hino tj j Hjs) as (j'&Hj'&E1&E2&E3).
      exists j'. split; [done|]. rewrite /inode_ok E1 E2 E3. done.
    + intros t1 t2 x. rewrite !Hfl. apply Hdis.
  - intros tj. by rewrite /fblocks Hfl.
Qed.
Lemma wp_set_nlink s F N X ps d c ti i f (Q : unit -> toyfs_sb_info -> Prop) :
  fs_inv s F N X -> h_inode s !! ti = Some i -> ti = d \/ ti = c ->
  (forall s', s' = upd_h_inode (<[ti := upd_i_nlink f i]>) s -> fs_inv s' F N X -> d_step s s' F X ps d c -> Q tt s') ->
  wp (set_inode ti (upd_i_nlink f)) s Q.
Proof.
  intros Hfs Hi Hti HQ. eapply wp_set_inode; [exact Hi|].
  destruct (fs_inv_nlink s F N X ti i f) as [Hfs' Hb]; [done..|]. apply HQ; [done..|].
  split_and!; [done| | |by intros|done].
  - intros tj ??. fs_simpl. rewrite lookup_insert_ne //. naive_solver.
  - intros Hcd. fs_simpl. rewrite lookup_insert. case_decide as E; [|done]. subst ti. by rewrite Hi.
Qed.
Lemma wp_set_dir s F N X ps d c i f (Q : unit -> toyfs_sb_info -> Prop) :
  fs_inv s F N X -> d ∉ F -> h_inode s !! d = Some i ->
  (forall s', s' = upd_h_inode (<[d := f i]>) s -> fs_inv s' F N X -> d_step s s' F X ps d c -> Q tt s') ->
  wp (set_inode d f) s Q.
Proof.
  intros Hfs Hd Hi HQ. eapply (wp_set_inode_x s F N X d i); [done..|]. intros s' Hfs' [HR Hx]. apply HQ; [done..|].
  split_and!; [done| | | |done].
  - intros tj ??. subst s'. fs_simpl. by rewrite lookup_insert_ne.
  - intros Hcd. subst s'. fs_simpl. by rewrite lookup_insert_ne.
  - intros tj Hj. by apply Hx.
Qed.
Lemma d_step_page s F N X ps d c p dat :
  fs_inv s F N X -> p ∈ X -> p ∈ ps -> length dat = 4096%nat ->
  let s' := upd_h_page (<[p := Pmemb dat]>) s in fs_inv s' F N X /\ d_step s s' F X ps d c.
Proof.
  intros Hfs Hp Hps Hl s'. destruct (fs_inv_store_x s F N X p dat) as [Hfs' [HR Hx]]; [done..|].
  split; [done|]. split_and!; [done..| |].
  - intros tj Hj. by apply Hx.
  - intros q Hq Hqs. subst s'. fs_simpl. rewrite lookup_insert_ne //. by intros ->.
Qed.

(** A device has fewer than 2^51 pages. *)
Lemma pages_bound s F N X ps :
  fs_inv s F N X -> NoDup ps -> (forall p, p ∈ ps -> p ∈ X) -> Z.of_nat (length ps) < 2 ^ 51.
Proof.
  intros (A&I&(P&D&(_&fl&C&(_&_&Hpa&_)&_)&_&_&HX&_)&_) Hnd Hin. pose proof md_t1_bound.
  set (g := fun p => md_o2p (md_addr_to_offset p)).
  assert (Hg : forall p, p ∈ ps -> 2 <= g p < md_t1_blocks /\ md_baddr (g p) = p).
  { intros p Hp. destruct (Hpa p) as (n&Hn&->); [set_solver + Hin HX Hp|]. rewrite /g md_bn_roundtrip; [lia|]. split; [lia|done]. }
  assert (Hnd' : NoDup (g <$> ps)).
  { apply NoDup_fmap_2_strong; [|done]. intros x y Hx Hy E. destruct (Hg x Hx) as [_ <-], (Hg y Hy) as [_ <-]. by rewrite E. }
  destruct (decide (ps = [])) as [->|Hne]; [simpl; lia|].
  assert (2 < md_t1_blocks).
  { destruct ps as [|p ps]; [done|]. destruct (Hg p); [constructor|lia]. }
  assert (Hsub : g <$> ps ⊆+ seqZ 2 (md_t1_blocks - 2)).
  { apply NoDup_submseteq; [done|]. intros n (p&->&Hp)%list_elem_of_fmap. apply elem_of_seqZ. destruct (Hg p Hp). lia. }
  apply submseteq_length in Hsub. rewrite length_fmap length_seqZ in Hsub. lia.
Qed.
End ops.
