(* ===== verification/DirOps.v ===== *)
(** * The operations on a directory

    Adding, finding and removing an entry and the empty directory: what each does to the pages
    and to the slots they are read as. *)

From S2P Require Import Prelude Bytes CList State Pool File FileInv FileSpec DirPage Pages Dir DirSpec.

Section ops.
Context `{MdLaws}.
Implicit Types (F N X : gset Z).

(** The fields of a directory inode an operation on entries may leave alone. *)
Lemma dir_ok_inode s s' X X' d ps ls i i' :
  dir_ok s X d ps ls -> h_inode s !! d = Some i -> h_inode s' !! d = Some i' ->
  list_head i' = list_head i -> i_blocks i' = i_blocks i -> i_mode i' = i_mode i ->
  (forall p, p ∈ ps -> h_page s' !! p = h_page s !! p) -> X ⊆ X' -> dir_ok s' X' d ps ls.
Proof.
  intros ((i0&Hi0&Hl&Hb&Hm)&Hnd&HX&Hp&Ho&Hn) Hi Hi' E1 E2 E3 Hpg HXX. rewrite Hi in Hi0. injection Hi0 as <-.
  split_and!; [|done| |by eapply dir_pages_same|done|done].
  - exists i'. rewrite E1 E2 E3. done.
  - intros p ?. by apply HXX, HX.
Qed.

Lemma names_grow ls n : names (concat (ls ++ [replicate n Free])) = names (concat ls) /\
  dir_map (concat (ls ++ [replicate n Free])) = dir_map (concat ls).
Proof.
  assert (Hu : used (concat (ls ++ [replicate n Free])) = used (concat ls)).
  { rewrite concat_app used_app /= app_nil_r used_free. apply app_nil_r. }
  by rewrite /names /dir_map Hu.
Qed.

(** A directory that grew by one empty page. *)
Lemma dir_grow s s' X d ps ls p i :
  dir_ok s X d ps ls -> p ∉ X -> h_inode s !! d = Some i ->
  h_inode s' !! d = Some (upd_list_head (fun l => l ++ [p]) (upd_i_blocks (fun n => u64 (n + 1)) i)) ->
  h_page s' = <[p := Pmemb (zeros 4096)]> (h_page s) -> Z.of_nat (length ps) < 2 ^ 51 ->
  dir_ok s' ({[p]} ∪ X) d (ps ++ [p]) (ls ++ [replicate DIRENTS Free]).
Proof.
  intros ((i0&Hi0&Hl&Hb&Hm)&Hnd&HX&Hp&Ho&Hn) HpX Hi Hi' Hpg Hlen. rewrite Hi in Hi0. injection Hi0 as <-.
  assert (Hpps : p ∉ ps) by (intros ?%HX; done).
  destruct (names_grow ls DIRENTS) as [En _]. split_and!.
  - eexists. split; [exact Hi'|]. fs_simpl. rewrite Hl Hb length_app /= u64_small; [lia|]. split_and!; [done|lia|done].
  - apply NoDup_app. split_and!; [done| |by apply NoDup_singleton]. intros q Hq Hqp%list_elem_of_singleton. by subst q.
  - intros q [Hq|Hq]%elem_of_app; [by apply elem_of_union_r, HX|set_solver + Hq].
  - apply Forall2_app; [|constructor; [|constructor]].
    + eapply dir_pages_same; [exact Hp|]. intros q Hq. rewrite Hpg lookup_insert_ne //. by intros ->.
    + exists (zeros 4096). rewrite Hpg lookup_insert_eq. split; [done|]. apply page_rep_zero.
  - rewrite concat_app offs_ok_app. split; [done|]. cbn [concat]. rewrite app_nil_r. apply offs_ok_free.
  - by rewrite En.
Qed.

Lemma nde_small n : (n < 256)%nat -> (_namelen_to_nde n <= DIRENTS)%nat.
Proof.
  intros Hn. rewrite /_namelen_to_nde /sizeof_dirent /DIRENTS. destruct (Nat.ltb_spec 14 n); [|lia].
  assert ((n - 14 + 32 - 1) / 32 <= 8)%nat; [|lia]. apply Nat.lt_succ_r, Nat.Div0.div_lt_upper_bound. lia.
Qed.

Lemma wp_acquire_dirent s F N X dtii d c ps ls nlen (Q : option (Z * nat) -> toyfs_sb_info -> Prop) :
  fs_inv s F N X -> d ∉ F -> dir_ok s X d ps ls -> tii_of s dtii d -> (nlen < 256)%nat ->
  (forall s', fs_inv s' F N X -> d_step s s' F X ps d c -> h_inode s' = h_inode s ->
     dir_ok s' X d ps ls -> free_le s' 0 -> Q None s') ->
  (forall sv ps' ls' X' p k l1 l2 dat i i', fs_inv sv F N X' -> X ⊆ X' -> d_step s sv F X ps d c ->
     dir_ok sv X' d ps' ls' -> dir_at ps' ls' p k (replicate (_namelen_to_nde nlen) Free) l1 l2 ->
     h_page sv !! p = Some (Pmemb dat) -> dir_map (concat ls') = dir_map (concat ls) ->
     h_inode s !! d = Some i -> h_inode sv !! d = Some i' -> i_size i' = i_size i -> i_nlink i' = i_nlink i ->
     (forall q, q ∈ ps' -> q ∈ ps \/ q ∉ X) -> (forall tj, tj <> d -> h_inode sv !! tj = h_inode s !! tj) ->
     (forall q, q ∈ X -> h_page sv !! q = h_page s !! q) -> (forall q, q ∈ ps -> q ∈ ps') ->
     Q (Some (p, k)) (upd_h_page (<[p := Pmemb (blit dat (de_at k) (le_bytes 8 (2 + Z.of_nat (nslots l1))))]>) sv)) ->
  wp (_acquire_dirent dtii nlen) s Q.
Proof.
  intros Hfs Hd Hok Htii Hnl HN HS. pose proof Hok as ((i&Hi&Hl&Hb&Hm)&Hnd&HX&Hp&Ho&Hn).
  rewrite /_acquire_dirent /toyfs_childs_list_of. do 2 wp_step. eapply wp_ti; [exact Htii|].
  eapply wp_get_inode; [exact Hi|]. rewrite Hl. wp_step. apply (wp_acquire_pages s nlen ps ls); [done| |].
  - intros p k l1 l2 Hat. wp_step. rewrite /set_d_off. wp_step.
    destruct (dir_at_page _ _ _ _ _ _ _ _ Hp Hat) as (dat&a&b&Hdat&_&_). cbn [fst snd].
    eapply wp_load_pmemb; [exact Hdat|]. rewrite /store_pmemb. wp_step; [exact Hdat|]. wp_step.
    eapply (HS s ps ls X p k l1 l2 dat i i); try done. by intros; left.
  - wp_step. apply (wp_acquire_x s F N X); [done| |].
    + intros s1 Hfs1 [HR1 Hx1] Hino1 Hpg1 Hfree. wp_step.
      apply HN; [done| |done| |done].
      * split_and!; [done|by rewrite Hino1|by rewrite Hino1| |by rewrite Hpg1]. intros tj Hj. by apply Hx1.
      * eapply (dir_ok_inode s); [done|exact Hi|by rewrite Hino1|done..|by rewrite Hpg1|done].
    + intros p s1 HpX Hfs1 [HR1 Hx1] Hino1 Hpg1 Hp0. wp_step.
      eapply (wp_ti s1); [destruct Htii as (t&Ht&?); exists t; by rewrite (rest_tii _ _ HR1)|]. wp_step.
      eapply (wp_set_dir s1 F N ({[p]} ∪ X) ps d c); [done|done|by rewrite Hino1|]. intros s2 Es2 Hfs2 Hs2.
      wp_step. eapply (wp_set_dir s2 F N ({[p]} ∪ X) ps d c); [done|done|by rewrite Es2; fs_simpl; rewrite lookup_insert_eq|].
      intros s3 Es3 Hfs3 Hs3.
      assert (Hi3 : h_inode s3 !! d = Some (upd_list_head (fun l => l ++ [p]) (upd_i_blocks (fun n => u64 (n + 1)) i))).
      { rewrite Es3; fs_simpl. by rewrite lookup_insert_eq. }
      assert (Hpg3 : h_page s3 = <[p := Pmemb (zeros 4096)]> (h_page s)) by (by rewrite Es3 Es2; fs_simpl).
      assert (Hok3 : dir_ok s3 ({[p]} ∪ X) d (ps ++ [p]) (ls ++ [replicate DIRENTS Free])).
      { eapply (dir_grow s s3 X d ps ls p i); try done. by apply (pages_bound s F N X ps). }
      assert (Hstep : d_step s s3 F X ps d c).
      { destruct (d_step_trans _ _ _ _ _ _ _ _ Hs2 Hs3) as (R&N1&C1&B1&P1). split_and!; [by rewrite R| | | |].
        - intros tj ??. by rewrite N1 // Hino1.
        - intros Hc. by rewrite C1 // Hino1.
        - intros tj Hj. rewrite B1 //. by apply Hx1.
        - intros q Hq _. rewrite Hpg3 lookup_insert_ne //. by intros ->. }
      wp_step. rewrite /set_d_off. wp_step. cbn [fst snd].
      eapply wp_load_pmemb; [by rewrite Hpg3 lookup_insert_eq|].
      rewrite /store_pmemb. wp_step; [by rewrite Hpg3 lookup_insert_eq|]. wp_step.
      eapply (HS s3 (ps ++ [p]) (ls ++ [replicate DIRENTS Free]) ({[p]} ∪ X) p 0%nat (concat ls)
        (replicate (DIRENTS - _namelen_to_nde nlen) Free) (zeros 4096) i); try done.
      * set_solver +.
      * exists ps, [], ls, [], (replicate (DIRENTS - _namelen_to_nde nlen) Free), [].
        pose proof (nde_small nlen Hnl). split_and!; try done.
        -- cbn [app]. do 2 f_equal. rewrite -replicate_add. f_equal. lia.
        -- by eapply Forall2_length.
        -- by rewrite app_nil_r.
        -- by rewrite /= app_nil_r.
      * by rewrite Hpg3 lookup_insert_eq.
      * apply names_grow.
      * intros q [Hq|Hq%list_elem_of_singleton]%elem_of_app; [by left|subst q; by right].
      * intros tj Hj. rewrite Es3 Es2; fs_simpl. rewrite !lookup_insert_ne // Hino1 //.
      * intros q Hq. rewrite Hpg3 lookup_insert_ne //. by intros ->.
      * intros q Hq. by apply elem_of_app; left.
Qed.

Lemma zi_isdir_eq i : zi_isdir i = S_ISTYPE S_IFDIR (i_mode i).
Proof. done. Qed.

(** The link counts after [zus_std_add_dentry]. *)
Lemma wp_std_add s F N X ps d c i j (Q : unit -> toyfs_sb_info -> Prop) :
  fs_inv s F N X -> c <> d -> h_inode s !! d = Some i -> h_inode s !! c = Some j ->
  (forall s', fs_inv s' F N X -> d_step s s' F X ps d c -> h_page s' = h_page s ->
     h_inode s' !! d = Some (if zi_isdir j then upd_i_nlink (le32_add 1) i else i) ->
     h_inode s' !! c = Some (upd_i_nlink (le32_add 1) j) -> Q tt s') ->
  wp (zus_std_add_dentry d c) s Q.
Proof.
  intros Hfs Hc Hi Hj HQ. rewrite /zus_std_add_dentry. wp_step.
  eapply (wp_set_nlink s F N X ps d c); [done|exact Hj|by right|]. intros s1 Es1 Hfs1 Hs1. wp_step.
  assert (Hj1 : h_inode s1 !! c = Some (upd_i_nlink (le32_add 1) j)) by (rewrite Es1; fs_simpl; by rewrite lookup_insert_eq).
  assert (Hi1 : h_inode s1 !! d = Some i) by (rewrite Es1; fs_simpl; by rewrite lookup_insert_ne).
  eapply wp_get_inode; [exact Hj1|]. rewrite (zi_isdir_eq (upd_i_nlink _ j)) -/(zi_isdir j).
  destruct (zi_isdir j) eqn:Hd.
  - eapply (wp_set_nlink s1 F N X ps d c); [done|exact Hi1|by left|]. intros s2 Es2 Hfs2 Hs2.
    apply HQ; [done|by eapply d_step_trans|by rewrite Es2 Es1; fs_simpl| |].
    + rewrite Es2; fs_simpl. by rewrite lookup_insert_eq.
    + rewrite Es2; fs_simpl. by rewrite lookup_insert_ne.
  - wp_step. apply HQ; [done..|by rewrite Es1; fs_simpl|done|done].
Qed.
Lemma wp_std_remove s F N X ps d c i j (Q : unit -> toyfs_sb_info -> Prop) :
  fs_inv s F N X -> c <> d -> h_inode s !! d = Some i -> h_inode s !! c = Some j ->
  (forall s', fs_inv s' F N X -> d_step s s' F X ps d c -> h_page s' = h_page s ->
     h_inode s' !! d = Some (if zi_isdir j then upd_i_nlink (le32_add (-1)) i else i) ->
     h_inode s' !! c = Some (upd_i_nlink (fun n => le32_add (-1) (if zi_isdir j then le32_add (-1) n else n)) j) ->
     Q tt s') ->
  wp (zus_std_remove_dentry d c) s Q.
Proof.
  intros Hfs Hc Hi Hj HQ. rewrite /zus_std_remove_dentry. wp_step. eapply wp_get_inode; [exact Hj|].
  destruct (zi_isdir j) eqn:Hd.
  - wp_step. wp_step. eapply (wp_set_nlink s F N X ps d c); [done|exact Hj|by right|]. intros s1 Es1 Hfs1 Hs1.
    eapply (wp_set_nlink s1 F N X ps d c _ i); [done|rewrite Es1; fs_simpl; by rewrite lookup_insert_ne|by left|].
    intros s2 Es2 Hfs2 Hs2.
    eapply (wp_set_nlink s2 F N X ps d c c); [done| |by right|].
    { rewrite Es2; fs_simpl. rewrite lookup_insert_ne // Es1; fs_simpl. by rewrite lookup_insert_eq. }
    intros s3 Es3 Hfs3 Hs3. apply HQ; [done| |by rewrite Es3 Es2 Es1; fs_simpl| |].
    + eapply d_step_trans; [exact Hs1|]. by eapply d_step_trans.
    + rewrite Es3; fs_simpl. rewrite lookup_insert_ne // Es2; fs_simpl. by rewrite lookup_insert_eq.
    + rewrite Es3; fs_simpl. by rewrite lookup_insert_eq.
  - wp_step. wp_step. eapply (wp_set_nlink s F N X ps d c c); [done|exact Hj|by right|]. intros s1 Es1 Hfs1 Hs1.
    apply HQ; [done..|by rewrite Es1; fs_simpl| |].
    + rewrite Es1; fs_simpl. by rewrite lookup_insert_ne.
    + rewrite Es1; fs_simpl. by rewrite lookup_insert_eq.
Qed.

Lemma name_ok_nonempty n : name_ok n -> n <> [].
Proof. intros [Hl _] ->. simpl in Hl. lia. Qed.
Lemma dent_new_ok str ino mode off :
  name_ok str -> 0 < ino < 2 ^ 64 -> 0 <= off < 2 ^ 63 -> dent_ok (Dent str ino (IFTODT mode) off).
Proof.
  intros Hs Hi Ho. pose proof (iftodt_range mode). split; [exact Hs|]. cbn [e_name e_ino e_type e_off].
  split_and!; lia.
Qed.

(** Filling the slots found for the name. *)
Lemma dir_fill s s' F N X d ps ls p k l1 l2 dat str ino mode :
  let off := 2 + Z.of_nat (nslots l1) in
  let e := Dent str ino (IFTODT mode) off in
  fs_inv s F N X -> dir_ok s X d ps ls ->
  dir_at ps ls p k (replicate (_namelen_to_nde (length str)) Free) l1 l2 -> h_page s !! p = Some (Pmemb dat) ->
  name_ok str -> str ∉ names (concat ls) -> 0 < ino < 2 ^ 64 ->
  h_page s' = <[p := Pmemb (_set_dirent (blit dat (de_at k) (le_bytes 8 off)) k str ino mode off)]> (h_page s) ->
  h_inode s' = h_inode s ->
  exists ls', dir_ok s' X d ps ls' /\ dir_map (concat ls') = <[str := ino]> (dir_map (concat ls)) /\
    dent_ok e /\ entry_at s' p k e /\ (forall q j x, entry_at s q j x -> entry_at s' q j x).
Proof.
  intros off e Hfs Hok Hat Hdat Hname Hnew Hino Hpg Hin. pose proof Hok as (Hi&Hnd&HX&Hp&Ho&Hn).
  pose proof (dir_at_concat _ _ _ _ _ _ _ Hat) as Hc.
  assert (He : dent_ok e).
  { apply dent_new_ok; [done..|]. subst off. pose proof (pages_bound s F N X ps Hfs Hnd HX).
    pose proof (dir_pages_nslots _ _ _ Hp) as Hsl. rewrite Hc nslots_app in Hsl. rewrite /DIRENTS in Hsl. lia. }
  destruct (dir_pages_update s s' ps ls p k (replicate (_namelen_to_nde (length str)) Free) [Used e] l1 l2)
    as (ls'&Hp'&Hc'); [done..| | |].
  { intros dat' a b Hdat' Hr ->. rewrite Hdat in Hdat'. injection Hdat' as <-.
    eexists. rewrite Hpg lookup_insert_eq. split; [done|]. by apply set_dirent_rep. }
  { intros q _ Hq. by rewrite Hpg lookup_insert_ne. }
  assert (Hu : used (concat ls) = used (l1 ++ l2)) by (by rewrite Hc !used_app used_free).
  assert (Hnd' : NoDup (names (concat ls'))).
  { rewrite Hc'. apply names_mid. rewrite /names -Hu. by split. }
  exists ls'. split_and!.
  - split_and!; [|done|done|done| |done].
    + by rewrite Hin.
    + rewrite Hc'. rewrite Hc in Ho. eapply (offs_ok_replace _ _ (replicate _ Free)); [exact Ho| |].
      * by rewrite nslots_free /nslots /= Nat.add_0_r.
      * by split.
  - rewrite Hc' dir_map_add; [by rewrite -Hc'|]. by rewrite /dir_map -Hu.
  - done.
  - destruct (dir_at_page _ _ _ _ _ _ _ _ Hp Hat) as (dat'&a&b&Hdat'&Hr&->).
    rewrite Hdat in Hdat'. injection Hdat' as <-. eexists _, a, b. rewrite Hpg lookup_insert_eq.
    split_and!; [done| |done]. by apply set_dirent_rep.
  - intros q j x (dat0&a0&b0&Hd0&Hr0&->). destruct (decide (q = p)) as [->|Hq]; cycle 1.
    { exists dat0, a0, b0. by rewrite Hpg lookup_insert_ne. }
    destruct (dir_at_page _ _ _ _ _ _ _ _ Hp Hat) as (dat'&a&b&Hdat'&Hr&->).
    rewrite Hdat in Hdat', Hd0. injection Hdat' as <-. injection Hd0 as <-.
    destruct (entry_stable x b0 [Used e] (_namelen_to_nde (length str)) a a0 b) as (a'&b'&E&En).
    { by rewrite /nslots /= Nat.add_0_r. }
    { by apply (page_rep_inj dat). }
    eexists _, a', b'. rewrite Hpg lookup_insert_eq -E. split_and!; [done| |done]. by apply set_dirent_rep.
Qed.

(** Adding an entry. *)
Lemma wp_toyfs_add_dirent s F N X dtii tii d c t i j ps ls str (Q : Z * option (Z * nat) -> toyfs_sb_info -> Prop) :
  fs_inv s F N X -> d ∉ F -> c <> d -> dir_ok s X d ps ls -> tii_of s dtii d -> tii_of s tii c ->
  h_tii s !! tii = Some t -> 0 < ino t < 2 ^ 64 -> h_inode s !! d = Some i -> h_inode s !! c = Some j ->
  name_ok str -> str ∉ names (concat ls) ->
  (forall s', fs_inv s' F N X -> d_step s s' F X ps d c -> h_inode s' = h_inode s ->
     dir_ok s' X d ps ls -> free_le s' 0 -> Q (- ENOSPC, None) s') ->
  (forall s' ps' ls' X' de i', fs_inv s' F N X' -> X ⊆ X' -> d_step s s' F X ps d c ->
     dir_ok s' X' d ps' ls' -> dir_map (concat ls') = <[str := ino t]> (dir_map (concat ls)) ->
     (forall q, q ∈ ps' -> q ∈ ps \/ q ∉ X) ->
     h_inode s' !! d = Some i' -> i_size i' = u64 (i_size i + PAGE_SIZE) ->
     i_nlink i' = (if zi_isdir j then le32_add 1 (i_nlink i) else i_nlink i) ->
     h_inode s' !! c = Some (upd_i_nlink (le32_add 1) j) ->
     (forall q k x, entry_at s q k x -> q ∈ ps -> entry_at s' q k x) -> (forall q, q ∈ ps -> q ∈ ps') ->
     Q (0, Some de) s') ->
  wp (toyfs_add_dirent dtii tii str) s Q.
Proof.
  intros Hfs Hd Hcd Hok Hdt Hct Ht Hino Hi Hj Hname Hnew HN HS. rewrite /toyfs_add_dirent. wp_step.
  eapply (wp_acquire_dirent s F N X dtii d c ps ls); [done..|apply Hname| |].
  { intros s' ?????. wp_step. by apply HN. }
  intros sv ps' ls' X' p k l1 l2 dat i0 iv Hfsv HXX Hsv Hokv Hat Hdat Hmap Hi0 Hiv Esz Enl Hps Hoth HpgX Hkeep.
  rewrite Hi in Hi0. injection Hi0 as <-. set (off := 2 + Z.of_nat (nslots l1)).
  set (s1 := upd_h_page _ sv). wp_step. rewrite /_add_dirent. wp_step. cbn [fst snd].
  assert (Hdat1 : h_page s1 !! p = Some (Pmemb (blit dat (de_at k) (le_bytes 8 off)))).
  { rewrite /s1; fs_simpl. by rewrite lookup_insert_eq. }
  pose proof Hsv as (HR&_). pose proof (rest_tii _ _ HR) as Htii.
  eapply wp_load_pmemb; [exact Hdat1|]. wp_step. rewrite /tii_ino. wp_step.
  wp_step; [by rewrite /s1; fs_simpl; rewrite Htii|]. wp_step. wp_step. rewrite /_mode_of. wp_step.
  assert (Htii1 : forall y z, tii_of s y z -> tii_of s1 y z).
  { intros y z (ty&?&?). exists ty. by rewrite /s1; fs_simpl; rewrite Htii. }
  eapply wp_ti; [by apply Htii1|]. eapply wp_get_inode; [by rewrite /s1; fs_simpl; rewrite Hoth|].
  pose proof Hokv as (_&Hndv&HXv&Hpv&_).
  assert (Hpp : p ∈ ps') by (destruct Hat as (c1&c2&_&_&_&_&->&_); set_solver +).
  assert (Hl0 : length dat = 4096%nat) by (destruct (fs_inv_page_ok sv F N X' p) as (dat'&Hd'&Hl'); [done|by apply HXv|congruence]).
  rewrite /store_pmemb. do 2 wp_step; [exact Hdat1|].
  set (s2 := upd_h_page (<[p := _]>) s1).
  assert (Eoff : d_off (blit dat (de_at k) (le_bytes 8 off)) k = off).
  { rewrite /d_off /slice /blit drop_app_length'; [rewrite length_take; destruct (dir_at_page _ _ _ _ _ _ _ _ Hpv Hat) as (dat'&a&b&Hd'&Hr'&->);
      pose proof (page_rep_at _ _ Hr') as Hsl%at_slot_app; destruct Hsl as (_&Hsl&_); rewrite nslots_app nslots_free in Hsl;
      pose proof (nde_pos (length str)); rewrite /de_at /sizeof_dirent /DIRENTS Hl0 in Hsl |- *; lia|].
    rewrite take_app_le ?firstn_all2 ?le_bytes_length // le_val_bytes -/(u64 off). apply s64_u64.
    subst off. pose proof (pages_bound sv F N X' ps' Hfsv Hndv HXv).
    pose proof (dir_pages_nslots _ _ _ Hpv) as Hsl. rewrite (dir_at_concat _ _ _ _ _ _ _ Hat) nslots_app in Hsl.
    rewrite /DIRENTS in Hsl. lia. }
  assert (Hpg2 : h_page s2 = <[p := Pmemb (_set_dirent (blit dat (de_at k) (le_bytes 8 off)) k str (ino t) (i_mode j) off)]> (h_page sv)).
  { rewrite /s2 /s1; fs_simpl. by rewrite insert_insert_eq Eoff. }
  assert (Hnew' : str ∉ names (concat ls')) by (rewrite -dir_map_None Hmap; by apply dir_map_None).
  destruct (dir_fill sv s2 F N X' d ps' ls' p k l1 l2 dat str (ino t) (i_mode j))
    as (ls2&Hok2&Hmap2&He&Hent&Hst2); [done..|].
  assert (fs_inv s2 F N X' /\ d_step sv s2 F X ps d c) as [Hfs2 Hs2].
  { destruct Hent as (dat2&a&b&Hd2&(Hl2&_)&_). rewrite Hpg2 lookup_insert_eq in Hd2. injection Hd2 as Ed2.
    destruct (fs_inv_store_x sv F N X' p dat2) as [Hfs2 [HR2 Hx2]]; [done|by apply HXv|done|].
    assert (Es2 : upd_h_page (<[p := Pmemb dat2]>) sv = s2).
    { rewrite /s2 /s1 /upd_h_page; fs_simpl. f_equal. rewrite insert_insert_eq Eoff. by rewrite -Ed2. }
    rewrite Es2 in Hfs2, HR2, Hx2. split; [done|]. split_and!; [done..| |].
    - intros tj Hj'. by apply Hx2.
    - intros q Hq Hqs. rewrite Hpg2 lookup_insert_ne //. intros <-. by destruct (Hps p Hpp). }
  wp_step. assert (Htii2 : forall y z, tii_of s y z -> tii_of s2 y z) by exact Htii1.
  eapply wp_ti; [by apply Htii2|]. wp_step.
  eapply (wp_set_dir s2 F N X' ps d c iv); [done|done|exact Hiv|]. intros s3 Es3 Hfs3 Hs3.
  assert (Htii3 : forall y z, tii_of s y z -> tii_of s3 y z) by (by rewrite Es3).
  assert (Hj3 : h_inode s3 !! c = Some j) by (rewrite Es3; fs_simpl; rewrite lookup_insert_ne // -Hj; by apply Hoth).
  wp_step. eapply wp_zi; [by apply Htii3|]. wp_step. eapply wp_zi; [by apply Htii3|].
  eapply (wp_std_add s3 F N X' ps' d c); [done|done|rewrite Es3; fs_simpl; by rewrite lookup_insert_eq|exact Hj3|].
  intros s4 Hfs4 Hs4 Hpg4 Hi4 Hj4. wp_step.
  assert (Hpg24 : h_page s4 = h_page s2) by (by rewrite Hpg4 Es3).
  eapply (HS s4 ps' ls2 X'); try done.
  - assert (d_step s3 s4 F X ps d c) by (destruct Hs4 as (?&?&?&?&_); split_and!; try done; intros; by rewrite Hpg4).
    assert (d_step s2 s3 F X ps d c) by (destruct Hs3 as (?&?&?&?&_); split_and!; try done; intros; by rewrite Es3).
    do 3 (eapply d_step_trans; [eassumption|]). done.
  - eapply (dir_ok_inode s2); [exact Hok2|exact Hiv|exact Hi4|..]; try done; try by destruct (zi_isdir j).
    intros q _. by rewrite Hpg24.
  - by rewrite Hmap2 Hmap.
  - destruct (zi_isdir j); cbn; by rewrite Esz.
  - destruct (zi_isdir j); cbn; by rewrite Enl.
  - intros q m x (dat0&a0&b0&Hd0&Hr0&->) Hq. assert (HqX : q ∈ X).
    { destruct Hok as (_&_&HX&_). by apply HX. }
    assert (Hv : entry_at sv q (nslots a0) x) by (exists dat0, a0, b0; by rewrite HpgX).
    destruct (Hst2 _ _ _ Hv) as (dat2&a2&b2&?&?&?). exists dat2, a2, b2. by rewrite Hpg24.
Qed.

(** Clearing the slots of an entry. *)
Lemma dir_clear s s' X d ps ls p k e dat dat' :
  dir_ok s X d ps ls -> p ∈ ps -> entry_at s p k e -> h_page s !! p = Some (Pmemb dat) ->
  _reset_dirent dat k = Some dat' -> h_page s' = <[p := Pmemb dat']> (h_page s) -> h_inode s' = h_inode s ->
  length dat' = 4096%nat /\
  exists ls', dir_ok s' X d ps ls' /\ dir_map (concat ls') = delete (e_name e) (dir_map (concat ls)).
Proof.
  intros Hok Hin Hent Hdat Hres Hpg Hino. pose proof Hok as (Hi&Hnd&HX&Hp&Ho&Hn).
  destruct (dir_at_of_entry _ _ _ _ _ _ Hp Hin Hent) as (l1&l2&Hat).
  pose proof (dir_at_concat _ _ _ _ _ _ _ Hat) as Hc. cbn [app] in Hc.
  assert (Hrep : forall a b, page_rep dat (a ++ [Used e] ++ b) -> k = nslots a ->
    page_rep dat' (a ++ replicate (slots_of (Used e)) Free ++ b)).
  { intros a b Hr ->. destruct (reset_dirent_rep _ _ _ _ Hr) as (dat2&Hres2&Hr2).
    rewrite Hres in Hres2. by injection Hres2 as <-. }
  split.
  { destruct (dir_at_page _ _ _ _ _ _ _ _ Hp Hat) as (dat0&a&b&Hd0&Hr&->). rewrite Hdat in Hd0. injection Hd0 as <-.
    by destruct (Hrep a b Hr eq_refl). }
  destruct (dir_pages_update s s' ps ls p k [Used e] (replicate (slots_of (Used e)) Free) l1 l2) as (ls'&Hp'&Hc'); [done..| | |].
  { intros dat0 a b Hd0 Hr ->. rewrite Hdat in Hd0. injection Hd0 as <-.
    exists dat'. rewrite Hpg lookup_insert_eq. split; [done|]. by apply Hrep. }
  { intros q _ Hq. by rewrite Hpg lookup_insert_ne. }
  rewrite Hc in Hn, Ho. destruct (dir_map_remove l1 e l2 (slots_of (Used e)) Hn) as [Hn' Hm'].
  exists ls'. split; [|by rewrite Hc' Hm' Hc]. split_and!; [|done|done|done| |by rewrite Hc'].
  - by rewrite Hino.
  - rewrite Hc'. apply (offs_ok_replace 2 l1 [Used e]); [exact Ho| |apply offs_ok_free].
    rewrite nslots_free /nslots /=. lia.
Qed.

Lemma wp_toyfs_remove_dirent s F N X dtii tii d c i j ps ls p k e (Q : unit -> toyfs_sb_info -> Prop) :
  fs_inv s F N X -> d ∉ F -> c <> d -> dir_ok s X d ps ls -> tii_of s dtii d -> tii_of s tii c ->
  h_inode s !! d = Some i -> h_inode s !! c = Some j -> p ∈ ps -> entry_at s p k e ->
  (forall s' ls' i', fs_inv s' F N X -> d_step s s' F X ps d c -> dir_ok s' X d ps ls' ->
     dir_map (concat ls') = delete (e_name e) (dir_map (concat ls)) ->
     h_inode s' !! d = Some i' -> i_size i' = u64 (i_size i - PAGE_SIZE) ->
     i_nlink i' = (if zi_isdir j then le32_add (-1) (i_nlink i) else i_nlink i) ->
     h_inode s' !! c = Some (upd_i_nlink (fun n => le32_add (-1) (if zi_isdir j then le32_add (-1) n else n)) j) ->
     Q tt s') ->
  wp (toyfs_remove_dirent dtii tii (p, k)) s Q.
Proof.
  intros Hfs Hd Hcd Hok Hdt Hct Hi Hj Hin Hent HQ. pose proof Hok as (_&_&HX&_).
  pose proof Hent as (dat&a&b&Hdat&Hr&Ek). destruct (reset_dirent_rep _ _ _ _ Hr) as (dat'&Hres&_). rewrite -Ek in Hres.
  rewrite /toyfs_remove_dirent. wp_step. cbn [fst snd]. eapply wp_load_pmemb; [exact Hdat|]. rewrite Hres.
  wp_step. cbn [of_option]. do 2 wp_step. rewrite /store_pmemb. wp_step; [exact Hdat|].
  set (s1 := upd_h_page _ s).
  destruct (dir_clear s s1 X d ps ls p k e dat dat') as (Hl'&ls'&Hok1&Hmap); [done..|].
  destruct (d_step_page s F N X ps d c p dat') as [Hfs1 Hs1]; [done|by apply HX|done|done|]. fold s1 in Hfs1, Hs1.
  wp_step. eapply (wp_ti s1); [exact Hdt|]. wp_step.
  eapply (wp_set_dir s1 F N X ps d c i); [done|done|exact Hi|]. intros s2 Es2 Hfs2 Hs2.
  assert (Htii2 : forall y z, tii_of s y z -> tii_of s2 y z) by (by rewrite Es2).
  wp_step. eapply wp_zi; [by apply Htii2|]. wp_step. eapply wp_zi; [by apply Htii2|].
  eapply (wp_std_remove s2 F N X ps d c); [done|done|rewrite Es2; fs_simpl; by rewrite lookup_insert_eq| |].
  { rewrite Es2; fs_simpl. by rewrite lookup_insert_ne. }
  intros s3 Hfs3 Hs3 Hpg3 Hi3 Hj3. eapply (HQ s3 ls'); try done.
  - eapply d_step_trans; [exact Hs1|]. by eapply d_step_trans.
  - eapply (dir_ok_inode s1); [exact Hok1|exact Hi|exact Hi3|..]; try done; try by destruct (zi_isdir j).
    intros q _. by rewrite Hpg3 Es2.
  - by destruct (zi_isdir j).
  - by destruct (zi_isdir j).
Qed.

(** Lookup, as an entry of the directory. *)
Lemma wp_toyfs_lookup_dirent s X dtii d ps ls str (Q : option (Z * nat) -> toyfs_sb_info -> Prop) :
  dir_ok s X d ps ls -> tii_of s dtii d -> str <> [] ->
  (forall p k e, p ∈ ps -> entry_at s p k e -> e_name e = str -> dir_map (concat ls) !! str = Some (e_ino e) -> Q (Some (p, k)) s) ->
  (dir_map (concat ls) !! str = None -> Q None s) ->
  wp (toyfs_lookup_dirent dtii str) s Q.
Proof.
  intros ((i&Hi&Hl&_)&Hnd&HX&Hp&Ho&Hn) Htii Hs HS HN. rewrite /toyfs_lookup_dirent /toyfs_childs_list_of.
  do 2 wp_step. eapply wp_ti; [exact Htii|]. eapply wp_get_inode; [exact Hi|]. rewrite Hl.
  apply (wp_lookup_pages s str ps ls); [done|done| |].
  - intros p k e l1 l2 Hat He. destruct (entry_of_dir_at _ _ _ _ _ _ _ _ Hp Hat) as [Hin Hent].
    apply (HS p k e); [done..|]. rewrite -He. apply dir_map_lookup; [done|].
    rewrite (dir_at_concat _ _ _ _ _ _ _ Hat). set_solver +.
  - intros Hno. apply HN. by apply dir_map_None.
Qed.
End ops.
