(* ===== verification/DirEx.v ===== *)
(** * An example with two directories

    The device of FileClaims.v with two regular files, and two empty directories open
    as [tii] 3 and 4; then the first file named in the first directory. *)

From S2P Require Import Prelude Bytes CList State Pool File FileInv FileSpec FileOps FileClaims DirPage Pages Dir DirSpec DirOps.

Section example.
#[local] Existing Instance example_md.

Definition dir_inode (n : Z) : toyfs_inode :=
  upd_i_mode (fun _ => S_IFDIR) (upd_i_nlink (fun _ => 1) (upd_i_ino (fun _ => n) zero_inode)).
Definition new_dir_example (tii n : Z) : FS unit :=
  r ← toyfs_acquire_inode; p ← of_option r;
  modify (upd_h_inode (<[p := dir_inode n]>));; modify (upd_h_tii (<[tii := reg_tii p n]>)).
Definition ds_example1 : toyfs_sb_info := run_or (new_dir_example 3 13) fs_example.
Definition ds_example : toyfs_sb_info := run_or (new_dir_example 4 14) ds_example1.
Definition dir1 : Z := 69888.
Definition dir2 : Z := 70016.
Definition ex_inodes : gset Z := {[dir2]} ∪ ({[dir1]} ∪ ex_files).

Lemma fs_inv_shrink s F F' N X : fs_inv s F N X -> F' ⊆ F -> fs_inv s F' N X.
Proof.
  intros (A&I&Hst&HF&Hdis) Hsub. exists A, I. split_and!; [done| |].
  - intros tj Hj. by apply HF, Hsub.
  - intros t1 t2 x H1 H2. by apply Hdis; apply Hsub.
Qed.
Lemma wp_new_dir_example s F N X tii n p (Q : unit -> toyfs_sb_info -> Prop) :
  fs_inv s F N X -> F ⊆ N -> (exists s', toyfs_acquire_inode s = Some (Some p, s')) ->
  (forall s', p ∉ N -> fs_inv s' F ({[p]} ∪ N) X ->
     h_tii s' = <[tii := reg_tii p n]> (h_tii s) -> h_inode s' = <[p := dir_inode n]> (h_inode s) -> Q tt s') ->
  wp (new_dir_example tii n) s Q.
Proof.
  intros Hfs HFN (s1&Hrun) HQ. rewrite /new_dir_example. wp_step.
  assert (wp toyfs_acquire_inode s (fun r s' => forall x, r = Some x -> r = Some p ->
    wp (modify (upd_h_inode (<[x := dir_inode n]>));; modify (upd_h_tii (<[tii := reg_tii x n]>))) s' Q)) as Hw.
  { apply (wp_new_file s F N X); [done|done|by intros|].
    intros y s' Hy Hr He Hinv x [= <-] [= <-]. do 2 wp_step. injection He as E1 E2 E3.
    apply HQ; [done| | |by fs_simpl; rewrite E3].
    - apply (fs_inv_shrink _ ({[y]} ∪ F)); [|set_solver +]. apply fs_inv_tii, Hinv; [done..|]. by split.
    - fs_simpl. by rewrite (rest_tii _ _ Hr). }
  rewrite /wp Hrun in Hw |- *. cbn [of_option mret ST_ret mbind ST_bind]. by apply Hw.
Qed.

Lemma ds_example_inv : fs_inv ds_example ex_files ex_inodes ∅.
Proof.
  assert (H1 : fs_inv ds_example1 ex_files ({[dir1]} ∪ ex_files) ∅).
  { apply (run_or_wp (new_dir_example 3 13) fs_example (fun s => fs_inv s ex_files ({[dir1]} ∪ ex_files) ∅)).
    apply (wp_new_dir_example fs_example ex_files ex_files ∅ 3 13 dir1); [exact fs_example_inv|done| |by intros].
    eexists. vm_compute. reflexivity. }
  apply (run_or_wp (new_dir_example 4 14) ds_example1 (fun s => fs_inv s ex_files ex_inodes ∅)).
  apply (wp_new_dir_example ds_example1 ex_files ({[dir1]} ∪ ex_files) ∅ 4 14 dir2); [exact H1|set_solver +| |by intros].
  eexists. vm_compute. reflexivity.
Qed.
Lemma ds_inodes :
  h_inode ds_example !! file1 = Some (reg_inode 11) /\ h_inode ds_example !! file2 = Some (reg_inode 12) /\
  h_inode ds_example !! dir1 = Some (dir_inode 13) /\ h_inode ds_example !! dir2 = Some (dir_inode 14).
Proof. vm_compute. done. Qed.
Lemma reg_zii s k p n : h_tii s !! k = Some (reg_tii p n) -> zii_of s k p.
Proof. intros H. exists (reg_tii p n). by rewrite H. Qed.
Lemma ds_tiis :
  h_tii ds_example !! 1 = Some (reg_tii file1 11) /\ h_tii ds_example !! 2 = Some (reg_tii file2 12) /\
  h_tii ds_example !! 3 = Some (reg_tii dir1 13) /\ h_tii ds_example !! 4 = Some (reg_tii dir2 14).
Proof. vm_compute. done. Qed.
Lemma dir_ok_empty s X d i :
  h_inode s !! d = Some i -> list_head i = [] -> i_blocks i = 0 -> S_ISTYPE S_IFDIR (i_mode i) = true ->
  dir_ok s X d [] [].
Proof.
  intros Hi Hl Hb Hm. split_and!; [by exists i|constructor|by intros p ?%elem_of_nil|constructor|done|constructor].
Qed.
Lemma ds_dir1 : dir_is ds_example ∅ dir1 ∅.
Proof. exists [], []. split; [eapply dir_ok_empty; [apply ds_inodes|reflexivity..]|reflexivity]. Qed.
Lemma ds_dir2 : dir_is ds_example ∅ dir2 ∅.
Proof. exists [], []. split; [eapply dir_ok_empty; [apply ds_inodes|reflexivity..]|reflexivity]. Qed.
Lemma dir1_new : dir1 ∉ ex_files.
Proof. rewrite /ex_files. set_solver. Qed.
Lemma dir2_new : dir2 ∉ ex_files.
Proof. rewrite /ex_files. set_solver. Qed.

(** The names "a" and "b". *)
Definition nm_a : list Z := [97].
Definition nm_b : list Z := [98].
Lemma nm_ok b : 0 < b < 256 -> name_ok [b].
Proof. intros Hb. split; [simpl; lia|]. by intros x ->%list_elem_of_singleton. Qed.

(** The first file is "a" in the first directory. *)
Definition ds_named : toyfs_sb_info := run_or (toyfs_add_dirent 3 1 nm_a) ds_example.
Lemma wp_add_example s F N X dtii tii d c n k i j ps ls str :
  fs_inv s F N X -> d ∉ F -> c <> d -> dir_ok s X d ps ls -> h_tii s !! dtii = Some (reg_tii d k) ->
  h_tii s !! tii = Some (reg_tii c n) -> 0 < n < 2 ^ 64 -> h_inode s !! d = Some i -> h_inode s !! c = Some j ->
  name_ok str -> str ∉ names (concat ls) -> (fun r => r.1.1) <$> toyfs_add_dirent dtii tii str s = Some 0 ->
  exists X' ps' ls', let s' := run_or (toyfs_add_dirent dtii tii str) s in
    fs_inv s' F N X' /\ dir_ok s' X' d ps' ls' /\ dir_map (concat ls') = <[str := n]> (dir_map (concat ls)).
Proof.
  intros Hfs Hd Hcd Hok Hdt Ht Hn Hi Hj Hname Hnew E.
  assert (wp (toyfs_add_dirent dtii tii str) s (fun r s' => r.1 = 0 -> exists X' ps' ls',
    fs_inv s' F N X' /\ dir_ok s' X' d ps' ls' /\ dir_map (concat ls') = <[str := n]> (dir_map (concat ls)))) as Hw.
  { eapply (wp_toyfs_add_dirent s F N X dtii tii d c (reg_tii c n) i j ps ls str); try done.
    - by eapply zii_tii, reg_zii.
    - by eapply zii_tii, reg_zii.
    - intros s' ps' ls' X' de i' ???? Hm. intros. exists X', ps', ls'. by split_and!. }
  rewrite /run_or. rewrite /wp in Hw.
  destruct (toyfs_add_dirent dtii tii str s) as [[r s']|]; [|done]. apply Hw. by injection E.
Qed.
Lemma ds_named_ok : exists X ps ls,
  fs_inv ds_named ex_files ex_inodes X /\ dir_ok ds_named X dir1 ps ls /\ dir_map (concat ls) = {[nm_a := 11]}.
Proof.
  eapply (wp_add_example ds_example ex_files ex_inodes ∅ 3 1 dir1 file1 11 13 _ _ [] []);
    [exact ds_example_inv|exact dir1_new|discriminate|eapply dir_ok_empty; [apply ds_inodes|reflexivity..]|apply ds_tiis|
     apply ds_tiis|lia|apply ds_inodes|apply ds_inodes|apply nm_ok; lia|by intros ?%elem_of_nil|vm_compute; reflexivity].
Qed.
Lemma ds_named_facts :
  h_inode ds_named !! file1 = Some (upd_i_nlink (fun _ => 2) (reg_inode 11)) /\ h_inode ds_named !! dir2 = Some (dir_inode 14) /\
  h_tii ds_named !! 1 = Some (reg_tii file1 11) /\ h_tii ds_named !! 3 = Some (reg_tii dir1 13) /\
  h_tii ds_named !! 4 = Some (reg_tii dir2 14).
Proof. vm_compute. done. Qed.
Lemma ds_named_dir : exists X, fs_inv ds_named ex_files ex_inodes X /\ dir_is ds_named X dir1 {[nm_a := 11]}.
Proof. destruct ds_named_ok as (X&ps&ls&?&?&?). exists X. split; [done|]. by exists ps, ls. Qed.

(** Both files are named: "a" and "b". *)
Definition ds_both : toyfs_sb_info := run_or (toyfs_add_dirent 3 2 nm_b) ds_named.
Lemma ds_both_dir : exists X, fs_inv ds_both ex_files ex_inodes X /\ dir_is ds_both X dir1 (<[nm_b := 12]> {[nm_a := 11]}).
Proof.
  destruct ds_named_ok as (X&ps&ls&Hfs&Hok&Hm).
  destruct (wp_add_example ds_named ex_files ex_inodes X 3 2 dir1 file2 12 13 (upd_i_size (fun _ => 4096)
    (upd_list_head (fun _ => [65536]) (upd_i_blocks (fun _ => 1) (dir_inode 13)))) (reg_inode 12) ps ls nm_b)
    as (X'&ps'&ls'&Hfs'&Hok'&Hm'); [exact Hfs|exact dir1_new|discriminate|exact Hok|vm_compute; reflexivity..
      |lia|vm_compute; reflexivity|vm_compute; reflexivity|apply nm_ok; lia| |vm_compute; reflexivity|].
  - apply dir_map_None. rewrite Hm. reflexivity.
  - exists X'. split; [exact Hfs'|]. exists ps', ls'. split; [exact Hok'|]. rewrite Hm' Hm. reflexivity.
Qed.
Lemma ds_both_facts :
  h_inode ds_both !! file1 = Some (upd_i_nlink (fun _ => 2) (reg_inode 11)) /\
  h_tii ds_both !! 1 = Some (reg_tii file1 11) /\ h_tii ds_both !! 3 = Some (reg_tii dir1 13).
Proof. vm_compute. done. Qed.
End example.
