(* ===== verification/DirClaims.v ===== *)
(** * What directory operations promise

    Name lookup, entry creation and removal and rename, over the map
    from names to inode numbers a directory stands for. *)

From S2P Require Import Prelude Bytes CList State Pool File FileInv FileSpec FileOps FileClaims DirPage Pages Dir DirSpec DirOps DirEx.

Section claims.
Context `{MdLaws}.
Implicit Types (F N X T : gset Z).

(** What a name-space operation on the inodes [T] leaves alone: the bytes, the size and
    the type of every file, every other inode, and every foreign page but those of the
    directories concerned ([ps]). *)
Definition ns_step (s s' : toyfs_sb_info) (F X T : gset Z) (ps : list Z) : Prop :=
  rest s' = rest s /\ (forall tj, tj ∉ T -> h_inode s' !! tj = h_inode s !! tj) /\
  (forall tj, tj ∈ F -> fblocks s' tj = fblocks s tj /\ fsize s' tj = fsize s tj /\ fmode s' tj = fmode s tj) /\
  (forall p, p ∈ X -> p ∉ ps -> h_page s' !! p = h_page s !! p).
Lemma ns_step_refl s F X T ps : ns_step s s F X T ps.
Proof. by split_and!. Qed.
Lemma ns_step_trans s1 s2 s3 F X T ps :
  ns_step s1 s2 F X T ps -> ns_step s2 s3 F X T ps -> ns_step s1 s3 F X T ps.
Proof.
  intros (R1&N1&B1&P1) (R2&N2&B2&P2). split_and!; [by rewrite R2| | |].
  - intros tj ?. by rewrite N2 ?N1.
  - intros tj Hj. destruct (B1 tj Hj) as (?&?&?), (B2 tj Hj) as (?&?&?). split_and!; congruence.
  - intros p ??. by rewrite P2 ?P1.
Qed.
Lemma ns_of_d s s' F X T ps ps' d c :
  d_step s s' F X ps d c -> d ∉ F -> c <> d -> d ∈ T -> c ∈ T -> (forall p, p ∈ ps -> p ∈ ps') -> ns_step s s' F X T ps'.
Proof.
  intros (R&Hn&Hc&B&P) Hd Hcd HdT HcT Hps. split_and!; [done| | |].
  - intros tj Hj. apply Hn; by intros ->.
  - intros tj Hj. split; [by apply B|]. destruct (decide (tj = c)) as [->|Hne].
    + specialize (Hc Hcd). rewrite /fsize /fmode. destruct (h_inode s' !! c) as [i'|], (h_inode s !! c) as [i|]; try done.
      apply (inj Some) in Hc. split; [exact (f_equal i_size Hc)|exact (f_equal i_mode Hc)].
    + rewrite /fsize /fmode Hn //. by intros ->.
  - intros p Hp Hpp. apply P; [done|]. by intros ?%Hps.
Qed.

(** Changing attributes of an inode. *)
Lemma fs_inv_attr s F N X c i i' :
  fs_inv s F N X -> h_inode s !! c = Some i -> list_head i' = list_head i -> i_blocks i' = i_blocks i ->
  i_size i' = i_size i -> i_mode i' = i_mode i ->
  let s' := upd_h_inode (<[c := i']>) s in
  fs_inv s' F N X /\ forall T ps, c ∈ T -> ns_step s s' F X T ps.
Proof.
  intros (A&I&Hst&HF&Hdis) Hi E1 E2 E3 E4 s'.
  assert (Hino : forall tj, (list_head <$> h_inode s' !! tj) = (list_head <$> h_inode s !! tj) /\
    (i_blocks <$> h_inode s' !! tj) = (i_blocks <$> h_inode s !! tj) /\
    (i_size <$> h_inode s' !! tj) = (i_size <$> h_inode s !! tj)).
  { intros tj. subst s'. fs_simpl. rewrite lookup_insert. case_decide as E; [|done].
    subst tj. rewrite Hi /=. by rewrite E1 E2 E3. }
  assert (Hfl : forall tj, flist s' tj = flist s tj) by (intros tj; rewrite /flist; by destruct (Hino tj) as (->&_)).
  split.
  - exists A, I. split_and!; [by apply st_inv_upd_inode| |].
    + intros tj Hj. destruct (HF tj Hj) as (j&Hjs&Hl&Hb&Hz). destruct (Hino tj) as (F1&F2&F3). rewrite Hjs in F1 F2 F3.
      destruct (h_inode s' !! tj) as [j'|]; [|done]. exists j'. split; [done|].
      apply (inj Some) in F1, F2, F3. by rewrite /inode_ok F1 F2 F3.
    + intros t1 t2 x. rewrite !Hfl. apply Hdis.
  - intros T ps Hc. split_and!; [done| | |done].
    + intros tj Hj. subst s'. fs_simpl. rewrite lookup_insert_ne //. by intros ->.
    + intros tj _. split; [by rewrite /fblocks Hfl|]. split; [rewrite /fsize; by destruct (Hino tj) as (_&_&->)|].
      rewrite /fmode. subst s'. fs_simpl. rewrite lookup_insert. case_decide as E; [|done]. subst tj. by rewrite Hi /= E4.
Qed.
Lemma wp_set_attr s F N X T ps c i f (Q : unit -> toyfs_sb_info -> Prop) :
  fs_inv s F N X -> h_inode s !! c = Some i -> c ∈ T -> list_head (f i) = list_head i -> i_blocks (f i) = i_blocks i ->
  i_size (f i) = i_size i -> i_mode (f i) = i_mode i ->
  (forall s', s' = upd_h_inode (<[c := f i]>) s -> fs_inv s' F N X -> ns_step s s' F X T ps -> Q tt s') ->
  wp (set_inode c f) s Q.
Proof.
  intros Hfs Hi Hc E1 E2 E3 E4 HQ. eapply wp_set_inode; [exact Hi|].
  destruct (fs_inv_attr s F N X c i (f i)) as [Hfs' Hs']; [done..|]. apply HQ; [done..|]. by apply Hs'.
Qed.

(** ** Lookup *)

Lemma wp_lookup_name s X zii d m str :
  zii_of s zii d -> dir_is s X d m -> str <> [] ->
  wp (toyfs_lookup zii str) s (fun r s' => s' = s /\ r = default 0 (m !! str)).
Proof.
  intros Hz (ps&ls&Hok&<-) Hs. rewrite /toyfs_lookup. wp_step. eapply wp_zii; [exact Hz|]. rewrite /_lookup. wp_step.
  eapply (wp_toyfs_lookup_dirent s X zii d ps ls); [done|by apply zii_tii|done| |].
  - intros p k e Hin (dat&a&b&Hd&Hr&->) He ->. rewrite /load_dirent_ino. wp_step. cbn [fst snd].
    eapply wp_load_pmemb; [exact Hd|]. wp_step. split; [done|].
    pose proof (page_rep_at _ _ Hr) as Hat%at_slot_app. destruct (at_used _ _ _ _ Hat) as (_&_&E&_). exact E.
  - intros ->. by wp_step.
Qed.
(** Looking a name up answers the inode number it maps to, 0 for a name that is not
    there, and changes nothing. *)
Theorem lookup_spec s X zii d m str :
  zii_of s zii d -> dir_is s X d m -> str <> [] ->
  wp (toyfs_lookup zii str) s (fun r s' => s' = s /\ r = default 0 (m !! str)).
Proof. apply wp_lookup_name. Qed.

(** ** Creation and removal of names *)
Lemma wp_add_dentry s F N X dzii zii d c t m str :
  fs_inv s F N X -> d ∉ F -> c <> d -> zii_of s dzii d -> zii_of s zii c -> h_tii s !! zii = Some t ->
  0 < ino t < 2 ^ 64 -> is_Some (h_inode s !! c) -> dir_is s X d m -> name_ok str -> m !! str = None ->
  wp (toyfs_add_dentry dzii zii str) s (fun r s' => exists X' ps,
    fs_inv s' F N X' /\ X ⊆ X' /\ ns_step s s' F X {[d; c]} ps /\
    if decide (r = 0) then
      dir_is s' X' d (<[str := ino t]> m) /\ fsize s' d = u64 (fsize s d + PAGE_SIZE) /\
      inlink s' c = u32 (inlink s c + 1)
    else r = - ENOSPC /\ dir_is s' X' d m /\ h_inode s' = h_inode s /\ free_le s' 0).
Proof.
  intros Hfs Hd Hcd Hdz Hcz Ht Hino (j&Hj) (ps&ls&Hok&<-) Hname Hnew.
  pose proof Hok as ((i&Hi&_)&_). rewrite /toyfs_add_dentry.
  wp_step. eapply wp_zii; [exact Hdz|]. wp_step. eapply wp_zii; [exact Hcz|]. wp_step.
  eapply (wp_toyfs_add_dirent s F N X dzii zii d c t i j ps ls str); try done; [by apply zii_tii..|by apply dir_map_None| |].
  - intros s' Hfs' Hs' Hino' Hok' Hfree. wp_step. exists X, ps. split_and!; [done|done|eapply ns_of_d; try done; set_solver +|].
    cbn [fst]. case_decide; [done|]. split_and!; try done. by exists ps, ls.
  - intros s' ps' ls' X' de i' Hfs' HXX Hs' Hok' Hmap Hps Hi' Esz Enl Hj' _ _. wp_step. exists X', ps.
    split_and!; [done|done|eapply ns_of_d; try done; set_solver +|]. cbn [fst]. case_decide; [|done]. split_and!.
    + by exists ps', ls'.
    + by rewrite /fsize Hi' Hi /= Esz.
    + by rewrite /inlink Hj' Hj.
Qed.
(** Creating a name: the directory gains exactly the entry, its size a page, the
    inode a link (and the directory one for a subdirectory); or the pool is empty,
    the result is ENOSPC and the directory is as before. *)
Theorem add_dentry_spec s F N X dzii zii d c t m str :
  fs_inv s F N X -> d ∉ F -> c <> d -> zii_of s dzii d -> zii_of s zii c -> h_tii s !! zii = Some t ->
  0 < ino t < 2 ^ 64 -> is_Some (h_inode s !! c) -> dir_is s X d m -> name_ok str -> m !! str = None ->
  wp (toyfs_add_dentry dzii zii str) s (fun r s' => exists X' ps,
    fs_inv s' F N X' /\ X ⊆ X' /\ ns_step s s' F X {[d; c]} ps /\
    if decide (r = 0) then
      dir_is s' X' d (<[str := ino t]> m) /\ fsize s' d = u64 (fsize s d + PAGE_SIZE) /\
      inlink s' c = u32 (inlink s c + 1)
    else r = - ENOSPC /\ dir_is s' X' d m /\ h_inode s' = h_inode s /\ free_le s' 0).
Proof. apply wp_add_dentry. Qed.

Lemma wp_remove_dentry s F N X dzii zii d c j m str :
  fs_inv s F N X -> d ∉ F -> c <> d -> zii_of s dzii d -> zii_of s zii c ->
  h_inode s !! c = Some j -> dir_is s X d m -> str <> [] ->
  wp (toyfs_remove_dentry dzii zii str) s (fun r s' => exists ps,
    fs_inv s' F N X /\ ns_step s s' F X {[d; c]} ps /\
    match m !! str with
    | None => r = - ENOENT /\ s' = s
    | Some _ =>
      if zi_isdir j && negb (i_size j =? 0) then r = - ENOTEMPTY /\ s' = s
      else r = 0 /\ dir_is s' X d (delete str m) /\ fsize s' d = u64 (fsize s d - PAGE_SIZE) /\
           inlink s' c = (let n := if zi_isdir j then u32 (u32 (i_nlink j - 1) - 1) else u32 (i_nlink j - 1) in
                          if zi_isdir j && (n =? 1) then 0 else n)
    end).
Proof.
  intros Hfs Hd Hcd Hdz Hcz Hj (ps&ls&Hok&<-) Hs.
  pose proof Hok as ((i&Hi&_)&_). rewrite /toyfs_remove_dentry.
  wp_step. eapply wp_zii; [exact Hdz|]. wp_step. eapply wp_zii; [exact Hcz|].
  apply zii_tii in Hdz, Hcz. wp_step.
  eapply (wp_toyfs_lookup_dirent s X dzii d ps ls); [done..| |]; cycle 1.
  { intros ->. wp_step. exists ps. split; [done|]; split; [apply ns_step_refl|done]. }
  intros p k e Hin Hent He ->. wp_step. eapply wp_zi; [exact Hcz|]. wp_step. eapply wp_get_inode; [exact Hj|].
  wp_step. eapply wp_ti; [exact Hcz|]. wp_step. eapply wp_get_inode; [exact Hj|].
  destruct (zi_isdir j && negb (i_size j =? 0)) eqn:Hne.
  { wp_step. exists ps. split; [done|]; split; [apply ns_step_refl|done]. }
  wp_step. eapply (wp_toyfs_remove_dirent s F N X dzii zii d c i j ps ls p k e); [done..|].
  intros s1 ls1 i1 Hfs1 Hs1 Hok1 Hmap1 Hi1 Esz Enl Hj1.
  assert (Hns : ns_step s s1 F X {[d; c]} ps) by (eapply ns_of_d; try done; set_solver +).
  wp_step. eapply wp_get_inode; [exact Hj1|]. wp_step. eapply wp_get_inode; [exact Hj1|]. fs_simpl.
  set (n := le32_add (-1) _). assert (Hn : n = if zi_isdir j then u32 (u32 (i_nlink j - 1) - 1) else u32 (i_nlink j - 1)).
  { rewrite /n /le32_add. by destruct (zi_isdir j). }
  wp_step. destruct (zi_isdir j && (n =? 1) && (i_size j =? 0)) eqn:Hlast.
  - eapply (wp_set_attr s1 F N X {[d; c]} ps c); [done|exact Hj1|set_solver +|done..|].
    intros s2 Es2 Hfs2 Hns2. wp_step. exists ps. split; [done|]. split; [by eapply ns_step_trans|].
    split_and!; [done| | |].
    + exists ps, ls1. rewrite Hmap1 He. split; [|done].
      eapply (dir_ok_inode s1); [exact Hok1|exact Hi1|rewrite Es2; fs_simpl; by rewrite lookup_insert_ne|done..|by rewrite Es2|done].
    + rewrite Es2 /fsize; fs_simpl. by rewrite lookup_insert_ne // Hi1 Hi /= Esz.
    + rewrite Es2 /inlink; fs_simpl. rewrite lookup_insert_eq /= -Hn.
      apply andb_prop in Hlast as [-> _]. done.
  - wp_step. exists ps. split; [done|]. split; [done|]. split_and!; [done| | |].
    + exists ps, ls1. by rewrite Hmap1 He.
    + by rewrite /fsize Hi1 Hi /= Esz.
    + rewrite /inlink Hj1 /= -Hn -/n. destruct (zi_isdir j); cbn [andb negb] in *; [|done].
      destruct (n =? 1); [|done]. by destruct (i_size j =? 0).
Qed.
(** Removing a name: a name that is not there and a directory that is not empty are
    refused with nothing changed; otherwise exactly the entry goes, the directory
    shrinks by a page, the inode loses a link, and a directory its last two. *)
Theorem remove_dentry_spec s F N X dzii zii d c j m str :
  fs_inv s F N X -> d ∉ F -> c <> d -> zii_of s dzii d -> zii_of s zii c ->
  h_inode s !! c = Some j -> dir_is s X d m -> str <> [] ->
  wp (toyfs_remove_dentry dzii zii str) s (fun r s' => exists ps,
    fs_inv s' F N X /\ ns_step s s' F X {[d; c]} ps /\
    match m !! str with
    | None => r = - ENOENT /\ s' = s
    | Some _ =>
      if zi_isdir j && negb (i_size j =? 0) then r = - ENOTEMPTY /\ s' = s
      else r = 0 /\ dir_is s' X d (delete str m) /\ fsize s' d = u64 (fsize s d - PAGE_SIZE) /\
           inlink s' c = (let n := if zi_isdir j then u32 (u32 (i_nlink j - 1) - 1) else u32 (i_nlink j - 1) in
                          if zi_isdir j && (n =? 1) then 0 else n)
    end).
Proof. apply wp_remove_dentry. Qed.

(** ** Rename *)
Lemma dir_ok_keep s s' X X' d ps ls F d' c ps' :
  dir_ok s X d ps ls -> d_step s s' F X ps' d' c -> d <> d' -> d <> c -> (forall p, p ∈ ps -> p ∉ ps') -> X ⊆ X' ->
  dir_ok s' X' d ps ls /\ h_inode s' !! d = h_inode s !! d /\ (forall p k e, p ∈ ps -> entry_at s p k e -> entry_at s' p k e).
Proof.
  intros Hok (R&Hn&_&_&Hp) Hd Hc Hps HXX. pose proof Hok as ((i&Hi&_)&_&HX&_).
  assert (Hi' : h_inode s' !! d = h_inode s !! d) by (by apply Hn).
  assert (Hpg : forall p, p ∈ ps -> h_page s' !! p = h_page s !! p) by (intros p Hin; apply Hp; auto).
  split_and!; [|done|].
  - eapply (dir_ok_inode s); [exact Hok|exact Hi|by rewrite Hi' Hi|done..].
  - intros p k e Hin (dat&a&b&Hd'&Hr&Hk). exists dat, a, b. by rewrite Hpg.
Qed.

(** The two directories of a rename: one, or two with no page in common. *)
Definition apart (d1 : Z) (ps1 : list Z) (d2 : Z) (ps2 : list Z) : Prop := d1 = d2 \/ forall p, p ∈ ps1 -> p ∉ ps2.

(** Setting the times at the end. *)
Lemma wp_rename_times s F N X T ps d1t d2t ct d1 d2 c time (Q : Z -> toyfs_sb_info -> Prop) :
  fs_inv s F N X -> d1 ∈ T -> d2 ∈ T -> c ∈ T -> is_Some (h_inode s !! d1) -> is_Some (h_inode s !! d2) ->
  is_Some (h_inode s !! c) -> tii_of s d1t d1 -> tii_of s d2t d2 -> tii_of s ct c ->
  (forall s', fs_inv s' F N X -> ns_step s s' F X T ps -> h_page s' = h_page s ->
     (forall tj, (fun i => (list_head i, i_blocks i, i_mode i, i_nlink i, i_size i)) <$> h_inode s' !! tj =
                 (fun i => (list_head i, i_blocks i, i_mode i, i_nlink i, i_size i)) <$> h_inode s !! tj) -> Q 0 s') ->
  wp (old_dir ← tii_ti d1t; new_dir ← tii_ti d2t; set_times old_dir time;; set_times new_dir time;;
      set_inode c (upd_i_ctime (fun _ => time));; mret 0) s Q.
Proof.
  intros Hfs H1 H2 Hc S1 S2 Sc Hd1 Hd2 Hct HQ. set (view := fun i => (list_head i, i_blocks i, i_mode i, i_nlink i, i_size i)) in *.
  assert (Hset : forall s1 t (f : toyfs_inode -> toyfs_inode) (Q1 : unit -> toyfs_sb_info -> Prop),
    fs_inv s1 F N X -> t ∈ T -> is_Some (h_inode s1 !! t) -> (forall i, view (f i) = view i) ->
    (forall s2, fs_inv s2 F N X -> ns_step s1 s2 F X T ps -> h_page s2 = h_page s1 ->
       (forall tj, view <$> h_inode s2 !! tj = view <$> h_inode s1 !! tj) -> Q1 tt s2) -> wp (set_inode t f) s1 Q1).
  { intros s1 t f Q1 Hfs1 Ht (i&Hi) Hv HQ1. specialize (Hv i). injection Hv as V1 V2 V3 V4 V5.
    eapply (wp_set_attr s1 F N X T ps t); [done..|]. intros s2 Es2 Hfs2 Hs2. apply HQ1; [done..|by rewrite Es2|].
    intros tj. rewrite Es2; fs_simpl. rewrite lookup_insert. case_decide as E; [|done]. subst tj.
    rewrite Hi /= /view. by rewrite V1 V2 V3 V4 V5. }
  assert (HS : forall s1 s2 t, (forall tj, view <$> h_inode s2 !! tj = view <$> h_inode s1 !! tj) ->
    is_Some (h_inode s1 !! t) -> is_Some (h_inode s2 !! t)).
  { intros s1 s2 t Hv [i Hi]. specialize (Hv t). rewrite Hi in Hv. destruct (h_inode s2 !! t); [by eexists|done]. }
  rewrite /set_times. wp_step. eapply wp_ti; [exact Hd1|]. wp_step. eapply wp_ti; [exact Hd2|].
  wp_step. wp_step. apply Hset; [done|done|done|done|]. intros s1 Hfs1 Hs1 P1 V1.
  apply Hset; [done|done|by apply (HS s)|done|]. intros s2 Hfs2 Hs2 P2 V2. do 2 wp_step.
  apply Hset; [done|done|by apply (HS s1), (HS s)|done|]. intros s3 Hfs3 Hs3 P3 V3.
  apply Hset; [done|done|by apply (HS s2), (HS s1), (HS s)|done|]. intros s4 Hfs4 Hs4 P4 V4. wp_step.
  apply Hset; [done|done|by apply (HS s3), (HS s2), (HS s1), (HS s)|done|]. intros s5 Hfs5 Hs5 P5 V5. wp_step.
  apply HQ; [done| |congruence|intros tj; by rewrite V5 V4 V3 V2 V1].
  do 4 (eapply ns_step_trans; [eassumption|]). done.
Qed.

(** The second half of a rename: the old entry goes, and the times are set. *)
Definition rename_tail (d1t d2t ct : Z) (de : Z * nat) (time : Z) : FS Z :=
  toyfs_remove_dirent d1t ct de;;
  old_ti ← tii_ti ct;
  mode ← get_inode old_ti i_mode;
  (if S_ISTYPE S_IFDIR mode then set_inode old_ti (upd_i_nlink (fun n => u32 (n + 1))) else mret tt);;
  old_dir ← tii_ti d1t;
  new_dir ← tii_ti d2t;
  set_times old_dir time;;
  set_times new_dir time;;
  set_inode old_ti (upd_i_ctime (fun _ => time));;
  mret 0.

Lemma u32_pred x : u32 (u32 x - 1) = u32 (x - 1).
Proof. rewrite /u32 Zminus_mod_idemp_l //. Qed.
Lemma u32_succ x : u32 (u32 x + 1) = u32 (x + 1).
Proof. rewrite /u32 Zplus_mod_idemp_l //. Qed.

Lemma dir_ok_view s s' X d ps ls :
  dir_ok s X d ps ls -> h_page s' = h_page s ->
  ((fun i => (list_head i, i_blocks i, i_mode i, i_nlink i, i_size i)) <$> h_inode s' !! d =
   (fun i => (list_head i, i_blocks i, i_mode i, i_nlink i, i_size i)) <$> h_inode s !! d) -> dir_ok s' X d ps ls.
Proof.
  intros Hok Hpg Hv. pose proof Hok as ((i&Hi&_)&_). rewrite Hi in Hv.
  destruct (h_inode s' !! d) as [i'|] eqn:Hi'; [|done]. apply (inj Some) in Hv. injection Hv as V1 V2 V3 V4 V5.
  eapply (dir_ok_inode s); [exact Hok|exact Hi|exact Hi'|done..|by rewrite Hpg|done].
Qed.

Lemma wp_rename_tail s F N X d1t d2t ct d1 d2 c j ps ls p k e time (Q : Z -> toyfs_sb_info -> Prop) :
  fs_inv s F N X -> d1 ∉ F -> c <> d1 -> c <> d2 -> dir_ok s X d1 ps ls -> tii_of s d1t d1 -> tii_of s d2t d2 ->
  tii_of s ct c -> h_inode s !! c = Some j -> is_Some (h_inode s !! d2) -> p ∈ ps -> entry_at s p k e ->
  (forall s' ls', fs_inv s' F N X -> ns_step s s' F X {[d1; d2; c]} ps -> dir_ok s' X d1 ps ls' ->
     dir_map (concat ls') = delete (e_name e) (dir_map (concat ls)) ->
     inlink s' c = u32 (i_nlink j - 1) ->
     (forall ps2 ls2, d2 <> d1 -> dir_ok s X d2 ps2 ls2 -> (forall q, q ∈ ps2 -> q ∉ ps) -> dir_ok s' X d2 ps2 ls2) ->
     Q 0 s') ->
  wp (rename_tail d1t d2t ct (p, k) time) s Q.
Proof.
  intros Hfs Hd Hcd Hcd2 Hok H1 H2 Hc Hj Hi2 Hin Hent HQ. pose proof Hok as ((i&Hi&_)&_).
  rewrite /rename_tail. wp_step. eapply (wp_toyfs_remove_dirent s F N X d1t ct d1 c i j ps ls p k e); [done..|].
  intros s1 ls1 i1 Hfs1 Hs1 Hok1 Hmap1 Hi1 Esz Enl Hj1.
  assert (Hns : ns_step s s1 F X {[d1; d2; c]} ps) by (eapply ns_of_d; try done; set_solver +).
  pose proof Hs1 as (HR&_). assert (Hti : forall y z, tii_of s y z -> tii_of s1 y z).
  { intros y z (ty&?&?). exists ty. by rewrite (rest_tii _ _ HR). }
  wp_step. eapply wp_ti; [by apply Hti|]. wp_step. eapply wp_get_inode; [exact Hj1|]. fs_simpl. wp_step.
  assert (Htail : forall s2, fs_inv s2 F N X -> ns_step s1 s2 F X {[d1; d2; c]} ps -> h_page s2 = h_page s1 ->
    rest s2 = rest s1 -> (forall tj, tj <> c -> h_inode s2 !! tj = h_inode s1 !! tj) ->
    inlink s2 c = u32 (i_nlink j - 1) -> is_Some (h_inode s2 !! c) ->
    wp (old_dir ← tii_ti d1t; new_dir ← tii_ti d2t; set_times old_dir time;; set_times new_dir time;;
        set_inode c (upd_i_ctime (fun _ => time));; mret 0) s2 Q).
  { intros s2 Hfs2 Hs2 Hpg2 HR2 Hin2 Hnl2 Hc2. assert (Hti2 : forall y z, tii_of s y z -> tii_of s2 y z).
    { intros y z (ty&?&?). exists ty. by rewrite (rest_tii _ _ HR2) (rest_tii _ _ HR). }
    assert (Hi22 : is_Some (h_inode s2 !! d2)).
    { rewrite Hin2 //. destruct (decide (d2 = d1)) as [->|Hne]; [by rewrite Hi1|]. destruct Hs1 as (_&Hn1&_). by rewrite Hn1. }
    eapply (wp_rename_times s2 F N X {[d1; d2; c]} ps d1t d2t ct d1 d2 c); try done; try (by apply Hti2); try set_solver +.
    { by rewrite Hin2 // Hi1. }
    intros s3 Hfs3 Hs3 Hpg3 Hv3. apply (HQ s3 ls1); try done.
    - do 2 (eapply ns_step_trans; [eassumption|]). done.
    - apply (dir_ok_view s2); [|done|apply Hv3]. apply (dir_ok_view s1); [done|done|by rewrite Hin2].
    - specialize (Hv3 c). rewrite /inlink in Hnl2 |- *.
      destruct (h_inode s3 !! c) as [i3|], (h_inode s2 !! c) as [i2|]; try done.
      apply (inj Some) in Hv3. injection Hv3 as _ _ _ E _. simpl. by rewrite E.
    - intros ps2 ls2 Hne Hok2 Hdis. destruct (dir_ok_keep s s1 X X d2 ps2 ls2 F d1 c ps) as (Hok2'&_); [done..|].
      apply (dir_ok_view s2); [|done|apply Hv3]. apply (dir_ok_view s1); [done|done|by rewrite Hin2]. }
  change (S_ISTYPE S_IFDIR (i_mode j)) with (zi_isdir j). destruct (zi_isdir j) eqn:Hdir.
  - eapply (wp_set_attr s1 F N X {[d1; d2; c]} ps c); [done|exact Hj1|set_solver +|done..|].
    intros s2 Es2 Hfs2 Hs2. apply Htail; [done|done|by rewrite Es2|by rewrite Es2| | |].
    + intros tj Hne. rewrite Es2; fs_simpl. by rewrite lookup_insert_ne.
    + rewrite Es2 /inlink; fs_simpl. rewrite lookup_insert_eq /= /le32_add u32_succ.
      change (i_nlink j + -1) with (i_nlink j - 1).
      replace (u32 (i_nlink j - 1) + -1 + 1) with (u32 (i_nlink j - 1)) by lia.
      by rewrite /u32 Zmod_mod.
    + rewrite Es2; fs_simpl. by rewrite lookup_insert_eq.
  - wp_step. apply Htail; [done|apply ns_step_refl|done|done|done| |by rewrite Hj1].
    by rewrite /inlink Hj1 /= /le32_add.
Qed.

Lemma nlink_back n : 0 <= n < 2 ^ 32 -> u32 (u32 (n + 1) - 1) = n.
Proof. intros Hn. rewrite u32_pred. replace (n + 1 - 1) with n by lia. by apply u32_small. Qed.

(** [_do_rename] as its two halves. *)
Lemma do_rename_eq d1t d2t ct nt old_name new_name time s :
  ct <> 0 ->
  _do_rename d1t d2t ct nt old_name new_name time 0 s =
  (old_de ← toyfs_lookup_dirent d1t old_name;
   match old_de with
   | None => mret (- ENOENT)
   | Some old_de =>
     new_de ← toyfs_lookup_dirent d2t new_name;
     err ← match new_de with
           | Some _ => mret 0
           | None => r ← toyfs_add_dirent d2t ct new_name; mret r.1
           end;
     if negb (err =? 0) then mret err else rename_tail d1t d2t ct old_de time
   end) s.
Proof. intros Hc. by rewrite /_do_rename (proj2 (Z.eqb_neq ct 0)). Qed.

(** The inode with the new name, as the kernel passes it: none, or one in core. *)
Definition target_ok s nz : Prop := nz = 0 \/ exists p, zii_of s nz p.
Lemma wp_rename_zii s d1z d2z cz nz old_name new_name time d1 d2 c (Q : Z -> toyfs_sb_info -> Prop) :
  zii_of s d1z d1 -> zii_of s d2z d2 -> zii_of s cz c -> cz <> 0 -> target_ok s nz ->
  wp (_do_rename d1z d2z cz nz old_name new_name time 0) s Q ->
  wp (toyfs_rename d1z d2z cz nz old_name new_name time 0) s Q.
Proof.
  intros H1 H2 Hc Hz Hn HQ. rewrite /toyfs_rename. wp_step. eapply wp_zii; [exact H1|].
  wp_step. eapply wp_zii; [exact H2|]. wp_step. eapply wp_zii; [exact Hc|]. wp_step.
  destruct Hn as [->|[p Hp]]; [change (toyfs_zii_to_tii 0) with (mret 0 : FS Z); wp_step|eapply wp_zii; [exact Hp|]]; by rewrite (proj2 (Z.eqb_neq cz 0)).
Qed.

Lemma wp_rename_free s F N X dzii zii nz d c j t m old_name new_name time :
  fs_inv s F N X -> d ∉ F -> c <> d -> zii_of s dzii d -> zii_of s zii c -> zii <> 0 -> target_ok s nz ->
  h_tii s !! zii = Some t -> 0 < ino t < 2 ^ 64 -> h_inode s !! c = Some j -> 0 <= i_nlink j < 2 ^ 32 ->
  dir_is s X d m -> old_name <> [] -> name_ok new_name -> m !! new_name = None ->
  wp (toyfs_rename dzii dzii zii nz old_name new_name time 0) s (fun r s' => exists X' ps,
    fs_inv s' F N X' /\ X ⊆ X' /\ ns_step s s' F X {[d; c]} ps /\
    match m !! old_name with
    | None => r = - ENOENT /\ s' = s
    | Some _ =>
      (r = 0 /\ dir_is s' X' d (<[new_name := ino t]> (delete old_name m)) /\ inlink s' c = inlink s c) \/
      (r = - ENOSPC /\ dir_is s' X' d m /\ h_inode s' = h_inode s /\ free_le s' 0)
    end).
Proof.
  intros Hfs Hd Hcd Hdz Hcz Hz0 Hnz Ht Hino Hj Hnl (ps&ls&Hok&<-) Hold Hname Hnew.
  pose proof Hok as ((i&Hi&_)&_). eapply wp_rename_zii; [done..|]. apply zii_tii in Hdz, Hcz.
  eapply wp_eq; [by apply do_rename_eq|]. wp_step.
  eapply (wp_toyfs_lookup_dirent s X dzii d ps ls); [done..| |]; cycle 1.
  { intros ->. wp_step. exists X, ps. split; [done|]. split; [done|]. split; [apply ns_step_refl|done]. }
  intros p k e Hin Hent He Hm. rewrite Hm. wp_step.
  eapply (wp_toyfs_lookup_dirent s X dzii d ps ls); [done..|by apply name_ok_nonempty| |].
  { intros p' k' e' _ _ _ Hx. by rewrite Hnew in Hx. }
  intros _. do 2 wp_step.
  eapply (wp_toyfs_add_dirent s F N X dzii zii d c t i j ps ls new_name); try done; [by apply dir_map_None| |].
  - intros s' Hfs' Hs' Hino' Hok' Hfree. wp_step. cbn [fst].
    change (negb (- ENOSPC =? 0)) with true. cbv iota. wp_step. exists X, ps. split; [done|]. split; [done|].
    split; [eapply ns_of_d; try done; set_solver +|]. right. split_and!; try done. by exists ps, ls.
  - intros s1 ps1 ls1 X1 de i1 Hfs1 HXX Hs1 Hok1 Hmap1 Hps1 Hi1 Esz Enl Hj1 Hkeep Hsub. wp_step. cbn [fst negb Z.eqb]. cbv iota.
    pose proof (Hkeep p k e Hent Hin) as Hent1. pose proof (Hsub p Hin) as Hin1. pose proof Hs1 as (HR&_).
    assert (Hti : forall y z, tii_of s y z -> tii_of s1 y z).
    { intros y z (ty&?&?). exists ty. by rewrite (rest_tii _ _ HR). }
    eapply (wp_rename_tail s1 F N X1 dzii dzii zii d d c _ ps1 ls1 p k e time);
      [done..|by apply Hti|by apply Hti|by apply Hti|exact Hj1|by rewrite Hi1|done|done|].
    intros s2 ls2 Hfs2 Hs2 Hok2 Hmap2 Hnl2 _. exists X1, ps1. split; [done|]. split; [done|]. split.
    { eapply ns_step_trans; [eapply ns_of_d; [exact Hs1|done|done|set_solver +..|]|].
      - exact Hsub.
      - destruct Hs2 as (?&Hi2&?&Hp2). split_and!; try done; [intros tj Hj'; apply Hi2; set_solver + Hj'|].
        intros q Hq. apply Hp2. by apply HXX. }
    left. split; [done|]. split.
    + exists ps1, ls2. split; [done|]. rewrite Hmap2 Hmap1 He delete_insert_ne //. intros ->. by rewrite Hnew in Hm.
    + rewrite Hnl2 /= nlink_back // /inlink Hj //.
Qed.
(** Renaming within a directory, to a name that is free: the directory loses the old
    name and gains the new one for the same inode, whose link count is as before; a
    name that does not exist is refused, and so is a rename for which there is no
    room, with the directory as it was. *)
Theorem rename_spec s F N X dzii zii nz d c j t m old_name new_name time :
  fs_inv s F N X -> d ∉ F -> c <> d -> zii_of s dzii d -> zii_of s zii c -> zii <> 0 -> target_ok s nz ->
  h_tii s !! zii = Some t -> 0 < ino t < 2 ^ 64 -> h_inode s !! c = Some j -> 0 <= i_nlink j < 2 ^ 32 ->
  dir_is s X d m -> old_name <> [] -> name_ok new_name -> m !! new_name = None ->
  wp (toyfs_rename dzii dzii zii nz old_name new_name time 0) s (fun r s' => exists X' ps,
    fs_inv s' F N X' /\ X ⊆ X' /\ ns_step s s' F X {[d; c]} ps /\
    match m !! old_name with
    | None => r = - ENOENT /\ s' = s
    | Some _ =>
      (r = 0 /\ dir_is s' X' d (<[new_name := ino t]> (delete old_name m)) /\ inlink s' c = inlink s c) \/
      (r = - ENOSPC /\ dir_is s' X' d m /\ h_inode s' = h_inode s /\ free_le s' 0)
    end).
Proof. apply wp_rename_free. Qed.

(** Renaming into another directory: the old name goes from the one, the new name
    appears in the other, for the same inode. *)
Theorem rename_across_spec s F N X d1z d2z zii nz d1 d2 c j t ps1 ls1 ps2 ls2 old_name new_name time :
  fs_inv s F N X -> d1 ∉ F -> d2 ∉ F -> c <> d1 -> c <> d2 -> d1 <> d2 ->
  zii_of s d1z d1 -> zii_of s d2z d2 -> zii_of s zii c -> zii <> 0 -> target_ok s nz ->
  h_tii s !! zii = Some t -> 0 < ino t < 2 ^ 64 -> h_inode s !! c = Some j -> 0 <= i_nlink j < 2 ^ 32 ->
  dir_ok s X d1 ps1 ls1 -> dir_ok s X d2 ps2 ls2 -> (forall p, p ∈ ps1 -> p ∉ ps2) ->
  old_name <> [] -> is_Some (dir_map (concat ls1) !! old_name) ->
  name_ok new_name -> dir_map (concat ls2) !! new_name = None ->
  wp (toyfs_rename d1z d2z zii nz old_name new_name time 0) s (fun r s' => exists X',
    fs_inv s' F N X' /\ X ⊆ X' /\
    ((r = 0 /\ dir_is s' X' d1 (delete old_name (dir_map (concat ls1))) /\
      dir_is s' X' d2 (<[new_name := ino t]> (dir_map (concat ls2))) /\ inlink s' c = inlink s c) \/
     (r = - ENOSPC /\ dir_is s' X' d1 (dir_map (concat ls1)) /\ dir_is s' X' d2 (dir_map (concat ls2)) /\
      h_inode s' = h_inode s /\ free_le s' 0))).
Proof.
  intros Hfs Hd1 Hd2 Hc1 Hc2 Hne Hz1 Hz2 Hcz Hz0 Hnz Ht Hino Hj Hnl Hok1 Hok2 Hdis Hold [x Hx] Hname Hnew.
  pose proof Hok2 as ((i&Hi&_)&_&HX2&_). pose proof Hok1 as (_&_&HX1&_).
  eapply wp_rename_zii; [done..|]. apply zii_tii in Hz1, Hz2, Hcz.
  eapply wp_eq; [by apply do_rename_eq|]. wp_step.
  eapply (wp_toyfs_lookup_dirent s X d1z d1 ps1 ls1); [done..| |]; [|by rewrite Hx].
  intros p k e Hin Hent He _. wp_step.
  eapply (wp_toyfs_lookup_dirent s X d2z d2 ps2 ls2); [done..|by apply name_ok_nonempty| |].
  { intros p' k' e' _ _ _ Hy. by rewrite Hnew in Hy. }
  intros _. do 2 wp_step.
  eapply (wp_toyfs_add_dirent s F N X d2z zii d2 c t i j ps2 ls2 new_name); try done; [by apply dir_map_None| |].
  - intros s' Hfs' Hs' Hino' Hok' Hfree. wp_step. cbn [fst].
    change (negb (- ENOSPC =? 0)) with true. cbv iota. wp_step. exists X. split; [done|]. split; [done|]. right.
    destruct (dir_ok_keep s s' X X d1 ps1 ls1 F d2 c ps2) as (Hok1'&_); [done..|].
    split_and!; try done; [by exists ps1, ls1|by exists ps2, ls2].
  - intros s1 ps' ls' X1 de i1 Hfs1 HXX Hs1 Hok2' Hmap2 Hps Hi1 _ _ Hj1 _ Hsub. wp_step. cbn [fst negb Z.eqb]. cbv iota.
    destruct (dir_ok_keep s s1 X X1 d1 ps1 ls1 F d2 c ps2) as (Hok1'&Hid1&Hkeep); [done..|].
    pose proof Hs1 as (HR&_). assert (Hti : forall y z, tii_of s y z -> tii_of s1 y z).
    { intros y z (ty&?&?). exists ty. by rewrite (rest_tii _ _ HR). }
    eapply (wp_rename_tail s1 F N X1 d1z d2z zii d1 d2 c _ ps1 ls1 p k e time);
      [done..|by apply Hti|by apply Hti|by apply Hti|exact Hj1|by rewrite Hi1|done|by apply Hkeep|].
    intros s2 ls1' Hfs2 Hs2 Hok1'' Hmap1 Hnl2 Hother. exists X1. split; [done|]. split; [done|]. left.
    split_and!; [done| | |].
    + exists ps1, ls1'. split; [done|]. by rewrite Hmap1 He.
    + exists ps', ls'. split; [|done]. apply Hother; [done|done|]. intros q Hq Hq1.
      destruct (Hps q Hq) as [Hq2|Hq2]; [by apply (Hdis q)|]. by apply Hq2, HX1.
    + rewrite Hnl2 /= nlink_back // /inlink Hj //.
Qed.

(** Renaming over a name that exists: the old entry is removed, but the entry of the
    new name is left as it was, for the inode it had; the inode renamed keeps no
    entry for its new name and loses a link. *)
Theorem rename_over_existing s F N X dzii zii nz d c j m old_name new_name time x y :
  fs_inv s F N X -> d ∉ F -> c <> d -> zii_of s dzii d -> zii_of s zii c -> zii <> 0 -> target_ok s nz ->
  h_inode s !! c = Some j -> dir_is s X d m -> old_name <> [] -> new_name <> [] -> old_name <> new_name ->
  m !! old_name = Some x -> m !! new_name = Some y ->
  wp (toyfs_rename dzii dzii zii nz old_name new_name time 0) s (fun r s' =>
    r = 0 /\ fs_inv s' F N X /\
    exists m', dir_is s' X d m' /\ m' !! new_name = Some y /\ m' !! old_name = None /\
               inlink s' c = u32 (inlink s c - 1)).
Proof.
  intros Hfs Hd Hcd Hdz Hcz Hz0 Hnz Hj (ps&ls&Hok&<-) Hold Hnew Hne Hx Hy.
  pose proof Hok as ((i&Hi&_)&_). eapply wp_rename_zii; [done..|]. apply zii_tii in Hdz, Hcz.
  eapply wp_eq; [by apply do_rename_eq|]. wp_step.
  eapply (wp_toyfs_lookup_dirent s X dzii d ps ls); [done..| |]; [|by rewrite Hx].
  intros p k e Hin Hent He _. wp_step.
  eapply (wp_toyfs_lookup_dirent s X dzii d ps ls); [done..| |]; [|by rewrite Hy].
  intros p' k' e' _ _ _ _. do 2 wp_step. cbn [negb Z.eqb]. cbv iota.
  eapply (wp_rename_tail s F N X dzii dzii zii d d c j ps ls p k e time); try done.
  intros s2 ls2 Hfs2 _ Hok2 Hmap2 Hnl2 _. split; [done|]. split; [done|].
  exists (delete old_name (dir_map (concat ls))). split_and!.
  - exists ps, ls2. by rewrite Hmap2 He.
  - by rewrite lookup_delete_ne.
  - apply lookup_delete_eq.
  - by rewrite Hnl2 /inlink Hj.
Qed.
End claims.

(** ** Concrete instances *)
Section witnesses.
#[local] Existing Instance example_md.
#[local] Opaque ds_example ds_named ds_both.

Lemma lookup_spec_witness : exists X,
  dir_is ds_named X dir1 {[nm_a := 11]} /\ wp (toyfs_lookup 3 nm_a) ds_named (fun r s' => s' = ds_named /\ r = 11).
Proof.
  destruct ds_named_dir as (X&_&Hd). exists X. split; [exact Hd|].
  eapply wp_mono; [eapply (lookup_spec ds_named X 3 dir1 {[nm_a := 11]} nm_a);
    [eapply reg_zii, ds_named_facts|exact Hd|discriminate]|].
  intros r s' [-> ->]. split; reflexivity.
Defined.
Lemma add_dentry_spec_witness :
  wp (toyfs_add_dentry 3 1 nm_a) ds_example (fun r s' => r = 0 \/ r = - ENOSPC).
Proof.
  eapply wp_mono; [eapply (add_dentry_spec ds_example ex_files ex_inodes ∅ 3 1 dir1 file1 (reg_tii file1 11) ∅ nm_a);
    [exact ds_example_inv|exact dir1_new|discriminate|eapply reg_zii, ds_tiis|eapply reg_zii, ds_tiis|apply ds_tiis|
     split; reflexivity|eexists; apply ds_inodes|exact ds_dir1|apply nm_ok; lia|reflexivity]|].
  intros r s' (X'&ps&_&_&_&H). case_decide; [by left|right; apply H].
Defined.
Lemma remove_dentry_spec_witness :
  wp (toyfs_remove_dentry 3 1 nm_a) ds_named (fun r s' => r = 0 /\ inlink s' file1 = 1).
Proof.
  destruct ds_named_dir as (X&Hfs&Hd).
  eapply wp_mono; [eapply (remove_dentry_spec ds_named ex_files ex_inodes X 3 1 dir1 file1 _ {[nm_a := 11]} nm_a);
    [exact Hfs|exact dir1_new|discriminate|eapply reg_zii, ds_named_facts|eapply reg_zii, ds_named_facts|
     apply ds_named_facts|exact Hd|discriminate]|].
  intros r s' (ps&_&_&H). split; apply H.
Defined.
Lemma rename_spec_witness :
  wp (toyfs_rename 3 3 1 0 nm_a nm_b 7 0) ds_named (fun r s' => r = 0 \/ r = - ENOSPC).
Proof.
  destruct ds_named_dir as (X&Hfs&Hd).
  eapply wp_mono; [eapply (rename_spec ds_named ex_files ex_inodes X 3 1 0 dir1 file1 _ (reg_tii file1 11) {[nm_a := 11]} nm_a nm_b);
    [exact Hfs|exact dir1_new|discriminate|eapply reg_zii, ds_named_facts|eapply reg_zii, ds_named_facts|discriminate|by left|
     apply ds_named_facts|split; reflexivity|apply ds_named_facts|done|exact Hd|discriminate|apply nm_ok; lia|reflexivity]|].
  intros r s' (X'&ps&_&_&_&H). destruct H as [(->&_)|(->&_)]; auto.
Defined.
Lemma rename_across_spec_witness :
  wp (toyfs_rename 3 4 1 0 nm_a nm_b 7 0) ds_named (fun r s' => r = 0 \/ r = - ENOSPC).
Proof.
  destruct ds_named_ok as (X&ps&ls&Hfs&Hd&Hm).
  eapply wp_mono; [eapply (rename_across_spec ds_named ex_files ex_inodes X 3 4 1 0 dir1 dir2 file1 _ (reg_tii file1 11) ps ls [] [] nm_a nm_b);
    [exact Hfs|exact dir1_new|exact dir2_new|discriminate..|eapply reg_zii, ds_named_facts|eapply reg_zii, ds_named_facts|
     eapply reg_zii, ds_named_facts|discriminate|by left|apply ds_named_facts|split; reflexivity|apply ds_named_facts|done|exact Hd|
     eapply dir_ok_empty; [apply ds_named_facts|reflexivity..]|by intros ?? ?%elem_of_nil|discriminate|
     rewrite Hm; eexists; reflexivity|apply nm_ok; lia|reflexivity]|].
  intros r s' (X'&_&_&H). destruct H as [(->&_)|(->&_)]; auto.
Defined.
Lemma rename_over_existing_witness :
  wp (toyfs_rename 3 3 1 2 nm_a nm_b 7 0) ds_both (fun r s' => exists X m', r = 0 /\ dir_is s' X dir1 m' /\ m' !! nm_b = Some 12).
Proof.
  destruct ds_both_dir as (X&Hfs&Hd).
  eapply wp_mono; [eapply (rename_over_existing ds_both ex_files ex_inodes X 3 1 2 dir1 file1 _ (<[nm_b := 12]> {[nm_a := 11]}) nm_a nm_b 7 11 12);
    [exact Hfs|exact dir1_new|discriminate|eapply reg_zii, ds_both_facts|eapply reg_zii, ds_both_facts|discriminate|right; exists file2; apply (reg_zii _ _ _ 12); vm_compute; reflexivity|
     apply ds_both_facts|exact Hd|discriminate|discriminate|discriminate|reflexivity|reflexivity]|].
  intros r s' (Hr&_&m'&Hd'&H1&_). exists X, m'. auto.
Defined.
End witnesses.
