(* ===== verification/Session.v ===== *)
(** * toyfs as its clients see it

    Files that are sequences of bytes, names of one directory, and requests one after the
    other: what toyfs answers to any client is what this abstract store may answer.  A
    client is a tree: each answer decides the next request. *)

From S2P Require Import Prelude Bytes CList State Pool File FileInv FileSpec FileOps FileClaims DirPage Pages Dir DirSpec DirOps DirEx DirClaims.

(** ** The abstract store *)
(** A file: its size, the bytes (those behind the end too: a file that grows shows them) and
    the number of its names. *)
Record afile := AFile { af_size : Z; af_byte : Z -> Z; af_nlink : Z }.
(** Files go by inode number. *)
Record store := Store { st_file : Z -> afile; st_names : gmap (list Z) Z }.
Definition set_file (n : Z) (f : afile) (a : store) : store := Store (fun m => if decide (m = n) then f else st_file a m) (st_names a).
Definition set_names (m : gmap (list Z) Z) (a : store) : store := Store (st_file a) m.
Definition relink (n : Z) (g : Z -> Z) (a : store) : store :=
  set_file n (AFile (af_size (st_file a n)) (af_byte (st_file a n)) (g (af_nlink (st_file a n)))) a.
Definition abytes (f : afile) (pos : Z) (c : nat) : list Z := (fun k => af_byte f (pos + Z.of_nat k)) <$> seq 0 c.

(** ** Requests and answers *)
(** [z] is the handle of an open file. *)
Inductive request :=
| Write (z pos n : Z) (buf : list Z)
| Read (z pos n : Z)
| Truncate (z size : Z)
| Allocate (z pos last : Z)
| Lookup (nm : list Z)
| Link (z : Z) (nm : list Z)
| Unlink (z : Z) (nm : list Z)
| Rename (z : Z) (old new : list Z) (time : Z).
Inductive answer :=
| Answer (err : Z)
| Moved (err : Z) (bytes : list Z) (last_pos : Z)
| Found (n : Z).
Inductive client :=
| Stop
| Do (q : request) (k : answer -> client).

Section session.
Context `{MdApi}.
(** The number of the inode behind each handle; the directory is open as [dzii]. *)
Variable handles : gmap Z Z.
Variable dzii : Z.

Definition exec (q : request) : FS answer :=
  match q with
  | Write z pos n buf => r ← toyfs_write buf (ZufsIocIO z pos n 0 0); mret (Moved r.1 [] (io_last_pos r.2))
  | Read z pos n => r ← toyfs_read (ZufsIocIO z pos n 0 0); mret (Moved r.1.1 r.1.2 (io_last_pos r.2))
  | Truncate z size => e ← toyfs_fallocate z (ZufsIocIO z size 0 0 ZUFS_FL_TRUNCATE); mret (Answer e)
  | Allocate z pos last => e ← toyfs_fallocate z (ZufsIocIO z pos 0 last 0); mret (Answer e)
  | Lookup nm => n ← toyfs_lookup dzii nm; mret (Found n)
  | Link z nm => e ← toyfs_add_dentry dzii z nm; mret (Answer e)
  | Unlink z nm => e ← toyfs_remove_dentry dzii z nm; mret (Answer e)
  | Rename z old new time => e ← toyfs_rename dzii dzii z 0 old new time 0; mret (Answer e)
  end.
Fixpoint run (c : client) : FS (list (request * answer)) :=
  match c with
  | Stop => mret []
  | Do q k => r ← exec q; h ← run (k r); mret ((q, r) :: h)
  end.

(** What the kernel sees to: the handles are open, the offsets are in range, a name to be
    added is free and one to be removed is of the file it is removed from. *)
Definition names_it (a : store) (z : Z) (nm : list Z) : Prop := st_names a !! nm = None \/ st_names a !! nm = handles !! z.
Definition legal (a : store) (q : request) : Prop :=
  match q with
  | Write z pos n buf => is_Some (handles !! z) /\ 0 <= pos < 2 ^ 63 /\ 0 <= n < 2 ^ 64 /\ n <= Z.of_nat (length buf)
  | Read z pos n => is_Some (handles !! z) /\ 0 <= pos < 2 ^ 63 /\ 0 <= n < 2 ^ 64
  | Truncate z size => is_Some (handles !! z) /\ 0 <= size < 2 ^ 63
  | Allocate z pos last => is_Some (handles !! z) /\ 0 <= pos < last /\ last <= 2 ^ 50
  | Lookup nm => nm <> []
  | Link z nm => is_Some (handles !! z) /\ name_ok nm /\ st_names a !! nm = None
  | Unlink z nm => is_Some (handles !! z) /\ nm <> [] /\ names_it a z nm
  | Rename z old new time => is_Some (handles !! z) /\ old <> [] /\ name_ok new /\ names_it a z old /\ st_names a !! new = None
  end.
Definition in_range (pos n : Z) : Prop := 0 < n <= ZUS_API_MAP_MAX_SIZE /\ pos + n <= 2 ^ 50.

(** ** What the store may answer *)
Inductive astep (a : store) : request -> answer -> store -> Prop :=
| a_write z pos n buf i f : handles !! z = Some i -> st_file a i = f -> in_range pos n ->
    astep a (Write z pos n buf) (Moved 0 [] (pos + n))
      (set_file i (AFile (Z.max (pos + n) (af_size f)) (fun k => if decide (pos <= k < pos + n) then default 0 (buf !! Z.to_nat (k - pos)) else af_byte f k) (af_nlink f)) a)
| a_write_full z pos n buf i f g : handles !! z = Some i -> st_file a i = f -> in_range pos n ->
    (forall k, k < pos \/ pos + n <= k -> g k = af_byte f k) ->
    astep a (Write z pos n buf) (Moved (- ENOSPC) [] 0) (set_file i (AFile (af_size f) g (af_nlink f)) a)
| a_write_bad z pos n buf e : ~ in_range pos n -> e = - EINVAL \/ e = - EFBIG -> astep a (Write z pos n buf) (Moved e [] 0) a
| a_read z pos n i f c : handles !! z = Some i -> st_file a i = f -> in_range pos n -> c = Z.max 0 (Z.min (pos + n) (af_size f) - pos) ->
    astep a (Read z pos n) (Moved 0 (abytes f pos (Z.to_nat c)) (pos + c)) a
| a_read_bad z pos n e : ~ in_range pos n -> e = - EINVAL \/ e = - EFBIG -> astep a (Read z pos n) (Moved e [] 0) a
| a_truncate z size i f : handles !! z = Some i -> st_file a i = f ->
    astep a (Truncate z size) (Answer 0)
      (set_file i (AFile size (fun k => if decide (size < af_size f /\ size <= k) then 0 else af_byte f k) (af_nlink f)) a)
| a_truncate_full z size i f g : handles !! z = Some i -> st_file a i = f -> size < af_size f ->
    (forall k, k < size -> g k = af_byte f k) ->
    astep a (Truncate z size) (Answer (- ENOSPC)) (set_file i (AFile size g (af_nlink f)) a)
| a_allocate z pos last i f : handles !! z = Some i -> st_file a i = f ->
    astep a (Allocate z pos last) (Answer 0) (set_file i (AFile (Z.max last (af_size f)) (af_byte f) (af_nlink f)) a)
| a_allocate_full z pos last : astep a (Allocate z pos last) (Answer (- ENOSPC)) a
| a_lookup nm : astep a (Lookup nm) (Found (default 0 (st_names a !! nm))) a
| a_link z nm i : handles !! z = Some i ->
    astep a (Link z nm) (Answer 0) (relink i (fun l => u32 (l + 1)) (set_names (<[nm := i]> (st_names a)) a))
| a_link_full z nm : astep a (Link z nm) (Answer (- ENOSPC)) a
| a_unlink z nm i : handles !! z = Some i -> st_names a !! nm = Some i ->
    astep a (Unlink z nm) (Answer 0) (relink i (fun l => u32 (l - 1)) (set_names (delete nm (st_names a)) a))
| a_unlink_none z nm : st_names a !! nm = None -> astep a (Unlink z nm) (Answer (- ENOENT)) a
| a_rename z old new time i : st_names a !! old = Some i ->
    astep a (Rename z old new time) (Answer 0) (set_names (<[new := i]> (delete old (st_names a))) a)
| a_rename_full z old new time : is_Some (st_names a !! old) -> astep a (Rename z old new time) (Answer (- ENOSPC)) a
| a_rename_none z old new time : st_names a !! old = None -> astep a (Rename z old new time) (Answer (- ENOENT)) a.

Inductive asteps : store -> list (request * answer) -> store -> Prop :=
| asteps_nil a : asteps a [] a
| asteps_cons a q r b h c : astep a q r b -> asteps b h c -> asteps a ((q, r) :: h) c.
(** A client that keeps to the rules whatever the store answers. *)
Fixpoint safe (a : store) (c : client) : Prop :=
  match c with
  | Stop => True
  | Do q k => legal a q /\ forall r b, astep a q r b -> safe b (k r)
  end.
End session.

(** ** toyfs implements the store *)
Section refinement.
Context `{MdLaws}.
Implicit Types (F N X : gset Z) (a : store).
Variable handles : gmap Z Z.
Variables dzii d : Z.
(** Where the inode of a number lies. *)
Variable addr : Z -> Z.
Hypothesis handles_ok : forall z n, handles !! z = Some n -> z <> 0 /\ 0 < n < 2 ^ 64.
Hypothesis addr_inj : forall z z' n n', handles !! z = Some n -> handles !! z' = Some n' -> addr n = addr n' -> n = n'.
Hypothesis trunc_flag : 0 < ZUFS_FL_TRUNCATE < 2 ^ 63.

Definition file_is (s : toyfs_sb_info) (p : Z) (f : afile) : Prop :=
  fsize s p = af_size f /\ (forall k, bbyte (fblocks s p) k = af_byte f k) /\ inlink s p = af_nlink f /\ 0 <= af_nlink f < 2 ^ 32.
Definition implements_at (s : toyfs_sb_info) F N X a : Prop :=
  fs_inv s F N X /\ d ∉ F /\ zii_of s dzii d /\ dir_is s X d (st_names a) /\
  forall z n, handles !! z = Some n -> zii_of s z (addr n) /\ (exists t, h_tii s !! z = Some t /\ ino t = n) /\
    addr n ∈ F /\ is_reg s (addr n) /\ file_is s (addr n) (st_file a n).
Definition implements (s : toyfs_sb_info) a : Prop := exists F N X, implements_at s F N X a.

Lemma rest_handle s s' zii p : rest s' = rest s -> zii_of s zii p -> zii_of s' zii p.
Proof. intros R (t & Ht & Hz). exists t. by rewrite (rest_tii _ _ R). Qed.
Lemma fs_step_dir s s' F X p m : fs_step s s' F X p -> d <> p -> dir_is s X d m -> dir_is s' X d m.
Proof.
  intros (_ & Hn & _ & _ & Hp) Hne (ps & ls & Hok & Hm). exists ps, ls. split; [|done]. pose proof Hok as ((i & Hi & _) & _ & HX & _).
  eapply (dir_ok_inode s); [exact Hok|exact Hi|rewrite Hn //; exact Hi|done..|by intros q Hq; apply Hp, HX|done].
Qed.
Lemma file_is_same s s' p f : fsize s' p = fsize s p -> fblocks s' p = fblocks s p -> inlink s' p = inlink s p -> file_is s p f -> file_is s' p f.
Proof. rewrite /file_is. by intros -> -> ->. Qed.
Lemma fmode_reg s s' p : fmode s' p = fmode s p -> is_reg s p -> is_reg s' p.
Proof.
  rewrite /fmode. intros E (i & Hi & Hm). rewrite Hi /= in E. destruct (h_inode s' !! p) as [i'|] eqn:Ei; [|cbn in E; by rewrite -E in Hm].
  exists i'. split; [done|]. cbn in E. by rewrite E.
Qed.

(** A step on the bytes of one file. *)
Lemma implements_file s s' F N X a z n f : implements_at s F N X a -> handles !! z = Some n -> fs_inv s' F N X -> fs_step s s' F X (addr n) ->
  fsize s' (addr n) = af_size f -> (forall k, bbyte (fblocks s' (addr n)) k = af_byte f k) -> af_nlink f = af_nlink (st_file a n) ->
  implements s' (set_file n f a).
Proof.
  intros (_ & Hd & Hdz & Hdir & Hfiles) Hz Hfs' Hs Hsz Hb Hnl. exists F, N, X. pose proof Hs as (R & Hn & Hmeta & Hfb & _).
  destruct (Hfiles z n Hz) as (_ & _ & HF & _ & _ & _ & Hl & Hlr).
  assert (Hmt : (i_mode <$> h_inode s' !! addr n) = (i_mode <$> h_inode s !! addr n) /\ inlink s' (addr n) = inlink s (addr n)).
  { rewrite /inlink. destruct (h_inode s' !! addr n) as [i'|], (h_inode s !! addr n) as [i|]; try done. apply (inj Some) in Hmeta.
    split; [exact (f_equal Some (f_equal i_mode Hmeta))|exact (f_equal i_nlink Hmeta)]. }
  split_and!; [done|done|by eapply rest_handle|eapply fs_step_dir; [exact Hs|by intros E; apply Hd; rewrite E|exact Hdir]|].
  intros z' n' Hz'. destruct (Hfiles z' n' Hz') as (Hzii & (t & Ht & Hino) & HF' & Hreg & Hfile).
  split; [by eapply rest_handle|]. split; [exists t; by rewrite (rest_tii _ _ R)|]. split; [done|]. split.
  - destruct (decide (addr n' = addr n)) as [Ea|Hne]; [rewrite Ea in Hreg |- *; by eapply fs_step_reg|]. destruct Hreg as (i & Hi & Hm). exists i. by rewrite Hn.
  - cbn [st_file set_file]. case_decide as E.
    + rewrite E. destruct Hmt as [_ Hl']. rewrite /file_is Hnl Hl' Hl. split_and!; try done; lia.
    + assert (Hne : addr n' <> addr n) by (intros Ea; by apply E, (addr_inj z' z)).
      eapply file_is_same; [..|exact Hfile]; [by rewrite /fsize Hn|by apply Hfb|by rewrite /inlink Hn].
Qed.
(** A step on the names, of the file [n]. *)
Lemma implements_names s s' F N X X' a z n m g ps : implements_at s F N X a -> handles !! z = Some n -> fs_inv s' F N X' ->
  ns_step s s' F X {[d; addr n]} ps -> dir_is s' X' d m -> inlink s' (addr n) = g (inlink s (addr n)) -> 0 <= g (inlink s (addr n)) < 2 ^ 32 ->
  implements s' (relink n g (set_names m a)).
Proof.
  intros (_ & Hd & Hdz & _ & Hfiles) Hz Hfs' (R & Hn & Hb & _) Hdir Hl Hr. exists F, N, X'.
  destruct (Hfiles z n Hz) as (_ & _ & HF & _ & _ & _ & Hl0 & _).
  split_and!; [done|done|by eapply rest_handle|done|].
  intros z' n' Hz'. destruct (Hfiles z' n' Hz') as (Hzii & (t & Ht & Hino) & HF' & Hreg & Hfile). destruct (Hb _ HF') as (B1 & B2 & B3).
  split_and!; [by eapply rest_handle|exists t; by rewrite (rest_tii _ _ R)|done|by eapply fmode_reg|].
  cbn [st_file set_file relink set_names]. case_decide as E.
  - rewrite E in Hfile B1 B2 |- *. destruct Hfile as (F1 & F2 & F3 & F4). rewrite /file_is B1 B2 Hl -F3. cbn [af_size af_byte af_nlink]. split_and!; [exact F1|exact F2|done|lia|lia].
  - eapply file_is_same; [done|done| |exact Hfile]. rewrite /inlink Hn //. intros [Ed|Ea]%elem_of_union.
    + apply elem_of_singleton in Ed. by rewrite Ed in HF'.
    + apply elem_of_singleton in Ea. by apply E, (addr_inj z' z).
Qed.
Lemma implements_same s s' F N X X' a ps c : implements_at s F N X a -> fs_inv s' F N X' -> ns_step s s' F X {[d; c]} ps ->
  dir_is s' X' d (st_names a) -> h_inode s' = h_inode s -> implements s' a.
Proof.
  intros (_ & Hd & Hdz & _ & Hfiles) Hfs' (R & Hn & Hb & _) Hdir E. exists F, N, X'. split_and!; [done|done|by eapply rest_handle|done|].
  intros z n Hz. destruct (Hfiles z n Hz) as (Hzii & (t & Ht & Hino) & HF & Hreg & Hfile). destruct (Hb _ HF) as (B1 & B2 & B3).
  split_and!; [by eapply rest_handle|exists t; by rewrite (rest_tii _ _ R)|done|by eapply fmode_reg|].
  eapply file_is_same; [done|done| |exact Hfile]. by rewrite /inlink E.
Qed.

(** ** Each request *)
Implicit Types (q : request).
Definition refines (s : toyfs_sb_info) a q : Prop :=
  wp (exec dzii q) s (fun r s' => exists b, astep handles a q r b /\ implements s' b).

Lemma refine_write s F N X a z pos n buf : implements_at s F N X a -> legal handles a (Write z pos n buf) -> refines s a (Write z pos n buf).
Proof.
  intros HI ((i & Hi) & Hpos & Hn & Hbuf). pose proof HI as (Hfs & _ & _ & _ & Hfiles). destruct (Hfiles z i Hi) as (Hz & _ & HF & _ & F1 & F2 & _).
  rewrite /refines /exec. wp_step. eapply wp_mono; [by eapply (wp_toyfs_write s F N X z (addr i))|].
  intros r s' (Hfs' & Hs & Hcase). wp_step. case_decide as Hr; [destruct Hcase as [(-> & Hsz & Hb)|(-> & Hsz & Hout & _)]|destruct Hcase as (-> & He & Er)].
  - eexists. split; [by eapply a_write|]. eapply implements_file; [exact HI|exact Hi|done|done|by rewrite Hsz F1| |done].
    intros k. cbn [af_byte]. by rewrite Hb F2.
  - eexists. split; [eapply (a_write_full _ _ _ _ _ _ i _ (bbyte (fblocks s' (addr i)))); [done|done|done|]|].
    + intros k Hk. by rewrite Hout // F2.
    + eapply implements_file; [exact HI|exact Hi|done|done|by rewrite Hsz F1|done|done].
  - exists a. split; [rewrite Er; by eapply a_write_bad|]. by exists F, N, X.
Qed.
Lemma refine_read s F N X a z pos n : implements_at s F N X a -> legal handles a (Read z pos n) -> refines s a (Read z pos n).
Proof.
  intros HI ((i & Hi) & Hpos & Hn). pose proof HI as (Hfs & _ & _ & _ & Hfiles). destruct (Hfiles z i Hi) as (Hz & _ & HF & _ & F1 & F2 & _).
  rewrite /refines /exec. wp_step. eapply wp_mono; [by eapply (wp_toyfs_read s F N X z (addr i))|].
  intros r s' (-> & Hcase). wp_step. exists a. split; [|by exists F, N, X]. case_decide as Hr; [|destruct Hcase as (He & -> & ->); by apply a_read_bad].
  cbv zeta in Hcase. rewrite Hcase. cbn [fst snd io_last_pos]. set (c := Z.max 0 _).
  replace (bbytes (fblocks s (addr i)) pos (Z.to_nat c)) with (abytes (st_file a i) pos (Z.to_nat c)).
  - eapply a_read; [done|done|done|]. by rewrite /c F1.
  - apply list_fmap_ext. intros ? ? _. by rewrite F2.
Qed.
Lemma refine_truncate s F N X a z size : implements_at s F N X a -> legal handles a (Truncate z size) -> refines s a (Truncate z size).
Proof.
  intros HI ((i & Hi) & Hsize). pose proof HI as (Hfs & _ & _ & _ & Hfiles). destruct (Hfiles z i Hi) as (Hz & _ & HF & Hreg & F1 & F2 & _).
  rewrite /refines /exec. wp_step. rewrite /toyfs_fallocate. wp_step. eapply wp_zii; [exact Hz|]. cbn [io_rw io_filepos].
  rewrite s64_small; [lia|]. rewrite /flag_set Z.land_diag (proj2 (Z.eqb_neq _ 0)); [lia|]. cbn [negb].
  apply (wp_truncate s F N X z (addr i)); [done|done|by apply zii_tii|done|lia| |].
  - intros s' Hs Hfs' Hsz Hb. wp_step. eexists. split; [by eapply a_truncate|].
    eapply implements_file; [exact HI|exact Hi|done|done|by rewrite Hsz| |done]. intros k. cbn [af_byte]. by rewrite Hb F1 F2.
  - intros s' Hlt Hs Hfs' Hsz Hb _. wp_step. eexists. split.
    + eapply (a_truncate_full _ _ _ _ i _ (bbyte (fblocks s' (addr i)))); [done|done|by rewrite -F1|]. intros k Hk. by rewrite Hb // F2.
    + eapply implements_file; [exact HI|exact Hi|done|done|by rewrite Hsz|done|done].
Qed.
Lemma refine_allocate s F N X a z pos last : implements_at s F N X a -> legal handles a (Allocate z pos last) -> refines s a (Allocate z pos last).
Proof.
  intros HI ((i & Hi) & Hpos & Hlast). pose proof HI as (Hfs & _ & _ & _ & Hfiles). destruct (Hfiles z i Hi) as (Hz & _ & HF & Hreg & F1 & F2 & _).
  rewrite /refines /exec. wp_step. eapply wp_mono.
  { eapply (wp_toyfs_fallocate s F N X z (addr i) pos last 0); try done; [by left]. }
  intros r s' (Hfs' & Hs & Hb & Hcase). wp_step. destruct Hcase as [(-> & Hsz & _)|(-> & Hsz & _)].
  - eexists. split; [by eapply a_allocate|]. eapply implements_file; [exact HI|exact Hi|done|done|by rewrite Hsz F1| |done]. intros k. cbn [af_byte]. by rewrite Hb F2.
  - exists a. split; [by eapply a_allocate_full|]. destruct (implements_file s s' F N X a z i (st_file a i)) as (F' & N' & X' & HI'); try done.
    { by rewrite Hsz. } { intros k. by rewrite Hb F2. }
    exists F', N', X'. destruct HI' as (G1 & G2 & G3 & G4 & G5). split_and!; [done..|]. intros z' n' Hz'. destruct (G5 z' n' Hz') as (K1 & K2 & K3 & K4 & K5).
    split_and!; [done..|]. cbn [st_file set_file] in K5. case_decide as E; [by rewrite -E in K5 |- *|done].
Qed.
Lemma refine_lookup s F N X a nm : implements_at s F N X a -> legal handles a (Lookup nm) -> refines s a (Lookup nm).
Proof.
  intros HI Hnm. pose proof HI as (Hfs & _ & Hdz & Hdir & _). rewrite /refines /exec. wp_step.
  eapply wp_mono; [by eapply (wp_lookup_name s X dzii d)|]. intros r s' (-> & ->). wp_step. exists a. split; [apply a_lookup|by exists F, N, X].
Qed.
Lemma not_dir i : S_ISTYPE S_IFREG (i_mode i) = true -> zi_isdir i = false.
Proof. rewrite /zi_isdir /S_ISTYPE /S_IFREG /S_IFDIR => /Z.eqb_eq ->. done. Qed.
Lemma u32_range x : 0 <= u32 x < 2 ^ 32.
Proof. apply Z.mod_pos_bound. lia. Qed.
Lemma refine_link s F N X a z nm : implements_at s F N X a -> legal handles a (Link z nm) -> refines s a (Link z nm).
Proof.
  intros HI ((n & Hz) & Hnm & Hnew). pose proof HI as (Hfs & Hd & Hdz & Hdir & Hfiles).
  destruct (Hfiles z n Hz) as (Hzii & (t & Ht & Hino) & HF & (i & Hi & _) & F1 & F2 & F3 & F4). destruct (handles_ok z n Hz) as [Hz0 Hn].
  rewrite /refines /exec. wp_step. eapply wp_mono.
  { eapply (wp_add_dentry s F N X dzii z d (addr n) t (st_names a) nm); try done; [intros E; apply Hd; by rewrite -E|by rewrite Hino]. }
  intros r s' (X' & ps & Hfs' & HXX & Hns & Hcase). wp_step. case_decide as Er.
  - destruct Hcase as (Hdir' & _ & Hl). rewrite Er Hino in Hdir' |- *. eexists. split; [by eapply a_link|].
    eapply (implements_names s s' F N X X' a z n); [exact HI|exact Hz|done|exact Hns|exact Hdir'|exact Hl|apply u32_range].
  - destruct Hcase as (-> & Hdir' & Ein & _). exists a. split; [apply a_link_full|]. by eapply (implements_same s s' F N X X').
Qed.
Lemma refine_unlink s F N X a z nm : implements_at s F N X a -> legal handles a (Unlink z nm) -> refines s a (Unlink z nm).
Proof.
  intros HI ((n & Hz) & Hnm & Hit). pose proof HI as (Hfs & Hd & Hdz & Hdir & Hfiles).
  destruct (Hfiles z n Hz) as (Hzii & (t & Ht & Hino) & HF & (i & Hi & Hreg) & F1 & F2 & F3 & F4).
  rewrite /refines /exec. wp_step. eapply wp_mono.
  { eapply (wp_remove_dentry s F N X dzii z d (addr n) i (st_names a) nm); try done. intros E; apply Hd; by rewrite -E. }
  intros r s' (ps & Hfs' & Hns & Hcase). wp_step. destruct (st_names a !! nm) as [m|] eqn:Em.
  - rewrite (not_dir i Hreg) in Hcase. cbn [andb] in Hcase. destruct Hcase as (-> & Hdir' & _ & Hl).
    assert (m = n) as -> by (destruct Hit; congruence). eexists. split; [by eapply a_unlink|].
    eapply (implements_names s s' F N X X a z n); [exact HI|exact Hz|done|exact Hns|exact Hdir'|rewrite Hl /inlink Hi //|apply u32_range].
  - destruct Hcase as [-> ->]. exists a. split; [by apply a_unlink_none|by exists F, N, X].
Qed.
Lemma relink_same s n m a : implements s (relink n (fun l => l) (set_names m a)) -> implements s (set_names m a).
Proof.
  intros (F & N & X & H1 & H2 & H3 & H4 & H5). exists F, N, X. split_and!; [done..|]. intros z' n' Hz'. destruct (H5 z' n' Hz') as (K1 & K2 & K3 & K4 & K5).
  split_and!; [done..|]. cbn [st_file set_file relink set_names] in K5 |- *. case_decide as E; [|done]. rewrite -E in K5. by destruct (st_file a n').
Qed.
Lemma refine_rename s F N X a z old new time : implements_at s F N X a -> legal handles a (Rename z old new time) -> refines s a (Rename z old new time).
Proof.
  intros HI ((n & Hz) & Hold & Hnew & Hit & Hfree). pose proof HI as (Hfs & Hd & Hdz & Hdir & Hfiles).
  destruct (Hfiles z n Hz) as (Hzii & (t & Ht & Hino) & HF & (i & Hi & _) & F1 & F2 & F3 & F4). destruct (handles_ok z n Hz) as [Hz0 Hn].
  assert (Hl : i_nlink i = af_nlink (st_file a n)) by (by rewrite -F3 /inlink Hi).
  rewrite /refines /exec. wp_step. eapply wp_mono.
  { eapply (wp_rename_free s F N X dzii z 0 d (addr n) i t (st_names a) old new time); try done; [intros E; apply Hd; by rewrite -E|by left|by rewrite Hino|by rewrite Hl]. }
  intros r s' (X' & ps & Hfs' & HXX & Hns & Hcase). wp_step. destruct (st_names a !! old) as [m|] eqn:Em.
  - destruct Hcase as [(-> & Hdir' & Hl')|(-> & Hdir' & Ein & _)].
    + assert (m = n) as -> by (destruct Hit; congruence). eexists. split; [by apply a_rename|]. rewrite Hino in Hdir'.
      apply (relink_same _ n). eapply (implements_names s s' F N X X' a z n); [exact HI|exact Hz|done|exact Hns|exact Hdir'|done|by rewrite F3].
    + exists a. split; [apply a_rename_full; by eexists|]. by eapply (implements_same s s' F N X X').
  - destruct Hcase as [-> ->]. exists a. split; [by apply a_rename_none|by exists F, N, X].
Qed.

Lemma refine_request s a q : implements s a -> legal handles a q -> refines s a q.
Proof.
  intros (F & N & X & HI) Hq. destruct q; [eapply refine_write|eapply refine_read|eapply refine_truncate|eapply refine_allocate|
    eapply refine_lookup|eapply refine_link|eapply refine_unlink|eapply refine_rename]; eassumption.
Qed.
Lemma wp_client c : forall s a, implements s a -> safe handles a c ->
  wp (run dzii c) s (fun h s' => exists b, asteps handles a h b /\ implements s' b).
Proof.
  induction c as [|q k IH]; intros s a HI; cbn [run safe].
  - intros _. wp_step. exists a. split; [constructor|done].
  - intros [Hq Hk]. wp_step. eapply wp_mono; [by apply refine_request|]. intros r s1 (b & Hb & HI1). wp_step.
    eapply wp_mono; [apply (IH r s1 b HI1), Hk, Hb|]. intros h s2 (c & Hc & HI2). wp_step. exists c. split; [by econstructor|done].
Qed.
(** C1: toyfs implements the abstract store: of any client that keeps to the rules of the
    kernel, with any number of requests on files and names interleaved in any way, every
    request is served, and the answers, one by one, are answers the store may give; the
    state toyfs is left in stands for the one the store is left in. *)
Theorem toyfs_refines c s a : implements s a -> safe handles a c ->
  wp (run dzii c) s (fun h s' => exists b, asteps handles a h b /\ implements s' b).
Proof. apply wp_client. Qed.

(** ** Types *)
(** A file's block: a record of the right kind behind every pointer, down to a whole page. *)
Definition block_typed (s : toyfs_sb_info) (x : Z) : Prop :=
  0 <= ib_off s x <= 2 ^ 50 /\ (PAGE_SIZE | ib_off s x) /\
  exists b r dat, ib_d s x = Some b /\ h_dblkref s !! b = Some r /\ 1 <= refcnt r < 2 ^ 64 /\
    h_page s !! toyfs_bn2pmemb (bn r) = Some (Pmemb dat) /\ length dat = 4096%nat.
Definition file_typed (s : toyfs_sb_info) (p : Z) : Prop := exists i,
  h_inode s !! p = Some i /\ 0 <= i_size i < 2 ^ 63 /\ i_blocks i = Z.of_nat (length (list_head i)) /\
  Sorted.StronglySorted Z.lt (ib_off s <$> list_head i) /\ forall x, x ∈ list_head i -> block_typed s x.
Lemma fs_inv_typed s F N X p : fs_inv s F N X -> p ∈ F -> file_typed s p.
Proof.
  intros (A & I & (P & D & Hpool & Hst & _) & Hf & _) Hp. destruct (Hf p Hp) as (i & Hi & (Hblk & Hsort) & Hn & Hsz).
  exists i. split_and!; try done; try lia. intros x Hx. destruct (Hblk x Hx) as (HA & Hoff & Hal). split_and!; try done; try lia.
  destruct Hst as (Hd & _ & Hib & _). destruct (Hib x HA) as (b & Hb & HD). destruct (Hd b HD) as (r & Hr & _ & HP & Hrc & _).
  destruct Hpool as (_ & fl & C & (_ & _ & _ & Hpm & _) & _). destruct (Hpm _ HP) as (dat & Hdat & Hlen). exists b, r, dat. split_and!; try done; lia.
Qed.
(** C5: types.  Whatever clients do, in any order and as often as they like, no structure
    of a file they can reach breaks: its size is a file size and its number of blocks that of its
    list, which is in the order of the offsets; every block is at a page boundary and leads
    through a record with a positive count to a page of bytes of full length. *)
Theorem toyfs_types c s a : implements s a -> safe handles a c ->
  wp (run dzii c) s (fun _ s' => forall z n, handles !! z = Some n -> zii_of s' z (addr n) /\ file_typed s' (addr n)).
Proof.
  intros HI Hs. eapply wp_mono; [by apply wp_client|]. intros h s' (b & _ & F & N & X & Hinv & _ & _ & _ & Hh) z n Hz.
  destruct (Hh z n Hz) as (Hzii & _ & HF & _). split; [done|by apply (fs_inv_typed _ _ _ _ _ Hinv)].
Qed.

(** ** Link counts *)
Definition name_count (m : gmap (list Z) Z) (n : Z) : Z := Z.of_nat (size (filter (fun kv => kv.2 = n) m)).
Lemma name_count_insert m nm i n : m !! nm = None -> name_count (<[nm := i]> m) n = (if decide (i = n) then 1 else 0) + name_count m n.
Proof.
  intros Hm. rewrite /name_count. case_decide as E.
  - rewrite map_filter_insert_True // map_size_insert_None; [apply map_lookup_filter_None; by left|lia].
  - rewrite map_filter_insert_False // delete_id //.
Qed.
Lemma name_count_delete m nm i n : m !! nm = Some i -> name_count m n = (if decide (i = n) then 1 else 0) + name_count (delete nm m) n.
Proof. intros Hm. rewrite -{1}(insert_delete_id m nm i) // name_count_insert // lookup_delete_eq //. Qed.
(** The count of every open file is the number of its names here, above that of its names
    elsewhere. *)
Definition links_ok (base : Z -> Z) a : Prop :=
  forall z n, handles !! z = Some n -> af_nlink (st_file a n) = u32 (base n + name_count (st_names a) n).
Lemma links_set_file base a i f : af_nlink f = af_nlink (st_file a i) -> links_ok base a -> links_ok base (set_file i f a).
Proof. intros Hf Hl z n Hz. cbn. case_decide as E; [rewrite E Hf -E|]; by eapply Hl. Qed.
Lemma astep_links base a q r b : legal handles a q -> astep handles a q r b -> links_ok base a -> links_ok base b.
Proof.
  intros Hq Hs Hl. destruct Hs; subst; try done; try (by apply links_set_file).
  - destruct Hq as (_ & _ & Hnew). intros z' n Hz'. cbn. rewrite name_count_insert //. pose proof (Hl z' n Hz') as E.
    destruct (decide (n = i)) as [->|Hne]; repeat case_decide; try congruence; cbn [af_nlink st_file set_names]; rewrite E ?u32_succ; f_equal; lia.
  - intros z' n Hz'. cbn. pose proof (Hl z' n Hz') as E. rewrite (name_count_delete (st_names a) nm i n) // in E.
    destruct (decide (n = i)) as [->|Hne]; repeat case_decide; try congruence; cbn [af_nlink st_file set_names]; rewrite E ?u32_pred; f_equal; lia.
  - destruct Hq as (_ & _ & _ & _ & Hnew). intros z' n Hz'. cbn. rewrite (Hl z' n Hz') (name_count_delete (st_names a) old i n) //.
    rewrite name_count_insert // lookup_delete_ne //. intros ->. congruence.
Qed.
Lemma run_links base c : forall s a, implements s a -> safe handles a c -> links_ok base a ->
  wp (run dzii c) s (fun h s' => exists b, implements s' b /\ links_ok base b).
Proof.
  induction c as [|q k IH]; intros s a HI; cbn [run safe].
  - intros _ Hl. wp_step. by exists a.
  - intros [Hq Hk] Hl. wp_step. eapply wp_mono; [by apply refine_request|]. intros r s1 (b & Hb & HI1). wp_step.
    eapply wp_mono; [apply (IH r s1 b HI1); [by apply Hk|by eapply astep_links]|]. intros h s2 HI2. by wp_step.
Qed.
(** C4: Link counts follow the names: whatever clients do, the link count of every open file
    stays the number of its names in the directory, above a base that never changes. *)
Theorem toyfs_links base c s a : implements s a -> safe handles a c -> links_ok base a ->
  wp (run dzii c) s (fun _ s' => exists X m, dir_is s' X d m /\
    forall z n, handles !! z = Some n -> inlink s' (addr n) = u32 (base n + name_count m n)).
Proof.
  intros HI Hsafe Hl. eapply wp_mono; [by apply (run_links base c s a)|]. intros h s' (b & (F & N & X & _ & _ & _ & Hdir & Hfiles) & Hlb).
  exists X, (st_names b). split; [done|]. intros z n Hz. destruct (Hfiles z n Hz) as (_ & _ & _ & _ & _ & _ & -> & _). by eapply Hlb.
Qed.

(** ** Reading what was written *)
(** Does the request leave the bytes of the file [i] from [o] to [e] alone? *)
Definition spares (i o e : Z) (q : request) : Prop :=
  match q with
  | Write z pos n _ => handles !! z = Some i -> pos + n <= o \/ e <= pos
  | Truncate z size => handles !! z = Some i -> e <= size
  | _ => True
  end.
Definition holds (a : store) (i o : Z) (bytes : list Z) : Prop :=
  o + Z.of_nat (length bytes) <= af_size (st_file a i) /\ abytes (st_file a i) o (length bytes) = bytes.
Lemma abytes_lookup f o c k : (k < c)%nat -> abytes f o c !! k = Some (af_byte f (o + Z.of_nat k)).
Proof. intros Hk. by rewrite /abytes list_lookup_fmap lookup_seq_lt. Qed.
Lemma abytes_ext f g o c : (forall k, o <= k < o + Z.of_nat c -> af_byte f k = af_byte g k) -> abytes f o c = abytes g o c.
Proof. intros Hk. apply list_fmap_ext. intros j x Hj. apply lookup_seq in Hj as [-> Hlt]. apply Hk. cbn. lia. Qed.
Lemma holds_file a i j f o bytes : (j = i -> o + Z.of_nat (length bytes) <= af_size f /\
    forall k, o <= k < o + Z.of_nat (length bytes) -> af_byte f k = af_byte (st_file a i) k) ->
  holds a i o bytes -> holds (set_file j f a) i o bytes.
Proof.
  intros Hf [H1 H2]. rewrite /holds. cbn. case_decide as E; [|done]. destruct (Hf (eq_sym E)) as [F1 F2]. split; [done|]. rewrite -{2}H2. by apply abytes_ext.
Qed.
Lemma astep_holds a q r b i o bytes : astep handles a q r b -> spares i o (o + Z.of_nat (length bytes)) q -> holds a i o bytes -> holds b i o bytes.
Proof.
  intros Hs Hsp Hh. destruct Hs; subst; try done; try (apply holds_file; [|done]; intros ->; cbn; destruct Hh as [Hsz _]; cbn in Hsp).
  all: cbn; try (specialize (Hsp ltac:(done))).
  - split; [lia|]. intros k Hk. rewrite decide_False //. lia.
  - split; [lia|]. intros k Hk. match goal with Hg : forall k, _ \/ _ -> _ = _ |- _ => apply Hg | Hg : forall k, k < _ -> _ = _ |- _ => apply Hg end. lia.
  - split; [lia|]. intros k Hk. rewrite decide_False //. lia.
  - split; [lia|]. intros k Hk. match goal with Hg : forall k, _ \/ _ -> _ = _ |- _ => apply Hg | Hg : forall k, k < _ -> _ = _ |- _ => apply Hg end. lia.
  - split; [lia|done].
  - split; [lia|done].
  - split; [lia|done].
Qed.
Lemma asteps_app a h1 h2 c : asteps handles a (h1 ++ h2) c -> exists b, asteps handles a h1 b /\ asteps handles b h2 c.
Proof.
  revert a. induction h1 as [|[q r] h1 IH]; intros a Hs; cbn [app] in Hs; [exists a; split; [constructor|done]|].
  inversion Hs as [|? ? ? b ? ? Hb Hs']; subst. destruct (IH b Hs') as (b' & H1' & H2'). exists b'. split; [by econstructor|done].
Qed.
Lemma asteps_holds i o bytes a h c : asteps handles a h c -> Forall (fun x => spares i o (o + Z.of_nat (length bytes)) x.1) h ->
  holds a i o bytes -> holds c i o bytes.
Proof.
  induction 1 as [|a q r b h c Hs Hrest IH]; [done|]. intros [Hq Hh]%Forall_cons Ha. apply IH; [done|]. by eapply astep_holds.
Qed.
Lemma read_held z pos n i bytes a r b : handles !! z = Some i -> in_range pos n -> Z.of_nat (length bytes) = n -> holds a i pos bytes ->
  astep handles a (Read z pos n) r b -> r = Moved 0 bytes (pos + n).
Proof.
  intros Hz Hr Hlen [Hsz Hby] Hs. inversion Hs; subst; [|done]. assert (i0 = i) as -> by congruence. destruct Hr as [Hr _].
  replace (Z.max 0 (Z.min (pos + Z.of_nat (length bytes)) (af_size (st_file b i)) - pos)) with (Z.of_nat (length bytes)) by lia.
  by rewrite Nat2Z.id Hby.
Qed.
Lemma read_back z z' pos n buf last a h r c : handles !! z' = handles !! z -> 0 <= n <= Z.of_nat (length buf) ->
  asteps handles a ((Write z pos n buf, Moved 0 [] last) :: h ++ [(Read z' pos n, r)]) c ->
  Forall (fun x => forall i, handles !! z = Some i -> spares i pos (pos + n) x.1) h -> r = Moved 0 (take (Z.to_nat n) buf) (pos + n).
Proof.
  intros Ez Hn Hs Hh. inversion Hs as [|? ? ? b ? ? Hw Hs']; subst. apply asteps_app in Hs' as (b1 & Hb1 & Hr).
  inversion Hr as [|? ? ? b2 ? ? Hrd _]; subst. inversion Hw; subst; [|match goal with He : _ \/ _ |- _ => by destruct He end].
  match goal with Hi : handles !! z = Some ?x |- _ => rename Hi into Hz, x into j end.
  set (bytes := take (Z.to_nat n) buf). assert (Hlen : Z.of_nat (length bytes) = n) by (rewrite /bytes length_take; lia).
  assert (Hb : holds (set_file j (AFile (Z.max (pos + n) (af_size (st_file a j))) (fun k => if decide (pos <= k < pos + n) then default 0 (buf !! Z.to_nat (k - pos))
    else af_byte (st_file a j) k) (af_nlink (st_file a j))) a) j pos bytes).
  { rewrite /holds /= decide_True //=. split; [lia|]. apply list_eq. intros k. destruct (decide (k < length bytes)%nat) as [Hk|Hk].
    - rewrite abytes_lookup //= decide_True; [lia|]. replace (Z.to_nat (pos + Z.of_nat k - pos)) with k by lia. rewrite lookup_take_lt; [lia|].
      by destruct (lookup_lt_is_Some_2 buf k) as [v ->]; [lia|].
    - rewrite !lookup_ge_None_2 //; rewrite ?/abytes ?length_fmap ?length_seq; lia. }
  assert (H1' : holds b1 j pos bytes).
  { eapply asteps_holds; [exact Hb1| |exact Hb]. eapply Forall_impl; [exact Hh|]. intros x Hx. rewrite Hlen. by apply Hx. }
  apply (read_held z' pos n j bytes b1 r b2); [by rewrite Ez|done|exact Hlen|exact H1'|exact Hrd].
Qed.
(** C3: A client reads what was written: between a write that succeeded and a read of the
    same range, on any handle of the same file, there may be any number of requests on
    names, on other files, on other parts of the file, even ones that failed for want of
    room; the read answers the bytes written. *)
Theorem toyfs_read_your_writes c s a : implements s a -> safe handles a c ->
  wp (run dzii c) s (fun h _ => forall h1 z pos n buf last h2 z' r h3,
    h = h1 ++ ((Write z pos n buf, Moved 0 [] last) :: h2 ++ [(Read z' pos n, r)]) ++ h3 ->
    handles !! z' = handles !! z -> 0 <= n <= Z.of_nat (length buf) ->
    Forall (fun x => forall i, handles !! z = Some i -> spares i pos (pos + n) x.1) h2 ->
    r = Moved 0 (take (Z.to_nat n) buf) (pos + n)).
Proof.
  intros HI Hsafe. eapply wp_mono; [by apply (wp_client c s a)|]. intros h s' (b & Hs & _) h1 z pos n buf last h2 z' r h3 -> Ez Hn Hh.
  apply asteps_app in Hs as (b1 & _ & Hs). apply asteps_app in Hs as (b2 & Hs & _). by eapply read_back.
Qed.
End refinement.

(** ** A client of the example with two files *)
Section example.
#[local] Existing Instance example_md.
#[local] Opaque ds_named.
Definition ex_handles : gmap Z Z := <[1 := 11]> {[2 := 12]}.
Definition ex_addr (n : Z) : Z := if n =? 11 then file1 else file2.
(** What toyfs shows of a file. *)
Definition shown (s : toyfs_sb_info) (p : Z) : afile := AFile (fsize s p) (bbyte (fblocks s p)) (inlink s p).
Definition ex_store : store := Store (fun n => shown ds_named (ex_addr n)) {[nm_a := 11]}.
Lemma ex_handles_inv z n : ex_handles !! z = Some n -> (z = 1 /\ n = 11) \/ (z = 2 /\ n = 12).
Proof. rewrite /ex_handles lookup_insert_Some. intros [[<- <-]|[_ H]]; [by left|]. apply lookup_singleton_Some in H as [<- <-]. by right. Qed.
Lemma ex_handles_ok z n : ex_handles !! z = Some n -> z <> 0 /\ 0 < n < 2 ^ 64.
Proof. intros [[-> ->]|[-> ->]]%ex_handles_inv; lia. Qed.
Lemma ex_addr_inj z z' n n' : ex_handles !! z = Some n -> ex_handles !! z' = Some n' -> ex_addr n = ex_addr n' -> n = n'.
Proof. intros [[-> ->]|[-> ->]]%ex_handles_inv [[-> ->]|[-> ->]]%ex_handles_inv; done. Qed.
Lemma ex_files_open :
  (h_tii ds_named !! 1 = Some (reg_tii file1 11) /\ h_tii ds_named !! 2 = Some (reg_tii file2 12)) /\
  (h_inode ds_named !! file1 = Some (upd_i_nlink (fun _ => 2) (reg_inode 11)) /\ h_inode ds_named !! file2 = Some (reg_inode 12)).
Proof. vm_compute. done. Qed.
Lemma ex_shown s p : 0 <= inlink s p < 2 ^ 32 -> file_is s p (shown s p).
Proof. intros Hl. split; [reflexivity|]. split; [reflexivity|]. split; [reflexivity|]. exact Hl. Qed.
Lemma ex_file1 : file1 ∈ ex_files.
Proof. rewrite /ex_files. set_solver +. Qed.
Lemma ex_file2 : file2 ∈ ex_files.
Proof. rewrite /ex_files. set_solver +. Qed.
Lemma ex_implements : implements ex_handles 3 dir1 ex_addr ds_named ex_store.
Proof.
  destruct ds_named_dir as (X & Hfs & Hd). exists ex_files, ex_inodes, X. split_and!; [exact Hfs|exact dir1_new|eapply reg_zii, ds_named_facts|exact Hd|].
  destruct ex_files_open as [[T1 T2] [I1 I2]]. intros z n [[-> ->]|[-> ->]]%ex_handles_inv.
  - change (ex_addr 11) with file1. split; [exact (reg_zii _ _ _ _ T1)|]. split; [exact (ex_intro _ _ (conj T1 eq_refl))|].
    split; [exact ex_file1|]. split; [exact (ex_intro _ _ (conj I1 eq_refl))|].
    apply ex_shown. rewrite /inlink I1. cbn. lia.
  - change (ex_addr 12) with file2. split; [exact (reg_zii _ _ _ _ T2)|]. split; [exact (ex_intro _ _ (conj T2 eq_refl))|].
    split; [exact ex_file2|]. split; [exact (ex_intro _ _ (conj I2 eq_refl))|].
    apply ex_shown. rewrite /inlink I2. cbn. lia.
Qed.
(** Write, name the other file, read back. *)
Definition ex_client : client := Do (Write 1 5 3 [7; 8; 9]) (fun _ => Do (Link 2 nm_b) (fun _ => Do (Read 1 5 3) (fun _ => Stop))).
Lemma ex_safe : safe ex_handles ex_store ex_client.
Proof.
  cbn [safe ex_client legal]. split; [split_and!; [by eexists|lia..|done]|]. intros r b Hb. split.
  - split; [by eexists|]. split; [apply nm_ok; lia|]. by inversion Hb; subst.
  - intros r' b' _. split; [split_and!; [by eexists|lia..]|done].
Qed.
Lemma ex_trunc : 0 < ZUFS_FL_TRUNCATE < 2 ^ 63.
Proof. done. Qed.
Lemma toyfs_refines_witness : implements ex_handles 3 dir1 ex_addr ds_named ex_store /\
  wp (run 3 ex_client) ds_named (fun h _ => exists b, asteps ex_handles ex_store h b).
Proof.
  split; [exact ex_implements|]. eapply wp_mono; [exact (toyfs_refines ex_handles 3 dir1 ex_addr ex_handles_ok ex_addr_inj ex_trunc ex_client ds_named ex_store ex_implements ex_safe)|].
  intros h s' (b & Hb & _). by exists b.
Defined.
Lemma toyfs_types_witness : implements ex_handles 3 dir1 ex_addr ds_named ex_store /\
  wp (run 3 ex_client) ds_named (fun _ s' => file_typed s' file1).
Proof.
  split; [exact ex_implements|]. eapply wp_mono; [exact (toyfs_types ex_handles 3 dir1 ex_addr ex_handles_ok ex_addr_inj ex_trunc ex_client ds_named ex_store ex_implements ex_safe)|].
  intros h s' Ht. exact (proj2 (Ht 1 11 eq_refl)).
Defined.
Lemma ex_links : links_ok ex_handles (fun _ => 1) ex_store.
Proof. destruct ex_files_open as [_ [I1 I2]]. intros z n [[-> ->]|[-> ->]]%ex_handles_inv; cbn; rewrite /inlink; [by rewrite I1|by rewrite I2]. Qed.
Lemma toyfs_links_witness : links_ok ex_handles (fun _ => 1) ex_store /\
  wp (run 3 ex_client) ds_named (fun _ s' => exists X m, dir_is s' X dir1 m /\ inlink s' file2 = u32 (1 + name_count m 12)).
Proof.
  split; [exact ex_links|]. eapply wp_mono;
    [exact (toyfs_links ex_handles 3 dir1 ex_addr ex_handles_ok ex_addr_inj ex_trunc (fun _ => 1) ex_client ds_named ex_store ex_implements ex_safe ex_links)|].
  intros h s' (X & m & Hd & Hl). exists X, m. split; [exact Hd|]. apply (Hl 2 12). reflexivity.
Defined.
Lemma toyfs_read_your_writes_witness : safe ex_handles ex_store ex_client /\
  wp (run 3 ex_client) ds_named (fun h _ => forall e r, h = [(Write 1 5 3 [7; 8; 9], Moved 0 [] 8); (Link 2 nm_b, e); (Read 1 5 3, r)] -> r = Moved 0 [7; 8; 9] 8).
Proof.
  split; [exact ex_safe|]. eapply wp_mono;
    [exact (toyfs_read_your_writes ex_handles 3 dir1 ex_addr ex_handles_ok ex_addr_inj ex_trunc ex_client ds_named ex_store ex_implements ex_safe)|].
  intros h s' Hh e r ->. apply (Hh [] 1 5 3 [7; 8; 9] 8 [(Link 2 nm_b, e)] 1 r []); [reflexivity|reflexivity|cbn; lia|by apply Forall_singleton].
Defined.
End example.
#[local] Existing Instance example_md.
Example client_runs : fst <$> run 3 ex_client ds_named =
  Some [(Write 1 5 3 [7; 8; 9], Moved 0 [] 8); (Link 2 nm_b, Answer 0); (Read 1 5 3, Moved 0 [7; 8; 9] 8)].
Proof. vm_compute. reflexivity. Qed.
