(* ===== verification/DirList.v ===== *)
(** * Listing a directory

    [toyfs_iterate_dir] as a cursor: the entries of a directory in the order of their
    offsets, the part from a position on, and how many of them fit the buffer. *)

From stdpp Require Import sorting.
From S2P Require Import Prelude Bytes CList State Pool File FileInv FileSpec FileOps FileClaims DirPage Pages Dir DirSpec DirOps DirEx.

Section readdir.
Context `{MdLaws}.
Context {R : Type} (emit : R -> list Z -> Z -> Z -> Z -> bool * R).

(** What the loops do, on the entries. *)
Fixpoint emit_list (es : list dent) (ctx : toyfs_dir_context (R := R)) : bool * toyfs_dir_context :=
  match es with
  | [] => (true, ctx)
  | e :: es' =>
    if pos ctx <=? e_off e then
      let r := emit (ctx_out ctx) (e_name e) (e_ino e) (e_type e) (pos ctx) in
      if r.1 then emit_list es' (DirContext (e_off e + 1) r.2) else (false, DirContext (pos ctx) r.2)
    else emit_list es' ctx
  end.
Lemma emit_list_app es es' ctx :
  emit_list (es ++ es') ctx = let r := emit_list es ctx in if r.1 then emit_list es' r.2 else r.
Proof.
  revert ctx. induction es as [|e es IH]; intros ctx; cbn [app emit_list]; [done|].
  destruct (pos ctx <=? e_off e); [|apply IH]. destruct (emit _ _ _ _ _) as [[|] out]; cbn [fst snd]; [apply IH|done].
Qed.
Lemma iterate_dentries_eq dat : forall l fuel k ctx,
  at_slot dat k l -> (nslots l < fuel)%nat -> _iterate_dentries emit fuel dat k ctx = emit_list (used l) ctx.
Proof.
  induction l as [|x l IH]; intros fuel k ctx Hat Hf; (destruct fuel as [|fuel]; [lia|]); cbn [_iterate_dentries].
  { pose proof Hat as (_&Hn&_). rewrite /nslots /= in Hn. destruct (Nat.ltb_spec k DIRENTS); [lia|done]. }
  pose proof (slots_pos x). pose proof Hat as (_&Hn&_). rewrite nslots_cons in Hn, Hf.
  destruct (Nat.ltb_spec k DIRENTS); [|lia]. rewrite (next_slot _ _ _ _ Hat).
  assert (IH' : forall ctx, _iterate_dentries emit fuel dat (k + slots_of x) ctx = emit_list (used l) ctx).
  { intros ctx'. apply IH; [by apply at_slot_next|lia]. }
  destruct x as [|e].
  - rewrite (at_free _ _ _ Hat). cbn [Nat.ltb Nat.leb andb fst snd]. apply IH'.
  - destruct (at_used _ _ _ _ Hat) as (E1&E2&E3&E4&E5). pose proof Hat as (_&_&[((Hl&_)&_) _]%Forall_cons).
    rewrite /_emit_dirent /_emit E1 E2 E3 E4 E5. destruct (Nat.ltb_spec 0 (length (e_name e))); [|lia].
    change (used (Used e :: l)) with (e :: used l). cbn [andb emit_list].
    destruct (pos ctx <=? e_off e); cbn [fst snd]; [|apply IH'].
    destruct (emit _ _ _ _ _) as [[|] out]; cbn [fst snd ctx_out pos]; [apply IH'|done].
Qed.
Lemma wp_iterate_pages s : forall ps ls ctx (Q : bool * toyfs_dir_context -> toyfs_sb_info -> Prop),
  dir_pages s ps ls ->
  (let r := emit_list (used (concat ls)) ctx in Q (negb r.1, r.2) s) ->
  wp (iterate_pages emit ps true ctx) s Q.
Proof.
  induction ps as [|p ps IH]; intros ls ctx Q Hp HQ; cbn [iterate_pages].
  { apply Forall2_nil_inv_l in Hp as ->. by wp_step. }
  apply Forall2_cons_inv_l in Hp as (l&ls'&(dat&Hd&Hr)&Hp&->). pose proof Hr as (_&_&Hn&_).
  wp_step. eapply wp_load_pmemb; [exact Hd|]. rewrite (iterate_dentries_eq dat l); [by apply page_rep_at|lia|].
  cbn [concat] in HQ. rewrite used_app emit_list_app in HQ. cbv zeta in HQ.
  destruct (emit_list (used l) ctx) as [[|] ctx']; cbn [fst snd negb] in *; [by apply (IH ls')|by wp_step].
Qed.
End readdir.

Section listing.
Context `{MdLaws}.

(** A buffer with room for [n] entries. *)
Definition room_for (n : nat) (out : list dent) (name : list Z) (ino type pos : Z) : bool * list dent :=
  if (length out <? n)%nat then (true, out ++ [Dent name ino type pos]) else (false, out).
(** The entries at or after a position, as the caller sees them: name, inode number
    and type. *)
Definition from_pos (p : Z) (es : list dent) : list dent := filter (fun e => p <= e_off e) es.
Definition seen (e : dent) : list Z * Z * Z := (e_name e, e_ino e, e_type e).

Lemma offs_ok_used o l : offs_ok o l -> StronglySorted Z.lt (e_off <$> used l) /\ forall e, e ∈ used l -> o <= e_off e.
Proof.
  revert o. induction l as [|x l IH]; intros o Ho; [split; [constructor|by intros e ?%elem_of_nil]|].
  destruct Ho as [Hx Ho]. pose proof (slots_pos x). destruct (IH _ Ho) as [Hs Hb]. destruct x as [|e].
  - split; [done|]. intros e He. specialize (Hb e He). lia.
  - change (used (Used e :: l)) with (e :: used l). split.
    + rewrite fmap_cons. constructor; [done|]. apply Forall_forall. intros y (e'&->&He')%list_elem_of_fmap.
      specialize (Hb e' He'). lia.
    + intros e' [->|He']%elem_of_cons; [lia|]. specialize (Hb e' He'). lia.
Qed.
Lemma from_pos_all p es : (forall e, e ∈ es -> p <= e_off e) -> from_pos p es = es.
Proof.
  induction es as [|e es IH]; intros He; [done|]. rewrite /from_pos filter_cons decide_True; [apply He; constructor|].
  f_equal. apply IH. intros e' ?. apply He. by constructor.
Qed.

Lemma from_pos_skip p e es : e_off e < p -> from_pos p (e :: es) = from_pos p es.
Proof. intros He. rewrite /from_pos filter_cons decide_False; [lia|done]. Qed.

Lemma room_yes n out nm i t p : (length out < n)%nat -> room_for n out nm i t p = (true, out ++ [Dent nm i t p]).
Proof. intros Hn. rewrite /room_for. by destruct (Nat.ltb_spec (length out) n); [|lia]. Qed.
Lemma room_no n out nm i t p : (n <= length out)%nat -> room_for n out nm i t p = (false, out).
Proof. intros Hn. rewrite /room_for. by destruct (Nat.ltb_spec (length out) n); [lia|]. Qed.

Lemma emit_list_room n : forall es ctx,
  StronglySorted Z.lt (e_off <$> es) ->
  let r := emit_list (room_for n) es ctx in
  exists done_ rest, from_pos (pos ctx) es = done_ ++ rest /\
    seen <$> ctx_out r.2 = (seen <$> ctx_out ctx) ++ (seen <$> done_) /\
    from_pos (pos r.2) es = rest /\ (r.1 = true <-> rest = []) /\ pos ctx <= pos r.2 /\
    (rest <> [] -> length (ctx_out r.2) = Nat.max n (length (ctx_out ctx))).
Proof.
  induction es as [|e es IH]; intros ctx Hs; [exists [], []; cbn; rewrite app_nil_r; split_and!; done|].
  rewrite fmap_cons in Hs. apply StronglySorted_cons in Hs as [He Hs]. cbn [emit_list].
  assert (Hge : forall e', e' ∈ es -> e_off e < e_off e').
  { intros e' He'. rewrite Forall_forall in He. by apply He, list_elem_of_fmap_2. }
  destruct (Z.leb_spec (pos ctx) (e_off e)) as [Hle|Hgt].
  2: { destruct (IH ctx Hs) as (d&rest&E1&E2&E3&E4&E5&E6). exists d, rest.
       rewrite !from_pos_skip; [lia..|]. done. }
  rewrite (from_pos_all (pos ctx) (e :: es)); [intros e' [->|He']%elem_of_cons; [done|]; specialize (Hge e' He'); lia|].
  destruct (Nat.lt_ge_cases (length (ctx_out ctx)) n) as [Hn|Hn]; [rewrite room_yes //|rewrite room_no //]; cbn [fst snd].
  - edestruct (IH (DirContext (e_off e + 1) (ctx_out ctx ++ [Dent (e_name e) (e_ino e) (e_type e) (pos ctx)])) Hs)
      as (d&rest&E1&E2&E3&E4&E5&E6). cbn [pos ctx_out] in *.
    rewrite from_pos_all in E1; [intros e' He'; specialize (Hge e' He'); lia|].
    assert (e_off e < pos (emit_list (room_for n) es (DirContext (e_off e + 1) (ctx_out ctx ++ [Dent (e_name e) (e_ino e) (e_type e) (pos ctx)]))).2) by lia.
    exists (e :: d), rest. rewrite from_pos_skip //. rewrite E2 fmap_app -app_assoc. split_and!; try done.
    + by rewrite E1.
    + lia.
    + intros Hr. rewrite E6 // length_app /=. lia.
  - exists [], (e :: es). cbn [pos ctx_out]. rewrite app_nil_r. split_and!; try done; [|lia].
    apply from_pos_all. intros e' [->|He']%elem_of_cons; [done|]. specialize (Hge e' He'). lia.
Qed.

(** ** The whole directory: "." and ".." and the entries of its pages *)
Definition dot : list Z := [46].
Definition dotdot : list Z := [46; 46].
Definition listing (i : toyfs_inode) (ls : list (list slot)) : list dent :=
  Dent dot (i_ino i) DT_DIR 0 :: Dent dotdot (i_dir_parent i) DT_DIR 1 :: used (concat ls).
Lemma listing_sorted i ls : offs_ok 2 (concat ls) -> StronglySorted Z.lt (e_off <$> listing i ls).
Proof.
  intros [Hs Hb]%offs_ok_used. rewrite /listing !fmap_cons.
  assert (Hall : forall o, o < 2 -> Forall (Z.lt o) (e_off <$> used (concat ls))).
  { intros o Ho. apply Forall_forall. intros y (e&->&He)%list_elem_of_fmap. specialize (Hb e He). lia. }
  constructor; [constructor; [done|]|constructor]; cbn [e_off]; [apply Hall; lia|lia|apply Hall; lia].
Qed.

(** The code before the loop over the pages. *)
Lemma wp_iterate_dir s X d ps ls i zii (ctx : toyfs_dir_context (R := list dent)) n (Q : bool * toyfs_dir_context -> toyfs_sb_info -> Prop) :
  dir_ok s X d ps ls -> tii_of s zii d -> h_inode s !! d = Some i -> 0 <= pos ctx ->
  (pos ctx < 2 -> Z.of_nat (length (ctx_out ctx)) + (2 - pos ctx) <= Z.of_nat n) ->
  (let r := emit_list (room_for n) (listing i ls) ctx in Q (negb r.1, r.2) s) ->
  wp (_iterate_dir (room_for n) zii ctx) s Q.
Proof.
  intros ((i'&Hi'&Hl&_)&_&_&Hp&_) Hz Hi Hpos Hroom HQ. rewrite Hi in Hi'. injection Hi' as <-.
  rewrite /_iterate_dir. wp_step. eapply wp_ti; [exact Hz|]. wp_step. eapply wp_get_inode; [exact Hi|].
  wp_step. eapply wp_get_inode; [exact Hi|]. rewrite /toyfs_childs_list_of. do 2 wp_step.
  eapply wp_ti; [exact Hz|]. eapply wp_get_inode; [exact Hi|]. rewrite Hl.
  destruct ctx as [p out]. cbn [pos ctx_out] in *. unfold listing, emit_list in HQ. cbn [e_off pos ctx_out] in HQ.
  assert (p = 0 \/ p = 1 \/ 2 <= p) as [->|[->|H2]] by lia.
  - unfold _emit. cbn [Z.eqb pos ctx_out]. change (0 <=? 0) with true in HQ. cbv iota in HQ. cbn [e_name e_ino e_type] in HQ.
    rewrite room_yes in HQ; [lia|]. rewrite room_yes; [lia|]. cbn [fst snd pos ctx_out] in *.
    change (0 + 1 <=? 1) with true in HQ. change (1 =? 1) with true. cbn [andb fst snd]. cbv iota in HQ |- *.
    rewrite room_yes in HQ; [rewrite length_app /=; lia|]. rewrite room_yes; [rewrite length_app /=; lia|].
    cbn [fst snd pos ctx_out] in *. by apply (wp_iterate_pages _ s ps ls).
  - unfold _emit. cbn [Z.eqb pos ctx_out fst snd]. change (1 =? 1) with true. change (1 <=? 0) with false in HQ. cbn [andb].
    change (1 <=? 1) with true in HQ. cbv iota in HQ |- *. cbn [e_name e_ino e_type] in HQ.
    rewrite room_yes in HQ; [lia|]. rewrite room_yes; [lia|]. cbn [fst snd pos ctx_out] in *.
    by apply (wp_iterate_pages _ s ps ls).
  - destruct (Z.eqb_spec p 0); [lia|]. cbn [fst snd pos ctx_out]. destruct (Z.eqb_spec p 1); [lia|]. cbn [andb fst snd].
    destruct (Z.leb_spec p 0); [lia|]. destruct (Z.leb_spec p 1); [lia|]. by apply (wp_iterate_pages _ s ps ls).
Qed.

(** No room for the dots that are left: the first that does not fit is stepped over, and the
    pages are not looked at. *)
Definition dots (i : toyfs_inode) : list dent := [Dent dot (i_ino i) DT_DIR 0; Dent dotdot (i_dir_parent i) DT_DIR 1].
Definition short n p (out : list dent) : Prop := p < 2 /\ Z.of_nat n < Z.of_nat (length out) + (2 - p).
Lemma iterate_pages_stop n ps (ctx : toyfs_dir_context (R := list dent)) : iterate_pages (room_for n) ps false ctx = mret (bool_decide (ps <> []), ctx).
Proof. by destruct ps. Qed.
Lemma wp_iterate_short s X d ps ls i zii p (out : list dent) n (Q : bool * toyfs_dir_context -> toyfs_sb_info -> Prop) :
  dir_ok s X d ps ls -> tii_of s zii d -> h_inode s !! d = Some i -> 0 <= p -> short n p out ->
  (forall out', seen <$> out' = (seen <$> out) ++ (seen <$> take (n - length out) (from_pos p (dots i))) ->
     Q (bool_decide (ps <> []), DirContext (p + Z.of_nat (n - length out) + 1) out') s) ->
  wp (_iterate_dir (room_for n) zii (DirContext p out)) s Q.
Proof.
  intros ((i'&Hi'&Hl&_)&_&_&Hp&_) Hz Hi Hpos [H2 Hroom] HQ. rewrite Hi in Hi'. injection Hi' as <-.
  rewrite /_iterate_dir. wp_step. eapply wp_ti; [exact Hz|]. wp_step. eapply wp_get_inode; [exact Hi|].
  wp_step. eapply wp_get_inode; [exact Hi|]. rewrite /toyfs_childs_list_of. do 2 wp_step.
  eapply wp_ti; [exact Hz|]. eapply wp_get_inode; [exact Hi|]. rewrite Hl. unfold _emit. cbn [pos ctx_out].
  assert (p = 0 \/ p = 1) as [-> | ->] by lia; cbn [Z.eqb fst snd pos ctx_out].
  - destruct (Nat.lt_ge_cases (length out) n) as [Hn|Hn].
    + rewrite room_yes //. cbn [fst snd pos ctx_out]. change (1 =? 1) with true. cbn [andb fst snd].
      rewrite room_no; [rewrite length_app /=; lia|]. cbn [fst snd pos ctx_out]. rewrite iterate_pages_stop. wp_step.
      replace (n - length out)%nat with 1%nat in HQ by lia. apply HQ. by rewrite fmap_app.
    + rewrite room_no //. cbn [fst snd pos ctx_out]. change (1 =? 1) with true. cbn [andb fst snd pos ctx_out]. rewrite iterate_pages_stop. wp_step.
      replace (n - length out)%nat with 0%nat in HQ by lia. apply HQ. by rewrite app_nil_r.
  - change (1 =? 1) with true. cbn [andb fst snd]. rewrite room_no; [lia|]. cbn [fst snd pos ctx_out]. rewrite iterate_pages_stop. wp_step.
    replace (n - length out)%nat with 0%nat in HQ by lia. apply HQ. by rewrite app_nil_r.
Qed.

(** C29: Reading a directory from a position changes nothing and answers the entries from
    there on, in the order of their offsets, as many as fit; the new position is that of
    the first one left out, so that the next call goes on with it, and "more" tells
    whether there is one.  Except where not even "." and ".." fit: then the first of them
    that does not is stepped over, and "more" only tells whether there are pages. *)
Theorem readdir_spec s X zii d ps ls i p n out :
  dir_ok s X d ps ls -> zii_of s zii d -> h_inode s !! d = Some i -> 0 <= p ->
  wp (toyfs_readdir (room_for n) zii p out) s (fun r s' => s' = s /\
    (short n p out -> r.1.2 = p + Z.of_nat (n - length out) + 1 /\ (r.1.1 = true <-> ps <> []) /\
      seen <$> r.2 = (seen <$> out) ++ (seen <$> take (n - length out) (from_pos p (dots i)))) /\
    (~ short n p out -> exists new (rest : list dent), from_pos p (listing i ls) = new ++ rest /\
      seen <$> r.2 = (seen <$> out) ++ (seen <$> new) /\
      from_pos r.1.2 (listing i ls) = rest /\ (r.1.1 = true <-> rest <> []) /\
      (rest <> [] -> length r.2 = Nat.max n (length out)))).
Proof.
  intros Hok Hz Hi Hp. rewrite /toyfs_readdir. wp_step. eapply wp_zii; [exact Hz|].
  rewrite /toyfs_iterate_dir. wp_step. assert (Hdec : short n p out \/ ~ short n p out) by (rewrite /short; lia). destruct Hdec as [Hs|Hroom].
  - eapply (wp_iterate_short s X d ps ls i); [exact Hok|by apply zii_tii|done..|]. intros out' Ho. wp_step. cbn [fst snd pos ctx_out].
    split; [done|]. split; [|done]. intros _. split; [done|]. split; [|done]. by rewrite bool_decide_eq_true.
  - eapply (wp_iterate_dir s X d ps ls i); [exact Hok|by apply zii_tii|done|done| |]; [rewrite /short in Hroom; cbn [pos ctx_out]; lia|].
    destruct (emit_list_room n (listing i ls) (DirContext p out)) as (new&rest&E1&E2&E3&E4&_&E6).
    { apply listing_sorted, Hok. }
    cbn [pos ctx_out] in *. wp_step. cbn [fst snd]. split; [done|]. split; [done|]. intros _. exists new, rest. split_and!; try done.
    destruct (emit_list (room_for n) (listing i ls) (DirContext p out)).1; naive_solver.
Qed.

(** When there is no room for "." the position still moves past it (and an empty
    directory reports that nothing is left): the entry is lost to the caller. *)
Theorem readdir_loses_dot s X zii d ps ls i n out :
  dir_ok s X d ps ls -> zii_of s zii d -> h_inode s !! d = Some i -> (n <= length out)%nat ->
  wp (toyfs_readdir (room_for n) zii 0 out) s (fun r s' => s' = s /\ r.2 = out /\
    r.1.2 = 1 /\ (r.1.1 = true <-> ps <> [])).
Proof.
  intros ((i'&Hi'&Hl&_)&_&_&Hp&_) Hz Hi Hn. rewrite Hi in Hi'. injection Hi' as <-.
  rewrite /toyfs_readdir. wp_step. eapply wp_zii; [exact Hz|]. apply zii_tii in Hz.
  rewrite /toyfs_iterate_dir /_iterate_dir. do 2 wp_step. eapply wp_ti; [exact Hz|]. wp_step. eapply wp_get_inode; [exact Hi|].
  wp_step. eapply wp_get_inode; [exact Hi|]. rewrite /toyfs_childs_list_of. do 2 wp_step.
  eapply wp_ti; [exact Hz|]. eapply wp_get_inode; [exact Hi|]. rewrite Hl. unfold _emit. cbn [pos ctx_out Z.eqb].
  rewrite room_no //. cbn [fst snd pos ctx_out]. change (1 =? 1) with true. cbn [andb].
  destruct ps as [|q ps]; cbn [iterate_pages fst snd]; do 2 wp_step; by split_and!.
Qed.
End listing.

Section witnesses.
#[local] Existing Instance example_md.
#[local] Opaque ds_named.

(** With room for five entries, and with room for one, from the start: ".." is lost. *)
Lemma readdir_spec_witness :
  wp (toyfs_readdir (room_for 5) 3 0 []) ds_named (fun r s' => s' = ds_named /\ exists new (rest : list dent),
    seen <$> r.2 = seen <$> new /\ (rest = [] -> r.1.1 = false)) /\
  wp (toyfs_readdir (room_for 1) 3 0 []) ds_named (fun r s' => r.1.2 = 2 /\ length (seen <$> r.2) = 1%nat).
Proof.
  destruct ds_named_ok as (X&ps&ls&_&Hd&_). pose proof Hd as ((i&Hi&_)&_). split.
  - eapply wp_mono; [eapply (readdir_spec ds_named X 3 dir1 ps ls i 0 5 []);
      [exact Hd|eapply reg_zii, ds_named_facts|exact Hi|lia]|].
    intros r s' (Hs&_&Hr). destruct Hr as (new&rest&_&H1&_&H2&_); [intros [_ Hx]; cbn in Hx; lia|]. split; [exact Hs|]. exists new, rest. split; [exact H1|].
    intros Hr. destruct (r.1.1); [exfalso; exact (proj1 H2 eq_refl Hr)|reflexivity].
  - eapply wp_mono; [eapply (readdir_spec ds_named X 3 dir1 ps ls i 0 1 []);
      [exact Hd|eapply reg_zii, ds_named_facts|exact Hi|lia]|].
    intros r s' (_&Hr&_). destruct Hr as (H1&_&H2); [split; [lia|cbn; lia]|]. split; [exact H1|]. rewrite H2. reflexivity.
Defined.
Lemma readdir_loses_dot_witness :
  wp (toyfs_readdir (room_for 0) 3 0 []) ds_named (fun r s' => r.2 = [] /\ r.1.2 = 1).
Proof.
  destruct ds_named_ok as (X&ps&ls&_&Hd&_). pose proof Hd as ((i&Hi&_)&_).
  eapply wp_mono; [eapply (readdir_loses_dot ds_named X 3 dir1 ps ls i 0 []);
    [exact Hd|eapply reg_zii, ds_named_facts|exact Hi|simpl; lia]|].
  intros r s' (_&H1&H2&_). split; [exact H1|exact H2].
Defined.
End witnesses.
