(* ===== verification/Xattr.v ===== *)
(** * Extended attributes: fs/toyfs/xattr.c

    An inode keeps its attributes in one page: entries of a value size (2 bytes), a
    name length (1 byte), the name and the value, one after the other.  A [struct
    toyfs_xattr_entry *] is a byte offset into the page; an access outside of the page
    aborts. *)

From S2P Require Import Prelude Bytes State Pool File DirPage.

(** ** Bytes of the page *)
(** [xattr->xe + ARRAY_SIZE(xattr->xe)]: 1024 entries of 4 bytes. *)
Definition XE_END : Z := PAGE_SIZE.
Definition XE_DATA : Z := 3.
Definition bytes_at (dat : list Z) (o n : Z) : option (list Z) :=
  if (0 <=? o) && (0 <=? n) && (o + n <=? PAGE_SIZE) then Some (slice (Z.to_nat o) (Z.to_nat n) dat) else None.
Definition bytes_put (o : Z) (src dat : list Z) : option (list Z) :=
  if (0 <=? o) && (o + Z.of_nat (length src) <=? PAGE_SIZE) then Some (blit dat (Z.to_nat o) src) else None.
Definition value_size (dat : list Z) (xe : Z) : option Z := le_val <$> bytes_at dat xe 2.
Definition name_len (dat : list Z) (xe : Z) : option Z := le_val <$> bytes_at dat (xe + 2) 1.

Definition _has_data (dat : list Z) (xe : Z) : option bool := n ← name_len dat xe; Some (0 <? n).
(** [name] is the string of [name_len] bytes. *)
Definition _has_name (dat : list Z) (xe : Z) (name : list Z) : option bool :=
  n ← name_len dat xe;
  if negb (n =? Z.of_nat (length name)) then Some false else
  d ← bytes_at dat (xe + XE_DATA) n; Some (bool_decide (d = name)).
Definition _next_of (dat : list Z) (xe : Z) : option Z :=
  n ← name_len dat xe; v ← value_size dat xe; Some (xe + n + v).
(** -ERANGE, or the value. *)
Definition _copy_value_to_buf (dat : list Z) (xe size : Z) : option (Z + list Z) :=
  n ← name_len dat xe; v ← value_size dat xe;
  if size <? v then Some (inl (- ERANGE)) else
  b ← bytes_at dat (xe + XE_DATA + n) v; Some (inr b).

(** The loops over the entries.  Every round moves on by at least one byte, so the size
    of the page is fuel enough ([find_xe_fuel] and [end_xe_fuel] of XattrSpec.v). *)
Definition XE_FUEL : nat := Z.to_nat (PAGE_SIZE + 1).
Fixpoint find_xe (fuel : nat) (dat : list Z) (xe : Z) (name : list Z) : option (option Z) :=
  match fuel with
  | O => None
  | S k =>
    if XE_END <=? xe then Some None else
    d ← _has_data dat xe;
    if negb d then Some None else
    h ← _has_name dat xe name;
    if h : bool then Some (Some xe) else next ← _next_of dat xe; find_xe k dat next name
  end.
Fixpoint end_xe (fuel : nat) (dat : list Z) (xe : Z) : option Z :=
  match fuel with
  | O => None
  | S k =>
    if XE_END <=? xe then Some xe else
    d ← _has_data dat xe;
    if negb d then Some xe else next ← _next_of dat xe; end_xe k dat next
  end.
(** A [size_t]. *)
Definition _nbytes_distance (beg end_ : Z) : Z := u64 (end_ - beg).
(** [memcpy] of bytes that overlap, which copies forward. *)
Definition discard_xattr (dat : list Z) (xe : Z) : option (list Z) :=
  next ← _next_of dat xe;
  src ← bytes_at dat next (_nbytes_distance next XE_END);
  bytes_put xe src dat.
(** -ENOSPC, or the page with the entry. *)
Definition append_xattr (dat name value : list Z) : option (Z + list Z) :=
  xe ← end_xe XE_FUEL dat 0;
  if _nbytes_distance xe XE_END <? Z.of_nat (length name) + Z.of_nat (length value) then Some (inl (- ENOSPC)) else
  dat ← bytes_put (xe + XE_DATA) name dat;
  dat ← bytes_put (xe + XE_DATA + Z.of_nat (length name)) value dat;
  dat ← bytes_put (xe + 2) (le_bytes 1 (Z.of_nat (length name))) dat;
  dat ← bytes_put xe (le_bytes 2 (Z.of_nat (length value))) dat;
  Some (inr dat).
(** One round of [_do_listxattr] per entry: the names, each with its NUL.  [room] is what
    is left of a buffer that was not of size 0, [ret] the bytes so far. *)
Fixpoint list_xe (fuel : nat) (dat : list Z) (xe size : Z) (out : list Z) (ret : Z) : option (Z * list Z) :=
  match fuel with
  | O => None
  | S k =>
    if XE_END <=? xe then Some (ret, out) else
    d ← _has_data dat xe;
    if negb d then Some (ret, out) else
    n ← name_len dat xe;
    if negb (size =? 0) && (size <=? n) then Some (- ERANGE, out) else
    name ← bytes_at dat (xe + XE_DATA) n;
    next ← _next_of dat xe;
    if size =? 0 then list_xe k dat next size out (ret + n + 1)
    else list_xe k dat next (size - (n + 1)) (out ++ name ++ [0]) (ret + n + 1)
  end.

(** ** Operations *)
(** struct zufs_ioc_xattr (zus_api.h), the fields toyfs uses; [x_out_len] is
    [hdr.out_len]. *)
Record zufs_ioc_xattr := ZufsIocXattr {
  x_buf : list Z;
  user_buf_size : Z;
  x_flags : Z;
  ioc_flags : Z;
  x_name_len : Z;
  x_out_len : Z }.
Class XattrApi : Type := { ZUFS_XATTR_SET_EMPTY : Z }.
Definition XATTR_CREATE : Z := 1.
Definition XATTR_REPLACE : Z := 2.
(** The string that starts at the head of a buffer: no NUL, no string. *)
Fixpoint c_string (b : list Z) : option (list Z) :=
  match b with [] => None | c :: b' => if c =? 0 then Some [] else cons c <$> c_string b' end.
(** [memcpy] into the buffer: it must have the room. *)
Definition fill (src buf : list Z) : option (list Z) :=
  if (length src <=? length buf)%nat then Some (src ++ drop (length src) buf) else None.

Section xattr.
Context `{MdApi} `{XattrApi}.

Definition _has_xattr (tii : Z) : FS bool :=
  p ← tii_ti tii; x ← get_inode p i_xattr; mret (negb (x =? 0)).
Definition _require_xattr (tii : Z) : FS Z :=
  p ← tii_ti tii;
  has ← _has_xattr tii;
  if has : bool then mret 0 else
  pmemb ← toyfs_acquire_pmemb;
  match pmemb with
  | None => mret (- ENOSPC)
  | Some a => set_inode p (upd_i_xattr (fun _ => toyfs_addr2bn a));; mret 0
  end.
Definition _xattr_of (tii : Z) : FS Z := p ← tii_ti tii; x ← get_inode p i_xattr; mret (toyfs_bn2addr x).
(** Read the page, and write it back. *)
Definition on_xattr {A} (tii : Z) (f : list Z -> option A) : FS A :=
  a ← _xattr_of tii; dat ← load_pmemb a; of_option (f dat).

Definition _find_xe (tii : Z) (name : list Z) : FS (option Z) := on_xattr tii (fun dat => find_xe XE_FUEL dat 0 name).
Definition _do_getxattr (tii : Z) (name : list Z) (size : Z) : FS (Z + list Z) :=
  xe ← _find_xe tii name;
  match xe with
  | None => mret (inl (- ENODATA))
  | Some xe => on_xattr tii (fun dat => _copy_value_to_buf dat xe size)
  end.
Definition toyfs_getxattr (zii : Z) (ioc : zufs_ioc_xattr) : FS (Z * zufs_ioc_xattr) :=
  tii ← toyfs_zii_to_tii zii;
  has ← _has_xattr tii;
  if negb has then mret (- ENODATA, ioc) else
  name ← of_option (c_string (x_buf ioc));
  r ← _do_getxattr tii name (user_buf_size ioc);
  match r with
  | inl err => mret (err, ioc)
  | inr v =>
    buf ← of_option (fill v (x_buf ioc));
    let size := Z.of_nat (length v) in
    let out := if negb (user_buf_size ioc =? 0) then x_out_len ioc + size else x_out_len ioc in
    mret (0, ZufsIocXattr buf size (x_flags ioc) (ioc_flags ioc) (x_name_len ioc) out)
  end.

Definition _discard_xattr (tii xe : Z) : FS Z :=
  a ← _xattr_of tii; dat ← load_pmemb a; dat' ← of_option (discard_xattr dat xe); store_pmemb a dat';; mret 0.
Definition _do_removexattr (tii : Z) (name : list Z) : FS Z :=
  xe ← _find_xe tii name;
  match xe with None => mret (- ENODATA) | Some xe => _discard_xattr tii xe end.
Definition _append_xattr (tii : Z) (name value : list Z) : FS Z :=
  a ← _xattr_of tii; dat ← load_pmemb a;
  r ← of_option (append_xattr dat name value);
  match r with inl err => mret err | inr dat' => store_pmemb a dat';; mret 0 end.
Definition _do_setxattr (tii : Z) (name value : list Z) (flags : Z) : FS Z :=
  xe ← _find_xe tii name;
  if negb (Z.land flags XATTR_CREATE =? 0) && bool_decide (is_Some xe) then mret (- EEXIST) else
  if negb (Z.land flags XATTR_REPLACE =? 0) && bool_decide (xe = None) then mret (- ENODATA) else
  _do_removexattr tii name;;
  _append_xattr tii name value.
(** The [size] bytes from [o] of a buffer. *)
Definition buf_at (b : list Z) (o n : Z) : option (list Z) :=
  if (0 <=? o) && (0 <=? n) && (o + n <=? Z.of_nat (length b)) then Some (slice (Z.to_nat o) (Z.to_nat n) b) else None.
Definition toyfs_setxattr (zii : Z) (ioc : zufs_ioc_xattr) : FS Z :=
  tii ← toyfs_zii_to_tii zii;
  err ← _require_xattr tii;
  if negb (err =? 0) then mret err else
  name ← of_option (c_string (x_buf ioc));
  if negb (negb (user_buf_size ioc =? 0) || negb (Z.land (ioc_flags ioc) ZUFS_XATTR_SET_EMPTY =? 0))
  then _do_removexattr tii name
  else value ← of_option (buf_at (x_buf ioc) (x_name_len ioc) (user_buf_size ioc));
       _do_setxattr tii name value (x_flags ioc).

Definition _do_listxattr (tii size : Z) : FS (Z * list Z) := on_xattr tii (fun dat => list_xe XE_FUEL dat 0 size [] 0).
Definition toyfs_listxattr (zii : Z) (ioc : zufs_ioc_xattr) : FS (Z * zufs_ioc_xattr) :=
  tii ← toyfs_zii_to_tii zii;
  has ← _has_xattr tii;
  if negb has then mret (- ENODATA, ioc) else
  r ← _do_listxattr tii (user_buf_size ioc);
  buf ← of_option (fill r.2 (x_buf ioc));
  if r.1 <? 0 then mret (r.1, ZufsIocXattr buf (user_buf_size ioc) (x_flags ioc) (ioc_flags ioc) (x_name_len ioc) (x_out_len ioc)) else
  let out := if negb (user_buf_size ioc =? 0) then x_out_len ioc + r.1 else x_out_len ioc in
  mret (0, ZufsIocXattr buf r.1 (x_flags ioc) (ioc_flags ioc) (x_name_len ioc) out).

Definition toyfs_drop_xattr (tii : Z) : FS unit :=
  p ← tii_ti tii;
  has ← _has_xattr tii;
  if has : bool then
    x ← get_inode p i_xattr;
    toyfs_release_pmemb (toyfs_bn2pmemb x);;
    set_inode p (upd_i_xattr (fun _ => 0))
  else mret tt.
End xattr.
