(* ===== verification/XattrSpec.v ===== *)
(** * What the extended attributes of toyfs keep

    A page with one attribute gives it back; a second one overwrites the end of the
    first, because [_next_of] forgets the 3 bytes of the header. *)

From S2P Require Import Prelude Bytes State Pool File FileInv FileSpec FileOps FileClaims DirPage Pages DirSpec DirOps DirClaims Xattr.

(** ** Bytes *)
Lemma bytes_at_app a b c o n : o = Z.of_nat (length a) -> n = Z.of_nat (length b) -> length (a ++ b ++ c) = 4096%nat ->
  bytes_at (a ++ b ++ c) o n = Some b.
Proof.
  rewrite !length_app. intros -> -> Hl. rewrite /bytes_at. destruct (Z.leb_spec 0 (Z.of_nat (length a))); [|lia].
  destruct (Z.leb_spec 0 (Z.of_nat (length b))); [|lia]. cbn [andb].
  destruct (Z.leb_spec (Z.of_nat (length a) + Z.of_nat (length b)) PAGE_SIZE); [|lia].
  by rewrite !Nat2Z.id slice_app_at // take_app_length.
Qed.
Lemma bytes_put_app a b c o src : o = Z.of_nat (length a) -> length src = length b -> length (a ++ b ++ c) = 4096%nat ->
  bytes_put o src (a ++ b ++ c) = Some (a ++ src ++ c).
Proof.
  rewrite !length_app. intros -> Hs Hl. rewrite /bytes_put Hs. destruct (Z.leb_spec 0 (Z.of_nat (length a))); [|lia]. cbn [andb].
  destruct (Z.leb_spec (Z.of_nat (length a) + Z.of_nat (length b)) PAGE_SIZE); [|lia]. by rewrite Nat2Z.id blit_mid.
Qed.
Lemma bytes_put_out o src dat : PAGE_SIZE < o + Z.of_nat (length src) -> bytes_put o src dat = None.
Proof. intros Ho. rewrite /bytes_put. destruct (Z.leb_spec (o + Z.of_nat (length src)) PAGE_SIZE); [lia|]. by rewrite andb_false_r. Qed.

Lemma le_val_2 x : 0 <= x < 65536 -> le_val (le_bytes 2 x) = x.
Proof. intros Hx. by rewrite le_val_small. Qed.
Lemma le_val_1 x : 0 <= x < 256 -> le_val (le_bytes 1 x) = x.
Proof. intros Hx. by rewrite le_val_small. Qed.

(** An entry, and its fields where it lies in the page. *)
Definition entry (name value : list Z) : list Z :=
  le_bytes 2 (Z.of_nat (length value)) ++ le_bytes 1 (Z.of_nat (length name)) ++ name ++ value.
Definition entry_fits (name value : list Z) : Prop :=
  0 < Z.of_nat (length name) < 256 /\ Z.of_nat (length value) < 65536.
Lemma entry_length name value : length (entry name value) = (3 + length name + length value)%nat.
Proof. rewrite /entry !length_app !le_bytes_length. lia. Qed.
Section entry.
Variables (a c name value : list Z).
Hypothesis Hfit : entry_fits name value.
Hypothesis Hlen : length (a ++ entry name value ++ c) = 4096%nat.
Let dat : list Z := a ++ entry name value ++ c.
Let xe : Z := Z.of_nat (length a).

Lemma entry_value_size : value_size dat xe = Some (Z.of_nat (length value)).
Proof.
  rewrite /value_size /dat /entry -!app_assoc. rewrite (bytes_at_app a (le_bytes 2 (Z.of_nat (length value)))); [done|done| |].
  - rewrite -Hlen /entry. by rewrite -!app_assoc.
  - cbn [fmap option_fmap option_map]. by rewrite le_val_2; [destruct Hfit; lia|].
Qed.
Lemma entry_name_len : name_len dat xe = Some (Z.of_nat (length name)).
Proof.
  rewrite /name_len /dat /entry -!app_assoc. rewrite (app_assoc a).
  rewrite (bytes_at_app _ (le_bytes 1 (Z.of_nat (length name)))); [by rewrite length_app le_bytes_length /xe; lia|done| |].
  - rewrite -Hlen /entry. by rewrite -!app_assoc.
  - cbn [fmap option_fmap option_map]. by rewrite le_val_1; [destruct Hfit; lia|].
Qed.
Lemma entry_name_at : bytes_at dat (xe + XE_DATA) (Z.of_nat (length name)) = Some name.
Proof.
  rewrite /dat /entry -!app_assoc. rewrite (app_assoc (le_bytes 2 _)) (app_assoc a).
  apply bytes_at_app; [by rewrite !length_app !le_bytes_length /xe /XE_DATA; lia|done|].
  rewrite -Hlen /entry. by rewrite -!app_assoc.
Qed.
Lemma entry_value_at : bytes_at dat (xe + XE_DATA + Z.of_nat (length name)) (Z.of_nat (length value)) = Some value.
Proof.
  rewrite /dat /entry -!app_assoc. rewrite (app_assoc (le_bytes 1 _)) (app_assoc (le_bytes 2 _)) (app_assoc a).
  apply bytes_at_app; [by rewrite !length_app !le_bytes_length /xe /XE_DATA; lia|done|].
  rewrite -Hlen /entry. by rewrite -!app_assoc.
Qed.
Lemma entry_found fuel : xe < XE_END -> find_xe (S fuel) dat xe name = Some (Some xe).
Proof.
  intros Hx. cbn [find_xe]. destruct (Z.leb_spec XE_END xe); [lia|]. rewrite /_has_data entry_name_len. cbn [mbind option_bind].
  destruct (Z.ltb_spec 0 (Z.of_nat (length name))); [|destruct Hfit; lia]. cbn [negb].
  rewrite /_has_name entry_name_len. cbn [mbind option_bind]. rewrite Z.eqb_refl. cbn [negb]. rewrite entry_name_at. cbn [mbind option_bind].
  by rewrite bool_decide_eq_true_2.
Qed.
Lemma entry_next : _next_of dat xe = Some (xe + Z.of_nat (length name) + Z.of_nat (length value)).
Proof. by rewrite /_next_of entry_name_len entry_value_size. Qed.
Lemma entry_copy size : _copy_value_to_buf dat xe size =
  Some (if size <? Z.of_nat (length value) then inl (- ERANGE) else inr value).
Proof.
  rewrite /_copy_value_to_buf entry_name_len entry_value_size. cbn [mbind option_bind]. case_match; [done|]. by rewrite entry_value_at.
Qed.
End entry.

(** The first entry of a page. *)
Lemma XE_FUEL_S : XE_FUEL = S (Z.to_nat PAGE_SIZE).
Proof. reflexivity. Qed.
Lemma first_found c name value : entry_fits name value -> length (entry name value ++ c) = 4096%nat ->
  find_xe XE_FUEL (entry name value ++ c) 0 name = Some (Some 0).
Proof. intros Hf Hl. rewrite XE_FUEL_S. by apply (entry_found [] c name value Hf Hl). Qed.
Lemma first_copy c name value size : entry_fits name value -> length (entry name value ++ c) = 4096%nat ->
  _copy_value_to_buf (entry name value ++ c) 0 size = Some (if size <? Z.of_nat (length value) then inl (- ERANGE) else inr value).
Proof. intros Hf Hl. by apply (entry_copy [] c name value Hf Hl). Qed.
#[local] Opaque XE_FUEL.

(** ** A page without attributes, and one with one *)
Lemma zeros_app n m : zeros (n + m) = zeros n ++ zeros m.
Proof. apply replicate_add. Qed.
Lemma zeros_split o n : 0 <= o -> 0 <= n -> o + n <= PAGE_SIZE ->
  zeros 4096 = zeros (Z.to_nat o) ++ zeros (Z.to_nat n) ++ zeros (Z.to_nat (PAGE_SIZE - o - n)).
Proof. intros. rewrite -!zeros_app. f_equal. lia. Qed.
(** The entry at [xe] is the end: its name length is 0. *)
Lemma no_entry fuel a b0 b1 c name : let dat := a ++ [b0; b1; 0] ++ c in
  length dat = 4096%nat ->
  find_xe (S fuel) dat (Z.of_nat (length a)) name = Some None /\ end_xe (S fuel) dat (Z.of_nat (length a)) = Some (Z.of_nat (length a)).
Proof.
  intros dat Hl. assert (Hd : _has_data dat (Z.of_nat (length a)) = Some false).
  { rewrite /_has_data /name_len /dat. change ([b0; b1; 0] ++ c) with ([b0; b1] ++ [0] ++ c). rewrite app_assoc.
    rewrite bytes_at_app; [rewrite length_app /=; lia|done|rewrite -Hl /dat; by rewrite -app_assoc|done]. }
  cbn [find_xe end_xe]. rewrite Hd. cbn [mbind option_bind negb]. by destruct (XE_END <=? _).
Qed.
Lemma zeros_no_entry name : find_xe XE_FUEL (zeros 4096) 0 name = Some None /\ end_xe XE_FUEL (zeros 4096) 0 = Some 0.
Proof.
  rewrite XE_FUEL_S. apply (no_entry (Z.to_nat PAGE_SIZE) [] 0 0 (zeros 4093)). by rewrite !length_app length_replicate.
Qed.

(** Appending where the entries end: the entry; -ENOSPC for want of room; or, the
    header forgotten, a write past the end of the page. *)
Lemma append_room a c name value : entry_fits name value ->
  let dat := a ++ c in length dat = 4096%nat -> end_xe XE_FUEL dat 0 = Some (Z.of_nat (length a)) ->
  (length (entry name value) <= length c)%nat ->
  append_xattr dat name value = Some (inr (a ++ entry name value ++ drop (length (entry name value)) c)).
Proof.
  intros Hf dat Hl Hend Hroom. subst dat. rewrite /append_xattr Hend. cbn [mbind option_bind]. rewrite entry_length in Hroom |- *.
  assert (Hla : (length a + length c = 4096)%nat) by (by rewrite -length_app).
  rewrite /_nbytes_distance u64_small; [rewrite /XE_END; lia|]. destruct (Z.ltb_spec (XE_END - Z.of_nat (length a)) (Z.of_nat (length name) + Z.of_nat (length value))); [unfold XE_END in *; lia|].
  remember (drop (3 + length name + length value) c) as z eqn:Ez.
  assert (Hc : exists h0 h1 h2 c1 c2, c = [h0; h1; h2] ++ c1 ++ c2 ++ z /\ length c1 = length name /\ length c2 = length value).
  { destruct c as [|h0 [|h1 [|h2 c3]]]; [cbn in Hroom; lia..|]. exists h0, h1, h2, (take (length name) c3), (take (length value) (drop (length name) c3)).
    cbn [length] in Hroom. split; [|rewrite !length_take length_drop; lia]. cbn [app]. do 3 f_equal.
    rewrite Ez. change (3 + length name + length value)%nat with (S (S (S (length name + length value)))). cbn [drop]. rewrite -drop_drop.
    by rewrite !take_drop. }
  clear Ez. destruct Hc as (h0&h1&h2&c1&c2&->&E1&E2).
  assert (L : forall x1 x2 x3 x4 x5 : list Z, length x1 = 1%nat -> length x2 = 1%nat -> length x3 = 1%nat -> length x4 = length name -> length x5 = length value ->
    length (a ++ x1 ++ x2 ++ x3 ++ x4 ++ x5 ++ z) = 4096%nat).
  { intros. rewrite !length_app. rewrite !length_app /= in Hl. lia. }
  change ([h0; h1; h2] ++ c1 ++ c2 ++ z) with ([h0; h1; h2] ++ (c1 ++ c2 ++ z)). rewrite (app_assoc a).
  rewrite (bytes_put_app (a ++ [h0; h1; h2]) c1 (c2 ++ z)); [rewrite length_app /XE_DATA /=; lia|done|rewrite -app_assoc; by apply (L [h0] [h1] [h2])|].
  cbn [mbind option_bind]. rewrite (app_assoc _ name).
  rewrite (bytes_put_app ((a ++ [h0; h1; h2]) ++ name) c2 z); [rewrite !length_app /XE_DATA /=; lia|done|rewrite -!app_assoc; by apply (L [h0] [h1] [h2])|].
  cbn [mbind option_bind].
  replace (((a ++ [h0; h1; h2]) ++ name) ++ value ++ z) with ((a ++ [h0; h1]) ++ [h2] ++ (name ++ value ++ z)) by (by rewrite -!app_assoc).
  rewrite bytes_put_app; [rewrite length_app /=; lia|by rewrite le_bytes_length|rewrite -app_assoc; by apply (L [h0] [h1] [h2])|]. cbn [mbind option_bind].
  replace ((a ++ [h0; h1]) ++ le_bytes 1 (Z.of_nat (length name)) ++ name ++ value ++ z)
    with (a ++ [h0; h1] ++ (le_bytes 1 (Z.of_nat (length name)) ++ name ++ value ++ z)) by (by rewrite -!app_assoc).
  rewrite bytes_put_app; [done|by rewrite le_bytes_length| |].
  { change [h0; h1] with ([h0] ++ [h1]). rewrite -app_assoc. by apply L; rewrite ?le_bytes_length. }
  cbn [mbind option_bind]. rewrite /entry. by rewrite -!app_assoc.
Qed.
Lemma append_full name value :
  Z.of_nat (length name) + Z.of_nat (length value) > 4093 ->
  append_xattr (zeros 4096) name value =
    if PAGE_SIZE <? Z.of_nat (length name) + Z.of_nat (length value) then Some (inl (- ENOSPC)) else None.
Proof.
  intros Hl. rewrite /append_xattr (proj2 (zeros_no_entry [])). cbn [mbind option_bind]. rewrite /_nbytes_distance u64_small; [done|].
  change (XE_END - 0) with PAGE_SIZE. case_match; [done|].
  destruct (bytes_put (0 + XE_DATA) name (zeros 4096)); [|done]. cbn [mbind option_bind]. rewrite bytes_put_out; [rewrite /XE_DATA; lia|done].
Qed.

(** Past an entry of another name. *)
Lemma entry_skip fuel a c name value name' : entry_fits name value -> name' <> name ->
  let dat := a ++ entry name value ++ c in let xe := Z.of_nat (length a) in
  length dat = 4096%nat -> xe < XE_END ->
  let next := xe + Z.of_nat (length name) + Z.of_nat (length value) in
  find_xe (S fuel) dat xe name' = find_xe fuel dat next name' /\ end_xe (S fuel) dat xe = end_xe fuel dat next.
Proof.
  intros Hf Hne dat xe Hl Hx next. cbn [find_xe end_xe]. destruct (Z.leb_spec XE_END xe); [lia|].
  rewrite /_has_data entry_name_len //. cbn [mbind option_bind]. destruct (Z.ltb_spec 0 (Z.of_nat (length name))); [|destruct Hf; lia]. cbn [negb].
  rewrite entry_next //. cbn [mbind option_bind]. split; [|done]. rewrite /_has_name entry_name_len //. cbn [mbind option_bind].
  destruct (Z.eqb_spec (Z.of_nat (length name)) (Z.of_nat (length name'))) as [E|]; cbn [negb]; [|done].
  rewrite entry_name_at //. cbn [mbind option_bind]. rewrite bool_decide_eq_false_2; [congruence|done].
Qed.

(** ** A second attribute

    The value of the first ends in a NUL: the walk takes its last 3 bytes for the
    header of the end. *)
Lemma second_entry n1 w b0 b1 n2 v2 k : entry_fits n1 (w ++ [b0; b1; 0]) -> entry_fits n2 v2 -> n2 <> n1 ->
  let dat := entry n1 (w ++ [b0; b1; 0]) ++ zeros k in length dat = 4096%nat ->
  (length n2 + length v2 <= k)%nat ->
  find_xe XE_FUEL dat 0 n2 = Some None /\
  append_xattr dat n2 v2 = Some (inr (entry n1 (w ++ le_bytes 2 (Z.of_nat (length v2)) ++ le_bytes 1 (Z.of_nat (length n2))) ++
    n2 ++ v2 ++ zeros (k - length n2 - length v2))).
Proof.
  intros H1 H2 Hne dat Hl Hk.
  set (a := le_bytes 2 (Z.of_nat (length (w ++ [b0; b1; 0]))) ++ le_bytes 1 (Z.of_nat (length n1)) ++ n1 ++ w).
  assert (Ea : dat = a ++ [b0; b1; 0] ++ zeros k) by (by rewrite /dat /entry /a -!app_assoc).
  assert (La : Z.of_nat (length a) = 0 + Z.of_nat (length n1) + Z.of_nat (length (w ++ [b0; b1; 0]))).
  { rewrite /a !length_app !le_bytes_length /=. lia. }
  destruct (entry_skip (Z.to_nat PAGE_SIZE) [] (zeros k) n1 (w ++ [b0; b1; 0]) n2) as [F1 F2]; [done..|].
  cbn [app length Z.of_nat] in F1, F2. rewrite -XE_FUEL_S in F1 F2. fold dat in F1, F2.
  destruct (no_entry (Z.to_nat (PAGE_SIZE - 1)) a b0 b1 (zeros k) n2) as [N1 N2]; [by rewrite -Ea|]. rewrite -Ea La in N1 N2.
  change (S (Z.to_nat (PAGE_SIZE - 1))) with (Z.to_nat PAGE_SIZE) in N1, N2. split; [by rewrite F1|].
  rewrite Ea. rewrite (append_room a); [done|by rewrite -Ea|by rewrite -Ea F2 N2 La| |].
  - rewrite entry_length length_app length_replicate /=. lia.
  - assert (El : length (w ++ [b0; b1; 0]) = length (w ++ le_bytes 2 (Z.of_nat (length v2)) ++ le_bytes 1 (Z.of_nat (length n2)))).
    { rewrite !length_app !le_bytes_length. done. }
    rewrite entry_length /entry /a El -!app_assoc. do 2 f_equal. do 8 apply (f_equal (app _)).
    change (3 + length n2 + length v2)%nat with (S (S (S (length n2 + length v2)))). cbn [drop app].
    rewrite /zeros drop_replicate. f_equal. lia.
Qed.

(** ** Requests *)
Definition set_req `{XattrApi} (ioc : zufs_ioc_xattr) (name value : list Z) : Prop :=
  x_buf ioc = name ++ 0 :: value /\ x_name_len ioc = Z.of_nat (length name) + 1 /\
  user_buf_size ioc = Z.of_nat (length value) /\
  (value <> [] \/ Z.land (ioc_flags ioc) ZUFS_XATTR_SET_EMPTY <> 0).
Definition get_req (ioc : zufs_ioc_xattr) (name : list Z) : Prop := exists pad, x_buf ioc = name ++ 0 :: pad.
Lemma c_string_app name b : 0 ∉ name -> c_string (name ++ 0 :: b) = Some name.
Proof.
  induction name as [|c name IH]; intros Hn; [done|]. apply not_elem_of_cons in Hn as [Hc Hn]. cbn [app c_string].
  destruct (Z.eqb_spec c 0); [done|]. by rewrite IH.
Qed.
Lemma set_value `{XattrApi} ioc name value : set_req ioc name value ->
  buf_at (x_buf ioc) (x_name_len ioc) (user_buf_size ioc) = Some value.
Proof.
  intros (->&->&->&_). rewrite /buf_at length_app /=. destruct (Z.leb_spec 0 (Z.of_nat (length name) + 1)); [|lia].
  destruct (Z.leb_spec 0 (Z.of_nat (length value))); [|lia]. cbn [andb].
  destruct (Z.leb_spec (Z.of_nat (length name) + 1 + Z.of_nat (length value)) (Z.of_nat (length name + S (length value)))); [|lia].
  rewrite Nat2Z.id. replace (Z.to_nat (Z.of_nat (length name) + 1)) with (length name + 1)%nat by lia.
  rewrite slice_app_r. rewrite /slice /= drop_0. by rewrite firstn_all.
Qed.
Lemma set_wanted `{XattrApi} ioc name value : set_req ioc name value ->
  negb (user_buf_size ioc =? 0) || negb (Z.land (ioc_flags ioc) ZUFS_XATTR_SET_EMPTY =? 0) = true.
Proof.
  intros (_&_&->&[Hv|Hf]).
  - destruct value; [done|]. cbn [length]. by destruct (Z.eqb_spec (Z.of_nat (S (length value))) 0); [lia|].
  - destruct (Z.eqb_spec (Z.land (ioc_flags ioc) ZUFS_XATTR_SET_EMPTY) 0); [done|]. by rewrite orb_true_r.
Qed.

Section spec.
Context `{MdLaws} `{XattrApi}.
Implicit Types (F N X : gset Z).

(** The attributes of the inode behind [zii] are in the page [a]. *)
Definition xattr_page (s : toyfs_sb_info) X (zii p a : Z) (dat : list Z) : Prop :=
  zii_of s zii p /\ (exists i, h_inode s !! p = Some i /\ i_xattr i <> 0 /\ toyfs_bn2addr (i_xattr i) = a) /\
  a ∈ X /\ h_page s !! a = Some (Pmemb dat).

Lemma fs_inv_page_addr s F N X a : fs_inv s F N X -> a ∈ X -> page_addr a.
Proof.
  intros (A&I&(P&D&(_&fl&C&(_&_&Hpa&_)&_)&_&_&HX&_)&_) Ha. apply Hpa. right. left. by apply HX.
Qed.
Lemma wp_has_xattr s zii p i (Q : bool -> toyfs_sb_info -> Prop) :
  zii_of s zii p -> h_inode s !! p = Some i -> Q (negb (i_xattr i =? 0)) s -> wp (_has_xattr zii) s Q.
Proof.
  intros (t&Ht&Hti&_) Hi HQ. rewrite /_has_xattr. wp_step. eapply wp_tii_ti; [exact Ht|exact Hti|].
  wp_step. eapply wp_get_inode; [exact Hi|]. by wp_step.
Qed.
Lemma wp_has_page s X zii p a dat (Q : bool -> toyfs_sb_info -> Prop) :
  xattr_page s X zii p a dat -> Q true s -> wp (_has_xattr zii) s Q.
Proof.
  intros (Hz&(i&Hi&Hx&_)&_) HQ. eapply wp_has_xattr; [exact Hz|exact Hi|]. by destruct (Z.eqb_spec (i_xattr i) 0).
Qed.
Lemma wp_xattr_of s X zii p a dat (Q : Z -> toyfs_sb_info -> Prop) :
  xattr_page s X zii p a dat -> Q a s -> wp (_xattr_of zii) s Q.
Proof.
  intros ((t&Ht&Hti&_)&(i&Hi&Hx&<-)&_) HQ. rewrite /_xattr_of. wp_step. eapply wp_tii_ti; [exact Ht|exact Hti|].
  wp_step. eapply wp_get_inode; [exact Hi|]. by wp_step.
Qed.
Lemma wp_on_xattr {A} s X zii p a dat (f : list Z -> option A) r (Q : A -> toyfs_sb_info -> Prop) :
  xattr_page s X zii p a dat -> f dat = Some r -> Q r s -> wp (on_xattr zii f) s Q.
Proof.
  intros Hp Hf HQ. rewrite /on_xattr. wp_step. eapply wp_xattr_of; [exact Hp|]. wp_step.
  eapply wp_load_pmemb; [apply Hp|]. by rewrite Hf.
Qed.

(** The page is there, taken if need be. *)
Lemma wp_require_xattr s F N X zii p i (Q : Z -> toyfs_sb_info -> Prop) :
  fs_inv s F N X -> zii_of s zii p -> h_inode s !! p = Some i -> i_xattr i = 0 ->
  (forall s', fs_inv s' F N X -> ns_step s s' F X {[p]} [] -> h_inode s' = h_inode s -> free_le s' 0 -> Q (- ENOSPC) s') ->
  (forall a s', a ∉ X -> fs_inv s' F N ({[a]} ∪ X) -> ns_step s s' F X {[p]} [] ->
     xattr_page s' ({[a]} ∪ X) zii p a (zeros 4096) -> Q 0 s') ->
  wp (_require_xattr zii) s Q.
Proof.
  intros Hfs Hz Hi Hx HN HS. rewrite /_require_xattr. pose proof Hz as (t&Ht&Hti&_).
  wp_step. eapply wp_tii_ti; [exact Ht|exact Hti|]. wp_step. eapply wp_has_xattr; [exact Hz|exact Hi|]. rewrite Hx. cbn [Z.eqb negb].
  wp_step. assert (Hns : forall s1, x_step s s1 F -> h_inode s1 = h_inode s -> (forall q, q ∈ X -> h_page s1 !! q = h_page s !! q) ->
    ns_step s s1 F X {[p]} []).
  { intros s1 [R Hb] E Hpg. split_and!; [done|by rewrite E| |by intros; apply Hpg]. intros tj Hj. split; [by apply Hb|by rewrite /fsize /fmode E]. }
  apply (wp_acquire_x s F N X); [done| |].
  - intros s1 Hfs1 Hs1 Ei Ep Hfree. wp_step. apply HN; try done. apply Hns; [done|done|by rewrite Ep].
  - intros a s1 HaX Hfs1 Hs1 Ei Ep Hpos. pose proof (fs_inv_page_addr _ _ _ _ a Hfs1 ltac:(set_solver +)) as (n&Hn&Ea).
    assert (Ens : ns_step s s1 F X {[p]} []).
    { apply Hns; [done|done|]. intros q Hq. rewrite Ep lookup_insert_ne //. by intros ->. }
    wp_step. eapply (wp_set_attr s1 F N ({[a]} ∪ X) {[p]} [] p i); [done|by rewrite Ei|set_solver +|done..|].
    intros s2 Es2 Hfs2 Hns2. wp_step. apply (HS a); [done|done| |].
    + eapply ns_step_trans; [exact Ens|]. destruct Hns2 as (R2&N2&B2&P2). split_and!; try done. intros q Hq. apply P2. set_solver + Hq.
    + split_and!; [|exists (upd_i_xattr (fun _ => toyfs_addr2bn a) i)|set_solver +|].
      * destruct Hz as (t'&Hz). exists t'. rewrite Es2. fs_simpl. destruct Hs1 as [R _]. by rewrite (rest_tii _ _ R).
      * rewrite Es2. fs_simpl. rewrite lookup_insert_eq. split; [done|].
        cbn [i_xattr upd_i_xattr]. rewrite Ea /toyfs_bn2addr /toyfs_addr2bn md_bn_roundtrip; [lia|]. split; [lia|done].
      * rewrite Es2. fs_simpl. by rewrite Ep lookup_insert_eq.
Qed.
Lemma wp_require_page s X zii p a dat (Q : Z -> toyfs_sb_info -> Prop) :
  xattr_page s X zii p a dat -> Q 0 s -> wp (_require_xattr zii) s Q.
Proof.
  intros Hp HQ. pose proof Hp as ((t&Ht&Hti&_)&_). rewrite /_require_xattr. wp_step. eapply wp_tii_ti; [exact Ht|exact Hti|].
  wp_step. eapply wp_has_page; [exact Hp|]. by wp_step.
Qed.

(** Setting a name the page does not have. *)
Lemma wp_do_setxattr s F N X zii p a dat name value flags dat' (Q : Z -> toyfs_sb_info -> Prop) :
  fs_inv s F N X -> xattr_page s X zii p a dat -> find_xe XE_FUEL dat 0 name = Some None -> Z.land flags XATTR_REPLACE = 0 ->
  append_xattr dat name value = Some (inr dat') -> length dat' = 4096%nat ->
  (forall s', fs_inv s' F N X -> ns_step s s' F X {[p]} [a] -> xattr_page s' X zii p a dat' -> Q 0 s') ->
  wp (_do_setxattr zii name value flags) s Q.
Proof.
  intros Hfs Hp Hfind Hfl Happ Hl HQ. rewrite /_do_setxattr /_find_xe. wp_step. eapply wp_on_xattr; [exact Hp|exact Hfind|].
  rewrite bool_decide_eq_false_2; [by intros [? ?]|]. rewrite andb_false_r Hfl. cbn [Z.eqb negb andb].
  rewrite /_do_removexattr /_find_xe. wp_step. wp_step. eapply wp_on_xattr; [exact Hp|exact Hfind|]. wp_step.
  rewrite /_append_xattr. wp_step. eapply wp_xattr_of; [exact Hp|]. pose proof Hp as (Hz&Hi&Ha&Hpg).
  wp_step. eapply wp_load_pmemb; [exact Hpg|]. rewrite Happ. cbn [of_option]. do 2 wp_step. wp_step.
  rewrite /store_pmemb. eapply wp_update; [exact Hpg|]. wp_step.
  destruct (fs_inv_store_x s F N X a dat') as [Hfs' [HR Hb]]; [done..|]. apply HQ; [done| |].
  - split_and!; [done|done| |].
    + intros tj Hj. split; [by apply Hb|done].
    + intros q Hq Hqa. fs_simpl. rewrite lookup_insert_ne //. intros ->. apply Hqa. constructor.
  - split_and!; [done|done|done|]. fs_simpl. by rewrite lookup_insert_eq.
Qed.
Lemma wp_setxattr_page s F N X zii p a dat name value ioc dat' (Q : Z -> toyfs_sb_info -> Prop) :
  fs_inv s F N X -> xattr_page s X zii p a dat -> set_req ioc name value -> 0 ∉ name ->
  find_xe XE_FUEL dat 0 name = Some None -> Z.land (x_flags ioc) XATTR_REPLACE = 0 ->
  append_xattr dat name value = Some (inr dat') -> length dat' = 4096%nat ->
  (forall s', fs_inv s' F N X -> ns_step s s' F X {[p]} [a] -> xattr_page s' X zii p a dat' -> Q 0 s') ->
  wp (toyfs_setxattr zii ioc) s Q.
Proof.
  intros Hfs Hp Hreq Hnul Hfind Hfl Happ Hl HQ. rewrite /toyfs_setxattr. pose proof Hp as (Hz&_). wp_step. eapply wp_zii; [exact Hz|].
  wp_step. eapply wp_require_page; [exact Hp|]. cbn [Z.eqb negb].
  destruct Hreq as (Eb&Hreq). rewrite Eb c_string_app //. cbn [of_option]. do 2 wp_step. rewrite (set_wanted ioc name value) //. cbn [negb].
  rewrite -Eb. rewrite (set_value ioc name value) //. cbn [of_option]. do 2 wp_step. by eapply wp_do_setxattr.
Qed.
Lemma wp_getxattr s X zii p a dat name xe ioc (Q : Z * zufs_ioc_xattr -> toyfs_sb_info -> Prop) r :
  xattr_page s X zii p a dat -> get_req ioc name -> 0 ∉ name -> find_xe XE_FUEL dat 0 name = Some (Some xe) ->
  _copy_value_to_buf dat xe (user_buf_size ioc) = Some r ->
  match r with
  | inl err => Q (err, ioc) s
  | inr v => (length v <= length (x_buf ioc))%nat /\
      Q (0, ZufsIocXattr (v ++ drop (length v) (x_buf ioc)) (Z.of_nat (length v)) (x_flags ioc) (ioc_flags ioc) (x_name_len ioc)
              (if user_buf_size ioc =? 0 then x_out_len ioc else x_out_len ioc + Z.of_nat (length v))) s
  end -> wp (toyfs_getxattr zii ioc) s Q.
Proof.
  intros Hp (pad&Eb) Hnul Hfind Hcopy HQ. rewrite /toyfs_getxattr. pose proof Hp as (Hz&_). wp_step. eapply wp_zii; [exact Hz|].
  wp_step. eapply wp_has_page; [exact Hp|]. cbn [negb]. assert (Hc : c_string (x_buf ioc) = Some name) by (by rewrite Eb c_string_app). rewrite Hc. cbn [of_option]. do 2 wp_step.
  rewrite /_do_getxattr /_find_xe. wp_step. wp_step. eapply wp_on_xattr; [exact Hp|exact Hfind|]. eapply wp_on_xattr; [exact Hp|exact Hcopy|].
  destruct r as [err|v]; [by wp_step|]. destruct HQ as [Hv HQ]. rewrite /fill. destruct (Nat.leb_spec (length v) (length (x_buf ioc))); [|lia].
  cbn [of_option]. do 2 wp_step. wp_step. by destruct (user_buf_size ioc =? 0).
Qed.

(** C28: Setting the first attribute of an inode and getting it back: the value comes back
    whole, nothing else changes; the only failure is -ENOSPC when there is no page. *)
Theorem xattr_set_get s F N X zii p i name value ioc gioc :
  fs_inv s F N X -> zii_of s zii p -> h_inode s !! p = Some i -> i_xattr i = 0 ->
  entry_fits name value -> 0 ∉ name -> Z.of_nat (length name + length value) + XE_DATA <= PAGE_SIZE ->
  set_req ioc name value -> Z.land (x_flags ioc) XATTR_REPLACE = 0 ->
  get_req gioc name -> (length value <= length (x_buf gioc))%nat -> Z.of_nat (length value) <= user_buf_size gioc ->
  wp (r ← toyfs_setxattr zii ioc; g ← toyfs_getxattr zii gioc; mret (r, g)) s (fun rg s' =>
    (rg.1 = - ENOSPC /\ rg.2.1 = - ENODATA /\ fs_inv s' F N X /\ free_le s' 0) \/
    (rg.1 = 0 /\ rg.2.1 = 0 /\ user_buf_size rg.2.2 = Z.of_nat (length value) /\ take (length value) (x_buf rg.2.2) = value /\
     exists a, a ∉ X /\ fs_inv s' F N ({[a]} ∪ X) /\ ns_step s s' F X {[p]} [])).
Proof.
  intros Hfs Hz Hi Hx Hfit Hnul Hroom Hreq Hfl Hget Hbuf Hsize. wp_step. pose proof Hreq as (Eb&_).
  rewrite /toyfs_setxattr. wp_step. eapply wp_zii; [exact Hz|]. wp_step. eapply (wp_require_xattr s F N X); [done|done|exact Hi|done| |].
  - intros s1 Hfs1 (R&Hns1) Ei Hfree. change (negb (- ENOSPC =? 0)) with true. cbv iota. wp_step. wp_step.
    assert (Hz1 : zii_of s1 zii p) by (destruct Hz as (t&Hz); exists t; by rewrite (rest_tii _ _ R)).
    rewrite /toyfs_getxattr. wp_step. eapply wp_zii; [exact Hz1|]. wp_step. eapply wp_has_xattr; [exact Hz1|by rewrite Ei|]. rewrite Hx.
    cbn [Z.eqb negb]. do 2 wp_step. left. done.
  - intros a s1 Ha Hfs1 Hns1 Hp1. cbn [Z.eqb negb]. rewrite Eb c_string_app //. cbn [of_option]. do 2 wp_step.
    rewrite (set_wanted ioc name value) // -Eb (set_value ioc name value) //. cbn [negb of_option]. do 2 wp_step.
    pose proof (zeros_no_entry name) as [Hf He]. rewrite /XE_DATA in Hroom.
    assert (Happ : append_xattr (zeros 4096) name value = Some (inr (entry name value ++ zeros (4093 - length name - length value)))).
    { rewrite (append_room [] (zeros 4096)); [done|by rewrite length_replicate|done|rewrite entry_length length_replicate; lia|].
      rewrite app_nil_l. do 2 f_equal. apply (f_equal (app _)). rewrite entry_length /zeros drop_replicate. f_equal. lia. }
    assert (Hl : length (entry name value ++ zeros (4093 - length name - length value)) = 4096%nat)
      by (rewrite length_app entry_length length_replicate; lia).
    eapply (wp_do_setxattr s1 F N); [done|exact Hp1|exact Hf|done|exact Happ|done|]. intros s2 Hfs2 Hns2 Hp2. wp_step.
    eapply wp_getxattr; [exact Hp2|exact Hget|done|by apply first_found|by apply first_copy|].
    destruct (Z.ltb_spec (user_buf_size gioc) (Z.of_nat (length value))); [lia|]. split; [done|]. wp_step. right.
    cbn [fst snd user_buf_size x_buf]. rewrite take_app_length. split_and!; try done. exists a. split; [done|]. split; [done|].
    eapply ns_step_trans; [exact Hns1|]. destruct Hns2 as (R2&N2&B2&P2). split_and!; try done. intros q Hq _. apply P2; [set_solver + Hq|].
    intros ->%list_elem_of_singleton. done.
Qed.

(** Setting a second attribute answers success and destroys the first one: the last 3
    bytes of its value are now the header of the second. *)
Theorem second_xattr_clobbers_first s F N X zii p a n1 w b0 b1 k n2 v2 ioc gioc :
  fs_inv s F N X -> entry_fits n1 (w ++ [b0; b1; 0]) -> entry_fits n2 v2 -> n2 <> n1 -> 0 ∉ n1 -> 0 ∉ n2 ->
  xattr_page s X zii p a (entry n1 (w ++ [b0; b1; 0]) ++ zeros k) ->
  length (entry n1 (w ++ [b0; b1; 0]) ++ zeros k) = 4096%nat -> (length n2 + length v2 <= k)%nat ->
  set_req ioc n2 v2 -> Z.land (x_flags ioc) XATTR_REPLACE = 0 ->
  get_req gioc n1 -> (length w + 3 <= length (x_buf gioc))%nat -> Z.of_nat (length w) + 3 <= user_buf_size gioc ->
  wp (r ← toyfs_setxattr zii ioc; g ← toyfs_getxattr zii gioc; mret (r, g)) s (fun rg s' =>
    rg.1 = 0 /\ rg.2.1 = 0 /\ fs_inv s' F N X /\
    exists v, take (length w + 3) (x_buf rg.2.2) = v /\ v <> w ++ [b0; b1; 0] /\
      v = w ++ le_bytes 2 (Z.of_nat (length v2)) ++ le_bytes 1 (Z.of_nat (length n2))).
Proof.
  intros Hfs Hf1 Hf2 Hne Hn1 Hn2 Hp Hl Hk Hreq Hfl Hget Hbuf Hsize. destruct (second_entry n1 w b0 b1 n2 v2 k) as [Hfind Happ]; [done..|].
  set (v := w ++ le_bytes 2 (Z.of_nat (length v2)) ++ le_bytes 1 (Z.of_nat (length n2))) in *.
  assert (Lv : length v = (length w + 3)%nat) by (rewrite /v !length_app !le_bytes_length; lia).
  assert (H1v : entry_fits n1 v) by (destruct Hf1 as [? Hw]; rewrite length_app /= in Hw; split; [done|rewrite Lv; lia]).
  set (c := n2 ++ v2 ++ zeros (k - length n2 - length v2)) in *.
  assert (Hl2 : length (entry n1 v ++ c) = 4096%nat).
  { rewrite -Hl (length_app (entry n1 v)) (length_app (entry n1 _) (zeros k)) !entry_length /c !length_app !length_replicate !le_bytes_length /=. lia. }
  wp_step. eapply (wp_setxattr_page s F N); [done|exact Hp|exact Hreq|done|exact Hfind|done|exact Happ|done|].
  intros s1 Hfs1 Hns1 Hp1. wp_step.
  eapply wp_getxattr; [exact Hp1|exact Hget|done|by apply first_found|by apply first_copy|].
  destruct (Z.ltb_spec (user_buf_size gioc) (Z.of_nat (length v))); [lia|]. split; [lia|]. wp_step. cbn [fst snd x_buf].
  split_and!; try done. exists v. split; [by rewrite -Lv take_app_length|]. split; [|done].
  intros E%app_inv_head. apply (f_equal (fun l => last l)) in E.
  assert (Elast : last (le_bytes 2 (Z.of_nat (length v2)) ++ le_bytes 1 (Z.of_nat (length n2))) = Some (Z.of_nat (length n2) mod 256)) by done.
  rewrite Elast in E. cbn in E. injection E as E. destruct Hf2 as [Hf2 _]. rewrite Z.mod_small in E; lia.
Qed.

(** A name and value that fill the last 3 bytes of the page pass the check for room, but
    the entry does not fit: the write leaves the page.  Longer ones give -ENOSPC. *)
Theorem xattr_overruns_page s X zii p a name value ioc :
  xattr_page s X zii p a (zeros 4096) -> 0 ∉ name -> set_req ioc name value -> Z.land (x_flags ioc) XATTR_REPLACE = 0 ->
  PAGE_SIZE < Z.of_nat (length name + length value) + XE_DATA ->
  toyfs_setxattr zii ioc s =
    if Z.of_nat (length name + length value) <=? PAGE_SIZE then None else Some (- ENOSPC, s).
Proof.
  intros Hp Hnul Hreq Hfl Hbig. rewrite /XE_DATA in Hbig. pose proof (zeros_no_entry name) as [Hf _].
  assert (Happ := append_full name value ltac:(lia)). rewrite -Nat2Z.inj_add in Happ.
  rewrite /toyfs_setxattr. pose proof Hp as (Hz&_&_&Hpg).
  erewrite bind_run; [|eapply run_eq, wp_zii; [exact Hz|done]]; cbv beta.
  erewrite bind_run; [|eapply run_eq, wp_require_page; [exact Hp|split; reflexivity]]; cbv beta. cbn [Z.eqb negb].
  pose proof Hreq as (Eb&_). rewrite (set_wanted ioc name value) // (set_value ioc name value) //. cbn [negb of_option].
  assert (Hc : c_string (x_buf ioc) = Some name) by (by rewrite Eb c_string_app). rewrite Hc. cbn [of_option].
  do 2 (erewrite bind_run; [|done]; cbv beta). rewrite /_do_setxattr /_do_removexattr /_find_xe.
  erewrite bind_run; [|eapply run_eq, wp_on_xattr; [exact Hp|exact Hf|done]]; cbv beta.
  rewrite bool_decide_eq_false_2; [by intros [? ?]|]. rewrite andb_false_r Hfl. cbn [Z.eqb negb andb].
  erewrite bind_run; [|eapply run_eq; wp_step; eapply wp_on_xattr; [exact Hp|exact Hf|by wp_step]]; cbv beta.
  rewrite /_append_xattr. erewrite bind_run; [|eapply run_eq, wp_xattr_of; [exact Hp|done]]; cbv beta.
  erewrite bind_run; [|eapply run_eq, wp_load_pmemb; [exact Hpg|done]]; cbv beta. rewrite Happ.
  destruct (Z.leb_spec (Z.of_nat (length name + length value)) PAGE_SIZE); destruct (Z.ltb_spec PAGE_SIZE (Z.of_nat (length name + length value))); (done || lia).
Qed.

(** What is refused, and then changes nothing: a value longer than the buffer, with
    -ERANGE even when the size is 0 (the caller's way to ask for the length);
    XATTR_CREATE of a name that is there; XATTR_REPLACE and reading of one that is not. *)
Theorem xattr_refused s X zii p a name value rest ioc gioc :
  xattr_page s X zii p a (entry name value ++ rest) -> entry_fits name value -> 0 ∉ name ->
  length (entry name value ++ rest) = 4096%nat -> get_req gioc name -> set_req ioc name value ->
  (user_buf_size gioc < Z.of_nat (length value) -> toyfs_getxattr zii gioc s = Some ((- ERANGE, gioc), s)) /\
  (Z.land (x_flags ioc) XATTR_CREATE <> 0 -> toyfs_setxattr zii ioc s = Some (- EEXIST, s)).
Proof.
  intros Hp Hfit Hnul Hl Hget Hreq.
  assert (Hf : find_xe XE_FUEL (entry name value ++ rest) 0 name = Some (Some 0)) by (by apply first_found).
  split.
  - intros Hs. apply run_eq. eapply wp_getxattr; [exact Hp|exact Hget|done|exact Hf|by apply first_copy|].
    by destruct (Z.ltb_spec (user_buf_size gioc) (Z.of_nat (length value))); [|lia].
  - intros Hfl. apply run_eq. rewrite /toyfs_setxattr. pose proof Hp as (Hz&_). wp_step. eapply wp_zii; [exact Hz|].
    wp_step. eapply wp_require_page; [exact Hp|]. cbn [Z.eqb negb]. pose proof Hreq as (Eb&_).
    assert (Hc : c_string (x_buf ioc) = Some name) by (by rewrite Eb c_string_app). rewrite Hc. cbn [of_option]. do 2 wp_step.
    rewrite (set_wanted ioc name value) // (set_value ioc name value) //. cbn [negb of_option]. do 2 wp_step.
    rewrite /_do_setxattr /_find_xe. wp_step. eapply wp_on_xattr; [exact Hp|exact Hf|].
    rewrite bool_decide_eq_true_2; [by eexists|]. destruct (Z.eqb_spec (Z.land (x_flags ioc) XATTR_CREATE) 0); [done|]. cbn [negb andb]. by wp_step.
Qed.

(** Dropping the attributes of an inode gives their page back. *)
Lemma wp_drop_xattr s F N X zii p a dat (Q : unit -> toyfs_sb_info -> Prop) :
  fs_inv s F N X -> xattr_page s X zii p a dat ->
  (forall s' i, fs_inv s' F N (X ∖ {[a]}) -> ns_step s s' F X {[p]} [a] -> h_inode s !! p = Some i ->
     h_inode s' = <[p := upd_i_xattr (fun _ => 0) i]> (h_inode s) -> Q tt s') ->
  wp (toyfs_drop_xattr zii) s Q.
Proof.
  intros Hfs Hp HQ. rewrite /toyfs_drop_xattr. pose proof Hp as ((t&Ht&Hti&_)&(i&Hi&Hx&Ea)&Ha&Hpg).
  wp_step. eapply wp_tii_ti; [exact Ht|exact Hti|]. wp_step. eapply wp_has_page; [exact Hp|].
  wp_step. eapply wp_get_inode; [exact Hi|]. wp_step. rewrite /toyfs_bn2pmemb Ea.
  apply (wp_release_x s F N X a); [done|done|]. intros s1 n Hfs1 [HR Hb] Ei Ep.
  eapply (wp_set_attr s1 F N (X ∖ {[a]}) {[p]} [a] p i); [done|by rewrite Ei|set_solver +|done..|].
  intros s2 Es2 Hfs2 (R2&N2&B2&P2). eapply HQ; [done| |exact Hi|by rewrite Es2 -Ei]. split_and!.
  - by rewrite R2.
  - intros tj Hj. rewrite N2 // Ei. done.
  - intros tj Hj. destruct (B2 tj Hj) as (->&->&->). split; [by apply Hb|by rewrite /fsize /fmode Ei].
  - intros q Hq Hqa. rewrite P2; [apply elem_of_difference; split; [done|]; by intros ->%elem_of_singleton; apply Hqa; constructor|done|].
    rewrite Ep lookup_insert_ne //. intros ->. apply Hqa. constructor.
Qed.
End spec.

(** ** An example: a file, then with the attribute "a" of value "hi" and a NUL *)
Section example.
#[local] Existing Instance example_md.
#[local] Instance example_xattr : XattrApi := {| ZUFS_XATTR_SET_EMPTY := 1 |}.
Definition xa_name : list Z := [97].
Definition xa_value : list Z := [] ++ [104; 105; 0].
Definition xa_set (name value : list Z) (flags : Z) : zufs_ioc_xattr :=
  ZufsIocXattr (name ++ 0 :: value) (Z.of_nat (length value)) flags 1 (Z.of_nat (length name) + 1) 0.
Definition xa_get (name : list Z) (size : Z) : zufs_ioc_xattr := ZufsIocXattr (name ++ 0 :: zeros 16) size 0 0 2 0.
Lemma xa_set_req name value flags : set_req (xa_set name value flags) name value.
Proof. split_and!; [done..|]. by right. Qed.
Lemma xa_get_req name size : get_req (xa_get name size) name.
Proof. by eexists. Qed.
Lemma xa_inode : h_inode fs_example !! file1 = Some (reg_inode 11).
Proof. apply fs_example_facts. Qed.
Lemma xa_empty : exists s a, fs_inv s ex_files ex_files {[a]} /\ xattr_page s {[a]} 1 file1 a (zeros 4096).
Proof.
  assert (Hw : wp (_require_xattr 1) fs_example (fun r s => r = 0 -> exists a, fs_inv s ex_files ex_files {[a]} /\ xattr_page s {[a]} 1 file1 a (zeros 4096))).
  { eapply (wp_require_xattr fs_example ex_files ex_files ∅ 1 file1); [exact fs_example_inv|exact ex_zii1|exact xa_inode|reflexivity| |].
    - intros s1 _ _ _ _ E. discriminate.
    - intros a s1 _ Hfs _ Hp _. exists a. assert (E : {[a]} ∪ ∅ = ({[a]} : gset Z)) by (apply (right_id_L ∅ (∪))). rewrite E in Hfs, Hp. by split. }
  apply wp_exists in Hw as (r&s&Hrun&Hs). assert (Er : fst <$> _require_xattr 1 fs_example = Some 0) by (vm_compute; reflexivity).
  rewrite Hrun in Er. injection Er as ->. destruct (Hs eq_refl) as (a&?). by exists s, a.
Qed.
Lemma xa_fits : entry_fits xa_name xa_value.
Proof. done. Qed.
Lemma xa_one : exists s a, fs_inv s ex_files ex_files {[a]} /\ xattr_page s {[a]} 1 file1 a (entry xa_name xa_value ++ zeros 4089).
Proof.
  destruct xa_empty as (s&a&Hfs&Hp). pose proof (zeros_no_entry xa_name) as [Hf He].
  assert (Hw : wp (_do_setxattr 1 xa_name xa_value 0) s (fun r s' => exists a, fs_inv s' ex_files ex_files {[a]} /\
    xattr_page s' {[a]} 1 file1 a (entry xa_name xa_value ++ zeros 4089))).
  { eapply (wp_do_setxattr s ex_files ex_files); [exact Hfs|exact Hp|exact Hf|reflexivity|
      apply (append_room [] (zeros 4096)); [exact xa_fits|by rewrite length_replicate|exact He|rewrite length_replicate; apply Nat.leb_le; reflexivity]|
      by rewrite app_nil_l length_app length_drop length_replicate|].
    intros s' Hfs' _ Hp'. exists a. split; [exact Hfs'|]. rewrite app_nil_l /zeros drop_replicate in Hp'. exact Hp'. }
  apply wp_exists in Hw as (r&s'&_&a'&Hs). by exists s', a'.
Qed.
Lemma xattr_set_get_witness :
  wp (r ← toyfs_setxattr 1 (xa_set xa_name xa_value 0); g ← toyfs_getxattr 1 (xa_get xa_name 16); mret (r, g)) fs_example
    (fun rg s' => rg.1 = - ENOSPC \/ take 3 (x_buf rg.2.2) = xa_value).
Proof.
  eapply wp_mono; [apply (xattr_set_get fs_example ex_files ex_files ∅ 1 file1 (reg_inode 11) xa_name xa_value);
    [exact fs_example_inv|exact ex_zii1|exact xa_inode|reflexivity|exact xa_fits|by intros [=]%list_elem_of_singleton|done|apply xa_set_req|
     reflexivity|apply xa_get_req|apply Nat.leb_le; reflexivity|done]|].
  intros rg s' [(E&_)|(_&_&_&E&_)]; [left; exact E|right; exact E].
Defined.
Lemma second_xattr_clobbers_first_witness : exists s,
  wp (r ← toyfs_setxattr 1 (xa_set [98] [120] 0); g ← toyfs_getxattr 1 (xa_get xa_name 16); mret (r, g)) s
    (fun rg s' => rg.1 = 0 /\ take 3 (x_buf rg.2.2) = [1; 0; 1]).
Proof.
  destruct xa_one as (s&a&Hfs&Hp). exists s.
  eapply wp_mono; [apply (second_xattr_clobbers_first s ex_files ex_files {[a]} 1 file1 a xa_name [] 104 105 4089 [98] [120]);
    [exact Hfs|exact xa_fits|done|discriminate|by intros [=]%list_elem_of_singleton|by intros [=]%list_elem_of_singleton|exact Hp|
     by rewrite length_app length_replicate|apply Nat.leb_le; reflexivity|apply xa_set_req|reflexivity|apply xa_get_req|apply Nat.leb_le; reflexivity|done]|].
  intros rg s' (E&_&_&v&Ev&_&Ev'). split; [exact E|]. etransitivity; [exact Ev|exact Ev'].
Defined.
Lemma xattr_overruns_page_witness : exists s, toyfs_setxattr 1 (xa_set xa_name (zeros 4095) 0) s = None.
Proof.
  destruct xa_empty as (s&a&Hfs&Hp). exists s.
  assert (E : Z.of_nat (length xa_name + length (zeros 4095)) = 4096) by (by rewrite length_replicate).
  rewrite (xattr_overruns_page s {[a]} 1 file1 a xa_name (zeros 4095));
    [exact Hp|by intros [=]%list_elem_of_singleton|apply xa_set_req|reflexivity|rewrite E; done|rewrite E; reflexivity].
Defined.
Lemma xattr_refused_witness : exists s,
  toyfs_getxattr 1 (xa_get xa_name 0) s = Some ((- ERANGE, xa_get xa_name 0), s) /\
  toyfs_setxattr 1 (xa_set xa_name xa_value XATTR_CREATE) s = Some (- EEXIST, s).
Proof.
  destruct xa_one as (s&a&Hfs&Hp). exists s.
  destruct (xattr_refused s {[a]} 1 file1 a xa_name xa_value (zeros 4089) (xa_set xa_name xa_value XATTR_CREATE) (xa_get xa_name 0)) as [H1 H2];
    [exact Hp|exact xa_fits|by intros [=]%list_elem_of_singleton|by rewrite length_app length_replicate|apply xa_get_req|apply xa_set_req|].
  split; [apply H1; reflexivity|apply H2; discriminate].
Defined.
End example.
