(* ===== verification/Super.v ===== *)
(** * The super-block and the inode table: fs/toyfs/super.c (what Pool.v leaves)

    In-core inodes ([toyfs_inode_info]), the hash table from inode numbers to inodes,
    mounting and unmounting.  The chain of a slot of the table is carried as the list
    of its entries. *)

From S2P Require Import Prelude Bytes CList State Pool File Dir.

Definition TOYFS_IMAGIC : Z := 18747893.
Definition TOYFS_ROOT_INO : Z := 1.
Definition TOYFS_SUPER_MAGIC : Z := 1397109069.
(** [ARRAY_SIZE(itable->imap)] *)
Definition IMAP_SIZE : Z := 33377.

(** ** Container casts and in-core inodes *)
Section super.
Context `{MdApi} `{MallocApi}.

(** The blocks of malloc that are live. *)
Definition malloced (s : toyfs_sb_info) : gset Z := dom (h_tii s) ∪ dom (h_tir s).

Definition toyfs_alloc_ii : FS (option Z) :=
  toyfs_sbi_lock;;
  ffree ← gets (fun s => f_ffree (s_statvfs s));
  favail ← gets (fun s => f_favail (s_statvfs s));
  tii ← (if (ffree =? 0) || (favail =? 0) then mret None else
    m ← gets (fun s => zus_malloc (malloced s));
    match m with
    | None => mret None
    | Some tii =>
      modify (upd_h_tii (<[tii := ToyfsInodeInfo None true true None 0 TOYFS_IMAGIC 0 false true]>));;
      modify (upd_s_statvfs (upd_f_ffree (fun n => u64 (n - 1))));;
      modify (upd_s_statvfs (upd_f_favail (fun n => u64 (n - 1))));;
      mret (Some tii)
    end);
  toyfs_sbi_unlock;;
  mret tii.
(** [zii] is the first field of [toyfs_inode_info]. *)
Definition toyfs_zii_alloc : FS (option Z) := toyfs_alloc_ii.
(** The poisoned block goes back to malloc. *)
Definition toyfs_tii_free (tii : Z) : FS unit :=
  t ← load h_tii tii;
  assert (tii_sbi t);;
  modify (upd_h_tii (delete tii));;
  modify (upd_s_statvfs (upd_f_ffree (fun n => u64 (n + 1))));;
  modify (upd_s_statvfs (upd_f_favail (fun n => u64 (n + 1)))).

(** ** The inode table *)
Definition upd_itable_mutex (g : Z -> Z) : toyfs_sb_info -> toyfs_sb_info := upd_s_itable (upd_t_mutex g).
Definition _itable_lock : FS unit := toyfs_mutex_lock upd_itable_mutex.
Definition _itable_unlock : FS unit := toyfs_mutex_unlock (fun s => t_mutex (s_itable s)) upd_itable_mutex.
Definition _itable_init : FS unit := modify (upd_s_itable (fun _ => ToyfsItable 0 0 ∅)).
(** Every slot is a wild pointer. *)
Definition _itable_destroy : FS unit :=
  modify (upd_s_itable (fun t => ToyfsItable (t_mutex t) 0
    (list_to_map ((fun i => (Z.of_nat i, [2 ^ 64 - 1])) <$> seq 0 (Z.to_nat IMAP_SIZE)))));;
  toyfs_mutex_destroy (fun s => t_mutex (s_itable s)).
Definition _itable_slot_of (ino : Z) : Z := ino mod IMAP_SIZE.
Definition slot_chain (s : toyfs_sb_info) (slot : Z) : list Z := default [] (imap (s_itable s) !! slot).

Fixpoint find_tir (l : list Z) (ino : Z) : FS (option Z) :=
  match l with
  | [] => mret None
  | tir :: l' => r ← load h_tir tir; if r_ino r =? ino then mret (Some tir) else find_tir l' ino
  end.
Definition _itable_find (ino : Z) : FS (option Z) :=
  _itable_lock;;
  l ← gets (fun s => slot_chain s (_itable_slot_of ino));
  tir ← find_tir l ino;
  _itable_unlock;;
  mret tir.
Definition _itable_insert (tii : Z) : FS unit :=
  m ← gets (fun s => zus_malloc (malloced s));
  tir ← of_option m;
  _itable_lock;;
  t ← load h_tii tii;
  modify (upd_h_tir (<[tir := ToyfsInodeRef (Some tii) (ti t) (ino t)]>));;
  let slot := _itable_slot_of (ino t) in
  l ← gets (fun s => slot_chain s slot);
  modify (upd_s_itable (upd_imap (<[slot := tir :: l]>)));;
  modify (upd_s_itable (upd_icount (fun n => u64 (n + 1))));;
  _itable_unlock.
Fixpoint find_tii (l : list Z) (tii : Z) : FS (option Z) :=
  match l with
  | [] => mret None
  | tir :: l' => r ← load h_tir tir; if bool_decide (r_tii r = Some tii) then mret (Some tir) else find_tii l' tii
  end.
Definition _itable_remove (tii : Z) : FS unit :=
  _itable_lock;;
  c ← gets (fun s => icount (s_itable s));
  assert (0 <? c);;
  t ← load h_tii tii;
  let slot := _itable_slot_of (ino t) in
  l ← gets (fun s => slot_chain s slot);
  assert (negb (bool_decide (l = [])));;
  r ← find_tii l tii;
  tir ← of_option r;
  modify (upd_s_itable (upd_imap (<[slot := remove1 tir l]>)));;
  modify (upd_s_itable (upd_icount (fun n => u64 (n - 1))));;
  _itable_unlock;;
  modify (upd_h_tir (delete tir)).
Definition toyfs_find_inode_ref_by_ino (ino : Z) : FS (option Z) := _itable_find ino.
Definition toyfs_i_track (tii : Z) : FS unit :=
  _itable_insert tii;; update h_tii upd_h_tii tii (upd_mapped (fun _ => true)).
Definition toyfs_i_untrack (tii : Z) (remove : bool) : FS unit :=
  t ← load h_tii tii;
  r ← _itable_find (ino t);
  tir ← of_option r;
  update h_tii upd_h_tii tii (upd_mapped (fun _ => false));;
  if remove then _itable_remove tii else update h_tir upd_h_tir tir (upd_r_tii (fun _ => None)).

(** ** Mounting *)
(** The structure cleared; the pages and records of the device and the other blocks of memory
    are not part of it. *)
Definition sbi_cleared (s : toyfs_sb_info) : toyfs_sb_info :=
  ToyfsSbInfo (s_statvfs sbi_zero) 0 0 (s_pool sbi_zero) (s_itable sbi_zero) None None 0
    (h_page s) (h_dblkref s) (h_iblkref s) (h_inode s) (h_tii s) (h_tir s).
(** [mem] is what [zus_malloc] answers for the super-block; the mutexes are unlocked,
    the operations tables constants. *)
Definition toyfs_sbi_alloc (mem : bool) : FS bool :=
  if negb mem then mret false else
  modify sbi_cleared;;
  _pool_init;;
  _itable_init;;
  mret true.
Definition TOYFS_MIN_BLOCKS : Z := 1024.

Definition _new_root_inode : FS (Z * option Z) :=
  r ← toyfs_alloc_ii;
  match r with
  | None => mret (- ENOMEM, None)
  | Some root_tii =>
    i ← _pool_pop_inode;
    match i with
    | None => toyfs_tii_free root_tii;; mret (- ENOSPC, None)
    | Some root_ti =>
      modify (upd_h_inode (<[root_ti := zero_inode]>));;
      update h_tii upd_h_tii root_tii (fun t => upd_ino (fun _ => TOYFS_ROOT_INO) (upd_zi (fun _ => Some root_ti) (upd_ti (fun _ => Some root_ti) t)));;
      set_inode root_ti (fun i => upd_i_nlink (fun _ => 2) (upd_i_mode (fun _ => Z.lor 493 S_IFDIR) (upd_i_ino (fun _ => TOYFS_ROOT_INO) i)));;
      set_inode root_ti (upd_list_head (fun _ => []));;
      _itable_insert root_tii;;
      mret (0, Some root_tii)
    end
  end.

(** [magic] is [s_magic] of the device table in the first page.  [_write_pmem_first_time]
    fills the chunk at offset [i], 1024 bytes, with the byte [i], in every page from the
    third on. *)
Definition chunk (i : Z) : list Z := replicate 1024 (u8 i).
Definition first_time_page (bn : Z) : list Z :=
  chunk (bn * PAGE_SIZE) ++ chunk (bn * PAGE_SIZE + 1024) ++ chunk (bn * PAGE_SIZE + 2048) ++ chunk (bn * PAGE_SIZE + 3072).
Fixpoint write_pages (n : nat) (bn : Z) : FS unit :=
  match n with
  | O => mret tt
  | S k => modify (upd_h_page (<[md_baddr bn := Pmemb (first_time_page bn)]>));; write_pages k (bn + 1)
  end.
Definition _read_pmem_sb_first_time (magic : Z) : Z := if negb (magic =? TOYFS_SUPER_MAGIC) then - EINVAL else 0.
Definition _write_pmem_first_time : FS unit := write_pages (Z.to_nat (md_t1_blocks - 2)) 2.
Definition _prepare_pmem_first_time (magic : Z) : FS Z :=
  let err := _read_pmem_sb_first_time magic in
  if negb (err =? 0) then mret err else
  _write_pmem_first_time;;
  mret (_read_pmem_sb_first_time magic).
Definition _sbi_init (magic : Z) : FS Z :=
  if md_t1_blocks <? TOYFS_MIN_BLOCKS then mret (- EINVAL) else
  err ← _prepare_pmem_first_time magic;
  if negb (err =? 0) then mret err else
  _pool_setup (md_baddr 2) (md_p2o (md_t1_blocks - 2));;
  _sbi_setup;;
  r ← _new_root_inode;
  if negb (r.1 =? 0) then mret r.1 else
  modify (upd_s_root (fun _ => r.2));;
  modify (upd_z_root (fun _ => r.2));;
  mret 0.
(** [zmi->zus_ii] besides the error; the block size and the capabilities are constants. *)
Definition toyfs_sbi_init (magic : Z) : FS (Z * option Z) :=
  err ← _sbi_init magic;
  if negb (err =? 0) then mret (err, None) else root ← gets z_root; mret (0, root).
Definition toyfs_sbi_fini : FS Z :=
  _pool_destroy;;
  _itable_destroy;;
  toyfs_mutex_destroy s_mutex;;
  toyfs_mutex_destroy s_inodes_lock;;
  modify (upd_s_root (fun _ => None));;
  mret 0.

(** ** statfs and sync *)
Record statfs64 := Statfs64 {
  o_bsize : Z; o_blocks : Z; o_bfree : Z; o_bavail : Z; o_files : Z; o_ffree : Z;
  o_namelen : Z; o_frsize : Z; o_flags : Z }.
Definition toyfs_statfs : FS (Z * statfs64) :=
  toyfs_sbi_lock;;
  v ← gets s_statvfs;
  toyfs_sbi_unlock;;
  mret (0, Statfs64 (f_bsize v) (f_blocks v) (f_bfree v) (f_bavail v) (f_files v) (f_ffree v) (f_namemax v) (f_frsize v) (f_flag v)).
Definition toyfs_sync (zii : Z) : FS Z := tii ← toyfs_zii_to_tii zii; t ← load h_tii tii; mret 0.
End super.
