(* ===== verification/Itable.v ===== *)
(** * The inode table is a finite map

    The hash table of super.c, with its chains, implements a map from inode numbers to
    entries: what finding, inserting and removing do to it. *)

From S2P Require Import Prelude Bytes CList State Pool File Dir Super.

Section itable.
Context `{MallocApi}.
Implicit Types (m : gmap Z toyfs_inode_ref).

(** The entries in the chains; there may be others in memory, of what was mounted before. *)
Definition tirs (s : toyfs_sb_info) : gmap Z toyfs_inode_ref :=
  filter (fun tr => tr.1 ∈ slot_chain s (_itable_slot_of (r_ino tr.2))) (h_tir s).
Lemma tirs_lookup s t r : tirs s !! t = Some r <-> h_tir s !! t = Some r /\ t ∈ slot_chain s (_itable_slot_of (r_ino r)).
Proof. apply map_lookup_filter_Some. Qed.
Lemma tirs_none s t : h_tir s !! t = None -> tirs s !! t = None.
Proof. intros Ht. destruct (tirs s !! t) as [r|] eqn:E; [|done]. apply tirs_lookup in E as [? _]. congruence. Qed.
Lemma tirs_same s s' : s_itable s' = s_itable s -> h_tir s' = h_tir s -> tirs s' = tirs s.
Proof. rewrite /tirs /slot_chain. by intros -> ->. Qed.
(** An entry in place of another of the same number. *)
Lemma tirs_update s t r r' : tirs s !! t = Some r -> r_ino r' = r_ino r -> tirs (upd_h_tir (<[t := r']>) s) = <[t := r']> (tirs s).
Proof.
  intros [Hr Hin]%tirs_lookup Ei. apply map_eq. intros x. apply option_eq. intros y. rewrite tirs_lookup lookup_insert. fs_simpl.
  change (slot_chain (upd_h_tir (<[t := r']>) s)) with (slot_chain s). rewrite lookup_insert. case_decide as E; [|by rewrite tirs_lookup].
  split; [by intros [? _]|]. intros [= <-]. subst x. by rewrite Ei.
Qed.
Record itable_ok (s : toyfs_sb_info) : Prop := {
  it_lock : 0 <= t_mutex (s_itable s);
  it_nodup slot : NoDup (slot_chain s slot);
  it_chain slot tir : tir ∈ slot_chain s slot <-> exists r, tirs s !! tir = Some r /\ _itable_slot_of (r_ino r) = slot;
  it_ino t1 t2 r1 r2 : tirs s !! t1 = Some r1 -> tirs s !! t2 = Some r2 -> r_ino r1 = r_ino r2 -> t1 = t2;
  it_count : icount (s_itable s) = Z.of_nat (size (tirs s));
  it_tii tir r tii : tirs s !! tir = Some r -> r_tii r = Some tii ->
    exists t, h_tii s !! tii = Some t /\ ino t = r_ino r;
}.
(** The table holds [m]. *)
Definition itable_is (s : toyfs_sb_info) m : Prop :=
  itable_ok s /\ forall i r, m !! i = Some r <-> exists tir, tirs s !! tir = Some r /\ r_ino r = i.

(** An empty table; what a table holds, and how much. *)
Lemma itable_blank s k : s_itable s = ToyfsItable k 0 ∅ -> 0 <= k -> itable_is s ∅.
Proof.
  intros Ei Hk. assert (Ec : forall slot, slot_chain s slot = []) by (intros; by rewrite /slot_chain Ei).
  assert (Et : tirs s = ∅). { apply map_eq. intros t. apply option_eq. intros r. rewrite tirs_lookup Ec. split; [by intros [_ ?%elem_of_nil]|done]. }
  split; [split|].
  - by rewrite Ei.
  - intros slot. rewrite Ec. constructor.
  - intros slot tir. rewrite Ec Et. split; [by intros ?%elem_of_nil|]. intros (r & Hr & _). by rewrite lookup_empty in Hr.
  - intros t1 t2 r1 r2 Hr. by rewrite Et lookup_empty in Hr.
  - by rewrite Ei Et.
  - intros tir r tii Hr. by rewrite Et lookup_empty in Hr.
  - intros i r. rewrite Et. split; [by rewrite lookup_empty|]. intros (tir & Hr & _). by rewrite lookup_empty in Hr.
Qed.
Lemma itable_empty s : itable_is s ∅ -> tirs s = ∅.
Proof.
  intros [_ Hm]. apply map_eq. intros t. destruct (tirs s !! t) as [r|] eqn:E; [|done].
  pose proof (proj2 (Hm (r_ino r) r) ltac:(by exists t)) as Hr. by rewrite lookup_empty in Hr.
Qed.
Lemma itable_size s m : itable_is s m -> icount (s_itable s) = Z.of_nat (size m).
Proof.
  intros [Hok Hm]. rewrite (it_count _ Hok). f_equal.
  set (l := (fun tr : Z * toyfs_inode_ref => (r_ino tr.2, tr.2)) <$> map_to_list (tirs s)).
  assert (Hnd : NoDup l.*1).
  { rewrite /l -list_fmap_compose. apply NoDup_fmap_2_strong; [|apply NoDup_map_to_list].
    intros [t1 r1] [t2 r2] H1%elem_of_map_to_list H2%elem_of_map_to_list E. cbn in E. assert (t1 = t2) as -> by (by eapply it_ino). by simplify_eq. }
  assert (El : list_to_map l = m).
  { apply map_eq. intros i. apply option_eq. intros r. rewrite -elem_of_list_to_map // Hm /l list_elem_of_fmap. split.
    - intros ([t r'] & [= -> ->] & Hin%elem_of_map_to_list). by exists t.
    - intros (t & Hr & <-). exists (t, r). split; [done|by apply elem_of_map_to_list]. }
  rewrite -El map_size_list_to_map //. by rewrite /l length_fmap length_map_to_list.
Qed.

Lemma itable_unique s m m' : itable_is s m -> itable_is s m' -> m = m'.
Proof. intros [_ Hm] [_ Hm']. apply map_eq. intros n. apply option_eq. intros r. by rewrite Hm Hm'. Qed.

(** What the table never touches. *)
Definition it_rest (s : toyfs_sb_info) :=
  (s_statvfs s, s_mutex s, s_inodes_lock s, s_pool s, t_mutex (s_itable s), s_root s, z_root s, s_top_ino s,
   h_page s, h_dblkref s, h_iblkref s, h_inode s).

Lemma itable_lock_id s : upd_itable_mutex Z.pred (upd_itable_mutex Z.succ s) = s.
Proof.
  destruct s as [? ? ? ? [tm ? ?]]. rewrite /upd_itable_mutex /upd_s_itable /upd_t_mutex /=. by rewrite Z.pred_succ.
Qed.
Lemma wp_itable_lock s (Q : unit -> toyfs_sb_info -> Prop) : Q tt (upd_itable_mutex Z.succ s) -> wp _itable_lock s Q.
Proof. done. Qed.
Lemma wp_itable_unlock s (Q : unit -> toyfs_sb_info -> Prop) :
  0 < t_mutex (s_itable s) -> Q tt (upd_itable_mutex Z.pred s) -> wp _itable_unlock s Q.
Proof.
  intros Hl HQ. rewrite /_itable_unlock /toyfs_mutex_unlock. wp_step. wp_step. wp_step. wp_step; [by apply Z.ltb_lt|]. by wp_step.
Qed.

(** ** Walking a chain *)
Lemma wp_find_tir l : forall s i (Q : option Z -> toyfs_sb_info -> Prop),
  (forall t, t ∈ l -> is_Some (h_tir s !! t)) ->
  (forall t r, t ∈ l -> h_tir s !! t = Some r -> r_ino r = i -> Q (Some t) s) ->
  ((forall t r, t ∈ l -> h_tir s !! t = Some r -> r_ino r <> i) -> Q None s) ->
  wp (find_tir l i) s Q.
Proof.
  induction l as [|t l IH]; intros s i Q Hl HS HN; cbn [find_tir].
  { wp_step. apply HN. by intros t r ?%elem_of_nil. }
  destruct (Hl t ltac:(constructor)) as [r Hr]. wp_step. wp_step; [exact Hr|].
  destruct (Z.eqb_spec (r_ino r) i); [wp_step; eapply HS; [constructor|exact Hr|done]|].
  apply IH; [intros; apply Hl; by constructor|intros; eapply HS; [by constructor|done|done]|].
  intros Hall. apply HN. intros t' r' [->|Ht']%elem_of_cons Hr'; [rewrite Hr in Hr'; by injection Hr' as <-|by eapply Hall].
Qed.
Lemma wp_find_tii l : forall s tii (Q : option Z -> toyfs_sb_info -> Prop),
  (forall t, t ∈ l -> is_Some (h_tir s !! t)) ->
  (forall t r, t ∈ l -> h_tir s !! t = Some r -> r_tii r = Some tii -> Q (Some t) s) ->
  ((forall t r, t ∈ l -> h_tir s !! t = Some r -> r_tii r <> Some tii) -> Q None s) ->
  wp (find_tii l tii) s Q.
Proof.
  induction l as [|t l IH]; intros s tii Q Hl HS HN; cbn [find_tii].
  { wp_step. apply HN. by intros t r ?%elem_of_nil. }
  destruct (Hl t ltac:(constructor)) as [r Hr]. wp_step. wp_step; [exact Hr|].
  case_bool_decide; [wp_step; eapply HS; [constructor|exact Hr|done]|].
  apply IH; [intros; apply Hl; by constructor|intros; eapply HS; [by constructor|done|done]|].
  intros Hall. apply HN. intros t' r' [->|Ht']%elem_of_cons Hr'; [rewrite Hr in Hr'; by injection Hr' as <-|by eapply Hall].
Qed.

(** ** The operations *)
Lemma wp_itable_find s i (Q : option Z -> toyfs_sb_info -> Prop) :
  itable_ok s ->
  (forall t r, tirs s !! t = Some r -> r_ino r = i -> Q (Some t) s) ->
  ((forall t r, tirs s !! t = Some r -> r_ino r <> i) -> Q None s) ->
  wp (_itable_find i) s Q.
Proof.
  intros [Hlk Hnd Hch Hin Hct Hti] HS HN. rewrite /_itable_find. wp_step. apply wp_itable_lock. do 2 wp_step. wp_step.
  apply wp_find_tir; [intros t (r&[Hr _]%tirs_lookup&_)%Hch; by exists r| |].
  - intros t r Ht Hr E. wp_step. apply wp_itable_unlock; [fs_simpl; cbn; lia|]. wp_step. rewrite itable_lock_id. eapply HS; [|exact E].
    apply tirs_lookup. split; [exact Hr|by rewrite E].
  - intros Hall. wp_step. apply wp_itable_unlock; [fs_simpl; cbn; lia|]. wp_step. rewrite itable_lock_id. apply HN.
    intros t r [Hr Ht]%tirs_lookup E. eapply Hall; [|exact Hr|exact E]. by rewrite E in Ht.
Qed.

Definition with_tir (s : toyfs_sb_info) (h : gmap Z toyfs_inode_ref) (t : toyfs_itable) : toyfs_sb_info :=
  upd_s_itable (fun _ => t) (upd_h_tir (fun _ => h) s).
Lemma itable_ok_insert s tii t tir : itable_ok s -> h_tir s !! tir = None -> h_tii s !! tii = Some t ->
  (forall t' r, tirs s !! t' = Some r -> r_ino r <> ino t) ->
  let slot := _itable_slot_of (ino t) in
  let s' := with_tir s (<[tir := ToyfsInodeRef (Some tii) (ti t) (ino t)]> (h_tir s))
    (ToyfsItable (t_mutex (s_itable s)) (Z.of_nat (size (tirs s)) + 1) (<[slot := tir :: slot_chain s slot]> (imap (s_itable s)))) in
  tirs s' = <[tir := ToyfsInodeRef (Some tii) (ti t) (ino t)]> (tirs s) /\ itable_ok s'.
Proof.
  intros [Hlk Hnd Hch Hin Hct Hti] Hfr Ht Hnew slot. set (e := ToyfsInodeRef (Some tii) (ti t) (ino t)).
  assert (Hc : forall sl, slot_chain (with_tir s (<[tir := e]> (h_tir s)) (ToyfsItable (t_mutex (s_itable s)) (Z.of_nat (size (tirs s)) + 1)
     (<[slot := tir :: slot_chain s slot]> (imap (s_itable s))))) sl = if decide (sl = slot) then tir :: slot_chain s slot else slot_chain s sl).
  { intros sl. rewrite {1}/slot_chain /with_tir. fs_simpl. rewrite lookup_insert. repeat case_decide; try congruence; done. }
  assert (Hout : forall sl, tir ∉ slot_chain s sl) by (intros sl (r&[Hr _]%tirs_lookup&_)%Hch; congruence).
  set (s' := with_tir _ _ _) in Hc |- *. assert (Hd : forall t' r, tirs s' !! t' = Some r <-> <[tir := e]> (tirs s) !! t' = Some r).
  { intros t' r. rewrite tirs_lookup Hc /s' /with_tir; fs_simpl. rewrite !lookup_insert. destruct (decide (tir = t')) as [<-|Hne].
    - split; [by intros [? _]|]. intros [= <-]. split; [done|]. rewrite decide_True //. constructor.
    - rewrite tirs_lookup. case_decide as E; [|done]. rewrite elem_of_cons E. naive_solver. }
  assert (Hd' : tirs s' = <[tir := e]> (tirs s)) by (apply map_eq; intros t'; apply option_eq; intros r; apply Hd). clear Hd.
  pose proof (tirs_none _ _ Hfr) as Hfr'.
  split; [|split; [done| | | | |]]; [exact Hd'|..].
  - intros sl. rewrite Hc. case_decide; [|done]. by apply NoDup_cons.
  - intros sl t'. rewrite Hc Hd'. destruct (decide (t' = tir)) as [->|Hne].
    + rewrite lookup_insert_eq. split.
      * intros Hin'. exists e. split; [done|]. case_decide as E; [done|]. by apply Hout in Hin'.
      * intros (r&[= <-]&E). case_decide as E'; [constructor|by symmetry in E].
    + rewrite lookup_insert_ne //. rewrite -Hch. case_decide as E; [|done]. subst sl. rewrite elem_of_cons. naive_solver.
  - intros t1 t2 r1 r2. rewrite Hd' !lookup_insert. repeat case_decide; subst; try done.
    + intros [= <-] H2 E. exfalso. eapply Hnew; [exact H2|by symmetry].
    + intros H1 [= <-] E. exfalso. eapply Hnew; [exact H1|exact E].
    + by apply Hin.
  - rewrite Hd' map_size_insert_None //. rewrite /s' /with_tir; fs_simpl. cbn. lia.
  - intros t' r tii'. rewrite Hd' lookup_insert. case_decide as E; [|by apply Hti].
    intros [= <-] [= <-]. by exists t.
Qed.
Lemma wp_itable_insert s tii t (Q : unit -> toyfs_sb_info -> Prop) `{!MallocLaws} :
  itable_ok s -> h_tii s !! tii = Some t -> (forall D, is_Some (zus_malloc D)) ->
  (forall t' r, tirs s !! t' = Some r -> r_ino r <> ino t) -> icount (s_itable s) + 1 < 2 ^ 64 ->
  (forall s' tir, h_tir s !! tir = None -> it_rest s' = it_rest s -> h_tii s' = h_tii s ->
     tirs s' = <[tir := ToyfsInodeRef (Some tii) (ti t) (ino t)]> (tirs s) -> itable_ok s' -> Q tt s') ->
  wp (_itable_insert tii) s Q.
Proof.
  intros Hok Ht Hmal Hnew Hcnt HQ. pose proof Hok as [Hlk Hnd Hch Hin Hct Hti]. rewrite /_itable_insert. do 2 wp_step.
  destruct (Hmal (malloced s)) as [tir Em]. rewrite Em. cbn [of_option]. do 2 wp_step.
  assert (Hfr : h_tir s !! tir = None).
  { apply zus_malloc_fresh in Em. apply not_elem_of_dom. rewrite /malloced in Em. set_solver + Em. }
  wp_step. apply wp_itable_lock. wp_step. wp_step; [fs_simpl; exact Ht|]. do 8 wp_step.
  apply wp_itable_unlock; [fs_simpl; cbn; lia|]. fs_simpl. cbn [upd_itable_mutex]. 
  match goal with |- Q tt ?x => replace x with (with_tir s (<[tir := ToyfsInodeRef (Some tii) (ti t) (ino t)]> (h_tir s))
    (ToyfsItable (t_mutex (s_itable s)) (Z.of_nat (size (tirs s)) + 1)
      (<[_itable_slot_of (ino t) := tir :: slot_chain s (_itable_slot_of (ino t))]> (imap (s_itable s))))) end.
  - edestruct itable_ok_insert as [Ht' Hok']; [exact Hok|exact Hfr|exact Ht|exact Hnew|]. eapply HQ; [exact Hfr|done|done|exact Ht'|exact Hok'].
  - clear - Hct Hcnt. destruct s as [? ? ? ? [tm ic im]]. fs_simpl in Hct. fs_simpl in Hcnt.
    cbv [with_tir upd_itable_mutex slot_chain upd_s_itable upd_h_tir upd_t_mutex upd_icount upd_imap State.s_itable State.h_tir State.h_tii
      State.s_statvfs State.s_mutex State.s_inodes_lock State.s_pool State.s_root State.z_root State.s_top_ino State.h_page State.h_dblkref
      State.h_iblkref State.h_inode State.t_mutex State.icount State.imap].
    rewrite u64_small; [lia|]. by rewrite Hct Z.pred_succ.
Qed.

Lemma itable_ok_remove s tir r : itable_ok s -> tirs s !! tir = Some r ->
  let slot := _itable_slot_of (r_ino r) in
  let s' := with_tir s (delete tir (h_tir s))
    (ToyfsItable (t_mutex (s_itable s)) (Z.of_nat (size (tirs s)) - 1) (<[slot := remove1 tir (slot_chain s slot)]> (imap (s_itable s)))) in
  tirs s' = delete tir (tirs s) /\ itable_ok s'.
Proof.
  intros [Hlk Hnd Hch Hin Hct Hti] Hr slot s'.
  assert (Hc : forall sl, slot_chain s' sl = if decide (sl = slot) then remove1 tir (slot_chain s slot) else slot_chain s sl).
  { intros sl. rewrite {1}/slot_chain /s' /with_tir. fs_simpl. rewrite lookup_insert. repeat case_decide; try congruence; done. }
  assert (Hd' : tirs s' = delete tir (tirs s)).
  { apply map_eq. intros t'. apply option_eq. intros r'. rewrite tirs_lookup Hc /s' /with_tir; fs_simpl. rewrite !lookup_delete_Some tirs_lookup.
    case_decide as E; [|tauto]. rewrite E. split; [intros ([Hne ?] & Hin')|intros (Hne & ? & Hin')].
    - apply elem_of_remove1 in Hin' as [? _]; [tauto|done].
    - split; [done|]. apply elem_of_remove1; [done|]. split; [done|congruence]. }
  assert (Hd : forall t', tirs s' !! t' = if decide (t' = tir) then None else tirs s !! t').
  { intros t'. rewrite Hd'. case_decide as E; [by rewrite E lookup_delete_eq|by rewrite lookup_delete_ne]. }
  split; [|split; [done| | | | |]]; [exact Hd'|..].
  - intros sl. rewrite Hc. case_decide; [|done]. by apply NoDup_remove1.
  - intros sl t'. rewrite Hc Hd. destruct (decide (t' = tir)) as [->|Hne].
    + split; [|by intros (?&?&_)]. case_decide as E.
      * intros Hin'. apply elem_of_remove1 in Hin'; [|done]. by destruct Hin'.
      * intros (r'&Hr'&Es)%Hch. rewrite Hr in Hr'. injection Hr' as <-. by symmetry in Es.
    + rewrite -Hch. case_decide as E; [|done]. subst sl. rewrite elem_of_remove1 //. naive_solver.
  - intros t1 t2 r1 r2. rewrite !Hd. repeat case_decide; try done. apply Hin.
  - rewrite Hd' map_size_delete_Some; [by exists r|]. rewrite /s' /with_tir; fs_simpl. cbn.
    assert (size (tirs s) <> 0%nat) by (intros E%map_size_empty_inv; rewrite E in Hr; by rewrite lookup_empty in Hr). lia.
  - intros t' r' tii. rewrite Hd. case_decide; [done|]. by apply Hti.
Qed.
Lemma wp_itable_remove s tii t tir r (Q : unit -> toyfs_sb_info -> Prop) :
  itable_ok s -> h_tii s !! tii = Some t -> tirs s !! tir = Some r -> r_tii r = Some tii -> icount (s_itable s) < 2 ^ 64 ->
  (forall s', it_rest s' = it_rest s -> h_tii s' = h_tii s -> tirs s' = delete tir (tirs s) -> itable_ok s' -> Q tt s') ->
  wp (_itable_remove tii) s Q.
Proof.
  intros Hok Ht Hr Hrt Hcnt HQ. pose proof Hok as [Hlk Hnd Hch Hin Hct Hti].
  destruct (Hti tir r tii Hr Hrt) as (t0&Ht0&Ei). rewrite Ht in Ht0. injection Ht0 as <-.
  assert (Hpos : size (tirs s) <> 0%nat) by (intros E%map_size_empty_inv; rewrite E in Hr; by rewrite lookup_empty in Hr).
  rewrite /_itable_remove. wp_step. apply wp_itable_lock. do 2 wp_step. wp_step. wp_step.
  { change (icount (s_itable (upd_itable_mutex Z.succ s))) with (icount (s_itable s)). rewrite Hct. apply Z.ltb_lt. lia. }
  wp_step. wp_step; [exact Ht|]. do 2 wp_step. rewrite Ei. set (slot := _itable_slot_of (r_ino r)).
  change (slot_chain (upd_itable_mutex Z.succ s) slot) with (slot_chain s slot).
  assert (Hmem : tir ∈ slot_chain s slot) by (apply Hch; by exists r).
  wp_step. wp_step. { destruct (slot_chain s slot); [by apply elem_of_nil in Hmem|done]. }
  wp_step. pose proof (proj1 (tirs_lookup _ _ _) Hr) as [Hhr _].
  apply wp_find_tii; [intros x (rx&[Hx _]%tirs_lookup&_)%Hch; by exists rx| |intros Hall; by destruct (Hall tir r)].
  intros x rx Hx Hrx Hrxt. change (h_tir (upd_itable_mutex Z.succ s)) with (h_tir s) in Hrx.
  assert (Hrx' : tirs s !! x = Some rx) by (pose proof Hx as (ry&[Hy ?]%tirs_lookup&E)%Hch; rewrite Hrx in Hy; injection Hy as <-; by apply tirs_lookup).
  destruct (Hti x rx tii Hrx' Hrxt) as (t1&Ht1&Ei1). rewrite Ht in Ht1. injection Ht1 as <-.
  assert (x = tir) as -> by (eapply Hin; [exact Hrx'|exact Hr|by rewrite -Ei -Ei1]).
  cbn [of_option]. do 6 wp_step. wp_step. apply wp_itable_unlock; [fs_simpl; cbn; lia|]. wp_step. fs_simpl.
  match goal with |- Q tt ?y => replace y with (with_tir s (delete tir (h_tir s))
    (ToyfsItable (t_mutex (s_itable s)) (Z.of_nat (size (tirs s)) - 1) (<[slot := remove1 tir (slot_chain s slot)]> (imap (s_itable s))))) end.
  - edestruct itable_ok_remove as [Ht' Hok']; [exact Hok|exact Hr|]. apply HQ; [done|done|exact Ht'|exact Hok'].
  - clear - Hct Hcnt Hpos. destruct s as [? ? ? ? [tm ic im]]. fs_simpl in Hct. fs_simpl in Hcnt. fs_simpl in Hpos.
    cbv [with_tir upd_itable_mutex slot_chain upd_s_itable upd_h_tir upd_t_mutex upd_icount upd_imap State.s_itable State.h_tir State.h_tii
      State.s_statvfs State.s_mutex State.s_inodes_lock State.s_pool State.s_root State.z_root State.s_top_ino State.h_page State.h_dblkref
      State.h_iblkref State.h_inode State.t_mutex State.icount State.imap].
    rewrite u64_small; [lia|]. by rewrite Hct Z.pred_succ.
Qed.

(** ** The table as a map *)

(** C23: The chained hash table implements a finite map from inode numbers to entries:
    finding is lookup and changes nothing, inserting a new number is insertion, removing
    an in-core inode is deletion of its number. *)
Theorem itable_refines s m `{!MallocLaws} :
  itable_is s m -> (forall D, is_Some (zus_malloc D)) -> icount (s_itable s) + 1 < 2 ^ 64 ->
  (forall i, wp (_itable_find i) s (fun r s' => s' = s /\ (r ≫= fun tir => h_tir s !! tir) = m !! i)) /\
  (forall tii t, h_tii s !! tii = Some t -> m !! ino t = None ->
    wp (_itable_insert tii) s (fun _ s' => itable_is s' (<[ino t := ToyfsInodeRef (Some tii) (ti t) (ino t)]> m) /\
      it_rest s' = it_rest s /\ h_tii s' = h_tii s)) /\
  (forall tii t r, h_tii s !! tii = Some t -> m !! ino t = Some r -> r_tii r = Some tii ->
    wp (_itable_remove tii) s (fun _ s' => itable_is s' (delete (ino t) m) /\ it_rest s' = it_rest s /\ h_tii s' = h_tii s)).
Proof.
  intros [Hok Hm] Hmal Hcnt. split_and!.
  - intros i. apply wp_itable_find; [done| |].
    + intros t r Hr Hi. split; [done|]. cbn. rewrite (proj1 (proj1 (tirs_lookup _ _ _) Hr)). symmetry. apply Hm. by exists t.
    + intros Hall. split; [done|]. cbn. destruct (m !! i) as [r|] eqn:E; [|done]. apply Hm in E as (t&Hr&Hi). by destruct (Hall t r).
  - intros tii t Ht Hnone. eapply wp_itable_insert; [done|done|exact Ht|done| |done|].
    + intros t' r Hr Ei. assert (E : m !! ino t = Some r) by (apply Hm; by exists t'). congruence.
    + intros s' tir Hfr%tirs_none Hr1 Hr2 Hr3 Hok'. split; [|done]. split; [done|]. intros i r. rewrite Hr3 lookup_insert. case_decide as E.
      * subst i. split; [intros [= <-]; exists tir; by rewrite lookup_insert_eq|].
        intros (t'&Hl&Ei). rewrite lookup_insert in Hl. case_decide; [done|].
        assert (E : m !! ino t = Some r) by (apply Hm; by exists t'). congruence.
      * rewrite Hm. split; intros (t'&Hl&Ei); exists t'; (split; [|done]).
        -- rewrite lookup_insert_ne //. congruence.
        -- rewrite lookup_insert in Hl. case_decide; [|done]. injection Hl as <-. by subst i.
  - intros tii t r Ht Hmr Hrt. apply Hm in Hmr as (tir&Hr&Ei).
    eapply wp_itable_remove; [done|exact Ht|exact Hr|done|lia|]. intros s' Hr1 Hr2 Hr3 Hok'. split; [|done]. split; [done|].
    intros i r'. rewrite Hr3. destruct (decide (i = ino t)) as [->|Hne].
    + rewrite lookup_delete_eq. split; [done|]. intros (t'&Hl&Ei'). exfalso. rewrite lookup_delete_Some in Hl. destruct Hl as [Hne Hl].
      apply Hne. eapply it_ino; [exact Hok|exact Hr|exact Hl|congruence].
    + rewrite lookup_delete_ne // Hm. split; intros (t'&Hl&Ei'); exists t'; (split; [|done]).
      * rewrite lookup_delete_ne //. intros <-. congruence.
      * rewrite lookup_delete_Some in Hl. by destruct Hl.
Qed.
End itable.
