(* ===== verification/Iom.v ===== *)
(** * Building an IO map: iom_enc.h

    The builder writes a list of operations, each some 64-bit words, into a buffer of
    the kernel's request.  Pointers into the buffer are word indices; the words are the
    state, and a write outside of them aborts. *)

From S2P Require Import Prelude.

(** zus_api.h: how a type and a value, or a block number and a pool, make a word; the
    types; the byte offsets of [iom_e] in the two requests. *)
Class IomApi : Type := {
  _zufs_iom_enc_type_val : Z -> Z -> Z;
  _zufs_iom_enc_bn : Z -> Z -> Z;
  IOM_WBINV : Z;
  IOM_DISCARD : Z;
  IOM_UNMAP : Z;
  IOM_T2_WRITE : Z;
  IOM_T2_READ : Z;
  IOM_T2_ZUSMEM_WRITE : Z;
  IOM_T2_ZUSMEM_READ : Z;
  off_exec_iom_e : Z;
  off_io_iom_e : Z;
}.

(** [words] are the words from [iom_e] on; [end_iom_e] is a byte offset from there, all
    others are word indices.  [iomd] and [submit] tell which callbacks are set. *)
Record zus_iomap_build := ZusIomapBuild {
  cur_iom_e : Z;
  end_iom_e : Z;
  iom_max : Z;
  iom_n : Z;
  words : list Z;
  iomd : bool;
  submit : bool }.
Definition upd_cur (f : Z -> Z) (b : zus_iomap_build) : zus_iomap_build :=
  ZusIomapBuild (f (cur_iom_e b)) (end_iom_e b) (iom_max b) (iom_n b) (words b) (iomd b) (submit b).
Definition upd_iom_n (f : Z -> Z) (b : zus_iomap_build) : zus_iomap_build :=
  ZusIomapBuild (cur_iom_e b) (end_iom_e b) (iom_max b) (f (iom_n b)) (words b) (iomd b) (submit b).
Definition upd_words (f : list Z -> list Z) (b : zus_iomap_build) : zus_iomap_build :=
  ZusIomapBuild (cur_iom_e b) (end_iom_e b) (iom_max b) (iom_n b) (f (words b)) (iomd b) (submit b).
Definition upd_iomd (f : bool -> bool) (b : zus_iomap_build) : zus_iomap_build :=
  ZusIomapBuild (cur_iom_e b) (end_iom_e b) (iom_max b) (iom_n b) (words b) (f (iomd b)) (submit b).
Notation IOM := (ST zus_iomap_build).

Section iom.
Context `{IomApi}.

Definition put_word (k v : Z) : IOM unit :=
  n ← gets (fun b => Z.of_nat (length (words b)));
  assert ((0 <=? k) && (k <? n));; modify (upd_words (<[Z.to_nat k := v]>)).

Definition _zus_iom_len : IOM Z := gets cur_iom_e.
Definition _zus_iom_empty : IOM bool := n ← _zus_iom_len; mret (n =? 0).
(** The warning about a value with too many bits has no effect. *)
Definition _zus_iom_enc_type_val (ptr type val : Z) : IOM unit := put_word ptr (_zufs_iom_enc_type_val type val).
(** [end_ptr] as a byte offset from [iom_e]; the builder comes zeroed. *)
Definition _zus_iom_common_init (ws : list Z) (end_ptr : Z) (sub : bool) : zus_iomap_build :=
  ZusIomapBuild 0 end_ptr (end_ptr / 8) 0 ws false sub.
Definition _zus_iom_init_4_ioc_exec (ws : list Z) (max_bytes : Z) : zus_iomap_build :=
  _zus_iom_common_init ws (max_bytes - off_exec_iom_e) true.
Definition _zus_iom_init_4_ioc_io (ws : list Z) (max_bytes : Z) : zus_iomap_build :=
  _zus_iom_common_init ws (max_bytes - off_io_iom_e) false.
Definition _zus_iom_start (d : bool) : IOM unit :=
  modify (upd_cur (fun _ => 0));;
  modify (upd_iom_n (fun _ => 0));;
  put_word 0 0;;
  modify (upd_iomd (fun _ => d)).
Definition _zus_iom_end : IOM unit :=
  cur ← gets cur_iom_e;
  e ← gets end_iom_e;
  (if 8 * cur <? e then _zus_iom_enc_type_val cur 0 0 else mret tt);;
  n ← _zus_iom_len;
  modify (upd_iom_n (fun _ => n)).

(** Is there no room for [n] words?  [end_iom_e < next_iom_e]. *)
Definition no_room (n : Z) : IOM bool := cur ← gets cur_iom_e; e ← gets end_iom_e; mret (e <? 8 * (cur + n)).
Definition _zus_iom_enc_wbinv : IOM Z :=
  full ← no_room 1;
  if full : bool then mret (- ENOSPC) else
  cur ← gets cur_iom_e;
  modify (upd_cur (fun _ => cur + 1));;
  _zus_iom_enc_type_val cur IOM_WBINV 0;; mret 0.
Definition _zus_iom_enc_discard (t2_bn num_pages : Z) : IOM Z :=
  full ← no_room 2;
  if full : bool then mret (- ENOSPC) else
  cur ← gets cur_iom_e;
  _zus_iom_enc_type_val cur IOM_DISCARD t2_bn;;
  put_word (cur + 1) num_pages;;
  modify (upd_cur (fun _ => cur + 2));; mret 0.
Definition _zus_iom_enc_unmap (index n ino : Z) : IOM Z :=
  full ← no_room 3;
  if full : bool then mret (- ENOSPC) else
  cur ← gets cur_iom_e;
  _zus_iom_enc_type_val cur IOM_UNMAP index;;
  put_word (cur + 1) n;;
  put_word (cur + 2) ino;;
  modify (upd_cur (fun _ => cur + 3));; mret 0.
Definition _zus_iom_enc_t2_io (t2_bn t1_val type : Z) : IOM Z :=
  full ← no_room 2;
  if full : bool then mret (- ENOSPC) else
  cur ← gets cur_iom_e;
  _zus_iom_enc_type_val cur type t2_bn;;
  put_word (cur + 1) t1_val;;
  modify (upd_cur (fun _ => cur + 2));; mret 0.
Definition _zus_iom_enc_t2_write (t2_bn t1_val : Z) : IOM Z := _zus_iom_enc_t2_io t2_bn t1_val IOM_T2_WRITE.
Definition _zus_iom_enc_t2_read (t2_bn t1_val : Z) : IOM Z := _zus_iom_enc_t2_io t2_bn t1_val IOM_T2_READ.
Definition _zus_iom_enc_t2_zusmem_io (t2_bn ptr len type : Z) : IOM Z :=
  full ← no_room 3;
  if full : bool then mret (- ENOSPC) else
  cur ← gets cur_iom_e;
  _zus_iom_enc_type_val cur type t2_bn;;
  put_word (cur + 1) ptr;;
  put_word (cur + 2) len;;
  modify (upd_cur (fun _ => cur + 3));; mret 0.
Definition _zus_iom_enc_t2_zusmem_write (t2_bn ptr len : Z) : IOM Z := _zus_iom_enc_t2_zusmem_io t2_bn ptr len IOM_T2_ZUSMEM_WRITE.
Definition _zus_iom_enc_t2_zusmem_read (t2_bn ptr len : Z) : IOM Z := _zus_iom_enc_t2_zusmem_io t2_bn ptr len IOM_T2_ZUSMEM_READ.
(** Whether there is room for more. *)
Definition _ziom_enc_t1_bn (bn pool : Z) : IOM bool :=
  cur ← gets cur_iom_e;
  modify (upd_cur (fun _ => cur + 1));;
  put_word cur (_zufs_iom_enc_bn bn pool);;
  modify (upd_iom_n (fun n => n + 1));;
  e ← gets end_iom_e;
  mret (8 * (cur + 1) <? e).

(** ** Bounds and contents *)

(** The builder is inside its buffer, which has all words that end before [end_iom_e]. *)
Definition iom_ok (b : zus_iomap_build) : Prop :=
  0 <= cur_iom_e b /\ 8 * cur_iom_e b <= end_iom_e b /\ end_iom_e b <= 8 * Z.of_nat (length (words b)).
(** [b'] is [b] with the words [ws] appended. *)
Definition appended (b b' : zus_iomap_build) (ws : list Z) : Prop :=
  cur_iom_e b' = cur_iom_e b + Z.of_nat (length ws) /\ end_iom_e b' = end_iom_e b /\ iom_max b' = iom_max b /\
  length (words b') = length (words b) /\
  take (Z.to_nat (cur_iom_e b')) (words b') = take (Z.to_nat (cur_iom_e b)) (words b) ++ ws.

Lemma wp_put_word b k v (Q : unit -> zus_iomap_build -> Prop) :
  0 <= k < Z.of_nat (length (words b)) -> Q tt (upd_words (<[Z.to_nat k := v]>) b) -> wp (put_word k v) b Q.
Proof.
  intros Hk HQ. rewrite /put_word. wp_step. wp_step. wp_step. wp_step; [|by wp_step].
  destruct (Z.leb_spec 0 k), (Z.ltb_spec k (Z.of_nat (length (words b)))); (done || lia).
Qed.
Lemma wp_no_room b n (Q : bool -> zus_iomap_build -> Prop) : Q (end_iom_e b <? 8 * (cur_iom_e b + n)) b -> wp (no_room n) b Q.
Proof. intros HQ. rewrite /no_room. do 4 wp_step. by wp_step. Qed.
(** Writing [ws] from [c] on, one word after the other. *)
Fixpoint put_words (c : nat) (ws : list Z) (l : list Z) : list Z :=
  match ws with [] => l | w :: ws' => put_words (S c) ws' (<[c := w]> l) end.
Lemma put_words_length ws : forall c l, length (put_words c ws l) = length l.
Proof. induction ws as [|w ws IH]; intros c l; cbn [put_words]; [done|]. by rewrite IH length_insert. Qed.
Lemma take_put_words ws : forall c l, (c + length ws <= length l)%nat ->
  take (c + length ws) (put_words c ws l) = take c l ++ ws.
Proof.
  induction ws as [|w ws IH]; intros c l Hl; cbn [put_words length] in *; [by rewrite Nat.add_0_r app_nil_r|].
  replace (c + S (length ws))%nat with (S c + length ws)%nat by lia. rewrite IH; [rewrite length_insert; lia|].
  rewrite (take_S_r _ _ w); [apply list_lookup_insert_eq; lia|]. rewrite take_insert_ge; [lia|]. by rewrite -app_assoc.
Qed.
Lemma appended_put b ws n d : iom_ok b -> 8 * (cur_iom_e b + Z.of_nat (length ws)) <= end_iom_e b ->
  let b' := ZusIomapBuild (cur_iom_e b + Z.of_nat (length ws)) (end_iom_e b) (iom_max b) n
              (put_words (Z.to_nat (cur_iom_e b)) ws (words b)) d (submit b) in
  appended b b' ws /\ iom_ok b'.
Proof.
  intros (H0&H1&H2) Hr b'. split; [|split; [cbn; lia|split; [done|cbn; rewrite put_words_length; lia]]].
  split; [done|]. split; [done|]. split; [done|]. split; [cbn; by rewrite put_words_length|]. cbn.
  rewrite Z2Nat.inj_add; [lia..|]. rewrite Nat2Z.id. apply take_put_words. lia.
Qed.
(** The words of each operation. *)
Inductive iom_op := Wbinv | Discard (t2_bn num_pages : Z) | Unmap (index n ino : Z) | T2Write (t2_bn t1_val : Z)
  | T2Read (t2_bn t1_val : Z) | ZusmemWrite (t2_bn ptr len : Z) | ZusmemRead (t2_bn ptr len : Z).
Definition enc_op (o : iom_op) : IOM Z :=
  match o with
  | Wbinv => _zus_iom_enc_wbinv | Discard a b => _zus_iom_enc_discard a b | Unmap a b c => _zus_iom_enc_unmap a b c
  | T2Write a b => _zus_iom_enc_t2_write a b | T2Read a b => _zus_iom_enc_t2_read a b
  | ZusmemWrite a b c => _zus_iom_enc_t2_zusmem_write a b c | ZusmemRead a b c => _zus_iom_enc_t2_zusmem_read a b c
  end.
Definition op_words (o : iom_op) : list Z :=
  match o with
  | Wbinv => [_zufs_iom_enc_type_val IOM_WBINV 0]
  | Discard a b => [_zufs_iom_enc_type_val IOM_DISCARD a; b]
  | Unmap a b c => [_zufs_iom_enc_type_val IOM_UNMAP a; b; c]
  | T2Write a b => [_zufs_iom_enc_type_val IOM_T2_WRITE a; b]
  | T2Read a b => [_zufs_iom_enc_type_val IOM_T2_READ a; b]
  | ZusmemWrite a b c => [_zufs_iom_enc_type_val IOM_T2_ZUSMEM_WRITE a; b; c]
  | ZusmemRead a b c => [_zufs_iom_enc_type_val IOM_T2_ZUSMEM_READ a; b; c]
  end.
Lemma wp_enc_op b o (Q : Z -> zus_iomap_build -> Prop) :
  iom_ok b ->
  (end_iom_e b < 8 * (cur_iom_e b + Z.of_nat (length (op_words o))) -> Q (- ENOSPC) b) ->
  (forall b', appended b b' (op_words o) -> iom_ok b' -> Q 0 b') -> wp (enc_op o) b Q.
Proof.
  intros Hok HN HS. pose proof Hok as (H0&H1&H2).
  assert (Hgo : ~ end_iom_e b < 8 * (cur_iom_e b + Z.of_nat (length (op_words o))) ->
    Q 0 (ZusIomapBuild (cur_iom_e b + Z.of_nat (length (op_words o))) (end_iom_e b) (iom_max b) (iom_n b)
              (put_words (Z.to_nat (cur_iom_e b)) (op_words o) (words b)) (iomd b) (submit b))).
  { intros Hr. destruct (appended_put b (op_words o) (iom_n b) (iomd b)) as [Ha Ho]; [done|lia|]. by apply HS. }
  assert (Z.to_nat (cur_iom_e b + 1) = S (Z.to_nat (cur_iom_e b)) /\ Z.to_nat (cur_iom_e b + 2) = S (S (Z.to_nat (cur_iom_e b)))) as [E1 E2] by lia.
  destruct o; cbn [enc_op op_words length put_words] in *;
    rewrite /_zus_iom_enc_wbinv /_zus_iom_enc_discard /_zus_iom_enc_unmap /_zus_iom_enc_t2_write /_zus_iom_enc_t2_read /_zus_iom_enc_t2_io
      /_zus_iom_enc_t2_zusmem_write /_zus_iom_enc_t2_zusmem_read /_zus_iom_enc_t2_zusmem_io;
    wp_step; apply wp_no_room;
    lazymatch goal with |- context [?x <? ?y] => destruct (Z.ltb_spec x y) as [Hf|Hr] end;
    try (wp_step; apply HN; lia); wp_step; wp_step; rewrite /_zus_iom_enc_type_val; wp_steps;
    repeat (apply wp_put_word; [cbn [words upd_words upd_cur]; rewrite ?length_insert; lia|]; wp_steps);
    rewrite -?E2 -?E1 in Hgo; (apply Hgo; lia).
Qed.

(** Encoding operations up to the first that does not fit. *)
Fixpoint enc_ops (l : list iom_op) : IOM Z :=
  match l with [] => mret 0 | o :: l' => err ← enc_op o; if err =? 0 then enc_ops l' else mret err end.
Definition all_words (l : list iom_op) : list Z := concat (op_words <$> l).
Lemma wp_enc_ops l : forall b (Q : Z -> zus_iomap_build -> Prop), iom_ok b ->
  (forall b' ok no err, l = ok ++ no -> appended b b' (all_words ok) -> iom_ok b' ->
     match no with
     | [] => err = 0
     | o :: _ => err = - ENOSPC /\ end_iom_e b' < 8 * (cur_iom_e b' + Z.of_nat (length (op_words o)))
     end -> Q err b') -> wp (enc_ops l) b Q.
Proof.
  induction l as [|o l IH]; intros b Q Hok HQ; cbn [enc_ops].
  { wp_step. apply (HQ b [] []); [done| |done|done]. split_and!; [cbn; lia|done|done|done|]. by rewrite app_nil_r. }
  wp_step. apply wp_enc_op; [done| |].
  - intros Hf. change (- ENOSPC =? 0) with false. cbv iota. wp_step. apply (HQ b [] (o :: l)); [done| |done|done].
    split_and!; [cbn; lia|done|done|done|]. by rewrite app_nil_r.
  - intros b1 (A1&A2&A0&A3&A4) Hok1. cbn [Z.eqb]. apply IH; [done|]. intros b' ok no err -> (B1&B2&B0&B3&B4) Hok' Herr.
    apply (HQ b' (o :: ok) no); [done| |done|done]. change (all_words (o :: ok)) with (op_words o ++ all_words ok). split_and!; [rewrite length_app; lia|congruence|congruence|congruence|].
    by rewrite B4 A4 -app_assoc.
Qed.

(** Building a map in a buffer of [max_bytes]: the words are those of the operations in
    order, up to the first that does not fit, which gets -ENOSPC; they are counted, a
    null word ends them if there is room, and no write leaves the buffer. *)
Theorem iom_build_spec ws max_bytes d ops :
  8 <= max_bytes - off_io_iom_e <= 8 * Z.of_nat (length ws) ->
  wp (_zus_iom_start d;; err ← enc_ops ops; _zus_iom_end;; mret err) (_zus_iom_init_4_ioc_io ws max_bytes) (fun err b =>
    exists ok no, ops = ok ++ no /\
      match no with
      | [] => err = 0
      | o :: _ => err = - ENOSPC /\ max_bytes - off_io_iom_e < 8 * (iom_n b + Z.of_nat (length (op_words o)))
      end /\
      iom_n b = Z.of_nat (length (all_words ok)) /\ iom_n b <= iom_max b /\ length (words b) = length ws /\
      take (length (all_words ok)) (words b) = all_words ok /\
      (iom_n b < iom_max b -> words b !! length (all_words ok) = Some (_zufs_iom_enc_type_val 0 0))).
Proof.
  intros Hmax. rewrite /_zus_iom_start. wp_steps. apply wp_put_word; [cbn; lia|]. do 2 wp_step. set (b0 := upd_iomd _ _).
  assert (Hl : length (words b0) = length ws) by (cbn; by rewrite length_insert).
  assert (Hok0 : iom_ok b0) by (split; [done|split; [cbn; lia|rewrite Hl; cbn; lia]]).
  apply wp_enc_ops; [done|]. intros b' ok no err -> (A1&A2&A0&A3&A4) (K1&K2&K3) Herr.
  change (cur_iom_e b0) with 0 in *. change (end_iom_e b0) with (max_bytes - off_io_iom_e) in *. rewrite Z.add_0_l in A1.
  change (iom_max b0) with ((max_bytes - off_io_iom_e) / 8) in A0. change (Z.to_nat 0) with 0%nat in A4. rewrite take_0 app_nil_l in A4.
  assert (Eb : take (length (all_words ok)) (words b') = all_words ok) by (by rewrite -(Nat2Z.id (length (all_words ok))) -A1 A4).
  pose proof (Z.div_mod (max_bytes - off_io_iom_e) 8 ltac:(done)) as Hdm. pose proof (Z.mod_pos_bound (max_bytes - off_io_iom_e) 8 ltac:(done)) as Hmb.
  assert (Hfin : forall b2, cur_iom_e b2 = cur_iom_e b' -> iom_max b2 = iom_max b' -> length (words b2) = length ws ->
    take (length (all_words ok)) (words b2) = all_words ok ->
    (cur_iom_e b' < iom_max b' -> words b2 !! length (all_words ok) = Some (_zufs_iom_enc_type_val 0 0)) ->
    exists ok' no', ok ++ no = ok' ++ no' /\
      match no' with
      | [] => err = 0
      | o :: _ => err = - ENOSPC /\ max_bytes - off_io_iom_e < 8 * (cur_iom_e b2 + Z.of_nat (length (op_words o)))
      end /\ cur_iom_e b2 = Z.of_nat (length (all_words ok')) /\ cur_iom_e b2 <= iom_max b2 /\ length (words b2) = length ws /\
      take (length (all_words ok')) (words b2) = all_words ok' /\
      (cur_iom_e b2 < iom_max b2 -> words b2 !! length (all_words ok') = Some (_zufs_iom_enc_type_val 0 0))).
  { intros b2 E1 E2 E3 E4 E5. exists ok, no. rewrite E1 E2. split_and!; try done; [|lia]. destruct no; [done|]. by rewrite -A2. }
  rewrite /_zus_iom_end /_zus_iom_len. wp_steps. destruct (Z.ltb_spec (8 * cur_iom_e b') (end_iom_e b')) as [Hr|Hr].
  - apply wp_put_word; [lia|]. wp_steps. apply (Hfin (upd_words <[Z.to_nat (cur_iom_e b'):=_zufs_iom_enc_type_val 0 0]> b')); try done.
    + cbn. by rewrite length_insert A3 Hl.
    + cbn. rewrite take_insert_ge; [lia|done].
    + intros _. cbn. rewrite A1 Nat2Z.id. apply list_lookup_insert_eq. lia.
  - wp_steps. apply (Hfin b'); try done; [by rewrite A3 Hl|lia].
Qed.

(** A block number of tier 1 is written without a check for room: the answer tells
    whether there is any for the next one. *)
Lemma wp_t1_bn b bn pool (Q : bool -> zus_iomap_build -> Prop) :
  iom_ok b -> 8 * (cur_iom_e b + 1) <= end_iom_e b ->
  (forall b', appended b b' [_zufs_iom_enc_bn bn pool] -> iom_ok b' -> iom_n b' = iom_n b + 1 ->
     Q (bool_decide (8 * (cur_iom_e b' + 1) <= end_iom_e b' + 7)) b') -> wp (_ziom_enc_t1_bn bn pool) b Q.
Proof.
  intros Hok Hr HQ. pose proof Hok as (H0&H1&H2). rewrite /_ziom_enc_t1_bn. wp_steps. apply wp_put_word; [cbn; lia|]. wp_steps.
  destruct (appended_put b [_zufs_iom_enc_bn bn pool] (iom_n b + 1) (iomd b)) as [Ha Ho]; [done|cbn; lia|].
  cbn [put_words length] in Ha, Ho. change (Z.of_nat 1) with 1 in *. specialize (HQ _ Ha Ho eq_refl). cbn in HQ.
  cbn [end_iom_e upd_iom_n upd_words upd_cur]. revert HQ. case_bool_decide; destruct (Z.ltb_spec (8 * (cur_iom_e b + 1)) (end_iom_e b)); (done || lia).
Qed.
End iom.

Section example.
#[local] Instance example_iom : IomApi := {|
  _zufs_iom_enc_type_val t v := t * 2 ^ 56 + v; _zufs_iom_enc_bn bn pool := bn;
  IOM_WBINV := 1; IOM_DISCARD := 2; IOM_UNMAP := 3; IOM_T2_WRITE := 4; IOM_T2_READ := 5; IOM_T2_ZUSMEM_WRITE := 6;
  IOM_T2_ZUSMEM_READ := 7; off_exec_iom_e := 64; off_io_iom_e := 128 |}.
(** Room for four words: the second of the two fits, the third does not. *)
Lemma iom_build_spec_witness :
  wp (_zus_iom_start false;; err ← enc_ops [Unmap 5 6 7; Wbinv; Wbinv]; _zus_iom_end;; mret err)
    (_zus_iom_init_4_ioc_io [9; 9; 9; 9] 160) (fun err b => iom_n b <= iom_max b /\ length (words b) = 4%nat).
Proof.
  eapply wp_mono; [apply (iom_build_spec [9; 9; 9; 9] 160 false [Unmap 5 6 7; Wbinv; Wbinv]); split; discriminate|].
  intros err b (ok&no&_&_&_&H1&H2&_). split; [exact H1|exact H2].
Defined.
End example.
