(* ===== verification/Inode.v ===== *)
(** * Inodes: fs/toyfs/inode.c, fs/toyfs/symlink.c and fs/toyfs/mmap.c

    Creation, lookup by number, eviction and deletion of inodes; the target of a
    symbolic link; the pages of a mapped file. *)

From S2P Require Import Prelude Bytes CList State Pool File DirPage Dir Super Xattr Iom.

(** zus_api.h *)
Class InodeApi : Type := {
  ZI_TMPFILE : Z;
  ZUFS_RW_MMAP : Z;
  ZUFS_OP_GET_MULTY : Z;
  ZUFS_RET_NEW : Z;
  _ioc_IO_size : Z -> Z;
}.
Definition zi_isreg (i : toyfs_inode) : bool := S_ISTYPE S_IFREG (i_mode i).
Definition zi_islnk (i : toyfs_inode) : bool := S_ISTYPE S_IFLNK (i_mode i).
(** [sizeof(ti->i_symlink)] *)
Definition SYMLINK_INLINE : Z := 32.
Definition i_sym_dpp (i : toyfs_inode) : Z := le_val (slice 0 8 (i_union i)).
Definition upd_i_sym_dpp (dpp : Z) : toyfs_inode -> toyfs_inode := upd_i_union (fun u => le_bytes 8 dpp ++ drop 8 u).
Definition upd_i_rdev (r : Z) : toyfs_inode -> toyfs_inode := upd_i_union (fun u => le_bytes 4 r ++ drop 4 u).

(** The request: [n_zi] is the inode to copy; its [list_head] has the reserved bytes of
    [struct zus_inode], which nothing reads. *)
Record zufs_ioc_new_inode := ZufsIocNewInode { n_zi : toyfs_inode; n_dir_ii : Z; n_flags : Z }.

Section inode.
Context `{MdApi} `{MallocApi} `{InodeApi}.

(** ** Symbolic links *)
(** Where the target is: in the inode, or in a page. *)
Inductive sym_ptr := SymInode (ti : Z) | SymPage (pmemb : Z).
Definition _get_symlink (tii : Z) : FS (Z * option sym_ptr) :=
  ti ← tii_ti tii;
  islnk ← get_inode ti zi_islnk;
  if negb islnk then mret (- EINVAL, None) else
  size ← get_inode ti i_size;
  if size <? SYMLINK_INLINE then mret (0, Some (SymInode ti)) else
  dpp ← get_inode ti i_sym_dpp;
  mret (0, Some (SymPage (toyfs_dpp2pmemb dpp))).
Definition toyfs_get_symlink (zii : Z) : FS (Z * option sym_ptr) := tii ← toyfs_zii_to_tii zii; _get_symlink tii.
Definition toyfs_release_symlink (tii : Z) : FS unit :=
  ti ← tii_ti tii;
  symlen ← get_inode ti i_size;
  (if SYMLINK_INLINE <? symlen then dpp ← get_inode ti i_sym_dpp; toyfs_release_pmemb (toyfs_dpp2pmemb dpp) else mret tt);;
  set_inode ti (upd_i_size (fun _ => 0));;
  set_inode ti (upd_i_sym_dpp 0).

(** ** New inodes *)
(** The value before the addition. *)
Definition _next_ino : FS Z := n ← gets s_top_ino; modify (upd_s_top_ino (fun n => u64 (n + 1)));; mret n.
Definition issupported (i : toyfs_inode) : bool :=
  zi_isdir i || zi_isreg i || zi_islnk i || S_ISTYPE S_IFCHR (i_mode i) || S_ISTYPE S_IFBLK (i_mode i) ||
  S_ISTYPE S_IFIFO (i_mode i) || S_ISTYPE S_IFSOCK (i_mode i).
(** The part after [ti] was acquired that depends on the type: false asks for
    [goto out_err]. *)
Definition new_inode_type (dir_tii ti : Z) (symname : list Z) (ioc : zufs_ioc_new_inode) : FS bool :=
  let zi := n_zi ioc in
  if zi_isdir zi then
    set_inode ti (upd_list_head (fun _ => []));;
    set_inode ti (upd_i_size (fun _ => 0));;
    dir_ti ← tii_ti dir_tii;
    parent ← get_inode dir_ti i_ino;
    set_inode ti (upd_i_dir_parent (fun _ => parent));;
    dir_zi ← tii_zi dir_tii;
    zus_std_new_dir dir_zi ti;;
    mret true
  else if zi_isreg zi then
    set_inode ti (upd_list_head (fun _ => []));;
    (if negb (Z.land (n_flags ioc) ZI_TMPFILE =? 0) then set_inode ti (upd_i_nlink (fun _ => 1)) else mret tt);;
    mret true
  else if zi_islnk zi then
    symlen ← get_inode ti i_size;
    if SYMLINK_INLINE <=? symlen then
      pmemb ← toyfs_acquire_pmemb;
      match pmemb with
      | None => toyfs_release_inode ti;; mret false
      | Some p =>
        assert (symlen <=? Z.of_nat (length symname));;
        dat ← load_pmemb p;
        store_pmemb p (blit dat 0 (take (Z.to_nat symlen) symname));;
        set_inode ti (upd_i_sym_dpp (toyfs_page2dpp p));;
        mret true
      end
    else mret true
  else mret true.
Definition toyfs_new_inode (app_ptr : list Z) (ioc : zufs_ioc_new_inode) : FS (option Z) :=
  let zi := n_zi ioc in
  dir_tii ← toyfs_zii_to_tii (n_dir_ii ioc);
  zii ← toyfs_zii_alloc;
  match zii with
  | None => mret None
  | Some tii =>
    if negb (issupported zi) then toyfs_tii_free tii;; mret None else
    if PAGE_SIZE <=? i_size zi then toyfs_tii_free tii;; mret None else
    r ← toyfs_acquire_inode;
    match r with
    | None => toyfs_tii_free tii;; mret None
    | Some p =>
      ino ← _next_ino;
      modify (upd_h_inode (<[p := zi]>));;
      update h_tii upd_h_tii tii (fun t => upd_zi (fun _ => Some p) (upd_ino (fun _ => ino) (upd_ti (fun _ => Some p) t)));;
      set_inode p (upd_i_ino (fun _ => ino));;
      ok ← new_inode_type dir_tii p app_ptr ioc;
      if negb ok then toyfs_tii_free tii;; mret None else
      toyfs_lock_inodes;;
      toyfs_i_track tii;;
      update h_tii upd_h_tii tii (upd_ref (fun n => s32 (n + 1)));;
      toyfs_unlock_inodes;;
      mret (Some tii)
    end
  end.

(** ** Deletion *)
Definition toyfs_free_inode (tii : Z) : FS unit :=
  ti ← tii_ti tii;
  zi ← tii_zi tii;
  i ← get_inode zi (fun i => i);
  size ← get_inode ti i_size;
  if zi_isdir i && negb (size =? 0) then mret tt else
  (if zi_isdir i then toyfs_release_dir tii;; set_inode zi (upd_i_dir_parent (fun _ => 0))
   else if zi_islnk i then toyfs_release_symlink tii
   else if zi_isreg i then toyfs_truncate tii 0;; mret tt
   else set_inode zi (upd_i_rdev 0));;
  toyfs_drop_xattr tii;;
  toyfs_release_inode ti.
(** The reference counter is decremented and the last one takes the inode apart. *)
Definition toyfs_evict (zii : Z) : FS unit :=
  tii ← toyfs_zii_to_tii zii;
  t ← load h_tii tii;
  toyfs_lock_inodes;;
  update h_tii upd_h_tii tii (upd_ref (fun n => s32 (n - 1)));;
  t' ← load h_tii tii;
  (if negb (ref t' =? 0) then mret tt else
   toyfs_sbi_lock;;
   p ← of_option (ti t);
   nlink ← get_inode p i_nlink;
   (if nlink =? 0 then
      toyfs_free_inode tii;;
      t ← load h_tii tii;
      if mapped t then toyfs_i_untrack tii true else mret tt
    else
      t ← load h_tii tii;
      if mapped t then toyfs_i_untrack tii false else mret tt);;
   toyfs_tii_free tii;;
   toyfs_sbi_unlock);;
  toyfs_unlock_inodes.

(** ** Lookup by number *)
Definition toyfs_iget (ino : Z) : FS (Z * option Z) :=
  tir ← toyfs_find_inode_ref_by_ino ino;
  match tir with
  | None => mret (- ENOENT, None)
  | Some tir =>
    toyfs_lock_inodes;;
    r ← load h_tir tir;
    tii ← match r_tii r with
          | Some tii => mret (Some tii)
          | None =>
            n ← toyfs_alloc_ii;
            match n with
            | None => mret None
            | Some tii =>
              update h_tir upd_h_tir tir (upd_r_tii (fun _ => Some tii));;
              update h_tii upd_h_tii tii (upd_mapped (fun _ => true));;
              mret (Some tii)
            end
          end;
    match tii with
    | None => toyfs_unlock_inodes;; mret (- ENOMEM, None)
    | Some tii =>
      update h_tii upd_h_tii tii (upd_ref (fun n => s32 (n + 1)));;
      toyfs_unlock_inodes;; mret (0, Some tii)
    end
  end.
(** The kernel has written the attributes; they are only logged. *)
Definition _setattr (tii enable_bits : Z) : FS Z := zi ← tii_zi tii; mret 0.
Definition toyfs_setattr (zii enable_bits : Z) : FS Z := tii ← toyfs_zii_to_tii zii; _setattr tii enable_bits.

(** ** Mapped files *)
Definition ZUS_MAX_OP_SIZE : Z := PAGE_SIZE * 16.
Definition GB_WRITE : Z := 1.
(** [g_words] are the words of the request from [ziom.iom_e] on. *)
Record get_block_io := GetBlockIO { g_filepos : Z; g_rw : Z; g_operation : Z; g_words : list Z }.
Record get_block_out := GetBlockOut { ret_flags : Z; out_len : Z; ziom : zus_iomap_build }.
Context `{IomApi}.

(** One block number in the map. *)
Definition one_bn (io : get_block_io) (bn : Z) : option zus_iomap_build :=
  snd <$> (_zus_iom_start false;; _ziom_enc_t1_bn bn 0;; _zus_iom_end) (_zus_iom_init_4_ioc_io (g_words io) ZUS_MAX_OP_SIZE).
Definition _resolve_bn (pmemb : Z) : Z := if negb (pmemb =? 0) then toyfs_addr2bn pmemb else 0.
Definition _get_block_rd (tii off : Z) (io : get_block_io) : FS (Z * option get_block_out) :=
  pmemb ← toyfs_resolve_pmemb tii off;
  b ← of_option (one_bn io (_resolve_bn pmemb));
  mret (0, Some (GetBlockOut 0 (_ioc_IO_size 1) b)).
Definition _get_block_wr (tii off : Z) (io : get_block_io) : FS (Z * option get_block_out) :=
  pmemb ← toyfs_resolve_pmemb tii off;
  if negb (pmemb =? 0) then
    b ← of_option (one_bn io (_resolve_bn pmemb));
    mret (0, Some (GetBlockOut 0 (_ioc_IO_size 1) b))
  else
  pmem_bn ← toyfs_require_pmem_bn tii off;
  if negb (pmem_bn =? 0) then
    b ← of_option (one_bn io pmem_bn);
    mret (0, Some (GetBlockOut ZUFS_RET_NEW (_ioc_IO_size 1) b))
  else mret (- ENOSPC, None).
Definition _get_multy (zii : Z) (io : get_block_io) : FS (Z * option get_block_out) :=
  tii ← toyfs_zii_to_tii zii;
  zi ← tii_zi tii;
  isreg ← get_inode zi zi_isreg;
  if negb isreg then mret (- ENOTSUP, None) else
  if Z.land (g_rw io) ZUFS_RW_MMAP =? 0 then mret (- ENOTSUP, None) else
  if negb (Z.land (g_rw io) GB_WRITE =? 0) then _get_block_wr tii (s64 (g_filepos io)) io
  else _get_block_rd tii (s64 (g_filepos io)) io.
Definition _put_multy (zii : Z) (io : get_block_io) : FS (Z * option get_block_out) :=
  tii ← toyfs_zii_to_tii zii;
  if Z.land (g_rw io) ZUFS_RW_MMAP =? 0 then mret (- ENOTSUP, None) else mret (0, None).
Definition toyfs_get_put_multy (zii : Z) (io : get_block_io) : FS (Z * option get_block_out) :=
  if g_operation io =? ZUFS_OP_GET_MULTY then _get_multy zii io else _put_multy zii io.
Definition toyfs_mmap_close (zii : Z) : FS Z := tii ← toyfs_zii_to_tii zii; mret 0.
End inode.

Definition example_inode_api : InodeApi := {|
  ZI_TMPFILE := 1; ZUFS_RW_MMAP := 16; ZUFS_OP_GET_MULTY := 20; ZUFS_RET_NEW := 2; _ioc_IO_size n := 128 + 8 * n |}.
