(* ===== verification/InodeSpec.v ===== *)
(** * Inodes and the invariant of the file system

    Taking an inode from the pool, giving one back, and the in-core inodes: what these
    steps do to the invariant of the files ([fs_inv]) and to the inode table. *)

From S2P Require Import Prelude Bytes CList State Pool File FileInv FileSpec FileOps FileClaims DirPage Pages Dir DirSpec DirOps DirEx DirClaims Super Itable Xattr XattrSpec Iom Inode.

(** ** Fields outside of the pools and the files *)
Section outer.
Context `{MdLaws}.
Implicit Types (F N X : gset Z).

Lemma fs_inv_locks s F N X m l : fs_inv s F N X -> 0 <= m -> 0 <= l ->
  fs_inv (upd_s_inodes_lock (fun _ => l) (upd_s_mutex (fun _ => m) s)) F N X.
Proof.
  intros (A&I&(P&D&((L1&L2&L3&L4)&Hp)&Hst)&HF) Hm Hl. exists A, I. split; [|exact HF]. exists P, D. split; [|exact Hst].
  split; [by split_and!|exact Hp].
Qed.
Lemma fs_inv_smutex s F N X m : fs_inv s F N X -> 0 <= m -> fs_inv (upd_s_mutex (fun _ => m) s) F N X.
Proof.
  intros (A&I&(P&D&((L1&L2&L3&L4)&Hp)&Hst)&HF) Hm. exists A, I. split; [|exact HF]. exists P, D. split; [|exact Hst].
  split; [by split_and!|exact Hp].
Qed.
Lemma fs_inv_ilock s F N X l : fs_inv s F N X -> 0 <= l -> fs_inv (upd_s_inodes_lock (fun _ => l) s) F N X.
Proof.
  intros (A&I&(P&D&((L1&L2&L3&L4)&Hp)&Hst)&HF) Hm. exists A, I. split; [|exact HF]. exists P, D. split; [|exact Hst].
  split; [by split_and!|exact Hp].
Qed.
Lemma fs_inv_itable s F N X t h : fs_inv s F N X -> 0 <= t_mutex t -> fs_inv (with_tir s h t) F N X.
Proof.
  intros (A&I&(P&D&((L1&L2&L3&L4)&Hp)&Hst)&HF) Hm. exists A, I. split; [|exact HF]. exists P, D. split; [|exact Hst].
  split; [by split_and!|exact Hp].
Qed.
Lemma fs_inv_top s F N X f : fs_inv s F N X -> fs_inv (upd_s_top_ino f s) F N X.
Proof. done. Qed.
Lemma fs_inv_ffree s F N X f g : fs_inv s F N X -> fs_inv (upd_s_statvfs (upd_f_favail f) (upd_s_statvfs (upd_f_ffree g) s)) F N X.
Proof. done. Qed.
Lemma fs_inv_lock_nonneg s F N X : fs_inv s F N X -> 0 <= s_mutex s /\ 0 <= s_inodes_lock s /\ 0 <= t_mutex (s_itable s).
Proof. intros (A&I&(P&D&((L1&L2&L3&L4)&_)&_)&_). done. Qed.

Lemma sbi_lock_id s : upd_s_mutex Z.pred (upd_s_mutex Z.succ s) = s.
Proof. destruct s. cbv [upd_s_mutex State.s_mutex]. by rewrite Z.pred_succ. Qed.
Lemma ilock_id s : upd_s_inodes_lock Z.pred (upd_s_inodes_lock Z.succ s) = s.
Proof. destruct s. cbv [upd_s_inodes_lock State.s_inodes_lock]. by rewrite Z.pred_succ. Qed.
Lemma wp_sbi_unlock' s (Q : unit -> toyfs_sb_info -> Prop) : 0 < s_mutex s -> Q tt (upd_s_mutex Z.pred s) -> wp toyfs_sbi_unlock s Q.
Proof.
  intros Hl HQ. rewrite /toyfs_sbi_unlock /toyfs_mutex_unlock. do 3 wp_step. wp_step; [by apply Z.ltb_lt|]. by wp_step.
Qed.
Lemma wp_unlock_inodes s (Q : unit -> toyfs_sb_info -> Prop) :
  0 < s_inodes_lock s -> Q tt (upd_s_inodes_lock Z.pred s) -> wp toyfs_unlock_inodes s Q.
Proof.
  intros Hl HQ. rewrite /toyfs_unlock_inodes /toyfs_mutex_unlock. do 3 wp_step. wp_step; [by apply Z.ltb_lt|]. by wp_step.
Qed.

(** ** Inode records *)
(** A record from the pool; it may be filled as any inode that is no file, or as an
    empty file. *)
Definition same_files (s s' : toyfs_sb_info) F X : Prop :=
  (forall tj, tj ∈ F -> h_inode s' !! tj = h_inode s !! tj /\ fblocks s' tj = fblocks s tj) /\
  (forall p, p ∈ X -> h_page s' !! p = h_page s !! p).
Lemma same_files_refl s F X : same_files s s F X.
Proof. done. Qed.
Lemma same_files_trans s1 s2 s3 F X : same_files s1 s2 F X -> same_files s2 s3 F X -> same_files s1 s3 F X.
Proof.
  intros [H1 P1] [H2 P2]. split.
  - intros tj Hj. destruct (H1 tj Hj), (H2 tj Hj). split; congruence.
  - intros p Hp. rewrite P2 // P1 //.
Qed.
Lemma wp_new_slot s F N X (Q : option Z -> toyfs_sb_info -> Prop) :
  fs_inv s F N X -> F ⊆ N ->
  (forall s', rest s' = rest s -> recs s' = recs s -> s_statvfs s' = s_statvfs s -> fs_inv s' F N X -> same_files s s' F X -> Q None s') ->
  (forall x s', x ∉ N -> rest s' = rest s -> recs s' = recs s -> s_statvfs s' = s_statvfs s ->
     (forall i, fs_inv (upd_h_inode (<[x := i]>) s') F ({[x]} ∪ N) X /\ same_files s (upd_h_inode (<[x := i]>) s') F X /\
        (list_head i = [] -> i_blocks i = 0 -> 0 <= i_size i < 2 ^ 63 ->
           fs_inv (upd_h_inode (<[x := i]>) s') ({[x]} ∪ F) ({[x]} ∪ N) X)) -> Q (Some x) s') ->
  wp toyfs_acquire_inode s Q.
Proof.
  intros (A&I&(P&D&Hpool&Hst&HA&HX&HDX)&HF&Hdis) HFN HN HS. pose proof Hst as (St1&_&St3&_).
  assert (Hfb : forall s1, h_dblkref s1 = h_dblkref s -> h_iblkref s1 = h_iblkref s -> (forall p, p ∈ P -> h_page s1 !! p = h_page s !! p) ->
    (forall tj, tj ∈ F -> h_inode s1 !! tj = h_inode s !! tj) -> same_files s s1 F X).
  { intros s1 Ed Ei Hpg Hino. split; [|intros p Hp; by apply Hpg, HX]. intros tj Hj. split; [by apply Hino|].
    rewrite /fblocks. assert (flist s1 tj = flist s tj) as -> by (by rewrite /flist Hino). apply lblocks_same. intros x Hx. split; [by rewrite Ei|].
    destruct (HF tj Hj) as (i&Hi&(Hl&_)&_). rewrite (flist_eq _ _ _ Hi) in Hx. destruct (Hl x Hx) as (HxA&_).
    destruct (St3 x HxA) as (d&Hxd&HdD). destruct (St1 d HdD) as (r&Hr&_&HrP&_).
    rewrite /ib_dat /ib_d Ei -/(ib_d s x) Hxd /=. rewrite /d_page Ed Hr /=. by rewrite /page_dat Hpg. }
  apply (wp_pool_pop_inode s P D I N); [done| |].
  { intros s' Hr He Hs Hpg _ Hpool'. injection He as Ed Ei En.
    assert (Hfb' : same_files s s' F X) by (apply Hfb; [done|done|done|by rewrite En]).
    apply HN; [done|by rewrite /recs Ed Ei En|done| |done]. exists A, I.
    assert (Hfl : forall tj, flist s' tj = flist s tj) by (intros; by rewrite /flist En).
    split_and!; [eapply (st_inv_new s s' P D); try done| |intros t1 t2 x; rewrite !Hfl; by apply Hdis].
    intros tj Hj. destruct (HF tj Hj) as (j&Hjs&Hok&Hjb). exists j. rewrite En. split; [done|]. split; [|done].
    eapply list_ok_same; [|..|exact Hok]; [intros y _; by rewrite Ei|done]. }
  intros x s' Hx Hr He Hs Hpg Hpool'. apply HS; [done..|]. intros i. injection He as Ed Ei En. set (s1 := upd_h_inode _ s').
  assert (Hi1 : h_inode s1 = <[x := i]> (h_inode s)) by (rewrite /s1; fs_simpl; by rewrite En).
  assert (Hother : forall tj, tj ∈ F -> h_inode s1 !! tj = h_inode s !! tj).
  { intros tj Hj. rewrite Hi1 lookup_insert_ne //. set_solver + Hx HFN Hj. }
  assert (Hst1 : st_inv s1 I ({[x]} ∪ N) A X None) by (eapply (st_inv_new s s1 P D); try done).
  assert (HFl : forall tj, tj ∈ F -> exists j, h_inode s1 !! tj = Some j /\ inode_ok s1 A j).
  { intros tj Hj. destruct (HF tj Hj) as (j&Hjs&Hok&Hjb). exists j. rewrite Hother //. split; [done|]. split; [|done].
    eapply list_ok_same; [|..|exact Hok]; [intros y _; by rewrite /s1; fs_simpl; rewrite Ei|done]. }
  assert (Hfl : forall tj, tj ∈ F -> flist s1 tj = flist s tj) by (intros; by rewrite /flist Hother).
  assert (Hd1 : forall t1 t2 y, t1 ∈ F -> t2 ∈ F -> t1 <> t2 -> y ∈ flist s1 t1 -> y ∉ flist s1 t2).
  { intros t1 t2 y H1 H2. rewrite !Hfl //. by apply Hdis. }
  split; [exists A, I; by split_and!|]. split; [by apply Hfb|]. intros Hl Hb Hsz.
  assert (Hf0 : flist s1 x = []) by (rewrite (flist_eq _ _ i) // Hi1 lookup_insert_eq //).
  exists A, I. split_and!; [done| |].
  - intros tj [->%elem_of_singleton|Hj]%elem_of_union; [|by apply HFl].
    exists i. split; [by rewrite Hi1 lookup_insert_eq|]. rewrite /inode_ok /list_ok Hl Hb. split_and!; try done; try lia.
    + by intros y ?%elem_of_nil.
    + constructor.
  - intros tj tk y [->%elem_of_singleton|Hj]%elem_of_union [->%elem_of_singleton|Hk]%elem_of_union Hne.
    + done.
    + by rewrite Hf0 => /elem_of_nil.
    + rewrite Hf0 => _ /elem_of_nil. done.
    + by apply Hd1.
Qed.
(** Giving a record back: the inode is a file no more. *)
Lemma wp_release_slot s F N X p (Q : unit -> toyfs_sb_info -> Prop) :
  fs_inv s F N X -> p ∈ N ->
  (forall s', rest s' = rest s -> s_statvfs s' = s_statvfs s -> h_page s' = h_page s -> h_inode s' = <[p := zero_inode]> (h_inode s) ->
     fs_inv s' (F ∖ {[p]}) (N ∖ {[p]}) X -> same_files s s' (F ∖ {[p]}) X -> Q tt s') ->
  wp (toyfs_release_inode p) s Q.
Proof.
  intros (A&I&(P&D&Hpool&Hst&HA&HX&HDX)&HF&Hdis) Hp HQ. apply (wp_release_inode s P D I N); [done..|].
  intros s' Hr He Hs Hpg _ Hpool'. injection He as Ed Ei En.
  assert (Hother : forall tj, tj ∈ F ∖ {[p]} -> h_inode s' !! tj = h_inode s !! tj).
  { intros tj [_ Hne]%elem_of_difference. rewrite En lookup_insert_ne //. intros ->. apply Hne. by apply elem_of_singleton. }
  assert (Hfl : forall tj, tj ∈ F ∖ {[p]} -> flist s' tj = flist s tj) by (intros; by rewrite /flist Hother).
  assert (HsubF : forall tj, tj ∈ F ∖ {[p]} -> tj ∈ F) by (intros tj Hj; set_solver + Hj).
  apply HQ; [done..| |].
  - exists A, I. split_and!.
    + eapply (st_inv_new s s' P D); try done.
    + intros tj Hj. destruct (HF tj (HsubF tj Hj)) as (j&Hjs&Hok&Hjb). exists j. rewrite Hother //. split; [done|]. split; [|done].
      eapply list_ok_same; [|..|exact Hok]; [intros y _; by rewrite Ei|done].
    + intros t1 t2 y H1 H2. rewrite !Hfl //. by apply Hdis; apply HsubF.
  - split; [|by rewrite Hpg]. intros tj Hj. split; [by apply Hother|]. rewrite /fblocks Hfl //. apply lblocks_same. intros x Hx.
    split; [by rewrite Ei|]. by rewrite /ib_dat /ib_d /d_page /page_dat Ei Ed Hpg.
Qed.

(** ** In-core inodes *)
Context `{!MallocApi}.
Definition new_tii : toyfs_inode_info := ToyfsInodeInfo None true true None 0 TOYFS_IMAGIC 0 false true.
Definition alloc_state (s : toyfs_sb_info) (tii : Z) : toyfs_sb_info :=
  upd_s_statvfs (upd_f_favail (fun n => u64 (n - 1))) (upd_s_statvfs (upd_f_ffree (fun n => u64 (n - 1))) (upd_h_tii (<[tii := new_tii]>) s)).
Definition free_state (s : toyfs_sb_info) (tii : Z) : toyfs_sb_info :=
  upd_s_statvfs (upd_f_favail (fun n => u64 (n + 1))) (upd_s_statvfs (upd_f_ffree (fun n => u64 (n + 1))) (upd_h_tii (delete tii) s)).
Lemma wp_alloc_ii s `{!MallocLaws} (Q : option Z -> toyfs_sb_info -> Prop) :
  0 <= s_mutex s -> Q None s ->
  (forall tii, h_tii s !! tii = None -> h_tir s !! tii = None -> (exists D, zus_malloc D = Some tii) -> Q (Some tii) (alloc_state s tii)) ->
  wp toyfs_alloc_ii s Q.
Proof.
  intros Hl HN HS. rewrite /toyfs_alloc_ii. wp_step. rewrite /toyfs_sbi_lock /toyfs_mutex_lock. do 6 wp_step.
  assert (Hend : forall r s1, s_mutex s1 = s_mutex s -> Q r s1 -> wp (toyfs_sbi_unlock;; mret r) (upd_s_mutex Z.succ s1) Q).
  { intros r s1 E HQ. wp_step. apply wp_sbi_unlock'; [fs_simpl; lia|]. wp_step. by rewrite sbi_lock_id. }
  case_match; [wp_step; by apply Hend|]. wp_step. wp_step.
  change (malloced (upd_s_mutex Z.succ s)) with (malloced s). destruct (zus_malloc (malloced s)) as [tii|] eqn:Em; [|wp_step; by apply Hend].
  do 7 wp_step. apply (Hend (Some tii) (alloc_state s tii)); [done|]. pose proof Em as Em'. apply zus_malloc_fresh in Em.
  apply HS; [| |by eexists]; apply not_elem_of_dom; intros Hin; apply Em; rewrite /malloced; set_solver + Hin.
Qed.
Lemma wp_tii_free s tii t (Q : unit -> toyfs_sb_info -> Prop) :
  h_tii s !! tii = Some t -> tii_sbi t = true -> Q tt (free_state s tii) -> wp (toyfs_tii_free tii) s Q.
Proof.
  intros Ht Hb HQ. rewrite /toyfs_tii_free. wp_step. wp_step; [exact Ht|]. wp_step. wp_step; [done|]. do 4 wp_step. by wp_step.
Qed.

(** The table does not see changes of other in-core inodes. *)
Lemma itable_is_tii s m f : itable_is s m ->
  (forall tii t, h_tii s !! tii = Some t -> (exists tir r, tirs s !! tir = Some r /\ r_tii r = Some tii) -> exists t', f (h_tii s) !! tii = Some t' /\ ino t' = ino t) ->
  itable_is (upd_h_tii f s) m.
Proof.
  intros [[L1 L2 L3 L4 L5 L6] Hm] Hf. split; [|exact Hm]. split; try done.
  intros tir r tii Hr Ht. destruct (L6 tir r tii Hr Ht) as (t&Htt&E). destruct (Hf tii t Htt) as (t'&Ht'&E'); [by exists tir, r|].
  exists t'. split; [exact Ht'|]. by rewrite E'.
Qed.
(** Nor anything but its own fields. *)
Lemma itable_is_view s s' m : itable_is s m -> s_itable s' = s_itable s -> h_tir s' = h_tir s -> h_tii s' = h_tii s -> itable_is s' m.
Proof.
  intros [[L1 L2 L3 L4 L5 L6] Hm] E1 E2 E3. pose proof (tirs_same s s' E1 E2) as Et. split; [|intros i r; rewrite Et; apply Hm].
  split; [by rewrite E1|intros sl|intros sl tir; rewrite Et|rewrite Et; exact L4|by rewrite E1 Et|rewrite Et E3; exact L6].
  - rewrite /slot_chain E1. apply L2.
  - rewrite /slot_chain E1. apply L3.
Qed.
Lemma itable_is_fresh s m tii t : itable_is s m -> h_tii s !! tii = None -> itable_is (upd_h_tii (<[tii := t]>) s) m.
Proof.
  intros Hm Hn. apply itable_is_tii; [done|]. intros tii' t' Ht' _. exists t'. rewrite lookup_insert_ne //. congruence.
Qed.
Lemma itable_is_upd s m tii t f : itable_is s m -> h_tii s !! tii = Some t -> ino (f t) = ino t ->
  itable_is (upd_h_tii (<[tii := f t]>) s) m.
Proof.
  intros Hm Ht E. apply itable_is_tii; [done|]. intros tii' t' Ht' _. rewrite lookup_insert. case_decide as Ed; [|by exists t'].
  subst tii'. exists (f t). split; [done|]. congruence.
Qed.
End outer.
