(* ===== verification/InodeOps.v ===== *)
(** * Creating inodes

    [toyfs_new_inode] step by step: the in-core inode, the record, the part that
    depends on the type, the entry in the inode table. *)

From S2P Require Import Prelude Bytes CList State Pool File FileInv FileSpec FileOps FileClaims DirPage Pages Dir DirSpec DirOps DirEx DirClaims Super Itable Xattr XattrSpec Iom Inode InodeSpec.

Section create.
Context `{MdLaws} `{MallocLaws} `{InodeApi}.
Implicit Types (F N X : gset Z) (m : gmap Z toyfs_inode_ref).

(** Steps that leave everything but the table and the in-core inodes alone. *)
Lemma it_rest_eq s s' : it_rest s' = it_rest s -> s' = with_tir (upd_h_tii (fun _ => h_tii s') s) (h_tir s') (s_itable s').
Proof.
  destruct s, s'. cbv [it_rest with_tir upd_h_tii upd_h_tir upd_s_itable State.s_itable State.h_tir State.h_tii
      State.s_statvfs State.s_mutex State.s_inodes_lock State.s_pool State.s_root State.z_root State.s_top_ino State.h_page State.h_dblkref
      State.h_iblkref State.h_inode]. intros E. injection E as -> -> -> -> _ -> -> -> -> -> -> ->. reflexivity.
Qed.
Lemma it_rest_inv s s' F N X : it_rest s' = it_rest s -> fs_inv s F N X -> fs_inv s' F N X.
Proof.
  intros E Hfs. pose proof (fs_inv_lock_nonneg _ _ _ _ Hfs) as (_&_&Hl). assert (Et : t_mutex (s_itable s') = t_mutex (s_itable s)).
  { rewrite /it_rest in E. by injection E. }
  rewrite (it_rest_eq s s' E). apply fs_inv_itable; [|lia]. by apply fs_inv_tii.
Qed.
Lemma it_rest_files s s' F X : it_rest s' = it_rest s -> same_files s s' F X.
Proof. intros E. by rewrite (it_rest_eq s s' E). Qed.

(** The last part: the inode gets its entry and its first reference. *)
Lemma wp_track s m tii t (Q : option Z -> toyfs_sb_info -> Prop) :
  itable_is s m -> h_tii s !! tii = Some t -> m !! ino t = None -> 0 <= s_inodes_lock s ->
  (forall D, is_Some (zus_malloc D)) -> icount (s_itable s) + 1 < 2 ^ 64 ->
  (forall s', it_rest s' = it_rest s -> h_tii s' = <[tii := upd_ref (fun n => s32 (n + 1)) (upd_mapped (fun _ => true) t)]> (h_tii s) ->
     itable_is s' (<[ino t := ToyfsInodeRef (Some tii) (ti t) (ino t)]> m) -> Q (Some tii) s') ->
  wp (toyfs_lock_inodes;; toyfs_i_track tii;; update h_tii upd_h_tii tii (upd_ref (fun n => s32 (n + 1)));; toyfs_unlock_inodes;; mret (Some tii)) s Q.
Proof.
  intros [Hok Hm] Ht Hnone Hl Hmal Hcnt HQ. wp_step. rewrite /toyfs_lock_inodes /toyfs_mutex_lock. wp_step. set (s1 := upd_s_inodes_lock Z.succ s).
  assert (Hm1 : itable_is s1 m) by (by apply (itable_is_view s)).
  rewrite /toyfs_i_track. do 2 wp_step. eapply wp_itable_insert; [done|apply Hm1|exact Ht|done| |done|].
  { intros t' r Hr E. assert (E' : m !! ino t = Some r) by (apply Hm; by exists t'). congruence. }
  intros s2 tir Hfr%tirs_none Hr2 Ht2 Htir2 Hok2.
  assert (Hm2 : itable_is s2 (<[ino t := ToyfsInodeRef (Some tii) (ti t) (ino t)]> m)).
  { split; [done|]. intros i r. rewrite Htir2. change (tirs s1) with (tirs s) in *. rewrite lookup_insert. case_decide as E.
    - subst i. split; [intros [= <-]; exists tir; by rewrite lookup_insert_eq|].
      intros (t'&Hlk&Ei). rewrite lookup_insert in Hlk. case_decide; [done|].
      assert (E : m !! ino t = Some r) by (apply Hm; by exists t'). congruence.
    - rewrite Hm. split; intros (t'&Hlk&Ei); exists t'; (split; [|done]).
      + rewrite lookup_insert_ne //. congruence.
      + rewrite lookup_insert in Hlk. case_decide; [|done]. injection Hlk as <-. by subst i. }
  change (h_tii s1) with (h_tii s) in Ht2. eapply wp_update; [rewrite Ht2; exact Ht|]. wp_step. 
  eapply wp_update; [fs_simpl; apply lookup_insert_eq|]. fs_simpl. set (t1 := upd_mapped _ t). set (t2 := upd_ref _ t1).
  assert (Hil : s_inodes_lock s2 = Z.succ (s_inodes_lock s)) by (unfold it_rest in Hr2; by injection Hr2).
  wp_step. apply wp_unlock_inodes; [fs_simpl; lia|]. wp_step. apply HQ.
  - clear - Hr2. destruct s, s2. revert Hr2. subst s1. cbv [it_rest upd_h_tii upd_s_inodes_lock State.s_itable State.h_tir State.h_tii
      State.s_statvfs State.s_mutex State.s_inodes_lock State.s_pool State.s_root State.z_root State.s_top_ino State.h_page State.h_dblkref
      State.h_iblkref State.h_inode]. intros E. injection E as -> -> -> -> -> -> -> -> -> -> -> ->. by rewrite Z.pred_succ.
  - fs_simpl. by rewrite Ht2 insert_insert_eq.
  - eapply (itable_is_view (upd_h_tii (<[tii := t2]>) s2)); [|done|done|fs_simpl; by rewrite insert_insert_eq].
    apply (itable_is_upd s2 _ tii t (fun t => upd_ref (fun n => s32 (n + 1)) (upd_mapped (fun _ => true) t))); [done|by rewrite Ht2|done].
Qed.

Lemma upd_h_inode_twice s p (a b : toyfs_inode) : upd_h_inode (<[p := b]>) (upd_h_inode (<[p := a]>) s) = upd_h_inode (<[p := b]>) s.
Proof. destruct s. cbv [upd_h_inode State.h_inode]. f_equal. apply insert_insert_eq. Qed.

(** The in-core inode of the new inode [p] before it is tracked. *)
Definition made_tii (p n : Z) : toyfs_inode_info := ToyfsInodeInfo (Some p) true true (Some p) n TOYFS_IMAGIC 0 false true.
(** The state [s] with the in-core inode [tii] and the record [p], not filled yet. *)
Record made s F N X m tii p sB : Prop := {
  mk_tii : h_tii s !! tii = None;
  mk_new : p ∉ N;
  mk_tiis : h_tii sB = <[tii := made_tii p (s_top_ino s)]> (h_tii s);
  mk_rest : s_mutex sB = s_mutex s /\ s_inodes_lock sB = s_inodes_lock s /\ s_itable sB = s_itable s;
  mk_top : s_top_ino sB = u64 (s_top_ino s + 1);
  mk_inode : h_inode sB = h_inode s;
  mk_itable : itable_is sB m;
  mk_inv i : fs_inv (upd_h_inode (<[p := i]>) sB) F ({[p]} ∪ N) X;
  mk_same i : same_files s (upd_h_inode (<[p := i]>) sB) F X;
  mk_file i : list_head i = [] -> i_blocks i = 0 -> 0 <= i_size i < 2 ^ 63 ->
    fs_inv (upd_h_inode (<[p := i]>) sB) ({[p]} ∪ F) ({[p]} ∪ N) X;
  mk_malloc : exists D, zus_malloc D = Some tii;
}.
(** Nothing but the counters of free in-core inodes changed. *)
Definition unmade s F N X m s' : Prop :=
  (forall tj, tj ∈ N -> h_inode s' !! tj = h_inode s !! tj) /\ h_tii s' = h_tii s /\ fs_inv s' F N X /\ itable_is s' m /\ same_files s s' F X.
Definition new_tail (tii p : Z) (ok : bool) : FS (option Z) :=
  if negb ok then toyfs_tii_free tii;; mret None else
  toyfs_lock_inodes;; toyfs_i_track tii;; update h_tii upd_h_tii tii (upd_ref (fun n => s32 (n + 1)));; toyfs_unlock_inodes;; mret (Some tii).

Lemma wp_new_inode_head s F N X m app ioc dp (Q : option Z -> toyfs_sb_info -> Prop) :
  fs_inv s F N X -> F ⊆ N -> itable_is s m -> zii_of s (n_dir_ii ioc) dp ->
  issupported (n_zi ioc) = true -> i_size (n_zi ioc) < PAGE_SIZE ->
  (forall s', unmade s F N X m s' -> Q None s') ->
  (forall tii p sB, made s F N X m tii p sB ->
     wp (ok ← new_inode_type (n_dir_ii ioc) p app ioc; new_tail tii p ok) (upd_h_inode (<[p := upd_i_ino (fun _ => s_top_ino s) (n_zi ioc)]>) sB) Q) ->
  wp (toyfs_new_inode app ioc) s Q.
Proof.
  intros Hfs HFN Hm Hdir Hsup Hsz HN HS. pose proof (fs_inv_lock_nonneg _ _ _ _ Hfs) as (Hl&_&_). rewrite /toyfs_new_inode.
  wp_step. eapply wp_zii; [exact Hdir|]. wp_step. rewrite /toyfs_zii_alloc. apply wp_alloc_ii; [done|done| |].
  { wp_step. by apply HN. }
  intros tii Hfr Hfr2 Hmalloc. rewrite Hsup. cbn [negb]. destruct (Z.leb_spec PAGE_SIZE (i_size (n_zi ioc))); [lia|].
  set (s1 := alloc_state s tii). assert (Hfs1 : fs_inv s1 F N X) by (by apply fs_inv_ffree, fs_inv_tii).
  assert (Hm1 : itable_is s1 m) by (apply (itable_is_view (upd_h_tii (<[tii := new_tii]>) s)); [by apply itable_is_fresh|done..]).
  wp_step. apply (wp_new_slot s1 F N X); [done|done| |].
  { intros s2 Hr He Hst Hfs2 Hsame. injection Hr as R1 R2 R3 R4 R5 R6 R7 R8 R9. injection He as E1 E2 E3.
    wp_step. eapply wp_tii_free; [rewrite R8; apply lookup_insert_eq|done|]. wp_step. apply HN.
    assert (Ht : h_tii (free_state s2 tii) = h_tii s).
    { rewrite /free_state; fs_simpl. rewrite R8 /s1 /alloc_state; fs_simpl. by rewrite delete_insert_id. }
    split_and!; [by rewrite E3|done|by apply fs_inv_ffree, fs_inv_tii| |exact Hsame].
    by apply (itable_is_view s). }
  intros p s2 Hp Hr He Hst Hslot. injection Hr as R1 R2 R3 R4 R5 R6 R7 R8 R9. injection He as E1 E2 E3.
  rewrite /_next_ino. wp_steps; [fs_simpl; rewrite R8; apply lookup_insert_eq|].
  eapply wp_set_inode; [fs_simpl; apply lookup_insert_eq|]. fs_simpl.
  set (sB := upd_h_tii (<[tii := made_tii p (s_top_ino s)]>) (upd_s_top_ino (fun n => u64 (n + 1)) s2)).
  set (s4 := upd_h_inode _ _). assert (E4 : s4 = upd_h_inode (<[p := upd_i_ino (fun _ => s_top_ino s) (n_zi ioc)]>) sB).
  { rewrite -(upd_h_inode_twice sB p (n_zi ioc)). subst s4 sB. rewrite R7. reflexivity. }
  rewrite E4. apply (HS tii p sB). split; try done.
  - rewrite /sB; fs_simpl. rewrite R8 /s1 /alloc_state; fs_simpl. by rewrite insert_insert_eq.
  - rewrite /sB; fs_simpl. by rewrite R7.
  - rewrite /sB; fs_simpl. by apply (itable_is_view (upd_h_tii (<[tii := made_tii p (s_top_ino s)]>) s)); [apply itable_is_fresh| | |
      fs_simpl; rewrite R8 /s1 /alloc_state; fs_simpl; rewrite insert_insert_eq].
  - intros i. change (fs_inv (upd_h_inode (<[p := i]>) s2) F ({[p]} ∪ N) X). apply Hslot.
  - intros i. apply Hslot.
  - intros i Hl1 Hl2 Hl3. change (fs_inv (upd_h_inode (<[p := i]>) s2) ({[p]} ∪ F) ({[p]} ∪ N) X). by apply Hslot.
Qed.

Lemma istype_excl a b (mode : Z) : S_ISTYPE a mode = true -> a <> b -> S_ISTYPE b mode = false.
Proof. rewrite /S_ISTYPE. intros ->%Z.eqb_eq Hne. by apply Z.eqb_neq. Qed.
Lemma made_setup s F N X m tii p sB i (Q : unit -> toyfs_sb_info -> Prop) f :
  made s F N X m tii p sB -> Q tt (upd_h_inode (<[p := f i]>) sB) -> wp (set_inode p f) (upd_h_inode (<[p := i]>) sB) Q.
Proof.
  intros Hmk HQ. eapply wp_set_inode; [fs_simpl; apply lookup_insert_eq|].
  change (upd_h_inode (<[p := f i]>) (upd_h_inode (<[p := i]>) sB)) with (upd_h_inode (<[p := f i]>) (upd_h_inode (<[p := i]>) sB)).
  by rewrite upd_h_inode_twice.
Qed.

(** The inode [p] made, tracked and referenced once. *)
Record created s F N X m tii p i F' X' s' : Prop := {
  cr_tii : h_tii s !! tii = None;
  cr_new : p ∉ N;
  cr_zii : zii_of s' tii p;
  cr_tiis : exists t, h_tii s' = <[tii := t]> (h_tii s) /\ ref t = 1 /\ mapped t = true /\ ino t = s_top_ino s /\ tii_sbi t = true;
  cr_inode : h_inode s' !! p = Some i /\ forall tj, tj ∈ N -> h_inode s' !! tj = h_inode s !! tj;
  cr_itable : itable_is s' (<[s_top_ino s := ToyfsInodeRef (Some tii) (Some p) (s_top_ino s)]> m);
  cr_top : s_top_ino s' = u64 (s_top_ino s + 1);
  cr_inv : fs_inv s' F' ({[p]} ∪ N) X';
  cr_same : same_files s s' F X;
  cr_malloc : exists D, zus_malloc D = Some tii;
}.
Lemma wp_new_tail s F N X m tii p sB s5 i F' X' (Q : option Z -> toyfs_sb_info -> Prop) :
  made s F N X m tii p sB -> rest s5 = rest sB -> h_inode s5 !! p = Some i -> (forall tj, tj ∈ N -> h_inode s5 !! tj = h_inode s !! tj) ->
  fs_inv s5 F' ({[p]} ∪ N) X' -> same_files s s5 F X -> m !! s_top_ino s = None ->
  (forall D, is_Some (zus_malloc D)) -> icount (s_itable s) + 1 < 2 ^ 64 ->
  (forall s', created s F N X m tii p i F' X' s' -> h_page s' = h_page s5 -> h_inode s' = h_inode s5 -> Q (Some tii) s') ->
  wp (new_tail tii p true) s5 Q.
Proof.
  intros [M1 M2 M3 (M4&M4'&M4'') M5 M6 M7 _ _ _ M11] Hr Hi Hoth Hfs Hsame Htop Hmal Hcnt HQ. injection Hr as R1 R2 R3 R4 R5 R6 R7 R8 R9.
  pose proof (fs_inv_lock_nonneg _ _ _ _ Hfs) as (_&Hl&_). rewrite /new_tail. cbn [negb].
  assert (Hm5 : itable_is s5 m) by (by apply (itable_is_view sB)).
  eapply (wp_track s5 m tii (made_tii p (s_top_ino s))); [done|rewrite R8 M3; apply lookup_insert_eq|done|done|done|by rewrite R4 M4''|].
  intros s' Hit Ht Hm'. pose proof (it_rest_eq s5 s' Hit) as E. rewrite R8 M3 insert_insert_eq in Ht.
  assert (E1 : h_inode s' = h_inode s5) by (by rewrite E). assert (E2 : h_page s' = h_page s5) by (by rewrite E).
  apply HQ; [|done|done]. split; try done.
  - eexists. split; [rewrite Ht; apply lookup_insert_eq|done].
  - eexists. split; [exact Ht|done].
  - by rewrite E1.
  - by rewrite E R7 M5.
  - by eapply it_rest_inv.
  - eapply same_files_trans; [exact Hsame|by apply it_rest_files].
Qed.

(** A regular file. *)
Lemma wp_new_reg s F N X m app ioc dp (Q : option Z -> toyfs_sb_info -> Prop) :
  fs_inv s F N X -> F ⊆ N -> itable_is s m -> zii_of s (n_dir_ii ioc) dp ->
  zi_isreg (n_zi ioc) = true -> i_blocks (n_zi ioc) = 0 -> 0 <= i_size (n_zi ioc) < PAGE_SIZE -> m !! s_top_ino s = None ->
  (forall D, is_Some (zus_malloc D)) -> icount (s_itable s) + 1 < 2 ^ 64 ->
  (forall s', unmade s F N X m s' -> Q None s') ->
  (forall tii p i s', created s F N X m tii p i ({[p]} ∪ F) X s' -> list_head i = [] -> i_size i = i_size (n_zi ioc) ->
     i_mode i = i_mode (n_zi ioc) -> i_ino i = s_top_ino s -> i_xattr i = i_xattr (n_zi ioc) ->
     (n_flags ioc = 0 -> i_nlink i = i_nlink (n_zi ioc)) -> Q (Some tii) s') ->
  wp (toyfs_new_inode app ioc) s Q.
Proof.
  intros Hfs HFN Hm Hdir Hreg Hblk Hsz Htop Hmal Hcnt HN HS. 
  assert (Hsup : issupported (n_zi ioc) = true) by (by rewrite /issupported Hreg orb_true_r).
  apply (wp_new_inode_head s F N X m app ioc dp); [done|done|done|done|done|lia|done|].
  intros tii p sB Hmk. pose proof Hmk as [M1 M2 M3 M4 M5 M6 M7 M8 M9 M10 M11]. wp_step. rewrite /new_inode_type.
  rewrite {1}/zi_isdir (istype_excl S_IFREG) //. cbn iota. rewrite Hreg.
  assert (Hgo : forall i, list_head i = [] -> i_blocks i = 0 -> i_size i = i_size (n_zi ioc) -> i_mode i = i_mode (n_zi ioc) ->
    i_ino i = s_top_ino s -> i_xattr i = i_xattr (n_zi ioc) -> (n_flags ioc = 0 -> i_nlink i = i_nlink (n_zi ioc)) -> wp (new_tail tii p true) (upd_h_inode (<[p := i]>) sB) Q).
  { intros i L1 L2 L3 L4 L5 L6 L7. eapply (wp_new_tail s F N X m tii p sB _ i ({[p]} ∪ F) X); [exact Hmk|done|fs_simpl; apply lookup_insert_eq| | | |done|done|done|].
    - intros tj Hj. fs_simpl. rewrite M6 lookup_insert_ne //. by intros ->.
    - apply M10; [done|done|lia].
    - apply M9.
    - intros s' Hcr _ _. by eapply HS. }
  wp_step. eapply made_setup; [exact Hmk|]. wp_step. destruct (negb _) eqn:Eflag.
  - eapply made_setup; [exact Hmk|]. wp_step. apply Hgo; try done. intros E0. by rewrite E0 in Eflag.
  - wp_step. wp_step. by apply Hgo.
Qed.
End create.
