(* ===== verification/GiveBack.v ===== *)
(** * What deleting the data of a file gives back

    Dropping the blocks of a file takes its references away, page by page; a page that
    nobody else refers to is free again.  Followed through the code on the runs it has, with
    the counters and the reference counts only; FileOps.v shows that the runs exist. *)

From S2P Require Import Prelude CList State Pool File FileInv FileSpec FileOps Super Xattr.

(** ** Facts of the runs that end *)
Definition wlp {S A} (m : ST S A) (s : S) (Q : A -> S -> Prop) : Prop := forall a s', m s = Some (a, s') -> Q a s'.
Section wlp.
Context {S : Type}.
Lemma wlp_bind {A B} (m : ST S A) (f : A -> ST S B) s Q : wlp m s (fun a s' => wlp (f a) s' Q) -> wlp (m ≫= f) s Q.
Proof. rewrite /wlp /mbind /ST_bind. intros Hm b s'. destruct (m s) as [[a s1]|]; [|done]. by apply Hm. Qed.
Lemma wlp_mono {A} (m : ST S A) s (P Q : A -> S -> Prop) : wlp m s P -> (forall a s', P a s' -> Q a s') -> wlp m s Q.
Proof. intros Hm HQ a s' E. by apply HQ, Hm. Qed.
Lemma wlp_ret {A} (a : A) s (Q : A -> S -> Prop) : Q a s -> wlp (mret a) s Q.
Proof. by intros HQ b s' [= <- <-]. Qed.
Lemma wlp_keeps {A} (R : S -> Prop) (m : ST S A) s (Q : A -> S -> Prop) : keeps R m -> R s -> (forall a s', R s' -> Q a s') -> wlp m s Q.
Proof. intros Hk Hs HQ a s' E. by apply HQ, (Hk s a s'). Qed.
Lemma wlp_wp {A} (m : ST S A) s (Q : A -> S -> Prop) : wp m s Q -> wlp m s Q.
Proof. intros Hm a s' E. by apply (wp_run m s Q). Qed.
Lemma wp_wlp {A} (m : ST S A) s (P Q : A -> S -> Prop) : wp m s P -> wlp m s Q -> wp m s (fun a s' => P a s' /\ Q a s').
Proof. rewrite /wp /wlp. destruct (m s) as [[a s']|]; [|done]. intros HP HQ. split; [done|by apply HQ]. Qed.
Lemma wp_also {A} (m : ST S A) s (P Q : A -> S -> Prop) : wlp m s P -> wp m s (fun a s' => P a s' -> Q a s') -> wp m s Q.
Proof. intros HP HQ. eapply wp_mono; [by apply wp_wlp|]. intros a s' [HQ' HP']. by apply HQ'. Qed.
Lemma wlp_assert b s (Q : unit -> S -> Prop) : (b = true -> Q tt s) -> wlp (assert b) s Q.
Proof. intros HQ [] s'. destruct b; [|done]. intros [= <-]. by apply HQ. Qed.
Lemma wlp_load {V} (h : S -> gmap Z V) p s (Q : V -> S -> Prop) : (forall v, h s !! p = Some v -> Q v s) -> wlp (load h p) s Q.
Proof. intros HQ v s'. rewrite /load. destruct (h s !! p) as [v'|]; [|done]. intros [= <- <-]. by apply HQ. Qed.
Lemma wlp_update {V} (h : S -> gmap Z V) upd p f s (Q : unit -> S -> Prop) :
  (forall v, h s !! p = Some v -> Q tt (upd (<[p := f v]>) s)) -> wlp (update h upd p f) s Q.
Proof. intros HQ [] s'. rewrite /update. destruct (h s !! p) as [v'|]; [|done]. intros [= <-]. by apply HQ. Qed.
End wlp.

(** ** Counts *)
(** How many times [d] is in [ds]; those of [ds] with no other reference. *)
Definition occ (d : Z) (ds : list Z) : Z := Z.of_nat (length (filter (eq d) ds)).
Definition last_refs (m : gmap Z Z) (ds : list Z) : list Z := filter (fun d => m !! d = Some (occ d ds)) (remove_dups ds).
Lemma occ_cons e d ds : occ e (d :: ds) = occ e ds + (if decide (e = d) then 1 else 0).
Proof. rewrite /occ filter_cons. case_decide; cbn [length]; lia. Qed.
Lemma occ_pos d ds : d ∈ ds -> 1 <= occ d ds.
Proof.
  intros Hd. rewrite /occ. assert (Hin : d ∈ filter (eq d) ds) by (by apply list_elem_of_filter). destruct (filter (eq d) ds); [by apply elem_of_nil in Hin|cbn; lia].
Qed.
Lemma occ_none d ds : d ∉ ds -> occ d ds = 0.
Proof.
  induction ds as [|e ds IH]; [done|]. intros [Hne Hd]%not_elem_of_cons. rewrite occ_cons IH // decide_False //.
Qed.
Lemma last_refs_cons m d ds n : m !! d = Some n -> (d ∈ ds -> n <> 1) ->
  length (last_refs m (d :: ds)) = ((if decide (n = 1)%Z then 1 else 0) + length (last_refs (<[d := (n - 1)%Z]> m) ds))%nat.
Proof.
  intros Hn H1. rewrite /last_refs. cbn [remove_dups].
  assert (Heq : forall e, e ∈ ds \/ e <> d -> (m !! e = Some (occ e (d :: ds)) <-> <[d := n - 1]> m !! e = Some (occ e ds))).
  { intros e He. rewrite occ_cons lookup_insert. destruct (decide (e = d)) as [->|Hne].
    - rewrite decide_True // Hn. split; intros [= E]; f_equal; lia.
    - rewrite decide_False; [by intros ->|]. by rewrite Z.add_0_r. }
  assert (Hf : forall l : list Z, (forall e, e ∈ l -> e ∈ ds \/ e <> d) ->
    filter (fun e => m !! e = Some (occ e (d :: ds))) l = filter (fun e => <[d := n - 1]> m !! e = Some (occ e ds)) l).
  { intros l. induction l as [|e l IH]; [done|]. intros Hl. rewrite !filter_cons IH; [intros x Hx; apply Hl; by right|].
    pose proof (Heq e (Hl e ltac:(by left))) as He. repeat case_decide; tauto. }
  destruct (decide_rel elem_of d ds) as [Hd|Hd].
  - rewrite decide_False; [by apply H1|]. rewrite Hf; [intros e; rewrite elem_of_remove_dups; by left|done].
  - rewrite filter_cons Hf; [intros e; rewrite elem_of_remove_dups; by left|].
    assert (E : m !! d = Some (occ d (d :: ds)) <-> n = 1) by (rewrite Hn occ_cons occ_none // decide_True //; naive_solver).
    repeat case_decide; naive_solver.
Qed.

Section back.
Context `{MdApi}.
Definition refs (s : toyfs_sb_info) : gmap Z Z := refcnt <$> h_dblkref s.
Definition bfree (s : toyfs_sb_info) : Z := f_bfree (s_statvfs s).
(** The references [ds] were taken away, and [extra] more pages freed. *)
Definition given_back (s s' : toyfs_sb_info) (ds : list Z) (extra : Z) : Prop :=
  (forall d, d ∈ ds -> exists n, refs s !! d = Some n /\ occ d ds <= n) /\
  (forall d, refs s' !! d = (fun n => n - occ d ds) <$> refs s !! d) /\
  bfree s' = u64 (bfree s + Z.of_nat (length (last_refs (refs s) ds)) + extra).
Definition refs_below (m : gmap Z Z) (ds : list Z) : Prop := forall d n, d ∈ ds -> m !! d = Some n -> n < 2 ^ 64.

(** What a step does not change. *)
Definition acc (s : toyfs_sb_info) := (bfree s, refs s, h_iblkref s).
Lemma acc_eq s s' : acc s' = acc s -> bfree s' = bfree s /\ refs s' = refs s /\ h_iblkref s' = h_iblkref s.
Proof. by intros [= -> -> ->]. Qed.
Lemma given_back_same s1 s2 s1' s2' ds x : bfree s1' = bfree s1 -> refs s1' = refs s1 -> bfree s2' = bfree s2 -> refs s2' = refs s2 ->
  given_back s1 s2 ds x -> given_back s1' s2' ds x.
Proof. by rewrite /given_back => -> -> -> ->. Qed.
Lemma given_back_nil s s' : bfree s' = bfree s -> refs s' = refs s -> 0 <= bfree s < 2 ^ 64 -> given_back s s' [] 0.
Proof.
  intros Eb Er Hb. split_and!; [by intros d ?%elem_of_nil| |].
  - intros d. rewrite Er. destruct (refs s !! d) as [n|]; cbn; [|done]. by rewrite Z.sub_0_r.
  - rewrite Eb. cbn. by rewrite !Z.add_0_r u64_small.
Qed.

(** ** Pages and references *)
Lemma wlp_release_page p s : wlp (toyfs_release_pmemb p) s (fun _ s' => bfree s' = u64 (bfree s + 1) /\ refs s' = refs s /\ h_iblkref s' = h_iblkref s).
Proof.
  rewrite /toyfs_release_pmemb /toyfs_sbi_lock /toyfs_sbi_unlock. apply wlp_bind.
  apply (wlp_keeps (fun x => acc x = acc s)); [rewrite /toyfs_mutex_lock; keeps|done|]. intros _ s1 E1. apply wlp_bind.
  apply (wlp_keeps (fun x => acc x = acc s)); [rewrite /_pool_push_pmemb /_pool_lock /_pool_unlock /toyfs_mutex_lock /toyfs_mutex_unlock; keeps|done|].
  intros _ s2 E2. destruct (acc_eq _ _ E2) as (Eb & Er & Ei). apply wlp_bind. intros [] s3 [= <-]. apply wlp_bind. intros [] s4 [= <-].
  set (s4 := upd_s_statvfs _ _). assert (E4 : acc s4 = (u64 (bfree s + 1), refs s, h_iblkref s)) by (rewrite -Eb -Er -Ei; by destruct s2 as [[]]).
  clearbody s4. apply (wlp_keeps (fun x => acc x = acc s4)); [rewrite /toyfs_mutex_unlock; keeps|done|]. intros _ s5 E5.
  rewrite -E5 in E4. by injection E4 as -> -> ->.
Qed.
Lemma wlp_free_dblkref d s : wlp (_free_dblkref d) s (fun _ s' => bfree s' = u64 (bfree s + 1) /\ refs s' = refs s /\ h_iblkref s' = h_iblkref s).
Proof.
  rewrite /_free_dblkref /dblkref_bn. apply wlp_bind. apply (wlp_keeps (fun x => x = s)); [keeps|done|]. intros bn s1 ->. apply wlp_bind.
  apply (wlp_mono _ _ (fun _ s' => acc s' = acc s)).
  - rewrite /toyfs_release_dblkref. apply wlp_bind, wlp_update. intros r Hr. set (s1 := upd_h_dblkref _ s).
    assert (E1 : acc s1 = acc s).
    { rewrite /acc /s1 /refs. fs_simpl. rewrite fmap_insert. f_equal. f_equal. apply insert_id. by rewrite lookup_fmap Hr. }
    clearbody s1. apply (wlp_keeps (fun x => acc x = acc s)); [rewrite /_pool_push_dblkref /_pool_lock /_pool_unlock /toyfs_mutex_lock /toyfs_mutex_unlock; keeps|done|done].
  - intros _ s1 E1. destruct (acc_eq _ _ E1) as (<- & <- & <-). apply wlp_release_page.
Qed.
Lemma wlp_decref d s : wlp (_decref_dblkref d) s (fun _ s' => exists n, refs s !! d = Some n /\ 0 < n /\
  refs s' = <[d := u64 (n - 1)]> (refs s) /\ bfree s' = (if u64 (n - 1) =? 0 then u64 (bfree s + 1) else bfree s) /\ h_iblkref s' = h_iblkref s).
Proof.
  rewrite /_decref_dblkref /toyfs_sbi_lock /toyfs_sbi_unlock /dblkref_refcnt /set_refcnt. apply wlp_bind.
  apply (wlp_keeps (fun x => acc x = acc s /\ h_dblkref x = h_dblkref s)); [rewrite /toyfs_mutex_lock; keeps|done|]. intros _ s1 [E1 Ed].
  destruct (acc_eq _ _ E1) as (Eb & Er & Ei). do 2 apply wlp_bind. apply wlp_load. intros r Hr. apply wlp_ret.
  apply wlp_bind, wlp_assert. intros Hn%Z.ltb_lt. apply wlp_bind. apply wlp_update. intros r' Hr'. rewrite Hr in Hr'. injection Hr' as <-.
  set (s2 := upd_h_dblkref _ s1). do 2 apply wlp_bind. apply wlp_load. intros r2 Hr2. apply wlp_ret.
  assert (E2 : refcnt r2 = u64 (refcnt r - 1)) by (unfold s2 in Hr2; fs_simpl in Hr2; rewrite lookup_insert_eq in Hr2; injection Hr2 as <-; done).
  assert (Hacc : acc s2 = (bfree s, <[d := u64 (refcnt r - 1)]> (refs s), h_iblkref s)).
  { rewrite /acc -Eb -Ei. f_equal. f_equal. rewrite /refs /s2. fs_simpl. by rewrite fmap_insert Ed. }
  assert (Hrd : refs s !! d = Some (refcnt r)) by by rewrite -Er /refs lookup_fmap Hr.
  clearbody s2. apply wlp_bind. apply (wlp_keeps (fun x => acc x = acc s2)); [rewrite /toyfs_mutex_unlock; keeps|done|]. intros _ s3 E3.
  rewrite -E3 in Hacc. injection Hacc as Fb Fr Fi. rewrite E2. destruct (u64 (refcnt r - 1) =? 0) eqn:Ez.
  - eapply wlp_mono; [apply wlp_free_dblkref|]. cbn beta. intros _ s4 (Gb & Gr & Gi). exists (refcnt r). rewrite Ez Gb Gr Gi Fb Fr Fi. by split_and!.
  - apply wlp_ret. exists (refcnt r). rewrite Ez Fb Fr Fi. by split_and!.
Qed.

(** ** The blocks of a file *)
Definition block_refs (s : toyfs_sb_info) (l : list Z) : list Z := omap (ib_d s) l.
Lemma block_refs_same s s' l : (forall x, x ∈ l -> h_iblkref s' !! x = h_iblkref s !! x) -> block_refs s' l = block_refs s l.
Proof.
  induction l as [|x l IH]; [done|]. intros Hl. rewrite /block_refs. cbn [omap list_omap]. rewrite -/(block_refs s' l) -/(block_refs s l) IH; [intros y Hy; apply Hl; by right|].
  by rewrite /ib_d Hl; [left|].
Qed.
Lemma wlp_drop_iblkref tii x s : wlp (_drop_iblkref tii x) s (fun _ s' => exists d n, ib_d s x = Some d /\ refs s !! d = Some n /\ 0 < n /\
  refs s' = <[d := u64 (n - 1)]> (refs s) /\ bfree s' = (if u64 (n - 1) =? 0 then u64 (bfree s + 1) else bfree s) /\
  forall y, y <> x -> h_iblkref s' !! y = h_iblkref s !! y).
Proof.
  rewrite /_drop_iblkref /set_iblkrefs_list /tii_ti /set_inode. apply wlp_bind. apply (wlp_keeps (fun x => acc x = acc s)); [keeps|done|]. intros _ s1 E1.
  destruct (acc_eq _ _ E1) as (Eb & Er & Ei). rewrite /_free_iblkref /tii_zi /get_inode /iblkref_dblkref.
  apply wlp_bind. apply (wlp_keeps (fun x => x = s1)); [keeps|done|]. intros zi1 s2 ->.
  apply wlp_bind. apply (wlp_keeps (fun x => x = s1)); [keeps|done|]. intros blocks s2 ->.
  apply wlp_bind. apply (wlp_keeps (fun x => x = s1)); [keeps|done|]. intros _ s2 ->.
  do 2 apply wlp_bind. apply wlp_load. intros r Hr. destruct (dblkref r) as [d|] eqn:Hd; cbn [of_option]; [|done]. apply wlp_ret.
  apply wlp_bind. eapply wlp_mono; [apply wlp_decref|]. cbn beta. intros _ s2 (n & Hn & Hpos & Fr & Fb & Fi). rewrite Er in Hn Fr. rewrite Eb in Fb. rewrite Ei in Fi.
  apply wlp_bind. apply (wlp_mono _ _ (fun _ s' => bfree s' = bfree s2 /\ refs s' = refs s2 /\ forall y, y <> x -> h_iblkref s' !! y = h_iblkref s !! y)).
  - rewrite /toyfs_release_iblkref /_pool_push_iblkref. apply wlp_bind. apply wlp_update. intros r' _. set (s3 := upd_h_iblkref (<[x := _]>) s2).
    assert (E3 : forall y, y <> x -> h_iblkref s3 !! y = h_iblkref s !! y) by (intros y Hy; rewrite /s3; fs_simpl; rewrite lookup_insert_ne // Fi //).
    assert (E3b : bfree s3 = bfree s2) by done. assert (E3r : refs s3 = refs s2) by done. clearbody s3.
    apply (wlp_keeps (fun st => acc st = acc s3)); [rewrite /_pool_lock /_pool_unlock /toyfs_mutex_lock /toyfs_mutex_unlock; keeps|done|].
    intros _ s4 E4. destruct (acc_eq _ _ E4) as (F1 & F2 & F3). rewrite F1 F2 F3. by split_and!.
  - intros _ s3 (Gb & Gr & Gi). apply (wlp_keeps (fun st => acc st = acc s3)); [rewrite /set_inode; keeps|done|]. intros _ s4 E4. destruct (acc_eq _ _ E4) as (Hb4 & Hr4 & Hi4).
    exists d, n. rewrite Hb4 Hr4 Hi4 Gb Gr Fb Fr. split_and!; try done. rewrite /ib_d -Ei Hr. by rewrite -Hd.
Qed.

Lemma given_back_cons s s1 s' d n ds x : refs s !! d = Some n -> 0 < n -> refs s1 = <[d := n - 1]> (refs s) ->
  bfree s1 = (if n - 1 =? 0 then u64 (bfree s + 1) else bfree s) -> given_back s1 s' ds x -> given_back s s' (d :: ds) x.
Proof.
  intros Hn Hpos Hr1 Hb1 (G1 & G2 & G3). rewrite Hr1 in G1 G2 G3. split_and!.
  - intros e He. rewrite occ_cons. destruct (decide (e = d)) as [->|Hne].
    + exists n. split; [done|]. destruct (decide (d ∈ ds)) as [Hd|Hd]; [|rewrite occ_none //; lia].
      destruct (G1 d Hd) as (n' & Hn' & Hle). rewrite lookup_insert_eq in Hn'. injection Hn' as <-. lia.
    + apply elem_of_cons in He as [?|He]; [done|]. destruct (G1 e He) as (n' & Hn' & Hle). rewrite lookup_insert_ne // in Hn'. exists n'. split; [done|lia].
  - intros e. rewrite G2 occ_cons. destruct (decide (e = d)) as [->|Hne].
    + rewrite lookup_insert_eq Hn. cbn. f_equal. lia.
    + rewrite lookup_insert_ne // Z.add_0_r //.
  - rewrite G3 Hb1 (last_refs_cons _ _ _ n) //.
    { intros Hd ->. destruct (G1 d Hd) as (n' & Hn' & Hle). rewrite lookup_insert_eq in Hn'. injection Hn' as <-. pose proof (occ_pos d ds Hd). lia. }
    rewrite /u64. destruct (Z.eqb_spec (n - 1) 0), (decide (n = 1)); try lia; rewrite -?Z.add_assoc ?Zplus_mod_idemp_l; f_equal; lia.
Qed.
Lemma given_back_more s s1 s' ds x : given_back s s1 ds x -> refs s' = refs s1 -> bfree s' = u64 (bfree s1 + 1) -> given_back s s' ds (x + 1).
Proof.
  intros (G1 & G2 & G3) Hr Hb. split_and!; [done|by rewrite Hr|]. rewrite Hb G3 /u64 Zplus_mod_idemp_l. f_equal. lia.
Qed.
Lemma wlp_drop_loop tii l : forall s, NoDup l -> (forall x, x ∈ l -> 0 <= ib_off s x) -> 0 <= bfree s < 2 ^ 64 -> refs_below (refs s) (block_refs s l) ->
  wlp (_drop_loop tii 0 l) s (fun _ s' => given_back s s' (block_refs s l) 0).
Proof.
  induction l as [|x l IH]; intros s Hnd Hoff Hb Hrb; cbn [_drop_loop].
  { apply wlp_ret. by apply given_back_nil. }
  apply NoDup_cons in Hnd as [Hx Hnd]. rewrite /iblkref_off /iblkref_of. do 2 apply wlp_bind. apply wlp_load. intros r Hr. apply wlp_ret.
  assert (Ho : 0 <= off r) by (pose proof (Hoff x ltac:(by left)) as Ho; by rewrite /ib_off Hr in Ho). rewrite (proj2 (Z.leb_le 0 (off r)) Ho).
  apply wlp_bind. eapply wlp_mono; [apply wlp_drop_iblkref|]. cbn beta. intros _ s1 (d & n & Hd & Hn & Hpos & Hr1 & Hb1 & Hi1).
  assert (Ebl : block_refs s (x :: l) = d :: block_refs s l) by (rewrite /block_refs; cbn [omap list_omap]; by rewrite Hd).
  assert (El : block_refs s1 l = block_refs s l) by (apply block_refs_same; intros y Hy; apply Hi1; by intros ->).
  rewrite Ebl in Hrb |- *. assert (Hlt : n < 2 ^ 64) by (eapply Hrb; [by left|done]). rewrite u64_small in Hr1 Hb1; [lia..|].
  assert (Hb1' : 0 <= bfree s1 < 2 ^ 64).
  { rewrite Hb1. destruct (n - 1 =? 0); [|done]. rewrite /u64. apply Z.mod_pos_bound. lia. }
  eapply wlp_mono; [apply IH; [done| |done|]|].
  - intros y Hy. rewrite (ib_off_eq s s1 y); [apply Hi1; by intros ->|apply Hoff; by right].
  - rewrite El. intros e n' He. rewrite Hr1 lookup_insert. case_decide; [intros [= <-]; lia|]. apply Hrb. by right.
  - cbn beta. rewrite El. intros _ s' Hg. by eapply given_back_cons.
Qed.

(** ** Truncation to nothing, attributes, the record of an inode *)
Lemma wlp_tii_ti s tii p (Q : Z -> toyfs_sb_info -> Prop) : tii_of s tii p -> Q p s -> wlp (tii_ti tii) s Q.
Proof. intros (t & Ht & Hti & _) HQ. apply wlp_wp. by eapply wp_tii_ti. Qed.
Lemma wlp_tii_zi s tii p (Q : Z -> toyfs_sb_info -> Prop) : tii_of s tii p -> Q p s -> wlp (tii_zi tii) s Q.
Proof. intros (t & Ht & _ & Hzi) HQ. apply wlp_wp. by eapply wp_tii_zi. Qed.
Lemma wlp_get_inode {A} s p i (f : toyfs_inode -> A) (Q : A -> toyfs_sb_info -> Prop) : h_inode s !! p = Some i -> Q (f i) s -> wlp (get_inode p f) s Q.
Proof. intros Hi HQ. apply wlp_wp. by eapply wp_get_inode. Qed.
Lemma keeps_acc_inode c p f : keeps (fun s => acc s = c) (set_inode p f).
Proof. rewrite /set_inode. by keeps. Qed.
(** The references that go with the data of a file: those of its blocks. *)
Definition data_refs (s : toyfs_sb_info) (i : toyfs_inode) : list Z := if 0 <? i_size i then block_refs s (list_head i) else [].
Lemma wlp_truncate s tii p i : tii_of s tii p -> h_inode s !! p = Some i -> S_ISTYPE S_IFREG (i_mode i) = true -> NoDup (list_head i) ->
  (forall x, x ∈ list_head i -> 0 <= ib_off s x) -> 0 <= bfree s < 2 ^ 64 -> refs_below (refs s) (block_refs s (list_head i)) ->
  wlp (toyfs_truncate tii 0) s (fun _ s' => given_back s s' (data_refs s i) 0).
Proof.
  intros Htii Hi Hreg Hnd Hoff Hb Hrb. rewrite /toyfs_truncate /data_refs. apply wlp_bind. eapply wlp_tii_zi; [done|].
  apply wlp_bind. eapply wlp_get_inode; [done|]. cbv beta. rewrite Hreg. assert (S_ISTYPE S_IFDIR (i_mode i) = false) as ->.
  { rewrite /S_ISTYPE /S_IFDIR in Hreg |- *. apply Z.eqb_eq in Hreg. by rewrite Hreg. }
  cbn [negb]. cbv iota. apply wlp_bind. eapply wlp_get_inode; [done|]. cbv beta. apply wlp_bind.
  eapply (wlp_mono _ _ (fun _ s' => given_back s s' (if 0 <? i_size i then block_refs s (list_head i) else []) 0)).
  - destruct (0 <? i_size i); [|apply wlp_ret; by apply given_back_nil]. apply wlp_bind.
    apply (wlp_mono _ _ (fun _ s' => given_back s s' (block_refs s (list_head i)) 0)).
    + change (wlp (iblkrefs ← toyfs_iblkrefs_list_of tii; _drop_loop tii 0 iblkrefs) s (fun _ s' => given_back s s' (block_refs s (list_head i)) 0)).
      rewrite /toyfs_iblkrefs_list_of. do 2 apply wlp_bind. eapply wlp_tii_ti; [done|]. eapply wlp_get_inode; [done|]. by apply wlp_drop_loop.
    + intros _ s1 Hg. change (wlp (mret 0) s1 (fun (_ : Z) s' => given_back s s' (block_refs s (list_head i)) 0)). by apply wlp_ret.
  - intros err s1 Hg. apply wlp_bind. apply (wlp_keeps (fun x => acc x = acc s1)); [apply keeps_acc_inode|done|]. intros _ s2 E2.
    destruct (acc_eq _ _ E2) as (Eb & Er & _). apply wlp_ret. by eapply given_back_same; [| | | |exact Hg].
Qed.
Lemma wlp_drop_xattr s tii p i : tii_of s tii p -> h_inode s !! p = Some i ->
  wlp (toyfs_drop_xattr tii) s (fun _ s' => refs s' = refs s /\ bfree s' = if i_xattr i =? 0 then bfree s else u64 (bfree s + 1)).
Proof.
  intros Htii Hi. rewrite /toyfs_drop_xattr /_has_xattr. apply wlp_bind. eapply wlp_tii_ti; [done|]. do 2 apply wlp_bind.
  eapply wlp_tii_ti; [done|]. apply wlp_bind. eapply wlp_get_inode; [done|]. apply wlp_ret. destruct (i_xattr i =? 0); cbn [negb]; cbv iota; [by apply wlp_ret|].
  apply wlp_bind. eapply wlp_get_inode; [done|]. apply wlp_bind. eapply wlp_mono; [apply wlp_release_page|]. intros _ s1 (Eb & Er & _).
  apply (wlp_keeps (fun x => acc x = acc s1)); [apply keeps_acc_inode|done|]. intros _ s2 E2. destruct (acc_eq _ _ E2) as (-> & -> & _). done.
Qed.
Lemma wlp_release_inode s p : wlp (toyfs_release_inode p) s (fun _ s' => refs s' = refs s /\ bfree s' = bfree s).
Proof.
  rewrite /toyfs_release_inode /_pool_push_inode. apply (wlp_keeps (fun x => acc x = acc s)).
  - rewrite /_pool_lock /_pool_unlock /toyfs_mutex_lock /toyfs_mutex_unlock. by keeps.
  - done.
  - intros _ s1 E1. destruct (acc_eq _ _ E1) as (-> & -> & _). done.
Qed.

Lemma fs_inv_given s F N X p i `{!MdLaws} : fs_inv s F N X -> p ∈ F -> h_inode s !! p = Some i ->
  NoDup (list_head i) /\ (forall x, x ∈ list_head i -> 0 <= ib_off s x) /\ 0 <= bfree s < 2 ^ 64 /\ refs_below (refs s) (block_refs s (list_head i)).
Proof.
  intros Hfs Hp Hi. pose proof (fs_list_NoDup s F N X p Hfs Hp) as [Hnd _]. rewrite (flist_eq _ _ _ Hi) in Hnd.
  destruct Hfs as (A & I & (P & D & (_ & fl & C & _ & (Hc1 & Hc2 & _ & Hc4) & _) & (HD & _ & HA & _) & _) & HF & _).
  destruct (HF p Hp) as (i' & Hi' & (Hl & _) & _). rewrite Hi in Hi'. injection Hi' as <-. split; [done|]. split_and!.
  - intros x Hx. by apply Hl.
  - rewrite /bfree. lia.
  - rewrite /bfree. lia.
  - intros d n (x & Hx & Hd)%list_elem_of_omap Hn. destruct (HA x) as (d' & Hd' & HdD); [by apply Hl|].
    rewrite Hd in Hd'. injection Hd' as <-. destruct (HD d HdD) as (r & Hr & _ & _ & Hlt & _). rewrite /refs lookup_fmap Hr in Hn. injection Hn as <-. lia.
Qed.
End back.
