(* ===== verification/Evict.v ===== *)
(** * Eviction, deletion and lookup of inodes

    The last reference to an inode takes its in-core inode apart, and with it the file
    if no name is left; the table keeps the number of one that has names. *)

From S2P Require Import Prelude Bytes CList State Pool File FileInv FileSpec FileOps FileClaims DirPage Pages Dir DirSpec DirOps DirEx DirClaims Super Itable Xattr XattrSpec Iom Inode InodeSpec InodeOps GiveBack.

Section evict.
Context `{MdLaws} `{MallocLaws} `{InodeApi}.
Implicit Types (F N X : gset Z) (m : gmap Z toyfs_inode_ref).

(** ** Freeing the inode of a regular file *)
Lemma wp_no_xattr s zii p i (Q : unit -> toyfs_sb_info -> Prop) :
  zii_of s zii p -> h_inode s !! p = Some i -> i_xattr i = 0 -> Q tt s -> wp (toyfs_drop_xattr zii) s Q.
Proof.
  intros Hz Hi Hx HQ. pose proof Hz as (t&Ht&Hti&_). rewrite /toyfs_drop_xattr. wp_step. eapply wp_tii_ti; [exact Ht|exact Hti|].
  wp_step. eapply wp_has_xattr; [exact Hz|exact Hi|]. rewrite Hx. cbn [Z.eqb negb]. by wp_step.
Qed.
(** The attribute pages of an inode without and with attributes. *)
Definition xattr_pages (i : toyfs_inode) : gset Z := if i_xattr i =? 0 then ∅ else {[toyfs_bn2addr (i_xattr i)]}.
Lemma same_files_ns s s' F X p ps X' : ns_step s s' F X {[p]} ps -> X' ⊆ X -> (forall q, q ∈ X' -> q ∉ ps) ->
  same_files s s' (F ∖ {[p]}) X'.
Proof.
  intros (R&Hn&Hb&Hp) HX Hps. split; [|intros q Hq; apply Hp; [by apply HX|by apply Hps]].
  intros tj [Hj Hne]%elem_of_difference. split; [by apply Hn|by apply Hb].
Qed.
Lemma wp_drop_any s F N X zii p i (Q : unit -> toyfs_sb_info -> Prop) :
  fs_inv s F N X -> zii_of s zii p -> h_inode s !! p = Some i -> xattr_pages i ⊆ X ->
  (forall s', fs_inv s' F N (X ∖ xattr_pages i) -> rest s' = rest s -> same_files s s' (F ∖ {[p]}) (X ∖ xattr_pages i) ->
     (forall tj, tj <> p -> h_inode s' !! tj = h_inode s !! tj) -> is_Some (h_inode s' !! p) -> Q tt s') ->
  wp (toyfs_drop_xattr zii) s Q.
Proof.
  intros Hfs Hz Hi HX HQ. rewrite /xattr_pages in HX, HQ. destruct (Z.eqb_spec (i_xattr i) 0) as [E|E].
  - eapply wp_no_xattr; [exact Hz|exact Hi|exact E|]. apply HQ; [by rewrite difference_empty_L|done|done|done|by exists i].
  - destruct (fs_inv_page_ok s F N X (toyfs_bn2addr (i_xattr i)) Hfs ltac:(set_solver + HX)) as (dat&Hdat&_).
    eapply (wp_drop_xattr s F N X zii p); [done|split_and!; [exact Hz|by exists i|set_solver + HX|exact Hdat]|].
    intros s' i' Hfs' Hns Hi' Ei. apply HQ; [done|apply Hns| | |rewrite Ei lookup_insert_eq; by eexists].
    + eapply same_files_ns; [exact Hns|set_solver +|]. intros q [_ Hq]%elem_of_difference ->%list_elem_of_singleton. set_solver + Hq.
    + intros tj Hj. by rewrite Ei lookup_insert_ne.
Qed.
Lemma same_files_fs s s' F X p : fs_step s s' F X p -> same_files s s' (F ∖ {[p]}) X.
Proof.
  intros (R&Hn&_&Hb&Hp). split; [|done]. intros tj [Hj Hne]%elem_of_difference.
  assert (tj <> p) by (intros ->; apply Hne; by apply elem_of_singleton). split; [by apply Hn|by apply Hb].
Qed.
Lemma wp_free_reg s F N X tii p i (Q : unit -> toyfs_sb_info -> Prop) :
  fs_inv s F N X -> p ∈ F -> p ∈ N -> zii_of s tii p -> h_inode s !! p = Some i -> zi_isreg i = true -> xattr_pages i ⊆ X ->
  (forall s', fs_inv s' (F ∖ {[p]}) (N ∖ {[p]}) (X ∖ xattr_pages i) -> rest s' = rest s ->
     same_files s s' (F ∖ {[p]}) (X ∖ xattr_pages i) -> (forall tj, tj <> p -> h_inode s' !! tj = h_inode s !! tj) ->
     h_inode s' !! p = Some zero_inode -> given_back s s' (data_refs s i) (if i_xattr i =? 0 then 0 else 1) -> Q tt s') ->
  wp (toyfs_free_inode tii) s Q.
Proof.
  intros Hfs HpF HpN Hz Hi Hreg HX HQ. rewrite /toyfs_free_inode. pose proof Hz as (t&Ht&Hti&Hzi&_).
  wp_step. eapply wp_tii_ti; [exact Ht|exact Hti|]. wp_step. eapply wp_tii_zi; [exact Ht|exact Hzi|].
  wp_step. eapply wp_get_inode; [exact Hi|]. wp_step. eapply wp_get_inode; [exact Hi|].
  rewrite {1 2}/zi_isdir (istype_excl S_IFREG) //. cbn [andb]. cbv iota. rewrite /zi_islnk (istype_excl S_IFREG S_IFLNK) // Hreg.
  assert (Hrest : forall s1, fs_step s s1 F X p -> fs_inv s1 F N X -> given_back s s1 (data_refs s i) 0 ->
    wp (toyfs_drop_xattr tii;; toyfs_release_inode p) s1 Q).
  { intros s1 Hs1 Hfs1 Hg1. pose proof Hs1 as (R1&N1&M1&_). rewrite Hi in M1. destruct (h_inode s1 !! p) as [i1|] eqn:Hi1; [|done].
    assert (Ex : i_xattr i1 = i_xattr i) by (apply (inj Some), (f_equal i_xattr) in M1; exact M1).
    assert (Ep : xattr_pages i1 = xattr_pages i) by (by rewrite /xattr_pages Ex).
    wp_step. eapply wp_also; [by eapply wlp_drop_xattr; [eapply zii_tii, fs_step_zii|]|].
    eapply (wp_drop_any s1 F N X tii p i1); [done|by eapply fs_step_zii|done|by rewrite Ep|]. rewrite Ep.
    intros s2 Hfs2 R2 Hsame2 Hoth2 (i2&Hi2) [Er2 Eb2]. eapply wp_also; [by apply wlp_release_inode|]. apply (wp_release_slot s2 F N (X ∖ xattr_pages i)); [done..|].
    intros s3 R3 _ Hpg3 Ei3 Hfs3 Hsame3 [Er3 Eb3]. apply HQ; [done|by rewrite R3 R2| | |by rewrite Ei3 lookup_insert_eq|].
    - eapply same_files_trans; [|eapply same_files_trans; [exact Hsame2|exact Hsame3]].
      destruct (same_files_fs _ _ _ _ _ Hs1) as [G1 G2]. split; [done|]. intros q Hq. apply G2. set_solver + Hq.
    - intros tj Hj. rewrite Ei3 lookup_insert_ne //. rewrite Hoth2 //. by apply N1.
    - rewrite Ex in Eb2. destruct (i_xattr i =? 0); [eapply (given_back_same s s1); [..|exact Hg1]; congruence|].
      change 1 with (0 + 1). eapply (given_back_more s s1); [done|congruence|congruence]. }
  destruct (fs_inv_given s F N X p i Hfs HpF Hi) as (Hnd & Hoff & Hfree & Hbelow).
  wp_step. wp_step. eapply wp_also; [by eapply wlp_truncate; [apply zii_tii|..]|].
  apply (wp_truncate s F N X tii p 0); [done|done|by apply zii_tii|by exists i|lia| |].
  - intros s1 Hs1 Hfs1 _ _ Hg1. wp_step. by apply Hrest.
  - intros s1 _ Hs1 Hfs1 _ _ _ Hg1. wp_step. by apply Hrest.
Qed.

(** ** Out of the table *)
Lemma itable_key s m i r tii t : itable_is s m -> m !! i = Some r -> r_tii r = Some tii -> h_tii s !! tii = Some t -> i = ino t.
Proof. intros [Hok Hm] (tir&Hr&<-)%Hm Hrt Ht. destruct (it_tii _ Hok tir r tii Hr Hrt) as (t'&Ht'&E). congruence. Qed.
Lemma wp_untrack_remove s m tii t r (Q : unit -> toyfs_sb_info -> Prop) :
  itable_is s m -> h_tii s !! tii = Some t -> m !! ino t = Some r -> r_tii r = Some tii -> icount (s_itable s) < 2 ^ 64 ->
  (forall s', it_rest s' = it_rest s -> h_tii s' = <[tii := upd_mapped (fun _ => false) t]> (h_tii s) -> itable_is s' (delete (ino t) m) -> Q tt s') ->
  wp (toyfs_i_untrack tii true) s Q.
Proof.
  intros Hm Ht Hr Hrt Hcnt HQ. pose proof Hm as [Hok Hmm]. pose proof (proj1 (Hmm _ _) Hr) as (tir&Htir&Hino). rewrite /toyfs_i_untrack.
  wp_step. wp_step; [exact Ht|]. wp_step. apply wp_itable_find; [done| |intros Hall; by destruct (Hall tir r)].
  intros tir' r' _ _. cbn [of_option]. wp_steps; [exact Ht|]. set (s1 := upd_h_tii _ s).
  assert (Hm1 : itable_is s1 m) by (by apply (itable_is_upd s m tii t (upd_mapped (fun _ => false)))).
  destruct Hm1 as [Hok1 Hmm1]. eapply (wp_itable_remove s1 tii (upd_mapped (fun _ => false) t) tir r); [done|subst s1; fs_simpl; apply lookup_insert_eq|exact Htir|done|exact Hcnt|].
  intros s' E1 E2 E3 Hok'. apply HQ; [done|done|]. split; [done|]. intros i x. rewrite E3. change (tirs s1) with (tirs s).
  destruct (decide (i = ino t)) as [->|Hne].
  - rewrite lookup_delete_eq. split; [done|]. intros (t'&Hl&Ei'). exfalso. rewrite lookup_delete_Some in Hl. destruct Hl as [Hne Hl].
    apply Hne. eapply it_ino; [exact Hok|exact Htir|exact Hl|congruence].
  - rewrite lookup_delete_ne // Hmm. split; intros (t'&Hl&Ei'); exists t'; (split; [|done]).
    + rewrite lookup_delete_ne //. intros <-. congruence.
    + rewrite lookup_delete_Some in Hl. by destruct Hl.
Qed.
Lemma wp_untrack_keep s m tii t r (Q : unit -> toyfs_sb_info -> Prop) :
  itable_is s m -> h_tii s !! tii = Some t -> m !! ino t = Some r -> r_tii r = Some tii ->
  (forall s', it_rest s' = it_rest s -> h_tii s' = <[tii := upd_mapped (fun _ => false) t]> (h_tii s) ->
     itable_is s' (<[ino t := upd_r_tii (fun _ => None) r]> m) -> Q tt s') ->
  wp (toyfs_i_untrack tii false) s Q.
Proof.
  intros Hm Ht Hr Hrt HQ. pose proof Hm as [Hok Hmm]. pose proof (proj1 (Hmm _ _) Hr) as (tir&Htir&Hino). rewrite /toyfs_i_untrack.
  wp_step. wp_step; [exact Ht|]. wp_step. apply wp_itable_find; [done| |intros Hall; by destruct (Hall tir r)].
  intros tir' r' Hr' Hi'. assert (tir' = tir) as -> by (eapply it_ino; [exact Hok|exact Hr'|exact Htir|congruence]).
  cbn [of_option]. wp_steps; [exact Ht|fs_simpl; by apply tirs_lookup in Htir as [? _]|]. fs_simpl.
  apply HQ; [by destruct s|done|].
  pose proof (itable_is_upd s m tii t (upd_mapped (fun _ => false)) Hm Ht eq_refl) as [[L1 L2 L3 L4 L5 L6] Hm1]. set (s1 := upd_h_tii _ s) in *.
  set (r1 := upd_r_tii (fun _ => None) r). assert (Ht1 : tirs s1 = tirs s) by done.
  pose proof (tirs_update s1 tir r r1 Htir eq_refl) as Hup. set (s2 := upd_h_tir _ s1) in Hup |- *. rewrite Ht1 in Hup.
  assert (Hlk : forall x, tirs s2 !! x = if decide (x = tir) then Some r1 else tirs s !! x).
  { intros x. rewrite Hup lookup_insert. repeat case_decide; congruence. }
  split.
  - split; [exact L1|exact L2| | | |].
    + intros sl x. rewrite Hlk. etransitivity; [apply L3|]. rewrite Ht1. case_decide as E; [|done]. subst x. rewrite Htir. naive_solver.
    + intros t1 t2 r1' r2'. rewrite !Hlk. repeat case_decide; subst; try done.
      * intros [= <-] Hy E. eapply L4; [exact Htir|exact Hy|exact E].
      * intros Hy [= <-] E. eapply L4; [exact Hy|exact Htir|exact E].
      * intros Hx Hy. by eapply L4.
    + rewrite Hup map_size_insert_Some //.
    + intros x rx tx. rewrite Hlk. case_decide; [intros [= <-]; done|]. apply L6.
  - intros i x. rewrite lookup_insert. case_decide as E.
    + subst i. split; [intros [= <-]; exists tir; rewrite Hlk decide_True //|]. intros (t'&Hl&Ei). rewrite Hlk in Hl. case_decide; [congruence|].
      exfalso. assert (t' = tir) by (eapply it_ino; [exact Hok|exact Hl|exact Htir|congruence]). done.
    + rewrite Hmm. split; intros (t'&Hl&Ei); exists t'; (split; [|done]).
      * rewrite Hlk. case_decide; [congruence|done].
      * rewrite Hlk in Hl. case_decide; [|done]. injection Hl as <-. exfalso. apply E. by rewrite -Ei -Hino.
Qed.
Lemma itable_is_free s m tii : itable_is s m -> (forall i r, m !! i = Some r -> r_tii r <> Some tii) -> itable_is (upd_h_tii (delete tii) s) m.
Proof.
  intros Hm Hno. apply itable_is_tii; [done|]. intros x t Ht (tir&r&Hr&Hrt). exists t. split; [|done].
  rewrite lookup_delete_ne //. intros <-. destruct Hm as [_ Hmm]. eapply (Hno (r_ino r) r); [|exact Hrt]. apply Hmm. by exists tir.
Qed.

(** ** Eviction *)
(** An in-core inode [tii] of the record [p] and its entry [r] in the table. *)
Definition tracked (s : toyfs_sb_info) m (tii p : Z) (t : toyfs_inode_info) (r : toyfs_inode_ref) : Prop :=
  h_tii s !! tii = Some t /\ ti t = Some p /\ zi t = Some p /\ zop t = true /\ valid t = true /\ tii_sbi t = true /\ mapped t = true /\
  m !! ino t = Some r /\ r_tii r = Some tii.
Lemma fs_inv_free s F N X tii : fs_inv s F N X -> fs_inv (free_state s tii) F N X.
Proof. intros Hfs. by apply fs_inv_ffree, fs_inv_tii. Qed.
Lemma itable_is_free_state s m tii : itable_is s m -> (forall i r, m !! i = Some r -> r_tii r <> Some tii) -> itable_is (free_state s tii) m.
Proof. intros Hm Hno. by apply (itable_is_view (upd_h_tii (delete tii) s)); [by apply itable_is_free|..]. Qed.
(** The end: the in-core inode is freed and the locks are let go. *)
Lemma wp_evict_end s3 F N X m tii t (Q : unit -> toyfs_sb_info -> Prop) :
  fs_inv s3 F N X -> itable_is s3 m -> (forall i r, m !! i = Some r -> r_tii r <> Some tii) ->
  h_tii s3 !! tii = Some t -> tii_sbi t = true -> 0 < s_mutex s3 -> 0 < s_inodes_lock s3 ->
  (forall s', fs_inv s' F N X -> itable_is s' m -> h_tii s' = delete tii (h_tii s3) -> h_inode s' = h_inode s3 -> same_files s3 s' F X ->
     s_mutex s' = Z.pred (s_mutex s3) -> s_inodes_lock s' = Z.pred (s_inodes_lock s3) -> acc s' = acc s3 -> Q tt s') ->
  wp (toyfs_tii_free tii;; toyfs_sbi_unlock) s3 (fun _ s => wp toyfs_unlock_inodes s Q).
Proof.
  intros Hfs Hm Hno Ht Hb Hl1 Hl2 HQ. wp_step. eapply wp_tii_free; [exact Ht|exact Hb|].
  apply wp_sbi_unlock'; [done|]. apply wp_unlock_inodes; [done|]. apply HQ; try done.
  - apply fs_inv_ilock; [apply fs_inv_smutex; [by apply fs_inv_free|]|]; rewrite ?/free_state; fs_simpl; lia.
  - apply (itable_is_view (free_state s3 tii)); [by apply itable_is_free_state|done..].
Qed.
Lemma rest_it s s' : rest s' = rest s -> s_itable s' = s_itable s /\ h_tir s' = h_tir s /\ h_tii s' = h_tii s /\ s_mutex s' = s_mutex s /\ s_inodes_lock s' = s_inodes_lock s.
Proof. intros E. by injection E as -> -> ? -> ? ? ? -> ->. Qed.
Lemma it_rest_locks s s' : it_rest s' = it_rest s -> s_mutex s' = s_mutex s /\ s_inodes_lock s' = s_inodes_lock s /\ h_inode s' = h_inode s.
Proof. intros E. rewrite (it_rest_eq s s' E). done. Qed.

Lemma it_rest_acc s s' : it_rest s' = it_rest s -> acc s' = acc s.
Proof. intros E. by rewrite (it_rest_eq s s' E). Qed.
Lemma ilock_over s f : upd_s_inodes_lock Z.pred (upd_h_tii f (upd_s_inodes_lock Z.succ s)) = upd_h_tii f s.
Proof. destruct s. cbv [upd_s_inodes_lock upd_h_tii State.s_inodes_lock]. by rewrite Z.pred_succ. Qed.

(** What eviction leaves behind. *)
Record evicted s F N X m tii p t r i s' : Prop := {
  ev_held : 1 < ref t -> fs_inv s' F N X /\ itable_is s' m /\ h_inode s' = h_inode s /\ same_files s s' F X /\
    h_tii s' = <[tii := upd_ref (fun n => s32 (n - 1)) t]> (h_tii s);
  ev_last : ref t = 1 -> h_tii s' = delete tii (h_tii s);
  ev_named : ref t = 1 -> i_nlink i <> 0 -> fs_inv s' F N X /\ itable_is s' (<[ino t := upd_r_tii (fun _ => None) r]> m) /\
    h_inode s' = h_inode s /\ same_files s s' F X;
  ev_gone : ref t = 1 -> i_nlink i = 0 -> fs_inv s' (F ∖ {[p]}) (N ∖ {[p]}) (X ∖ xattr_pages i) /\ itable_is s' (delete (ino t) m) /\
    h_inode s' !! p = Some zero_inode /\ (forall tj, tj <> p -> h_inode s' !! tj = h_inode s !! tj) /\
    same_files s s' (F ∖ {[p]}) (X ∖ xattr_pages i) /\ given_back s s' (data_refs s i) (if i_xattr i =? 0 then 0 else 1);
  ev_locks : s_mutex s' = s_mutex s /\ s_inodes_lock s' = s_inodes_lock s;
}.
Lemma same_files_sub s s' F X F' X' : same_files s s' F X -> F' ⊆ F -> X' ⊆ X -> same_files s s' F' X'.
Proof. intros [G1 G2] HF HX. split; [intros tj Hj; apply G1|intros q Hq; apply G2]; set_solver. Qed.
Lemma wp_evict s F N X m tii p t r i :
  fs_inv s F N X -> itable_is s m -> tracked s m tii p t r -> h_inode s !! p = Some i -> p ∈ F -> p ∈ N ->
  zi_isreg i = true -> xattr_pages i ⊆ X -> 1 <= ref t < 2 ^ 31 -> icount (s_itable s) < 2 ^ 64 ->
  wp (toyfs_evict tii) s (fun _ s' => evicted s F N X m tii p t r i s').
Proof.
  intros Hfs Hm (Ht&Hti&Hzi&Hop&Hv&Hb&Hmp&Hr&Hrt) Hi HpF HpN Hreg HX Hrf Hcnt.
  pose proof (fs_inv_lock_nonneg _ _ _ _ Hfs) as (Hl1&Hl2&Hl3). rewrite /toyfs_evict.
  wp_step. eapply wp_zii; [by exists t|]. wp_step. wp_step; [exact Ht|]. wp_step. rewrite /toyfs_lock_inodes /toyfs_mutex_lock. wp_step.
  set (t1 := upd_ref (fun n => s32 (n - 1)) t). wp_step. wp_step; [exact Ht|]. wp_step. wp_step; [fs_simpl; apply lookup_insert_eq|].
  set (s1 := upd_h_tii (<[tii := t1]>) (upd_s_inodes_lock Z.succ s)).
  assert (E1 : ref t1 = ref t - 1) by (rewrite /t1; fs_simpl; apply s32_small; lia).
  assert (Hm1 : itable_is s1 m).
  { apply (itable_is_view (upd_h_tii (<[tii := t1]>) s)); [|done..]. by apply (itable_is_upd s m tii t (upd_ref (fun n => s32 (n - 1)))). }
  change (ref (upd_ref (fun n => s32 (n - 1)) t)) with (ref t1). rewrite E1. destruct (Z.eqb_spec (ref t - 1) 0) as [E0|E0]; cbn [negb].
  2:{ do 2 wp_step. apply wp_unlock_inodes; [fs_simpl; lia|].
      assert (E2 : upd_s_inodes_lock Z.pred s1 = upd_h_tii (<[tii := t1]>) s) by apply ilock_over.
      change (evicted s F N X m tii p t r i (upd_s_inodes_lock Z.pred s1)). rewrite E2. split; try (intros; lia); [|done]. intros _. split_and!; [by apply fs_inv_tii| |done..].
      by apply (itable_is_upd s m tii t (upd_ref (fun n => s32 (n - 1)))). }
  assert (Hz1 : zii_of (upd_s_mutex Z.succ s1) tii p) by (exists t1; split; [rewrite ?/s1; fs_simpl; apply lookup_insert_eq|done]).
  assert (Hfs1 : fs_inv (upd_s_mutex Z.succ s1) F N X).
  { apply fs_inv_smutex; [|rewrite ?/s1; fs_simpl; lia]. change (fs_inv (upd_h_tii (<[tii := t1]>) (upd_s_inodes_lock Z.succ s)) F N X).
    apply fs_inv_tii, fs_inv_ilock; [done|lia]. }
  wp_step. wp_step. rewrite /toyfs_sbi_lock /toyfs_mutex_lock. wp_step. rewrite Hti. cbn [of_option]. do 2 wp_step.
  wp_step. eapply wp_get_inode; [exact Hi|]. wp_step.
  destruct (Z.eqb_spec (i_nlink i) 0) as [Hn|Hn].
  - wp_step. eapply (wp_free_reg _ F N X tii p i); [exact Hfs1|done|done|done|exact Hi|done|done|].
    intros s2 Hfs2 R2 Hsame2 Hoth2 Hz2 Hg2. apply rest_it in R2 as (T1&T2&T3&T4&T5). wp_step. wp_step; [rewrite T3 ?/s1; fs_simpl; apply lookup_insert_eq|].
    change (mapped t1) with (mapped t). rewrite Hmp. assert (Hm2 : itable_is s2 m) by (apply (itable_is_view s1); [exact Hm1|by rewrite T1|by rewrite T2|by rewrite T3]).
    eapply (wp_untrack_remove s2 m tii t1 r); [done|rewrite T3 ?/s1; fs_simpl; apply lookup_insert_eq|exact Hr|done|by rewrite T1|].
    intros s3 R3 Ht3 Hm3. pose proof (it_rest_locks _ _ R3) as (U1&U2&U3).
    eapply (wp_evict_end s3 (F ∖ {[p]}) (N ∖ {[p]}) (X ∖ xattr_pages i) (delete (ino t1) m)); [by eapply it_rest_inv|done| |rewrite Ht3; apply lookup_insert_eq|done| | |].
    + intros j r' Hj Hr'. rewrite lookup_delete_Some in Hj. destruct Hj as [Hne Hj]. apply Hne. symmetry. exact (itable_key s m j r' tii t Hm Hj Hr' Ht).
    + rewrite U1 T4. rewrite ?/s1; fs_simpl. lia.
    + rewrite U2 T5. rewrite ?/s1; fs_simpl. lia.
    + intros s' Hfs' Hm' Ht' Hi' Hsame' V1 V2 V3. split; try (intros; lia).
      * intros _. rewrite Ht' Ht3 T3. fs_simpl. by rewrite !insert_insert_eq delete_insert_eq.
      * intros _ _. split_and!; [done|done|by rewrite Hi' U3| | |].
        -- intros tj Hj. rewrite Hi' U3. by apply Hoth2.
        -- eapply same_files_trans; [|exact Hsame']. eapply same_files_trans; [exact Hsame2|by apply it_rest_files].
        -- apply acc_eq in V3 as (Vb & Vr & _). apply it_rest_acc, acc_eq in R3 as (Wb & Wr & _).
           eapply (given_back_same s s2); [done|done|congruence|congruence|]. by eapply (given_back_same (upd_s_mutex Z.succ s1) s2).
      * rewrite V1 V2 U1 U2 T4 T5. rewrite ?/s1; fs_simpl. lia.
  - wp_step. wp_step; [fs_simpl; apply lookup_insert_eq|]. change (mapped (upd_ref _ t)) with (mapped t). rewrite Hmp.
    eapply (wp_untrack_keep _ m tii t1 r); [by apply (itable_is_view s1)|fs_simpl; apply lookup_insert_eq|exact Hr|done|].
    intros s3 R3 Ht3 Hm3. pose proof (it_rest_locks _ _ R3) as (U1&U2&U3).
    eapply (wp_evict_end s3 F N X); [by eapply it_rest_inv|done| |rewrite Ht3; apply lookup_insert_eq|done|rewrite U1; rewrite ?/s1; fs_simpl; lia|rewrite U2; rewrite ?/s1; fs_simpl; lia|].
    + intros j r' Hj Hr'. rewrite lookup_insert in Hj. case_decide as E; [injection Hj as <-; done|]. apply E. symmetry. exact (itable_key s m j r' tii t Hm Hj Hr' Ht).
    + intros s' Hfs' Hm' Ht' Hi' Hsame' V1 V2 V3. split; try (intros; lia).
      * intros _. rewrite Ht' Ht3. fs_simpl. by rewrite !insert_insert_eq delete_insert_eq.
      * intros _ _. split_and!; [done|done|by rewrite Hi' U3|].
        eapply same_files_trans; [|exact Hsame']. change (same_files (upd_s_mutex Z.succ s1) s3 F X). by apply it_rest_files.
      * rewrite V1 V2 U1 U2. rewrite ?/s1; fs_simpl. lia.
Qed.
End evict.
