(* ===== verification/Symlink.v ===== *)
(** * Symbolic links

    Creating a link and reading its target back: a short target is in the inode, a long
    one in a page of its own, which the release of a link of 32 bytes forgets. *)

From S2P Require Import Prelude Bytes CList State Pool File FileInv FileSpec FileOps FileClaims DirPage Pages Dir DirSpec DirOps DirEx DirClaims Super Itable Xattr XattrSpec Iom Inode InodeSpec InodeOps Evict.

Section symlink.
Context `{MdLaws} `{MallocLaws} `{InodeApi}.
Implicit Types (F N X : gset Z) (m : gmap Z toyfs_inode_ref).

(** The page of a long target. *)
Lemma dpp_page p : page_addr p -> toyfs_dpp2pmemb (toyfs_page2dpp p) = p /\ 0 <= toyfs_page2dpp p < 2 ^ 64.
Proof.
  intros (n&Hn&->). rewrite /toyfs_dpp2pmemb /toyfs_page2dpp /toyfs_bn2pmemb md_dpp_roundtrip; [lia|]. split; [done|]. apply pmem_dpp_range. lia.
Qed.
Lemma sym_dpp_upd dpp i : 0 <= dpp < 2 ^ 64 -> i_sym_dpp (upd_i_sym_dpp dpp i) = dpp.
Proof.
  intros Hd. rewrite /i_sym_dpp /upd_i_sym_dpp. fs_simpl. rewrite /slice drop_0 take_app_length'; [by rewrite le_bytes_length|].
  apply le_val_small. exact Hd.
Qed.
(** The target of the link: [n] bytes at the place [_get_symlink] answers. *)
Definition sym_read (s : toyfs_sb_info) (ptr : sym_ptr) (n : nat) : option (list Z) :=
  match ptr with
  | SymInode p => i ← h_inode s !! p; mret (take n (i_union i))
  | SymPage q => v ← h_page s !! q; match v with Pmemb dat => mret (take n dat) | _ => None end
  end.

Lemma wp_made_acquire s F N X m tii p sB i (Q : bool -> toyfs_sb_info -> Prop) (k : Z -> FS bool) :
  made s F N X m tii p sB -> F ⊆ N ->
  (forall s', rest s' = rest sB -> (forall tj, tj ∈ N -> h_inode s' !! tj = h_inode s !! tj) ->
     fs_inv s' F N X -> same_files s s' F X -> Q false s') ->
  (forall q s', q ∉ X -> fs_inv s' F ({[p]} ∪ N) ({[q]} ∪ X) -> rest s' = rest sB -> h_inode s' = <[p := i]> (h_inode s) ->
     same_files s s' F X -> h_page s' !! q = Some (Pmemb (zeros 4096)) -> page_addr q -> wp (k q) s' Q) ->
  wp (pmemb ← toyfs_acquire_pmemb; match pmemb with None => toyfs_release_inode p;; mret false | Some q => k q end)
    (upd_h_inode (<[p := i]>) sB) Q.
Proof.
  intros [M1 M2 M3 M4 M5 M6 M7 M8 M9 M10 M11] HFN HN HS. wp_step. apply (wp_acquire_x _ F ({[p]} ∪ N) X); [apply M8| |].
  - intros s1 Hfs1 Hx Hi Hpg _. wp_step. apply (wp_release_slot s1 F ({[p]} ∪ N) X); [done|set_solver +|].
    intros s2 R2 _ Hpg2 Hi2 Hfs2 Hsame2. wp_step.
    assert (EF : F ∖ {[p]} = F) by (apply difference_disjoint_L; set_solver + M2 HFN).
    assert (EN : ({[p]} ∪ N) ∖ {[p]} = N) by (set_solver + M2). rewrite EF EN in Hfs2. rewrite EF in Hsame2.
    assert (Hr1 : rest s1 = rest (upd_h_inode (<[p := i]>) sB)) by apply Hx.
    apply HN; [by rewrite R2 Hr1| |done|].
    + intros tj Hj. rewrite Hi2 Hi. fs_simpl. rewrite insert_insert_eq M6 lookup_insert_ne //. by intros ->.
    + eapply same_files_trans; [apply (M9 i)|]. eapply same_files_trans; [|exact Hsame2].
      split; [|by rewrite Hpg]. intros tj Hj. split; [by rewrite Hi|]. by apply Hx.
  - intros q s1 Hq Hfs1 Hx Hi Hpg Hq0. pose proof (fs_inv_page_addr s1 F _ _ q Hfs1) as Hqa.
    eapply HS; [exact Hq|done|apply Hx|rewrite Hi; fs_simpl; by rewrite M6| |by rewrite Hpg lookup_insert_eq|apply Hqa; set_solver +].
    eapply same_files_trans; [apply (M9 i)|]. split.
    + intros tj Hj. split; [by rewrite Hi|]. by apply Hx.
    + intros q' Hq'. rewrite Hpg lookup_insert_ne //. by intros ->.
Qed.

(** The link: its target is at [sym_ptr], in the page [q] if it is long. *)
Definition link_made (s' : toyfs_sb_info) p i (target : list Z) : Prop :=
  h_inode s' !! p = Some i /\ zi_islnk i = true /\ i_size i = Z.of_nat (length target) /\
  if SYMLINK_INLINE <=? i_size i then
    exists q, page_addr q /\ i_sym_dpp i = toyfs_page2dpp q /\ sym_read s' (SymPage q) (length target) = Some target
  else sym_read s' (SymInode p) (length target) = Some target.
Lemma wp_new_lnk s F N X m app ioc dp target (Q : option Z -> toyfs_sb_info -> Prop) :
  fs_inv s F N X -> F ⊆ N -> itable_is s m -> zii_of s (n_dir_ii ioc) dp ->
  zi_islnk (n_zi ioc) = true -> i_size (n_zi ioc) = Z.of_nat (length target) -> i_size (n_zi ioc) < PAGE_SIZE ->
  (if SYMLINK_INLINE <=? i_size (n_zi ioc) then take (length target) app = target
   else take (length target) (i_union (n_zi ioc)) = target) ->
  m !! s_top_ino s = None -> (forall D, is_Some (zus_malloc D)) -> icount (s_itable s) + 1 < 2 ^ 64 ->
  (forall s', unmade s F N X m s' -> Q None s') ->
  (forall tii p i s', created s F N X m tii p i F (if SYMLINK_INLINE <=? i_size i then {[toyfs_dpp2pmemb (i_sym_dpp i)]} ∪ X else X) s' ->
     link_made s' p i target -> (SYMLINK_INLINE <=? i_size i = true -> toyfs_dpp2pmemb (i_sym_dpp i) ∉ X) -> Q (Some tii) s') ->
  wp (toyfs_new_inode app ioc) s Q.
Proof.
  intros Hfs HFN Hm Hdir Hlnk Hlen Hsz Htgt Htop Hmal Hcnt HN HS.
  assert (Hsup : issupported (n_zi ioc) = true) by (by rewrite /issupported Hlnk !orb_true_r).
  apply (wp_new_inode_head s F N X m app ioc dp); [done|done|done|done|done|lia|done|].
  intros tii p sB Hmk. pose proof Hmk as [M1 M2 M3 M4 M5 M6 M7 M8 M9 M10 M11]. wp_step. rewrite /new_inode_type.
  rewrite {1}/zi_isdir (istype_excl S_IFLNK S_IFDIR) //. rewrite {1}/zi_isreg (istype_excl S_IFLNK S_IFREG) //. cbn iota. rewrite Hlnk.
  set (i := upd_i_ino (fun _ => s_top_ino s) (n_zi ioc)). wp_step. eapply wp_get_inode; [fs_simpl; apply lookup_insert_eq|].
  assert (Esz : i_size i = i_size (n_zi ioc)) by done. rewrite Esz. destruct (SYMLINK_INLINE <=? i_size (n_zi ioc)) eqn:Elong.
  - apply (wp_made_acquire s F N X m tii p sB i _ _ Hmk HFN).
    + intros s1 R1 Hoth Hfs1 Hsame. pose proof (rest_it _ _ R1) as (T1&T2&T3&T4&T5).
      rewrite /new_tail. cbn [negb]. wp_step. eapply wp_tii_free; [rewrite T3 M3; apply lookup_insert_eq|done|]. wp_step. apply HN.
      assert (Ht : h_tii (free_state s1 tii) = h_tii s) by (rewrite /free_state; fs_simpl; rewrite T3 M3; by rewrite delete_insert_id).
      split_and!; [exact Hoth|exact Ht|by apply fs_inv_free| |exact Hsame].
      apply itable_is_free_state; [by apply (itable_is_view sB)|]. destruct Hm as [Hok Hmm].
      intros j r (tir&Hr&_)%Hmm Hrt. destruct (it_tii _ Hok tir r tii Hr Hrt) as (t&Ht'&_). congruence.
    + intros q s1 Hq Hfs1 R1 Hi1 Hsame Hpg Hqa. destruct (dpp_page q Hqa) as [Edpp Hdpp].
      wp_step. wp_step; [apply Z.leb_le|].
      { rewrite Hlen -{1}Htgt length_take. lia. }
      wp_step. eapply wp_load_pmemb; [exact Hpg|]. wp_step. rewrite /store_pmemb. eapply wp_update; [exact Hpg|].
      set (dat := blit _ _ _). assert (Hdat : length dat = 4096%nat).
      { rewrite /dat blit_length ?zeros_length // length_take. simpl. lia. }
      destruct (fs_inv_store_x s1 F _ _ q dat Hfs1 ltac:(set_solver +) Hdat) as [Hfs2 Hx2]. set (s2 := upd_h_page _ s1) in *.
      wp_step. eapply (wp_set_inode_x s2 F _ _ p i); [exact Hfs2|set_solver + M2 HFN|by rewrite Hi1 lookup_insert_eq|].
      intros s3 Hfs3 Hx3. wp_step. set (i3 := upd_i_sym_dpp (toyfs_page2dpp q) i) in *.
      assert (Ei3 : i_sym_dpp i3 = toyfs_page2dpp q) by (by apply sym_dpp_upd).
      eapply (wp_new_tail s F N X m tii p sB s3 i3 F ({[q]} ∪ X)); [exact Hmk|exact R1|fs_simpl; apply lookup_insert_eq| |exact Hfs3| |done|done|done|].
      * intros tj Hj. rewrite /s3; fs_simpl. rewrite Hi1 insert_insert_eq lookup_insert_ne //. by intros ->.
      * eapply same_files_trans; [exact Hsame|]. split.
        -- intros tj Hj. destruct (proj2 Hx2 tj Hj) as [<- <-]. by apply Hx3.
        -- intros q' Hq'. rewrite /s3 /s2; fs_simpl. rewrite lookup_insert_ne //. by intros ->.
      * intros s' Hcr Epg Ein. apply (HS tii p i3); change (i_size i3) with (i_size (n_zi ioc)); [by rewrite Elong Ei3 Edpp| |by rewrite Ei3 Edpp].
        split; [by rewrite Ein /s3; fs_simpl; rewrite lookup_insert_eq|]. split; [exact Hlnk|]. split; [exact Hlen|]. change (i_size i3) with (i_size (n_zi ioc)). rewrite Elong.
        exists q. split; [done|]. split; [done|]. rewrite /sym_read Epg /s3 /s2; fs_simpl. rewrite lookup_insert_eq /=. f_equal.
        rewrite /dat Hlen Nat2Z.id Htgt /blit take_0 app_nil_l. by rewrite take_app_length.
  - wp_step. eapply (wp_new_tail s F N X m tii p sB _ i F X); [exact Hmk|done|fs_simpl; apply lookup_insert_eq| |apply M8|apply M9|done|done|done|].
    + intros tj Hj. fs_simpl. rewrite M6 lookup_insert_ne //. by intros ->.
    + intros s' Hcr Epg Ein. apply (HS tii p i); [by rewrite Esz Elong| |by rewrite Esz Elong].
      split; [by rewrite Ein; fs_simpl; rewrite lookup_insert_eq|]. split; [exact Hlnk|]. split; [exact Hlen|]. rewrite Esz Elong.
      rewrite /sym_read Ein. fs_simpl. rewrite lookup_insert_eq /=. f_equal. exact Htgt.
Qed.

(** Releasing a link: its page goes back only if the target is longer than the room in
    the inode; the inode has no target any more. *)
Lemma wp_release_symlink s F N X tii p i q target (Q : unit -> toyfs_sb_info -> Prop) :
  fs_inv s F N X -> p ∉ F -> tii_of s tii p -> link_made s p i target -> (SYMLINK_INLINE <=? i_size i = true -> toyfs_dpp2pmemb (i_sym_dpp i) = q /\ q ∈ X) ->
  (forall s' X', fs_inv s' F N X' -> x_step s s' F -> X' = (if SYMLINK_INLINE <? i_size i then X ∖ {[q]} else X) ->
     (i_size i <= SYMLINK_INLINE -> h_page s' = h_page s) ->
     h_inode s' = <[p := upd_i_sym_dpp 0 (upd_i_size (fun _ => 0) i)]> (h_inode s) -> Q tt s') ->
  wp (toyfs_release_symlink tii) s Q.
Proof.
  intros Hfs HpF Htii (Hi&Hlnk&Hlen&_) Hq HQ. rewrite /toyfs_release_symlink. wp_step. eapply wp_ti; [exact Htii|].
  wp_step. eapply wp_get_inode; [exact Hi|].
  assert (Hend : forall s1 X', fs_inv s1 F N X' -> x_step s s1 F -> X' = (if SYMLINK_INLINE <? i_size i then X ∖ {[q]} else X) ->
     (i_size i <= SYMLINK_INLINE -> h_page s1 = h_page s) -> h_inode s1 = h_inode s ->
     wp (set_inode p (upd_i_size (fun _ => 0));; set_inode p (upd_i_sym_dpp 0)) s1 Q).
  { intros s1 X' Hfs1 Hx1 EX Hpg Hi1. wp_step. eapply (wp_set_inode_x s1 F N X' p i); [done|done|by rewrite Hi1|].
    intros s2 Hfs2 Hx2. eapply (wp_set_inode_x s2 F N X' p); [done|done|subst s2; fs_simpl; apply lookup_insert_eq|].
    intros s3 Hfs3 Hx3. apply (HQ s3 X'); [done| |done|by subst s3 s2; fs_simpl|].
    - eapply x_step_trans; [exact Hx1|]. eapply x_step_trans; [exact Hx2|exact Hx3].
    - subst s3 s2. fs_simpl. by rewrite insert_insert_eq Hi1. }
  destruct (Z.ltb_spec SYMLINK_INLINE (i_size i)) as [Hl|Hl]; wp_step.
  - destruct Hq as [Eq Hq]; [apply Z.leb_le; lia|]. wp_step. eapply wp_get_inode; [exact Hi|]. rewrite Eq.
    apply (wp_release_x s F N X q); [done|done|]. intros s1 n Hfs1 Hx1 Hi1 Hpg. by apply (Hend s1 (X ∖ {[q]})); [..|lia|].
  - wp_step. by apply (Hend s X).
Qed.

Lemma wp_get_link s tii p i target :
  link_made s p i target -> zii_of s tii p ->
  wp (toyfs_get_symlink tii) s (fun a s' => s' = s /\ exists ptr, a = (0, Some ptr) /\ sym_read s ptr (length target) = Some target).
Proof.
  intros (Hi&Hlnk&Hlen&Hat) Hz. rewrite /toyfs_get_symlink /_get_symlink. wp_step. eapply wp_zii; [exact Hz|].
  wp_step. eapply wp_ti; [by apply zii_tii|]. wp_step. eapply wp_get_inode; [exact Hi|]. rewrite Hlnk. cbn [negb].
  wp_step. eapply wp_get_inode; [exact Hi|]. rewrite Z.leb_antisym in Hat. destruct (i_size i <? SYMLINK_INLINE); cbn [negb] in Hat.
  - wp_step. split; [done|]. by eexists.
  - destruct Hat as (q&Hq&Ed&Hrd). wp_step. eapply wp_get_inode; [exact Hi|]. wp_step. split; [done|].
    rewrite Ed (proj1 (dpp_page q Hq)). by eexists.
Qed.
End symlink.
