(* ===== verification/Life.v ===== *)
(** * The life of an inode: the theorems

    Creation, lookup by number, the last reference; symbolic links read back. *)

From S2P Require Import Prelude Bytes CList State Pool File FileInv FileSpec FileOps FileClaims DirPage Pages Dir DirSpec DirOps DirEx DirClaims Super Itable Xattr XattrSpec Iom Inode InodeSpec InodeOps Evict Symlink.

Section life.
Context `{MdLaws} `{MallocLaws} `{InodeApi}.
Implicit Types (F N X : gset Z) (m : gmap Z toyfs_inode_ref).


(** ** An in-core inode without a record *)
Lemma evict_null s tii t : h_tii s !! tii = Some t -> ti t = None -> zop t = true -> valid t = true -> ref t = 1 -> toyfs_evict tii s = None.
Proof.
  intros Ht Hti Hop Hv Hrf. rewrite /toyfs_evict.
  erewrite (bind_run _ _ s tii s); [|apply run_eq; rewrite /toyfs_zii_to_tii; destruct (Z.eqb_spec tii 0) as [->|]; wp_steps; [done|exact Ht|done..]].
  erewrite bind_run; [|eapply run_eq; wp_step; [exact Ht|split; reflexivity]].
  erewrite bind_run; [|reflexivity]. 
  erewrite bind_run; [|eapply run_eq; wp_step; [fs_simpl; exact Ht|split; reflexivity]].
  erewrite bind_run; [|eapply run_eq; wp_step; [fs_simpl; apply lookup_insert_eq|split; reflexivity]].
  assert (E : ref (upd_ref (fun n => s32 (n - 1)) t) = 0) by (by fs_simpl; rewrite Hrf).
  rewrite E Hti. reflexivity.
Qed.

(** C21: Creating a regular file: it gets the next number, an empty list of blocks, an entry
    in the table and one reference, and is a file of the invariant; what there was is
    as before; where there is no room for it nothing is left behind. *)
Theorem new_inode_spec s F N X m app ioc dp :
  fs_inv s F N X -> F ⊆ N -> itable_is s m -> zii_of s (n_dir_ii ioc) dp ->
  zi_isreg (n_zi ioc) = true -> i_blocks (n_zi ioc) = 0 -> 0 <= i_size (n_zi ioc) < PAGE_SIZE -> m !! s_top_ino s = None ->
  (forall D, is_Some (zus_malloc D)) -> icount (s_itable s) + 1 < 2 ^ 64 ->
  wp (toyfs_new_inode app ioc) s (fun r s' =>
    match r with
    | None => unmade s F N X m s'
    | Some tii => exists p i, created s F N X m tii p i ({[p]} ∪ F) X s' /\ fblocks s' p = ∅ /\
        i_size i = i_size (n_zi ioc) /\ i_mode i = i_mode (n_zi ioc) /\ i_ino i = s_top_ino s
    end).
Proof.
  intros. eapply (wp_new_reg s F N X m app ioc dp); [done..|]. intros tii p i s' Hcr Hl Hsz Hmode Hino _ _.
  exists p, i. split_and!; try done. rewrite (fblocks_eq s' p i); [apply Hcr|]. by rewrite Hl.
Qed.

(** C22: Eviction of a regular file: a reference less; with the last one the in-core inode is
    freed, and the entry of an inode that has names stays in the table without it, while
    an inode without names is deleted with its entry and record, the reference of each of
    its blocks is dropped, and the pages free again are counted: those whose last
    references these were, and that of its attributes.  (Of a file of size 0 the blocks
    are not dropped.) *)
Theorem evict_spec s F N X m tii p t r i :
  fs_inv s F N X -> itable_is s m -> tracked s m tii p t r -> h_inode s !! p = Some i -> p ∈ F -> p ∈ N ->
  zi_isreg i = true -> xattr_pages i ⊆ X -> 1 <= ref t < 2 ^ 31 -> icount (s_itable s) < 2 ^ 64 ->
  wp (toyfs_evict tii) s (fun _ s' => evicted s F N X m tii p t r i s').
Proof. apply wp_evict. Qed.

(** Creating a symbolic link and reading it: the place [_get_symlink] answers has the
    target, be it in the inode or in a page. *)
Theorem symlink_roundtrip s F N X m app ioc dp target :
  fs_inv s F N X -> F ⊆ N -> itable_is s m -> zii_of s (n_dir_ii ioc) dp ->
  zi_islnk (n_zi ioc) = true -> i_size (n_zi ioc) = Z.of_nat (length target) -> i_size (n_zi ioc) < PAGE_SIZE ->
  (if SYMLINK_INLINE <=? i_size (n_zi ioc) then take (length target) app = target
   else take (length target) (i_union (n_zi ioc)) = target) ->
  m !! s_top_ino s = None -> (forall D, is_Some (zus_malloc D)) -> icount (s_itable s) + 1 < 2 ^ 64 ->
  wp (toyfs_new_inode app ioc) s (fun r s' =>
    match r with
    | None => unmade s F N X m s'
    | Some tii => wp (toyfs_get_symlink tii) s' (fun a s'' => s'' = s' /\
        exists ptr, a = (0, Some ptr) /\ sym_read s' ptr (length target) = Some target)
    end).
Proof.
  intros. eapply (wp_new_lnk s F N X m app ioc dp target); [done..|]. intros tii p i s' Hcr Hmade _.
  by apply (wp_get_link s' tii p i), Hcr.
Qed.

(** Releasing a link takes the target out of the inode; a page that holds it goes back
    to the pool, except where the target is as long as the room in the inode: creation
    takes a page for it and release does not give it back. *)
Theorem release_symlink_spec s F N X tii p i q target :
  fs_inv s F N X -> p ∉ F -> tii_of s tii p -> link_made s p i target ->
  (SYMLINK_INLINE <=? i_size i = true -> toyfs_dpp2pmemb (i_sym_dpp i) = q /\ q ∈ X) ->
  wp (toyfs_release_symlink tii) s (fun _ s' =>
    (if Z.of_nat (length target) =? SYMLINK_INLINE then fs_inv s' F N X /\ q ∈ X /\ h_page s' = h_page s
     else if SYMLINK_INLINE <? Z.of_nat (length target) then fs_inv s' F N (X ∖ {[q]}) else fs_inv s' F N X) /\
    exists j, h_inode s' = <[p := j]> (h_inode s) /\ i_size j = 0 /\ i_sym_dpp j = 0).
Proof.
  intros Hfs HpF Htii Hmade Hq. pose proof Hmade as (_&_&Hlen&_). eapply wp_release_symlink; [done..|].
  intros s' X' Hfs' Hx -> Hpg Hi. rewrite -Hlen. split.
  - destruct (Z.eqb_spec (i_size i) SYMLINK_INLINE) as [E|E].
    + rewrite E Z.ltb_irrefl in Hfs'. split; [done|]. split; [|apply Hpg; lia]. apply Hq. by rewrite E.
    + by destruct (SYMLINK_INLINE <? i_size i).
  - eexists. split; [exact Hi|]. split; [done|by apply sym_dpp_upd].
Qed.

Lemma wp_iget s F N X m n :
  fs_inv s F N X -> itable_is s m ->
  wp (toyfs_iget n) s (fun r s' =>
    match m !! n with
    | None => r = (- ENOENT, None) /\ s' = s
    | Some e =>
      match r_tii e with
      | Some tii => r = (0, Some tii) /\ fs_inv s' F N X /\ itable_is s' m /\ h_inode s' = h_inode s /\
          exists t, h_tii s !! tii = Some t /\ ino t = n /\ h_tii s' = <[tii := upd_ref (fun n => s32 (n + 1)) t]> (h_tii s)
      | None => r = (- ENOMEM, None) /\ s' = s \/
          exists tii t, r = (0, Some tii) /\ h_tii s' !! tii = Some t /\ ref t = 1 /\ ti t = None /\ zi t = None /\ ino t = 0 /\
            toyfs_evict tii s' = None
      end
    end).
Proof.
  intros Hfs Hm. pose proof (fs_inv_lock_nonneg _ _ _ _ Hfs) as (Hl1&Hl2&_). pose proof Hm as [Hok Hmm].
  rewrite /toyfs_iget /toyfs_find_inode_ref_by_ino. wp_step. apply wp_itable_find; [done| |].
  2:{ intros Hno. assert (m !! n = None) as ->; [|by wp_step].
      destruct (m !! n) as [e|] eqn:E; [|done]. apply Hmm in E as (tir&Hr&Hi). by destruct (Hno tir e). }
  intros tir e Hrl Hi. assert (m !! n = Some e) as -> by (apply Hmm; by exists tir). pose proof (proj1 (tirs_lookup _ _ _) Hrl) as [Hr _].
  wp_step. rewrite /toyfs_lock_inodes /toyfs_mutex_lock. do 2 wp_step. wp_step; [exact Hr|]. wp_step.
  destruct (r_tii e) as [tii|] eqn:Et.
  - wp_step. wp_step. destruct (it_tii _ Hok tir e tii Hrl Et) as (t&Ht&Eino). wp_step; [exact Ht|]. wp_step.
    apply wp_unlock_inodes; [fs_simpl; lia|]. wp_step. set (s1 := upd_h_tii (<[tii := upd_ref (fun n => s32 (n + 1)) t]>) s).
    rewrite ilock_over. fold s1.
    split_and!; [done|by apply fs_inv_tii|by apply (itable_is_upd s m tii t (upd_ref (fun n => s32 (n + 1))))|done|].
    exists t. split_and!; [done|by rewrite Eino|done].
  - wp_step. apply wp_alloc_ii; [done|done| |].
    + wp_step. wp_step. apply wp_unlock_inodes; [fs_simpl; lia|]. wp_step. left. split; [done|]. apply ilock_id.
    + intros tii Hf1 Hf2 _. wp_step. wp_step; [exact Hr|]. wp_step. wp_step; [fs_simpl; apply lookup_insert_eq|]. wp_step. wp_step.
      wp_step; [fs_simpl; apply lookup_insert_eq|]. wp_step. apply wp_unlock_inodes; [rewrite /alloc_state; fs_simpl; lia|]. wp_step. right.
      exists tii, (upd_ref (fun n => s32 (n + 1)) (upd_mapped (fun _ => true) new_tii)).
      set (t := upd_ref _ _). split; [done|].
      split; [fs_simpl; apply lookup_insert_eq|]. split; [done|]. split; [done|]. split; [done|]. split; [done|].
      apply evict_null with t; [fs_simpl; apply lookup_insert_eq|done..].
Qed.
(** Lookup by number: -ENOENT for a number that is not in the table; an inode in core
    gets one more reference; but for one that was evicted a new in-core inode is
    answered that has neither inode record nor number, on which eviction fails. *)
Theorem iget_spec s F N X m n :
  fs_inv s F N X -> itable_is s m ->
  wp (toyfs_iget n) s (fun r s' =>
    match m !! n with
    | None => r = (- ENOENT, None) /\ s' = s
    | Some e =>
      match r_tii e with
      | Some tii => r = (0, Some tii) /\ fs_inv s' F N X /\ itable_is s' m /\ h_inode s' = h_inode s /\
          exists t, h_tii s !! tii = Some t /\ ino t = n /\ h_tii s' = <[tii := upd_ref (fun n => s32 (n + 1)) t]> (h_tii s)
      | None => r = (- ENOMEM, None) /\ s' = s \/
          exists tii t, r = (0, Some tii) /\ h_tii s' !! tii = Some t /\ ref t = 1 /\ ti t = None /\ zi t = None /\ ino t = 0 /\
            toyfs_evict tii s' = None
      end
    end).
Proof. apply wp_iget. Qed.
End life.

(** ** Witnesses: the device with two directories of DirEx.v *)
Section example.
#[local] Existing Instance example_md.
#[local] Existing Instance example_malloc.
#[local] Existing Instance example_inode_api.

Lemma ds_itable : itable_is ds_example ∅.
Proof. by apply (itable_blank _ 0); vm_compute. Qed.
Definition new_reg : zufs_ioc_new_inode := ZufsIocNewInode (upd_i_mode (fun _ => S_IFREG) zero_inode) 3 0.
Definition link_name (n : nat) : list Z := replicate n 97.
Definition new_lnk (n : nat) : zufs_ioc_new_inode :=
  ZufsIocNewInode (upd_i_size (fun _ => Z.of_nat n) (upd_i_mode (fun _ => S_IFLNK) zero_inode)) 3 0.
Lemma malloc_total D : is_Some (@zus_malloc example_malloc D).
Proof. by eexists. Qed.
Lemma ds_zii3 : zii_of ds_example 3 dir1.
Proof. apply (reg_zii _ _ _ 13). vm_compute. reflexivity. Qed.

Lemma new_inode_spec_witness :
  fs_inv ds_example ex_files ex_inodes ∅ /\ wp (toyfs_new_inode [] new_reg) ds_example (fun r s' =>
    match r with None => fs_inv s' ex_files ex_inodes ∅ | Some tii => exists p, fs_inv s' ({[p]} ∪ ex_files) ({[p]} ∪ ex_inodes) ∅ end).
Proof.
  split; [exact ds_example_inv|]. eapply wp_mono; [apply (new_inode_spec ds_example ex_files ex_inodes ∅ ∅ [] new_reg dir1);
    [exact ds_example_inv|set_solver +|exact ds_itable|exact ds_zii3|reflexivity|reflexivity|by split|reflexivity|exact malloc_total|by vm_compute]|].
  intros [tii|] s'; [intros (p&i&[_ _ _ _ _ _ _ Hinv _]&_); by exists p|by intros (_&_&Hinv&_)].
Defined.
Definition life_example : toyfs_sb_info := run_or (toyfs_new_inode [] new_reg) ds_example.
Lemma life_facts : icount (s_itable life_example) = 1 /\ exists tii p i, i_xattr i = 0 /\ zi_isreg i = true /\
  created ds_example ex_files ex_inodes ∅ ∅ tii p i ({[p]} ∪ ex_files) ∅ life_example.
Proof.
  split; [by vm_compute|].
  assert (E : match toyfs_new_inode [] new_reg ds_example with Some (Some _, s') => True | _ => False end) by (by vm_compute).
  assert (Hw : wp (toyfs_new_inode [] new_reg) ds_example (fun r s' => forall tii, r = Some tii -> exists p i,
    i_xattr i = 0 /\ zi_isreg i = true /\ created ds_example ex_files ex_inodes ∅ ∅ tii p i ({[p]} ∪ ex_files) ∅ s')).
  { apply (wp_new_reg ds_example ex_files ex_inodes ∅ ∅ [] new_reg dir1);
    [exact ds_example_inv|set_solver +|exact ds_itable|exact ds_zii3|reflexivity|reflexivity|by split|reflexivity|exact malloc_total|by vm_compute|intros s1 _ t1 Heq; discriminate Heq|].
    intros tii p i s' Hcr _ _ Hmode _ Hx _ ? [= <-]. exists p, i. split; [exact Hx|]. split; [|exact Hcr]. by rewrite /zi_isreg Hmode. }
  rewrite /wp in Hw. rewrite /life_example /run_or. destruct (toyfs_new_inode [] new_reg ds_example) as [[[tii|] s']|]; [|done|done].
  exists tii. exact (Hw tii eq_refl).
Qed.
Definition new_entry (tii p : Z) : toyfs_inode_ref := ToyfsInodeRef (Some tii) (Some p) (s_top_ino ds_example).
Lemma created_tracked F X tii p i : created ds_example ex_files ex_inodes ∅ ∅ tii p i F X life_example ->
  exists t, tracked life_example (<[s_top_ino ds_example := new_entry tii p]> ∅) tii p t (new_entry tii p) /\ ref t = 1.
Proof.
  intros [C1 C2 (t'&Ht'&A1&A2&A3&A4) (t&C4&C5&C6&C7&C8) _ _ _ _ _]. exists t. split; [|exact C5].
  rewrite C4 lookup_insert_eq in Ht'. injection Ht' as <-. rewrite /tracked C7 C4 !lookup_insert_eq. split_and!; assumption || reflexivity.
Qed.
(** The new file is deleted with its only reference: it has no name. *)
Lemma evict_spec_witness : exists tii, wp (toyfs_evict tii) life_example (fun _ s2 => h_tii s2 = delete tii (h_tii life_example)).
Proof.
  destruct life_facts as (Hcnt&tii&p&i&Hx&Hreg&Hcr). destruct (created_tracked _ _ _ _ _ Hcr) as (t&Ht&Hrf).
  destruct Hcr as [_ _ _ _ [C9 _] C10 _ C12 _]. exists tii.
  eapply wp_mono; [apply (evict_spec life_example _ _ _ _ tii p t _ i C12 C10 Ht C9)|];
    [set_solver +|set_solver +|exact Hreg|rewrite /xattr_pages Hx; set_solver +|rewrite Hrf; clear; lia|rewrite Hcnt; reflexivity|].
  intros _ s2 [_ Hlast _ _ _]. exact (Hlast Hrf).
Defined.
(** The number of the new file, and a number of no file. *)
Lemma iget_spec_witness : exists tii, wp (toyfs_iget (s_top_ino ds_example)) life_example (fun r s' => r = (0, Some tii)) /\
  wp (toyfs_iget 77) life_example (fun r s' => r.1 = - ENOENT).
Proof.
  destruct life_facts as (Hcnt&tii&p&i&Hx&Hreg&Hcr). destruct Hcr as [_ _ _ _ _ C10 _ C12 _]. exists tii. split.
  - eapply wp_mono; [apply (iget_spec life_example _ _ _ _ (s_top_ino ds_example) C12 C10)|].
    intros r s'. rewrite lookup_insert_eq. cbn [r_tii]. intros [Hr _]. exact Hr.
  - eapply wp_mono; [apply (iget_spec life_example _ _ _ _ 77 C12 C10)|].
    intros r s'. rewrite lookup_insert_ne ?lookup_empty; [vm_compute; discriminate|]. intros [Hr _]. rewrite Hr. reflexivity.
Defined.
Lemma symlink_roundtrip_witness :
  fs_inv ds_example ex_files ex_inodes ∅ /\ wp (toyfs_new_inode (link_name 40) (new_lnk 40)) ds_example (fun r s' =>
    forall tii, r = Some tii -> wp (toyfs_get_symlink tii) s' (fun a s'' => exists ptr, a = (0, Some ptr) /\ sym_read s' ptr 40 = Some (link_name 40))).
Proof.
  split; [exact ds_example_inv|]. eapply wp_mono; [apply (symlink_roundtrip ds_example ex_files ex_inodes ∅ ∅ (link_name 40) (new_lnk 40) dir1 (link_name 40));
    [exact ds_example_inv|set_solver +|exact ds_itable|exact ds_zii3|reflexivity|reflexivity|reflexivity|reflexivity|reflexivity|exact malloc_total|by vm_compute]|].
  intros r s' Hr tii ->. cbv beta iota in Hr. eapply wp_mono; [exact Hr|]. intros a s'' [_ Ha]. exact Ha.
Defined.
(** A link of 32 bytes: a page was taken for it, and is not given back. *)
Definition link_example : toyfs_sb_info := run_or (toyfs_new_inode (link_name 32) (new_lnk 32)) ds_example.
Lemma link_facts : exists tii p i, created ds_example ex_files ex_inodes ∅ ∅ tii p i ex_files ({[toyfs_dpp2pmemb (i_sym_dpp i)]} ∪ ∅) link_example /\
  link_made link_example p i (link_name 32).
Proof.
  assert (E : match toyfs_new_inode (link_name 32) (new_lnk 32) ds_example with Some (Some _, s') => True | _ => False end) by (by vm_compute).
  assert (Hw : wp (toyfs_new_inode (link_name 32) (new_lnk 32)) ds_example (fun r s' => forall tii, r = Some tii -> exists p i,
    created ds_example ex_files ex_inodes ∅ ∅ tii p i ex_files ({[toyfs_dpp2pmemb (i_sym_dpp i)]} ∪ ∅) s' /\ link_made s' p i (link_name 32))).
  { apply (wp_new_lnk ds_example ex_files ex_inodes ∅ ∅ (link_name 32) (new_lnk 32) dir1 (link_name 32));
    [exact ds_example_inv|set_solver +|exact ds_itable|exact ds_zii3|reflexivity|reflexivity|reflexivity|reflexivity|reflexivity|exact malloc_total|by vm_compute|intros s1 _ t1 Heq; discriminate Heq|].
    intros tii p i s' Hcr Hmade _ ? [= <-]. exists p, i. pose proof Hmade as (_&_&Hlen&_). rewrite Hlen in Hcr. split; [exact Hcr|exact Hmade]. }
  rewrite /wp in Hw. rewrite /link_example /run_or. destruct (toyfs_new_inode (link_name 32) (new_lnk 32) ds_example) as [[[tii|] s']|]; [|done|done].
  exists tii. exact (Hw tii eq_refl).
Qed.
Lemma release_symlink_spec_witness : exists tii, wp (toyfs_release_symlink tii) link_example (fun _ s' => h_page s' = h_page link_example).
Proof.
  destruct link_facts as (tii&p&i&[_ C2 C3 _ _ _ _ C12 _]&Hmade). exists tii.
  eapply wp_mono; [apply (release_symlink_spec link_example ex_files _ _ tii p i (toyfs_dpp2pmemb (i_sym_dpp i)) (link_name 32) C12)|].
  - intros Hin. apply C2. set_solver + Hin.
  - apply zii_tii. exact C3.
  - exact Hmade.
  - intros _. split; [reflexivity|set_solver +].
  - intros _ s' [(_&_&Hpg) _]. exact Hpg.
Defined.
(** Inserting the inode of a directory into the empty table. *)
Lemma itable_refines_witness :
  h_tii ds_example !! 3 = Some (reg_tii dir1 13) /\
  wp (_itable_insert 3) ds_example (fun _ s' => itable_is s' (<[13 := ToyfsInodeRef (Some 3) (Some dir1) 13]> ∅)).
Proof.
  assert (Ht : h_tii ds_example !! 3 = Some (reg_tii dir1 13)) by (vm_compute; reflexivity). split; [exact Ht|].
  assert (Hc : icount (s_itable ds_example) + 1 < 2 ^ 64) by (vm_compute; reflexivity).
  destruct (itable_refines ds_example ∅ ds_itable malloc_total Hc) as (_&Hins&_).
  eapply wp_mono; [apply (Hins 3 (reg_tii dir1 13) Ht); reflexivity|]. intros _ s' [Hm _]. exact Hm.
Defined.
End example.
