(* ===== verification/Format.v ===== *)
(** * From the format on: mounting toyfs

    A mount formats the device: nothing of what was on it is kept.  The file system it
    leaves is an empty one that keeps every invariant the other files ask for; with some
    files created in it, it serves clients as the abstract store of Session.v does. *)

From S2P Require Import Prelude Bytes CList State Pool File FileInv FileSpec FileOps FileClaims DirPage Pages Dir DirSpec DirOps DirEx DirClaims Session Super Itable Xattr XattrSpec Iom Inode InodeSpec InodeOps.

(** ** The steps of a mount *)
Section mount.
Context `{MdLaws} `{MallocLaws}.

Lemma wp_write_pages n : forall bn s (Q : unit -> toyfs_sb_info -> Prop), (forall h, Q tt (upd_h_page (fun _ => h) s)) -> wp (write_pages n bn) s Q.
Proof.
  induction n as [|n IH]; intros b s Q HQ; cbn [write_pages].
  - wp_step. assert (E : upd_h_page (fun _ => h_page s) s = s) by by destruct s. rewrite -E. apply HQ.
  - do 2 wp_step. apply IH. intros h. exact (HQ h).
Qed.
(** There is an inode to be had where there is a free page. *)
Lemma wp_pop_inode_some s x nx : 0 <= p_mutex (s_pool s) -> free_inodes (s_pool s) = [] -> pages (s_pool s) = Some x -> h_page s !! x = Some (PoolNext nx) ->
  wp _pool_pop_inode s (fun r _ => r <> None).
Proof.
  intros Hl Hf Hp Hx. destruct s as [v m1 m2 [pm pg f1 f2 f3 pa sz] it r1 r2 top hp hd hi hn ht hr]. cbn in Hl, Hf, Hp, Hx. subst pg f3.
  assert (Hlk : (0 <? Z.succ pm) = true) by (apply Z.ltb_lt; lia).
  rewrite /_pool_pop_inode /_pool_lock /_pool_unlock /toyfs_mutex_lock /toyfs_mutex_unlock /_pool_pop_free_inode /pop_free /_pool_add_free_inodes /carve /_pool_pop_pmemb_without_lock /load_pool_next /upd_pool_mutex /pool_mutex.
  repeat (wp_step; fs_simpl; cbn [fmap option_fmap option_map]); [exact Hx|]. repeat (wp_step; fs_simpl; cbn [Z.eqb negb]).
  destruct (array_at (x + 16) sizeof_inode TOYFS_INODES_PER_PAGE) as [|e l] eqn:E; [by apply (f_equal length) in E|]. rewrite app_nil_l.
  repeat (wp_step; fs_simpl); [exact Hlk|]. repeat wp_step. done.
Qed.
Lemma wp_alloc_ii_some s tii (Q : option Z -> toyfs_sb_info -> Prop) : 0 <= s_mutex s -> f_ffree (s_statvfs s) <> 0 -> f_favail (s_statvfs s) <> 0 ->
  zus_malloc (malloced s) = Some tii -> Q (Some tii) (alloc_state s tii) -> wp toyfs_alloc_ii s Q.
Proof.
  intros Hl Hf Ha Hm HQ. rewrite /toyfs_alloc_ii /toyfs_sbi_lock /toyfs_mutex_lock. do 6 wp_step. fs_simpl.
  rewrite (proj2 (Z.eqb_neq _ _) Hf) (proj2 (Z.eqb_neq _ _) Ha). cbn [orb]. do 3 wp_step. change (malloced (upd_s_mutex Z.succ s)) with (malloced s). rewrite Hm.
  do 7 wp_step. apply wp_bind, wp_sbi_unlock'; [fs_simpl; lia|]. apply wp_ret.
  assert (E : upd_s_mutex Z.pred (upd_s_mutex Z.succ (alloc_state s tii)) = alloc_state s tii) by apply sbi_lock_id. rewrite -E in HQ. exact HQ.
Qed.

(** ** The file system a mount leaves *)
Definition root_inode : toyfs_inode :=
  upd_list_head (fun _ => []) (upd_i_nlink (fun _ => 2) (upd_i_mode (fun _ => Z.lor 493 S_IFDIR) (upd_i_ino (fun _ => TOYFS_ROOT_INO) zero_inode))).
Definition root_tii (d : Z) : toyfs_inode_info := upd_ino (fun _ => TOYFS_ROOT_INO) (upd_zi (fun _ => Some d) (upd_ti (fun _ => Some d) new_tii)).
(** [z] is the handle of the root, [d] its inode: an empty directory with two links; the
    table holds the root and nothing else; every page behind the second is free. *)
Definition root_entry (z d : Z) : toyfs_inode_ref := ToyfsInodeRef (Some z) (Some d) TOYFS_ROOT_INO.
Record formatted (s : toyfs_sb_info) (z d : Z) : Prop := Formatted {
  fm_inv : fs_inv s ∅ {[d]} ∅;
  fm_root : zii_of s z d;
  fm_dir : dir_is s ∅ d ∅;
  fm_inode : h_inode s !! d = Some root_inode;
  fm_table : itable_is s {[TOYFS_ROOT_INO := root_entry z d]};
  fm_next : s_top_ino s = 2;
  fm_roots : s_root s = Some z /\ z_root s = Some z;
  fm_free : f_bfree (s_statvfs s) = md_t1_blocks - 2 }.

(** An empty table gets its first entry. *)
Lemma wp_first_entry s z t (Q : unit -> toyfs_sb_info -> Prop) : itable_is s ∅ -> h_tii s !! z = Some t -> (forall D, is_Some (zus_malloc D)) ->
  (forall s', it_rest s' = it_rest s -> h_tii s' = h_tii s -> itable_is s' {[ino t := ToyfsInodeRef (Some z) (ti t) (ino t)]} -> Q tt s') ->
  wp (_itable_insert z) s Q.
Proof.
  intros Hm Ht Hmal HQ. pose proof (itable_empty _ Hm) as Et. destruct Hm as [Hok _].
  apply (wp_itable_insert s z t); [done|done|done|done| |rewrite (it_count _ Hok) Et map_size_empty; lia|].
  { intros t' r Hr. by rewrite Et lookup_empty in Hr. }
  intros s' tir _ Hr E1 E2 Hok'. apply HQ; [done..|]. split; [done|]. intros i r. rewrite E2 Et. split.
  - intros [<- <-]%lookup_singleton_Some. exists tir. by rewrite lookup_insert_eq.
  - intros (tir' & Hl & <-). apply lookup_insert_Some in Hl as [[_ <-]|[_ Hl]]; [apply lookup_singleton_eq|by rewrite lookup_empty in Hl].
Qed.
Lemma itable_is_any s g : itable_is s ∅ -> itable_is (upd_h_tii g s) ∅.
Proof.
  intros Hm. pose proof (itable_empty _ Hm) as Et. destruct Hm as [[L1 L2 L3 L4 L5 L6] Hm]. split; [|exact Hm]. split; try done.
  intros tir r tii Hr. change (tirs (upd_h_tii g s)) with (tirs s) in Hr. by rewrite Et lookup_empty in Hr.
Qed.
Lemma wp_new_root s z x nx (Q : Z * option Z -> toyfs_sb_info -> Prop) :
  fs_inv s ∅ ∅ ∅ -> itable_is s ∅ -> f_ffree (s_statvfs s) <> 0 -> f_favail (s_statvfs s) <> 0 ->
  free_inodes (s_pool s) = [] -> pages (s_pool s) = Some x -> h_page s !! x = Some (PoolNext nx) ->
  zus_malloc (malloced s) = Some z -> (forall D, is_Some (zus_malloc D)) ->
  (forall d s', fs_inv s' ∅ {[d]} ∅ -> h_tii s' !! z = Some (root_tii d) -> h_inode s' !! d = Some root_inode ->
     itable_is s' {[TOYFS_ROOT_INO := root_entry z d]} -> s_top_ino s' = s_top_ino s -> f_bfree (s_statvfs s') = f_bfree (s_statvfs s) -> Q (0, Some z) s') ->
  wp _new_root_inode s Q.
Proof.
  intros Hfs Hit Hff Hfa Hfi Hpg Hx Hz Hmal HQ. rewrite /_new_root_inode. apply wp_bind.
  assert (Hfs' := Hfs). destruct Hfs' as (A & I & (P & D & ((L1 & L2 & L3 & L4) & Hpl) & Hst) & HF).
  apply (wp_alloc_ii_some s z); [done..|].
  set (s1 := alloc_state s z). apply wp_bind. assert (Hfs1 : fs_inv s1 ∅ ∅ ∅) by (by apply fs_inv_ffree, fs_inv_tii).
  eapply wp_mono; [apply (wp_conj _ _ (fun r s' => r = None \/ exists d, r = Some d /\ rest s' = rest s1 /\ recs s' = recs s1 /\ s_statvfs s' = s_statvfs s1 /\
    forall i, fs_inv (upd_h_inode (<[d := i]>) s') ∅ {[d]} ∅) (fun r _ => r <> None))|].
  - apply (wp_new_slot s1 ∅ ∅ ∅); [done|done|by left|]. intros d s' _ Hr He Hs Hi. right. exists d. split_and!; [done..|].
    intros i. destruct (Hi i) as (Hi' & _). by rewrite union_empty_r_L in Hi'.
  - by apply (wp_pop_inode_some s1 x nx).
  - cbn beta. intros r s2 [[->|(d & -> & Hr & He & Hs & Hi)] Hne]; [done|]. injection Hr as R1 R2 R3 R4 R5 R6 R7 R8 R9. cbv iota.
    assert (Ht2 : h_tii s2 = <[z := new_tii]> (h_tii s)) by (by rewrite R8 /s1 /alloc_state; fs_simpl).
    set (sB := upd_h_inode (<[d := root_inode]>) s2).
    assert (Hti : itable_is (upd_h_tii (fun _ => <[z := root_tii d]> (h_tii s)) sB) ∅).
    { apply (itable_is_any (upd_h_tii (fun _ => h_tii s) sB) (fun _ => <[z := root_tii d]> (h_tii s))). by apply (itable_is_view s). }
    rewrite /set_inode. do 3 wp_step. wp_step; [fs_simpl; rewrite Ht2; apply lookup_insert_eq|]. wp_step. wp_step; [fs_simpl; apply lookup_insert_eq|].
    wp_step. wp_step; [fs_simpl; apply lookup_insert_eq|]. wp_step.
    set (s5 := upd_h_inode _ _). assert (E5 : s5 = upd_h_tii (fun _ => <[z := root_tii d]> (h_tii s)) sB).
    { transitivity (upd_h_tii (fun _ => <[z := root_tii d]> (h_tii s2)) (upd_h_inode (fun _ => <[d := root_inode]> (<[d := upd_i_nlink (fun _ => 2) (upd_i_mode (fun _ => Z.lor 493 S_IFDIR) (upd_i_ino (fun _ => TOYFS_ROOT_INO) zero_inode))]> (<[d := zero_inode]> (h_inode s2)))) s2)); [reflexivity|].
      rewrite Ht2 !insert_insert_eq. reflexivity. }
    rewrite E5. eapply (wp_first_entry _ z (root_tii d)); [exact Hti|fs_simpl; apply lookup_insert_eq|exact Hmal|].
    intros s' Hit' Et' Htab. wp_step. assert (Hit0 : it_rest s' = it_rest sB) by exact Hit'. injection Hit' as V1 V2 V3 V4 V5 V6 V7 V8 V9 V10 V11 V12. apply (HQ d).
    + eapply it_rest_inv; [exact Hit0|apply (Hi root_inode)].
    + rewrite Et'. fs_simpl. apply lookup_insert_eq.
    + rewrite V12. fs_simpl. apply lookup_insert_eq.
    + exact Htab.
    + rewrite V8. fs_simpl. by rewrite R7.
    + rewrite V1. fs_simpl. by rewrite Hs.
Qed.

Definition can_mount (magic : Z) : bool := (TOYFS_MIN_BLOCKS <=? md_t1_blocks) && (magic =? TOYFS_SUPER_MAGIC).
Lemma wp_mount magic z s (Q : Z * option Z -> toyfs_sb_info -> Prop) : zus_malloc (malloced s) = Some z -> (forall D, is_Some (zus_malloc D)) ->
  (can_mount magic = false -> forall s', Q (- EINVAL, None) s') ->
  (can_mount magic = true -> forall s' d, formatted s' z d -> Q (0, Some z) s') ->
  wp (toyfs_sbi_alloc true;; toyfs_sbi_init magic) s Q.
Proof.
  intros Hz Hmal HN HS. rewrite /toyfs_sbi_alloc /_pool_init /_itable_init. cbn [negb]. repeat wp_step. rewrite /toyfs_sbi_init /_sbi_init. apply wp_bind.
  destruct (Z.ltb_spec md_t1_blocks TOYFS_MIN_BLOCKS) as [Hlt|Hge].
  { wp_step. change (- EINVAL =? 0) with false. cbn [negb]. wp_step. apply HN. rewrite /can_mount. by rewrite (proj2 (Z.leb_gt _ _) Hlt). }
  rewrite /_prepare_pmem_first_time /_read_pmem_sb_first_time. destruct (magic =? TOYFS_SUPER_MAGIC) eqn:Em; cbn [negb Z.eqb Z.opp].
  2:{ change (- EINVAL =? 0) with false. cbn [negb]. do 2 wp_step. change (- EINVAL =? 0) with false. cbn [negb]. wp_step. change (- EINVAL =? 0) with false. cbn [negb]. wp_step. apply HN. by rewrite /can_mount Em andb_false_r. }
  assert (Hcan : can_mount magic = true) by (by rewrite /can_mount Em (proj2 (Z.leb_le _ _) Hge)). rewrite /_write_pmem_first_time.
  apply wp_bind. apply wp_bind. apply wp_write_pages. intros h. wp_step. cbn [Z.eqb negb].
  set (s1 := upd_h_page (fun _ => h) _). unfold TOYFS_MIN_BLOCKS in *.
  apply wp_assoc, wp_bind. eapply wp_mono; [apply (wp_pool_setup s1 (md_t1_blocks - 2)); [by split_and!|lia|lia]|].
  cbn beta. intros [] s2 (Hch & Hbf & _ & Hff & Htop & Hpool & Hfa & Hrec & Hrest). injection Hrec as E1 E2 E3. injection Hrest as V1 V2 V3 V4 V5 V6 V7 V8 V9.
  destruct (reverse (array_at (md_baddr 2) PAGE_SIZE (Z.to_nat (md_t1_blocks - 2)))) as [|x l] eqn:Er.
  { apply (f_equal length) in Er. rewrite length_reverse /array_at length_fmap length_seq in Er. cbn in Er. lia. }
  destruct Hch as (Hpg & nx & Hx & _). apply wp_bind. eapply (wp_new_root s2 z x nx); [by apply fs_inv_pool| |lia|lia|by rewrite V8|done|done|by rewrite /malloced V6 V7|done|].
  { assert (Hs0 : itable_is s1 ∅) by by apply (itable_blank _ 0).
    by apply (itable_is_view s1). }
  intros d s3 Hfs3 Ht3 Hi3 Htab3 Htop3 Hbf3. repeat wp_step. cbn [Z.eqb negb]. repeat wp_step. apply (HS Hcan _ d). split; fs_simpl.
  - exact Hfs3.
  - exists (root_tii d). fs_simpl. by rewrite Ht3.
  - exists [], []. split; [|done]. by eapply dir_ok_empty.
  - exact Hi3.
  - by apply (itable_is_view s3).
  - by rewrite Htop3.
  - done.
  - by rewrite Hbf3.
Qed.
(** C6: mounting toyfs.  A device of at least 1024 blocks with toyfs's magic is formatted,
    whatever was on it: what the mount leaves is an empty root directory with two links,
    alone in the table of inodes, every page behind the second one free, and every invariant
    of the file system; any other device is refused. *)
Theorem toyfs_mount_spec magic z s : zus_malloc (malloced s) = Some z -> (forall D, is_Some (zus_malloc D)) ->
  wp (toyfs_sbi_alloc true;; toyfs_sbi_init magic) s (fun r s' =>
    if can_mount magic then r = (0, Some z) /\ exists d, formatted s' z d else r = (- EINVAL, None)).
Proof.
  intros Hz Hmal. apply (wp_mount magic z); [done|done|intros ->; done|]. intros -> s' d Hf. split; [done|]. by exists d.
Qed.
End mount.

(** ** Creating files, and serving *)
Section serve.
Context `{MdLaws} `{MallocLaws} `{InodeApi}.
Implicit Types (fl : list (Z * Z)) (l : list toyfs_inode).

(** One after the other, up to the first there is no room for: their handles. *)
Fixpoint create (root : Z) l : FS (list Z) :=
  match l with
  | [] => mret []
  | i :: l' =>
    r ← toyfs_new_inode [] (ZufsIocNewInode i root 0);
    match r with None => mret [] | Some z => hs ← create root l'; mret (z :: hs) end
  end.
(** A mount, files, and then what a client asks, who knows their handles. *)
Definition serve (magic : Z) l (c : list Z -> client) : FS (list Z * list (request * answer)) :=
  toyfs_sbi_alloc true;;
  r ← toyfs_sbi_init magic;
  root ← of_option r.2;
  hs ← create root l;
  h ← run root (c hs);
  mret (hs, h).
(** A regular file as the kernel asks for it. *)
Definition new_regular (i : toyfs_inode) : Prop := zi_isreg i = true /\ i_blocks i = 0 /\ 0 <= i_size i < PAGE_SIZE /\ 0 <= i_nlink i < 2 ^ 32.
(** The store these files are, and their handles: the numbers go from 2 on. *)
Definition blank_file (i : toyfs_inode) : afile := AFile (i_size i) (fun _ => 0) (i_nlink i).
Definition blank_store l : store := Store (fun n => default (AFile 0 (fun _ => 0) 0) (blank_file <$> l !! Z.to_nat (n - 2))) ∅.
Definition handles_of (hs : list Z) : gmap Z Z := list_to_map (zip hs (seqZ 2 (Z.of_nat (length hs)))).

(** [fl]: the handles and inodes of the files [l], on the file system with the root [z] at
    [d]. *)
Record populated (s : toyfs_sb_info) (z d : Z) fl l : Prop := Populated {
  pp_length : length fl = length l;
  pp_inv : fs_inv s (list_to_set fl.*2) ({[d]} ∪ list_to_set fl.*2) ∅;
  pp_inodes : NoDup (d :: fl.*2);
  pp_handles : NoDup fl.*1;
  pp_root : zii_of s z d;
  pp_dir : h_inode s !! d = Some root_inode;
  pp_table : exists m, itable_is s m /\ Z.of_nat (size m) = 1 + Z.of_nat (length fl) /\ forall n, is_Some (m !! n) -> n < 2 + Z.of_nat (length fl);
  pp_file k h p i : fl !! k = Some (h, p) -> l !! k = Some i -> h <> 0 /\ zii_of s h p /\ (exists t, h_tii s !! h = Some t /\ ino t = 2 + Z.of_nat k) /\
    is_reg s p /\ fsize s p = i_size i /\ fblocks s p = ∅ /\ inlink s p = i_nlink i }.

Lemma formatted_populated s z d : formatted s z d -> populated s z d [] [].
Proof.
  intros [F1 F2 F3 F4 F5 F6 F7 F8]. split; cbn [fmap list_fmap length list_to_set].
  - done.
  - by rewrite union_empty_r_L.
  - apply NoDup_singleton.
  - constructor.
  - done.
  - done.
  - exists {[TOYFS_ROOT_INO := root_entry z d]}. split; [done|]. rewrite map_size_singleton. split; [done|].
    intros n [r Hr]. apply lookup_singleton_Some in Hr as [<- _]. done.
  - intros k h p i Hk. by rewrite lookup_nil in Hk.
Qed.

Definition inodes fl : gset Z := list_to_set fl.*2.
Lemma inodes_snoc fl h p : inodes (fl ++ [(h, p)]) = {[p]} ∪ inodes fl.
Proof. rewrite /inodes fmap_app list_to_set_app_L. cbn. set_solver. Qed.
Lemma inodes_lookup fl k h p : fl !! k = Some (h, p) -> p ∈ inodes fl.
Proof. intros Hk. apply elem_of_list_to_set, list_elem_of_fmap. exists (h, p). split; [done|]. by eapply list_elem_of_lookup_2. Qed.
Lemma zii_kept s s' tii t h p : h_tii s' = <[tii := t]> (h_tii s) -> h_tii s !! tii = None -> zii_of s h p -> zii_of s' h p.
Proof. intros E Hn (x & Hx & Hr). exists x. rewrite E lookup_insert_ne //. congruence. Qed.
(** What a file is does not change while others are made. *)
Lemma file_kept s s' F X p (i : toyfs_inode) : h_inode s' !! p = h_inode s !! p -> same_files s s' F X -> p ∈ F ->
  is_reg s p /\ fsize s p = i_size i /\ fblocks s p = ∅ /\ inlink s p = i_nlink i -> is_reg s' p /\ fsize s' p = i_size i /\ fblocks s' p = ∅ /\ inlink s' p = i_nlink i.
Proof.
  intros Ei [Hs _] Hp ((j & Hj & Hm) & G1 & G2 & G3). split; [exists j; by rewrite Ei|]. rewrite /fsize /inlink !Ei. destruct (Hs p Hp) as [_ ->]. by split_and!.
Qed.
Lemma populated_unmade s s' z d fl l m : populated s z d fl l -> itable_is s m -> unmade s (inodes fl) ({[d]} ∪ inodes fl) ∅ m s' -> populated s' z d fl l.
Proof.
  intros [P1 P2 P3 P4 P5 P6 P7 P8] Hm (U1 & U2 & U3 & U4 & U5). assert (Ho : forall tj, tj ∈ inodes fl -> h_inode s' !! tj = h_inode s !! tj) by (intros; apply U1; set_solver).
  split; try done.
  - destruct P5 as (t & Ht). exists t. by rewrite U2.
  - rewrite U1 //. set_solver.
  - destruct P7 as (m' & Hm' & Hcard). exists m'. split; [|done]. by rewrite (itable_unique s m' m).
  - intros k h p i Hk Hl. destruct (P8 k h p i Hk Hl) as (G1 & (t & Ht) & (u & Hu) & Hf).
    pose proof (inodes_lookup _ _ _ _ Hk) as Hin. split; [done|]. split; [exists t; by rewrite U2|]. split; [exists u; by rewrite U2|].
    apply (file_kept s s' (inodes fl) ∅ p i); [by apply Ho|done..].
Qed.
Lemma populated_created s s' z d fl l m tii p j i : populated s z d fl l -> itable_is s m -> s_top_ino s = 2 + Z.of_nat (length fl) -> tii <> 0 ->
  created s (inodes fl) ({[d]} ∪ inodes fl) ∅ m tii p j ({[p]} ∪ inodes fl) ∅ s' ->
  fblocks s' p = ∅ -> i_size j = i_size i -> i_mode j = i_mode i -> i_nlink j = i_nlink i -> zi_isreg i = true ->
  populated s' z d (fl ++ [(tii, p)]) (l ++ [i]).
Proof.
  intros [P1 P2 P3 P4 P5 P6 P7 P8] Hm Htop Hne [C1 C2 C3 (t & C4 & _ & _ & C5 & _) [C6 C7] C8 _ C9 C10 _] Hb Hsz Hmd Hnl Hreg. fold (inodes fl) in *.
  split.
  - rewrite !length_app /=. lia.
  - rewrite -/(inodes (fl ++ _)) inodes_snoc. by replace ({[d]} ∪ ({[p]} ∪ inodes fl)) with ({[p]} ∪ ({[d]} ∪ inodes fl)) by set_solver.
  - rewrite fmap_app app_comm_cons. apply NoDup_app. split; [done|]. split; [|apply NoDup_singleton].
    intros x Hx Ex%list_elem_of_singleton. cbn in Ex. subst x. apply C2. apply elem_of_cons in Hx as [->|Hx]; [set_solver|]. apply elem_of_union_r. by apply elem_of_list_to_set.
  - rewrite fmap_app. apply NoDup_app. split; [done|]. split; [|apply NoDup_singleton]. intros x Hx Ex%list_elem_of_singleton. cbn in Ex. subst x.
    apply list_elem_of_fmap in Hx as ([h q] & Eh & [k Hk]%list_elem_of_lookup_1). cbn in Eh. subst tii. destruct (lookup_lt_is_Some_2 l k) as [i' Hi']; [rewrite -P1; by eapply lookup_lt_Some|].
    destruct (P8 k h q i' Hk Hi') as (_ & (u & Hu & _) & _). congruence.
  - by eapply zii_kept.
  - rewrite C7 //. set_solver.
  - destruct P7 as (m' & Hm' & Hcard & Hlt). rewrite (itable_unique s m' m) // in Hcard Hlt. rewrite length_app /=.
    exists (<[s_top_ino s := ToyfsInodeRef (Some tii) (Some p) (s_top_ino s)]> m). split; [done|]. split.
    + rewrite map_size_insert_None; [|lia]. destruct (m !! s_top_ino s) as [r|] eqn:E; [|done]. pose proof (Hlt (s_top_ino s) ltac:(by eexists)). lia.
    + intros n [r Hr]. apply lookup_insert_Some in Hr as [[<- _]|[_ Hr]]; [lia|]. pose proof (Hlt n ltac:(by eexists)). lia.
  - intros k h q i' Hk Hl. apply lookup_snoc_Some in Hk as [[Hk1 Hk]|[-> [= <- <-]]].
    + rewrite lookup_app_l in Hl; [lia|]. destruct (P8 k h q i' Hk Hl) as (G1 & Hz & (u & Hu & Hn) & Hf). pose proof (inodes_lookup _ _ _ _ Hk) as Hin.
      split; [done|]. split; [by eapply zii_kept|]. split; [exists u; rewrite C4 lookup_insert_ne //; congruence|].
      apply (file_kept s s' (inodes fl) ∅ q i'); [apply C7; set_solver|done..].
    + rewrite P1 lookup_app_r // Nat.sub_diag in Hl. injection Hl as <-. split; [done|]. split; [done|].
      split; [exists t; rewrite C4 lookup_insert_eq; split; [done|lia]|]. split; [exists j; split; [done|by rewrite Hmd]|].
      rewrite /fsize /inlink C6 /=. by split_and!.
Qed.

(** Every address malloc gives is a pointer. *)
Hypothesis malloc_gives : forall D, exists x, zus_malloc D = Some x /\ x <> 0.
Lemma malloc_some D : is_Some (zus_malloc D).
Proof. destruct (malloc_gives D) as (x & -> & _). by eexists. Qed.
Lemma wp_create z d l' : forall s fl l, populated s z d fl l -> s_top_ino s = 2 + Z.of_nat (length fl) -> Forall new_regular l' ->
  Z.of_nat (length fl) + Z.of_nat (length l') < 2 ^ 62 ->
  wp (create z l') s (fun hs s' => exists fl', populated s' z d (fl ++ fl') (l ++ take (length hs) l') /\ fl'.*1 = hs /\ (length hs <= length l')%nat).
Proof.
  induction l' as [|i l' IH]; intros s fl l Hp Htop Hl Hb; cbn [create].
  { wp_step. exists []. rewrite !app_nil_r. by split_and!. }
  apply Forall_cons in Hl as [(Hreg & Hblk & Hsz & _) Hl]. cbn [length] in Hb. pose proof Hp as [P1 P2 P3 P4 P5 P6 (m & Hm & Hcard & Hlt) P8]. fold (inodes fl) in P2.
  wp_step. apply (wp_new_reg s (inodes fl) ({[d]} ∪ inodes fl) ∅ m [] (ZufsIocNewInode i z 0) d); [exact P2|set_solver|exact Hm|exact P5|exact Hreg|exact Hblk|exact Hsz| |exact malloc_some| | |].
  - destruct (m !! s_top_ino s) as [r|] eqn:E; [|done]. pose proof (Hlt (s_top_ino s) ltac:(by eexists)). lia.
  - rewrite (itable_size _ _ Hm). lia.
  - intros s' Hun. wp_step. exists []. rewrite !app_nil_r. split; [|by split; [|cbn; lia]]. by eapply populated_unmade.
  - intros tii p j s' Hcr Hlist Esz Emd _ _ Enl. cbn [n_zi n_flags] in *. wp_step.
    assert (Hne : tii <> 0). { destruct (cr_malloc _ _ _ _ _ _ _ _ _ _ _ Hcr) as [D HD]. destruct (malloc_gives D) as (x & Ex & Hx). congruence. }
    assert (Hp' : populated s' z d (fl ++ [(tii, p)]) (l ++ [i])).
    { eapply populated_created; try done; [|by apply Enl]. rewrite (fblocks_eq s' p j); [apply (cr_inode _ _ _ _ _ _ _ _ _ _ _ Hcr)|]. by rewrite Hlist. }
    eapply wp_mono; [apply (IH s' _ _ Hp'); [|done|rewrite length_app /=; lia]|].
    + rewrite (cr_top _ _ _ _ _ _ _ _ _ _ _ Hcr) Htop length_app /= u64_small; lia.
    + cbn beta. intros hs s2 (fl' & Hp2 & Eh & Hle). wp_step. exists ((tii, p) :: fl'). rewrite -!app_assoc in Hp2. split; [exact Hp2|]. cbn [fmap list_fmap fst length]. split; [by rewrite -Eh|lia].
Qed.

Lemma handles_lookup hs h n : NoDup hs -> handles_of hs !! h = Some n <-> exists k, hs !! k = Some h /\ n = 2 + Z.of_nat k.
Proof.
  intros Hnd. rewrite /handles_of -elem_of_list_to_map; [by rewrite fst_zip // length_seqZ; lia|].
  rewrite list_elem_of_lookup. split.
  - intros [k Hk]. apply lookup_zip_with_Some in Hk as (x & y & [= -> ->] & Hx & Hy). apply lookup_seqZ in Hy as [-> _]. by exists k.
  - intros (k & Hk & ->). exists k. apply lookup_zip_with_Some. exists h, (2 + Z.of_nat k). split_and!; [done|done|]. apply lookup_seqZ. apply lookup_lt_Some in Hk. lia.
Qed.
Definition addr_of fl (n : Z) : Z := default 0 (snd <$> fl !! Z.to_nat (n - 2)).
Lemma addr_lookup fl k h p : fl !! k = Some (h, p) -> addr_of fl (2 + Z.of_nat k) = p.
Proof. intros Hk. rewrite /addr_of. replace (Z.to_nat (2 + Z.of_nat k - 2)) with k by lia. by rewrite Hk. Qed.
Lemma populated_implements s z d fl l : populated s z d fl l -> Forall new_regular l -> implements (handles_of fl.*1) z d (addr_of fl) s (blank_store l).
Proof.
  intros [P1 P2 P3 P4 P5 P6 P7 P8] Hl. fold (inodes fl) in P2. apply NoDup_cons in P3 as [P3 _]. exists (inodes fl), ({[d]} ∪ inodes fl), ∅. split_and!; [done| |done| |].
  - intros Hd. apply P3. by apply elem_of_list_to_set in Hd.
  - exists [], []. split; [|done]. by eapply dir_ok_empty.
  - intros h n (k & Hk & ->)%handles_lookup; [|done]. rewrite list_lookup_fmap in Hk. destruct (fl !! k) as [[h' p]|] eqn:E; [|done]. injection Hk as ->.
    destruct (lookup_lt_is_Some_2 l k) as [i Hi]; [rewrite -P1; by eapply lookup_lt_Some|]. rewrite (addr_lookup _ _ _ _ E).
    destruct (P8 k h p i E Hi) as (_ & Hz & Ht & Hr & Hsz & Hb & Hn). split_and!; [done|done|by eapply inodes_lookup|done|].
    rewrite /blank_store. cbn [st_file]. replace (Z.to_nat (2 + Z.of_nat k - 2)) with k by lia. rewrite Hi. cbn [fmap option_fmap option_map default from_option id].
    rewrite /file_is /blank_file. cbn [af_size af_byte af_nlink]. rewrite Hb. split_and!; [done|done|done|..].
    all: pose proof (proj1 (Forall_lookup _ _) Hl k i Hi) as (_ & _ & _ & Hb'); lia.
Qed.

Hypothesis trunc_flag : 0 < ZUFS_FL_TRUNCATE < 2 ^ 63.
(** C2: from the format on.  A mount of a device that can be mounted, some files created in it,
    as far as there is room, and then any client that keeps to the rules: all of it runs, and
    the client is answered as by a store of files of zeros without names.  Nothing is
    assumed of the state before the mount. *)
Theorem serve_spec magic l (c : list Z -> client) s :
  can_mount magic = true -> Forall new_regular l -> Z.of_nat (length l) < 2 ^ 62 ->
  (forall hs, NoDup hs -> (length hs <= length l)%nat -> safe (handles_of hs) (blank_store (take (length hs) l)) (c hs)) ->
  wp (serve magic l c) s (fun r _ => NoDup r.1 /\ (length r.1 <= length l)%nat /\
    exists b, asteps (handles_of r.1) (blank_store (take (length r.1) l)) r.2 b).
Proof.
  intros Hcan Hl Hlen Hsafe. rewrite /serve. destruct (malloc_gives (malloced s)) as (z & Hz & _). apply wp_assoc, wp_bind.
  apply (wp_mount magic z); [done|apply malloc_some|by rewrite Hcan|]. intros _ s1 d Hf. cbn [snd of_option]. do 2 wp_step. wp_step.
  eapply wp_mono; [apply (wp_create z d l s1 [] []); [by apply formatted_populated|by rewrite (fm_next _ _ _ Hf)|done|cbn; lia]|].
  cbn beta. intros hs s2 (fl & Hp & <- & Hle). cbn [app] in Hp. wp_step.
  pose proof (pp_handles _ _ _ _ _ Hp) as Hnd. assert (Hl' : Forall new_regular (take (length fl.*1) l)) by by apply Forall_take.
  eapply wp_mono; [apply (wp_client (handles_of fl.*1) z d (addr_of fl)); [| |exact trunc_flag|by apply populated_implements|by apply Hsafe]|].
  - intros h n (k & Hk & ->)%handles_lookup; [|done]. pose proof (lookup_lt_Some _ _ _ Hk) as Hlt. rewrite list_lookup_fmap in Hk.
    destruct (fl !! k) as [[h' p]|] eqn:E; [|done]. injection Hk as ->.
    destruct (lookup_lt_is_Some_2 (take (length fl.*1) l) k) as [i Hi]; [rewrite -(pp_length _ _ _ _ _ Hp); by eapply lookup_lt_Some|].
    destruct (pp_file _ _ _ _ _ Hp k h p i E Hi) as (Hh & _). split; [done|lia].
  - intros h h' n n' (k & Hk & ->)%handles_lookup (k' & Hk' & ->)%handles_lookup; [|done|done].
    rewrite !list_lookup_fmap in Hk Hk'. destruct (fl !! k) as [[h1 p1]|] eqn:E; [|done]. destruct (fl !! k') as [[h2 p2]|] eqn:E'; [|done].
    rewrite (addr_lookup _ _ _ _ E) (addr_lookup _ _ _ _ E'). intros ->. pose proof (pp_inodes _ _ _ _ _ Hp) as [_ Hn]%NoDup_cons.
    assert (k = k') as ->; [|done]. eapply (NoDup_lookup fl.*2); [done|rewrite list_lookup_fmap E|rewrite list_lookup_fmap E']; reflexivity.
  - cbn beta. intros h s3 (b & Hb & _). wp_step. split; [done|]. split; [done|]. by exists b.
Qed.
End serve.

(** ** A device of 1024 blocks *)
Section example.
#[local] Instance md_1024 : MdApi := {|
  md_baddr bn := PAGE_SIZE * bn; md_addr_to_offset a := a; md_o2p o := o / PAGE_SIZE; md_p2o n := PAGE_SIZE * n; pmem_dpp_t o := o;
  md_t1_blocks := 1024; ZUS_API_MAP_MAX_SIZE := 4194304; ZUFS_NAME_LEN := 255; ZUFS_FL_TRUNCATE := 2 ^ 31 |}.
#[local] Instance md_1024_laws : MdLaws.
Proof.
  split; cbn [md_baddr md_addr_to_offset md_o2p md_p2o pmem_dpp_t md_t1_blocks ZUS_API_MAP_MAX_SIZE md_1024]; try lia; intros n _; rewrite Z.mul_comm Z.div_mul; lia.
Qed.
#[local] Instance never_null : MallocApi := fun D => Some (fresh ({[0]} ∪ D)).
#[local] Instance never_null_laws : MallocLaws.
Proof. intros D p [= <-]. pose proof (is_fresh ({[0]} ∪ D)) as Hf. set_solver. Qed.
Lemma never_null_gives D : exists x, zus_malloc D = Some x /\ x <> 0.
Proof. exists (fresh ({[0]} ∪ D)). split; [done|]. pose proof (is_fresh ({[0]} ∪ D)) as Hf. set_solver. Qed.
Lemma never_null_some D : is_Some (zus_malloc D).
Proof. by eexists. Qed.
#[local] Existing Instance example_inode_api.
Definition one_file : list toyfs_inode := [upd_i_mode (fun _ => S_IFREG) zero_inode].
(** Write three bytes into the file, and read them back. *)
Definition its_client (hs : list Z) : client :=
  match hs with [] => Stop | h :: _ => Do (Write h 5 3 [7; 8; 9]) (fun _ => Do (Read h 5 3) (fun _ => Stop)) end.
Lemma its_client_safe hs : NoDup hs -> (length hs <= 1)%nat -> safe (handles_of hs) (blank_store (take (length hs) one_file)) (its_client hs).
Proof.
  intros Hnd Hl. destruct hs as [|h hs]; [done|]. assert (Hh : is_Some (handles_of (h :: hs) !! h)) by (exists 2; apply handles_lookup; [done|]; by exists 0%nat).
  cbn [its_client safe legal]. split; [split_and!; [done|lia..|done]|]. intros r b _. split; [split_and!; [done|lia..]|done].
Qed.
Lemma one_file_regular : Forall new_regular one_file.
Proof. constructor; [by split_and!|constructor]. Qed.
Lemma toyfs_mount_spec_witness : exists z s' d, zus_malloc (malloced sbi_zero) = Some z /\
  (toyfs_sbi_alloc true;; toyfs_sbi_init TOYFS_SUPER_MAGIC) sbi_zero = Some ((0, Some z), s') /\ formatted s' z d.
Proof.
  destruct (never_null_some (malloced sbi_zero)) as [z Hz]. destruct (wp_exists _ _ _ (toyfs_mount_spec TOYFS_SUPER_MAGIC z sbi_zero Hz never_null_some)) as (r & s' & Hrun & Hr).
  change (can_mount TOYFS_SUPER_MAGIC) with true in Hr. destruct Hr as (-> & d & Hd). exists z, s', d. split; [exact Hz|]. split; [exact Hrun|exact Hd].
Defined.
Lemma trunc_1024 : 0 < ZUFS_FL_TRUNCATE < 2 ^ 63.
Proof. done. Qed.
Lemma serve_spec_witness : Forall new_regular one_file /\
  wp (serve TOYFS_SUPER_MAGIC one_file its_client) sbi_zero (fun r _ => exists b, asteps (handles_of r.1) (blank_store (take (length r.1) one_file)) r.2 b).
Proof.
  split; [exact one_file_regular|]. assert (Hlen : Z.of_nat (length one_file) < 2 ^ 62) by reflexivity.
  eapply wp_mono; [exact (serve_spec never_null_gives trunc_1024 TOYFS_SUPER_MAGIC one_file its_client sbi_zero eq_refl one_file_regular Hlen its_client_safe)|].
  intros r s' (_ & _ & b & Hb). exists b. exact Hb.
Defined.
End example.
