(* ===== verification/Mmap.v ===== *)
(** * Mapped files

    The block number a fault on a mapped page gets: that of the page with the file's
    bytes, or of a new page of zeros for a write into a hole. *)

From S2P Require Import Prelude Bytes CList State Pool File FileInv FileSpec FileOps FileClaims DirPage Dir Super Xattr Iom Inode.

Section mmap.
Context `{MdLaws} `{InodeApi} `{IomApi}.
Implicit Types (F N X : gset Z).

(** The answer: one block number, in the first word. *)
Definition answers (io : get_block_io) (flags bn : Z) (r : Z * option get_block_out) : Prop :=
  exists b, r = (0, Some (GetBlockOut flags (_ioc_IO_size 1) b)) /\
    words b !! 0%nat = Some (_zufs_iom_enc_bn bn 0) /\ length (words b) = length (g_words io).
(** The request has room for two words, as the kernel sends it. *)
Definition room_io (io : get_block_io) : Prop :=
  16 <= ZUS_MAX_OP_SIZE - off_io_iom_e <= 8 * Z.of_nat (length (g_words io)).
Lemma one_bn_spec io bn : room_io io -> exists b, one_bn io bn = Some b /\
  words b !! 0%nat = Some (_zufs_iom_enc_bn bn 0) /\ length (words b) = length (g_words io).
Proof.
  intros Hr. rewrite /room_io in Hr.
  assert (Hw : wp (_zus_iom_start false;; _ziom_enc_t1_bn bn 0;; _zus_iom_end) (_zus_iom_init_4_ioc_io (g_words io) ZUS_MAX_OP_SIZE)
    (fun _ b => words b !! 0%nat = Some (_zufs_iom_enc_bn bn 0) /\ length (words b) = length (g_words io))).
  { rewrite /_zus_iom_start. wp_steps. apply wp_put_word; [cbn [words _zus_iom_init_4_ioc_io _zus_iom_common_init upd_cur upd_iom_n]; lia|].
    do 2 wp_step. set (b0 := upd_iomd _ _).
    assert (Hl : length (words b0) = length (g_words io)) by (cbn; by rewrite length_insert).
    apply (wp_t1_bn b0).
    { split; [done|]. change (end_iom_e b0) with (ZUS_MAX_OP_SIZE - off_io_iom_e). rewrite Hl. change (cur_iom_e b0) with 0. lia. }
    { change (end_iom_e b0) with (ZUS_MAX_OP_SIZE - off_io_iom_e). change (cur_iom_e b0) with 0. lia. }
    intros b1 (A1&A2&A0&A3&A4) (K1&K2&K3) _. change (cur_iom_e b0) with 0 in *.
    rewrite A1 in A4. cbn in A4, A1. rewrite /_zus_iom_end /_zus_iom_len. wp_steps.
    assert (E1 : words b1 !! 0%nat = Some (_zufs_iom_enc_bn bn 0)).
    { change (Pos.to_nat 1) with 1%nat in A4. rewrite -(lookup_take_lt _ 1) ?A4; [lia|done]. }
    case_match.
    - apply wp_put_word; [rewrite A1 A3 Hl; lia|]. wp_steps. cbn [words upd_words upd_iom_n]. rewrite list_lookup_insert_ne; [lia|].
      split; [done|]. by rewrite length_insert A3.
    - wp_steps. cbn [words upd_words upd_iom_n]. split; [done|]. by rewrite A3. }
  rewrite /one_bn. revert Hw. rewrite /wp. match goal with |- context [match ?e with Some _ => _ | None => False end] => destruct e as [[u b]|] end; [|done].
  intros Hw. by exists b.
Qed.

(** The page of a mapped block. *)
Lemma wp_resolve s F N X tii ti o (Q : Z -> toyfs_sb_info -> Prop) :
  fs_inv s F N X -> ti ∈ F -> tii_of s tii ti ->
  (fblocks s ti !! _off_to_boff o = None -> Q 0 s) ->
  (forall p dat, page_addr p -> 0 < p -> h_page s !! p = Some (Pmemb dat) -> fblocks s ti !! _off_to_boff o = Some dat -> Q p s) ->
  wp (toyfs_resolve_pmemb tii o) s Q.
Proof.
  intros Hfs Hti Htii HN HS. rewrite /toyfs_resolve_pmemb /_fetch_pmemb_by_offset. wp_step.
  eapply (wp_fetch_iblkref s F N X); [done..| |].
  - intros Hb. wp_step. by apply HN.
  - intros x d Hx Hxr Hfb. pose proof Hfs as (A&I&Hst&HF&_). destruct (HF ti Hti) as (i&Hi&Hlok&_).
    rewrite (flist_eq _ _ _ Hi) in Hx. assert (HxA : x ∈ A) by (by apply Hlok).
    assert (Hxd : ib_d s x = Some d) by (by rewrite /ib_d Hxr).
    destruct (reachable_rec s I N A X None d) as (r&Hr&_&_); [done|right; eauto|].
    destruct (reachable_live s I N A X None d r) as (Hp0&dat&Hdat&Hl); [done|right; eauto|done|].
    assert (Hpa : page_addr (toyfs_bn2pmemb (bn r))).
    { destruct Hst as (P&D&(_&fl&C&(_&_&Hpa&_)&_)&(S1&_&S3&_)&_). destruct (S3 x HxA) as (d'&Hd'&HdD).
      rewrite Hxd in Hd'. injection Hd' as <-. destruct (S1 d HdD) as (r'&Hr'&_&HP&_). rewrite Hr in Hr'. injection Hr' as <-.
      apply Hpa. right. by left. }
    wp_step. eapply wp_iblkref_dblkref; [exact Hxr|]. wp_step. eapply wp_dblkref_bn; [exact Hr|].
    wp_step. apply (HS _ dat); [done..|]. by rewrite Hfb (ib_dat_eq s x d r (toyfs_bn2pmemb (bn r)) dat).
Qed.
(** The number of the page a write needs: the file has a block there afterwards. *)
Lemma wp_require_bn s F N X tii ti o (Q : Z -> toyfs_sb_info -> Prop) :
  fs_inv s F N X -> ti ∈ F -> tii_of s tii ti -> 0 <= o <= 2 ^ 50 ->
  (forall s', fs_step s s' F X ti -> fs_inv s' F N X -> fblocks s' ti = fblocks s ti ->
     fsize s' ti = fsize s ti -> free_le s' 1 -> Q 0 s') ->
  (forall n dat s', fs_step s s' F X ti -> fs_inv s' F N X -> 0 < n -> h_page s' !! toyfs_bn2pmemb n = Some (Pmemb dat) ->
     dat = default (zeros 4096) (fblocks s ti !! _off_to_boff o) ->
     fblocks s' ti = <[_off_to_boff o := dat]> (fblocks s ti) -> fsize s' ti = fsize s ti -> Q n s') ->
  wp (toyfs_require_pmem_bn tii o) s Q.
Proof.
  intros Hfs Hti Htii Ho HN HS. rewrite /toyfs_require_pmem_bn. wp_step. apply (wp_require_iblkref s F N X tii ti o); [done..| |].
  { intros s' H1' H2' H3' H4' H5'. wp_step. by apply HN. }
  intros x s' Hs' Hfs' Hfb Hsz (Hx&d&r&Hxr&Hr&_). pose proof Hfs' as (A&I&Hst&HF&_). destruct (HF ti Hti) as (i&Hi&Hlok&_).
  rewrite (flist_eq _ _ _ Hi) in Hx. assert (HxA : x ∈ A) by (by apply Hlok).
  assert (Hxd : ib_d s' x = Some d) by (by rewrite /ib_d Hxr).
  destruct (reachable_rec s' I N A X None d) as (r'&Hr'&Hn&_); [done|right; eauto|]. rewrite Hr in Hr'. injection Hr' as <-.
  destruct (reachable_live s' I N A X None d r) as (_&dat&Hdat&_); [done|right; eauto|done|].
  wp_step. eapply wp_iblkref_dblkref; [exact Hxr|]. eapply wp_dblkref_bn; [exact Hr|].
  assert (Eb : fblocks s' ti !! _off_to_boff o = Some dat).
  { assert (Eo : ib_off s' x = _off_to_boff o) by (by rewrite /ib_off Hxr). rewrite -Eo.
    erewrite fblocks_at; [|exact Hi|exact Hlok|exact Hx]. by rewrite (ib_dat_eq s' x d r (toyfs_bn2pmemb (bn r)) dat). }
  assert (Ed : dat = default (zeros 4096) (fblocks s ti !! _off_to_boff o)).
  { rewrite Hfb lookup_insert_eq in Eb. by injection Eb. }
  apply (HS _ dat); try done. by rewrite Ed.
Qed.

Lemma wp_answer io flags n (s : toyfs_sb_info) : room_io io ->
  wp (b ← of_option (one_bn io n); mret (0, Some (GetBlockOut flags (_ioc_IO_size 1) b))) s (fun r s' => s' = s /\ answers io flags n r).
Proof. intros Hr. destruct (one_bn_spec io n Hr) as (b&->&Hb). cbn [of_option]. do 2 wp_step. split; [done|]. by exists b. Qed.

(** A fault on a mapped page: a block the file has is answered by the number of its
    page, for reads and writes alike and with nothing changed, even where the page is
    shared with a clone; a hole is block 0 for a read, and for a write a new page of
    zeros, or -ENOSPC. *)
Theorem get_block_spec s F N X zii ti i io :
  fs_inv s F N X -> ti ∈ F -> zii_of s zii ti -> h_inode s !! ti = Some i -> zi_isreg i = true ->
  g_operation io = ZUFS_OP_GET_MULTY -> Z.land (g_rw io) ZUFS_RW_MMAP <> 0 -> 0 <= g_filepos io <= 2 ^ 50 -> room_io io ->
  wp (toyfs_get_put_multy zii io) s (fun r s' =>
    let b := _off_to_boff (g_filepos io) in
    fs_inv s' F N X /\ fs_step s s' F X ti /\ fsize s' ti = fsize s ti /\
    match fblocks s ti !! b with
    | Some dat => s' = s /\ exists n, answers io 0 n r /\ h_page s !! toyfs_bn2pmemb n = Some (Pmemb dat)
    | None =>
      if Z.land (g_rw io) GB_WRITE =? 0 then s' = s /\ answers io 0 0 r else
      (r = (- ENOSPC, None) /\ fblocks s' ti = fblocks s ti /\ free_le s' 1) \/
      (exists n, answers io ZUFS_RET_NEW n r /\ h_page s' !! toyfs_bn2pmemb n = Some (Pmemb (zeros 4096)) /\
        fblocks s' ti = <[b := zeros 4096]> (fblocks s ti))
    end).
Proof.
  intros Hfs Hti Hz Hi Hreg Hop Hmm Ho Hroom. pose proof (zii_tii _ _ _ Hz) as Htii.
  rewrite /toyfs_get_put_multy Hop Z.eqb_refl /_get_multy. wp_step. eapply wp_zii; [exact Hz|].
  wp_step. eapply wp_zi; [exact Htii|]. wp_step. eapply wp_get_inode; [exact Hi|]. rewrite Hreg. cbn [negb].
  rewrite (proj2 (Z.eqb_neq _ 0) Hmm) s64_small; [lia|].
  destruct (Z.eqb_spec (Z.land (g_rw io) GB_WRITE) 0) as [Hw|Hw]; cbn [negb]; rewrite /_get_block_rd /_get_block_wr; wp_step;
    apply (wp_resolve s F N X zii ti); try done.
  - intros ->. cbn [_resolve_bn negb Z.eqb]. eapply wp_mono; [apply (wp_answer io 0 0 s Hroom)|]. intros r s' [-> Ha]. by split_and!.
  - intros p dat Hpa Hp Hdat ->. destruct (page_addr_bn p Hpa) as [Hn Ep]. rewrite /_resolve_bn (proj2 (Z.eqb_neq p 0)) /=; [lia|].
    eapply wp_mono; [apply (wp_answer io 0 _ s Hroom)|]. intros r s' [-> Ha]. split_and!; try done. exists (toyfs_addr2bn p). by rewrite Ep.
  - intros Hb. rewrite Hb. cbn [negb Z.eqb]. wp_step. apply (wp_require_bn s F N X zii ti); try done.
    + intros s' Hs' Hfs' Hfb Hsz Hfree. cbn [negb Z.eqb]. wp_step. split_and!; try done. by left.
    + intros n dat s' Hs' Hfs' Hn Hpg -> Hfb Hsz. rewrite Hb in Hpg, Hfb. rewrite (proj2 (Z.eqb_neq n 0)) /=; [lia|].
      eapply wp_mono; [apply (wp_answer io _ n s' Hroom)|]. intros r s2 [-> Ha]. split_and!; try done. right. by exists n.
  - intros p dat Hpa Hp Hdat ->. destruct (page_addr_bn p Hpa) as [Hn Ep]. rewrite (proj2 (Z.eqb_neq p 0)) /=; [lia|].
    rewrite /_resolve_bn (proj2 (Z.eqb_neq p 0)) /=; [lia|].
    eapply wp_mono; [apply (wp_answer io 0 _ s Hroom)|]. intros r s' [-> Ha]. split_and!; try done. exists (toyfs_addr2bn p). by rewrite Ep.
Qed.
End mmap.

Section example.
#[local] Existing Instance example_md.
#[local] Existing Instance example_iom.
#[local] Existing Instance example_inode_api.
Definition write_fault : get_block_io := GetBlockIO 8192 (Z.lor ZUFS_RW_MMAP GB_WRITE) ZUFS_OP_GET_MULTY (zeros (Z.to_nat 8192)).
(** A write to the third page of an empty file. *)
Lemma get_block_spec_witness :
  fs_inv fs_example ex_files ex_files ∅ /\ wp (toyfs_get_put_multy 1 write_fault) fs_example (fun r s' =>
    fs_inv s' ex_files ex_files ∅ /\ fsize s' file1 = fsize fs_example file1).
Proof.
  split; [exact fs_example_inv|]. destruct fs_example_facts as (_&_&_&Hi&_).
  assert (Hz : room_io write_fault).
  { split; [by vm_compute|]. cbn [g_words write_fault]. rewrite /zeros length_replicate. rewrite Z2Nat.id; [done|]. by vm_compute. }
  eapply wp_mono; [apply (get_block_spec fs_example ex_files ex_files ∅ 1 file1 (reg_inode 11) write_fault fs_example_inv ex_in1 ex_zii1 Hi);
    [reflexivity|reflexivity|discriminate|split; discriminate|exact Hz]|].
  intros r s' (H1&_&H2&_). by split.
Defined.
End example.
