(* ===== verification/Fba.v ===== *)
(** * File-backed allocation: the fba part of pa.c

    The system calls are parameters that answer a result or an [errno]; a mapping is
    its address and length, and what [munmap] gives back is recorded. *)

From S2P Require Import Prelude.

Definition MEGA : Z := 2 ^ 20.

(** The configured size, as [zus_setup_pa_size] finds it: an argument, the environment
    variable, or half of the memory, rounded down to 2M.  [p_size] and [pages] are the
    answers of [sysconf], -1 for an error with [errno]. *)
Definition zus_setup_pa_size (size : Z) (env : option Z) (p_size pages errno old : Z) : Z * Z :=
  let out size := (0, Z.ldiff size (2 * MEGA - 1)) in
  if negb (size =? 0) then out size else
  match env with
  | Some v => out v
  | None =>
    if p_size =? -1 then (- errno, old) else
    if pages =? -1 then (- errno, old) else
    let avail_ram := u64 (p_size * pages) in
    if avail_ram <? 64 * MEGA then (- ENOMEM, old) else
    out (avail_ram / 2)
  end.

Record fba := Fba { fba_fd : Z; fba_ptr : Z; fba_size : Z }.
(** The kernel: a file descriptor or an error (as [inl errno]), [ftruncate]'s error,
    and the mapping of a length with or without huge pages. *)
Class FbaSys : Type := {
  sys_open : Z + Z;
  sys_ftruncate : Z -> Z;
  sys_mmap : bool -> Z -> Z + Z;
  ALIGN : Z -> Z -> Z;
  ZUFS_ALLOC_MASK : Z;
}.
(** [ALIGN] rounds up to a multiple; the kernel maps at page boundaries within the
    address space. *)
Class FbaLaws `{FbaSys} : Prop := {
  align_ge x a : 0 < a -> x <= ALIGN x a < x + a;
  align_mod x a : 0 < a -> ALIGN x a mod a = 0;
  alloc_mask_pos : 0 <= ZUFS_ALLOC_MASK;
}.

Section fba.
Context `{FbaSys}.

Definition _fba_alloc (size : Z) (huge : bool) : Z + fba :=
  match sys_open with
  | inl errno => inl (if negb (errno =? 0) then - errno else - EPERM)
  | inr fd =>
    if negb (sys_ftruncate size =? 0) then inl (- sys_ftruncate size) else
    match sys_mmap huge size with
    | inl errno => inl (if negb (errno =? 0) then - errno else - ENOMEM)
    | inr ptr => inr (Fba fd ptr size)
    end
  end.
Definition fba_alloc (size : Z) : Z + fba := _fba_alloc size false.
Definition _fba_alloc_huge (size : Z) : Z + fba :=
  match _fba_alloc size true with inl _ => _fba_alloc size false | inr f => inr f end.
Definition FBA_ALIGNSIZE : Z := ZUFS_ALLOC_MASK + 1.
(** The mapping, and the ranges unmapped at its edges. *)
Definition fba_alloc_align (size : Z) (huge : bool) : Z + fba * list (Z * Z) :=
  let aligned_size := ALIGN (u64 (size + FBA_ALIGNSIZE)) FBA_ALIGNSIZE in
  match (if huge then _fba_alloc_huge aligned_size else _fba_alloc aligned_size false) with
  | inl err => inl err
  | inr f =>
    let addr := ALIGN (fba_ptr f) FBA_ALIGNSIZE in
    if fba_ptr f =? addr then inr (f, []) else
    let start_len := u64 (addr - fba_ptr f) in
    let end_len := u64 (aligned_size - size - start_len) in
    inr (Fba (fba_fd f) addr size, [(fba_ptr f, start_len); (addr + size, end_len)])
  end.
(** What is unmapped, and the descriptor left. *)
Definition fba_free (f : fba) : fba * list (Z * Z) :=
  if 0 <=? fba_fd f then (Fba (-1) (fba_ptr f) (fba_size f), [(fba_ptr f, fba_size f)]) else (f, []).

(** The aligned allocation: the address is a multiple of the alignment, the [size] bytes
    from it lie in the mapping, no length wraps around, and the bytes kept and the
    bytes unmapped are the whole mapping, so that freeing what was returned leaves
    nothing mapped. *)
Theorem fba_alloc_align_spec `{!FbaLaws} size huge f unmapped :
  0 <= size -> size + 2 * FBA_ALIGNSIZE < 2 ^ 64 ->
  fba_alloc_align size huge = inr (f, unmapped) ->
  exists base len, (exists h, sys_mmap h len = inr base) /\ fba_ptr f mod FBA_ALIGNSIZE = 0 /\ size <= fba_size f /\
    base <= fba_ptr f /\ fba_ptr f + fba_size f <= base + len /\
    Forall (fun r => 0 <= r.2 /\ base <= r.1 /\ r.1 + r.2 <= base + len /\
                     (r.1 + r.2 <= fba_ptr f \/ fba_ptr f + fba_size f <= r.1)) unmapped /\
    fba_size f + foldr Z.add 0 (snd <$> unmapped) = len.
Proof.
  intros Hs Hb Hrun. pose proof alloc_mask_pos as Hm. assert (HA : 0 < FBA_ALIGNSIZE) by (rewrite /FBA_ALIGNSIZE; lia).
  revert Hrun. rewrite /fba_alloc_align u64_small; [lia|].
  set (len := ALIGN (size + FBA_ALIGNSIZE) FBA_ALIGNSIZE). pose proof (align_ge (size + FBA_ALIGNSIZE) FBA_ALIGNSIZE HA) as Hlen.
  fold len in Hlen.
  assert (Hraw : forall h g, _fba_alloc len h = inr g -> sys_mmap h len = inr (fba_ptr g) /\ fba_size g = len).
  { intros h g. rewrite /_fba_alloc. destruct sys_open; [done|]. destruct (negb _); [done|].
    destruct (sys_mmap h len) as [|p]; [done|]. by intros [= <-]. }
  assert (Hany : forall g, (if huge then _fba_alloc_huge len else _fba_alloc len false) = inr g ->
    (exists h, sys_mmap h len = inr (fba_ptr g)) /\ fba_size g = len).
  { intros g Hg. destruct huge; [|destruct (Hraw _ _ Hg); eauto]. rewrite /_fba_alloc_huge in Hg.
    destruct (_fba_alloc len true) as [|g'] eqn:E; [destruct (Hraw _ _ Hg); eauto|].
    injection Hg as <-. destruct (Hraw _ _ E); eauto. }
  destruct (if huge then _ else _) as [|g] eqn:Eg; [done|]. destruct (Hany g eq_refl) as [Hmap Hsz].
  pose proof (align_ge (fba_ptr g) FBA_ALIGNSIZE HA) as Ha. pose proof (align_mod (fba_ptr g) FBA_ALIGNSIZE HA) as Hmod.
  set (addr := ALIGN (fba_ptr g) FBA_ALIGNSIZE) in *. destruct (Z.eqb_spec (fba_ptr g) addr) as [E|E]; intros [= <- <-].
  - exists (fba_ptr g), len. split; [done|]. split; [by rewrite E|]. rewrite Hsz. split_and!; try lia; [constructor|cbn; lia].
  - rewrite (u64_small (addr - fba_ptr g)); [lia|]. rewrite u64_small; [lia|]. cbn [fba_ptr fba_size].
    exists (fba_ptr g), len. split; [done|]. split; [done|]. split_and!; try lia; [|cbn; lia].
    repeat constructor; cbn; lia.
Qed.
End fba.

Section example.
(** A kernel that maps at an odd page, with a 2M alignment. *)
Definition example_fba : FbaSys := {|
  sys_open := inr 3; sys_ftruncate _ := 0; sys_mmap h _ := if h then inl 12 else inr 4096;
  ALIGN x a := (x + a - 1) / a * a; ZUFS_ALLOC_MASK := 2 * MEGA - 1 |}.
#[local] Existing Instance example_fba.
#[local] Instance example_fba_laws : FbaLaws.
Proof.
  split; cbn [ALIGN ZUFS_ALLOC_MASK example_fba].
  - intros x a Ha. pose proof (Z.div_mod (x + a - 1) a ltac:(lia)). pose proof (Z.mod_pos_bound (x + a - 1) a Ha). nia.
  - intros x a Ha. apply Z.mod_mul. lia.
  - done.
Qed.
Lemma fba_alloc_align_spec_witness :
  exists f unmapped, fba_alloc_align (4 * MEGA) true = inr (f, unmapped) /\ fba_ptr f mod FBA_ALIGNSIZE = 0.
Proof.
  destruct (fba_alloc_align (4 * MEGA) true) as [e|[f u]] eqn:E; [vm_compute in E; discriminate|].
  exists f, u. split; [reflexivity|].
  destruct (fba_alloc_align_spec (4 * MEGA) true f u) as (base&len&_&H&_); [discriminate|reflexivity|exact E|exact H].
Defined.
End example.
