(* ===== verification/PageAlloc.v ===== *)
(** * The page allocator: pa.c and the page operations of zus.h

    One [struct pa] of a super-block: a growing array of page descriptors, the ring of
    the free ones, and the data area.  Pointers to descriptors and data are addresses;
    the ring is carried as the list it stands for (CList.v). *)

From S2P Require Import Prelude CList.

(** ** Flags of a page (zus.h) *)
Definition ZUS_BITS_PER_LONG : Z := 64.
Definition ZUS_BIT_MASK (nr : Z) : Z := Z.shiftl 1 (nr mod ZUS_BITS_PER_LONG).
Definition ZUS_BIT_WORD (nr : Z) : Z := nr / ZUS_BITS_PER_LONG.
(** An array of longs is a function; [flags] is the array of one. *)
Definition _zus_test_bit (nr : Z) (addr : Z -> Z) : Z :=
  Z.land 1 (Z.shiftr (addr (ZUS_BIT_WORD nr)) (Z.land nr (ZUS_BITS_PER_LONG - 1))).
Definition set_word (addr : Z -> Z) (w v : Z) : Z -> Z := fun i => if i =? w then v else addr i.
Definition _zus_set_bit (nr : Z) (addr : Z -> Z) : Z -> Z :=
  set_word addr (ZUS_BIT_WORD nr) (Z.lor (addr (ZUS_BIT_WORD nr)) (ZUS_BIT_MASK nr)).
Definition _zus_clear_bit (nr : Z) (addr : Z -> Z) : Z -> Z :=
  set_word addr (ZUS_BIT_WORD nr) (Z.ldiff (addr (ZUS_BIT_WORD nr)) (ZUS_BIT_MASK nr)).

Definition ZONE_BITLEN : Z := 4.
Definition ZONE_SHIFT : Z := 64 - ZONE_BITLEN.
Definition ZONE_MASK : Z := Z.shiftl (Z.shiftl 1 ZONE_BITLEN - 1) ZONE_SHIFT.
Definition NODES_BITLEN : Z := 4.
Definition NODES_PGSHIFT : Z := ZONE_SHIFT - NODES_BITLEN.
Definition NODES_MASK : Z := Z.shiftl (Z.shiftl 1 NODES_BITLEN - 1) NODES_PGSHIFT.
Definition get_bit_range (x start_bit mask : Z) : Z := Z.shiftr (Z.land x mask) start_bit.
Definition set_bit_range (x start_bit mask val : Z) : Z :=
  Z.lor (Z.ldiff x mask) (u64 (Z.shiftl val start_bit)).

(** ** Descriptors

    [list] and [sinfo] share their bytes: [slab_uc] and [slab_cpu] are [None] while
    the bytes are those of a link.  [index], [private] and [private2] belong to the
    user of a page. *)
Record pa_page := PaPage {
  flags : Z;
  use_count : Z;
  refcount : Z;
  owner : Z;
  slab_uc : option Z;
  slab_cpu : option Z }.
Definition zero_page : pa_page := PaPage 0 0 0 0 None None.
Definition upd_flags (g : Z -> Z) (p : pa_page) : pa_page :=
  PaPage (g (flags p)) (use_count p) (refcount p) (owner p) (slab_uc p) (slab_cpu p).
Definition upd_use_count (g : Z -> Z) (p : pa_page) : pa_page :=
  PaPage (flags p) (g (use_count p)) (refcount p) (owner p) (slab_uc p) (slab_cpu p).
Definition upd_refcount (g : Z -> Z) (p : pa_page) : pa_page :=
  PaPage (flags p) (use_count p) (g (refcount p)) (owner p) (slab_uc p) (slab_cpu p).
Definition upd_owner (g : Z -> Z) (p : pa_page) : pa_page :=
  PaPage (flags p) (use_count p) (refcount p) (g (owner p)) (slab_uc p) (slab_cpu p).
Definition upd_slab_uc (g : option Z -> option Z) (p : pa_page) : pa_page :=
  PaPage (flags p) (use_count p) (refcount p) (owner p) (g (slab_uc p)) (slab_cpu p).
Definition upd_slab_cpu (g : option Z -> option Z) (p : pa_page) : pa_page :=
  PaPage (flags p) (use_count p) (refcount p) (owner p) (slab_uc p) (g (slab_cpu p)).
(** Writing the links. *)
Definition linked (p : pa_page) : pa_page := upd_slab_uc (fun _ => None) (upd_slab_cpu (fun _ => None) p).

Definition pa_set_page_zone (zone : Z) : pa_page -> pa_page :=
  upd_flags (fun x => set_bit_range x ZONE_SHIFT ZONE_MASK zone).
Definition pa_page_zone (p : pa_page) : Z := get_bit_range (flags p) ZONE_SHIFT ZONE_MASK.
Definition pa_page_nid_set (node : Z) : pa_page -> pa_page :=
  upd_flags (fun x => set_bit_range x NODES_PGSHIFT NODES_MASK node).
Definition pa_page_to_nid (p : pa_page) : Z := get_bit_range (flags p) NODES_PGSHIFT NODES_MASK.
Definition zus_test_pf (p : pa_page) (nr : Z) : Z := _zus_test_bit nr (fun _ => flags p).
Definition zus_set_pf (nr : Z) : pa_page -> pa_page := upd_flags (fun x => _zus_set_bit nr (fun _ => x) 0).
Definition zus_clear_pf (nr : Z) : pa_page -> pa_page := upd_flags (fun x => _zus_clear_bit nr (fun _ => x) 0).

(** ** The allocator

    [pages_ptr] and [data_ptr] are the two mappings, [h_desc] the descriptors written
    so far: the mapping is a fresh file, which reads as zeros.  The lock is a spin
    lock, not recursive. *)
Record pa := Pa {
  pa_lock : bool;
  pa_size : Z;
  pa_head : list Z;
  pages_ptr : Z;
  data_ptr : Z;
  h_desc : gmap Z pa_page }.
Definition upd_lock (g : bool -> bool) (s : pa) : pa :=
  Pa (g (pa_lock s)) (pa_size s) (pa_head s) (pages_ptr s) (data_ptr s) (h_desc s).
Definition upd_size (g : Z -> Z) (s : pa) : pa :=
  Pa (pa_lock s) (g (pa_size s)) (pa_head s) (pages_ptr s) (data_ptr s) (h_desc s).
Definition upd_head (g : list Z -> list Z) (s : pa) : pa :=
  Pa (pa_lock s) (pa_size s) (g (pa_head s)) (pages_ptr s) (data_ptr s) (h_desc s).
Definition upd_desc (g : gmap Z pa_page -> gmap Z pa_page) (s : pa) : pa :=
  Pa (pa_lock s) (pa_size s) (pa_head s) (pages_ptr s) (data_ptr s) (g (h_desc s)).
Definition upd_pages_ptr (g : Z -> Z) (s : pa) : pa :=
  Pa (pa_lock s) (pa_size s) (pa_head s) (g (pages_ptr s)) (data_ptr s) (h_desc s).
Definition upd_data_ptr (g : Z -> Z) (s : pa) : pa :=
  Pa (pa_lock s) (pa_size s) (pa_head s) (pages_ptr s) (g (data_ptr s)) (h_desc s).
Notation PA := (ST pa).

(** The environment: the configured size, whether pages are locked in memory and what
    [mlock] answers.  Punching the hole of a freed page out of the file has no effect
    on the allocator, which ignores its result. *)
Class PaEnv : Type := {
  PA_SIZE : Z;
  NEED_MLOCK : bool;
  mlock : Z -> Z -> Z;
}.
Definition sizeof_pa_page : Z := 64.
Definition PA_PAGES_AT_A_TIME : Z := 32768.
Definition POOL_NUM : Z := 1.
Definition PA_MAX_ORDER : Z := 5.

Section pa.
Context `{PaEnv}.

(** The descriptors the mapping has. *)
Definition in_mapping (s : pa) (page : Z) : bool :=
  (pages_ptr s <=? page) && (page <? pages_ptr s + PA_SIZE / PAGE_SIZE * sizeof_pa_page) &&
  ((page - pages_ptr s) mod sizeof_pa_page =? 0).
Definition desc (s : pa) (page : Z) : pa_page := default zero_page (h_desc s !! page).
Definition get_page {A} (page : Z) (f : pa_page -> A) : PA A :=
  b ← gets (fun s => in_mapping s page); assert b;; gets (fun s => f (desc s page)).
Definition set_page (page : Z) (f : pa_page -> pa_page) : PA unit :=
  b ← gets (fun s => in_mapping s page); assert b;;
  modify (fun s => upd_desc (<[page := f (desc s page)]>) s).
Definition spin_lock : PA unit := b ← gets pa_lock; assert (negb b);; modify (upd_lock (fun _ => true)).
Definition spin_unlock : PA unit := modify (upd_lock (fun _ => false)).

Definition pa_bn_to_page (bn : Z) : PA Z := gets (fun s => pages_ptr s + bn * sizeof_pa_page).
Definition pa_page_to_bn (page : Z) : PA Z := gets (fun s => (page - pages_ptr s) / sizeof_pa_page).
Definition pa_page_address (page : Z) : PA Z :=
  bn ← pa_page_to_bn page; gets (fun s => data_ptr s + bn * PAGE_SIZE).
Definition _pa_valid_addr (addr : Z) : PA bool :=
  gets (fun s => negb ((addr <? data_ptr s) || (data_ptr s + pa_size s * PAGE_SIZE <=? addr))).
Definition pa_virt_to_page (addr : Z) : PA Z :=
  ok ← _pa_valid_addr addr;
  if ok : bool then d ← gets data_ptr; pa_bn_to_page ((addr - d) / PAGE_SIZE) else mret 0.
Definition pa_addr_to_offset (addr : Z) : PA Z :=
  ok ← _pa_valid_addr addr; if ok : bool then gets (fun s => addr - data_ptr s) else mret 0.
Definition pa_addr (offset : Z) : PA Z :=
  if negb (offset =? 0) then gets (fun s => data_ptr s + offset) else mret 0.

Definition _init_one_page (sbi page : Z) : PA unit :=
  set_page page linked;;
  modify (upd_head (fun l => l ++ [page]));;
  set_page page (pa_set_page_zone POOL_NUM);;
  set_page page (upd_owner (fun _ => sbi)).
Fixpoint init_pages (n : nat) (sbi page : Z) : PA unit :=
  match n with O => mret tt | S m => _init_one_page sbi page;; init_pages m sbi (page + sizeof_pa_page) end.
Definition _init_page_of_pages (sbi : Z) : PA Z :=
  size ← gets pa_size;
  if PA_SIZE <? (size + PA_PAGES_AT_A_TIME) * PAGE_SIZE then mret (- ENOMEM) else
  page ← pa_bn_to_page size;
  init_pages (Z.to_nat PA_PAGES_AT_A_TIME) sbi page;;
  modify (upd_size (fun n => n + PA_PAGES_AT_A_TIME));;
  mret 0.
(** [a_list_del_init] follows the links of the node: it must be in the ring. *)
Definition _alloc_one_page (page : Z) : PA unit :=
  b ← gets (fun s => bool_decide (page ∈ pa_head s)); assert b;;
  modify (upd_head (remove1 page));;
  set_page page linked;;
  set_page page (upd_refcount (fun _ => 1)).
Definition _pa_is_free (page : Z) : PA bool := get_page page (fun p => refcount p =? 0).

(** [for (i = i0; i < npages; ++i) if (!_pa_is_free(page + i)) break;], the number of
    iterations left as fuel; tells whether it reached [npages]. *)
Fixpoint all_free (n : nat) (page : Z) : PA bool :=
  match n with
  | O => mret true
  | S m => b ← _pa_is_free page; if b : bool then all_free m (page + sizeof_pa_page) else mret false
  end.
Fixpoint alloc_pages (n : nat) (page : Z) : PA unit :=
  match n with O => mret tt | S m => _alloc_one_page page;; alloc_pages m (page + sizeof_pa_page) end.
(** One pass over the free ring. *)
Fixpoint scan (npages : Z) (l : list Z) : PA (option Z) :=
  match l with
  | [] => mret None
  | page :: l' =>
    bn ← pa_page_to_bn page;
    size ← gets pa_size;
    if negb (bn mod npages =? 0) || (size <? bn + npages - 1) then scan npages l' else
    ok ← all_free (Z.to_nat (npages - 1)) (page + sizeof_pa_page);
    if ok : bool then alloc_pages (Z.to_nat npages) page;; mret (Some page) else scan npages l'
  end.
(** [rescan:] to [goto rescan]; the fuel bounds the jumps. *)
Fixpoint rescan (fuel : nat) (sbi npages : Z) : PA (option Z) :=
  match fuel with
  | O => abort
  | S k =>
    l ← gets pa_head;
    r ← scan npages l;
    match r with
    | Some page => mret (Some page)
    | None => err ← _init_page_of_pages sbi; if negb (err =? 0) then mret None else rescan k sbi npages
    end
  end.
Fixpoint give_back (n : nat) (page : Z) : PA unit :=
  match n with
  | O => mret tt
  | S m => set_page page linked;; modify (upd_head (fun l => page :: l));; give_back m (page + sizeof_pa_page)
  end.
(** The part under the lock, up to [out:], and the part after it. *)
Definition alloc_run (sbi npages : Z) : PA (option Z) :=
  spin_lock;;
  l ← gets pa_head;
  err ← (match l with [] => _init_page_of_pages sbi | _ => mret 0 end);
  page ← (if negb (err =? 0) then mret None else rescan 2 sbi npages);
  spin_unlock;;
  mret page.
Definition mlock_run (npages : Z) (page : option Z) : PA (option Z) :=
  match page with
  | Some p =>
    if NEED_MLOCK then
      addr ← pa_page_address p;
      if negb (mlock addr (npages * PAGE_SIZE) =? 0) then
        spin_lock;; give_back (Z.to_nat npages) p;; spin_unlock;; mret None
      else mret (Some p)
    else mret (Some p)
  | None => mret None
  end.
Definition pa_alloc_order (sbi order : Z) : PA (option Z) :=
  let npages := u16 (Z.shiftl 1 order) in
  if PA_MAX_ORDER <? order then mret None else
  page ← alloc_run sbi npages; mlock_run npages page.
Definition pa_alloc (sbi : Z) : PA (option Z) := pa_alloc_order sbi 0.

Definition __pa_free (page : Z) : PA unit :=
  spin_lock;; set_page page linked;; modify (upd_head (fun l => page :: l));; spin_unlock.
(** 1 when the count dropped to 0. *)
Definition pa_put_page (page : Z) : PA Z :=
  old ← get_page page refcount;
  set_page page (upd_refcount (fun n => n - 1));;
  if old =? 1 then __pa_free page;; mret 1 else mret 0.
Definition pa_free (page : Z) : PA unit := pa_put_page page;; mret tt.

(** The compare-and-swap loop: [others] are the values that other threads store
    between the load and the exchange of each round; it ends with the first round
    nobody disturbs.  The value left and the value returned. *)
Fixpoint _zu_atomic_add_unless (v a u : Z) (others : list Z) : Z * Z :=
  if v =? u then (v, v) else
  match others with
  | [] => (v + a, v)
  | w :: l => if w =? v then (v + a, v) else _zu_atomic_add_unless w a u l
  end.
Definition pa_get_page (page : Z) : PA Z :=
  v ← get_page page refcount;
  let r := _zu_atomic_add_unless v 1 0 [] in
  set_page page (upd_refcount (fun _ => r.1));;
  mret r.2.
Definition pa_page_count (page : Z) : PA Z := get_page page refcount.

(** The number of pages that leaked. *)
Definition pa_fini : PA Z := gets (fun s => pa_size s - Z.of_nat (length (pa_head s))).
(** [err_lock] is what [pthread_spin_init] answers, [data] and [pages] what the two
    [fba_alloc] do: an error or the address of a fresh mapping. *)
Definition pa_init (err_lock : Z) (data pages : Z + Z) : PA Z :=
  modify (upd_size (fun _ => 0));;
  modify (upd_head (fun _ => []));;
  if negb (err_lock =? 0) then pa_fini;; mret err_lock else
  modify (upd_lock (fun _ => false));;
  match data with
  | inl err => pa_fini;; mret err
  | inr d =>
    modify (upd_data_ptr (fun _ => d));;
    match pages with
    | inl err => pa_fini;; mret err
    | inr p => modify (upd_pages_ptr (fun _ => p));; modify (upd_desc (fun _ => ∅));; mret 0
    end
  end.
End pa.

(** ** The flags word *)
Ltac bits :=
  apply Z.bits_inj'; intros bit Hbit;
  repeat first [rewrite Z.lor_spec | rewrite Z.land_spec | rewrite Z.ldiff_spec
               | rewrite Z.shiftr_spec; [lia|]].
Lemma testbit_high x w k : 0 <= w <= k -> 0 <= x < 2 ^ w -> Z.testbit x k = false.
Proof.
  intros Hw Hx. rewrite -(Z.mod_small x (2 ^ w)) //. apply Z.mod_pow2_bits_high. lia.
Qed.
Lemma testbit_field len st k : 0 <= st -> 0 <= len -> 0 <= k ->
  Z.testbit (Z.shiftl (Z.shiftl 1 len - 1) st) k = (st <=? k) && (k <? st + len).
Proof.
  intros Hs Hl Hk. rewrite Z.shiftl_spec; [lia|]. rewrite Z.shiftl_mul_pow2; [lia|].
  replace (1 * 2 ^ len - 1) with (Z.ones len) by (rewrite Z.ones_equiv; lia).
  rewrite Z.testbit_ones; [lia|].
  destruct (Z.leb_spec 0 (k - st)), (Z.leb_spec st k), (Z.ltb_spec (k - st) len), (Z.ltb_spec k (st + len)); (done || lia).
Qed.
(** A field of [len] bits at [st] read back after a write, and one apart from it. *)
Lemma bit_range_get x st len val : 0 <= st -> 0 <= len -> st + len <= 64 -> 0 <= val < 2 ^ len ->
  get_bit_range (set_bit_range x st (Z.shiftl (Z.shiftl 1 len - 1) st) val) st (Z.shiftl (Z.shiftl 1 len - 1) st) = val.
Proof.
  intros Hs Hl H64 Hv. rewrite /get_bit_range /set_bit_range u64_small.
  { rewrite Z.shiftl_mul_pow2; [lia|]. split; [nia|].
    apply (Z.lt_le_trans _ (2 ^ len * 2 ^ st)); [nia|]. rewrite -Z.pow_add_r; [lia..|]. apply Z.pow_le_mono_r; lia. }
  bits. rewrite (Z.shiftl_spec val); [lia|]. rewrite testbit_field; [lia..|]. replace (bit + st - st) with bit by lia.
  destruct (Z.leb_spec st (bit + st)); [|lia]. destruct (Z.ltb_spec (bit + st) (st + len)); cbn [andb negb].
  - by rewrite andb_false_r orb_false_l andb_true_r.
  - rewrite andb_false_r. symmetry. apply (testbit_high _ len); lia.
Qed.
Lemma bit_range_frame x st len val st' len' : 0 <= st -> 0 <= len -> st + len <= 64 -> 0 <= val < 2 ^ len ->
  0 <= st' -> 0 <= len' -> st + len <= st' \/ st' + len' <= st ->
  get_bit_range (set_bit_range x st (Z.shiftl (Z.shiftl 1 len - 1) st) val) st' (Z.shiftl (Z.shiftl 1 len' - 1) st') =
  get_bit_range x st' (Z.shiftl (Z.shiftl 1 len' - 1) st').
Proof.
  intros Hs Hl H64 Hv Hs' Hl' Hd. rewrite /get_bit_range /set_bit_range u64_small.
  { rewrite Z.shiftl_mul_pow2; [lia|]. split; [nia|].
    apply (Z.lt_le_trans _ (2 ^ len * 2 ^ st)); [nia|]. rewrite -Z.pow_add_r; [lia..|]. apply Z.pow_le_mono_r; lia. }
  bits. rewrite (Z.shiftl_spec val); [lia|]. rewrite !testbit_field; [lia..|].
  destruct (Z.leb_spec st' (bit + st')); [|lia]. destruct (Z.ltb_spec (bit + st') (st' + len')); cbn [andb negb]; [|by rewrite !andb_false_r].
  rewrite !andb_true_r. destruct (Z.leb_spec st (bit + st')), (Z.ltb_spec (bit + st') (st + len)); cbn [andb negb]; try lia;
    rewrite andb_true_r.
  - rewrite (testbit_high val len); [lia|done|]. by rewrite orb_false_r.
  - rewrite (Z.testbit_neg_r val); [lia|]. by rewrite orb_false_r.
Qed.

(** Single bits. *)
Lemma zus_test_bit_eq nr x : 0 <= nr < 64 -> _zus_test_bit nr (fun _ => x) = Z.b2z (Z.testbit x nr).
Proof.
  intros Hn. rewrite /_zus_test_bit. replace (Z.land nr (ZUS_BITS_PER_LONG - 1)) with nr.
  - rewrite Z.land_comm. change 1 with (Z.ones 1). rewrite Z.land_ones; [lia|]. rewrite -Z.bit0_mod.
    by rewrite Z.shiftr_spec.
  - change (ZUS_BITS_PER_LONG - 1) with (Z.ones 6). rewrite Z.land_ones; [lia|]. by rewrite Z.mod_small.
Qed.
Lemma zus_mask_bit nr k : 0 <= nr < 64 -> 0 <= k -> Z.testbit (ZUS_BIT_MASK nr) k = (k =? nr).
Proof.
  intros Hn Hk. rewrite /ZUS_BIT_MASK Z.mod_small; [done|]. rewrite Z.shiftl_1_l Z.pow2_bits_eqb; [lia|]. apply Z.eqb_sym.
Qed.
Lemma zus_pf_flags x nr k : 0 <= nr < 64 -> 0 <= k ->
  Z.testbit (_zus_set_bit nr (fun _ => x) 0) k = Z.testbit x k || (k =? nr) /\
  Z.testbit (_zus_clear_bit nr (fun _ => x) 0) k = Z.testbit x k && negb (k =? nr).
Proof.
  intros Hn Hk. rewrite /_zus_set_bit /_zus_clear_bit /set_word /ZUS_BIT_WORD Z.div_small; [done|]. cbn [Z.eqb].
  by rewrite Z.lor_spec Z.ldiff_spec zus_mask_bit.
Qed.

(** The flags word of a page holds its bits, its zone and its node apart: each is read
    back as written, and a write to one leaves the others alone. *)
Theorem page_flags_spec p zone node nr k :
  0 <= zone < 2 ^ ZONE_BITLEN -> 0 <= node < 2 ^ NODES_BITLEN -> 0 <= nr < NODES_PGSHIFT -> 0 <= k < NODES_PGSHIFT ->
  (pa_page_zone (pa_set_page_zone zone p) = zone /\ pa_page_to_nid (pa_set_page_zone zone p) = pa_page_to_nid p) /\
  (pa_page_to_nid (pa_page_nid_set node p) = node /\ pa_page_zone (pa_page_nid_set node p) = pa_page_zone p) /\
  (pa_page_zone (zus_set_pf nr p) = pa_page_zone p /\ pa_page_zone (zus_clear_pf nr p) = pa_page_zone p /\
   pa_page_to_nid (zus_set_pf nr p) = pa_page_to_nid p /\ pa_page_to_nid (zus_clear_pf nr p) = pa_page_to_nid p) /\
  zus_test_pf (zus_set_pf nr p) k = (if k =? nr then 1 else zus_test_pf p k) /\
  zus_test_pf (zus_clear_pf nr p) k = (if k =? nr then 0 else zus_test_pf p k) /\
  zus_test_pf (pa_set_page_zone zone p) k = zus_test_pf p k /\ zus_test_pf (pa_page_nid_set node p) k = zus_test_pf p k.
Proof.
  change NODES_PGSHIFT with 56. intros Hz Hn Hr Hk.
  split; [split; [apply bit_range_get|apply bit_range_frame]; unfold NODES_PGSHIFT, ZONE_SHIFT, NODES_BITLEN, ZONE_BITLEN in *; lia|].
  split; [split; [apply bit_range_get|apply bit_range_frame]; unfold NODES_PGSHIFT, ZONE_SHIFT, NODES_BITLEN, ZONE_BITLEN in *; lia|].
  assert (Hb : forall st b, 56 <= st -> st + 4 <= 64 -> b < 56 -> 0 <= b -> forall j,
    Z.testbit (Z.shiftl (Z.shiftl 1 4 - 1) st) j && (j =? b) = false).
  { intros st b H1 H2 H3 H4 j. destruct (Z.eqb_spec j b) as [->|]; [|apply andb_false_r]. rewrite testbit_field; [lia..|].
    destruct (Z.leb_spec st b); [lia|done]. }
  split.
  { split_and!; unfold pa_page_zone, pa_page_to_nid, get_bit_range; f_equal;
      apply Z.bits_inj'; intros j Hj; rewrite !Z.land_spec; cbn [flags zus_set_pf zus_clear_pf upd_flags];
      (destruct (zus_pf_flags (flags p) nr j) as [Es Ec]; [lia..|]; rewrite ?Es ?Ec; clear Es Ec); 
      [pose proof (Hb ZONE_SHIFT nr) as E|pose proof (Hb ZONE_SHIFT nr) as E|pose proof (Hb NODES_PGSHIFT nr) as E|pose proof (Hb NODES_PGSHIFT nr) as E];
      specialize (E ltac:(done) ltac:(done) ltac:(lia) ltac:(lia) j);
      unfold ZONE_MASK, NODES_MASK, ZONE_BITLEN, NODES_BITLEN in *;
      destruct (Z.testbit (flags p) j), (Z.testbit (Z.shiftl _ _) j), (j =? nr); done. }
  assert (Hf : forall st val, 56 <= st -> 0 <= val < 2 ^ 4 -> st + 4 <= 64 ->
    Z.testbit (set_bit_range (flags p) st (Z.shiftl (Z.shiftl 1 4 - 1) st) val) k = Z.testbit (flags p) k).
  { intros st val H1 H2 H3. rewrite /set_bit_range Z.lor_spec Z.ldiff_spec testbit_field; [lia..|].
    destruct (Z.leb_spec st k); [lia|]. rewrite /u64 Z.mod_pow2_bits_low; [lia|]. rewrite Z.shiftl_spec; [lia|].
    rewrite (Z.testbit_neg_r val); [lia|]. by rewrite andb_true_r orb_false_r. }
  rewrite /zus_test_pf !zus_test_bit_eq; [lia..|]. cbn [flags zus_set_pf zus_clear_pf pa_set_page_zone pa_page_nid_set upd_flags].
  destruct (zus_pf_flags (flags p) nr k) as [Es Ec]; [lia..|]. rewrite Es Ec.
  rewrite (Hf ZONE_SHIFT zone) // (Hf NODES_PGSHIFT node) //.
  destruct (Z.testbit (flags p) k), (k =? nr); done.
Qed.
Lemma page_flags_spec_witness :
  pa_page_zone (pa_set_page_zone POOL_NUM (PaPage (2 ^ 64 - 1) 0 0 0 None None)) = POOL_NUM.
Proof.
  destruct (page_flags_spec (PaPage (2 ^ 64 - 1) 0 0 0 None None) POOL_NUM 3 2 2) as ((E&_)&_);
    [split; [discriminate|reflexivity]..|exact E].
Defined.
