(* ===== verification/PageSpec.v ===== *)
(** * The page allocator hands out free, aligned runs of pages

    The invariant of [struct pa] (the ring holds exactly the pages whose count is 0),
    and what allocating, taking and dropping references do to it. *)

From S2P Require Import Prelude CList PageAlloc.

Section spec.
Context `{PaEnv}.
Implicit Types (s : pa).

Definition page_at s (bn : Z) : Z := pages_ptr s + bn * sizeof_pa_page.
Definition is_free s (bn : Z) : Prop := 0 <= bn < pa_size s /\ refcount (desc s (page_at s bn)) = 0.
Definition pa_max : Z := PA_SIZE / PAGE_SIZE.

Record pa_ok s : Prop := {
  ok_size : 0 <= pa_size s;
  ok_chunks : pa_size s mod PA_PAGES_AT_A_TIME = 0;
  ok_fits : pa_size s * PAGE_SIZE <= PA_SIZE;
  ok_nodup : NoDup (pa_head s);
  ok_free p : p ∈ pa_head s <-> exists bn, p = page_at s bn /\ is_free s bn;
  ok_fresh bn : pa_size s <= bn -> desc s (page_at s bn) = zero_page;
}.
Definition pa_inv s : Prop := pa_lock s = false /\ pa_ok s.

(** What allocation and freeing never change. *)
Definition same_env s s' : Prop :=
  pages_ptr s' = pages_ptr s /\ data_ptr s' = data_ptr s /\ pa_lock s' = pa_lock s.

Lemma page_at_inj s a b : page_at s a = page_at s b -> a = b.
Proof. rewrite /page_at /sizeof_pa_page. lia. Qed.
Lemma page_at_env s s' bn : pages_ptr s' = pages_ptr s -> page_at s' bn = page_at s bn.
Proof. by rewrite /page_at => ->. Qed.
Lemma page_at_next s bn : page_at s bn + sizeof_pa_page = page_at s (bn + 1).
Proof. rewrite /page_at. lia. Qed.
Lemma in_mapping_at s bn : 0 <= bn < pa_max -> in_mapping s (page_at s bn) = true.
Proof.
  intros Hb. rewrite /in_mapping /page_at /sizeof_pa_page -/pa_max.
  replace (pages_ptr s + bn * 64 - pages_ptr s) with (bn * 64) by lia. rewrite Z.mod_mul; [lia|].
  destruct (Z.leb_spec (pages_ptr s) (pages_ptr s + bn * 64)); [|lia].
  by destruct (Z.ltb_spec (pages_ptr s + bn * 64) (pages_ptr s + pa_max * 64)); [|lia].
Qed.
Lemma size_max s : pa_ok s -> pa_size s <= pa_max.
Proof. intros [? ? Hf ???]. apply Z.div_le_lower_bound; lia. Qed.
Lemma wp_page_to_bn s bn (Q : Z -> pa -> Prop) : Q bn s -> wp (pa_page_to_bn (page_at s bn)) s Q.
Proof.
  intros HQ. rewrite /pa_page_to_bn /wp /gets /page_at.
  replace ((pages_ptr s + bn * sizeof_pa_page - pages_ptr s) / sizeof_pa_page) with bn; [done|].
  replace (pages_ptr s + bn * sizeof_pa_page - pages_ptr s) with (bn * sizeof_pa_page) by lia. by rewrite Z.div_mul.
Qed.
Lemma wp_get_page {A} s p (f : pa_page -> A) (Q : A -> pa -> Prop) :
  in_mapping s p = true -> Q (f (desc s p)) s -> wp (get_page p f) s Q.
Proof. intros Hb HQ. rewrite /get_page. do 2 wp_step. wp_step. wp_step; [done|]. by wp_step. Qed.

(** [s] with the descriptor at [p] changed. *)
Definition set_desc s (p : Z) (f : pa_page -> pa_page) : pa := upd_desc (<[p := f (desc s p)]>) s.
Lemma wp_set_page s p f (Q : unit -> pa -> Prop) :
  in_mapping s p = true -> Q tt (set_desc s p f) -> wp (set_page p f) s Q.
Proof. intros Hb HQ. rewrite /set_page. do 2 wp_step. wp_step. wp_step; [done|]. by wp_step. Qed.
Lemma desc_set s p f q : desc (set_desc s p f) q = if decide (q = p) then f (desc s p) else desc s q.
Proof.
  rewrite /set_desc {1}/desc /upd_desc /=. case_decide as E; [subst q; by rewrite lookup_insert_eq|].
  by rewrite lookup_insert_ne.
Qed.
Lemma desc_head s g q : desc (upd_head g s) q = desc s q.
Proof. done. Qed.

(** ** Growing *)
Definition pages_from s (bn : Z) (n : nat) : list Z := (fun i => page_at s (bn + Z.of_nat i)) <$> seq 0 n.
Lemma pages_from_S s bn n : pages_from s bn (S n) = page_at s bn :: pages_from s (bn + 1) n.
Proof.
  rewrite /pages_from. cbn [seq]. rewrite fmap_cons Z.add_0_r. f_equal. rewrite -fmap_S_seq -list_fmap_compose.
  apply list_fmap_ext. intros i x _. cbn. f_equal. lia.
Qed.
Lemma elem_of_pages_from s bn n p :
  p ∈ pages_from s bn n <-> exists k, p = page_at s k /\ bn <= k < bn + Z.of_nat n.
Proof.
  rewrite /pages_from list_elem_of_fmap. split.
  - intros (i&->&Hi%elem_of_seq). eexists. split; [done|lia].
  - intros (k&->&Hk). exists (Z.to_nat (k - bn)). split; [f_equal; lia|apply elem_of_seq; lia].
Qed.
Lemma pages_from_NoDup s bn n : NoDup (pages_from s bn n).
Proof. apply NoDup_fmap_2_strong; [|apply NoDup_seq]. intros i j _ _ E%page_at_inj. lia. Qed.

Definition init_desc (sbi : Z) (d : pa_page) : pa_page :=
  upd_owner (fun _ => sbi) (pa_set_page_zone POOL_NUM (linked d)).
Lemma wp_init_pages sbi n : forall s bn (Q : unit -> pa -> Prop),
  0 <= bn -> bn + Z.of_nat n <= pa_max ->
  (forall s', same_env s s' -> pa_size s' = pa_size s -> pa_head s' = pa_head s ++ pages_from s bn n ->
     (forall k, desc s' (page_at s k) = if decide (bn <= k < bn + Z.of_nat n) then init_desc sbi (desc s (page_at s k))
                                        else desc s (page_at s k)) -> Q tt s') ->
  wp (init_pages n sbi (page_at s bn)) s Q.
Proof.
  induction n as [|n IH]; intros s bn Q Hb Hn HQ; cbn [init_pages].
  { wp_step. apply HQ; [done|done|by rewrite app_nil_r|]. intros k. case_decide; [lia|done]. }
  rewrite /_init_one_page. do 2 wp_step. apply wp_set_page; [apply in_mapping_at; lia|]. do 2 wp_step. wp_step.
  apply wp_set_page; [apply (in_mapping_at s); lia|]. apply wp_set_page; [apply (in_mapping_at s); lia|].
  set (s3 := set_desc _ _ _). rewrite page_at_next. change (page_at s (bn + 1)) with (page_at s3 (bn + 1)).
  apply IH; [lia..|]. intros s' (E1&E2&E3) Esz Ehd Ed. apply HQ; [done|done| |].
  - rewrite Ehd pages_from_S /s3 /= -app_assoc. done.
  - intros k. change (page_at s k) with (page_at s3 k) at 1. rewrite Ed. change (page_at s3 k) with (page_at s k).
    assert (E0 : desc s3 (page_at s k) = if decide (page_at s k = page_at s bn) then init_desc sbi (desc s (page_at s bn)) else desc s (page_at s k)).
    { rewrite /s3 !(desc_set, desc_head). by repeat case_decide. }
    rewrite E0. destruct (decide (page_at s k = page_at s bn)) as [->%page_at_inj|Hne].
    + case_decide; [lia|]. case_decide; [done|lia].
    + assert (k <> bn) by (by intros ->). repeat case_decide; (done || lia).
Qed.

(** A chunk is a whole number of any aligned run. *)
Lemma wp_grow sbi s (Q : Z -> pa -> Prop) :
  pa_ok s ->
  (PA_SIZE < (pa_size s + PA_PAGES_AT_A_TIME) * PAGE_SIZE -> Q (- ENOMEM) s) ->
  (forall s', pa_ok s' -> same_env s s' -> pa_size s' = pa_size s + PA_PAGES_AT_A_TIME ->
     (forall k, k < pa_size s -> desc s' (page_at s k) = desc s (page_at s k)) ->
     (forall k, pa_size s <= k < pa_size s' -> refcount (desc s' (page_at s k)) = 0) -> Q 0 s') ->
  wp (_init_page_of_pages sbi) s Q.
Proof.
  intros Hok HN HS. pose proof Hok as [Hs0 Hch Hfit Hnd Hfree Hfresh]. rewrite /_init_page_of_pages. do 2 wp_step.
  destruct (Z.ltb_spec PA_SIZE ((pa_size s + PA_PAGES_AT_A_TIME) * PAGE_SIZE)) as [Hlt|Hge]; [by wp_step; apply HN|].
  wp_step. rewrite /pa_bn_to_page. wp_step. wp_step. change (pages_ptr s + pa_size s * sizeof_pa_page) with (page_at s (pa_size s)).
  assert (Hmax : pa_size s + PA_PAGES_AT_A_TIME <= pa_max) by (apply Z.div_le_lower_bound; lia).
  assert (HP : Z.of_nat (Z.to_nat PA_PAGES_AT_A_TIME) = PA_PAGES_AT_A_TIME) by (by rewrite Z2Nat.id).
  generalize (Z.to_nat PA_PAGES_AT_A_TIME) HP. intros n Hn. clear HP.
  apply wp_init_pages; [lia..|]. intros s1 (E1&E2&E3) Esz Ehd Ed. rewrite Hn in Ed. do 2 wp_step. wp_step.
  set (s' := upd_size _ s1). assert (Hat : forall k, page_at s' k = page_at s k) by (intros k; by apply page_at_env).
  assert (Hsz : pa_size s' = pa_size s + PA_PAGES_AT_A_TIME) by (by rewrite /s' /= Esz).
  assert (Hdesc : forall k, desc s' (page_at s k) = if decide (pa_size s <= k < pa_size s + PA_PAGES_AT_A_TIME)
     then init_desc sbi (desc s (page_at s k)) else desc s (page_at s k)) by exact Ed.
  assert (Hnew : forall k, pa_size s <= k < pa_size s' -> refcount (desc s' (page_at s k)) = 0).
  { intros k Hk. rewrite Hdesc decide_True; [lia|]. rewrite Hfresh; [lia|done]. }
  apply HS; [|done|done| |done].
  - split.
    + rewrite Hsz /PA_PAGES_AT_A_TIME. lia.
    + rewrite Hsz. rewrite -Z.add_mod_idemp_l; [done|]. by rewrite Hch.
    + lia.
    + change (pa_head s') with (pa_head s1). rewrite Ehd. apply NoDup_app. split_and!; [done| |apply pages_from_NoDup].
      intros p Hp. apply Hfree in Hp as (b&->&Hb&_). rewrite elem_of_pages_from. intros (k&E%page_at_inj&Hk). lia.
    + intros p. change (pa_head s') with (pa_head s1). rewrite Ehd elem_of_app Hfree elem_of_pages_from Hn. split.
      * intros [(b&->&Hb&Hr)|(k&->&Hk)]; [exists b|exists k]; rewrite /is_free Hat; (split; [done|]).
        -- split; [rewrite Hsz /PA_PAGES_AT_A_TIME; lia|]. rewrite Hdesc decide_False; [lia|done].
        -- split; [lia|]. apply Hnew. lia.
      * intros (b&->&Hb&Hr). rewrite Hat in Hr |- *. destruct (decide (b < pa_size s)) as [Hlt|Hge'].
        -- left. exists b. split; [done|]. split; [lia|]. by rewrite Hdesc decide_False in Hr; [lia|].
        -- right. exists b. split; [done|lia].
    + intros k Hk. rewrite Hat Hdesc decide_False; [lia|]. apply Hfresh. lia.
  - intros k Hk. rewrite Hdesc decide_False; [lia|done].
Qed.

(** ** Allocating a run *)
Definition alloc_desc (d : pa_page) : pa_page := upd_refcount (fun _ => 1) (linked d).
Lemma pa_ok_take s bn :
  pa_ok s -> is_free s bn ->
  pa_ok (set_desc (upd_head (remove1 (page_at s bn)) s) (page_at s bn) alloc_desc).
Proof.
  intros [Hs0 Hch Hfit Hnd Hfree Hfresh] [Hb Hr]. set (s' := set_desc _ _ _).
  assert (Hd : forall k, desc s' (page_at s k) = if decide (k = bn) then alloc_desc (desc s (page_at s bn)) else desc s (page_at s k)).
  { intros k. rewrite /s' desc_set desc_head. destruct (decide (page_at s k = page_at s bn)) as [->%page_at_inj|Hne].
    - by case_decide.
    - case_decide; [subst k; done|done]. }
  split; try done.
  - by apply NoDup_remove1.
  - intros p. change (pa_head s') with (remove1 (page_at s bn) (pa_head s)). rewrite elem_of_remove1 // Hfree. split.
    + intros [(b&->&Hfb) Hne]. exists b. split; [done|]. rewrite /is_free. change (page_at s' b) with (page_at s b).
      rewrite Hd. case_decide; [by subst b|done].
    + intros (b&->&Hfb). rewrite /is_free in Hfb. change (page_at s' b) with (page_at s b) in *. rewrite Hd in Hfb.
      case_decide as E; [by destruct Hfb|]. split; [by exists b|]. by intros ?%page_at_inj.
  - intros k Hk. change (page_at s' k) with (page_at s k). rewrite Hd. case_decide; [|by apply Hfresh].
    subst k. change (pa_size s') with (pa_size s) in Hk. lia.
Qed.
Lemma wp_alloc_pages n : forall s bn (Q : unit -> pa -> Prop),
  pa_ok s -> (forall k, bn <= k < bn + Z.of_nat n -> is_free s k) ->
  (forall s', pa_ok s' -> same_env s s' -> pa_size s' = pa_size s ->
     (forall k, desc s' (page_at s k) = if decide (bn <= k < bn + Z.of_nat n) then alloc_desc (desc s (page_at s k))
                                        else desc s (page_at s k)) -> Q tt s') ->
  wp (alloc_pages n (page_at s bn)) s Q.
Proof.
  induction n as [|n IH]; intros s bn Q Hok Hrun HQ; cbn [alloc_pages].
  { wp_step. apply HQ; [done..|]. intros k. case_decide; [lia|done]. }
  assert (Hf : is_free s bn) by (apply Hrun; lia). pose proof Hf as [Hb _]. pose proof (size_max s Hok).
  rewrite /_alloc_one_page. do 3 wp_step. wp_step.
  wp_step; [apply bool_decide_eq_true_2, ok_free; [done|by exists bn]|]. do 2 wp_step.
  wp_step. apply wp_set_page; [apply (in_mapping_at s); lia|]. apply wp_set_page; [apply (in_mapping_at s); lia|].
  set (s1 := set_desc _ _ _).
  assert (E1 : s1 = set_desc (upd_head (remove1 (page_at s bn)) s) (page_at s bn) alloc_desc).
  { rewrite /s1 /set_desc /upd_desc /upd_head /=. f_equal. rewrite insert_insert_eq. f_equal.
    rewrite {1}/desc /= lookup_insert_eq. done. }
  clearbody s1. subst s1. set (s1 := set_desc _ _ _). rewrite page_at_next. change (page_at s (bn + 1)) with (page_at s1 (bn + 1)).
  assert (Hd : forall k, desc s1 (page_at s k) = if decide (k = bn) then alloc_desc (desc s (page_at s bn)) else desc s (page_at s k)).
  { intros k. rewrite /s1 desc_set desc_head. destruct (decide (page_at s k = page_at s bn)) as [->%page_at_inj|Hne].
    - by case_decide.
    - case_decide; [subst k; done|done]. }
  apply IH; [by apply pa_ok_take| |].
  - intros k Hk. destruct (Hrun k) as [Hk1 Hk2]; [lia|]. split; [done|].
    change (page_at s1 k) with (page_at s k). rewrite Hd. by case_decide; [lia|].
  - intros s' Hok' He Esz Hd'. apply HQ; [done|done|done|]. intros k. change (page_at s k) with (page_at s1 k) at 1.
    rewrite Hd'. change (page_at s1 k) with (page_at s k). rewrite Hd. repeat case_decide; try lia; try done. by subst k.
Qed.

(** ** Searching *)
(** An aligned run of free pages. *)
Definition run_at s (bn npages : Z) : Prop :=
  bn mod npages = 0 /\ forall k, bn <= k < bn + npages -> is_free s k.
Lemma wp_all_free n : forall s bn (Q : bool -> pa -> Prop),
  0 <= bn -> bn + Z.of_nat n <= pa_max ->
  (forall b, b = true <-> (forall k, bn <= k < bn + Z.of_nat n -> refcount (desc s (page_at s k)) = 0) -> Q b s) ->
  wp (all_free n (page_at s bn)) s Q.
Proof.
  induction n as [|n IH]; intros s bn Q Hb Hn HQ; cbn [all_free].
  { wp_step. apply HQ. split; [|done]. intros _ k Hk. lia. }
  rewrite /_pa_is_free. wp_step. apply wp_get_page; [apply in_mapping_at; lia|].
  destruct (Z.eqb_spec (refcount (desc s (page_at s bn))) 0) as [E|E].
  - rewrite page_at_next. apply IH; [lia..|]. intros b Hiff. apply HQ. rewrite Hiff. split; intros Hall k Hk.
    + destruct (decide (k = bn)) as [->|]; [done|]. apply Hall. lia.
    + apply Hall. lia.
  - wp_step. apply HQ. split; [done|]. intros Hall. exfalso. apply E, Hall. lia.
Qed.

(** The test of the bound lets a run end one past the end, which an aligned run in a
    whole number of chunks cannot. *)
Lemma aligned_bound bn npages size :
  0 < npages -> size mod npages = 0 -> bn mod npages = 0 -> bn < size -> bn + npages <= size.
Proof.
  intros Hn Hs Hb Hlt. pose proof (Z.div_mod size npages). pose proof (Z.div_mod bn npages).
  set (q := size / npages) in *. set (r := bn / npages) in *. assert (r < q) by nia. nia.
Qed.
Definition is_order (npages : Z) : Prop := 0 < npages <= 32 /\ PA_PAGES_AT_A_TIME mod npages = 0.
Lemma size_aligned s npages : pa_ok s -> is_order npages -> pa_size s mod npages = 0.
Proof.
  intros [_ Hch _ _ _ _] [Hn Hp]. pose proof (Z.div_mod (pa_size s) PA_PAGES_AT_A_TIME ltac:(done)) as E.
  pose proof (Z.div_mod PA_PAGES_AT_A_TIME npages) as E'. rewrite Hp in E'. rewrite Hch in E.
  rewrite E E'; [lia|]. rewrite !Z.add_0_r -Z.mul_assoc Z.mul_comm. apply Z.mod_mul. lia.
Qed.

(** What a run handed out is: [npages] pages that were free, now counted once, their
    links empty; the other pages are as they were, or new and free. *)
Definition took s s' (bn npages : Z) : Prop :=
  (forall k, bn <= k < bn + npages -> refcount (desc s' (page_at s k)) = 1 /\ slab_cpu (desc s' (page_at s k)) = None) /\
  (forall k, ~ bn <= k < bn + npages -> k < pa_size s -> desc s' (page_at s k) = desc s (page_at s k)) /\
  (forall k, ~ bn <= k < bn + npages -> pa_size s <= k < pa_size s' -> refcount (desc s' (page_at s k)) = 0).
Lemma wp_scan npages : is_order npages -> forall l s (Q : option Z -> pa -> Prop),
  pa_ok s -> (forall p, p ∈ l -> p ∈ pa_head s) ->
  ((forall bn, page_at s bn ∈ l -> ~ run_at s bn npages) -> Q None s) ->
  (forall bn s', run_at s bn npages -> pa_ok s' -> same_env s s' -> pa_size s' = pa_size s -> took s s' bn npages ->
     Q (Some (page_at s bn)) s') ->
  wp (scan npages l) s Q.
Proof.
  intros Hord. pose proof Hord as [Hn _]. induction l as [|p l IH]; intros s Q Hok Hl HN HS; cbn [scan].
  { wp_step. apply HN. by intros bn ?%elem_of_nil. }
  assert (Hp : p ∈ pa_head s) by (apply Hl; constructor). apply (ok_free s Hok) in Hp as (bn&->&Hf).
  pose proof Hf as [Hb _]. pose proof (size_max s Hok) as Hmax.
  assert (Hrest : forall Q', (forall bn0, page_at s bn0 ∈ l -> ~ run_at s bn0 npages) -> ~ run_at s bn npages -> (Q' : Prop) = Q None s -> Q').
  { intros Q' H1 H2 ->. apply HN. intros b [E%page_at_inj|Hin]%elem_of_cons; [by subst b|by apply H1]. }
  wp_step. apply wp_page_to_bn. wp_step. wp_step.
  destruct (Z.eqb_spec (bn mod npages) 0) as [Hal|Hal]; cbn [negb orb]; [|].
  2: { apply IH; [done|intros q ?; apply Hl; by constructor| |done]. intros Hall. eapply Hrest; [done| |done]. by intros [? _]. }
  pose proof (aligned_bound bn npages (pa_size s) ltac:(lia) (size_aligned s npages Hok Hord) Hal ltac:(lia)) as Hend.
  destruct (Z.ltb_spec (pa_size s) (bn + npages - 1)) as [Hbad|_]; [lia|].
  wp_step. rewrite page_at_next. apply wp_all_free; [lia|lia|]. intros b Hiff. rewrite Z2Nat.id in Hiff; [lia|].
  destruct b.
  - assert (Hrun : run_at s bn npages).
    { split; [done|]. intros k Hk. split; [lia|]. destruct (decide (k = bn)) as [->|]; [apply Hf|].
      apply (proj1 Hiff); [done|lia]. }
    wp_step. apply wp_alloc_pages; [done|intros k Hk; apply Hrun; lia|]. rewrite Z2Nat.id; [lia|].
    intros s' Hok' He Esz Hd. wp_step. apply HS; [done..|]. split_and!.
    + intros k Hk. by rewrite Hd decide_True.
    + intros k Hk _. by rewrite Hd decide_False.
    + intros k _ Hk. rewrite Esz in Hk. lia.
  - apply IH; [done|intros q ?; apply Hl; by constructor| |done]. intros Hall. eapply Hrest; [done| |done].
    intros [_ Hrun]. assert (false = true) by (apply Hiff; intros k Hk; apply Hrun; lia). done.
Qed.

Lemma order_ok order : 0 <= order <= PA_MAX_ORDER -> u16 (Z.shiftl 1 order) = 2 ^ order /\ is_order (2 ^ order).
Proof.
  intros Ho. rewrite Z.shiftl_1_l. rewrite /PA_MAX_ORDER in Ho. assert (order = 0 \/ order = 1 \/ order = 2 \/ order = 3 \/ order = 4 \/ order = 5) as Hc by lia.
  rewrite /is_order. destruct Hc as [->|[->|[->|[->|[->| ->]]]]]; split_and!; (done || lia).
Qed.
Lemma same_env_trans s1 s2 s3 : same_env s1 s2 -> same_env s2 s3 -> same_env s1 s3.
Proof. intros (?&?&?) (?&?&?). split_and!; congruence. Qed.

(** The new chunk always has room: at most one jump back to [rescan]. *)
Lemma wp_rescan npages sbi s (Q : option Z -> pa -> Prop) :
  is_order npages -> pa_ok s ->
  ((forall bn, ~ run_at s bn npages) -> PA_SIZE < (pa_size s + PA_PAGES_AT_A_TIME) * PAGE_SIZE -> Q None s) ->
  (forall bn s', pa_ok s' -> same_env s s' -> pa_size s <= pa_size s' -> bn mod npages = 0 -> 0 <= bn ->
     bn + npages <= pa_size s' -> (forall k, bn <= k < bn + npages -> k < pa_size s -> is_free s k) ->
     took s s' bn npages -> Q (Some (page_at s bn)) s') ->
  wp (rescan 2 sbi npages) s Q.
Proof.
  intros Hord Hok HN HS. pose proof Hord as [Hn _]. cbn [rescan]. do 2 wp_step. wp_step.
  assert (Hrun : forall s bn, pa_ok s -> run_at s bn npages -> 0 <= bn /\ bn + npages <= pa_size s).
  { intros s0 bn Hok0 [_ Hr]. destruct (Hr bn) as [? _]; [lia|]. destruct (Hr (bn + npages - 1)) as [? _]; [lia|]. lia. }
  apply wp_scan; [done|done|done| |].
  2: { intros bn s' Hr Hok' He Esz Ht. wp_step. destruct (Hrun s bn Hok Hr). apply HS; [done|done|lia|apply Hr|lia|lia| |done].
       intros k Hk _. by apply Hr. }
  intros Hno. assert (Hno' : forall bn, ~ run_at s bn npages).
  { intros bn Hr. apply (Hno bn); [|done]. apply ok_free; [done|]. exists bn. split; [done|]. apply Hr. lia. }
  wp_step. apply wp_grow; [done|intros Hlt; change (negb (- ENOMEM =? 0)) with true; cbv iota; wp_step; by apply HN|].
  intros s1 Hok1 He1 Esz1 Hold Hnew. cbn [negb Z.eqb]. do 2 wp_step. wp_step. pose proof He1 as (Ep&_).
  assert (Hat : forall k, page_at s1 k = page_at s k) by (intros; by apply page_at_env).
  assert (H0 : run_at s1 (pa_size s) npages).
  { split; [by apply size_aligned|]. intros k Hk. rewrite /is_free Hat. pose proof (ok_size s Hok).
    rewrite Esz1 /PA_PAGES_AT_A_TIME. split; [lia|]. apply Hnew. rewrite Esz1 /PA_PAGES_AT_A_TIME. lia. }
  apply wp_scan; [done|done|done| |].
  - intros Hno1. exfalso. apply (Hno1 (pa_size s)); [|done]. apply ok_free; [done|]. eexists. split; [done|]. apply H0. lia.
  - intros bn s' Hr Hok' He Esz (Ht1&Ht2&_). rewrite Hat. wp_step. destruct (Hrun s1 bn Hok1 Hr).
    assert (pa_size s <= pa_size s1) by (rewrite Esz1 /PA_PAGES_AT_A_TIME; lia).
    apply HS; [done|by eapply same_env_trans|lia|apply Hr|lia|lia| |].
    + intros k Hk Hlt. destruct Hr as [_ Hr]. destruct (Hr k Hk) as [Hk1 Hk2]. rewrite Hat Hold // in Hk2. split; [lia|done].
    + split_and!.
      * intros k Hk. rewrite -Hat. by apply Ht1.
      * intros k Hk Hlt. rewrite -Hat Ht2; [done|lia|]. rewrite Hat. by apply Hold.
      * intros k Hk Hr'. rewrite -Hat Ht2; [done|lia|]. rewrite Hat. apply Hnew. lia.
Qed.

(** Locking and unlocking give the same state back. *)
Lemma pa_ok_lock s b : pa_ok (upd_lock (fun _ => b) s) <-> pa_ok s.
Proof. split; intros [? ? ? ? ? ?]; by split. Qed.
Lemma pa_unlock_id s : pa_lock s = false -> upd_lock (fun _ => false) (upd_lock (fun _ => true) s) = s.
Proof. intros E. destruct s; cbn in *. by rewrite E. Qed.

Lemma wp_spin_lock s (Q : unit -> pa -> Prop) :
  pa_lock s = false -> Q tt (upd_lock (fun _ => true) s) -> wp spin_lock s Q.
Proof. intros Hl HQ. rewrite /spin_lock. do 2 wp_step. wp_step. wp_step; [by rewrite Hl|]. by wp_step. Qed.
Lemma wp_spin_unlock s (Q : unit -> pa -> Prop) : Q tt (upd_lock (fun _ => false) s) -> wp spin_unlock s Q.
Proof. done. Qed.

Lemma wp_alloc_run s sbi npages (Q : option Z -> pa -> Prop) :
  pa_inv s -> is_order npages ->
  ((forall bn, ~ run_at s bn npages) -> PA_SIZE < (pa_size s + PA_PAGES_AT_A_TIME) * PAGE_SIZE -> Q None s) ->
  (forall bn s', pa_inv s' -> same_env s s' -> pa_size s <= pa_size s' -> bn mod npages = 0 -> 0 <= bn ->
     bn + npages <= pa_size s' -> (forall k, bn <= k < bn + npages -> k < pa_size s -> is_free s k) ->
     took s s' bn npages -> Q (Some (page_at s bn)) s') ->
  wp (alloc_run sbi npages) s Q.
Proof.
  intros [Hlock Hok] Hord HN HS. rewrite /alloc_run. wp_step. apply wp_spin_lock; [done|].
  do 2 wp_step. set (s0 := upd_lock (fun _ => true) s). assert (Hok0 : pa_ok s0) by (by apply pa_ok_lock).
  set (Q' := fun (r : option Z) s1 => wp (spin_unlock;; mret r) s1 Q).
  assert (HQN : (forall bn, ~ run_at s bn npages) -> PA_SIZE < (pa_size s + PA_PAGES_AT_A_TIME) * PAGE_SIZE -> Q' None s0).
  { intros H1 H2. rewrite /Q'. wp_step. apply wp_spin_unlock. rewrite /s0 pa_unlock_id //. wp_step. by apply HN. }
  assert (HQS : forall bn s', pa_ok s' -> same_env s0 s' -> pa_size s <= pa_size s' -> bn mod npages = 0 -> 0 <= bn ->
     bn + npages <= pa_size s' -> (forall k, bn <= k < bn + npages -> k < pa_size s -> is_free s k) ->
     took s s' bn npages -> Q' (Some (page_at s bn)) s').
  { intros bn s' Hok' (E1&E2&E3) Hsz Hal Hb Hend Hfree Ht. rewrite /Q'. wp_step. apply wp_spin_unlock. wp_step.
    assert (Hinv' : pa_inv (upd_lock (fun _ => false) s')) by (split; [done|by apply pa_ok_lock]). by apply HS. }
  change (pa_head s) with (pa_head s0).
  assert (Hres : wp (rescan 2 sbi npages) s0 Q').
  { apply wp_rescan; [done|done|exact HQN|]. intros bn s' Hok' He Hsz Hal Hb Hend Hfree Ht. by apply HQS. }
  destruct (pa_head s0) as [|p0 l0] eqn:El.
  - wp_step. apply wp_grow; [done|intros Hlt; cbn [negb Z.eqb]|].
    + wp_step. change (negb (- ENOMEM =? 0)) with true. cbv iota. wp_step. apply HQN; [|done]. intros bn [_ Hr].
      assert (Hin : page_at s0 bn ∈ pa_head s0).
      { apply ok_free; [done|]. exists bn. split; [done|]. apply Hr. destruct Hord. lia. }
      rewrite El in Hin. by apply elem_of_nil in Hin.
    + intros s1 Hok1 He1 Esz1 Hold Hnew. cbn [negb Z.eqb]. wp_step. cbn [negb Z.eqb].
      pose proof He1 as (Ep&_). assert (Hat : forall k, page_at s1 k = page_at s k) by (intros; by apply page_at_env).
      assert (Hsz : pa_size s <= pa_size s1) by (rewrite Esz1 /PA_PAGES_AT_A_TIME /=; lia).
      change (pa_size s0) with (pa_size s) in *.
      apply wp_rescan; [done|done| |].
      * intros Hno _. exfalso. apply (Hno (pa_size s)). split; [by apply size_aligned|]. intros k Hk. rewrite /is_free Hat.
        pose proof (ok_size s Hok). destruct Hord. rewrite Esz1 /PA_PAGES_AT_A_TIME. split; [lia|].
        apply Hnew. rewrite Esz1 /PA_PAGES_AT_A_TIME. lia.
      * intros bn s' Hok' He Hsz' Hal Hb Hend Hfree (Ht1&Ht2&Ht3). rewrite Hat. apply HQS; [done| |lia|done|done|done| |].
        -- by eapply same_env_trans.
        -- intros k Hk Hlt. destruct (Hfree k Hk) as [_ Hr]; [lia|]. rewrite Hat Hold // in Hr. split; [lia|done].
        -- split_and!; [intros k Hk; rewrite -Hat; by apply Ht1| |].
           ++ intros k Hk Hlt. rewrite -Hat Ht2; [done|lia|]. rewrite Hat. by apply Hold.
           ++ intros k Hk Hr'. rewrite -Hat. destruct (decide (k < pa_size s1)); [|apply Ht3; [done|lia]].
              rewrite Ht2; [done|done|]. rewrite Hat. apply Hnew. lia.
  - do 2 wp_step. cbn [negb Z.eqb]. wp_step. exact Hres.
Qed.

Lemma wp_pa_alloc_order s sbi order (Q : option Z -> pa -> Prop) :
  pa_inv s -> 0 <= order <= PA_MAX_ORDER -> (NEED_MLOCK = true -> forall a n, mlock a n = 0) ->
  ((forall bn, ~ run_at s bn (2 ^ order)) -> PA_SIZE < (pa_size s + PA_PAGES_AT_A_TIME) * PAGE_SIZE -> Q None s) ->
  (forall bn s', pa_inv s' -> same_env s s' -> pa_size s <= pa_size s' -> bn mod 2 ^ order = 0 -> 0 <= bn ->
     bn + 2 ^ order <= pa_size s' -> (forall k, bn <= k < bn + 2 ^ order -> k < pa_size s -> is_free s k) ->
     took s s' bn (2 ^ order) -> Q (Some (page_at s bn)) s') ->
  wp (pa_alloc_order sbi order) s Q.
Proof.
  intros Hinv Ho Hml HN HS. destruct (order_ok order Ho) as [Enp Hord]. rewrite /pa_alloc_order Enp.
  destruct (Z.ltb_spec PA_MAX_ORDER order); [lia|]. wp_step. apply wp_alloc_run; [done|done|by intros; apply HN|].
  intros bn s' Hinv' He Hsz Hal Hb Hend Hfree Ht. rewrite /mlock_run. destruct NEED_MLOCK; [|wp_step; by apply HS].
  rewrite /pa_page_address /pa_page_to_bn. do 4 wp_step. rewrite Hml //. by apply HS.
Qed.

(** ** References *)
Lemma wp_pa_put_page s bn (Q : Z -> pa -> Prop) :
  pa_inv s -> 0 <= bn < pa_size s -> refcount (desc s (page_at s bn)) <> 0 ->
  (forall s', pa_inv s' -> same_env s s' -> pa_size s' = pa_size s ->
     refcount (desc s' (page_at s bn)) = refcount (desc s (page_at s bn)) - 1 ->
     (forall k, k <> bn -> desc s' (page_at s k) = desc s (page_at s k)) ->
     pa_head s' = (if refcount (desc s (page_at s bn)) =? 1 then page_at s bn :: pa_head s else pa_head s) ->
     Q (if refcount (desc s (page_at s bn)) =? 1 then 1 else 0) s') ->
  wp (pa_put_page (page_at s bn)) s Q.
Proof.
  intros [Hlock Hok] Hb Hr HQ. pose proof (size_max s Hok) as Hmax. pose proof Hok as [Hs0 Hch Hfit Hnd Hfree Hfresh].
  rewrite /pa_put_page. wp_step. apply wp_get_page; [apply in_mapping_at; lia|]. wp_step.
  apply wp_set_page; [apply in_mapping_at; lia|]. set (n := refcount (desc s (page_at s bn))) in *.
  assert (Hd : forall s' g, (forall q, desc s' q = desc (set_desc s (page_at s bn) g) q) -> forall k,
    desc s' (page_at s k) = if decide (k = bn) then g (desc s (page_at s bn)) else desc s (page_at s k)).
  { intros s' g Heq k. rewrite Heq desc_set. destruct (decide (page_at s k = page_at s bn)) as [->%page_at_inj|Hne].
    - by case_decide.
    - case_decide; [subst k; done|done]. }
  destruct (Z.eqb_spec n 1) as [E|E].
  - rewrite /__pa_free. do 2 wp_step. apply wp_spin_lock; [done|]. wp_step.
    apply wp_set_page; [apply (in_mapping_at s); lia|]. do 2 wp_step. apply wp_spin_unlock. wp_step.
    set (s' := upd_lock _ _).
    assert (Hd' : forall k, desc s' (page_at s k) = if decide (k = bn) then linked (upd_refcount (fun n => n - 1) (desc s (page_at s bn))) else desc s (page_at s k)).
    { apply (Hd s' (fun d => linked (upd_refcount (fun n => n - 1) d))). intros q. rewrite /s'. change (desc (upd_lock ?g ?x) ?y) with (desc x y). change (desc (upd_head ?g ?x) ?y) with (desc x y).
      rewrite !desc_set. change (desc (upd_lock ?g ?x) ?y) with (desc x y). rewrite !desc_set. case_decide; [|done].
      by rewrite decide_True. }
    apply HQ; try done.
    + split; [done|]. split; try done.
      * change (pa_head s') with (page_at s bn :: pa_head s). constructor; [|done]. intros (b&E'%page_at_inj&_&Hz)%Hfree. by subst b.
      * intros p. change (pa_head s') with (page_at s bn :: pa_head s). rewrite elem_of_cons Hfree. split.
        -- intros [->|(b&->&Hb'&Hz)]; [exists bn|exists b]; (split; [done|]); rewrite /is_free;
             change (page_at s' ?k) with (page_at s k); rewrite Hd'; case_decide; try done; try (by subst b).
           split; [done|]. cbn. rewrite -/n E. done.
        -- intros (b&->&Hb'&Hz). change (page_at s' b) with (page_at s b) in *. rewrite Hd' in Hz. case_decide; [left; by subst b|].
           right. by exists b.
      * intros k Hk. change (page_at s' k) with (page_at s k). change (pa_size s') with (pa_size s) in Hk. rewrite Hd'.
        case_decide; [lia|]. by apply Hfresh.
    + rewrite Hd' decide_True //.
    + intros k Hk. by rewrite Hd' decide_False.
  - wp_step. set (s' := set_desc _ _ _). pose proof (Hd s' _ (fun _ => eq_refl)) as Hd'.
    apply HQ; try done.
    + split; [done|]. split; try done.
      * intros p. change (pa_head s') with (pa_head s). rewrite Hfree. apply exist_proper. intros b. rewrite /is_free.
        change (page_at s' b) with (page_at s b). rewrite Hd'. case_decide; [|done]. subst b. cbn. rewrite -/n. split; [intros (?&?&?)|intros (?&?&?)]; lia.
      * intros k Hk. change (page_at s' k) with (page_at s k). change (pa_size s') with (pa_size s) in Hk. rewrite Hd'.
        case_decide; [lia|]. by apply Hfresh.
    + rewrite Hd' decide_True //.
    + intros k Hk. by rewrite Hd' decide_False.
Qed.

(** What a call that answers a page leaves: a run of pages that were free, at a multiple of
    its length; the array of descriptors may have grown. *)
Definition handed_out s s' (bn npages : Z) : Prop :=
  pa_inv s' /\ bn mod npages = 0 /\ 0 <= bn /\ bn + npages <= pa_size s' /\ same_env s s' /\ pa_size s <= pa_size s' /\
  (forall k, bn <= k < bn + npages -> k < pa_size s -> is_free s k) /\ took s s' bn npages.
(** What putting a run on the ring does: the links of its pages are written, their counts
    are not. *)
Definition gave_back s s' (bn : Z) (n : nat) : Prop :=
  pa_head s' = rev (pages_from s bn n) ++ pa_head s /\ pa_size s' = pa_size s /\ same_env s s' /\
  forall k, desc s' (page_at s k) = if decide (bn <= k < bn + Z.of_nat n) then linked (desc s (page_at s k)) else desc s (page_at s k).
Lemma wp_give_back n : forall s bn, 0 <= bn -> bn + Z.of_nat n <= pa_max -> wp (give_back n (page_at s bn)) s (fun _ s' => gave_back s s' bn n).
Proof.
  induction n as [|n IH]; intros s bn Hb Hm; cbn [give_back].
  { wp_step. split_and!; try done. intros k. by case_decide; [lia|]. }
  wp_step. apply wp_set_page; [apply in_mapping_at; lia|]. do 2 wp_step. set (s1 := upd_head _ _).
  rewrite page_at_next. change (page_at s (bn + 1)) with (page_at s1 (bn + 1)). eapply wp_mono; [apply IH; lia|].
  intros _ s' (E1 & E2 & E3 & E4). rewrite /gave_back E1 E2 pages_from_S. cbn [rev]. split_and!; [|done|done|].
  - by rewrite -app_assoc.
  - intros k. change (page_at s k) with (page_at s1 k) at 1. rewrite E4. change (page_at s1 k) with (page_at s k). rewrite /s1 desc_head desc_set.
    destruct (decide (k = bn)) as [->|Hn]; [repeat case_decide; (lia || done)|].
    rewrite (decide_False (P := page_at s k = page_at s bn)); [by intros ?%page_at_inj|]. repeat case_decide; (lia || done).
Qed.
(** C38: Allocating [2 ^ order] pages, on every branch.  An order that is too large is refused
    and changes nothing.  Else the answer is a run of pages that were free, at a multiple of
    its length, each now counted once and off the ring, locked in memory if that is asked for,
    with every other page as it was (the array of descriptors may have grown by a chunk), and
    the invariant kept.  Or it is nothing: because no free aligned run exists and the pool
    cannot grow, and then nothing has changed; or because locking such a run failed, and
    then its pages are back on the ring with the count of used ones. *)
Theorem pa_alloc_order_spec s sbi order : pa_inv s -> 0 <= order ->
  let npages := 2 ^ order in
  let locks s' bn := mlock (data_ptr s + bn * PAGE_SIZE) (npages * PAGE_SIZE) in
  wp (pa_alloc_order sbi order) s (fun r s' =>
    if PA_MAX_ORDER <? order then r = None /\ s' = s else
    match r with
    | Some p => exists bn, p = page_at s bn /\ handed_out s s' bn npages /\ (NEED_MLOCK = true -> locks s' bn = 0)
    | None =>
      s' = s /\ (forall bn, ~ run_at s bn npages) /\ PA_SIZE < (pa_size s + PA_PAGES_AT_A_TIME) * PAGE_SIZE \/
      NEED_MLOCK = true /\ exists bn s1, handed_out s s1 bn npages /\ locks s1 bn <> 0 /\
        pa_lock s' = false /\ gave_back s1 s' bn (Z.to_nat npages) /\ forall k, bn <= k < bn + npages -> refcount (desc s' (page_at s k)) = 1
    end).
Proof.
  intros Hinv Ho. cbv zeta. rewrite /pa_alloc_order. destruct (Z.ltb_spec PA_MAX_ORDER order) as [Hbig|Hle]; [by wp_step|].
  destruct (order_ok order ltac:(done)) as [-> Hord]. wp_step. apply wp_alloc_run; [done|done|intros H1 H2; rewrite /mlock_run; wp_step; by left|].
  intros bn s1 Hinv1 He Hsz Hal Hb Hend Hfree Ht. assert (Hout : handed_out s s1 bn (2 ^ order)) by by split_and!.
  pose proof He as (Ep & Ed & _). rewrite /mlock_run. destruct NEED_MLOCK eqn:Hneed; [|wp_step; exists bn; split_and!; [done..|by intros ?]].
  rewrite /pa_page_address -(page_at_env s s1) //. wp_step. wp_step. apply wp_page_to_bn. wp_step. rewrite Ed.
  destruct (Z.eqb_spec (mlock (data_ptr s + bn * PAGE_SIZE) (2 ^ order * PAGE_SIZE)) 0) as [E|E]; cbn [negb]; [wp_step; exists bn; by rewrite (page_at_env s s1)|].
  destruct Hinv1 as [Hl1 Hok1]. pose proof (size_max s1 Hok1). pose proof Hord as [Hn _]. wp_step. apply wp_spin_lock; [done|]. wp_step.
  set (s2 := upd_lock _ s1). change (page_at s1 bn) with (page_at s2 bn). eapply wp_mono; [apply wp_give_back; [lia|rewrite Z2Nat.id; lia]|].
  intros _ s3 (G1 & G2 & (G3 & G4 & G5) & G6). wp_step. apply wp_spin_unlock. wp_step. right. split; [done|]. exists bn, s1. split_and!; try done.
  intros k Hk. change (desc (upd_lock ?g ?x) ?y) with (desc x y). rewrite -(page_at_env s s1) //. change (page_at s1 k) with (page_at s2 k). rewrite G6.
  rewrite decide_True; [rewrite Z2Nat.id; lia|]. change (page_at s2 k) with (page_at s1 k). change (desc s2 ?y) with (desc s1 y). cbn. rewrite (page_at_env s s1) //. by apply (proj1 Ht).
Qed.

(** Dropping a reference: the page is freed (1, and it is the next one handed out by
    the ring) exactly when it was the last; no other page is touched. *)
Theorem pa_put_page_spec s bn :
  pa_inv s -> 0 <= bn < pa_size s -> refcount (desc s (page_at s bn)) <> 0 ->
  wp (pa_put_page (page_at s bn)) s (fun r s' => pa_inv s' /\
    refcount (desc s' (page_at s bn)) = refcount (desc s (page_at s bn)) - 1 /\
    (forall k, k <> bn -> desc s' (page_at s k) = desc s (page_at s k)) /\
    (r = 1 <-> refcount (desc s (page_at s bn)) = 1) /\
    pa_head s' = (if decide (r = 1) then page_at s bn :: pa_head s else pa_head s)).
Proof.
  intros Hinv Hb Hr. apply wp_pa_put_page; [done..|]. intros s' Hinv' _ _ E1 E2 E3.
  split; [done|]. split; [done|]. split; [done|]. rewrite E3.
  destruct (Z.eqb_spec (refcount (desc s (page_at s bn))) 1); (split; [done|]); case_decide; done.
Qed.

(** Taking a reference answers the count from before (0 when there was none, and then
    takes none), although its comment says it returns the incremented one. *)
Theorem pa_get_page_spec s bn :
  pa_ok s -> 0 <= bn < pa_size s ->
  wp (pa_get_page (page_at s bn)) s (fun r s' => let n := refcount (desc s (page_at s bn)) in
    r = n /\ refcount (desc s' (page_at s bn)) = (if n =? 0 then 0 else n + 1) /\
    (forall k, k <> bn -> desc s' (page_at s k) = desc s (page_at s k)) /\ pa_head s' = pa_head s).
Proof.
  intros Hok Hb. pose proof (size_max s Hok) as Hmax. rewrite /pa_get_page. wp_step.
  apply wp_get_page; [apply in_mapping_at; lia|]. wp_step. apply wp_set_page; [apply in_mapping_at; lia|]. wp_step.
  cbv zeta. rewrite desc_set decide_True //. cbn [refcount upd_refcount]. unfold _zu_atomic_add_unless.
  destruct (Z.eqb_spec (refcount (desc s (page_at s bn))) 0) as [E|E]; cbn [fst snd]; split_and!; try done;
    intros k Hk; rewrite desc_set decide_False //; by intros ?%page_at_inj.
Qed.
(** The compare-and-swap loop under interference: whatever the other threads store, it
    ends, adds to the last value it saw unless that is [u], and answers that value. *)
Theorem add_unless_spec a u : forall others v,
  let r := _zu_atomic_add_unless v a u others in
  r.2 ∈ v :: others /\ r.1 = (if r.2 =? u then u else r.2 + a).
Proof.
  induction others as [|w l IH]; intros v; cbn [_zu_atomic_add_unless].
  - destruct (Z.eqb_spec v u) as [->|Hne]; cbn [fst snd].
    + rewrite Z.eqb_refl. split; [constructor|done].
    + rewrite (proj2 (Z.eqb_neq _ _) Hne). split; [constructor|done].
  - destruct (Z.eqb_spec v u) as [->|Hne]; cbn [fst snd]; [rewrite Z.eqb_refl; split; [constructor|done]|].
    destruct (Z.eqb_spec w v) as [->|Hwv]; cbn [fst snd].
    + rewrite (proj2 (Z.eqb_neq _ _) Hne). split; [constructor|done].
    + destruct (IH w) as [H1 H2]. split; [by constructor|done].
Qed.

End spec.

(** ** An example: a pool of one chunk *)
Section example.
Definition example_pa_env (lock : bool) (err : Z) : PaEnv := {| PA_SIZE := 2 ^ 27; NEED_MLOCK := lock; mlock _ _ := err |}.
Definition pa_zero : pa := Pa false 0 [] 0 0 ∅.
Definition pa_example : pa := Pa false 0 [] 65536 (2 ^ 30) ∅.
Lemma pa_example_init (E : PaEnv) : pa_init 0 (inr (2 ^ 30)) (inr 65536) pa_zero = Some (0, pa_example).
Proof. done. Qed.
#[local] Existing Instance example_pa_env.
Lemma pa_example_inv (E : PaEnv) : 0 <= PA_SIZE -> pa_inv pa_example.
Proof.
  intros HP. split; [done|]. split; [done|done|done|constructor| |done].
  intros p. split; [by intros ?%elem_of_nil|]. intros (b&_&Hb&_). cbn in Hb. lia.
Qed.
Lemma pa_alloc_order_spec_witness :
  let E := example_pa_env false 0 in
  wp (pa_alloc_order 7 5) pa_example (fun r s' => match r with Some p => exists bn, p = page_at pa_example bn /\ bn mod 32 = 0 | None => True end).
Proof.
  intros E. assert (H0 : 0 <= @PA_SIZE E) by discriminate. assert (H5 : 0 <= 5) by discriminate.
  pose proof (@pa_alloc_order_spec E pa_example 7 5 (pa_example_inv E H0) H5) as Hspec. cbv zeta in Hspec. eapply wp_mono; [apply Hspec|]. clear Hspec. cbn [Z.ltb Z.compare PA_MAX_ORDER Pos.compare Pos.compare_cont].
  intros [p|] s' H; [|exact I]. destruct H as (bn & H1 & (_ & H2 & _) & _). exists bn. split; [exact H1|exact H2].
Defined.

(** A state with a page counted once, reached by an allocation. *)
Lemma pa_example1_ok : let E := example_pa_env false 0 in
  exists s bn, pa_inv s /\ 0 <= bn < pa_size s /\ refcount (desc s (page_at s bn)) = 1.
Proof.
  intros E.
  assert (wp (pa_alloc_order 7 0) pa_example (fun _ s => exists bn, pa_inv s /\ 0 <= bn < pa_size s /\ refcount (desc s (page_at s bn)) = 1)) as Hw.
  { apply wp_pa_alloc_order; [by apply pa_example_inv|done|done| |].
    - intros _ Hlt. exfalso. revert Hlt. cbn [PA_SIZE E example_pa_env pa_size pa_example]. rewrite /PA_PAGES_AT_A_TIME. lia.
    - intros bn s' Hinv (Ep&_) _ _ Hb Hend _ [Ht _]. exists bn. change (2 ^ 0) with 1 in *. split; [done|]. split; [lia|].
      rewrite (page_at_env pa_example); [done|]. apply Ht. lia. }
  apply wp_exists in Hw as (r&s&_&bn&Hs). by exists s, bn.
Qed.
Lemma pa_put_page_spec_witness : let E := example_pa_env false 0 in
  exists s bn, wp (pa_put_page (page_at s bn)) s (fun r s' => r = 1 /\ pa_head s' = page_at s bn :: pa_head s).
Proof.
  intros E. destruct pa_example1_ok as (s&bn&Hinv&Hb&Hr). exists s, bn.
  eapply wp_mono; [apply (@pa_put_page_spec E s bn Hinv Hb); rewrite Hr; discriminate|].
  intros r s' (_&_&_&H1&H2). assert (r = 1) as E1 by (apply H1; exact Hr). split; [exact E1|].
  rewrite H2. case_decide as Hd; [reflexivity|exfalso; exact (Hd E1)].
Defined.
Lemma pa_get_page_spec_witness : let E := example_pa_env false 0 in
  exists s bn, wp (pa_get_page (page_at s bn)) s (fun r s' => r = 1 /\ refcount (desc s' (page_at s bn)) = 2).
Proof.
  intros E. destruct pa_example1_ok as (s&bn&Hinv&Hb&Hr). exists s, bn.
  eapply wp_mono; [apply (@pa_get_page_spec E s bn); [apply Hinv|exact Hb]|].
  intros r s' (H1&H2&_). rewrite Hr in H1, H2. split; [exact H1|exact H2].
Defined.

(** When locking fails, a page that counts as used is on the ring: a later allocation of
    several pages passes it over. *)
Lemma mlock_failure_breaks_ring : let E := example_pa_env true ENOMEM in
  wp (pa_alloc_order 7 0) pa_example (fun r s => r = None /\ exists p, p ∈ pa_head s /\ refcount (desc s p) = 1).
Proof.
  intros E. assert (H0 : 0 <= @PA_SIZE E) by discriminate. assert (H5 : 0 <= 0) by done.
  pose proof (@pa_alloc_order_spec E pa_example 7 0 (pa_example_inv E H0) H5) as Hspec. cbv zeta in Hspec. eapply wp_mono; [apply Hspec|]. clear Hspec. cbn [Z.ltb Z.compare PA_MAX_ORDER Pos.compare Pos.compare_cont].
  intros [p|] s H; [destruct H as (bn & _ & _ & Hl); discriminate (Hl eq_refl)|]. split; [done|].
  destruct H as [(_ & _ & Hlt)|(_ & bn & s1 & (_ & _ & _ & _ & (Ep & _) & _) & _ & _ & (Hh & _) & Hr)].
  - exfalso. revert Hlt. cbn [PA_SIZE E example_pa_env pa_size pa_example]. rewrite /PA_PAGES_AT_A_TIME. lia.
  - exists (page_at pa_example bn). split; [|apply Hr; change (2 ^ 0) with 1; lia]. rewrite Hh. apply elem_of_app. left. change (Z.to_nat (2 ^ 0)) with 1%nat.
    rewrite /pages_from. cbn [seq fmap list_fmap rev app]. rewrite Z.add_0_r (page_at_env pa_example) //. by left.
Qed.
End example.
