(* ===== verification/Slab.v ===== *)
(** * The slab allocator: slab.c

    Per CPU, eight free lists of elements of 32 bytes to a page, carved out of pages of
    the global page allocator (PageAlloc.v), with malloc of the C library behind it.  A
    [struct zus_slab *] is the index of its CPU; the rings are carried as the lists they
    stand for. *)

From S2P Require Import Prelude CList PageAlloc.

Definition ZUS_BLOCK_SIZE : Z := PAGE_SIZE.
Definition ZUS_MIN_SLAB_SHIFT : Z := 5.
Definition ZUS_MIN_SLAB_SIZE : Z := Z.shiftl 1 ZUS_MIN_SLAB_SHIFT.
Definition ZUS_MAX_SLABS_PER_BLOCK : Z := ZUS_BLOCK_SIZE / ZUS_MIN_SLAB_SIZE.
Definition ZUS_SLAB_LISTS : Z := 12 - ZUS_MIN_SLAB_SHIFT + 1.
Definition ZUS_SLAB_NFREE_WANT : Z := 1024.

Record zus_slab_list := ZusSlabList { sl_head : list Z; nused : Z; nfree : Z; nfree_want : Z }.
(** [lists] maps an index to its list. *)
Record zus_slab := ZusSlab { lists : gmap Z zus_slab_list; cpu : Z; s_lock : bool }.
Definition upd_sl_head (g : list Z -> list Z) (l : zus_slab_list) : zus_slab_list :=
  ZusSlabList (g (sl_head l)) (nused l) (nfree l) (nfree_want l).
Definition upd_nused (g : Z -> Z) (l : zus_slab_list) : zus_slab_list :=
  ZusSlabList (sl_head l) (g (nused l)) (nfree l) (nfree_want l).
Definition upd_nfree (g : Z -> Z) (l : zus_slab_list) : zus_slab_list :=
  ZusSlabList (sl_head l) (nused l) (g (nfree l)) (nfree_want l).
Definition upd_nfree_want (g : Z -> Z) (l : zus_slab_list) : zus_slab_list :=
  ZusSlabList (sl_head l) (nused l) (nfree l) (g (nfree_want l)).

(** The global allocator.  [libc] holds the blocks of the C library that are live,
    [mem] the bytes of memory ([memset], [memcpy]). *)
Record zus_global_slab_allocator := Gsa {
  g_up : bool;
  g_pa : pa;
  nslabs : Z;
  slab : gmap Z zus_slab;
  libc : gset Z;
  mem : Z -> Z }.
Notation gsa := zus_global_slab_allocator.
Definition upd_up (f : bool -> bool) (g : gsa) : gsa := Gsa (f (g_up g)) (g_pa g) (nslabs g) (slab g) (libc g) (mem g).
Definition upd_pa (f : pa -> pa) (g : gsa) : gsa := Gsa (g_up g) (f (g_pa g)) (nslabs g) (slab g) (libc g) (mem g).
Definition upd_nslabs (f : Z -> Z) (g : gsa) : gsa := Gsa (g_up g) (g_pa g) (f (nslabs g)) (slab g) (libc g) (mem g).
Definition upd_slab (f : gmap Z zus_slab -> gmap Z zus_slab) (g : gsa) : gsa :=
  Gsa (g_up g) (g_pa g) (nslabs g) (f (slab g)) (libc g) (mem g).
Definition upd_libc (f : gset Z -> gset Z) (g : gsa) : gsa := Gsa (g_up g) (g_pa g) (nslabs g) (slab g) (f (libc g)) (mem g).
Definition upd_mem (f : (Z -> Z) -> Z -> Z) (g : gsa) : gsa := Gsa (g_up g) (g_pa g) (nslabs g) (slab g) (libc g) (f (mem g)).
Notation GS := (ST gsa).

(** The environment: the C library's allocator (0 is NULL), the CPU this thread runs
    on, and which spin locks other threads hold when [pthread_spin_trylock] is called. *)
Class SlabEnv : Type := {
  libc_malloc : gset Z -> Z -> Z;
  zus_current_cpu_silent : Z;
  busy : Z -> bool;
}.

Section slab.
Context `{PaEnv} `{SlabEnv}.

(** Calls of the page allocator. *)
Definition with_pa {A} (m : PA A) : GS A := zoom g_pa (fun p => upd_pa (fun _ => p)) m.

Definition _slab_lock (s : Z) : GS unit :=
  x ← load slab s; assert (negb (s_lock x));; update slab upd_slab s (fun x => ZusSlab (lists x) (cpu x) true).
Definition _slab_trylock (s : Z) : GS bool := if busy s then mret false else _slab_lock s;; mret true.
Definition _slab_unlock (s : Z) : GS unit := update slab upd_slab s (fun x => ZusSlab (lists x) (cpu x) false).

Definition get_list {A} (s k : Z) (f : zus_slab_list -> A) : GS A :=
  x ← load slab s; l ← of_option (lists x !! k); mret (f l).
Definition set_list (s k : Z) (f : zus_slab_list -> zus_slab_list) : GS unit :=
  x ← load slab s; l ← of_option (lists x !! k);
  update slab upd_slab s (fun x => ZusSlab (<[k := f l]> (lists x)) (cpu x) (s_lock x)).

(** ** Pages *)
Definition _page_set_slab (page slab_index cpu : Z) : PA unit :=
  set_page page (upd_use_count (fun _ => slab_index + 1));;
  set_page page (upd_slab_cpu (fun _ => Some cpu));;
  set_page page (upd_slab_uc (fun _ => Some 0)).
Definition _page_clear_slab (page : Z) : PA unit :=
  set_page page (upd_use_count (fun _ => 0));;
  set_page page (upd_slab_cpu (fun _ => Some 0));;
  set_page page (upd_slab_uc (fun _ => Some 0)).
Definition _page_slab_index (page : Z) : PA Z := get_page page (fun p => use_count p - 1).
Definition _page_slab_cpu (page : Z) : PA Z := o ← get_page page slab_cpu; of_option o.
Definition _page_slab_uc_inc (page : Z) : PA unit :=
  o ← get_page page slab_uc; n ← of_option o; set_page page (upd_slab_uc (fun _ => Some (n + 1))).
Definition _page_slab_uc_dec (page : Z) : PA Z :=
  o ← get_page page slab_uc; n ← of_option o; set_page page (upd_slab_uc (fun _ => Some (n - 1)));; mret (n - 1).

(** ** Elements *)
Definition new_list : zus_slab_list := ZusSlabList [] 0 0 ZUS_SLAB_NFREE_WANT.
Definition all_lists : gmap Z zus_slab_list := list_to_map ((fun i => (Z.of_nat i, new_list)) <$> seq 0 (Z.to_nat ZUS_SLAB_LISTS)).
Definition _slab_init (cpu : Z) : GS unit := modify (upd_slab (<[cpu := ZusSlab all_lists cpu false]>)).

Definition _slab_alloc_elem (s slab_index : Z) : GS (option Z) :=
  h ← get_list s slab_index sl_head;
  match h with
  | [] => mret None
  | se :: _ =>
    set_list s slab_index (upd_sl_head (remove1 se));;
    set_list s slab_index (upd_nfree (fun n => n - 1));;
    set_list s slab_index (upd_nused (fun n => n + 1));;
    mret (Some se)
  end.
Fixpoint link_elems (n : nat) (s k se step : Z) : GS unit :=
  match n with
  | O => mret tt
  | S m =>
    set_list s k (upd_sl_head (fun l => l ++ [se]));;
    set_list s k (upd_nfree (fun n => n + 1));;
    link_elems m s k (se + ZUS_MIN_SLAB_SIZE * step) step
  end.
Fixpoint unlink_elems (n : nat) (s k se step : Z) : GS unit :=
  match n with
  | O => mret tt
  | S m =>
    h ← get_list s k sl_head; assert (bool_decide (se ∈ h));;
    set_list s k (upd_sl_head (remove1 se));;
    set_list s k (upd_nfree (fun n => n - 1));;
    unlink_elems m s k (se + ZUS_MIN_SLAB_SIZE * step) step
  end.
Definition slabs_count (slab_index : Z) : Z := Z.shiftr ZUS_MAX_SLABS_PER_BLOCK slab_index.
Definition _slab_page_init (s page slab_index : Z) : GS unit :=
  x ← load slab s;
  with_pa (_page_set_slab page slab_index (cpu x));;
  se ← with_pa (pa_page_address page);
  link_elems (Z.to_nat (slabs_count slab_index)) s slab_index se (Z.shiftl 1 slab_index).
Definition _slab_page_fini (s page slab_index : Z) : GS unit :=
  se ← with_pa (pa_page_address page);
  unlink_elems (Z.to_nat (slabs_count slab_index)) s slab_index se (Z.shiftl 1 slab_index);;
  with_pa (_page_clear_slab page).

(** ** Allocation *)
Definition _slab_size_valid (size : Z) : bool := (0 <? size) && (size <=? ZUS_BLOCK_SIZE).
(** [__builtin_clz] of a positive 32-bit value. *)
Definition clz (x : Z) : Z := 31 - Z.log2 x.
Definition _slab_list_index (size : Z) : Z :=
  if size <=? ZUS_MIN_SLAB_SIZE then 0 else 32 - clz (u32 (Z.shiftr (size - 1) ZUS_MIN_SLAB_SHIFT)).
Definition _slab_check_list_index (slab_index : Z) : Z :=
  if (0 <=? slab_index) && (slab_index <? ZUS_SLAB_LISTS) then 0 else - EINVAL.
(** [slab->sbi] is the owner of the pages; its address does not matter here. *)
Definition _slab_increase (s slab_index : Z) : GS Z :=
  page ← with_pa (pa_alloc 0);
  match page with
  | None => mret (- ENOMEM)
  | Some p => _slab_page_init s p slab_index;; mret 0
  end.
Definition _slab_iscold (s size : Z) : GS bool :=
  let slab_index := _slab_list_index size in
  if negb (_slab_check_list_index slab_index =? 0) then mret false else
  f ← get_list s slab_index nfree; u ← get_list s slab_index nused; mret ((f =? 0) && (u =? 0)).
Definition _slab_list_empty (s size : Z) : GS bool :=
  let slab_index := _slab_list_index size in
  if negb (_slab_check_list_index slab_index =? 0) then mret true else
  f ← get_list s slab_index nfree; mret (f =? 0).
Definition _slab_alloc (s size : Z) : GS Z :=
  let slab_index := _slab_list_index size in
  e ← _slab_list_empty s size;
  err ← (if e : bool then _slab_increase s slab_index else mret 0);
  if negb (err =? 0) then mret 0 else
  se ← _slab_alloc_elem s slab_index;
  match se with
  | None => mret 0
  | Some se =>
    page ← with_pa (pa_virt_to_page se);
    with_pa (_page_slab_uc_inc page);;
    mret se
  end.

(** ** Freeing *)
Definition _slab_free_elem (s k se : Z) : GS unit :=
  set_list s k (upd_sl_head (fun l => l ++ [se]));;
  set_list s k (upd_nfree (fun n => n + 1));;
  set_list s k (upd_nused (fun n => n - 1)).
Definition __slab_free (s slab_index page addr : Z) : GS unit :=
  _slab_free_elem s slab_index addr;;
  uc ← with_pa (_page_slab_uc_dec page);
  if negb (uc =? 0) then mret tt else
  f ← get_list s slab_index nfree; w ← get_list s slab_index nfree_want;
  if f <? w then mret tt else
  _slab_page_fini s page slab_index;;
  with_pa (pa_put_page page);;
  mret tt.
Definition _slab_free (s addr : Z) : GS Z :=
  _slab_lock s;;
  page ← with_pa (pa_virt_to_page addr);
  slab_index ← with_pa (_page_slab_index page);
  err ← (if negb (_slab_check_list_index slab_index =? 0) then mret (- EINVAL)
         else __slab_free s slab_index page addr;; mret 0);
  _slab_unlock s;;
  mret err.

(** The loop of [_slab_fini] over one list takes a page off in each round: as fuel, the
    length of the list will do. *)
Fixpoint fini_list (fuel : nat) (s k : Z) : GS unit :=
  match fuel with
  | O => mret tt
  | S m =>
    h ← get_list s k sl_head;
    match h with
    | [] => mret tt
    | se :: _ =>
      page ← with_pa (pa_virt_to_page se);
      uc ← with_pa (o ← get_page page slab_uc; of_option o);
      if negb (uc =? 0) then mret tt else
      _slab_page_fini s page k;; with_pa (pa_put_page page);; fini_list m s k
    end
  end.
Fixpoint fini_lists (n : nat) (s k : Z) : GS unit :=
  match n with
  | O => mret tt
  | S m =>
    h ← get_list s k sl_head;
    fini_list (S (length h)) s k;;
    set_list s k (upd_nused (fun _ => 0));;
    set_list s k (upd_nfree_want (fun _ => 0));;
    fini_lists m s (k + 1)
  end.
Definition _slab_fini (s : Z) : GS unit := fini_lists (Z.to_nat ZUS_SLAB_LISTS) s 0.

(** ** The global allocator *)
Definition __pa_addr_inrange (addr : Z) : PA bool :=
  gets (fun p => (data_ptr p <=? addr) && (addr <? data_ptr p + pa_size p * PAGE_SIZE)).
Definition _zus_gsa_cpu_of (ptr : Z) : GS Z :=
  if ptr =? 0 then mret (-1) else
  if negb (Z.land ptr (Z.shiftl 1 ZUS_MIN_SLAB_SHIFT - 1) =? 0) then mret (-1) else
  ok ← with_pa (__pa_addr_inrange ptr);
  if negb ok then mret (-1) else
  page ← with_pa (pa_virt_to_page ptr);
  with_pa (_page_slab_cpu page).
Definition _zus_gsa_sslab_at (cpu index : Z) : GS Z := n ← gets nslabs; mret ((cpu + index) mod n).
(** NULL, a slab that is dereferenced, aborts. *)
Definition _slab_of_cpu (cpu : Z) : GS Z :=
  n ← gets nslabs; assert (negb ((cpu <? 0) || (n <=? cpu)));; mret cpu.
Fixpoint try_slabs (n : nat) (i cpu s size : Z) : GS (option Z * Z) :=
  match n with
  | O => mret (None, s)
  | S m =>
    ok ← _slab_trylock s;
    r ← (if ok : bool then
           e ← _slab_list_empty s size;
           if negb e then ptr ← _slab_alloc s size; _slab_unlock s;; mret (Some ptr)
           else _slab_unlock s;; mret None
         else mret None);
    match r with
    | Some ptr => mret (Some ptr, s)
    | None => s' ← _zus_gsa_sslab_at cpu (i + 1); try_slabs m (i + 1) cpu s' size
    end
  end.
Definition _zus_gsa_malloc (size : Z) : GS Z :=
  let cpu := zus_current_cpu_silent in
  s ← _slab_of_cpu cpu;
  cold ← _slab_iscold s size;
  n ← gets nslabs;
  r ← (if cold : bool then mret (None, s) else try_slabs (Z.to_nat n) 0 cpu s size);
  match r with
  | (Some ptr, _) => mret ptr
  | (None, s) => _slab_lock s;; ptr ← _slab_alloc s size; _slab_unlock s;; mret ptr
  end.
Definition _zus_gsa_free (ptr : Z) : GS unit :=
  cpu ← _zus_gsa_cpu_of ptr;
  if cpu <? 0 then mret tt else s ← _slab_of_cpu cpu; _slab_free s ptr;; mret tt.
(** A [size_t]: the error is a huge size. *)
Definition __elem_size (addr : Z) : GS Z :=
  page ← with_pa (pa_virt_to_page addr);
  slab_index ← with_pa (_page_slab_index page);
  if negb (_slab_check_list_index slab_index =? 0) then mret (u64 (- EINVAL))
  else mret (Z.shiftl 1 (slab_index + ZUS_MIN_SLAB_SHIFT)).

(** ** malloc and free *)
Definition libc_alloc (size : Z) : GS Z :=
  live ← gets libc;
  let p := libc_malloc live size in
  (if p =? 0 then mret tt else modify (upd_libc (fun l => {[p]} ∪ l)));; mret p.
Definition libc_free (p : Z) : GS unit :=
  live ← gets libc; assert (bool_decide (p ∈ live));; modify (upd_libc (fun l => l ∖ {[p]})).
Definition memset (p v n : Z) : GS unit :=
  modify (upd_mem (fun m a => if (p <=? a) && (a <? p + n) then v else m a)).
Definition memcpy (dst src n : Z) : GS unit :=
  modify (upd_mem (fun m a => if (dst <=? a) && (a <? dst + n) then m (src + (a - dst)) else m a)).

(** [posix_memalign] is the C library's allocator too. *)
Definition zus_malloc (size : Z) : GS Z :=
  up ← gets g_up;
  if negb up then mret 0 else
  if size =? 0 then mret 0 else
  if negb (_slab_size_valid size) then libc_alloc size else
  ptr ← _zus_gsa_malloc size;
  if ptr =? 0 then libc_alloc size else mret ptr.
Definition zus_free (ptr : Z) : GS unit :=
  up ← gets g_up;
  if negb up then mret tt else
  if ptr =? 0 then mret tt else
  cpu ← _zus_gsa_cpu_of ptr;
  if cpu <? 0 then libc_free ptr else _zus_gsa_free ptr.
Definition zus_calloc (nmemb elemsz : Z) : GS Z :=
  let size := u64 (nmemb * elemsz) in
  up ← gets g_up;
  if negb up then mret 0 else
  if negb (_slab_size_valid size) then
    ptr ← libc_alloc (nmemb * elemsz);
    (if ptr =? 0 then mret tt else memset ptr 0 (nmemb * elemsz));; mret ptr
  else
  ptr ← zus_malloc size;
  if ptr =? 0 then mret 0 else memset ptr 0 size;; mret ptr.
(** [libc_realloc] moves the block: a new one, the bytes, the old one freed. *)
Definition libc_realloc (ptr size : Z) : GS Z :=
  live ← gets libc;
  assert (bool_decide (ptr ∈ live));;
  p ← libc_alloc size;
  if p =? 0 then mret 0 else memcpy p ptr size;; libc_free ptr;; mret p.
Definition zus_realloc (ptr size : Z) : GS Z :=
  up ← gets g_up;
  if negb up then mret 0 else
  if ptr =? 0 then zus_malloc size else
  if size =? 0 then zus_free ptr;; mret 0 else
  cpu ← _zus_gsa_cpu_of ptr;
  let move :=
    newptr ← zus_malloc size;
    if newptr =? 0 then mret 0 else
    n ← __elem_size ptr; memcpy newptr ptr n;; zus_free ptr;; mret newptr in
  if cpu <? 0 then
    if negb (_slab_size_valid size) then libc_realloc ptr size else move
  else
    n ← __elem_size ptr;
    if size <=? n then mret ptr else move.
Definition zus_virt_to_page (addr : Z) : GS Z := with_pa (pa_virt_to_page addr).
Definition zus_page_address (page : Z) : GS Z := with_pa (pa_page_address page).
Definition zus_alloc_page (zero : bool) : GS Z :=
  ptr ← zus_malloc PAGE_SIZE;
  if ptr =? 0 then mret 0 else
  (if zero then memset ptr 0 PAGE_SIZE else mret tt);; zus_virt_to_page ptr.
Definition zus_free_page (page : Z) : GS unit :=
  cpu ← with_pa (_page_slab_cpu page);
  if cpu <? 0 then mret tt else
  s ← _slab_of_cpu cpu; addr ← with_pa (pa_page_address page); _slab_free s addr;; mret tt.

(** ** Setup *)
Fixpoint init_slabs (n : nat) (cpu : Z) : GS unit :=
  match n with O => mret tt | S m => _slab_init cpu;; init_slabs m (cpu + 1) end.
(** [err_mem] and [err_lock] are what [posix_memalign] and [pthread_spin_init] answer,
    the rest is for [pa_init]. *)
Definition zus_slab_init (nprocs err_mem err_lock pa_err : Z) (data pages : Z + Z) : GS Z :=
  up ← gets g_up;
  if up : bool then mret (- EINVAL) else
  if negb (err_mem =? 0) then mret err_mem else
  modify (upd_nslabs (fun _ => nprocs));;
  modify (upd_slab (fun _ => ∅));;
  if negb (err_lock =? 0) then mret err_lock else
  init_slabs (Z.to_nat nprocs) 0;;
  err ← with_pa (pa_init pa_err data pages);
  if negb (err =? 0) then mret err else modify (upd_up (fun _ => true));; mret 0.
Fixpoint fini_slabs (n : nat) (cpu : Z) : GS unit :=
  match n with O => mret tt | S m => _slab_fini cpu;; fini_slabs m (cpu + 1) end.
(** The pages that leaked, which [pa_fini] reports. *)
Definition zus_slab_fini : GS Z :=
  up ← gets g_up;
  if negb up then mret 0 else
  modify (upd_up (fun _ => false));;
  n ← gets nslabs;
  fini_slabs (Z.to_nat n) 0;;
  with_pa pa_fini.
End slab.
