(* ===== verification/SlabInv.v ===== *)
(** * The invariant of the slab allocator

    [slab_ok g U]: the elements of the slab pages are in use ([U]) or on the ring of
    their list, each once; the counters count them. *)

From S2P Require Import Prelude CList PageAlloc PageSpec Slab.

(** ** Sizes *)
Definition elem_size (k : Z) : Z := ZUS_MIN_SLAB_SIZE * 2 ^ k.
Definition list_index_ok (k : Z) : Prop := 0 <= k < ZUS_SLAB_LISTS.
Lemma index_cases k : list_index_ok k -> k = 0 \/ k = 1 \/ k = 2 \/ k = 3 \/ k = 4 \/ k = 5 \/ k = 6 \/ k = 7.
Proof. rewrite /list_index_ok /ZUS_SLAB_LISTS /ZUS_MIN_SLAB_SHIFT. lia. Qed.
Ltac index k Hk := destruct (index_cases k Hk) as [->|[->|[->|[->|[->|[->|[->| ->]]]]]]].
Lemma elems_fill k : list_index_ok k -> 0 < elem_size k /\ 0 < slabs_count k /\ elem_size k * slabs_count k = PAGE_SIZE.
Proof. intros Hk. index k Hk; by split_and!. Qed.
Lemma check_index k : (_slab_check_list_index k =? 0) = true <-> list_index_ok k.
Proof.
  rewrite /_slab_check_list_index /list_index_ok. destruct (Z.leb_spec 0 k), (Z.ltb_spec k ZUS_SLAB_LISTS); cbn [andb];
    (split; [intros E; (lia || discriminate E)|intros; (done || lia)]).
Qed.

(** The size class: the smallest that the block fits. *)
Lemma list_index_spec size : 0 < size <= ZUS_BLOCK_SIZE ->
  let k := _slab_list_index size in
  list_index_ok k /\ size <= elem_size k /\ (k = 0 \/ elem_size (k - 1) < size).
Proof.
  intros Hs. change ZUS_BLOCK_SIZE with 4096 in Hs. unfold _slab_list_index. change ZUS_MIN_SLAB_SIZE with 32.
  destruct (Z.leb_spec size 32) as [Hle|Hgt]; [split_and!; (done || lia || (cbn; lia))|].
  rewrite Z.shiftr_div_pow2 //. change (2 ^ ZUS_MIN_SLAB_SHIFT) with 32. set (x := (size - 1) / 32).
  assert (Hx : 32 * x <= size - 1 < 32 * x + 32) by (pose proof (Z.div_mod (size - 1) 32 ltac:(done)); pose proof (Z.mod_pos_bound (size - 1) 32 ltac:(done)); subst x; lia).
  rewrite u32_small; [lia|]. rewrite /clz. pose proof (Z.log2_spec x ltac:(lia)) as Hl.
  assert (Hlog : 0 <= Z.log2 x < 7).
  { split; [apply Z.log2_nonneg|]. apply Z.log2_lt_pow2; lia. }
  set (k := Z.log2 x) in *. replace (32 - (31 - k)) with (Z.succ k) by lia. rewrite /list_index_ok /ZUS_SLAB_LISTS /ZUS_MIN_SLAB_SHIFT /elem_size.
  change ZUS_MIN_SLAB_SIZE with 32. split; [lia|]. replace (Z.succ k - 1) with k by lia. split; [lia|]. right. lia.
Qed.

Section inv.
Context `{PaEnv} `{SlabEnv}.
Implicit Types (g : gsa) (U : gset Z).

(** ** Views of the state *)
Definition the_list g (s k : Z) : option zus_slab_list := slab g !! s ≫= fun x => lists x !! k.
Definition cpu_of g (s : Z) : option Z := cpu <$> slab g !! s.
Definition lock_of g (s : Z) : option bool := s_lock <$> slab g !! s.
Definition pd g (bn : Z) : pa_page := desc (g_pa g) (page_at (g_pa g) bn).
Definition base g (bn : Z) : Z := data_ptr (g_pa g) + bn * PAGE_SIZE.
Definition elems_from (a k : Z) (n : nat) : list Z := (fun j => a + elem_size k * Z.of_nat j) <$> seq 0 n.
Definition elems g (bn k : Z) : list Z := elems_from (base g bn) k (Z.to_nat (slabs_count k)).
(** The page [bn] belongs to list [k] of slab [s]. *)
Definition slab_page g (bn s k : Z) : Prop :=
  0 <= bn < pa_size (g_pa g) /\ list_index_ok k /\ refcount (pd g bn) = 1 /\ use_count (pd g bn) = k + 1 /\
  slab_cpu (pd g bn) = Some s.
Definition uses g U (bn k : Z) : Z := Z.of_nat (length (filter (.∈ U) (elems g bn k))).

Record slab_ok g U : Prop := {
  so_pa : pa_inv (g_pa g);
  so_slabs s : 0 <= s < nslabs g -> cpu_of g s = Some s /\ forall k, list_index_ok k -> is_Some (the_list g s k);
  so_list s k l : the_list g s k = Some l -> NoDup (sl_head l) /\ nfree l = Z.of_nat (length (sl_head l)) /\
    forall e, e ∈ sl_head l <-> exists bn, slab_page g bn s k /\ e ∈ elems g bn k /\ e ∉ U;
  so_page bn s k : slab_page g bn s k -> 0 <= s < nslabs g /\ slab_uc (pd g bn) = Some (uses g U bn k);
  so_used e : e ∈ U -> exists bn s k, slab_page g bn s k /\ e ∈ elems g bn k;
}.
Definition unlocked g : Prop := forall s b, lock_of g s = Some b -> b = false.
Definition slab_inv g U : Prop := slab_ok g U /\ unlocked g.

(** ** Elements of a page *)
Lemma elems_from_S a k n : elems_from a k (S n) = a :: elems_from (a + elem_size k) k n.
Proof.
  rewrite /elems_from. cbn [seq]. rewrite fmap_cons Z.mul_0_r Z.add_0_r. f_equal.
  rewrite -fmap_S_seq -list_fmap_compose. apply list_fmap_ext. intros i x _. cbn [compose]. rewrite Nat2Z.inj_succ. cbn. lia.
Qed.
Lemma elem_of_elems g bn k e : list_index_ok k ->
  e ∈ elems g bn k <-> exists j, 0 <= j < slabs_count k /\ e = base g bn + elem_size k * j.
Proof.
  intros Hk. destruct (elems_fill k Hk) as (_&Hc&_). rewrite /elems /elems_from list_elem_of_fmap. split.
  - intros (j&->&Hj%elem_of_seq). exists (Z.of_nat j). split; [lia|done].
  - intros (j&Hj&->). exists (Z.to_nat j). rewrite Z2Nat.id; [lia|]. split; [done|]. apply elem_of_seq. lia.
Qed.
Lemma elems_NoDup g bn k : list_index_ok k -> NoDup (elems g bn k).
Proof.
  intros Hk. destruct (elems_fill k Hk) as (Hp&_). apply NoDup_fmap_2_strong; [|apply NoDup_seq].
  intros i j _ _ E. apply Nat2Z.inj. nia.
Qed.
Lemma elem_bounds g bn k e : list_index_ok k -> e ∈ elems g bn k ->
  base g bn <= e /\ e + elem_size k <= base g bn + PAGE_SIZE.
Proof.
  intros Hk. rewrite elem_of_elems //. intros (j&Hj&->). destruct (elems_fill k Hk) as (Hp&Hc&Hf). nia.
Qed.
Lemma elem_page g bn bn' k k' e : list_index_ok k -> list_index_ok k' ->
  e ∈ elems g bn k -> e ∈ elems g bn' k' -> bn = bn'.
Proof.
  intros Hk Hk' H1%elem_bounds H2%elem_bounds; [|done..].
  destruct (elems_fill k Hk) as (?&_), (elems_fill k' Hk') as (?&_). rewrite /base in H1, H2. lia.
Qed.
Lemma slab_page_inj g bn s k s' k' : slab_page g bn s k -> slab_page g bn s' k' -> s' = s /\ k' = k.
Proof. intros (_&_&_&Hk&Hs) (_&_&_&Hk'&Hs'). split; [|lia]. rewrite Hs in Hs'. by injection Hs'. Qed.
Lemma wp_elem_page g bn k e (Q : Z -> pa -> Prop) : list_index_ok k -> 0 <= bn < pa_size (g_pa g) ->
  e ∈ elems g bn k -> Q (page_at (g_pa g) bn) (g_pa g) -> wp (pa_virt_to_page e) (g_pa g) Q.
Proof.
  intros Hk Hb [H1 H2]%elem_bounds HQ; [|done]. destruct (elems_fill k Hk) as (Hp&_). rewrite /base in H1, H2.
  rewrite /pa_virt_to_page /_pa_valid_addr. do 2 wp_step.
  destruct (Z.ltb_spec e (data_ptr (g_pa g))); [lia|]. destruct (Z.leb_spec (data_ptr (g_pa g) + pa_size (g_pa g) * PAGE_SIZE) e); [nia|].
  cbn [orb negb]. do 2 wp_step. rewrite /pa_bn_to_page. wp_step.
  replace ((e - data_ptr (g_pa g)) / PAGE_SIZE) with bn; [done|].
  apply (Z.div_unique _ _ _ (e - data_ptr (g_pa g) - PAGE_SIZE * bn)); lia.
Qed.

(** Distinct blocks in use do not overlap. *)
Lemma slab_blocks_apart g U bn k e bn' k' e' s s' :
  slab_page g bn s k -> slab_page g bn' s' k' -> e ∈ elems g bn k -> e' ∈ elems g bn' k' -> e <> e' ->
  e + elem_size k <= e' \/ e' + elem_size k' <= e.
Proof.
  intros Hp Hp' He He' Hne. pose proof Hp as (_&Hk&_). pose proof Hp' as (_&Hk'&_).
  pose proof (elem_bounds g bn k e Hk He) as B. pose proof (elem_bounds g bn' k' e' Hk' He') as B'. rewrite /base in B, B'.
  destruct (decide (bn = bn')) as [->|Hb]; [|destruct (decide (bn < bn')); [left|right]; nia].
  destruct (slab_page_inj _ _ _ _ _ _ Hp Hp') as [-> ->].
  apply elem_of_elems in He as (j&Hj&->); [|done]. apply elem_of_elems in He' as (j'&Hj'&->); [|done].
  destruct (elems_fill k Hk) as (Hpos&_). assert (j <> j') by (intros ->; done).
  destruct (decide (j < j')); [left|right]; nia.
Qed.

(** ** Counting the elements in use *)
Lemma filter_used_add U e (l : list Z) : e ∉ U -> NoDup l ->
  length (filter (.∈ {[e]} ∪ U) l) = (if decide (e ∈ l) then 1 + length (filter (.∈ U) l) else length (filter (.∈ U) l))%nat.
Proof.
  intros He. induction l as [|x l IH]; intros Hnd; [case_decide as E; [by apply elem_of_nil in E|done]|].
  apply NoDup_cons in Hnd as [Hx Hnd]. specialize (IH Hnd). rewrite !filter_cons.
  destruct (decide (x = e)) as [->|Hne].
  - destruct (decide (e ∈ {[e]} ∪ U)) as [_|E1]; [|exfalso; apply E1; set_solver +].
    destruct (decide (e ∈ U)) as [E2|_]; [done|]. destruct (decide (e ∈ e :: l)) as [_|E3]; [|exfalso; apply E3; constructor].
    cbn [length]. rewrite IH. by case_decide.
  - assert (E1 : x ∈ {[e]} ∪ U <-> x ∈ U) by set_solver. assert (E2 : e ∈ x :: l <-> e ∈ l) by (rewrite elem_of_cons; naive_solver).
    destruct (decide (x ∈ {[e]} ∪ U)), (decide (x ∈ U)), (decide (e ∈ x :: l)), (decide (e ∈ l)); cbn [length];
      first [tauto|rewrite IH; lia].
Qed.
Lemma uses_add g U bn k e : list_index_ok k -> e ∉ U ->
  uses g ({[e]} ∪ U) bn k = if decide (e ∈ elems g bn k) then uses g U bn k + 1 else uses g U bn k.
Proof.
  intros Hk He. rewrite /uses filter_used_add //; [by apply elems_NoDup|]. case_decide; lia.
Qed.
Lemma uses_remove g U bn k e : list_index_ok k -> e ∈ U ->
  uses g (U ∖ {[e]}) bn k = if decide (e ∈ elems g bn k) then uses g U bn k - 1 else uses g U bn k.
Proof.
  intros Hk He. assert (E : U = {[e]} ∪ U ∖ {[e]}) by (apply leibniz_equiv, set_equiv; intros x; destruct (decide (x = e)); set_solver).
  rewrite {2 3}E uses_add //; [set_solver +|]. case_decide; lia.
Qed.
Lemma uses_nil g U bn k : uses g U bn k = 0 -> forall e, e ∈ elems g bn k -> e ∉ U.
Proof.
  rewrite /uses => E e He Hu. assert (Hf : filter (.∈ U) (elems g bn k) = []) by (apply nil_length_inv; lia).
  assert (Hin : e ∈ filter (.∈ U) (elems g bn k)) by (by apply list_elem_of_filter). rewrite Hf in Hin. by apply elem_of_nil in Hin.
Qed.
End inv.
