(* ===== verification/SlabSpec.v ===== *)
(** * The slab lists keep the invariant

    The steps of slab.c under one slab's lock: growing a list by a page, taking an
    element, giving it back, and returning a page. *)

From S2P Require Import Prelude CList PageAlloc PageSpec Slab SlabInv.

(** The invariant of the pages does not look at the fields the slabs use. *)
Lemma pa_inv_meta `{PaEnv} (p : pa) bn f :
  pa_inv p -> 0 <= bn < pa_size p -> (forall d, refcount (f d) = refcount d) -> pa_inv (set_desc p (page_at p bn) f).
Proof.
  intros [Hl Hok] Hb Hf. split; [done|]. pose proof Hok as [Hs0 Hch Hfit Hnd Hfree Hfresh]. set (p' := set_desc _ _ _).
  assert (Hd : forall k, refcount (desc p' (page_at p k)) = refcount (desc p (page_at p k))).
  { intros k. rewrite /p' desc_set. case_decide as E; [by rewrite Hf E|done]. }
  split; try done.
  - intros q. change (pa_head p') with (pa_head p). rewrite Hfree. apply exist_proper. intros k. rewrite /is_free.
    change (page_at p' k) with (page_at p k). by rewrite Hd.
  - intros k Hk. change (page_at p' k) with (page_at p k). change (pa_size p') with (pa_size p) in Hk. rewrite /p' desc_set.
    case_decide as E; [apply page_at_inj in E; lia|]. by apply Hfresh.
Qed.

Section spec.
Context `{PaEnv} `{SlabEnv}.
Implicit Types (g : gsa) (U : gset Z).

Lemma wp_with_pa {A} (m : PA A) g (Q : A -> gsa -> Prop) :
  wp m (g_pa g) (fun a p => Q a (upd_pa (fun _ => p) g)) -> wp (with_pa m) g Q.
Proof. intros Hm. rewrite /with_pa. by apply wp_zoom. Qed.

(** ** One list changed *)
Definition with_list g (s k : Z) (l : zus_slab_list) : gsa :=
  upd_slab (alter (fun x => ZusSlab (<[k := l]> (lists x)) (cpu x) (s_lock x)) s) g.
Lemma the_list_with g s k l l' s' k' : the_list g s k = Some l ->
  the_list (with_list g s k l') s' k' = if decide (s' = s /\ k' = k) then Some l' else the_list g s' k'.
Proof.
  intros Hl. rewrite /the_list /with_list /upd_slab /=. destruct (decide (s' = s)) as [->|Hs].
  - rewrite lookup_alter_eq. rewrite /the_list in Hl. destruct (slab g !! s) as [x|]; [|done]. cbn.
    rewrite lookup_insert. repeat case_decide; naive_solver.
  - rewrite lookup_alter_ne; [by apply not_eq_sym|]. case_decide; [tauto|done].
Qed.
Lemma cpu_of_with g s k l s' : cpu_of (with_list g s k l) s' = cpu_of g s' /\ lock_of (with_list g s k l) s' = lock_of g s'.
Proof.
  rewrite /cpu_of /lock_of /with_list /upd_slab /=. destruct (decide (s' = s)) as [->|Hs].
  - rewrite lookup_alter_eq. by destruct (slab g !! s).
  - by rewrite lookup_alter_ne; [apply not_eq_sym|].
Qed.
Lemma with_list_twice g s k l l' : with_list (with_list g s k l) s k l' = with_list g s k l'.
Proof.
  destruct g. rewrite /with_list /upd_slab /=. f_equal. apply map_eq. intros i.
  destruct (decide (i = s)) as [->|Hi]; [rewrite !lookup_alter_eq -option_fmap_compose|by rewrite !lookup_alter_ne].
  apply option_fmap_ext. intros x. cbn. by rewrite insert_insert_eq.
Qed.
Lemma wp_get_list {A} g s k l (f : zus_slab_list -> A) (Q : A -> gsa -> Prop) :
  the_list g s k = Some l -> Q (f l) g -> wp (get_list s k f) g Q.
Proof.
  intros Hl HQ. rewrite /the_list in Hl. destruct (slab g !! s) as [x|] eqn:Ex; [|done]. cbn in Hl.
  rewrite /get_list. wp_step. wp_step; [exact Ex|]. by rewrite Hl.
Qed.
Lemma wp_set_list g s k l f (Q : unit -> gsa -> Prop) :
  the_list g s k = Some l -> Q tt (with_list g s k (f l)) -> wp (set_list s k f) g Q.
Proof.
  intros Hl HQ. rewrite /the_list in Hl. destruct (slab g !! s) as [x|] eqn:Ex; [|done]. cbn in Hl.
  rewrite /set_list. wp_step. wp_step; [exact Ex|]. rewrite Hl. cbn [of_option]. do 2 wp_step. wp_step; [exact Ex|].
  rewrite /with_list /upd_slab in HQ. rewrite /upd_slab. cbn beta.
  replace (<[s:=_]> (slab g)) with (alter (fun x => ZusSlab (<[k := f l]> (lists x)) (cpu x) (s_lock x)) s (slab g)); [done|].
  apply map_eq. intros i. rewrite lookup_insert. destruct (decide (i = s)) as [->|Hi].
  - rewrite lookup_alter_eq Ex. by case_decide.
  - rewrite lookup_alter_ne; [by apply not_eq_sym|]. case_decide; [congruence|done].
Qed.

(** ** One descriptor changed *)
Definition set_pd g (bn : Z) (f : pa_page -> pa_page) : gsa :=
  upd_pa (fun p => set_desc p (page_at p bn) f) g.
Lemma pd_set g bn f b : pd (set_pd g bn f) b = if decide (b = bn) then f (pd g bn) else pd g b.
Proof.
  rewrite /pd /set_pd /upd_pa /=. change (page_at (set_desc (g_pa g) _ f) b) with (page_at (g_pa g) b). rewrite desc_set.
  destruct (decide (page_at (g_pa g) b = page_at (g_pa g) bn)) as [->%page_at_inj|Hne]; [by case_decide|].
  case_decide as E; [by subst b|done].
Qed.
Lemma wp_set_pd g bn f (Q : unit -> gsa -> Prop) :
  pa_inv (g_pa g) -> 0 <= bn < pa_size (g_pa g) -> Q tt (set_pd g bn f) ->
  wp (set_page (page_at (g_pa g) bn) f) (g_pa g) (fun a p => Q a (upd_pa (fun _ => p) g)).
Proof.
  intros [_ Hok] Hb HQ. pose proof (size_max _ Hok). apply wp_set_page; [apply in_mapping_at; lia|done].
Qed.
Lemma slab_page_set g bn f b s k :
  (forall d, refcount (f d) = refcount d /\ use_count (f d) = use_count d /\ slab_cpu (f d) = slab_cpu d) ->
  slab_page (set_pd g bn f) b s k <-> slab_page g b s k.
Proof.
  intros Hf. rewrite /slab_page pd_set. case_decide as E; [|done]. subst b.
  destruct (Hf (pd g bn)) as (->&->&->). done.
Qed.

Lemma uses_ext g U U' bn k : (forall e, e ∈ elems g bn k -> e ∈ U' <-> e ∈ U) -> uses g U' bn k = uses g U bn k.
Proof.
  rewrite /uses. intros HU. do 2 f_equal. induction (elems g bn k) as [|x l IH]; [done|].
  rewrite !filter_cons. rewrite IH; [intros e He; apply HU; by constructor|].
  destruct (HU x ltac:(constructor)). by repeat case_decide; try tauto.
Qed.

(** ** Moving elements between the ring and the users *)
Lemma slab_ok_switch g U U' bn s k l l' :
  slab_ok g U -> slab_page g bn s k -> the_list g s k = Some l ->
  NoDup (sl_head l') -> nfree l' = Z.of_nat (length (sl_head l')) ->
  (forall e, e ∈ sl_head l' <-> exists b, slab_page g b s k /\ e ∈ elems g b k /\ e ∉ U') ->
  (forall e, e ∉ elems g bn k -> e ∈ U' <-> e ∈ U) ->
  slab_ok (set_pd (with_list g s k l') bn (upd_slab_uc (fun _ => Some (uses g U' bn k)))) U'.
Proof.
  intros [Hpa Hslabs Hlist Hpage Hused] Hp Hl Hnd Hn Hhead HU. set (g' := set_pd _ _ _).
  assert (Hsp : forall b s k, slab_page g' b s k <-> slab_page g b s k) by (intros; by apply (slab_page_set (with_list g s k l'))).
  assert (Hpd : forall b, pd g' b = if decide (b = bn) then upd_slab_uc (fun _ => Some (uses g U' bn k)) (pd g bn) else pd g b)
    by (intros; by apply (pd_set (with_list g s k l'))).
  assert (Hel : forall b k, elems g' b k = elems g b k) by done.
  pose proof Hp as (Hb&Hk&_).
  assert (Hout : forall b s' k', slab_page g b s' k' -> b <> bn -> forall e, e ∈ elems g b k' -> e ∈ U' <-> e ∈ U).
  { intros b s' k' (_&Hk'&_) Hne e He. apply HU. intros He'. apply Hne. by apply (elem_page g b bn k' k e). }
  split.
  - by apply pa_inv_meta.
  - intros s' Hs'. destruct (Hslabs s' Hs') as [H1 H2]. split; [by rewrite -H1; apply cpu_of_with|].
    intros k' Hk'. change (the_list g' s' k') with (the_list (with_list g s k l') s' k'). rewrite (the_list_with g s k l) //.
    case_decide; [by eexists|by apply H2].
  - intros s' k' l0 Hl0. change (the_list g' s' k') with (the_list (with_list g s k l') s' k') in Hl0.
    rewrite (the_list_with g s k l) // in Hl0. case_decide as E.
    + destruct E as [-> ->]. injection Hl0 as <-. split; [done|]. split; [done|]. intros e. rewrite Hhead.
      apply exist_proper. intros b. by rewrite Hsp Hel.
    + destruct (Hlist s' k' l0 Hl0) as (H1&H2&H3). split; [done|]. split; [done|]. intros e. rewrite H3.
      apply exist_proper. intros b. rewrite Hsp Hel. split; intros (Hpb&He&Hnu); (split; [done|split; [done|]]);
        [rewrite (Hout b s' k' Hpb)|rewrite -(Hout b s' k' Hpb)]; try done;
        intros ->; apply E; destruct (slab_page_inj _ _ _ _ _ _ Hp Hpb) as [-> ->]; done.
  - intros b s' k' Hpb%Hsp. destruct (Hpage b s' k' Hpb) as [H1 H2]. split; [done|]. rewrite Hpd. case_decide as E.
    + subst b. destruct (slab_page_inj _ _ _ _ _ _ Hp Hpb) as [-> ->]. done.
    + rewrite H2. f_equal. symmetry. apply (uses_ext g U U'). by eapply Hout.
  - intros e He. destruct (decide (e ∈ elems g bn k)) as [Hin|Hin].
    + exists bn, s, k. by rewrite Hsp Hel.
    + apply HU in He; [|done]. destruct (Hused e He) as (b&s'&k'&?&?). exists b, s', k'. by rewrite Hsp Hel.
Qed.

(** ** Linking and unlinking the elements of a page *)
Lemma with_list_id g s k l : the_list g s k = Some l -> with_list g s k l = g.
Proof.
  rewrite /the_list. intros Hl. destruct g as [up p n sl lc m]. rewrite /with_list /upd_slab /=. cbn in Hl. f_equal.
  apply map_eq. intros i. destruct (decide (i = s)) as [->|Hi]; [|by rewrite lookup_alter_ne].
  rewrite lookup_alter_eq. destruct (sl !! s) as [[ls c b]|]; [|done]. cbn in Hl |- *. by rewrite insert_id.
Qed.
Lemma the_list_with_eq g s k l l' : the_list g s k = Some l -> the_list (with_list g s k l') s k = Some l'.
Proof. intros Hl. rewrite (the_list_with g s k l) //. by case_decide; [|tauto]. Qed.
Lemma elem_step k a : a + ZUS_MIN_SLAB_SIZE * 2 ^ k = a + elem_size k.
Proof. done. Qed.
Lemma wp_link_elems n : forall g s k a l (Q : unit -> gsa -> Prop),
  the_list g s k = Some l ->
  (forall l', sl_head l' = sl_head l ++ elems_from a k n -> nfree l' = nfree l + Z.of_nat n -> nused l' = nused l ->
     nfree_want l' = nfree_want l -> Q tt (with_list g s k l')) ->
  wp (link_elems n s k a (2 ^ k)) g Q.
Proof.
  induction n as [|n IH]; intros g s k a l Q Hl HQ; cbn [link_elems].
  { wp_step. rewrite -(with_list_id g s k l Hl). apply HQ; [by rewrite app_nil_r|lia|done|done]. }
  wp_step. eapply wp_set_list; [exact Hl|]. wp_step. eapply wp_set_list; [by eapply the_list_with_eq|].
  rewrite with_list_twice elem_step. eapply IH; [by eapply the_list_with_eq|]. intros l' E1 E2 E3 E4.
  rewrite with_list_twice. apply HQ; [|cbn in E2; lia|done|done]. by rewrite E1 elems_from_S /= -app_assoc.
Qed.
Lemma wp_unlink_elems n : forall g s k a l (Q : unit -> gsa -> Prop),
  the_list g s k = Some l -> NoDup (sl_head l) -> nfree l = Z.of_nat (length (sl_head l)) ->
  (forall e, e ∈ elems_from a k n -> e ∈ sl_head l) -> NoDup (elems_from a k n) ->
  (forall l', NoDup (sl_head l') -> nfree l' = Z.of_nat (length (sl_head l')) ->
     (forall e, e ∈ sl_head l' <-> e ∈ sl_head l /\ e ∉ elems_from a k n) -> Q tt (with_list g s k l')) ->
  wp (unlink_elems n s k a (2 ^ k)) g Q.
Proof.
  induction n as [|n IH]; intros g s k a l Q Hl Hnd Hn Hin Hnde HQ; cbn [unlink_elems].
  { wp_step. rewrite -(with_list_id g s k l Hl). apply HQ; [done|done|]. intros e. split; [|tauto].
    intros He. split; [done|]. by intros ?%elem_of_nil. }
  rewrite elems_from_S in Hin, Hnde. apply NoDup_cons in Hnde as [Ha Hnde].
  assert (Hah : a ∈ sl_head l) by (apply Hin; constructor).
  wp_step. eapply wp_get_list; [exact Hl|]. do 2 wp_step; [by apply bool_decide_eq_true_2|].
  wp_step. eapply wp_set_list; [exact Hl|]. wp_step. eapply wp_set_list; [by eapply the_list_with_eq|].
  rewrite with_list_twice elem_step. eapply IH; [by eapply the_list_with_eq|by apply NoDup_remove1| | |done|].
  - cbn. rewrite Hn (length_remove1 a (sl_head l)) //. lia.
  - intros e He. cbn. apply elem_of_remove1; [done|]. split; [apply Hin; by constructor|]. by intros ->.
  - intros l' E1 E2 E3. rewrite with_list_twice. apply HQ; [done|done|]. intros e. rewrite E3 elems_from_S elem_of_cons. cbn.
    rewrite elem_of_remove1 //. naive_solver.
Qed.

(** ** Pages *)
Lemma slab_ok_pa g U p' :
  slab_ok g U -> pa_inv p' -> data_ptr p' = data_ptr (g_pa g) ->
  (forall bn s k, slab_page (upd_pa (fun _ => p') g) bn s k <-> slab_page g bn s k) ->
  (forall bn s k, slab_page g bn s k -> slab_uc (desc p' (page_at p' bn)) = slab_uc (pd g bn)) ->
  slab_ok (upd_pa (fun _ => p') g) U.
Proof.
  intros [Hpa Hslabs Hlist Hpage Hused] Hinv Hd Hsp Huc. set (g' := upd_pa _ g).
  assert (Hel : forall b k, elems g' b k = elems g b k) by (intros; by rewrite /elems /base /g' /= Hd).
  split; [done|done| | |].
  - intros s k l Hl. destruct (Hlist s k l Hl) as (H1&H2&H3). split; [done|]. split; [done|]. intros e. rewrite H3.
    apply exist_proper. intros b. by rewrite Hsp Hel.
  - intros b s k Hb%Hsp. destruct (Hpage b s k Hb) as [H1 H2]. split; [done|]. rewrite /uses Hel. rewrite -/(uses g U b k) -H2.
    by eapply Huc.
  - intros e He. destruct (Hused e He) as (b&s&k&?&?). exists b, s, k. by rewrite Hsp Hel.
Qed.

Definition init_slab_desc (s k : Z) (d : pa_page) : pa_page :=
  upd_slab_uc (fun _ => Some 0) (upd_slab_cpu (fun _ => Some s) (upd_use_count (fun _ => k + 1) d)).
Definition clear_slab_desc (d : pa_page) : pa_page :=
  upd_slab_uc (fun _ => Some 0) (upd_slab_cpu (fun _ => Some 0) (upd_use_count (fun _ => 0) d)).
Lemma slab_ok_page_init g U bn s k l l' :
  slab_ok g U -> 0 <= bn < pa_size (g_pa g) -> refcount (pd g bn) = 1 -> slab_cpu (pd g bn) = None ->
  0 <= s < nslabs g -> list_index_ok k -> the_list g s k = Some l ->
  sl_head l' = sl_head l ++ elems g bn k -> nfree l' = nfree l + Z.of_nat (Z.to_nat (slabs_count k)) ->
  slab_ok (with_list (set_pd g bn (init_slab_desc s k)) s k l') U /\
  slab_page (with_list (set_pd g bn (init_slab_desc s k)) s k l') bn s k.
Proof.
  intros [Hpa Hslabs Hlist Hpage Hused] Hb Hr Hc Hs Hk Hl Eh Ef. set (g1 := set_pd g bn _). set (g' := with_list g1 s k l').
  assert (Hl1 : the_list g1 s k = Some l) by exact Hl.
  assert (Hpd : forall b, pd g' b = if decide (b = bn) then init_slab_desc s k (pd g bn) else pd g b) by (intros; by apply pd_set).
  assert (Hel : forall b k, elems g' b k = elems g b k) by done.
  assert (Hraw : forall s' k', ~ slab_page g bn s' k') by (intros s' k' (_&_&_&_&E); by rewrite Hc in E).
  assert (Hsp : forall b s' k', slab_page g' b s' k' <-> (b = bn /\ s' = s /\ k' = k) \/ slab_page g b s' k').
  { intros b s' k'. rewrite /slab_page Hpd. change (pa_size (g_pa g')) with (pa_size (g_pa g)). case_decide as E.
    - subst b. cbn. split.
      + intros (_&_&_&E1&E2). left. injection E2 as ->. split_and!; [done|done|lia].
      + intros [(_&->&->)|Hbad]; [by rewrite Hr|]. by apply Hraw in Hbad.
    - split; [by right|]. intros [(->&_)|?]; done. }
  assert (Hno : forall e, e ∈ elems g bn k -> e ∉ U).
  { intros e He Hu. destruct (Hused e Hu) as (b&s'&k'&Hp&He'). pose proof Hp as (_&Hk'&_).
    assert (bn = b) as <- by (by apply (elem_page g bn b k k' e)). by apply Hraw in Hp. }
  assert (Hnew : forall e, e ∈ elems g bn k -> e ∉ sl_head l).
  { intros e He Hh. destruct (Hlist s k l Hl) as (_&_&H3). apply H3 in Hh as (b&Hp&He'&_). pose proof Hp as (_&Hk'&_).
    assert (bn = b) as <- by (by apply (elem_page g bn b k k e)). by apply Hraw in Hp. }
  assert (Hpage' : slab_page g' bn s k) by (apply Hsp; by left).
  split; [|exact Hpage']. split.
  - by apply (pa_inv_meta (g_pa g)).
  - intros s' Hs'. destruct (Hslabs s' Hs') as [H1 H2]. split; [by rewrite -H1; apply (cpu_of_with g1)|].
    intros k' Hk'. rewrite (the_list_with g1 s k l) //. case_decide; [by eexists|by apply H2].
  - intros s' k' l0 Hl0. rewrite (the_list_with g1 s k l) // in Hl0. destruct (Hlist s k l Hl) as (L1&L2&L3). case_decide as E.
    + destruct E as [-> ->]. injection Hl0 as <-. rewrite Eh. split_and!.
      * apply NoDup_app. split_and!; [done| |by apply elems_NoDup]. intros e He He'. by apply (Hnew e).
      * rewrite Ef L2 length_app Nat2Z.inj_add. do 2 f_equal. rewrite /elems /elems_from. by rewrite length_fmap length_seq.
      * intros e. rewrite elem_of_app L3. split.
        -- intros [(b&Hp&He&Hu)|He]; [exists b|exists bn]; rewrite Hsp Hel; split_and!; auto.
        -- intros (b&Hp&He&Hu). rewrite Hsp in Hp. rewrite Hel in He. destruct Hp as [(->&_)|Hp]; [by right|left; by exists b].
    + destruct (Hlist s' k' l0 Hl0) as (H1&H2&H3). split; [done|]. split; [done|]. intros e. rewrite H3.
      apply exist_proper. intros b. rewrite Hsp Hel. split; [tauto|]. intros ([(->&->&->)|Hp]&?&?); [tauto|done].
  - intros b s' k' Hp. rewrite Hsp in Hp. rewrite Hpd /uses Hel. destruct Hp as [(->&->&->)|Hp].
    + split; [done|]. case_decide; [|done]. cbn. f_equal. symmetry.
      assert (uses g U bn k = 0) as <-; [|done]. rewrite /uses.
      assert (filter (.∈ U) (elems g bn k) = []) as ->; [|done].
      destruct (filter (.∈ U) (elems g bn k)) as [|x t] eqn:Ef'; [done|]. exfalso.
      assert (Hx : x ∈ filter (.∈ U) (elems g bn k)) by (rewrite Ef'; constructor).
      apply list_elem_of_filter in Hx as [Hx1 Hx2]. by apply (Hno x).
    + case_decide as E; [subst b; by apply Hraw in Hp|]. by apply Hpage.
  - intros e He. destruct (Hused e He) as (b&s'&k'&?&?). exists b, s', k'. rewrite Hsp Hel. auto.
Qed.
Lemma slab_ok_page_fini g U bn s k l l' :
  slab_ok g U -> slab_page g bn s k -> the_list g s k = Some l -> uses g U bn k = 0 ->
  NoDup (sl_head l') -> nfree l' = Z.of_nat (length (sl_head l')) ->
  (forall e, e ∈ sl_head l' <-> e ∈ sl_head l /\ e ∉ elems g bn k) ->
  let g' := set_pd (with_list g s k l') bn clear_slab_desc in
  slab_ok g' U /\ (forall s' k', ~ slab_page g' bn s' k').
Proof.
  intros [Hpa Hslabs Hlist Hpage Hused] Hp Hl Hu Hnd Hn Hhead g'.
  assert (Hpd : forall b, pd g' b = if decide (b = bn) then clear_slab_desc (pd g bn) else pd g b)
    by (intros; by apply (pd_set (with_list g s k l'))).
  assert (Hel : forall b k, elems g' b k = elems g b k) by done.
  assert (Hsp : forall b s' k', slab_page g' b s' k' <-> b <> bn /\ slab_page g b s' k').
  { intros b s' k'. rewrite {1}/slab_page Hpd. case_decide as E; [|split; [intros Hx; by split|by intros [_ Hx]]]. split; [|by intros [? _]].
    cbn. intros (_&Hk&_&E1&_). destruct Hk. lia. }
  assert (Hgone : forall s' k', ~ slab_page g' bn s' k') by (intros s' k' Hx; apply Hsp in Hx as [Hx _]; done).
  pose proof Hp as (Hb&Hk&_). pose proof (uses_nil g U bn k Hu) as Hno. split; [|done]. split.
  - by apply (pa_inv_meta (g_pa g)).
  - intros s' Hs'. destruct (Hslabs s' Hs') as [H1 H2]. split; [by rewrite -H1; apply cpu_of_with|].
    intros k' Hk'. change (the_list g' s' k') with (the_list (with_list g s k l') s' k'). rewrite (the_list_with g s k l) //.
    case_decide; [by eexists|by apply H2].
  - intros s' k' l0 Hl0. change (the_list g' s' k') with (the_list (with_list g s k l') s' k') in Hl0.
    rewrite (the_list_with g s k l) // in Hl0. case_decide as E.
    + destruct E as [-> ->]. injection Hl0 as <-. split; [done|]. split; [done|]. intros e. rewrite Hhead.
      destruct (Hlist s k l Hl) as (_&_&->). split.
      * intros [(b&Hpb&He&Hue) Hne]. exists b. rewrite Hsp Hel. split; [|done]. split; [|done]. by intros ->.
      * intros (b&Hpb&He&Hue). apply Hsp in Hpb as [Hbn Hpb]. rewrite Hel in He. split; [by exists b|].
        intros He'. apply Hbn. by apply (elem_page g b bn k k e).
    + destruct (Hlist s' k' l0 Hl0) as (H1&H2&H3). split; [done|]. split; [done|]. intros e. rewrite H3.
      apply exist_proper. intros b. rewrite Hsp Hel. split; [|tauto]. intros (Hpb&?&?). split_and!; try done.
      intros ->. apply E. destruct (slab_page_inj _ _ _ _ _ _ Hp Hpb) as [-> ->]. done.
  - intros b s' k' [Hbn Hpb]%Hsp. destruct (Hpage b s' k' Hpb) as [H1 H2]. split; [done|]. rewrite Hpd.
    case_decide; [done|]. by rewrite H2.
  - intros e He. destruct (Hused e He) as (b&s'&k'&Hpb&?). exists b, s', k'. rewrite Hsp Hel. split; [|done]. split; [|done].
    intros ->. destruct (slab_page_inj _ _ _ _ _ _ Hp Hpb) as [-> ->]. by apply (Hno e).
Qed.
End spec.
