(* ===== verification/SlabOps.v ===== *)
(** * Allocation and freeing from one slab

    An element taken is fresh and serves the size asked for; one given back is free
    again, and its page with it once nothing on it is in use and the list is long. *)

From S2P Require Import Prelude CList PageAlloc PageSpec Slab SlabInv SlabSpec.

Lemma set_desc_twice (p : pa) q f f' : set_desc (set_desc p q f) q f' = set_desc p q (fun d => f' (f d)).
Proof.
  rewrite /set_desc /upd_desc /=. f_equal. rewrite insert_insert_eq. do 2 f_equal. by rewrite /desc /= lookup_insert_eq.
Qed.

Section claims.
Context `{PaEnv} `{SlabEnv}.
Implicit Types (g : gsa) (U : gset Z).

(** What allocation and freeing leave alone. *)
Definition gframe g g' : Prop :=
  g_up g' = g_up g /\ nslabs g' = nslabs g /\ libc g' = libc g /\ mem g' = mem g /\
  data_ptr (g_pa g') = data_ptr (g_pa g) /\ pages_ptr (g_pa g') = pages_ptr (g_pa g) /\ forall s, lock_of g' s = lock_of g s.
Lemma gframe_refl g : gframe g g.
Proof. by split_and!. Qed.
Lemma gframe_trans g1 g2 g3 : gframe g1 g2 -> gframe g2 g3 -> gframe g1 g3.
Proof. intros (?&?&?&?&?&?&L1) (?&?&?&?&?&?&L2). split_and!; try congruence. Qed.
Lemma gframe_list g s k l : gframe g (with_list g s k l).
Proof. split_and!; try done. intros s'. apply cpu_of_with. Qed.
Lemma gframe_pd g bn f : gframe g (set_pd g bn f).
Proof. by split_and!. Qed.
Lemma gframe_pa g p : data_ptr p = data_ptr (g_pa g) -> pages_ptr p = pages_ptr (g_pa g) -> gframe g (upd_pa (fun _ => p) g).
Proof. intros E E'. by split_and!. Qed.
Lemma upd_pa_id g : upd_pa (fun _ => g_pa g) g = g.
Proof. by destruct g. Qed.
Lemma elems_frame g g' bn k : data_ptr (g_pa g') = data_ptr (g_pa g) -> elems g' bn k = elems g bn k.
Proof. intros E. by rewrite /elems /base E. Qed.
Lemma shift1 k : Z.shiftl 1 k = 2 ^ k.
Proof. apply Z.shiftl_1_l. Qed.

(** Pages the slabs do not own are no business of the invariant. *)
Lemma slab_ok_other g U bn p' :
  slab_ok g U -> pa_inv p' -> same_env (g_pa g) p' -> pa_size (g_pa g) <= pa_size p' ->
  (forall s k, ~ slab_page g bn s k) -> (forall s k, ~ slab_page (upd_pa (fun _ => p') g) bn s k) ->
  (forall k, k <> bn -> k < pa_size (g_pa g) -> desc p' (page_at (g_pa g) k) = desc (g_pa g) (page_at (g_pa g) k)) ->
  (forall k, k <> bn -> pa_size (g_pa g) <= k < pa_size p' -> refcount (desc p' (page_at (g_pa g) k)) = 0) ->
  slab_ok (upd_pa (fun _ => p') g) U.
Proof.
  intros Hok Hinv (Ep&Ed&_) Hsz Hno Hno' Hold Hnew. set (g' := upd_pa _ g).
  assert (Hpd : forall b, pd g' b = desc p' (page_at (g_pa g) b)) by (intros b; rewrite /pd; f_equal; by apply page_at_env).
  apply slab_ok_pa; [done|done|done| |].
  - intros b s k. fold g'. destruct (decide (b = bn)) as [->|Hb].
    { split; intros Hx; exfalso; [by apply (Hno' s k)|by apply (Hno s k)]. }
    rewrite /slab_page Hpd. change (pa_size (g_pa g')) with (pa_size p').
    destruct (decide (b < pa_size (g_pa g))) as [Hlt|Hge].
    + rewrite Hold // -/(pd g b). split; intros (?&?); (split; [lia|done]).
    + split; intros (?&?&Hr&?); [rewrite Hnew in Hr; [lia..|done]|lia].
  - intros b s k Hb. change (page_at p' b) with (page_at (g_pa g') b). rewrite (page_at_env (g_pa g)) //.
    destruct (decide (b = bn)) as [->|Hbn]; [by apply Hno in Hb|]. rewrite Hold //. destruct Hb as (?&_). lia.
Qed.

(** ** Growing a list *)
Lemma wp_slab_increase g U s k l (Q : Z -> gsa -> Prop) :
  slab_ok g U -> 0 <= s < nslabs g -> list_index_ok k -> the_list g s k = Some l ->
  (NEED_MLOCK = true -> forall a n, mlock a n = 0) ->
  Q (- ENOMEM) g ->
  (forall g' l', slab_ok g' U -> gframe g g' -> the_list g' s k = Some l' -> sl_head l' <> [] -> Q 0 g') ->
  wp (_slab_increase s k) g Q.
Proof.
  intros Hok Hs Hk Hl Hml HN HS. rewrite /_slab_increase. wp_step. apply wp_with_pa. rewrite /pa_alloc.
  apply wp_pa_alloc_order; [apply Hok|done|done| |].
  { intros _ _. rewrite upd_pa_id. by wp_step. }
  change (2 ^ 0) with 1. intros bn p' Hinv He Hsz _ Hb Hend Hfree (Ht1&Ht2&Ht3). set (g1 := upd_pa _ g).
  destruct (Ht1 bn) as [Hr Hc]; [lia|]. pose proof He as (Ep&Ed&_).
  assert (Hpd : forall b, pd g1 b = desc p' (page_at (g_pa g) b)) by (intros b; rewrite /pd; f_equal; by apply page_at_env).
  assert (Hok1 : slab_ok g1 U).
  { apply (slab_ok_other g U bn); try done.
    - intros s' k' (Hb'&_&Hr'&_). destruct (Hfree bn) as [_ Hz]; [lia|lia|]. rewrite /pd Hz in Hr'. done.
    - intros s' k' (_&_&_&_&E). rewrite Hpd Hc in E. done.
    - intros b Hne Hlt. apply Ht2; lia.
    - intros b Hne Hlt. apply Ht3; lia. }
  wp_step. rewrite /_slab_page_init. destruct (so_slabs _ _ Hok1 s Hs) as [Hcpu _].
  rewrite /cpu_of in Hcpu. destruct (slab g1 !! s) as [x|] eqn:Ex; [|done]. injection Hcpu as Hcpu.
  wp_step. wp_step; [exact Ex|]. rewrite Hcpu. wp_step. apply wp_with_pa. rewrite /_page_set_slab -(page_at_env (g_pa g) (g_pa g1)) //.
  assert (Hb1 : 0 <= bn < pa_size (g_pa g1)) by (cbn; lia).
  pose proof (size_max _ (proj2 (so_pa _ _ Hok1))) as Hmax.
  wp_step. apply wp_set_page; [apply in_mapping_at; lia|]. wp_step. apply wp_set_page; [apply (in_mapping_at (g_pa g1)); lia|].
  apply wp_set_page; [apply (in_mapping_at (g_pa g1)); lia|]. rewrite !set_desc_twice.
  set (g2 := upd_pa _ g1). assert (Eg2 : g2 = set_pd g1 bn (init_slab_desc s k)) by done. clearbody g2. subst g2.
  wp_step. apply wp_with_pa. rewrite /pa_page_address. wp_step. apply (wp_page_to_bn (set_desc (g_pa g1) (page_at (g_pa g1) bn) (init_slab_desc s k)) bn).
  wp_step. change (data_ptr _ + bn * PAGE_SIZE) with (base g1 bn).
  set (g2 := upd_pa _ _). assert (Eg2 : g2 = set_pd g1 bn (init_slab_desc s k)) by done. clearbody g2. subst g2.
  rewrite shift1. assert (Hl2 : the_list (set_pd g1 bn (init_slab_desc s k)) s k = Some l) by exact Hl.
  eapply wp_link_elems; [exact Hl2|]. intros l' E1 E2 E3 E4. wp_step.
  destruct (slab_ok_page_init g1 U bn s k l l') as [Hok' _]; try done; [by rewrite Hpd|by rewrite Hpd|].
  eapply HS; [exact Hok'| |by eapply the_list_with_eq|].
  - eapply gframe_trans; [by apply (gframe_pa g p')|]. eapply gframe_trans; [apply gframe_pd|apply gframe_list].
  - rewrite E1. destruct (elems_fill k Hk) as (_&Hcnt&_). intros E. apply app_eq_nil in E as [_ E].
    assert (Hlen : length (elems g1 bn k) = 0%nat) by (by rewrite /elems E).
    rewrite /elems /elems_from length_fmap length_seq in Hlen. lia.
Qed.

(** ** Taking an element *)
Lemma list_empty_iff g U s k l : slab_ok g U -> the_list g s k = Some l -> (nfree l =? 0) = true <-> sl_head l = [].
Proof.
  intros Hok Hl. destruct (so_list _ _ Hok s k l Hl) as (_&E&_). rewrite E Z.eqb_eq. destruct (sl_head l); cbn; (split; [done || lia|done]).
Qed.
Lemma index_valid size : 0 < size <= ZUS_BLOCK_SIZE -> list_index_ok (_slab_list_index size) /\
  negb (_slab_check_list_index (_slab_list_index size) =? 0) = false.
Proof.
  intros Hs. destruct (list_index_spec size Hs) as (Hk&_). split; [done|]. by rewrite (proj2 (check_index _) Hk).
Qed.
Lemma wp_list_empty g U s size l (Q : bool -> gsa -> Prop) :
  slab_ok g U -> 0 < size <= ZUS_BLOCK_SIZE -> the_list g s (_slab_list_index size) = Some l ->
  Q (nfree l =? 0) g -> wp (_slab_list_empty s size) g Q.
Proof.
  intros Hok Hsz Hl HQ. rewrite /_slab_list_empty. destruct (index_valid size Hsz) as [_ ->].
  wp_step. eapply wp_get_list; [exact Hl|]. by wp_step.
Qed.
(** A block [e] of slab [s] that serves [size]. *)
Definition serves g (e s size : Z) : Prop := exists bn, let k := _slab_list_index size in slab_page g bn s k /\ e ∈ elems g bn k.
Lemma wp_take g U s size l (Q : Z -> gsa -> Prop) :
  slab_ok g U -> 0 < size <= ZUS_BLOCK_SIZE -> the_list g s (_slab_list_index size) = Some l -> sl_head l <> [] ->
  (forall e g', e ∉ U -> slab_ok g' ({[e]} ∪ U) -> gframe g g' -> serves g' e s size -> Q e g') ->
  wp (se ← _slab_alloc_elem s (_slab_list_index size);
      match se with
      | None => mret 0
      | Some se => page ← with_pa (pa_virt_to_page se); with_pa (_page_slab_uc_inc page);; mret se
      end) g Q.
Proof.
  intros Hok Hsz Hl Hne HQ. destruct (index_valid size Hsz) as [Hk _]. set (k := _slab_list_index size) in *.
  destruct (so_list _ _ Hok s k l Hl) as (Hnd&Hn&Hhead). destruct (sl_head l) as [|e t] eqn:Eh; [done|].
  assert (He : e ∈ sl_head l) by (rewrite Eh; constructor). rewrite Eh in He. apply Hhead in He as (bn&Hp&Hel&HeU).
  rewrite /_slab_alloc_elem. do 2 wp_step. eapply wp_get_list; [exact Hl|]. rewrite Eh. wp_step. eapply wp_set_list; [exact Hl|].
  wp_step. eapply wp_set_list; [by eapply the_list_with_eq|]. wp_step.
  eapply wp_set_list; [eapply the_list_with_eq; by eapply the_list_with_eq|]. rewrite !with_list_twice. wp_step.
  set (l' := upd_nused _ _). assert (El' : sl_head l' = t /\ nfree l' = nfree l - 1).
  { rewrite /l' /= Eh. split; [|done]. by rewrite /= bool_decide_eq_true_2. }
  clearbody l'. destruct El' as [Eh' En']. pose proof Hp as (Hb&_). destruct (so_page _ _ Hok bn s k Hp) as [_ Huc].
  set (g1 := with_list g s k l'). pose proof (size_max _ (proj2 (so_pa _ _ Hok))) as Hmax.
  wp_step. apply wp_with_pa. apply (wp_elem_page g1 bn k); [done|done|done|]. change (upd_pa (fun _ => g_pa g1) g1) with g1.
  wp_step. apply wp_with_pa. rewrite /_page_slab_uc_inc. wp_step. apply wp_get_page; [apply (in_mapping_at (g_pa g)); lia|].
  change (desc (g_pa g1) (page_at (g_pa g1) bn)) with (pd g bn). rewrite Huc. cbn [of_option]. do 2 wp_step.
  apply wp_set_page; [apply (in_mapping_at (g_pa g)); lia|]. wp_step.
  assert (Eu : uses g U bn k + 1 = uses g ({[e]} ∪ U) bn k) by (rewrite uses_add //; by case_decide).
  rewrite Eu. set (g2 := upd_pa _ g1).
  assert (Eg2 : g2 = set_pd (with_list g s k l') bn (upd_slab_uc (fun _ => Some (uses g ({[e]} ∪ U) bn k)))) by done.
  apply NoDup_cons in Hnd as [Het Hnd].
  apply HQ; [done| | |].
  - rewrite Eg2. eapply slab_ok_switch; [exact Hok|exact Hp|exact Hl|by rewrite Eh'|rewrite En' Hn Eh'; cbn; lia| |].
    + intros x. rewrite Eh'. transitivity (x ∈ e :: t /\ x <> e); [rewrite elem_of_cons; naive_solver|]. rewrite Hhead. split.
      * intros [(b&?&?&?) ?]. exists b. split_and!; try done. set_solver.
      * intros (b&?&?&Hx). split; [exists b; split_and!; [done|done|set_solver + Hx]|set_solver + Hx].
    + intros x Hx. assert (x <> e) by (intros ->; done). set_solver.
  - eapply gframe_trans; [apply gframe_list|apply gframe_pd].
  - exists bn. split; [|done]. rewrite Eg2. by apply (slab_page_set (with_list g s k l')).
Qed.
Lemma wp_slab_alloc g U s size (Q : Z -> gsa -> Prop) :
  slab_ok g U -> 0 <= s < nslabs g -> 0 < size <= ZUS_BLOCK_SIZE ->
  (NEED_MLOCK = true -> forall a n, mlock a n = 0) ->
  Q 0 g ->
  (forall e g', e ∉ U -> slab_ok g' ({[e]} ∪ U) -> gframe g g' -> serves g' e s size -> Q e g') ->
  wp (_slab_alloc s size) g Q.
Proof.
  intros Hok Hs Hsz Hml HN HS. destruct (index_valid size Hsz) as [Hk _].
  destruct (so_slabs _ _ Hok s Hs) as [_ Hls]. destruct (Hls _ Hk) as [l Hl]. rewrite /_slab_alloc. wp_step.
  eapply wp_list_empty; [done|done|exact Hl|]. wp_step. destruct (nfree l =? 0) eqn:E.
  - eapply wp_slab_increase; [exact Hok|done|done|exact Hl|done| |].
    + change (negb (- ENOMEM =? 0)) with true. cbv iota. by wp_step.
    + intros g' l' Hok' Hf Hl' Hne. cbn [negb Z.eqb]. eapply wp_take; [exact Hok'|done|exact Hl'|done|].
      intros e g2 HeU Hok2 Hf2 Hsv. apply HS; try done. by eapply gframe_trans.
  - wp_step. cbn [negb Z.eqb]. eapply wp_take; [exact Hok|done|exact Hl| |done].
    intros Eh. apply (list_empty_iff g U s _ l Hok Hl) in Eh. by rewrite Eh in E.
Qed.

(** ** Giving an element back *)
Lemma wp_slab_free_elem g U s k bn e l (Q : unit -> gsa -> Prop) :
  slab_ok g U -> slab_page g bn s k -> e ∈ elems g bn k -> e ∈ U -> the_list g s k = Some l ->
  (NEED_MLOCK = true -> forall a n, mlock a n = 0) ->
  (forall g', slab_ok g' (U ∖ {[e]}) -> gframe g g' -> Q tt g') ->
  wp (__slab_free s k (page_at (g_pa g) bn) e) g Q.
Proof.
  intros Hok Hp Hel HeU Hl Hml HQ. pose proof Hp as (Hb&Hk&Hr&_). destruct (so_list _ _ Hok s k l Hl) as (Hnd&Hn&Hhead).
  assert (HeL : e ∉ sl_head l) by (intros (b&_&_&?)%Hhead; done).
  rewrite /__slab_free /_slab_free_elem. do 2 wp_step. eapply wp_set_list; [exact Hl|].
  wp_step. eapply wp_set_list; [by eapply the_list_with_eq|].
  eapply wp_set_list; [eapply the_list_with_eq; by eapply the_list_with_eq|]. rewrite !with_list_twice.
  set (l' := upd_nused _ _). assert (El' : sl_head l' = sl_head l ++ [e] /\ nfree l' = nfree l + 1) by done.
  clearbody l'. destruct El' as [Eh' En']. destruct (so_page _ _ Hok bn s k Hp) as [Hs Huc].
  set (g1 := with_list g s k l'). pose proof (size_max _ (proj2 (so_pa _ _ Hok))) as Hmax.
  wp_step. apply wp_with_pa. rewrite /_page_slab_uc_dec. wp_step. apply wp_get_page; [apply (in_mapping_at (g_pa g)); lia|].
  change (desc (g_pa g1) (page_at (g_pa g) bn)) with (pd g bn). rewrite Huc. cbn [of_option]. do 2 wp_step.
  wp_step. apply wp_set_page; [apply (in_mapping_at (g_pa g)); lia|]. wp_step.
  assert (Eu : uses g U bn k - 1 = uses g (U ∖ {[e]}) bn k) by (rewrite uses_remove //; by case_decide).
  rewrite Eu. set (g2 := upd_pa _ g1).
  assert (Eg2 : g2 = set_pd (with_list g s k l') bn (upd_slab_uc (fun _ => Some (uses g (U ∖ {[e]}) bn k)))) by done.
  assert (Hok2 : slab_ok g2 (U ∖ {[e]})).
  { rewrite Eg2. eapply slab_ok_switch; [exact Hok|exact Hp|exact Hl| |rewrite En' Hn Eh' length_app /=; lia| |].
    - rewrite Eh'. apply NoDup_app. split_and!; [done|set_solver|]. apply NoDup_singleton.
    - intros x. rewrite Eh' elem_of_app list_elem_of_singleton Hhead. split.
      + intros [(b&?&?&?)| ->]; [exists b; split_and!; (done || set_solver)|exists bn; split_and!; (done || set_solver)].
      + intros (b&?&?&Hx). destruct (decide (x = e)) as [->|]; [by right|left; exists b; split_and!; (done || set_solver)].
    - intros x Hx. assert (x <> e) by (intros ->; done). set_solver. }
  assert (Hf2 : gframe g g2) by (rewrite Eg2; eapply gframe_trans; [apply gframe_list|apply gframe_pd]).
  assert (Hp2 : slab_page g2 bn s k) by (rewrite Eg2; by apply (slab_page_set (with_list g s k l'))).
  assert (Hl2 : the_list g2 s k = Some l') by (rewrite Eg2; exact (the_list_with_eq g s k l l' Hl)).
  destruct (Z.eqb_spec (uses g (U ∖ {[e]}) bn k) 0) as [Hz|Hz]; cbn [negb]; [|wp_step; by apply HQ].
  wp_step. eapply wp_get_list; [exact Hl2|]. wp_step. eapply wp_get_list; [exact Hl2|].
  destruct (nfree l' <? nfree_want l'); [wp_step; by apply HQ|].
  change (page_at (g_pa g) bn) with (page_at (g_pa g2) bn). clearbody g2. clear Eg2.
  assert (Hz2 : uses g2 (U ∖ {[e]}) bn k = 0) by (rewrite /uses (elems_frame g) //; apply Hf2).
  destruct (so_list _ _ Hok2 s k l' Hl2) as (Hnd2&Hn2&Hhead2).
  wp_step. rewrite /_slab_page_fini. wp_step. apply wp_with_pa. rewrite /pa_page_address. wp_step. apply wp_page_to_bn.
  wp_step. rewrite upd_pa_id -/(base g2 bn) shift1. wp_step. eapply wp_unlink_elems; [exact Hl2|done|done| |by apply (elems_NoDup g2 bn k)|].
  { intros x Hx. apply Hhead2. exists bn. split_and!; try done. by apply (uses_nil g2 _ bn k). }
  intros l3 E1 E2 E3. apply wp_with_pa.
  destruct (slab_ok_page_fini g2 _ bn s k l' l3 Hok2 Hp2 Hl2 Hz2 E1 E2 E3) as [Hok3 Hno3].
  assert (Hb2 : 0 <= bn < pa_size (g_pa g2)) by apply Hp2. pose proof (size_max _ (proj2 (so_pa _ _ Hok2))) as Hmax2.
  rewrite /_page_clear_slab. wp_step. apply wp_set_page; [apply (in_mapping_at (g_pa g2)); lia|].
  wp_step. apply wp_set_page; [apply (in_mapping_at (g_pa g2)); lia|]. apply wp_set_page; [apply (in_mapping_at (g_pa g2)); lia|].
  rewrite !set_desc_twice. set (g3 := upd_pa _ (with_list g2 s k l3)).
  assert (Eg3 : g3 = set_pd (with_list g2 s k l3) bn clear_slab_desc) by done. rewrite -Eg3 in Hok3, Hno3.
  assert (Hf3 : gframe g2 g3) by (rewrite Eg3; eapply gframe_trans; [apply gframe_list|apply gframe_pd]).
  assert (Hr3 : refcount (desc (g_pa g3) (page_at (g_pa g3) bn)) = 1).
  { change (refcount (pd g3 bn) = 1). rewrite Eg3 pd_set. case_decide; [|done]. cbn. apply Hp2. }
  assert (Hb3 : 0 <= bn < pa_size (g_pa g3)) by exact Hb2. change (page_at (g_pa g2) bn) with (page_at (g_pa g3) bn).
  clearbody g3. clear Eg3. wp_step. apply wp_with_pa. apply wp_pa_put_page; [apply Hok3|done|by rewrite Hr3|].
  rewrite Hr3. intros p' Hinv' He' Esz' Er' Eo' _. wp_step. pose proof He' as (Ep'&Ed'&_).
  apply HQ.
  - apply (slab_ok_other g3 _ bn); try done; [by rewrite Esz'| | |].
    + intros s' k' (_&_&Hbad&_). rewrite /pd in Hbad. change (page_at (g_pa (upd_pa (fun _ => p') g3)) bn) with (page_at p' bn) in Hbad.
      rewrite (page_at_env (g_pa g3)) // in Hbad. change (desc (g_pa (upd_pa (fun _ => p') g3))) with (desc p') in Hbad. rewrite Er' in Hbad. lia.
    + intros b Hb' _. by apply Eo'.
    + intros b _ Hbad. lia.
  - eapply gframe_trans; [exact Hf2|]. eapply gframe_trans; [exact Hf3|]. by apply gframe_pa.
Qed.

(** ** Locks *)
Definition set_lock g (s : Z) (b : bool) : gsa := upd_slab (alter (fun x => ZusSlab (lists x) (cpu x) b) s) g.
Lemma set_lock_view g s b s' : cpu_of (set_lock g s b) s' = cpu_of g s' /\ (forall k, the_list (set_lock g s b) s' k = the_list g s' k) /\
  lock_of (set_lock g s b) s' = (if decide (s' = s) then (fun _ => b) <$> lock_of g s' else lock_of g s').
Proof.
  rewrite /cpu_of /lock_of /the_list /set_lock /upd_slab /=. destruct (decide (s' = s)) as [->|Hs].
  - rewrite lookup_alter_eq. by destruct (slab g !! s).
  - by rewrite lookup_alter_ne; [apply not_eq_sym|].
Qed.
Lemma slab_ok_view g g' U : g_pa g' = g_pa g -> nslabs g' = nslabs g -> (forall s, cpu_of g' s = cpu_of g s) ->
  (forall s k, the_list g' s k = the_list g s k) -> slab_ok g U -> slab_ok g' U.
Proof.
  intros Epa En Ec El [Hpa Hslabs Hlist Hpage Hused].
  assert (Hsp : forall b s k, slab_page g' b s k <-> slab_page g b s k) by (intros; by rewrite /slab_page /pd Epa).
  assert (Hel : forall b k, elems g' b k = elems g b k) by (intros; by rewrite /elems /base Epa).
  split.
  - by rewrite Epa.
  - intros s Hs. rewrite En in Hs. destruct (Hslabs s Hs) as [H1 H2]. split; [by rewrite Ec|]. intros k. rewrite El. apply H2.
  - intros s k l Hl. rewrite El in Hl. destruct (Hlist s k l Hl) as (H1&H2&H3). split; [done|]. split; [done|]. intros e. rewrite H3.
    apply exist_proper. intros b. by rewrite Hsp Hel.
  - intros b s k Hb%Hsp. destruct (Hpage b s k Hb) as [H1 H2]. rewrite En. split; [done|]. by rewrite /pd Epa /uses Hel.
  - intros e He. destruct (Hused e He) as (b&s&k&?&?). exists b, s, k. by rewrite Hsp Hel.
Qed.
Lemma slab_ok_lock g U s b : slab_ok g U -> slab_ok (set_lock g s b) U.
Proof. apply slab_ok_view; try done; intros; by apply set_lock_view. Qed.
(** A slab locked, worked on and unlocked. *)
Lemma lock_round g U U' s g2 :
  slab_inv g U -> slab_ok g2 U' -> gframe (set_lock g s true) g2 ->
  slab_inv (set_lock g2 s false) U' /\ gframe g (set_lock g2 s false).
Proof.
  intros [Hok Hun] Hok2 (F1&F2&F3&F4&F5&F6&F7).
  assert (HL : forall s', lock_of (set_lock g2 s false) s' = lock_of g s').
  { intros s'. destruct (set_lock_view g2 s false s') as (_&_&->). rewrite F7. destruct (set_lock_view g s true s') as (_&_&->).
    case_decide; [|done]. destruct (lock_of g s') as [b|] eqn:E; [|done]. by rewrite (Hun s' b E). }
  split; [split; [by apply slab_ok_lock|]|by split_and!]. intros s' b. rewrite HL. apply Hun.
Qed.
Lemma wp_slab_lock g U s (Q : unit -> gsa -> Prop) :
  slab_inv g U -> 0 <= s < nslabs g -> Q tt (set_lock g s true) -> wp (_slab_lock s) g Q.
Proof.
  intros [Hok Hun] Hs HQ. destruct (so_slabs _ _ Hok s Hs) as [Hc _]. rewrite /cpu_of in Hc.
  destruct (slab g !! s) as [x|] eqn:Ex; [|done]. assert (Hlk : lock_of g s = Some (s_lock x)) by (by rewrite /lock_of Ex).
  rewrite /_slab_lock. wp_step. wp_step; [exact Ex|]. wp_step. wp_step; [by rewrite (Hun s _ Hlk)|]. wp_step; [exact Ex|].
  replace (upd_slab _ g) with (set_lock g s true); [done|]. rewrite /set_lock /upd_slab. f_equal.
  apply map_eq. intros i. rewrite lookup_insert. destruct (decide (i = s)) as [->|Hi].
  - rewrite lookup_alter_eq Ex. by case_decide.
  - rewrite lookup_alter_ne; [by apply not_eq_sym|]. case_decide; [congruence|done].
Qed.
Lemma wp_slab_unlock g U s (Q : unit -> gsa -> Prop) :
  slab_ok g U -> 0 <= s < nslabs g -> Q tt (set_lock g s false) -> wp (_slab_unlock s) g Q.
Proof.
  intros Hok Hs HQ. destruct (so_slabs _ _ Hok s Hs) as [Hc _]. rewrite /cpu_of in Hc.
  destruct (slab g !! s) as [x|] eqn:Ex; [|done]. rewrite /_slab_unlock. wp_step; [exact Ex|].
  replace (upd_slab _ g) with (set_lock g s false); [done|]. rewrite /set_lock /upd_slab. f_equal.
  apply map_eq. intros i. rewrite lookup_insert. destruct (decide (i = s)) as [->|Hi].
  - rewrite lookup_alter_eq Ex. by case_decide.
  - rewrite lookup_alter_ne; [by apply not_eq_sym|]. case_decide; [congruence|done].
Qed.
End claims.
