(* ===== verification/SlabHeap.v ===== *)
(** * The slab allocator as an allocator

    Every block [zus_malloc] hands out is fresh, large enough and apart from all others,
    and [zus_free] gives it back to where it came from; malloc of the C library stands
    behind the slabs. *)

From S2P Require Import Prelude CList PageAlloc PageSpec Slab SlabInv SlabSpec SlabOps.

Section heap.
Context `{PaEnv} `{SlabEnv}.
Implicit Types (g : gsa) (U : gset Z).

(** malloc of the C library: a block that is not live, outside of the data mapping. *)
Definition outside (d p : Z) : Prop := p < d \/ d + PA_SIZE <= p.
Definition libc_law (d : Z) : Prop :=
  forall live size, libc_malloc live size = 0 \/ (libc_malloc live size ∉ live /\ outside d (libc_malloc live size)).
(** The heap with the slab blocks [U] in use. *)
Definition heap_ok g U : Prop :=
  slab_inv g U /\ g_up g = true /\ 0 < data_ptr (g_pa g) /\ data_ptr (g_pa g) mod PAGE_SIZE = 0 /\
  (forall p, p ∈ libc g -> p <> 0 /\ outside (data_ptr (g_pa g)) p).
Lemma heap_frame g g' U U' : heap_ok g U -> gframe g g' -> slab_inv g' U' -> heap_ok g' U'.
Proof.
  intros (_&Hup&Hd&Ha&Hl) (F1&_&F3&_&F5&_) Hi. split; [done|]. rewrite F1 F3 F5. by split_and!.
Qed.
Lemma block_pos g U bn s k e : heap_ok g U -> slab_page g bn s k -> e ∈ elems g bn k -> 0 < e /\ e mod 32 = 0.
Proof.
  intros (_&_&Hd&Ha&_) (Hb&Hk&_) He. pose proof (elem_bounds g bn k e Hk He) as B. rewrite /base in B. split; [lia|].
  apply elem_of_elems in He as (j&_&->); [|done]. rewrite /base /elem_size. change ZUS_MIN_SLAB_SIZE with 32.
  pose proof (Z.div_mod (data_ptr (g_pa g)) PAGE_SIZE ltac:(done)) as E. rewrite Ha in E. rewrite E.
  replace (_ + _ * _ + _ * _) with ((128 * (data_ptr (g_pa g) / 4096) + 128 * bn + 2 ^ k * j) * 32) by lia. by rewrite Z.mod_mul.
Qed.

(** ** Which slab a pointer belongs to *)
Lemma wp_cpu_of_slab g U bn s k e (Q : Z -> gsa -> Prop) :
  heap_ok g U -> slab_page g bn s k -> e ∈ elems g bn k -> Q s g -> wp (_zus_gsa_cpu_of e) g Q.
Proof.
  intros Hh Hp He HQ. destruct (block_pos g U bn s k e Hh Hp He) as [Hpos H32]. rewrite /_zus_gsa_cpu_of.
  destruct (Z.eqb_spec e 0); [lia|]. change (Z.shiftl 1 ZUS_MIN_SLAB_SHIFT - 1) with (Z.ones 5).
  rewrite Z.land_ones // H32. cbn [Z.eqb negb]. pose proof Hp as (Hb&Hk&_&_&Hc).
  pose proof (elem_bounds g bn k e Hk He) as B. rewrite /base in B. destruct (elems_fill k Hk) as (Hsz&_).
  wp_step. apply wp_with_pa. rewrite /__pa_addr_inrange. wp_step. rewrite upd_pa_id.
  destruct (Z.leb_spec (data_ptr (g_pa g)) e); [|lia]. destruct (Z.ltb_spec e (data_ptr (g_pa g) + pa_size (g_pa g) * PAGE_SIZE)); [|lia].
  cbn [andb negb]. wp_step. apply wp_with_pa. apply (wp_elem_page g bn k); [done|done|done|]. rewrite upd_pa_id.
  destruct Hh as ((Hok&_)&_). pose proof (size_max _ (proj2 (so_pa _ _ Hok))).
  apply wp_with_pa. rewrite /_page_slab_cpu. wp_step. apply wp_get_page; [apply in_mapping_at; lia|].
  change (desc (g_pa g) (page_at (g_pa g) bn)) with (pd g bn). rewrite Hc. cbn [of_option]. wp_step. by rewrite upd_pa_id.
Qed.
Lemma wp_cpu_of_libc g U p (Q : Z -> gsa -> Prop) :
  heap_ok g U -> p ∈ libc g -> Q (-1) g -> wp (_zus_gsa_cpu_of p) g Q.
Proof.
  intros ((Hok&_)&_&_&_&Hl) Hp HQ. destruct (Hl p Hp) as [Hne Hout]. rewrite /_zus_gsa_cpu_of.
  destruct (Z.eqb_spec p 0); [lia|]. destruct (Z.eqb_spec (Z.land p (Z.shiftl 1 ZUS_MIN_SLAB_SHIFT - 1)) 0); cbn [negb]; [|by wp_step].
  wp_step. apply wp_with_pa. rewrite /__pa_addr_inrange. wp_step. rewrite upd_pa_id.
  pose proof (ok_fits _ (proj2 (so_pa _ _ Hok))) as Hfit.
  destruct (Z.leb_spec (data_ptr (g_pa g)) p), (Z.ltb_spec p (data_ptr (g_pa g) + pa_size (g_pa g) * PAGE_SIZE)); cbn [andb negb];
    try by wp_step. exfalso. destruct Hout; lia.
Qed.

(** ** Allocation from the slabs *)
(** The outcome of an attempt: nothing, and nothing changed; or a fresh block of a slab. *)
Definition got g U size (r : Z) g' : Prop :=
  gframe g g' /\ ((r = 0 /\ slab_inv g' U) \/ (r ∉ U /\ slab_inv g' ({[r]} ∪ U) /\ exists s, serves g' r s size)).
Lemma wp_locked_alloc g U s size (Q : Z -> gsa -> Prop) :
  slab_inv g U -> 0 <= s < nslabs g -> 0 < size <= ZUS_BLOCK_SIZE ->
  (NEED_MLOCK = true -> forall a n, mlock a n = 0) ->
  (forall r g', got g U size r g' -> Q r g') ->
  wp (ptr ← _slab_alloc s size; _slab_unlock s;; mret ptr) (set_lock g s true) Q.
Proof.
  intros Hinv Hs Hsz Hml HQ. pose proof Hinv as [Hok _]. wp_step. apply (wp_slab_alloc _ U); try done; [by apply slab_ok_lock| |].
  - wp_step. eapply (wp_slab_unlock _ U); [by apply slab_ok_lock|done|]. wp_step.
    destruct (lock_round g U U s (set_lock g s true)) as [H1 H2]; [done|by apply slab_ok_lock|apply gframe_refl|].
    apply HQ. split; [done|]. by left.
  - intros e g2 HeU Hok2 Hf Hsv. wp_step. eapply wp_slab_unlock; [exact Hok2|destruct Hf as (_&->&_); done|]. wp_step.
    destruct (lock_round g U _ s g2 Hinv Hok2 Hf) as [H1 H2]. apply HQ. split; [done|]. right. split; [done|]. split; [done|]. by exists s.
Qed.
Lemma wp_try_slabs n : forall i c s size g U (Q : option Z * Z -> gsa -> Prop),
  slab_inv g U -> 0 <= s < nslabs g -> 0 < size <= ZUS_BLOCK_SIZE ->
  (NEED_MLOCK = true -> forall a n, mlock a n = 0) ->
  (forall s' g', gframe g g' -> slab_inv g' U -> 0 <= s' < nslabs g -> Q (None, s') g') ->
  (forall s' r g', got g U size r g' -> Q (Some r, s') g') ->
  wp (try_slabs n i c s size) g Q.
Proof.
  induction n as [|n IH]; intros i c s size g U Q Hinv Hs Hsz Hml HN HS; cbn [try_slabs].
  { wp_step. apply HN; [apply gframe_refl|done|done]. }
  assert (Hnext : forall g', gframe g g' -> slab_inv g' U ->
    wp (s' ← _zus_gsa_sslab_at c (i + 1); try_slabs n (i + 1) c s' size) g' Q).
  { intros g' Hf Hinv'. wp_step. rewrite /_zus_gsa_sslab_at. do 2 wp_step. wp_step. pose proof Hf as (_&En&_). rewrite En.
    assert (Hm : 0 <= (c + (i + 1)) mod nslabs g < nslabs g) by (apply Z.mod_pos_bound; lia).
    eapply IH; [exact Hinv'|by rewrite En|done|done| |].
    - intros s' g2 Hf2 Hi2 Hs2. rewrite En in Hs2. apply HN; [by eapply gframe_trans|done|done].
    - intros s' r g2 [Hf2 Hg2]. apply HS. split; [by eapply gframe_trans|done]. }
  pose proof Hinv as [Hok _]. wp_step. rewrite /_slab_trylock. destruct (busy s).
  { wp_step. do 2 wp_step. apply Hnext; [apply gframe_refl|done]. }
  wp_step. eapply wp_slab_lock; [exact Hinv|done|]. wp_step. destruct (index_valid size Hsz) as [Hk _].
  destruct (so_slabs _ _ Hok s Hs) as [_ Hls]. destruct (Hls _ Hk) as [l Hl].
  assert (Hl1 : the_list (set_lock g s true) s (_slab_list_index size) = Some l) by (by destruct (set_lock_view g s true s) as (_&->&_)).
  do 2 wp_step. eapply (wp_list_empty _ U); [by apply slab_ok_lock|done|exact Hl1|]. destruct (nfree l =? 0); cbn [negb].
  - wp_step. eapply (wp_slab_unlock _ U); [by apply slab_ok_lock|done|]. wp_step.
    destruct (lock_round g U U s (set_lock g s true)) as [H1 H2]; [done|by apply slab_ok_lock|apply gframe_refl|]. by apply Hnext.
  - assert (Hw : wp (ptr ← _slab_alloc s size; _slab_unlock s;; mret ptr) (set_lock g s true) (fun r g' => got g U size r g'))
      by (by apply (wp_locked_alloc g U)).
    eapply wp_mono in Hw; [|intros r g' Hg; exact (HS s r g' Hg)]. revert Hw. rewrite /wp /mbind /ST_bind /mret /ST_ret.
    destruct (_slab_alloc s size (set_lock g s true)) as [[p g1]|]; [|done]. by destruct (_slab_unlock s g1) as [[? g2]|].
Qed.
Lemma wp_slab_of_cpu g s (Q : Z -> gsa -> Prop) : 0 <= s < nslabs g -> Q s g -> wp (_slab_of_cpu s) g Q.
Proof.
  intros Hs HQ. rewrite /_slab_of_cpu. do 2 wp_step. wp_step. wp_step; [|by wp_step].
  destruct (Z.ltb_spec s 0); [lia|]. by destruct (Z.leb_spec (nslabs g) s); [lia|].
Qed.
Lemma wp_gsa_malloc g U size (Q : Z -> gsa -> Prop) :
  slab_inv g U -> 0 <= zus_current_cpu_silent < nslabs g -> 0 < size <= ZUS_BLOCK_SIZE ->
  (NEED_MLOCK = true -> forall a n, mlock a n = 0) ->
  (forall r g', got g U size r g' -> Q r g') -> wp (_zus_gsa_malloc size) g Q.
Proof.
  intros Hinv Hc Hsz Hml HQ. rewrite /_zus_gsa_malloc. wp_step. apply wp_slab_of_cpu; [done|]. pose proof Hinv as [Hok _].
  wp_step. rewrite /_slab_iscold. destruct (index_valid size Hsz) as [Hk ->].
  destruct (so_slabs _ _ Hok _ Hc) as [_ Hls]. destruct (Hls _ Hk) as [l Hl].
  wp_step. eapply wp_get_list; [exact Hl|]. wp_step. eapply wp_get_list; [exact Hl|]. wp_step. do 2 wp_step. wp_step.
  assert (Hlast : forall s g1, gframe g g1 -> slab_inv g1 U -> 0 <= s < nslabs g ->
    wp (_slab_lock s;; ptr ← _slab_alloc s size; _slab_unlock s;; mret ptr) g1 Q).
  { intros s g1 Hf Hinv1 Hs. pose proof Hf as (_&En&_). wp_step. eapply wp_slab_lock; [exact Hinv1|by rewrite En|].
    apply (wp_locked_alloc g1 U); try done; [by rewrite En|]. intros r g2 [Hf2 Hg2]. apply HQ. split; [by eapply gframe_trans|done]. }
  destruct ((nfree l =? 0) && (nused l =? 0)).
  - wp_step. apply Hlast; [apply gframe_refl|done|done].
  - eapply wp_try_slabs; [exact Hinv|done|done|done|by apply Hlast|]. intros s' r g' Hg. wp_step. by apply HQ.
Qed.

(** ** malloc and free *)
Lemma slab_inv_libc g U f : slab_inv g U -> slab_inv (upd_libc f g) U.
Proof. intros [Hok Hun]. split; [by apply (slab_ok_view g)|exact Hun]. Qed.
Lemma heap_libc g U p size : heap_ok g U -> libc_law (data_ptr (g_pa g)) -> p = libc_malloc (libc g) size -> p <> 0 ->
  heap_ok (upd_libc (fun l => {[p]} ∪ l) g) U /\ p ∉ libc g.
Proof.
  intros ((Hok&Hun)&Hup&Hd&Ha&Hl) Hlaw -> Hne. destruct (Hlaw (libc g) size) as [?|[Hf Ho]]; [done|]. split; [|done].
  split; [by apply slab_inv_libc|]. split; [done|]. split; [done|]. split; [done|].
  intros q [->%elem_of_singleton|Hq]%elem_of_union; [done|by apply Hl].
Qed.
Lemma wp_zus_malloc g U size (Q : Z -> gsa -> Prop) :
  heap_ok g U -> libc_law (data_ptr (g_pa g)) -> 0 <= zus_current_cpu_silent < nslabs g -> 0 < size ->
  (NEED_MLOCK = true -> forall a n, mlock a n = 0) ->
  (forall g', heap_ok g' U -> nslabs g' = nslabs g -> libc g' = libc g -> mem g' = mem g -> Q 0 g') ->
  (forall r g', heap_ok g' ({[r]} ∪ U) -> r ∉ U -> size <= ZUS_BLOCK_SIZE -> gframe g g' ->
     (exists s, serves g' r s size) -> Q r g') ->
  (forall r g', heap_ok g' U -> r ∉ libc g -> r <> 0 -> nslabs g' = nslabs g -> data_ptr (g_pa g') = data_ptr (g_pa g) ->
     pages_ptr (g_pa g') = pages_ptr (g_pa g) -> libc g' = {[r]} ∪ libc g -> mem g' = mem g -> Q r g') ->
  wp (zus_malloc size) g Q.
Proof.
  intros Hh Hlaw Hc Hsz Hml HN HS HL. pose proof Hh as (Hinv&Hup&_). rewrite /zus_malloc. wp_step. wp_step. rewrite Hup. cbn [negb].
  destruct (Z.eqb_spec size 0); [lia|].
  assert (Hlib : forall g1, heap_ok g1 U -> gframe g g1 -> wp (libc_alloc size) g1 Q).
  { intros g1 Hh1 (F1&F2&F3&F4&F5&F6&F7). rewrite /libc_alloc. wp_step. wp_step. wp_step.
    destruct (Z.eqb_spec (libc_malloc (libc g1) size) 0) as [E|E]; wp_step; wp_step.
    - rewrite E. by apply HN.
    - destruct (heap_libc g1 U _ size Hh1 ltac:(by rewrite F5) eq_refl E) as [Hh2 Hfresh].
      apply HL; try done; by rewrite -F3. }
  rewrite /_slab_size_valid. destruct (Z.ltb_spec 0 size); [|lia]. cbn [andb]. destruct (Z.leb_spec size ZUS_BLOCK_SIZE); cbn [negb].
  - wp_step. eapply wp_gsa_malloc; [exact Hinv|done|done|done|]. intros r g1 [Hf [[-> Hi]|(HrU&Hi&s&Hs)]].
    + cbn [Z.eqb]. apply Hlib; [by eapply heap_frame|done].
    + assert (Hh1 : heap_ok g1 ({[r]} ∪ U)) by (by eapply heap_frame). pose proof Hs as (bn&Hp&He).
      destruct (block_pos g1 _ _ _ _ _ Hh1 Hp He) as [Hpos _]. destruct (Z.eqb_spec r 0); [lia|]. wp_step.
      apply HS; try done. by exists s.
  - apply Hlib; [done|apply gframe_refl].
Qed.
Lemma wp_zus_free g U ptr (Q : unit -> gsa -> Prop) :
  heap_ok g U -> (NEED_MLOCK = true -> forall a n, mlock a n = 0) ->
  (ptr = 0 \/ ptr ∈ U \/ ptr ∈ libc g) ->
  (ptr = 0 -> Q tt g) ->
  (forall g', ptr ∈ U -> heap_ok g' (U ∖ {[ptr]}) -> gframe g g' -> Q tt g') ->
  (ptr ∈ libc g -> heap_ok (upd_libc (fun l => l ∖ {[ptr]}) g) U -> Q tt (upd_libc (fun l => l ∖ {[ptr]}) g)) ->
  wp (zus_free ptr) g Q.
Proof.
  intros Hh Hml Hptr HZ HU HL. pose proof Hh as (Hinv&Hup&Hd&Ha&Hlib). pose proof Hinv as [Hok Hun].
  rewrite /zus_free. wp_step. wp_step. rewrite Hup. cbn [negb].
  destruct (Z.eqb_spec ptr 0) as [->|Hne]; [wp_step; by apply HZ|]. destruct Hptr as [?|[HpU|Hpl]]; [done| |].
  - destruct (so_used _ _ Hok ptr HpU) as (bn&s&k&Hp&He). destruct (so_page _ _ Hok bn s k Hp) as [Hs _].
    wp_step. eapply wp_cpu_of_slab; [exact Hh|exact Hp|exact He|]. destruct (Z.ltb_spec s 0); [lia|].
    rewrite /_zus_gsa_free. wp_step. eapply wp_cpu_of_slab; [exact Hh|exact Hp|exact He|]. destruct (Z.ltb_spec s 0); [lia|].
    wp_step. apply wp_slab_of_cpu; [done|]. wp_step. rewrite /_slab_free. wp_step. eapply wp_slab_lock; [exact Hinv|done|].
    pose proof Hp as (Hb&Hk&Hr&Huc&_). pose proof (size_max _ (proj2 (so_pa _ _ Hok))).
    set (g1 := set_lock g s true). assert (Hok1 : slab_ok g1 U) by (by apply slab_ok_lock).
    wp_step. apply wp_with_pa. apply (wp_elem_page g1 bn k); [done|done|done|]. rewrite (upd_pa_id g1).
    wp_step. apply wp_with_pa. rewrite /_page_slab_index. apply wp_get_page; [apply (in_mapping_at (g_pa g)); lia|]. rewrite (upd_pa_id g1).
    change (desc (g_pa g1) (page_at (g_pa g1) bn)) with (pd g bn). rewrite Huc. replace (k + 1 - 1) with k by lia.
    rewrite (proj2 (check_index k) Hk). cbn [negb]. destruct (so_slabs _ _ Hok1 s Hs) as [_ Hls]. destruct (Hls k Hk) as [l Hl].
    do 2 wp_step. eapply (wp_slab_free_elem g1 U s k bn ptr l); try done. intros g2 Hok2 Hf2. wp_step. wp_step.
    eapply wp_slab_unlock; [exact Hok2|destruct Hf2 as (_&->&_); done|]. do 2 wp_step.
    destruct (lock_round g U _ s g2 Hinv Hok2 Hf2) as [Hi' Hf']. apply HU; [done|by eapply heap_frame|done].
  - wp_step. eapply wp_cpu_of_libc; [exact Hh|done|]. cbn [Z.ltb Z.compare]. rewrite /libc_free. wp_step. wp_step.
    wp_step. wp_step; [by apply bool_decide_eq_true_2|]. wp_step. apply HL; [done|]. split; [by apply slab_inv_libc|]. split; [done|]. split; [done|]. split; [done|].
    intros p Hp. apply Hlib. set_solver.
Qed.

(** ** Setup *)
Lemma all_lists_lookup k : list_index_ok k -> all_lists !! k = Some new_list.
Proof. intros Hk. index k Hk; reflexivity. Qed.
Lemma all_lists_new k l : all_lists !! k = Some l -> l = new_list.
Proof.
  rewrite /all_lists. intros Hl. apply elem_of_list_to_map_2, list_elem_of_fmap in Hl as (i&[= _ ->]&_). done.
Qed.
Lemma wp_init_slabs n : forall g c (Q : unit -> gsa -> Prop),
  (forall m, (forall s, m !! s = if decide (c <= s < c + Z.of_nat n) then Some (ZusSlab all_lists s false) else slab g !! s) ->
     Q tt (upd_slab (fun _ => m) g)) ->
  wp (init_slabs n c) g Q.
Proof.
  induction n as [|n IH]; intros g c Q HQ; cbn [init_slabs].
  { wp_step. assert (E : upd_slab (fun _ => slab g) g = g) by (by destruct g). rewrite -E. apply HQ. intros s. case_decide; [lia|done]. }
  rewrite /_slab_init. wp_step. wp_step. apply IH. intros m Hm. apply HQ. intros s. rewrite Hm.
  change (slab (upd_slab ?f g)) with (f (slab g)). cbn beta. rewrite lookup_insert. repeat case_decide; try lia; try done; congruence.
Qed.

Lemma wp_zus_slab_init g nprocs data pages :
  0 < nprocs -> 0 < data -> data mod PAGE_SIZE = 0 -> 0 <= PA_SIZE -> (forall p, p ∈ libc g -> p <> 0 /\ outside data p) ->
  wp (zus_slab_init nprocs 0 0 0 (inr data) (inr pages)) g (fun r g' =>
    if g_up g then r = - EINVAL /\ g' = g
    else r = 0 /\ heap_ok g' ∅ /\ nslabs g' = nprocs /\ data_ptr (g_pa g') = data /\ libc g' = libc g /\ pages_ptr (g_pa g') = pages).
Proof.
  intros Hn Hd Ha HP Hl. rewrite /zus_slab_init. wp_step. wp_step. destruct (g_up g) eqn:Eup; [by wp_step|]. cbn [Z.eqb negb].
  wp_steps. cbn [Z.eqb negb]. wp_steps. apply wp_init_slabs. intros m Hm. rewrite Z2Nat.id in Hm; [lia|]. wp_step. apply wp_with_pa. rewrite /pa_init.
  wp_steps. cbn [Z.eqb negb]. wp_steps. cbn [Z.eqb negb]. wp_steps. set (g' := upd_up _ _). cbn [upd_slab slab] in Hm.
  assert (Hm' : forall s, slab g' !! s = if decide (0 <= s < nprocs) then Some (ZusSlab all_lists s false) else None).
  { intros s. change (slab g') with m. rewrite Hm. repeat case_decide; try lia; done. }
  assert (Hsz : pa_size (g_pa g') = 0) by done.
  assert (Hno : forall b s k, ~ slab_page g' b s k) by (intros b s k (Hb&_); rewrite Hsz in Hb; lia).
  split; [done|]. split; [|done]. split; [|done]. split.
  - split.
    + split; [done|]. split; [done|done|done|constructor| |done].
      intros p. split; [by intros ?%elem_of_nil|]. intros (b&_&Hb&_). rewrite Hsz in Hb. lia.
    + intros s Hs. change (nslabs g') with nprocs in Hs. rewrite /cpu_of /the_list Hm'. case_decide; [|done]. split; [done|].
      intros k Hk. cbn. rewrite all_lists_lookup //.
    + intros s k l. rewrite /the_list Hm'. case_decide; [|done]. cbn. intros ->%all_lists_new. cbn. split; [constructor|]. split; [done|].
      intros e. split; [by intros ?%elem_of_nil|]. intros (b&Hp&_). by apply Hno in Hp.
    + intros b s k Hp. by apply Hno in Hp.
    + intros e He. set_solver + He.
  - intros s b. rewrite /lock_of Hm'. case_decide; [|done]. by intros [= <-].
Qed.

(** Setting the allocator up, for as many CPUs as there are: it is ready, nothing is in
    use; a second call is refused. *)
Theorem zus_slab_init_spec g nprocs data pages :
  0 < nprocs -> 0 < data -> data mod PAGE_SIZE = 0 -> 0 <= PA_SIZE -> (forall p, p ∈ libc g -> p <> 0 /\ outside data p) ->
  wp (zus_slab_init nprocs 0 0 0 (inr data) (inr pages)) g (fun r g' =>
    if g_up g then r = - EINVAL /\ g' = g
    else r = 0 /\ heap_ok g' ∅ /\ nslabs g' = nprocs /\ data_ptr (g_pa g') = data /\ libc g' = libc g).
Proof.
  intros Hn Hd Ha HP Hl. eapply wp_mono; [by apply wp_zus_slab_init|]. intros r g'. cbn beta. destruct (g_up g); [done|].
  by intros (?&?&?&?&?&?).
Qed.

(** ** Size classes *)
(** The list a size is served from: it exists for every size up to a page, its
    elements are large enough, and those of the list before are not. *)
Theorem slab_list_index_spec size : _slab_size_valid size = true ->
  let k := _slab_list_index size in
  0 <= k < ZUS_SLAB_LISTS /\ size <= Z.shiftl 1 (k + ZUS_MIN_SLAB_SHIFT) /\
  (k = 0 \/ Z.shiftl 1 (k - 1 + ZUS_MIN_SLAB_SHIFT) < size).
Proof.
  rewrite /_slab_size_valid. intros [H1%Z.ltb_lt H2%Z.leb_le]%andb_prop.
  destruct (list_index_spec size) as (Hk&Hle&Hlt); [lia|]. cbv zeta. split; [exact Hk|]. rewrite !Z.shiftl_1_l.
  assert (E : forall j, 0 <= j -> 2 ^ (j + ZUS_MIN_SLAB_SHIFT) = elem_size j).
  { intros j Hj. rewrite Z.pow_add_r //. rewrite /elem_size. change (2 ^ ZUS_MIN_SLAB_SHIFT) with ZUS_MIN_SLAB_SIZE. lia. }
  destruct Hk as [Hk0 _]. rewrite E //. split; [done|]. destruct Hlt as [|Hlt]; [by left|].
  destruct (decide (_slab_list_index size = 0)); [by left|]. right. rewrite E //. lia.
Qed.

(** ** malloc and free *)
(** The blocks in use: [e] of [n] bytes. *)
Definition block g U (e n : Z) : Prop := e ∈ U /\ exists bn s k, slab_page g bn s k /\ e ∈ elems g bn k /\ n = elem_size k.

(** [zus_malloc]: NULL, with nothing in use that was not; or a block of the C library
    (for a size over a page, or when the slabs are exhausted); or a slab block that
    was not in use, of at least the size, that overlaps no block in use.  In every case
    the invariant of the heap holds on. *)
Theorem zus_malloc_spec g U size :
  heap_ok g U -> libc_law (data_ptr (g_pa g)) -> 0 <= zus_current_cpu_silent < nslabs g -> 0 < size ->
  (NEED_MLOCK = true -> forall a n, mlock a n = 0) ->
  wp (zus_malloc size) g (fun r g' => mem g' = mem g /\
    ((r = 0 /\ heap_ok g' U /\ libc g' = libc g) \/
     (r <> 0 /\ r ∉ libc g /\ heap_ok g' U /\ libc g' = {[r]} ∪ libc g) \/
     (r ∉ U /\ heap_ok g' ({[r]} ∪ U) /\ libc g' = libc g /\ size <= ZUS_BLOCK_SIZE /\
      (exists n, block g' ({[r]} ∪ U) r n /\ size <= n) /\
      forall e n, block g' U e n -> r + size <= e \/ e + n <= r))).
Proof.
  intros Hh Hlaw Hc Hs Hml. apply (wp_zus_malloc g U); try done.
  - intros g' Hh' _ El Em. split; [done|]. by left.
  - intros r g' Hh' HrU Hle Hf (s&bn&Hp&He). split; [apply Hf|]. right. right.
    destruct (list_index_spec size) as (Hk&Hsz&_); [lia|]. split; [done|]. split; [done|]. split; [apply Hf|]. split; [done|]. split.
    + exists (elem_size (_slab_list_index size)). split; [|done]. split; [set_solver +|]. by exists bn, s, (_slab_list_index size).
    + intros e n (HeU&b'&s'&k'&Hp'&He'&->). destruct (slab_blocks_apart g' U bn (_slab_list_index size) r b' k' e s s') as [?|?]; try done; [by intros ->|lia|lia].
  - intros r g' Hh' Hr Hne _ _ _ El Em. split; [done|]. right. left. by split_and!.
Qed.

(** C37: [zus_free]: a slab block is in use no more and every other one still is, a block
    of the C library goes back to it, NULL is ignored. *)
Theorem zus_free_spec g U ptr :
  heap_ok g U -> (NEED_MLOCK = true -> forall a n, mlock a n = 0) -> ptr = 0 \/ ptr ∈ U \/ ptr ∈ libc g ->
  wp (zus_free ptr) g (fun _ g' => mem g' = mem g /\ nslabs g' = nslabs g /\
    ((ptr ∈ U /\ heap_ok g' (U ∖ {[ptr]}) /\ libc g' = libc g) \/
     (ptr ∈ libc g /\ heap_ok g' U /\ libc g' = libc g ∖ {[ptr]}) \/ (ptr = 0 /\ g' = g))).
Proof.
  intros Hh Hml Hp. apply (wp_zus_free g U); try done.
  - intros ->. split_and!; try done. right. by right.
  - intros g' HU Hh' (F1&F2&F3&F4&F5&F6&F7). split; [done|]. split; [done|]. by left.
  - intros HL Hh'. split; [done|]. split; [done|]. right. by left.
Qed.

(** [zus_calloc] of a size the slabs serve, the product of its arguments wrapped to 64
    bits: the bytes of that size are zero and no other byte has changed.  A block of
    the slabs is never longer than a page, however large the product was: when it
    wraps, the caller gets less than was asked for. *)
Theorem zus_calloc_spec g U nmemb elemsz :
  heap_ok g U -> libc_law (data_ptr (g_pa g)) -> 0 <= zus_current_cpu_silent < nslabs g ->
  (NEED_MLOCK = true -> forall a n, mlock a n = 0) -> _slab_size_valid (u64 (nmemb * elemsz)) = true ->
  wp (zus_calloc nmemb elemsz) g (fun r g' => r = 0 \/
    ((forall a, mem g' a = if decide (r <= a < r + u64 (nmemb * elemsz)) then 0 else mem g a) /\
     (libc g' = {[r]} ∪ libc g \/ exists n, block g' ({[r]} ∪ U) r n /\ u64 (nmemb * elemsz) <= n <= PAGE_SIZE))).
Proof.
  intros Hh Hlaw Hc Hml Hv. pose proof Hh as (_&Hup&_). rewrite /zus_calloc. wp_step. wp_step. rewrite Hup Hv. cbn [negb]. wp_step.
  set (size := u64 (nmemb * elemsz)) in *. apply andb_prop in Hv as [H1%Z.ltb_lt H2%Z.leb_le].
  assert (Hfill : forall r g1, mem g1 = mem g -> forall a,
    mem (upd_mem (fun m a => if (r <=? a) && (a <? r + size) then 0 else m a) g1) a = if decide (r <= a < r + size) then 0 else mem g a).
  { intros r g1 E a. cbn [mem upd_mem]. rewrite E. destruct (Z.leb_spec r a), (Z.ltb_spec a (r + size)); cbn [andb]; case_decide; (done || lia). }
  apply (wp_zus_malloc g U); try done.
  - intros g1 _ _ _ _. cbn [Z.eqb]. wp_step. by left.
  - intros r g1 Hh1 HrU Hle (F1&F2&F3&F4&_) (s&bn&Hp&He). destruct (Z.eqb_spec r 0); [wp_step; by left|]. rewrite /memset. do 2 wp_step. wp_step.
    right. split; [by apply Hfill|]. right. exists (elem_size (_slab_list_index size)). destruct (list_index_spec size) as (Hk&Hsz&_); [lia|].
    split; [split; [set_solver +|]; by exists bn, s, (_slab_list_index size)|]. destruct (elems_fill _ Hk) as (?&?&?). nia.
  - intros r g1 Hh1 Hr Hne _ _ _ El Em. destruct (Z.eqb_spec r 0); [done|]. rewrite /memset. do 2 wp_step. wp_step.
    right. split; [by apply Hfill|]. by left.
Qed.

(** [zus_realloc] of a block of the C library to a size the slabs serve never returns
    a block: it asks the slabs for the size of the old one, which has no page there. *)
Theorem realloc_libc_aborts g U ptr size r g' :
  heap_ok g U -> libc_law (data_ptr (g_pa g)) -> 0 <= zus_current_cpu_silent < nslabs g -> 0 < size <= ZUS_BLOCK_SIZE ->
  (NEED_MLOCK = true -> forall a n, mlock a n = 0) -> ptr ∈ libc g -> 0 < pages_ptr (g_pa g) ->
  zus_realloc ptr size g = Some (r, g') -> r = 0.
Proof.
  intros Hh Hlaw Hc Hsz Hml Hp Hpages Hrun. pose proof Hh as (Hinv&Hup&_&_&Hl). destruct (Hl ptr Hp) as [Hne Hout].
  assert (Hcpu : _zus_gsa_cpu_of ptr g = Some (-1, g)).
  { destruct (wp_exists _ _ _ (wp_cpu_of_libc g U ptr (fun c s => c = -1 /\ s = g) Hh Hp ltac:(done))) as (c&s&->&->&->). done. }
  assert (Hm : wp (zus_malloc size) g (fun q g1 => q = 0 \/
    (pa_size (g_pa g1) * PAGE_SIZE <= PA_SIZE /\ data_ptr (g_pa g1) = data_ptr (g_pa g) /\ pages_ptr (g_pa g1) = pages_ptr (g_pa g)))).
  { assert (Hfits : forall g1 U1, heap_ok g1 U1 -> pa_size (g_pa g1) * PAGE_SIZE <= PA_SIZE)
      by (intros g1 U1 ((Hok&_)&_); apply (ok_fits _ (proj2 (so_pa _ _ Hok)))).
    apply (wp_zus_malloc g U); try done; [lia|by left| |].
    - intros q g1 Hh1 _ _ (F1&F2&F3&F4&F5&F6&F7) _. right. split; [by eapply Hfits|done].
    - intros q g1 Hh1 _ _ _ E1 E2 _ _. right. split; [by eapply Hfits|done]. }
  revert Hrun. rewrite /zus_realloc {1}/mbind /ST_bind {1}/gets Hup. cbn [negb]. destruct (Z.eqb_spec ptr 0); [done|]. destruct (Z.eqb_spec size 0); [lia|].
  rewrite /mbind /ST_bind Hcpu. cbn [Z.ltb Z.compare]. rewrite /_slab_size_valid.
  destruct (Z.ltb_spec 0 size); [|lia]. destruct (Z.leb_spec size ZUS_BLOCK_SIZE); [|lia]. cbn [andb negb].
  revert Hm. rewrite /wp. destruct (zus_malloc size g) as [[q g1]|]; [|done]. intros [->|(Hf&Ed&Ep)].
  { cbn [Z.eqb]. by intros [= <- _]. }
  destruct (Z.eqb_spec q 0) as [E|_]; [by intros [= <- _]|]. rewrite /__elem_size /with_pa /zoom /mbind /ST_bind.
  assert (Ev : pa_virt_to_page ptr (g_pa g1) = Some (0, g_pa g1)).
  { rewrite /pa_virt_to_page /_pa_valid_addr /mbind /ST_bind /gets Ed. 
    destruct (Z.ltb_spec ptr (data_ptr (g_pa g))); [done|]. destruct Hout; [lia|].
    destruct (Z.leb_spec (data_ptr (g_pa g) + pa_size (g_pa g1) * PAGE_SIZE) ptr); [done|lia]. }
  rewrite Ev. rewrite /_page_slab_index /get_page /gets /mbind /ST_bind.
  replace (in_mapping _ 0) with false; [done|]. symmetry. rewrite /in_mapping. change (g_pa (upd_pa _ g1)) with (g_pa g1). rewrite Ep.
  by destruct (Z.leb_spec (pages_ptr (g_pa g)) 0); [lia|].
Qed.
End heap.

(** ** An example: two CPUs, and a C library with one block to give *)
Section example.
#[local] Instance heap_pa_env : PaEnv := {| PA_SIZE := 2 ^ 27; NEED_MLOCK := false; mlock _ _ := 0 |}.
#[local] Instance heap_slab_env : SlabEnv :=
  {| libc_malloc live _ := if decide (2 ^ 40 ∈ live) then 0 else 2 ^ 40; zus_current_cpu_silent := 1; busy _ := false |}.
Definition gsa_zero : gsa := Gsa false pa_zero 0 ∅ ∅ (fun _ => 0).
Lemma heap_example_law : libc_law (2 ^ 30).
Proof.
  intros live size. cbn [libc_malloc heap_slab_env]. case_decide as E; [by left|]. right. split; [done|]. right. cbn. lia.
Qed.
(** A heap just set up, with the block of the C library in use. *)
Lemma heap_example : exists g, heap_ok g ∅ /\ nslabs g = 2 /\ data_ptr (g_pa g) = 2 ^ 30 /\ pages_ptr (g_pa g) = 65536 /\ libc g = {[2 ^ 40]}.
Proof.
  destruct (wp_exists _ _ _ (wp_zus_slab_init gsa_zero 2 (2 ^ 30) 65536 ltac:(done) ltac:(done) ltac:(done) ltac:(done)
    ltac:(intros p Hp; exfalso; set_solver + Hp))) as (r&g&_&_&Hh&Hn&Hd&_&Hp).
  exists (upd_libc (fun _ => {[2 ^ 40]}) g). split; [|done]. destruct Hh as (Hi&H2&H3&H4&_). split; [by apply slab_inv_libc|].
  split; [done|]. split; [done|]. split; [done|]. cbn [libc upd_libc g_pa]. rewrite Hd.
  intros p ->%elem_of_singleton. split; [done|]. right. cbn. lia.
Qed.
Lemma zus_slab_init_spec_witness :
  wp (zus_slab_init 2 0 0 0 (inr (2 ^ 30)) (inr 65536)) gsa_zero (fun r g => r = 0 /\ heap_ok g ∅ /\ nslabs g = 2).
Proof.
  eapply wp_mono; [apply (zus_slab_init_spec gsa_zero 2 (2 ^ 30) 65536); [done|done|done|done|intros p Hp; exfalso; set_solver + Hp]|].
  intros r g (H1&H2&H3&_). split; [exact H1|]. split; [exact H2|exact H3].
Defined.
Lemma slab_list_index_spec_witness : _slab_list_index 33 = 1 /\ _slab_list_index 4096 = 7 /\ 33 <= 64.
Proof.
  split; [reflexivity|]. split; [reflexivity|]. destruct (slab_list_index_spec 33 eq_refl) as (_&E&_). exact E.
Defined.
Lemma zus_malloc_spec_witness : exists g, wp (zus_malloc 100) g (fun r g' => mem g' = mem g).
Proof.
  destruct heap_example as (g&Hh&Hn&Hd&_&_). exists g.
  eapply wp_mono; [apply (zus_malloc_spec g ∅ 100); [exact Hh|rewrite Hd; exact heap_example_law|rewrite Hn; done|done|discriminate]|].
  intros r g' [E _]. exact E.
Defined.
(** The block of the C library; and whatever block [zus_malloc] gives, of a slab or not. *)
Lemma zus_free_spec_witness : exists g, wp (zus_free (2 ^ 40)) g (fun _ g' => nslabs g' = nslabs g) /\
  wp (r ← zus_malloc 100; zus_free r) g (fun _ g' => mem g' = mem g /\ exists U, heap_ok g' U).
Proof.
  destruct heap_example as (g&Hh&Hn&Hd&_&Hl). exists g. split.
  - eapply wp_mono; [apply (zus_free_spec g ∅ (2 ^ 40)); [exact Hh|discriminate|right; right; rewrite Hl; set_solver +]|].
    intros r g' (_&E&_). exact E.
  - apply wp_bind. eapply wp_mono; [apply (zus_malloc_spec g ∅ 100); [exact Hh|rewrite Hd; exact heap_example_law|rewrite Hn; done|done|discriminate]|].
    intros r g1 [Em Hr]. assert (Hr' : exists U, heap_ok g1 U /\ (r = 0 \/ r ∈ U \/ r ∈ libc g1)).
    { destruct Hr as [(E & Hh1 & _)|[(_ & _ & Hh1 & El)|(_ & Hh1 & _)]]; [by exists ∅; split; [|left]|exists ∅|exists ({[r]} ∪ ∅)]; (split; [exact Hh1|]).
      - right. right. rewrite El. set_solver +.
      - right. left. set_solver +. }
    destruct Hr' as (U & Hh1 & Hin). eapply wp_mono; [apply (zus_free_spec g1 U r); [exact Hh1|discriminate|exact Hin]|].
    intros u g2 (Em2 & _ & Hc). rewrite Em2 Em. split; [done|]. destruct Hc as [(_ & H2 & _)|[(_ & H2 & _)|[_ ->]]]; by eexists.
Defined.
(** 2^60 and one objects of 32 bytes: 32 bytes are cleared. *)
Lemma zus_calloc_spec_witness : exists g, wp (zus_calloc (2 ^ 60 + 1) 32) g (fun r g' => r = 0 \/
  forall a, mem g' a = if decide (r <= a < r + u64 ((2 ^ 60 + 1) * 32)) then 0 else mem g a).
Proof.
  destruct heap_example as (g&Hh&Hn&Hd&_&_). exists g.
  eapply wp_mono; [apply (zus_calloc_spec g ∅ (2 ^ 60 + 1) 32); [exact Hh|rewrite Hd; exact heap_example_law|rewrite Hn; done|discriminate|reflexivity]|].
  intros r g' [E|[E _]]; [left; exact E|right; exact E].
Defined.
Lemma realloc_libc_aborts_witness : exists g, forall r g', zus_realloc (2 ^ 40) 64 g = Some (r, g') -> r = 0.
Proof.
  destruct heap_example as (g&Hh&Hn&Hd&Hp&Hl). exists g. intros r g'.
  apply (realloc_libc_aborts g ∅ (2 ^ 40) 64); [exact Hh|rewrite Hd; exact heap_example_law|rewrite Hn; done|done|discriminate|rewrite Hl; set_solver +|rewrite Hp; done].
Defined.
End example.
