(* ===== verification/Md.v ===== *)
(** * Multi-devices: md_zus.c

    The checksum of a device table, the arrays that map blocks to devices, and the check
    of a table against the main one.  The layouts of md_def.h and the inline functions of
    md.h are parameters. *)

From S2P Require Import Prelude State.

(** ** The checksum *)
Definition crc_table : list Z := [
  0; 49345; 49537; 320; 49921; 960; 640; 49729; 50689; 1728; 1920; 51009; 1280; 50625; 50305; 1088;
  52225; 3264; 3456; 52545; 3840; 53185; 52865; 3648; 2560; 51905; 52097; 2880; 51457; 2496; 2176; 51265;
  55297; 6336; 6528; 55617; 6912; 56257; 55937; 6720; 7680; 57025; 57217; 8000; 56577; 7616; 7296; 56385;
  5120; 54465; 54657; 5440; 55041; 6080; 5760; 54849; 53761; 4800; 4992; 54081; 4352; 53697; 53377; 4160;
  61441; 12480; 12672; 61761; 13056; 62401; 62081; 12864; 13824; 63169; 63361; 14144; 62721; 13760; 13440; 62529;
  15360; 64705; 64897; 15680; 65281; 16320; 16000; 65089; 64001; 15040; 15232; 64321; 14592; 63937; 63617; 14400;
  10240; 59585; 59777; 10560; 60161; 11200; 10880; 59969; 60929; 11968; 12160; 61249; 11520; 60865; 60545; 11328;
  58369; 9408; 9600; 58689; 9984; 59329; 59009; 9792; 8704; 58049; 58241; 9024; 57601; 8640; 8320; 57409;
  40961; 24768; 24960; 41281; 25344; 41921; 41601; 25152; 26112; 42689; 42881; 26432; 42241; 26048; 25728; 42049;
  27648; 44225; 44417; 27968; 44801; 28608; 28288; 44609; 43521; 27328; 27520; 43841; 26880; 43457; 43137; 26688;
  30720; 47297; 47489; 31040; 47873; 31680; 31360; 47681; 48641; 32448; 32640; 48961; 32000; 48577; 48257; 31808;
  46081; 29888; 30080; 46401; 30464; 47041; 46721; 30272; 29184; 45761; 45953; 29504; 45313; 29120; 28800; 45121;
  20480; 37057; 37249; 20800; 37633; 21440; 21120; 37441; 38401; 22208; 22400; 38721; 21760; 38337; 38017; 21568;
  39937; 23744; 23936; 40257; 24320; 40897; 40577; 24128; 23040; 39617; 39809; 23360; 39169; 22976; 22656; 38977;
  34817; 18624; 18816; 35137; 19200; 35777; 35457; 19008; 19968; 36545; 36737; 20288; 36097; 19904; 19584; 35905;
  17408; 33985; 34177; 17728; 34561; 18368; 18048; 34369; 33281; 17088; 17280; 33601; 16640; 33217; 32897; 16448].
Definition crc16_byte (crc d : Z) : Z :=
  let tbl_idx := Z.land (Z.lxor crc d) 255 in
  Z.land (Z.lxor (nth (Z.to_nat tbl_idx) crc_table 0) (Z.shiftr crc 8)) 65535.
Definition crc16 (crc : Z) (data : list Z) : Z := Z.land (fold_left crc16_byte data crc) 65535.

(** ** Greatest common divisor *)
(** [while ((tmp = _x % _y) != 0)]; a round halves [_y] every second time, so that 129
    rounds are enough for 64 bits. *)
Definition GCD_FUEL : nat := 129.
Fixpoint gcd_loop (fuel : nat) (x y : Z) : option Z :=
  match fuel with
  | O => None
  | S k => let tmp := x mod y in if tmp =? 0 then Some y else gcd_loop k y tmp
  end.
Definition _gcd (x y : Z) : option Z :=
  let '(x, y) := if x <? y then (y, x) else (x, y) in
  if y =? 0 then Some x else gcd_loop GCD_FUEL x y.

(** ** Tables and devices *)
Record md_dev_id := MdDevId { di_uuid : list Z; di_blocks : Z; di_nid : Z }.
Record md_dev_list := MdDevList { id_index : Z; t1_count : Z; t2_count : Z; rmem_count : Z; dev_ids : list md_dev_id }.
(** [s_static] are the bytes from [s_version] on that the checksum covers. *)
Record md_dev_table := MdDevTable { s_sum : Z; s_static : list Z; s_magic : Z; s_uuid : list Z; s_dev_list : md_dev_list }.
Record mdt_check := MdtCheck { mc_alloc_mask : Z; mc_major_ver : Z; mc_minor_ver : Z; mc_magic : Z }.
Record md_dev_info := MdDevInfo { d_offset : Z; d_index : Z; d_size : Z; d_nid : Z; virt_addr : Z }.
(** [map] holds indices into [devs]. *)
Record md_dev_larray := MdDevLarray { bn_gcd : Z; map : option (list Z) }.
Record multi_devices := MultiDevices {
  mdt_list : md_dev_list;
  p_pmem_addr : Z;
  m_t1_count : Z;
  m_t2_count : Z;
  devs : list md_dev_info;
  t1a : md_dev_larray;
  t2a : md_dev_larray }.
Definition upd_devs (f : list md_dev_info -> list md_dev_info) (md : multi_devices) : multi_devices :=
  MultiDevices (mdt_list md) (p_pmem_addr md) (m_t1_count md) (m_t2_count md) (f (devs md)) (t1a md) (t2a md).
Definition upd_t1a (f : md_dev_larray -> md_dev_larray) (md : multi_devices) : multi_devices :=
  MultiDevices (mdt_list md) (p_pmem_addr md) (m_t1_count md) (m_t2_count md) (devs md) (f (t1a md)) (t2a md).
Definition upd_t2a (f : md_dev_larray -> md_dev_larray) (md : multi_devices) : multi_devices :=
  MultiDevices (mdt_list md) (p_pmem_addr md) (m_t1_count md) (m_t2_count md) (devs md) (t1a md) (f (t2a md)).

(** md.h and md_def.h *)
Class DevApi : Type := {
  mdt_major_version : md_dev_table -> Z;
  mdt_minor_version : md_dev_table -> Z;
  __dev_id_blocks : md_dev_id -> Z;
  __dev_id_nid : md_dev_id -> Z;
  blocks_t1 : multi_devices -> Z;
  blocks_t2 : multi_devices -> Z;
}.

Section md.
Context `{MdApi} `{DevApi}.

Definition md_calc_csum (mdt : md_dev_table) : Z := crc16 65535 (s_static mdt).
Definition _init_dev_info (mdi : md_dev_info) (id : md_dev_id) (index offset pmem_addr : Z) : md_dev_info :=
  MdDevInfo offset index (md_p2o (__dev_id_blocks id)) (__dev_id_nid id)
    (if negb (pmem_addr =? 0) then pmem_addr + offset else virt_addr mdi).

(** The loop of [_map_setup] from round [i] on, [n] rounds. *)
Fixpoint map_loop (n : nat) (i bn_end dev_index gcd : Z) (ds : list md_dev_info) : option (list Z) :=
  match n with
  | O => Some []
  | S k =>
    '(bn_end, dev_index) ← (if bn_end <=? i * gcd then
        d ← ds !! Z.to_nat (dev_index + 1); Some (u64 (bn_end + md_o2p (d_size d)), dev_index + 1)
      else Some (bn_end, dev_index));
    l ← map_loop k (i + 1) bn_end dev_index gcd ds;
    Some (dev_index :: l)
  end.
(** [mem]: does calloc succeed?  None is a division by zero, an access out of bounds, or a
    loop that never ends: its counter has 32 bits. *)
Definition _map_setup (mem : bool) (ds : list md_dev_info) (blocks dev_start : Z) (larray : md_dev_larray) : option (Z * md_dev_larray) :=
  if bn_gcd larray =? 0 then None else
  let map_size := blocks / bn_gcd larray in
  if 2 ^ 32 <=? map_size then None else
  if negb mem then Some (- ENOMEM, MdDevLarray (bn_gcd larray) None) else
  d ← ds !! Z.to_nat dev_start;
  l ← map_loop (Z.to_nat map_size) 0 (md_o2p (d_size d)) dev_start (bn_gcd larray) ds;
  Some (0, MdDevLarray (bn_gcd larray) (Some l)).

(** One of the two loops of [md_init_from_pmem_info]: [n] devices from [i] on; [upd] picks
    the array whose divisor is kept. *)
Fixpoint init_devs (n : nat) (i offset pmem_addr : Z) (get : multi_devices -> md_dev_larray)
    (upd : (md_dev_larray -> md_dev_larray) -> multi_devices -> multi_devices) (md : multi_devices) : option multi_devices :=
  match n with
  | O => Some md
  | S k =>
    mdi ← devs md !! Z.to_nat i;
    id ← dev_ids (mdt_list md) !! Z.to_nat i;
    let mdi' := _init_dev_info mdi id i offset pmem_addr in
    g ← _gcd (bn_gcd (get md)) (md_o2p (d_size mdi'));
    init_devs k (i + 1) (u64 (offset + d_size mdi')) pmem_addr get upd
      (upd (fun a => MdDevLarray g (map a)) (upd_devs (<[Z.to_nat i := mdi']>) md))
  end.
(** [mem1], [mem2]: do the allocations of the two maps succeed? *)
Definition md_init_from_pmem_info (mem1 mem2 : bool) (md : multi_devices) : option (Z * multi_devices) :=
  let l := mdt_list md in
  let md := MultiDevices l (p_pmem_addr md) (t1_count l) (t2_count l) (devs md) (t1a md) (t2a md) in
  md ← init_devs (Z.to_nat (m_t1_count md)) 0 0 (p_pmem_addr md) t1a upd_t1a md;
  md ← init_devs (Z.to_nat (m_t2_count md)) (Z.max 0 (m_t1_count md)) 0 0 t2a upd_t2a md;
  '(err, md) ← (if negb (m_t1_count md =? 0) then
      '(err, a) ← _map_setup mem1 (devs md) (blocks_t1 md) 0 (t1a md); Some (err, upd_t1a (fun _ => a) md)
    else Some (0, md));
  if negb (err =? 0) then Some (err, md) else
  '(err, md) ← (if negb (m_t2_count md =? 0) then
      '(err, a) ← _map_setup mem2 (devs md) (blocks_t2 md) (m_t1_count md) (t2a md); Some (err, upd_t2a (fun _ => a) md)
    else Some (0, md));
  Some (err, md).
(** The maps are freed; the pointers stay. *)
Definition md_fini (md : multi_devices) : list (option (list Z)) :=
  (if negb (m_t2_count md =? 0) then [map (t2a md)] else []) ++ (if negb (m_t1_count md =? 0) then [map (t1a md)] else []).

(** ** Checking a table *)
Definition _csum_mismatch (mdt : md_dev_table) : bool := negb (s_sum mdt =? md_calc_csum mdt).
Definition _uuid_le_equal (u1 u2 : list Z) : bool := bool_decide (u1 = u2).
(** [for (i = 0; i < dev_count; ++i)], [n] rounds left; None is an access out of bounds. *)
Fixpoint compare_devs (n : nat) (i : nat) (l1 l2 : list md_dev_id) : option bool :=
  match n with
  | O => Some true
  | S k =>
    d1 ← l1 !! i; d2 ← l2 !! i;
    if negb (_uuid_le_equal (di_uuid d1) (di_uuid d2)) then Some false
    else if negb (di_blocks d1 =? di_blocks d2) then Some false
    else compare_devs k (S i) l1 l2
  end.
Definition _mdt_compare_uuids (mdt main_mdt : md_dev_table) : option bool :=
  if negb (_uuid_le_equal (s_uuid mdt) (s_uuid main_mdt)) then Some false else
  let l := s_dev_list mdt in
  compare_devs (Z.to_nat (t1_count l + t2_count l + rmem_count l)) 0 (dev_ids l) (dev_ids (s_dev_list main_mdt)).
Definition md_mdt_check (mdt : md_dev_table) (main_mdt : option md_dev_table) (mc : mdt_check) : option bool :=
  if negb (s_magic mdt =? mc_magic mc) then Some false else
  if negb (mc_major_ver mc =? u32 (mdt_major_version mdt)) || (mc_minor_ver mc <? u32 (mdt_minor_version mdt)) then Some false else
  if _csum_mismatch mdt then Some false else
  let l := s_dev_list mdt in
  ok ← (match main_mdt with
        | None => Some true
        | Some m =>
          let l' := s_dev_list m in
          if negb (t1_count l =? t1_count l') then Some false
          else if negb (t2_count l =? t2_count l') then Some false
          else if negb (rmem_count l =? rmem_count l') then Some false
          else _mdt_compare_uuids mdt m
        end);
  if negb ok then Some false else
  if (id_index l <? 0) || (t1_count l + t2_count l <? id_index l) then Some false else
  dev_id ← dev_ids l !! Z.to_nat (id_index l);
  let super_size := md_p2o (__dev_id_blocks dev_id) in
  if (super_size =? 0) || negb (Z.land super_size (mc_alloc_mask mc) =? 0) then Some false else Some true.
End md.

(** A concrete instance, for the witnesses: versions of 1 and 0, blocks as they are. *)
Definition example_dev : DevApi := {|
  mdt_major_version _ := 1; mdt_minor_version _ := 0; __dev_id_blocks := di_blocks; __dev_id_nid := di_nid;
  blocks_t1 md := foldr Z.add 0 (di_blocks <$> take (Z.to_nat (t1_count (mdt_list md))) (dev_ids (mdt_list md)));
  blocks_t2 md := foldr Z.add 0 (di_blocks <$> take (Z.to_nat (t2_count (mdt_list md))) (drop (Z.to_nat (t1_count (mdt_list md))) (dev_ids (mdt_list md)))) |}.
