(* ===== verification/MdSpec.v ===== *)
(** * Multi-devices: the theorems

    The table-driven checksum is the bit-serial one; the maps take every block to the
    device it is on; what the check of a table accepts. *)

From S2P Require Import Prelude State Md.

(** ** The checksum *)
(** CRC-16 with the reflected polynomial 0xA001, a bit at a time. *)
Definition crc_bit (c : Z) : Z := if Z.odd c then Z.lxor (Z.shiftr c 1) 40961 else Z.shiftr c 1.
Definition crc_bits (c : Z) : Z := Nat.iter 8 crc_bit c.
Definition crc_serial (crc : Z) (data : list Z) : Z := fold_left (fun c d => crc_bits (Z.lxor c d)) data crc.

Definition is_byte (d : Z) : Prop := 0 <= d < 256.
Definition is_u16 (c : Z) : Prop := 0 <= c < 65536.

Lemma crc_bit_lxor a b : crc_bit (Z.lxor a b) = Z.lxor (crc_bit a) (crc_bit b).
Proof.
  rewrite /crc_bit -!Z.bit0_odd Z.lxor_spec Z.shiftr_lxor. destruct (Z.testbit a 0), (Z.testbit b 0); cbn [xorb].
  - rewrite -!Z.lxor_assoc. rewrite (Z.lxor_assoc (Z.shiftr a 1) 40961) (Z.lxor_comm 40961) -Z.lxor_assoc (Z.lxor_assoc _ 40961) Z.lxor_nilpotent.
    by rewrite Z.lxor_0_r.
  - by rewrite !Z.lxor_assoc (Z.lxor_comm 40961).
  - by rewrite Z.lxor_assoc.
  - done.
Qed.
Lemma crc_bits_lxor a b : crc_bits (Z.lxor a b) = Z.lxor (crc_bits a) (crc_bits b).
Proof. rewrite /crc_bits. cbn [Nat.iter nat_rect]. by rewrite !crc_bit_lxor. Qed.
Lemma crc_bit_even x : crc_bit (2 * x) = x.
Proof. rewrite /crc_bit Z.odd_mul /= Z.shiftr_div_pow2 //. change (2 ^ 1) with 2. by rewrite Z.mul_comm Z.div_mul. Qed.
Lemma crc_bits_high h : crc_bits (Z.shiftl h 8) = h.
Proof.
  rewrite /crc_bits Z.shiftl_mul_pow2 //. cbn [Nat.iter nat_rect]. change (2 ^ 8) with 256.
  replace (h * 256) with (2 * (2 * (2 * (2 * (2 * (2 * (2 * (2 * h)))))))) by lia. by rewrite !crc_bit_even.
Qed.
Lemma split_byte x : x = Z.lxor (Z.land x 255) (Z.shiftl (Z.shiftr x 8) 8).
Proof.
  apply Z.bits_inj'. intros n Hn. change 255 with (Z.ones 8). rewrite Z.lxor_spec Z.land_spec.
  destruct (Z.lt_ge_cases n 8).
  - rewrite Z.ones_spec_low; [lia|]. by rewrite Z.shiftl_spec_low // andb_true_r xorb_false_r.
  - rewrite Z.ones_spec_high; [lia|]. rewrite andb_false_r Z.shiftl_spec // Z.shiftr_spec; [lia|]. by rewrite xorb_false_l Z.sub_add.
Qed.
Lemma crc_table_bits i : (i < 256)%nat -> nth i crc_table 0 = crc_bits (Z.of_nat i).
Proof.
  intros Hi. assert (E : forallb (fun i => nth i crc_table 0 =? crc_bits (Z.of_nat i)) (seq 0 256) = true) by (vm_compute; reflexivity).
  rewrite forallb_forall in E. apply Z.eqb_eq, E, in_seq. lia.
Qed.
Lemma land_byte x : is_byte (Z.land x 255).
Proof. change 255 with (Z.ones 8). rewrite /is_byte Z.land_ones //. apply Z.mod_pos_bound. done. Qed.
Lemma shiftr_byte d : is_byte d -> Z.shiftr d 8 = 0.
Proof. intros [? ?]. rewrite Z.shiftr_div_pow2 //. by apply Z.div_small. Qed.
Lemma shiftr_u16 c : is_u16 c -> is_byte (Z.shiftr c 8).
Proof.
  intros [? ?]. rewrite /is_byte Z.shiftr_div_pow2 //. split; [by apply Z.div_pos|]. by apply Z.div_lt_upper_bound.
Qed.
Lemma land_u16 x : is_u16 (Z.land x 65535).
Proof. change 65535 with (Z.ones 16). rewrite /is_u16 Z.land_ones //. apply Z.mod_pos_bound. done. Qed.
Lemma land_u16_id c : is_u16 c -> Z.land c 65535 = c.
Proof. intros Hc. change 65535 with (Z.ones 16). rewrite Z.land_ones //. by apply Z.mod_small. Qed.
Definition table_at (i : Z) : Z := nth (Z.to_nat i) crc_table 0.
Lemma table_u16 i : is_byte i -> is_u16 (table_at i).
Proof.
  intros Hi. assert (E : forallb (fun i => (0 <=? nth i crc_table 0) && (nth i crc_table 0 <? 65536)) (seq 0 256) = true) by (vm_compute; reflexivity).
  rewrite forallb_forall in E. specialize (E (Z.to_nat i)). rewrite andb_true_iff in E.
  destruct E as [E1%Z.leb_le E2%Z.ltb_lt]; [apply in_seq; rewrite /is_byte in Hi; lia|]. by split.
Qed.
Lemma lxor_u16 a b : is_u16 a -> is_u16 b -> is_u16 (Z.lxor a b).
Proof.
  intros Ha Hb. rewrite -(land_u16_id a Ha) -(land_u16_id b Hb). 
  assert (Z.lxor (Z.land a 65535) (Z.land b 65535) = Z.land (Z.lxor a b) 65535) as ->; [|apply land_u16].
  apply Z.bits_inj'. intros n Hn. rewrite Z.lxor_spec !Z.land_spec Z.lxor_spec. by destruct (Z.testbit a n), (Z.testbit b n), (Z.testbit 65535 n).
Qed.
Lemma byte_u16 d : is_byte d -> is_u16 d.
Proof. rewrite /is_byte /is_u16. lia. Qed.
(** The step without its last mask. *)
Lemma crc16_byte_eq c d : is_u16 c -> crc16_byte c d = Z.lxor (table_at (Z.land (Z.lxor c d) 255)) (Z.shiftr c 8).
Proof.
  intros Hc. apply land_u16_id, lxor_u16; [apply table_u16, land_byte|by apply byte_u16, shiftr_u16].
Qed.
Lemma crc16_byte_serial c d : is_u16 c -> is_byte d -> crc16_byte c d = crc_bits (Z.lxor c d).
Proof.
  intros Hc Hd. rewrite crc16_byte_eq // {2}(split_byte (Z.lxor c d)) crc_bits_lxor crc_bits_high Z.shiftr_lxor (shiftr_byte d) // Z.lxor_0_r.
  f_equal. pose proof (land_byte (Z.lxor c d)) as [? ?]. rewrite /table_at crc_table_bits; [lia|]. by rewrite Z2Nat.id.
Qed.
Lemma crc16_byte_u16 c d : is_u16 (crc16_byte c d).
Proof. apply land_u16. Qed.
Lemma fold_u16 data : forall c, is_u16 c -> is_u16 (fold_left crc16_byte data c).
Proof. induction data as [|d data IH]; intros c Hc; [done|]. apply IH, crc16_byte_u16. Qed.
Lemma fold_crc data : forall c, is_u16 c -> Forall is_byte data -> fold_left crc16_byte data c = crc_serial c data.
Proof.
  induction data as [|d data IH]; intros c Hc Hd; [done|]. apply Forall_cons_1 in Hd as [Hd Hds]. cbn [fold_left crc_serial].
  rewrite IH //; [apply crc16_byte_u16|]. by rewrite crc16_byte_serial.
Qed.

(** C30: The table-driven checksum is the bit-serial CRC-16. *)
Theorem crc16_is_serial crc data : 0 <= crc < 65536 -> Forall is_byte data -> crc16 crc data = crc_serial crc data.
Proof. intros Hc Hd. rewrite /crc16 land_u16_id; [by apply fold_u16|by apply fold_crc]. Qed.
Lemma crc16_is_serial_witness : Forall is_byte [49; 50; 51; 52] /\ crc16 65535 [49; 50; 51; 52] = crc_serial 65535 [49; 50; 51; 52].
Proof.
  assert (Hd : Forall is_byte [49; 50; 51; 52]) by (repeat (apply Forall_cons; split; [split; [discriminate|reflexivity]|]); apply Forall_nil_2).
  split; [exact Hd|]. apply (crc16_is_serial 65535 [49; 50; 51; 52]); [split; [discriminate|reflexivity]|exact Hd].
Defined.

(** A step is injective in the checksum and in the byte. *)
Lemma table_high_inj i j : is_byte i -> is_byte j -> Z.shiftr (table_at i) 8 = Z.shiftr (table_at j) 8 -> i = j.
Proof.
  intros Hi Hj. assert (E : forallb (fun i => forallb (fun j => (i =? j)%nat || negb (Z.shiftr (nth i crc_table 0) 8 =? Z.shiftr (nth j crc_table 0) 8))
    (seq 0 256)) (seq 0 256) = true) by (vm_compute; reflexivity).
  rewrite /is_byte in Hi, Hj. rewrite forallb_forall in E. specialize (E (Z.to_nat i) ltac:(apply in_seq; lia)).
  rewrite forallb_forall in E. specialize (E (Z.to_nat j) ltac:(apply in_seq; lia)). intros Eq. rewrite /table_at in Eq.
  apply orb_true_iff in E as [E%Nat.eqb_eq|E]; [lia|]. by rewrite Eq Z.eqb_refl in E.
Qed.
Lemma lxor_cancel_l a b c : Z.lxor a b = Z.lxor a c -> b = c.
Proof. intros E. apply (f_equal (Z.lxor a)) in E. by rewrite -!Z.lxor_assoc !Z.lxor_nilpotent !Z.lxor_0_l in E. Qed.
Lemma crc16_byte_inj c c' d d' : is_u16 c -> is_u16 c' -> crc16_byte c d = crc16_byte c' d' ->
  Z.land (Z.lxor c d) 255 = Z.land (Z.lxor c' d') 255 /\ Z.shiftr c 8 = Z.shiftr c' 8.
Proof.
  intros Hc Hc'. rewrite !crc16_byte_eq //. intros E.
  assert (Ei : Z.land (Z.lxor c d) 255 = Z.land (Z.lxor c' d') 255).
  { apply table_high_inj; [apply land_byte..|]. apply (f_equal (fun x => Z.shiftr x 8)) in E.
    by rewrite !Z.shiftr_lxor !(shiftr_byte (Z.shiftr _ 8)) ?Z.lxor_0_r in E; try apply shiftr_u16. }
  split; [done|]. rewrite Ei in E. by eapply lxor_cancel_l.
Qed.
Lemma land_lxor x y : Z.land (Z.lxor x y) 255 = Z.lxor (Z.land x 255) (Z.land y 255).
Proof. apply Z.bits_inj'. intros n Hn. rewrite Z.lxor_spec !Z.land_spec Z.lxor_spec. by destruct (Z.testbit x n), (Z.testbit y n), (Z.testbit 255 n). Qed.
Lemma land_byte_id d : is_byte d -> Z.land d 255 = d.
Proof. intros Hd. change 255 with (Z.ones 8). rewrite Z.land_ones //. by apply Z.mod_small. Qed.
Lemma crc16_byte_inj_crc c c' d : is_u16 c -> is_u16 c' -> crc16_byte c d = crc16_byte c' d -> c = c'.
Proof.
  intros Hc Hc' E. apply crc16_byte_inj in E as [E1 E2]; [|done..]. rewrite !land_lxor in E1.
  rewrite !(Z.lxor_comm _ (Z.land d 255)) in E1. apply lxor_cancel_l in E1. by rewrite (split_byte c) (split_byte c') E1 E2.
Qed.
Lemma crc16_byte_inj_data c d d' : is_u16 c -> is_byte d -> is_byte d' -> crc16_byte c d = crc16_byte c d' -> d = d'.
Proof.
  intros Hc Hd Hd' E. apply crc16_byte_inj in E as [E1 _]; [|done..]. rewrite !land_lxor in E1. apply lxor_cancel_l in E1.
  by rewrite !land_byte_id in E1.
Qed.
Lemma fold_inj data : forall c c', is_u16 c -> is_u16 c' -> fold_left crc16_byte data c = fold_left crc16_byte data c' -> c = c'.
Proof.
  induction data as [|d data IH]; intros c c' Hc Hc' E; [done|]. apply IH in E; [|apply crc16_byte_u16..].
  by eapply crc16_byte_inj_crc.
Qed.
(** Two byte strings that differ in one byte have different checksums. *)
Lemma crc16_one_byte crc l1 d d' l2 : is_u16 crc -> is_byte d -> is_byte d' -> d <> d' -> crc16 crc (l1 ++ d :: l2) <> crc16 crc (l1 ++ d' :: l2).
Proof.
  intros Hc Hd Hd' Hne. pose proof (fold_u16 l1 crc Hc) as Hl. rewrite /crc16 !fold_left_app. cbn [fold_left].
  rewrite !land_u16_id; [apply fold_u16, crc16_byte_u16..|]. intros E. apply Hne.
  eapply crc16_byte_inj_data; [exact Hl|done..|]. eapply fold_inj; [apply crc16_byte_u16..|exact E].
Qed.

(** ** The check of a table *)
Section check.
Context `{MdApi} `{DevApi}.

(** Damage to one of the bytes the checksum covers is noticed: of two tables with the
    same checksum field that differ in one of these bytes at most one is accepted. *)
Theorem mdt_check_detects mdt mdt' main main' mc mc' l1 d d' l2 :
  s_static mdt = l1 ++ d :: l2 -> s_static mdt' = l1 ++ d' :: l2 -> 0 <= d < 256 -> 0 <= d' < 256 -> d <> d' -> s_sum mdt' = s_sum mdt ->
  md_mdt_check mdt main mc = Some true -> md_mdt_check mdt' main' mc' <> Some true.
Proof.
  intros E E' Hd Hd' Hne Hs Hc Hc'. 
  assert (Hsum : forall t m c, md_mdt_check t m c = Some true -> s_sum t = md_calc_csum t).
  { intros t m c. rewrite /md_mdt_check /_csum_mismatch. destruct (s_magic t =? mc_magic c); [|done]. cbn [negb]. case_match; [done|].
    by destruct (Z.eqb_spec (s_sum t) (md_calc_csum t)). }
  apply Hsum in Hc, Hc'. rewrite /md_calc_csum E in Hc. rewrite /md_calc_csum E' in Hc'.
  by apply (crc16_one_byte 65535 l1 d d' l2); [split|..|congruence].
Qed.

Definition same_dev (d1 d2 : md_dev_id) : Prop := di_uuid d1 = di_uuid d2 /\ di_blocks d1 = di_blocks d2.
Lemma compare_devs_true l1 l2 : forall n i,
  compare_devs n i l1 l2 = Some true <-> forall j, (i <= j < i + n)%nat -> exists d1 d2, l1 !! j = Some d1 /\ l2 !! j = Some d2 /\ same_dev d1 d2.
Proof.
  induction n as [|n IH]; intros i; cbn [compare_devs]; [split; [intros _ j Hj; lia|done]|]. split.
  - destruct (l1 !! i) as [d1|] eqn:E1; [|done]. destruct (l2 !! i) as [d2|] eqn:E2; [|done]. cbn [mbind option_bind].
    rewrite /_uuid_le_equal. case_bool_decide as Eu; [|done]. cbn [negb]. destruct (Z.eqb_spec (di_blocks d1) (di_blocks d2)) as [Eb|]; [|done]. cbn [negb].
    intros Hr j Hj. destruct (decide (j = i)) as [->|]; [by exists d1, d2|]. apply (proj1 (IH (S i)) Hr). lia.
  - intros Hall. destruct (Hall i ltac:(lia)) as (d1&d2&->&->&Eu&Eb). cbn [mbind option_bind].
    rewrite /_uuid_le_equal bool_decide_eq_true_2 // Eb Z.eqb_refl. cbn [negb]. apply IH. intros j Hj. apply Hall. lia.
Qed.
Lemma mbind_true (o : option bool) (k : option bool) :
  (ok ← o; if negb ok then Some false else k) = Some true <-> o = Some true /\ k = Some true.
Proof. destruct o as [[]|]; cbn; naive_solver. Qed.

(** What is accepted: the magic, the versions, the checksum; the same devices as the
    main table, if there is one; an index of a device, or the one behind the last, whose
    size is neither null nor unaligned. *)
Theorem mdt_check_accepts mdt main mc :
  let l := s_dev_list mdt in
  md_mdt_check mdt main mc = Some true <->
  s_magic mdt = mc_magic mc /\ mc_major_ver mc = u32 (mdt_major_version mdt) /\ u32 (mdt_minor_version mdt) <= mc_minor_ver mc /\
  s_sum mdt = md_calc_csum mdt /\
  (forall m, main = Some m -> let l' := s_dev_list m in
     t1_count l = t1_count l' /\ t2_count l = t2_count l' /\ rmem_count l = rmem_count l' /\ s_uuid mdt = s_uuid m /\
     forall j, (j < Z.to_nat (t1_count l + t2_count l + rmem_count l))%nat ->
       exists d1 d2, dev_ids l !! j = Some d1 /\ dev_ids l' !! j = Some d2 /\ same_dev d1 d2) /\
  0 <= id_index l <= t1_count l + t2_count l /\
  exists id, dev_ids l !! Z.to_nat (id_index l) = Some id /\ md_p2o (__dev_id_blocks id) <> 0 /\
    Z.land (md_p2o (__dev_id_blocks id)) (mc_alloc_mask mc) = 0.
Proof.
  intros l. rewrite /md_mdt_check -/l.
  destruct (Z.eqb_spec (s_magic mdt) (mc_magic mc)) as [E1|E1]; cbn [negb]; [|naive_solver].
  destruct (Z.eqb_spec (mc_major_ver mc) (u32 (mdt_major_version mdt))) as [E2|E2]; cbn [negb orb]; [|naive_solver].
  destruct (Z.ltb_spec (mc_minor_ver mc) (u32 (mdt_minor_version mdt))) as [E3|E3]; [naive_solver lia|].
  rewrite /_csum_mismatch. destruct (Z.eqb_spec (s_sum mdt) (md_calc_csum mdt)) as [E4|E4]; cbn [negb]; [|naive_solver].
  rewrite mbind_true. 
  assert (Hmain : match main with
     | Some m => if negb (t1_count l =? t1_count (s_dev_list m)) then Some false
        else if negb (t2_count l =? t2_count (s_dev_list m)) then Some false
        else if negb (rmem_count l =? rmem_count (s_dev_list m)) then Some false else _mdt_compare_uuids mdt m
     | None => Some true end = Some true <->
    (forall m, main = Some m -> let l' := s_dev_list m in
     t1_count l = t1_count l' /\ t2_count l = t2_count l' /\ rmem_count l = rmem_count l' /\ s_uuid mdt = s_uuid m /\
     forall j, (j < Z.to_nat (t1_count l + t2_count l + rmem_count l))%nat ->
       exists d1 d2, dev_ids l !! j = Some d1 /\ dev_ids l' !! j = Some d2 /\ same_dev d1 d2)).
  { destruct main as [m|]; [|split; [done|done]]. transitivity (let l' := s_dev_list m in t1_count l = t1_count l' /\ t2_count l = t2_count l' /\ rmem_count l = rmem_count l' /\ s_uuid mdt = s_uuid m /\
       forall j, (j < Z.to_nat (t1_count l + t2_count l + rmem_count l))%nat -> exists d1 d2, dev_ids l !! j = Some d1 /\ dev_ids l' !! j = Some d2 /\ same_dev d1 d2).
    2:{ split; [by intros Hm ? [= <-]|intros Hm; by apply Hm]. }
    cbv zeta. destruct (Z.eqb_spec (t1_count l) (t1_count (s_dev_list m))); cbn [negb]; [|naive_solver].
    destruct (Z.eqb_spec (t2_count l) (t2_count (s_dev_list m))); cbn [negb]; [|naive_solver].
    destruct (Z.eqb_spec (rmem_count l) (rmem_count (s_dev_list m))); cbn [negb]; [|naive_solver].
    rewrite /_mdt_compare_uuids /_uuid_le_equal. case_bool_decide as Eu; cbn [negb]; [|naive_solver].
    rewrite compare_devs_true. fold l. split.
    - intros Hj. split_and!; try done. intros j Hlt. apply Hj. lia.
    - intros (_&_&_&_&Hj) j Hlt. apply Hj. lia. }
  rewrite Hmain. clear Hmain. 
  assert (Hid : (if (id_index l <? 0) || (t1_count l + t2_count l <? id_index l) then Some false else
      dev_id ← dev_ids l !! Z.to_nat (id_index l);
      (let super_size := md_p2o (__dev_id_blocks dev_id) in
       if (super_size =? 0) || negb (Z.land super_size (mc_alloc_mask mc) =? 0) then Some false else Some true)) = Some true <->
    0 <= id_index l <= t1_count l + t2_count l /\
    exists id, dev_ids l !! Z.to_nat (id_index l) = Some id /\ md_p2o (__dev_id_blocks id) <> 0 /\ Z.land (md_p2o (__dev_id_blocks id)) (mc_alloc_mask mc) = 0).
  { destruct (Z.ltb_spec (id_index l) 0); [naive_solver lia|]. destruct (Z.ltb_spec (t1_count l + t2_count l) (id_index l)); [naive_solver lia|]. cbn [orb].
    destruct (dev_ids l !! Z.to_nat (id_index l)) as [id|]; cbn [mbind option_bind]; [|naive_solver].
    destruct (Z.eqb_spec (md_p2o (__dev_id_blocks id)) 0); cbn [orb]; [naive_solver|].
    destruct (Z.eqb_spec (Z.land (md_p2o (__dev_id_blocks id)) (mc_alloc_mask mc)) 0); cbn [negb]; naive_solver. }
  rewrite Hid. naive_solver.
Qed.
End check.

Section example.
#[local] Existing Instance example_md.
#[local] Existing Instance example_dev.
Definition mc_example : mdt_check := MdtCheck 4095 1 0 7.
(** A table of one device, with its checksum. *)
Definition mdt_example (b : Z) : md_dev_table :=
  MdDevTable (crc16 65535 [1; 2; 3]) [1; b; 3] 7 [9] (MdDevList 0 1 0 0 [MdDevId [1] 16 0]).
Lemma mdt_check_detects_witness :
  md_mdt_check (mdt_example 2) None mc_example = Some true /\ md_mdt_check (mdt_example 66) None mc_example <> Some true.
Proof.
  assert (Ha : md_mdt_check (mdt_example 2) None mc_example = Some true) by (vm_compute; reflexivity). split; [exact Ha|].
  apply (mdt_check_detects (mdt_example 2) (mdt_example 66) None None mc_example mc_example [1] 2 66 [3]); try reflexivity; try (split; [discriminate|reflexivity]); discriminate.
Defined.
(** The index behind the last device passes. *)
Example mdt_check_past_end :
  md_mdt_check (MdDevTable (crc16 65535 []) [] 7 [9] (MdDevList 1 1 0 0 [MdDevId [1] 16 0; MdDevId [0] 32 0])) None mc_example = Some true.
Proof. vm_compute. reflexivity. Qed.
End example.
