(* ===== verification/MdInit.v ===== *)
(** * Multi-devices: the maps from blocks to devices

    The divisor is the greatest common one, and the map of an array has the device of
    every block. *)

From S2P Require Import Prelude State Md.

(** ** The divisor *)
Lemma gcd_loop_spec : forall fuel x y, 0 < y <= x -> Z.log2 x + Z.log2 y < Z.of_nat fuel -> gcd_loop fuel x y = Some (Z.gcd x y).
Proof.
  induction fuel as [|fuel IH]; intros x y Hy Hf.
  { pose proof (Z.log2_nonneg x). pose proof (Z.log2_nonneg y). lia. }
  cbn [gcd_loop]. pose proof (Z.mod_pos_bound x y ltac:(lia)) as Hm. pose proof (Z.div_mod x y ltac:(lia)) as Hd.
  rewrite (Z.gcd_comm x) -Z.gcd_mod; [lia|]. destruct (Z.eqb_spec (x mod y) 0) as [E|E].
  - rewrite E Z.gcd_0_l. by rewrite Z.abs_eq; [lia|].
  - rewrite IH; [lia| |by rewrite Z.gcd_comm]. 
    assert (1 <= x / y) by (apply Z.div_le_lower_bound; lia).
    assert (2 * (x mod y) <= x) by nia.
    assert (Z.log2 (x mod y) < Z.log2 x).
    { pose proof (Z.log2_double (x mod y) ltac:(lia)) as E2. pose proof (Z.log2_le_mono (2 * (x mod y)) x ltac:(lia)). lia. }
    lia.
Qed.
Lemma _gcd_eq x y : 0 <= x < 2 ^ 64 -> 0 <= y < 2 ^ 64 -> _gcd x y = Some (Z.gcd x y).
Proof.
  assert (Hl : forall a b, 0 < b <= a -> a < 2 ^ 64 -> Z.log2 a + Z.log2 b < Z.of_nat GCD_FUEL).
  { intros a b Hb Ha. assert (Z.log2 a < 64) by (apply Z.log2_lt_pow2; lia). pose proof (Z.log2_le_mono b a ltac:(lia)).
    change (Z.of_nat GCD_FUEL) with 129. lia. }
  intros Hx Hy. rewrite /_gcd. destruct (Z.ltb_spec x y).
  - destruct (Z.eqb_spec x 0) as [->|]; [by rewrite Z.gcd_0_l Z.abs_eq; [lia|]|]. rewrite Z.gcd_comm.
    apply gcd_loop_spec; [lia|]. apply Hl; lia.
  - destruct (Z.eqb_spec y 0) as [->|]; [by rewrite Z.gcd_0_r Z.abs_eq; [lia|]|]. apply gcd_loop_spec; [lia|]. apply Hl; lia.
Qed.

(** ** Walking over the devices *)
(** The blocks before device [k]. *)
Definition before (l : list Z) (k : nat) : Z := foldr Z.add 0 (take k l).
Lemma before_S l k x : l !! k = Some x -> before l (S k) = before l k + x.
Proof.
  rewrite /before. revert k. induction l as [|y l IH]; intros [|k] Hk; try done.
  - injection Hk as ->. destruct l; cbn; lia.
  - cbn in Hk. specialize (IH k Hk). rewrite !firstn_cons. cbn [foldr]. lia.
Qed.
Lemma before_divide g l : Forall (Z.divide g) l -> forall k, (g | before l k).
Proof.
  intros Hl k. rewrite /before. assert (Forall (Z.divide g) (take k l)) as Hk by by apply Forall_take.
  induction Hk as [|x t Hx Ht IH]; cbn; [apply Z.divide_0_r|by apply Z.divide_add_r].
Qed.
Lemma before_mono l j k : Forall (fun x => 0 <= x) l -> (j <= k)%nat -> before l j <= before l k.
Proof.
  intros Hl. rewrite /before. revert j k. induction Hl as [|x l Hx Hl IH]; intros j k Hjk; [by rewrite !take_nil|].
  assert (Hnn : forall k, 0 <= foldr Z.add 0 (take k l)).
  { intros k'. specialize (IH 0%nat k' ltac:(lia)). by rewrite take_0 in IH. }
  destruct j as [|j], k as [|k]; cbn; [done| |lia|].
  - specialize (Hnn k). lia.
  - specialize (IH j k ltac:(lia)). lia.
Qed.

Section maps.
Context `{MdApi}.
Definition dev_blocks (ds : list md_dev_info) : list Z := (fun d => md_o2p (d_size d)) <$> ds.

Lemma map_loop_spec g ds start l :
  0 < g -> Forall (fun x => 0 < x /\ (g | x)) l -> before l (length l) < 2 ^ 64 ->
  (forall k x, l !! k = Some x -> dev_blocks ds !! (start + k)%nat = Some x) ->
  forall n i k, (k < length l)%nat -> before l k <= i * g <= before l (S k) -> 0 <= i -> (i + Z.of_nat n) * g <= before l (length l) ->
  exists r, map_loop n i (before l (S k)) (Z.of_nat (start + k)) g ds = Some r /\ length r = n /\
    forall j, (j < n)%nat -> exists k', r !! j = Some (Z.of_nat (start + k')) /\ (k' < length l)%nat /\
      before l k' <= (i + Z.of_nat j) * g < before l (S k').
Proof.
  intros Hg Hl Htot Hds. assert (Hdiv : forall k, (g | before l k)).
  { apply before_divide. eapply Forall_impl; [exact Hl|]. by intros x [_ ?]. }
  assert (Hnn : Forall (fun x => 0 <= x) l) by (eapply Forall_impl; [exact Hl|]; intros x [? _]; cbn; lia).
  induction n as [|n IH]; intros i k Hk Hi Hi0 Hn; [exists []; split_and!; [done|done|intros; lia]|].
  assert (Hgo : forall k, (k < length l)%nat -> before l k <= i * g < before l (S k) ->
    exists r, map_loop n (i + 1) (before l (S k)) (Z.of_nat (start + k)) g ds = Some r /\ length (Z.of_nat (start + k) :: r) = S n /\
      forall j, (j < S n)%nat -> exists k', (Z.of_nat (start + k) :: r) !! j = Some (Z.of_nat (start + k')) /\ (k' < length l)%nat /\
        before l k' <= (i + Z.of_nat j) * g < before l (S k')).
  { intros k1 Hk1 Hi1. destruct (IH (i + 1) k1) as (r&Hr&Hlen&Hat); [done| |lia|lia|].
    - split; [lia|]. destruct (Hdiv (S k1)) as [q Hq]. rewrite Hq in Hi1 |- *. assert (i < q) by nia. nia.
    - exists r. split; [done|]. split; [cbn; lia|]. intros [|j] Hj.
      + exists k1. split; [done|]. split; [done|]. by rewrite Z.add_0_r.
      + destruct (Hat j) as (k'&Hk'&Hlk'&Hb'); [lia|]. exists k'. split; [done|]. split; [done|].
        replace (i + Z.of_nat (S j)) with (i + 1 + Z.of_nat j) by lia. done. }
  cbn [map_loop]. destruct (Z.leb_spec (before l (S k)) (i * g)) as [Hle|Hlt].
  - assert (Hk2 : (S k < length l)%nat).
    { destruct (decide (S k < length l)%nat); [done|]. exfalso. assert (before l (length l) <= before l (S k)) by (apply before_mono; [done|lia]). nia. }
    destruct (lookup_lt_is_Some_2 l (S k) Hk2) as [x Hx]. pose proof (Hds _ _ Hx) as Hd. rewrite /dev_blocks list_lookup_fmap in Hd.
    replace (Z.to_nat (Z.of_nat (start + k) + 1)) with (start + S k)%nat by lia.
    destruct (ds !! (start + S k)%nat) as [d|]; [|done]. injection Hd as Ed. cbn [mbind option_bind].
    assert (Hx0 : 0 < x) by (eapply Forall_lookup_1 in Hl; [|exact Hx]; apply Hl).
    rewrite Ed -(before_S l (S k) x Hx) u64_small.
    { split; [|eapply Z.le_lt_trans; [apply before_mono; [done|exact Hk2]|exact Htot]].
      pose proof (before_mono l 0 (S (S k)) Hnn ltac:(lia)). by rewrite /before take_0 in H0. }
    replace (Z.of_nat (start + k) + 1) with (Z.of_nat (start + S k)) by lia.
    destruct (Hgo (S k)) as (r&Hr&Hlen&Hat); [done|rewrite (before_S l (S k) x Hx); lia|].
    rewrite Hr. cbn [mbind option_bind]. by eexists.
  - cbn [mbind option_bind]. destruct (Hgo k) as (r&Hr&Hlen&Hat); [done|lia|]. rewrite Hr. cbn [mbind option_bind]. by eexists.
Qed.
Definition covers (r : list Z) (g : Z) (start : nat) (l : list Z) : Prop :=
  forall b, 0 <= b < before l (length l) ->
    exists k, r !! Z.to_nat (b / g) = Some (Z.of_nat (start + k)) /\ (k < length l)%nat /\ before l k <= b < before l (S k).
Lemma map_setup_eq g ds start l m0 :
  0 < g -> Forall (fun x => 0 < x /\ (g | x)) l -> before l (length l) < 2 ^ 64 -> l <> [] -> before l (length l) / g < 2 ^ 32 ->
  (forall k x, l !! k = Some x -> dev_blocks ds !! (start + k)%nat = Some x) ->
  exists r, _map_setup true ds (before l (length l)) (Z.of_nat start) (MdDevLarray g m0) = Some (0, MdDevLarray g (Some r)) /\ covers r g start l.
Proof.
  intros Hg Hl Htot Hne Hsz Hds. rewrite /_map_setup. cbn [bn_gcd negb]. rewrite (proj2 (Z.eqb_neq g 0)); [lia|].
  rewrite (proj2 (Z.leb_gt _ _)) //.
  assert (Hdiv : forall k, (g | before l k)).
  { apply before_divide. eapply Forall_impl; [exact Hl|]. by intros x [_ ?]. }
  destruct (Hdiv (length l)) as [q Hq]. rewrite Hq Z.div_mul; [lia|].
  destruct l as [|x l]; [done|]. pose proof (Hds 0%nat x eq_refl) as Hd. rewrite /dev_blocks list_lookup_fmap Nat.add_0_r in Hd.
  rewrite Nat2Z.id. destruct (ds !! start) as [d|] eqn:Ed; [|done]. injection Hd as Ex. cbn [mbind option_bind].
  assert (Hx : 0 < x) by (apply Forall_cons in Hl as [[? _] _]; done).
  assert (Hnn : Forall (fun x => 0 <= x) (x :: l)) by (eapply Forall_impl; [exact Hl|]; intros y [? _]; cbn; lia).
  assert (Hq0 : 0 <= q).
  { pose proof (before_mono (x :: l) 0 (length (x :: l)) Hnn ltac:(lia)) as Hb. rewrite Hq in Hb. change (before (x :: l) 0) with 0 in Hb. nia. }
  assert (E1 : before (x :: l) 1 = x) by (rewrite /before; destruct l; cbn; lia).
  destruct (map_loop_spec g ds start (x :: l) Hg Hl Htot Hds (Z.to_nat q) 0 0) as (r&Hr&Hlen&Hat); [cbn; lia| |lia|rewrite Hq; lia|].
  { rewrite E1. change (before (x :: l) 0) with 0. lia. }
  rewrite Ex. rewrite E1 Nat.add_0_r in Hr. rewrite Hr. cbn [mbind option_bind]. exists r. split; [done|].
  intros b Hb. rewrite Hq in Hb. destruct (Hat (Z.to_nat (b / g))) as (k&Hk&Hkl&Hbk).
  { assert (b / g < q) by (apply Z.div_lt_upper_bound; nia). pose proof (Z.div_pos b g ltac:(lia) ltac:(lia)). lia. }
  assert (0 <= b / g) by (apply Z.div_pos; lia). rewrite Z2Nat.id // Z.add_0_l in Hbk.
  exists k. split; [done|]. split; [done|]. pose proof (Z.div_mod b g ltac:(lia)). pose proof (Z.mod_pos_bound b g Hg).
  destruct (Hdiv k) as [qk Eqk], (Hdiv (S k)) as [qs Eqs]. rewrite Eqk Eqs in Hbk |- *.
  set (c := b / g) in *. assert (qk <= c) by nia. assert (c + 1 <= qs) by nia. split; nia.
Qed.
End maps.

(** ** The devices *)
(** What the code relies on of md.h: bytes to blocks undoes blocks to bytes, and the
    blocks of a tier are those of its devices in the table. *)
Class DevLaws `{MdApi} `{DevApi} : Prop := {
  o2p_p2o n : 0 <= n < 2 ^ 51 -> md_o2p (md_p2o n) = n;
  p2o_page n : md_p2o n = PAGE_SIZE * n;
  blocks_t1_sum md : blocks_t1 md = foldr Z.add 0 (__dev_id_blocks <$> take (Z.to_nat (t1_count (mdt_list md))) (dev_ids (mdt_list md)));
  blocks_t2_sum md : blocks_t2 md =
    foldr Z.add 0 (__dev_id_blocks <$> take (Z.to_nat (t2_count (mdt_list md))) (drop (Z.to_nat (t1_count (mdt_list md))) (dev_ids (mdt_list md))));
}.
Section init.
Context `{DevLaws}.

(** The device [k] of a tier that starts at device [start]. *)
Definition dev_ok (addr : Z) (start : nat) (ids : list md_dev_id) (k : nat) (d : md_dev_info) : Prop :=
  exists id, ids !! k = Some id /\ d_offset d = PAGE_SIZE * before (__dev_id_blocks <$> ids) k /\ d_size d = PAGE_SIZE * __dev_id_blocks id /\
    d_index d = Z.of_nat (start + k) /\ d_nid d = __dev_id_nid id /\ (addr <> 0 -> virt_addr d = addr + d_offset d).

(** One loop; [get] and [upd] are those of the first or of the second array. *)
Record array_lens (get oth : multi_devices -> md_dev_larray) (upd : (md_dev_larray -> md_dev_larray) -> multi_devices -> multi_devices) : Prop := {
  al_get f md : get (upd f md) = f (get md);
  al_oth f md : oth (upd f md) = oth md;
  al_rest f md : devs (upd f md) = devs md /\ mdt_list (upd f md) = mdt_list md /\ p_pmem_addr (upd f md) = p_pmem_addr md /\
    m_t1_count (upd f md) = m_t1_count md /\ m_t2_count (upd f md) = m_t2_count md;
  al_devs f md : get (upd_devs f md) = get md /\ oth (upd_devs f md) = oth md;
}.
Lemma lens_t1 : array_lens t1a t2a upd_t1a.
Proof. by split. Qed.
Lemma lens_t2 : array_lens t2a t1a upd_t2a.
Proof. by split. Qed.

Lemma init_devs_spec get oth upd addr start ids : array_lens get oth upd ->
  Forall (fun id => 0 < __dev_id_blocks id) ids -> before (__dev_id_blocks <$> ids) (length ids) < 2 ^ 51 ->
  forall n k md, (k + n = length ids)%nat -> (start + length ids <= length (devs md))%nat ->
  (forall j, (j < length ids)%nat -> dev_ids (mdt_list md) !! (start + j)%nat = ids !! j) -> 0 <= bn_gcd (get md) < 2 ^ 64 ->
  exists md', init_devs n (Z.of_nat (start + k)) (PAGE_SIZE * before (__dev_id_blocks <$> ids) k) addr get upd md = Some md' /\
    mdt_list md' = mdt_list md /\ p_pmem_addr md' = p_pmem_addr md /\ m_t1_count md' = m_t1_count md /\ m_t2_count md' = m_t2_count md /\
    length (devs md') = length (devs md) /\ oth md' = oth md /\ map (get md') = map (get md) /\
    (bn_gcd (get md') | bn_gcd (get md)) /\ 0 <= bn_gcd (get md') /\
    (forall j, (j < start + k)%nat \/ (start + length ids <= j)%nat -> devs md' !! j = devs md !! j) /\
    (forall j, (k <= j < length ids)%nat -> (exists d, devs md' !! (start + j)%nat = Some d /\ dev_ok addr start ids j d) /\
       forall id, ids !! j = Some id -> (bn_gcd (get md') | __dev_id_blocks id)) /\
    (n <> 0%nat -> 0 < bn_gcd (get md')).
Proof.
  intros [L1 L2 L3 L4] Hpos Htot. assert (Hnn : Forall (fun x => 0 <= x) (__dev_id_blocks <$> ids)).
  { apply Forall_fmap. eapply Forall_impl; [exact Hpos|]. intros x. cbn. lia. }
  induction n as [|n IH]; intros k md Hk Hlen Hids Hg.
  { exists md. split_and!; done || (try lia). }
  destruct (lookup_lt_is_Some_2 ids k ltac:(lia)) as [id Hid]. assert (Hb : 0 < __dev_id_blocks id) by (eapply Forall_lookup_1 in Hpos; [|exact Hid]; done).
  assert (Hbk : (__dev_id_blocks <$> ids) !! k = Some (__dev_id_blocks id)) by (by rewrite list_lookup_fmap Hid).
  pose proof (before_S _ _ _ Hbk) as Hbs.
  assert (Hbnd : 0 <= before (__dev_id_blocks <$> ids) k /\ before (__dev_id_blocks <$> ids) (S k) < 2 ^ 51).
  { pose proof (before_mono _ 0 k Hnn ltac:(lia)) as Hb0. pose proof (before_mono _ (S k) (length ids) Hnn ltac:(lia)). rewrite /before take_0 in Hb0. cbn in Hb0. split; [exact Hb0|lia]. }
  cbn [init_devs]. rewrite Nat2Z.id. destruct (lookup_lt_is_Some_2 (devs md) (start + k)%nat ltac:(lia)) as [mdi Hmdi]. rewrite Hmdi. cbn [mbind option_bind].
  rewrite Hids; [lia|]. rewrite Hid. cbn [mbind option_bind]. set (mdi' := _init_dev_info mdi id _ _ addr).
  assert (Esz : d_size mdi' = PAGE_SIZE * __dev_id_blocks id) by (by rewrite /mdi' /_init_dev_info; cbn [d_size]; rewrite p2o_page).
  assert (Eo : md_o2p (d_size mdi') = __dev_id_blocks id) by (rewrite /mdi' /_init_dev_info; cbn [d_size]; apply o2p_p2o; lia).
  rewrite Eo _gcd_eq; [lia|lia|]. cbn [mbind option_bind]. rewrite Esz.
  assert (Eoff : u64 (PAGE_SIZE * before (__dev_id_blocks <$> ids) k + PAGE_SIZE * __dev_id_blocks id) = PAGE_SIZE * before (__dev_id_blocks <$> ids) (S k)).
  { rewrite Hbs u64_small; lia. }
  rewrite Eoff. replace (Z.of_nat (start + k) + 1) with (Z.of_nat (start + S k)) by lia.
  set (g := Z.gcd (bn_gcd (get md)) (__dev_id_blocks id)). set (md1 := upd _ _).
  pose proof (Z.gcd_nonneg (bn_gcd (get md)) (__dev_id_blocks id)) as Hg0. fold g in Hg0.
  pose proof (Z.gcd_divide_l (bn_gcd (get md)) (__dev_id_blocks id)) as Hgl. pose proof (Z.gcd_divide_r (bn_gcd (get md)) (__dev_id_blocks id)) as Hgr.
  fold g in Hgl, Hgr. assert (Hgle : g <= __dev_id_blocks id) by (by apply Z.divide_pos_le).
  assert (Hg1 : 0 < g). { destruct (Z.eq_dec g 0) as [E|E]; [|lia]. rewrite E in Hgr. apply Z.divide_0_l in Hgr. lia. }
  destruct (L3 (fun a => MdDevLarray g (map a)) (upd_devs <[(start + k)%nat := mdi']> md)) as (R1&R2&R3&R4&R5).
  destruct (L4 <[(start + k)%nat := mdi']> md) as (R6&R7).
  assert (Eg : get md1 = MdDevLarray g (map (get md))) by (by rewrite /md1 L1 R6).
  destruct (IH (S k) md1) as (md'&Hrun&P1&P2&P3&P4&P5&P6&P7&P8&P9&P10&P11&P12).
  { lia. } { rewrite /md1 R1. cbn [devs upd_devs]. by rewrite length_insert. } { by rewrite /md1 R2. } { rewrite Eg. cbn [bn_gcd]. lia. }
  exists md'. rewrite Hrun. rewrite Eg in P7 P8. cbn [map bn_gcd] in P7, P8. rewrite /md1 R1 in P5 P10. cbn [devs upd_devs] in P5, P10. rewrite length_insert in P5.
  split_and!; [done|by rewrite P1 /md1 R2|by rewrite P2 /md1 R3|by rewrite P3 /md1 R4|by rewrite P4 /md1 R5|done|by rewrite P6 /md1 L2 R7|done
    |by etransitivity|done| | |].
  - intros j Hj. rewrite P10; [lia|]. rewrite list_lookup_insert_ne; [lia|done].
  - intros j Hj. destruct (decide (j = k)) as [->|Hne]; [|apply P11; lia]. split.
    + exists mdi'. rewrite P10; [lia|]. rewrite list_lookup_insert_eq; [lia|]. split; [done|]. exists id. split; [done|]. split; [done|]. split; [done|].
      split; [done|]. split; [done|]. intros Ha. rewrite /mdi' /_init_dev_info. cbn [virt_addr d_offset]. by rewrite (proj2 (Z.eqb_neq addr 0) Ha).
    + intros id' Hid'. assert (id' = id) as -> by congruence. by etransitivity.
  - intros _. destruct (Z.eq_dec (bn_gcd (get md')) 0) as [E|E]; [|lia]. rewrite E in P8. apply Z.divide_0_l in P8. lia.
Qed.

(** A tier set up: its devices follow each other, and the map has the device of every
    block. *)
Definition tier_ok (md : multi_devices) (a : md_dev_larray) (addr : Z) (start : nat) (ids : list md_dev_id) : Prop :=
  (forall k, (k < length ids)%nat -> exists d, devs md !! (start + k)%nat = Some d /\ dev_ok addr start ids k d) /\
  (ids <> [] -> exists r, map a = Some r /\ 0 < bn_gcd a /\ covers r (bn_gcd a) start (__dev_id_blocks <$> ids)).
Lemma tier_setup md a addr start ids :
  (forall k, (k < length ids)%nat -> (exists d, devs md !! (start + k)%nat = Some d /\ dev_ok addr start ids k d) /\
     forall id, ids !! k = Some id -> (bn_gcd a | __dev_id_blocks id)) ->
  Forall (fun id => 0 < __dev_id_blocks id) ids -> before (__dev_id_blocks <$> ids) (length ids) < 2 ^ 32 ->
  (ids <> [] -> 0 < bn_gcd a) -> ids <> [] ->
  exists r, _map_setup true (devs md) (before (__dev_id_blocks <$> ids) (length ids)) (Z.of_nat start) a = Some (0, MdDevLarray (bn_gcd a) (Some r)) /\
    covers r (bn_gcd a) start (__dev_id_blocks <$> ids).
Proof.
  intros Hd Hpos Htot Hg Hne. destruct a as [g m0]. cbn [bn_gcd] in *. specialize (Hg Hne).
  assert (Hl : Forall (fun x => 0 < x /\ (g | x)) (__dev_id_blocks <$> ids)).
  { apply Forall_fmap, Forall_lookup. intros k id Hid. split; [by eapply Forall_lookup_1 in Hpos; [|exact Hid]|].
    apply (Hd k); [by eapply lookup_lt_Some|done]. }
  assert (Hnn : Forall (fun x => 0 <= x) (__dev_id_blocks <$> ids)) by (eapply Forall_impl; [exact Hl|]; intros x [? _]; cbn; lia).
  rewrite -(length_fmap __dev_id_blocks ids) in Htot |- *. set (l := __dev_id_blocks <$> ids) in *.
  pose proof (before_mono l 0 (length l) Hnn ltac:(lia)) as Hb0. change (before l 0) with 0 in Hb0.
  apply map_setup_eq; [done|done|lia|by destruct ids| |].
  - apply Z.div_lt_upper_bound; [lia|]. nia.
  - intros k x Hx. rewrite /l list_lookup_fmap in Hx. destruct (ids !! k) as [id|] eqn:Hid; [|done]. injection Hx as <-.
    destruct (Hd k) as [(d&Hdk&(id'&Hid'&_&Hsz&_)) _]; [by eapply lookup_lt_Some|]. rewrite Hid in Hid'. injection Hid' as <-.
    rewrite /dev_blocks list_lookup_fmap Hdk /= Hsz -p2o_page o2p_p2o //.
    assert (Hb : l !! k = Some (__dev_id_blocks id)) by (by rewrite /l list_lookup_fmap Hid).
    pose proof (before_S _ _ _ Hb). pose proof (before_mono l 0 k Hnn ltac:(lia)) as Hbk. change (before l 0) with 0 in Hbk.
    pose proof (before_mono l (S k) (length l) Hnn (lookup_lt_Some _ _ _ Hb)).
    eapply Forall_lookup_1 in Hl; [|exact Hb]. lia.
Qed.

Lemma md_init_run md (n1 n2 : nat) :
  let l := mdt_list md in
  let ids1 := take n1 (dev_ids l) in
  let ids2 := take n2 (drop n1 (dev_ids l)) in
  t1_count l = Z.of_nat n1 -> t2_count l = Z.of_nat n2 -> (n1 + n2 <= length (dev_ids l))%nat -> (n1 + n2 <= length (devs md))%nat ->
  Forall (fun id => 0 < __dev_id_blocks id) (ids1 ++ ids2) -> blocks_t1 md < 2 ^ 32 -> blocks_t2 md < 2 ^ 32 ->
  bn_gcd (t1a md) = 0 -> bn_gcd (t2a md) = 0 ->
  exists md', md_init_from_pmem_info true true md = Some (0, md') /\ mdt_list md' = l /\
    tier_ok md' (t1a md') (p_pmem_addr md) 0 ids1 /\ tier_ok md' (t2a md') 0 n1 ids2.
Proof.
  intros l ids1 ids2 E1 E2 Hids Hdevs [Hp1 Hp2]%Forall_app Hb1 Hb2 Hg1 Hg2. 
  assert (L1 : length ids1 = n1) by (rewrite /ids1 length_take; lia). assert (L2 : length ids2 = n2) by (rewrite /ids2 length_take length_drop; lia).
  assert (S1 : forall md0, mdt_list md0 = l -> blocks_t1 md0 = before (__dev_id_blocks <$> ids1) (length ids1)).
  { intros md0 E. rewrite blocks_t1_sum E E1 Nat2Z.id -/ids1 /before. by rewrite -(length_fmap __dev_id_blocks ids1) firstn_all. }
  assert (S2 : forall md0, mdt_list md0 = l -> blocks_t2 md0 = before (__dev_id_blocks <$> ids2) (length ids2)).
  { intros md0 E. rewrite blocks_t2_sum E E1 E2 !Nat2Z.id -/ids2 /before. by rewrite -(length_fmap __dev_id_blocks ids2) firstn_all. }
  rewrite (S1 md) // in Hb1. rewrite (S2 md) // in Hb2. rewrite /md_init_from_pmem_info. fold l. rewrite E1 E2.
  set (md0 := MultiDevices l _ _ _ _ _ _). cbn [m_t1_count md0 m_t2_count]. rewrite !Nat2Z.id.
  destruct (init_devs_spec t1a t2a upd_t1a (p_pmem_addr md) 0 ids1 lens_t1 Hp1 ltac:(lia) n1 0 md0) as (md1&Hr1&A1&A2&A3&A4&A5&A6&A7&A8&A9&A10&A11&A12); [lia|cbn; lia| |cbn; lia|].
  { intros j Hj. cbn [mdt_list md0]. rewrite lookup_take_lt //. lia. }
  change (Z.of_nat (0 + 0)) with 0 in Hr1. change (PAGE_SIZE * before (__dev_id_blocks <$> ids1) 0) with 0 in Hr1. cbn [p_pmem_addr md0]. rewrite Hr1. cbn [mbind option_bind].
  rewrite A4 A3. cbn [m_t1_count m_t2_count md0]. rewrite Nat2Z.id Z.max_r; [lia|].
  destruct (init_devs_spec t2a t1a upd_t2a 0 n1 ids2 lens_t2 Hp2 ltac:(lia) n2 0 md1) as (md2&Hr2&B1&B2&B3&B4&B5&B6&B7&B8&B9&B10&B11&B12);
    [lia|rewrite A5; cbn; lia| |rewrite A6; cbn; lia|].
  { intros j Hj. rewrite A1. cbn [mdt_list md0]. rewrite lookup_take_lt; [lia|]. by rewrite lookup_drop. }
  rewrite Nat.add_0_r in Hr2. change (PAGE_SIZE * before (__dev_id_blocks <$> ids2) 0) with 0 in Hr2. rewrite Hr2. cbn [mbind option_bind].
  assert (Hl2 : mdt_list md2 = l) by (by rewrite B1 A1).
  assert (D1 : forall k, (k < length ids1)%nat -> (exists d, devs md2 !! (0 + k)%nat = Some d /\ dev_ok (p_pmem_addr md) 0 ids1 k d) /\
     forall id, ids1 !! k = Some id -> (bn_gcd (t1a md2) | __dev_id_blocks id)).
  { intros k Hk. destruct (A11 k ltac:(lia)) as [(d&Hd&Hok) Hdiv]. rewrite B6. split; [|done]. exists d. split; [|done]. rewrite B10; [lia|done]. }
  assert (G1 : ids1 <> [] -> 0 < bn_gcd (t1a md2)) by (intros Hne; rewrite B6; apply A12; destruct ids1; [done|cbn in L1; lia]).
  assert (G2 : ids2 <> [] -> 0 < bn_gcd (t2a md2)) by (intros Hne; apply B12; destruct ids2; [done|cbn in L2; lia]).
  rewrite B3 A3. cbn [m_t1_count md0].
  assert (R1 : exists a, (if negb (Z.of_nat n1 =? 0) then '(err, a) ← _map_setup true (devs md2) (blocks_t1 md2) 0 (t1a md2); Some (err, upd_t1a (fun _ => a) md2)
      else Some (0, md2)) = Some (0, upd_t1a (fun _ => a) md2) /\ (ids1 <> [] -> exists r, map a = Some r /\ 0 < bn_gcd a /\ covers r (bn_gcd a) 0 (__dev_id_blocks <$> ids1))).
  { destruct (Z.eqb_spec (Z.of_nat n1) 0) as [E|E]; cbn [negb].
    - exists (t1a md2). split; [by destruct md2|]. intros Hne. destruct ids1; [done|cbn in L1; lia].
    - destruct (tier_setup md2 (t1a md2) (p_pmem_addr md) 0 ids1 D1 Hp1 ltac:(lia) G1) as (r&Hr&Hc); [destruct ids1; [cbn in L1; lia|done]|].
      change (Z.of_nat 0) with 0 in Hr. rewrite (S1 md2) // Hr. cbn [mbind option_bind]. eexists. split; [done|]. intros Hne. exists r. split; [done|]. split; [by apply G1|done]. }
  destruct R1 as (a1&->&Ha1). cbn [mbind option_bind]. change (negb (0 =? 0)) with false. cbv iota. set (md3 := upd_t1a (fun _ => a1) md2).
  change (m_t2_count md3) with (m_t2_count md2). rewrite B4 A4. cbn [m_t2_count md0].
  assert (R2 : exists a, (if negb (Z.of_nat n2 =? 0) then '(err, a) ← _map_setup true (devs md3) (blocks_t2 md3) (m_t1_count md3) (t2a md3); Some (err, upd_t2a (fun _ => a) md3)
      else Some (0, md3)) = Some (0, upd_t2a (fun _ => a) md3) /\ (ids2 <> [] -> exists r, map a = Some r /\ 0 < bn_gcd a /\ covers r (bn_gcd a) n1 (__dev_id_blocks <$> ids2))).
  { destruct (Z.eqb_spec (Z.of_nat n2) 0) as [E|E]; cbn [negb].
    - exists (t2a md3). split; [by destruct md2|]. intros Hne. destruct ids2; [done|cbn in L2; lia].
    - destruct (tier_setup md2 (t2a md2) 0 n1 ids2) as (r&Hr&Hc); [intros k Hk; apply B11; lia|done|lia|done|destruct ids2; [cbn in L2; lia|done]|].
      change (devs md3) with (devs md2). change (m_t1_count md3) with (m_t1_count md2). change (t2a md3) with (t2a md2).
      rewrite B3 A3. cbn [m_t1_count md0]. rewrite (S2 md3) // Hr. cbn [mbind option_bind]. eexists. split; [done|]. intros Hne. exists r. split; [done|]. split; [by apply G2|done]. }
  destruct R2 as (a2&->&Ha2). cbn [mbind option_bind]. eexists. split; [done|]. split; [done|]. split; [split; [|done]|split; [|done]].
  - intros k Hk. by apply D1.
  - intros k Hk. apply B11. lia.
Qed.
(** C25: Setting up the devices of a table: those of each tier follow each other in its
    address space, the divisor divides them all, and the map takes every block of the
    tier to the device it lies on. *)
Theorem md_init_spec md (n1 n2 : nat) :
  let l := mdt_list md in
  let ids1 := take n1 (dev_ids l) in
  let ids2 := take n2 (drop n1 (dev_ids l)) in
  t1_count l = Z.of_nat n1 -> t2_count l = Z.of_nat n2 -> (n1 + n2 <= length (dev_ids l))%nat -> (n1 + n2 <= length (devs md))%nat ->
  Forall (fun id => 0 < __dev_id_blocks id) (ids1 ++ ids2) -> blocks_t1 md < 2 ^ 32 -> blocks_t2 md < 2 ^ 32 ->
  bn_gcd (t1a md) = 0 -> bn_gcd (t2a md) = 0 ->
  exists md', md_init_from_pmem_info true true md = Some (0, md') /\ mdt_list md' = l /\
    tier_ok md' (t1a md') (p_pmem_addr md) 0 ids1 /\ tier_ok md' (t2a md') 0 n1 ids2.
Proof. apply md_init_run. Qed.
End init.

Section example.
#[local] Existing Instance example_md.
#[local] Existing Instance example_dev.
#[local] Instance example_dev_laws : DevLaws.
Proof.
  split; cbn [md_o2p md_p2o example_md blocks_t1 blocks_t2 example_dev __dev_id_blocks]; try done.
  intros n _. by rewrite Z.mul_comm Z.div_mul.
Qed.
(** Two devices of tier 1, one of tier 2. *)
Definition mdev_example : multi_devices :=
  let d := MdDevInfo 0 0 0 0 0 in let a := MdDevLarray 0 None in
  MultiDevices (MdDevList 0 2 1 0 [MdDevId [1] 512 0; MdDevId [2] 768 1; MdDevId [3] 64 0]) 4194304 0 0 [d; d; d; d] a a.
Lemma md_init_spec_witness :
  bn_gcd (t1a mdev_example) = 0 /\ exists md', md_init_from_pmem_info true true mdev_example = Some (0, md') /\
    tier_ok md' (t1a md') 4194304 0 [MdDevId [1] 512 0; MdDevId [2] 768 1].
Proof.
  split; [reflexivity|]. destruct (md_init_spec mdev_example 2 1) as (md'&Hr&_&H1&_); try reflexivity; try (cbn; lia).
  - apply Forall_forall. intros id Hid. cbn in Hid. repeat (apply elem_of_cons in Hid as [->|Hid]; [reflexivity|]). by apply elem_of_nil in Hid.
  - exists md'. split; [exact Hr|exact H1].
Defined.
End example.
