(* ===== verification/Wtz.v ===== *)
(** * Starting the threads: wtz.h and the barrier of zus-core.c

    The wait-til-zero object, and the interleavings of [zus_start_all_threads] with the
    threads it starts and with the kernel, as a step relation.  What the system answers where
    a thread is created and where a thread sets up are two functions, so that the errors of
    the start can be told exactly. *)

From stdpp Require Import relations.
From S2P Require Import Prelude.

(** ** The object *)
(** The semaphore is its value. *)
Record wait_til_zero := WaitTilZero { acnt : Z; sem : nat }.
Definition wtz_init : wait_til_zero := WaitTilZero 0 0.
(** With the value before. *)
Definition wtz_arm (w : wait_til_zero) (c : Z) : Z * wait_til_zero := (acnt w, WaitTilZero (s32 (acnt w + c)) (sem w)).
Definition wtz_release (w : wait_til_zero) : Z * wait_til_zero :=
  let prev := acnt w in
  (prev - 1, WaitTilZero (s32 (prev - 1)) (if prev =? 1 then S (sem w) else sem w)).
(** None blocks. *)
Definition wtz_wait (w : wait_til_zero) : option wait_til_zero :=
  match sem w with O => None | S n => Some (WaitTilZero (acnt w) n) end.

(** ** The threads *)
(** A thread by its channel and cpu. *)
Notation zkey := (nat * Z)%type.
(** Before the set up has its result; with its result in [zbt.err]; behind [wtz_release]
    in the loop, which overwrites [zbt.err] after each wait, with the errors of the waits so
    far, the last first; returned from the label [fail]. *)
Inductive zt_state := ZtInit | ZtReady (err : Z) | ZtServe (errs : list Z) | ZtFailed (err : Z).
(** [zt->zbt.err] *)
Definition zt_err (t : zt_state) : Z :=
  match t with ZtInit => 0 | ZtReady e | ZtFailed e => e | ZtServe errs => default 0 (head errs) end.
(** What [wtz_release] is followed by. *)
Definition zt_behind (e : Z) : zt_state := if e =? 0 then ZtServe [] else ZtFailed e.
(** From where [zus_start_all_threads] goes to its label [fail]. *)
Inductive fail_from := NoMemory (c : nat) | NoThread (c : nat) (i : Z) | NotUp (k : zkey).
(** Where it is: before the round of channel [c]; in the loop over the cpus of
    [_zus_start_chan_threads], with those left; at [wtz_wait]; in the loop that verifies the
    threads, with those left; returned; at [zus_stop_all_threads]. *)
Inductive main_pc :=
  MArm (c : nat) | MCreate (c : nat) (todo : list Z) | MWait | MVerify (todo : list zkey) | MDone (err : Z) | MStop (from : fail_from) (err : Z).
Record zt_pool := ZtPool { wtz : wait_til_zero; main : main_pc; zts : gmap zkey zt_state }.
Definition ztp_start : zt_pool := ZtPool wtz_init (MArm 0) ∅.
(** Who makes a step: the thread that starts the others, one of these, or the kernel, which
    lets a wait of one return. *)
Inductive actor := AMain | AThread (k : zkey) | AKernel (k : zkey).

(** A thread is behind the barrier. *)
Definition is_up (t : zt_state) : Prop := match t with ZtServe _ | ZtFailed _ => True | _ => False end.
#[global] Instance is_up_dec t : Decision (is_up t).
Proof. destruct t; apply _. Defined.

Section pool.
(** The online cpus, as [zus_for_each_cpu] visits them; their number, as the kernel tells
    it; the number of possible cpus; the number of channels. *)
Context (online : list Z) (num_online : Z) (num_cpus num_chans : nat).
(** What [__zus_thread_create] answers for a thread, and the error in which its set up
    ends. *)
Context (create setup : zkey -> Z).

(** The threads of a channel, and of the channels before [c]; the entries that are
    verified. *)
Definition row (c : nat) (l : list Z) : list zkey := (fun i => (c, i)) <$> l.
Definition chan_keys (c : nat) : list zkey := c' ← seq 0 c; row c' online.
Definition verify_keys : list zkey := c ← seq 0 num_chans; row c (Z.of_nat <$> seq 0 num_cpus).
(** An entry of the tables, which are zeroed. *)
Definition err_at (m : gmap zkey zt_state) (k : zkey) : Z := default 0 (zt_err <$> m !! k).

Inductive ztp_step : actor -> zt_pool -> zt_pool -> Prop :=
| st_calloc_fails w c m : (c < num_chans)%nat -> ztp_step AMain (ZtPool w (MArm c) m) (ZtPool w (MStop (NoMemory c) (- ENOMEM)) m)
| st_arm w c m : (c < num_chans)%nat -> ztp_step AMain (ZtPool w (MArm c) m) (ZtPool (wtz_arm w num_online).2 (MCreate c online) m)
| st_create w c i todo m : create (c, i) = 0 ->
    ztp_step AMain (ZtPool w (MCreate c (i :: todo)) m) (ZtPool w (MCreate c todo) (<[(c, i) := ZtInit]> m))
| st_create_fails w c i todo m : create (c, i) <> 0 ->
    ztp_step AMain (ZtPool w (MCreate c (i :: todo)) m) (ZtPool w (MStop (NoThread c i) (create (c, i))) m)
| st_chan_end w c m : ztp_step AMain (ZtPool w (MCreate c []) m) (ZtPool w (MArm (S c)) m)
| st_all_end w c m : (num_chans <= c)%nat -> ztp_step AMain (ZtPool w (MArm c) m) (ZtPool w MWait m)
| st_wait w w' m : wtz_wait w = Some w' -> ztp_step AMain (ZtPool w MWait m) (ZtPool w' (MVerify verify_keys) m)
| st_verify w k todo m : err_at m k = 0 -> ztp_step AMain (ZtPool w (MVerify (k :: todo)) m) (ZtPool w (MVerify todo) m)
| st_verify_fails w k todo m : err_at m k <> 0 ->
    ztp_step AMain (ZtPool w (MVerify (k :: todo)) m) (ZtPool w (MStop (NotUp k) (err_at m k)) m)
| st_verify_end w m : ztp_step AMain (ZtPool w (MVerify []) m) (ZtPool w (MDone 0) m)
| st_zt_init w pc m k : m !! k = Some ZtInit -> ztp_step (AThread k) (ZtPool w pc m) (ZtPool w pc (<[k := ZtReady (setup k)]> m))
| st_zt_release w pc m k e : m !! k = Some (ZtReady e) ->
    ztp_step (AThread k) (ZtPool w pc m) (ZtPool (wtz_release w).2 pc (<[k := zt_behind e]> m))
| st_zt_wait w pc m k errs e : m !! k = Some (ZtServe errs) ->
    ztp_step (AKernel k) (ZtPool w pc m) (ZtPool w pc (<[k := ZtServe (e :: errs)]> m)).
Definition any_step (s s' : zt_pool) : Prop := exists a, ztp_step a s s'.
Definition reachable (s : zt_pool) : Prop := rtc any_step ztp_start s.

(** ** Counting *)
Definition ups (m : gmap zkey zt_state) : nat := size (filter (fun kv => is_up kv.2) m).
Lemma ups_insert m k t t' : m !! k = t -> (forall u, t = Some u -> ~ is_up u) -> ~ is_up t' -> ups (<[k := t']> m) = ups m.
Proof.
  intros Hk Ht Ht'. rewrite /ups map_filter_insert_False //. f_equal. apply map_eq. intros k'. apply option_eq. intros u.
  rewrite !map_lookup_filter_Some. split; [|]; intros [H1 H2]; (split; [|done]).
  - by apply lookup_delete_Some in H1 as [_ ?].
  - apply lookup_delete_Some. split; [|done]. intros <-. rewrite Hk in H1. by apply (Ht u).
Qed.
Lemma ups_up m k t t' : m !! k = Some t -> ~ is_up t -> is_up t' -> ups (<[k := t']> m) = S (ups m).
Proof.
  intros Hk Hn Hup. rewrite /ups map_filter_insert_True // map_size_insert_None //.
  apply map_lookup_filter_None. right. intros u Hu. rewrite Hk in Hu. by injection Hu as <-.
Qed.
Lemma ups_same m k t t' : m !! k = Some t -> is_up t -> is_up t' -> ups (<[k := t']> m) = ups m.
Proof.
  intros Hk Ht Ht'. rewrite /ups map_filter_insert_True // map_size_insert_Some //. exists t. by apply map_lookup_filter_Some.
Qed.
Lemma ups_size m : (ups m <= size m)%nat.
Proof. apply map_size_filter. Qed.
Lemma ups_all m : ups m = size m -> forall k t, m !! k = Some t -> is_up t.
Proof.
  intros E k t Hk. destruct (decide (is_up t)) as [|Hn]; [done|]. exfalso.
  assert (Hd : filter (fun kv : _ * _ => is_up kv.2) m ⊆ delete k m).
  { apply map_subseteq_spec. intros k' u [Hu Hup]%map_lookup_filter_Some. apply lookup_delete_Some. split; [|done]. intros <-. rewrite Hk in Hu. by injection Hu as <-. }
  apply map_subseteq_size in Hd. rewrite map_size_delete_Some in Hd; [by eexists|].
  assert (size m <> 0%nat) by (intros ->%map_size_empty_inv; by rewrite lookup_empty in Hk). rewrite /ups in E. lia.
Qed.
Lemma not_up_some m : (ups m < size m)%nat -> exists k t, m !! k = Some t /\ ~ is_up t.
Proof.
  intros Hlt. destruct (decide (map_Forall (fun _ t => is_up t) m)) as [Hall|Hn].
  - exfalso. rewrite /ups map_filter_id in Hlt; [|lia]. intros k t Hk. by apply (Hall k t).
  - apply map_not_Forall in Hn; [|apply _]. destruct Hn as (k&t&Hk&Ht). by exists k, t.
Qed.
Lemma chan_keys_S c : chan_keys (S c) = chan_keys c ++ row c online.
Proof. by rewrite /chan_keys seq_S bind_app /= app_nil_r. Qed.
Lemma length_chan_keys c : length (chan_keys c) = (c * length online)%nat.
Proof. induction c as [|c IH]; [done|]. rewrite chan_keys_S length_app IH length_fmap. lia. Qed.
Lemma elem_of_row c l k : k ∈ row c l <-> k.1 = c /\ k.2 ∈ l.
Proof. rewrite /row list_elem_of_fmap. destruct k as [c' i]. naive_solver. Qed.
Lemma elem_of_chan_keys c k : k ∈ chan_keys c <-> (k.1 < c)%nat /\ k.2 ∈ online.
Proof.
  rewrite /chan_keys list_elem_of_bind. setoid_rewrite elem_of_row. setoid_rewrite elem_of_seq. split.
  - intros (c' & [-> ?] & ?). split; [lia|done].
  - intros [? ?]. exists k.1. split; [done|lia].
Qed.
Lemma elem_of_verify_keys k : k ∈ verify_keys <-> (k.1 < num_chans)%nat /\ 0 <= k.2 < Z.of_nat num_cpus.
Proof.
  rewrite /verify_keys list_elem_of_bind. setoid_rewrite elem_of_row. setoid_rewrite elem_of_seq. setoid_rewrite list_elem_of_fmap. setoid_rewrite elem_of_seq. split.
  - intros (c & [-> (i & -> & ?)] & ?). lia.
  - intros [? ?]. exists k.1. split; [split; [done|]|lia]. exists (Z.to_nat k.2). lia.
Qed.
(** The entries that are verified before one of a channel. *)
Lemma verify_order seen todo c i j : num_chans = 1%nat -> verify_keys = seen ++ (c, i) :: todo -> 0 <= j < i -> (0%nat, j) ∈ seen.
Proof.
  intros E1. rewrite /verify_keys E1 /= app_nil_r /row -list_fmap_compose. intros Ek Hj.
  pose proof (f_equal (.!! length seen) Ek) as E. cbn beta in E. rewrite list_lookup_middle // in E. rewrite list_lookup_fmap_Some in E. destruct E as (n & [= -> ->] & En).
  apply lookup_seq in En as [-> Hlt]. apply list_elem_of_lookup. exists (Z.to_nat j).
  pose proof (f_equal (.!! Z.to_nat j) Ek) as E'. cbn beta in E'. rewrite lookup_app_l in E'; [lia|]. rewrite -E' list_lookup_fmap lookup_seq_lt; [lia|]. cbn. do 2 f_equal. lia.
Qed.

(** ** The invariant *)
Hypothesis online_num : num_online = Z.of_nat (length online).
Hypothesis online_nodup : NoDup online.
Hypothesis online_some : online <> [].
Hypothesis online_few : Z.of_nat num_chans * Z.of_nat (length online) < 2 ^ 31.

(** A thread that is there says how its set up ended. *)
Definition thread_ok (k : zkey) (t : zt_state) : Prop :=
  k.2 ∈ online /\
  match t with ZtInit => True | ZtReady e => e = setup k | ZtServe _ => setup k = 0 | ZtFailed e => e = setup k /\ e <> 0 end.
(** The threads that are there are [keys]; [n] have been armed for. *)
Definition counted (s : zt_pool) (keys : list zkey) (n : nat) : Prop :=
  dom (zts s) = list_to_set keys /\ NoDup keys /\ (length keys <= n)%nat /\
  acnt (wtz s) = Z.of_nat n - Z.of_nat (ups (zts s)) /\ ((0 < n)%nat -> acnt (wtz s) = 0 -> (0 < sem (wtz s))%nat) /\
  (num_chans = 1%nat -> (0 < sem (wtz s))%nat -> (0 < n)%nat /\ ups (zts s) = n).
(** All are, and with one channel all are behind the barrier. *)
Definition all_there (m : gmap zkey zt_state) : Prop :=
  dom m = list_to_set (chan_keys num_chans) /\ (num_chans = 1%nat -> forall k t, m !! k = Some t -> is_up t).
(** With one channel, the set ups of the threads that were verified succeeded. *)
Definition verified (m : gmap zkey zt_state) (seen : list zkey) : Prop :=
  num_chans = 1%nat -> forall k, k ∈ seen -> is_Some (m !! k) -> setup k = 0.
Definition main_inv (s : zt_pool) : Prop :=
  let len := length online in
  match main s with
  | MArm c => (c <= num_chans)%nat /\ counted s (chan_keys c) (c * len)
  | MCreate c todo => (c < num_chans)%nat /\ exists done, online = done ++ todo /\ counted s (chan_keys c ++ row c done) (S c * len)
  | MWait => counted s (chan_keys num_chans) (num_chans * len)
  | MVerify todo => all_there (zts s) /\ exists seen, verify_keys = seen ++ todo /\ verified (zts s) seen
  | MDone e => e = 0 /\ all_there (zts s) /\ verified (zts s) verify_keys
  | MStop (NoMemory c) e => e = - ENOMEM /\ (c < num_chans)%nat /\ dom (zts s) = list_to_set (chan_keys c)
  | MStop (NoThread c i) e =>
    e = create (c, i) /\ e <> 0 /\ (c < num_chans)%nat /\ exists a b, online = a ++ i :: b /\ dom (zts s) = list_to_set (chan_keys c ++ row c a)
  | MStop (NotUp k) e => all_there (zts s) /\ e <> 0 /\
    (exists seen todo, verify_keys = seen ++ k :: todo /\ verified (zts s) seen) /\
    (num_chans = 1%nat -> (exists e', zts s !! k = Some (ZtFailed e') /\ e = e') \/ exists errs, zts s !! k = Some (ZtServe errs) /\ e ∈ errs)
  end.
Definition pool_inv (s : zt_pool) : Prop := (forall k t, zts s !! k = Some t -> thread_ok k t) /\ main_inv s.

Lemma len_pos : (0 < length online)%nat.
Proof. pose proof online_some as Hs. destruct online; [done|cbn; lia]. Qed.
Lemma pool_inv_start : pool_inv ztp_start.
Proof.
  split; [intros k t; by rewrite lookup_empty|]. split; [lia|]. rewrite /counted. cbn [ztp_start wtz zts wtz_init acnt sem Nat.mul].
  split_and!; [by rewrite dom_empty_L|constructor|cbn; lia|reflexivity|lia|intros _; lia].
Qed.
Lemma counted_bound s keys n : counted s keys n -> (ups (zts s) <= length keys)%nat /\ (ups (zts s) = length keys -> forall k t, zts s !! k = Some t -> is_up t).
Proof.
  intros (Hd & Hnd & _). assert (Hsz : size (zts s) = length keys) by (by rewrite -size_dom Hd size_list_to_set).
  pose proof (ups_size (zts s)). split; [lia|]. intros E. apply ups_all. lia.
Qed.
Lemma counted_not_up s keys n k t : counted s keys n -> zts s !! k = Some t -> ~ is_up t -> (ups (zts s) < n)%nat.
Proof.
  intros Hc Hk Hn. destruct (counted_bound _ _ _ Hc) as [Hle Hall]. destruct Hc as (_ & _ & Hlen & _).
  destruct (decide (ups (zts s) = length keys)) as [E|]; [|lia]. by destruct (Hn (Hall E _ _ Hk)).
Qed.
(** A step of a thread that does not pass the barrier. *)
Lemma counted_insert w pc pc' m keys n k t t' : counted (ZtPool w pc m) keys n -> m !! k = Some t -> ups (<[k := t']> m) = ups m ->
  counted (ZtPool w pc' (<[k := t']> m)) keys n.
Proof. rewrite /counted. cbn [zts wtz]. intros Hc Hk ->. by rewrite dom_insert_lookup_L. Qed.
Lemma counted_release w pc pc' m keys n k e : counted (ZtPool w pc m) keys n -> Z.of_nat n < 2 ^ 31 -> m !! k = Some (ZtReady e) ->
  counted (ZtPool (wtz_release w).2 pc' (<[k := zt_behind e]> m)) keys n.
Proof.
  intros Hc Hn Hk. pose proof (counted_not_up _ _ _ k _ Hc Hk ltac:(by intros [])) as Hlt. destruct Hc as (H1 & H2 & H3 & H4 & H5 & H6). cbn [zts wtz] in *.
  assert (Hu : ups (<[k := zt_behind e]> m) = S (ups m)) by (apply (ups_up m k (ZtReady e)); [done|by intros []|rewrite /zt_behind; by destruct (e =? 0)]).
  rewrite /counted. cbn [zts wtz]. rewrite Hu dom_insert_lookup_L; [by eexists|]. rewrite /wtz_release. cbn [snd acnt sem].
  rewrite H4 s32_small; [lia|]. split_and!; [done..|lia| |].
  - intros _ E0. destruct (Z.eqb_spec (Z.of_nat n - Z.of_nat (ups m)) 1); lia.
  - intros E1. destruct (Z.eqb_spec (Z.of_nat n - Z.of_nat (ups m)) 1); [lia|]. intros Hs. specialize (H6 E1 Hs). lia.
Qed.
Lemma counted_few c : (c <= num_chans)%nat -> Z.of_nat (c * length online) < 2 ^ 31.
Proof. intros Hc. rewrite Nat2Z.inj_mul. nia. Qed.
Lemma all_there_insert m k t t' : m !! k = Some t -> (is_up t -> is_up t') -> all_there m -> all_there (<[k := t']> m).
Proof.
  intros Hk Ht [Hd Hall]. split; [by rewrite dom_insert_lookup_L|]. intros H1 k' u. rewrite lookup_insert_Some.
  intros [[<- <-]|[_ Hu]]; [|by apply (Hall H1 k')]. by apply Ht, (Hall H1 k).
Qed.
Lemma verified_insert m k t t' seen : m !! k = Some t -> verified m seen -> verified (<[k := t']> m) seen.
Proof.
  intros Hk Hv H1 k' Hin Hs. apply (Hv H1 k' Hin). rewrite lookup_insert_is_Some' in Hs. destruct Hs as [<-|?]; [by eexists|done].
Qed.
Lemma thread_ok_insert (m : gmap zkey zt_state) k t' : (forall k t, m !! k = Some t -> thread_ok k t) -> thread_ok k t' ->
  forall k' u, <[k := t']> m !! k' = Some u -> thread_ok k' u.
Proof. intros Hm Ht k' u. rewrite lookup_insert_Some. intros [[<- <-]|[_ Hu]]; [done|by apply Hm]. Qed.
Lemma counted_arm w c pc pc' m : (c < num_chans)%nat -> counted (ZtPool w pc m) (chan_keys c) (c * length online) ->
  counted (ZtPool (wtz_arm w num_online).2 pc' m) (chan_keys c ++ row c []) (S c * length online).
Proof.
  intros Hc (H1 & H2 & H3 & H4 & H5 & H6). rewrite /counted. cbn [zts wtz wtz_arm snd acnt sem] in *. rewrite app_nil_r.
  pose proof len_pos as Hn.
  assert (Hu : (ups m <= c * length online)%nat) by (pose proof (ups_size m); rewrite -size_dom H1 size_list_to_set // in H; lia).
  pose proof (counted_few (S c) ltac:(lia)) as Hf.
  assert (Ea : s32 (acnt w + num_online) = Z.of_nat (S c * length online) - Z.of_nat (ups m)) by (rewrite H4 online_num s32_small; nia).
  split_and!; [done|done|lia|done|rewrite Ea; lia|]. intros E1 Hs. destruct (H6 E1 Hs) as [Hz _]. assert (c = 0%nat) as -> by lia. cbn in Hz. lia.
Qed.
Lemma counted_create w c i done todo pc pc' m : online = done ++ i :: todo ->
  counted (ZtPool w pc m) (chan_keys c ++ row c done) (S c * length online) ->
  counted (ZtPool w pc' (<[(c, i) := ZtInit]> m)) (chan_keys c ++ row c (done ++ [i])) (S c * length online).
Proof.
  intros Eon (H1 & H2 & H3 & H4 & H5 & H6). rewrite /counted. cbn [zts wtz] in *.
  assert (Hni : (c, i) ∉ chan_keys c ++ row c done).
  { rewrite elem_of_app elem_of_chan_keys elem_of_row /=. intros [[? _]|[_ Hi]]; [lia|].
    pose proof online_nodup as Hnd. rewrite Eon in Hnd. apply NoDup_app in Hnd as (_ & Hdis & _). by apply (Hdis i Hi), elem_of_cons; left. }
  assert (Hfr : m !! (c, i) = None) by (apply not_elem_of_dom; by rewrite H1 elem_of_list_to_set).
  rewrite (ups_insert m (c, i) None) //; [by intros []|]. rewrite /row fmap_app (assoc_L (++)). fold (row c done).
  split_and!; try done.
  - rewrite dom_insert_L H1 list_to_set_app_L. cbn [fmap list_fmap list_to_set]. set_solver +.
  - apply NoDup_app. split_and!; [done| |apply NoDup_singleton]. intros k Hk. cbn. rewrite list_elem_of_singleton. by intros ->.
  - rewrite !length_app length_chan_keys length_fmap length_cons. pose proof (f_equal length Eon) as El. rewrite length_app length_cons in El. cbn [length Nat.mul]. rewrite /row length_fmap. lia.
Qed.
Lemma pool_inv_main s s' : pool_inv s -> ztp_step AMain s s' -> pool_inv s'.
Proof.
  intros [Ht Hm] Hst. inversion Hst as [w c m Hc|w c m Hc|w c i todo m Hcr|w c i todo m Hcr|w c m|w c m Hc|w w' m Hw|w k todo m He|w k todo m He|w m| | |]; subst; cbn [zts] in Ht; rewrite /main_inv in Hm; cbn [main zts] in Hm.
  - split; [done|]. rewrite /main_inv. cbn [main zts]. by destruct Hm as [_ [? _]].
  - split; [done|]. rewrite /main_inv. cbn [main zts]. split; [done|]. exists []. split; [done|]. apply (counted_arm w c (MArm c)); [done|apply Hm].
  - destruct Hm as (Hc & done & Eon & Hcnt). split.
    + apply thread_ok_insert; [done|]. split; [|done]. rewrite Eon elem_of_app elem_of_cons. tauto.
    + rewrite /main_inv. cbn [main]. split; [done|]. exists (done ++ [i]). split; [by rewrite -app_assoc|]. by apply (counted_create w c i done todo (MCreate c (i :: todo))).
  - destruct Hm as (Hc & done & Eon & Hcnt). split; [done|]. rewrite /main_inv. cbn [main zts]. split_and!; [done..|]. exists done, todo. split; [done|apply Hcnt].
  - destruct Hm as (Hc & done & Eon & Hcnt). rewrite app_nil_r in Eon. subst done. split; [done|]. rewrite /main_inv. cbn [main zts]. split; [lia|]. by rewrite chan_keys_S.
  - destruct Hm as (Hle & Hcnt). split; [done|]. rewrite /main_inv. cbn [main zts]. by replace num_chans with c by lia.
  - split; [done|]. rewrite /main_inv. cbn [main zts]. destruct (counted_bound _ _ _ Hm) as [_ Hall]. destruct Hm as (H1 & H2 & H3 & H4 & H5 & H6). cbn [zts wtz] in *.
    split; [split; [done|]|by exists []; split; [|intros _ k ?%elem_of_nil]]. intros E1. apply Hall. rewrite length_chan_keys. apply (H6 E1). rewrite /wtz_wait in Hw. destruct (sem w); [done|lia].
  - destruct Hm as (Ha & seen & Ek & Hv). split; [done|]. rewrite /main_inv. cbn [main zts]. split; [done|]. exists (seen ++ [k]). split; [by rewrite -app_assoc|].
    intros E1 k'. rewrite elem_of_app list_elem_of_singleton. intros [Hin | ->]; [by apply (Hv E1)|]. intros [t Hk]. rewrite /err_at Hk /= in He.
    pose proof (proj2 Ha E1 _ _ Hk) as Hup. pose proof (Ht _ _ Hk) as [_ Hok]. destruct t; cbn in *; naive_solver.
  - destruct Hm as (Ha & seen & Ek & Hv). split; [done|]. rewrite /main_inv. cbn [main zts]. split_and!; [done|done|by exists seen, todo|]. intros E1. rewrite /err_at in He |- *.
    destruct (m !! k) as [t|] eqn:Hk; [|done]. pose proof (proj2 Ha E1 _ _ Hk) as Hup. cbn in He |- *. destruct t as [| |errs|e]; try done; [|left; by exists e].
    right. exists errs. split; [done|]. destruct errs as [|x errs]; [done|]. left.
  - destruct Hm as (Ha & seen & Ek & Hv). rewrite app_nil_r in Ek. subst seen. by split.
Qed.
Lemma main_inv_thread w w' pc m k t t' : main_inv (ZtPool w pc m) -> m !! k = Some t -> (is_up t -> is_up t' /\ exists errs e, t = ZtServe errs /\ t' = ZtServe (e :: errs)) ->
  (forall keys n, Z.of_nat n < 2 ^ 31 -> counted (ZtPool w pc m) keys n -> counted (ZtPool w' pc (<[k := t']> m)) keys n) ->
  main_inv (ZtPool w' pc (<[k := t']> m)).
Proof.
  intros Hm Hk Hu Hc. assert (Ha : all_there m -> all_there (<[k := t']> m)) by (apply (all_there_insert _ _ t); [done|intros Hup; by apply Hu]).
  assert (Hv : forall seen, verified m seen -> verified (<[k := t']> m) seen) by (intros seen; by apply (verified_insert _ _ t)).
  assert (Hd : dom (<[k := t']> m) = dom m) by (apply dom_insert_lookup_L; by eexists).
  destruct pc as [c|c todo| |todo|e|[c|c i|q] e]; rewrite /main_inv in Hm |- *; cbn [main zts] in Hm |- *; rewrite ?Hd.
  - destruct Hm as [H1 H2]. split; [done|]. apply Hc; [by apply counted_few|done].
  - destruct Hm as (H1 & done & Eon & H2). split; [done|]. exists done. split; [done|]. apply Hc; [apply counted_few; lia|done].
  - apply Hc; [by apply counted_few|done].
  - destruct Hm as (H1 & seen & Ek & H2). split; [by apply Ha|]. exists seen. split; [done|by apply Hv].
  - destruct Hm as (H1 & H2 & H3). split_and!; [done|by apply Ha|by apply Hv].
  - done.
  - done.
  - destruct Hm as (H1 & H2 & (seen & todo & Ek & H3) & H4). split_and!; [by apply Ha|done|exists seen, todo; by split; [|apply Hv]|]. intros E1.
    specialize (H4 E1). destruct (decide (q = k)) as [->|Hn]; [|by rewrite lookup_insert_ne]. rewrite lookup_insert_eq. right.
    destruct (Hu (proj2 H1 E1 _ _ Hk)) as (_ & errs & e' & -> & ->). exists (e' :: errs). split; [done|]. destruct H4 as [(e1 & He & _)|(errs' & He & Hin)]; [congruence|].
    rewrite Hk in He. injection He as <-. by right.
Qed.
Lemma pool_inv_step a s s' : pool_inv s -> ztp_step a s s' -> pool_inv s'.
Proof.
  destruct a as [|k|k]; [apply pool_inv_main| |]; intros [Ht Hm] Hst; inversion Hst as [| | | | | | | | | |w pc m k' Hk|w pc m k' e Hk|w pc m k' errs e Hk]; subst; cbn [zts] in Ht; destruct (Ht _ _ Hk) as [Hin Hok].
  - split; [by apply thread_ok_insert|]. apply (main_inv_thread w _ _ _ _ ZtInit); [done..|]. intros keys n _ Hc. apply (counted_insert w pc _ _ _ _ _ ZtInit); [done..|].
    apply (ups_insert _ _ (Some ZtInit)); [done|intros u [= <-] []|by intros []].
  - split; [apply thread_ok_insert; [done|]; split; [done|]; rewrite Hok /zt_behind; destruct (Z.eqb_spec (setup k) 0); [done|by split]|].
    apply (main_inv_thread w _ _ _ _ (ZtReady e)); [done..|]. intros keys n Hn Hc. by apply (counted_release w pc).
  - split; [by apply thread_ok_insert|]. apply (main_inv_thread w _ _ _ _ (ZtServe errs)); [done..|intros _; split; [done|by exists errs, e]|]. intros keys n _ Hc. apply (counted_insert w pc _ _ _ _ _ (ZtServe errs)); [done..|].
    by apply (ups_same _ _ (ZtServe errs)).
Qed.
Lemma pool_inv_reachable s : reachable s -> pool_inv s.
Proof.
  intros Hr. assert (H : forall a b, rtc any_step a b -> pool_inv a -> pool_inv b).
  { induction 1 as [|a b c [x Hab] Hbc IH]; [done|]. intros Ha. by eapply IH, pool_inv_step. }
  eapply H; [exact Hr|exact pool_inv_start].
Qed.
Lemma there_up m i : num_chans = 1%nat -> all_there m -> i ∈ online -> exists t, m !! (0%nat, i) = Some t /\ is_up t.
Proof.
  intros E1 [Hd Hall] Hi. assert (Hin : (0%nat, i) ∈ dom m) by (rewrite Hd elem_of_list_to_set elem_of_chan_keys /=; split; [lia|done]).
  apply elem_of_dom in Hin as [t Ht]. exists t. split; [done|]. by apply (Hall E1 (0%nat, i)).
Qed.

(** ** Progress *)
Definition enabled (a : actor) (s : zt_pool) : Prop := exists s', ztp_step a s s'.
Definition finished (s : zt_pool) : Prop := match main s with MDone _ | MStop _ _ => True | _ => False end.
#[global] Instance finished_dec s : Decision (finished s).
Proof. rewrite /finished. destruct (main s); apply _. Defined.
(** An infinite run: at each time somebody steps, or nobody. *)
Definition is_run (r : nat -> zt_pool) (act : nat -> option actor) : Prop := forall n,
  match act n with Some a => ztp_step a (r n) (r (S n)) | None => r (S n) = r n end.
(** Who can always step does; the kernel need not. *)
Definition fair (r : nat -> zt_pool) (act : nat -> option actor) : Prop := forall a n,
  (forall k, a <> AKernel k) -> exists m, (n <= m)%nat /\ (act m = Some a \/ ~ enabled a (r m)).
(** The steps that are left, waits apart. *)
Definition rank (t : zt_state) : nat := match t with ZtInit => 2 | ZtReady _ => 1 | _ => 0 end.
Definition ranks (m : gmap zkey zt_state) : nat := map_fold (fun _ t n => rank t + n)%nat 0%nat m.
Definition chans_left (c : nat) : nat := (num_chans - c) * (3 * length online + 2).
Lemma chans_left_S c : (c < num_chans)%nat -> chans_left c = (3 * length online + 2 + chans_left (S c))%nat.
Proof. intros Hc. rewrite /chans_left. by replace (num_chans - c)%nat with (S (num_chans - S c)) by lia. Qed.
Definition main_left (pc : main_pc) : nat :=
  match pc with
  | MArm c => chans_left c + length verify_keys + 3
  | MCreate c todo => chans_left (S c) + 3 * length todo + 1 + length verify_keys + 3
  | MWait => length verify_keys + 2
  | MVerify todo => length todo + 1
  | MDone _ | MStop _ _ => 0
  end.
Definition mu (s : zt_pool) : nat := main_left (main s) + ranks (zts s).
Lemma ranks_new m k t : m !! k = None -> ranks (<[k := t]> m) = (rank t + ranks m)%nat.
Proof. intros Hk. rewrite /ranks map_fold_insert_L //. intros. lia. Qed.
Lemma ranks_insert m k t t' : m !! k = Some t -> (ranks (<[k := t']> m) + rank t = ranks m + rank t')%nat.
Proof.
  intros Hk. rewrite -insert_delete_eq ranks_new ?lookup_delete_eq //. rewrite -{2}(insert_delete_id m k t Hk) ranks_new ?lookup_delete_eq //. lia.
Qed.
Lemma ranks_create m k : (ranks (<[k := ZtInit]> m) <= ranks m + 2)%nat.
Proof.
  destruct (m !! k) as [t|] eqn:E; [pose proof (ranks_insert m k t ZtInit E); cbn in *; lia|]. rewrite ranks_new //. cbn. lia.
Qed.
Lemma step_mu a s s' : ztp_step a s s' -> (mu s' < mu s)%nat \/ (exists k, a = AKernel k) /\ mu s' = mu s.
Proof.
  rewrite /mu. destruct 1 as [w c m Hc|w c m Hc|w c i todo m Hcr|w c i todo m Hcr|w c m|w c m Hc|w w' m Hw|w k todo m He|w k todo m He|w m|w pc m k Hk|w pc m k e Hk|w pc m k errs e Hk]; cbn [main zts main_left length].
  - left. lia.
  - left. rewrite (chans_left_S c) //. lia.
  - left. pose proof (ranks_create m (c, i)). lia.
  - left. lia.
  - left. lia.
  - left. lia.
  - left. lia.
  - left. lia.
  - left. lia.
  - left. lia.
  - left. pose proof (ranks_insert m k _ (ZtReady (setup k)) Hk). cbn in *. lia.
  - left. pose proof (ranks_insert m k _ (zt_behind e) Hk). rewrite /zt_behind in H |- *. destruct (e =? 0); cbn in *; lia.
  - right. split; [by exists k|]. pose proof (ranks_insert m k _ (ZtServe (e :: errs)) Hk). cbn in *. lia.
Qed.
(** Whom the start waits for: it is for this one to step. *)
Definition awaited (a : actor) (s : zt_pool) : Prop :=
  match a with
  | AMain => ~ finished s /\ (main s = MWait -> (0 < sem (wtz s))%nat)
  | AThread k => exists t, zts s !! k = Some t /\ ~ is_up t
  | AKernel _ => False
  end.
Lemma awaited_enabled a s : awaited a s -> enabled a s.
Proof.
  rewrite /enabled. destruct s as [w pc m], a as [|k|k]; cbn [awaited main wtz zts]; [| |done].
  - intros [Hf Hs]. destruct pc as [c|c [|i todo]| |[|k todo]|e|why e]; [| | | | | |by destruct Hf..].
    + destruct (decide (c < num_chans)%nat); eexists; [by apply st_arm|apply st_all_end; lia].
    + eexists. apply st_chan_end.
    + destruct (decide (create (c, i) = 0)); eexists; [by apply st_create|by apply st_create_fails].
    + specialize (Hs eq_refl). destruct (wtz_wait w) as [w'|] eqn:Ew; [eexists; by apply st_wait|]. rewrite /wtz_wait in Ew. destruct (sem w); [lia|done].
    + eexists. apply st_verify_end.
    + destruct (decide (err_at m k = 0)); eexists; [by apply st_verify|by apply st_verify_fails].
  - intros ([|e|errs|e] & Hk & Hn); [eexists; by apply st_zt_init|eexists; by apply (st_zt_release w pc m k e)|by destruct Hn..].
Qed.
Hypothesis some_chan : (0 < num_chans)%nat.
Lemma somebody_awaited s : pool_inv s -> ~ finished s -> exists a, awaited a s.
Proof.
  intros [_ Hm] Hf. destruct s as [w pc m].
  assert (Hd : pc = MWait /\ sem w = 0%nat \/ (pc = MWait -> (0 < sem w)%nat)).
  { destruct (decide (sem w = 0%nat)); [|right; lia]. destruct pc; (by left) || (by right). }
  destruct Hd as [[-> E0]|Hn]; [|by exists AMain].
  rewrite /main_inv in Hm. cbn [main] in Hm. pose proof Hm as (H1 & H2 & H3 & H4 & H5 & H6). cbn [zts wtz] in *.
  destruct (not_up_some m) as (k & t & Hk & Ht); [|exists (AThread k), t; by split].
  pose proof len_pos. pose proof some_chan. assert (0 < num_chans * length online)%nat by nia. specialize (H5 ltac:(done)).
  pose proof (ups_size m) as Hu. rewrite -size_dom H1 size_list_to_set // length_chan_keys in Hu |- *. lia.
Qed.
Lemma awaited_kept a b s s' : awaited a s -> ztp_step (AKernel b) s s' -> awaited a s'.
Proof.
  intros Ha Hst. inversion Hst as [| | | | | | | | | | | |w pc m k errs e Hk]; subst. destruct a as [|k|k]; cbn [awaited main wtz zts] in Ha |- *; [done| |done].
  destruct Ha as (t & Ht & Hn). exists t. split; [|done]. rewrite lookup_insert_ne //. intros ->. rewrite Hk in Ht. injection Ht as <-. by destruct Hn.
Qed.
Lemma start_run_inv r act n : reachable (r 0%nat) -> is_run r act -> pool_inv (r n).
Proof.
  intros H0 Hr. induction n as [|n IH]; [by apply pool_inv_reachable|]. specialize (Hr n). destruct (act n) as [a|]; [|by rewrite Hr]. by apply (pool_inv_step a (r n)).
Qed.
(** Until the one that is awaited steps, nothing gets worse. *)
Lemma start_next_decrease r act a n d : is_run r act -> awaited a (r n) ->
  act (n + d)%nat = Some a \/ ~ enabled a (r (n + d)%nat) -> exists m, (mu (r m) < mu (r n))%nat.
Proof.
  intros Hr. revert n. induction d as [|d IH]; intros n Ha Hm.
  - rewrite Nat.add_0_r in Hm. destruct Hm as [Hm|Hn]; [|by destruct Hn; apply awaited_enabled]. exists (S n). pose proof (Hr n) as Hst. rewrite Hm in Hst.
    destruct (step_mu _ _ _ Hst) as [?|[[k ->] _]]; [done|by destruct Ha].
  - pose proof (Hr n) as Hst. assert (Hcase : (mu (r (S n)) < mu (r n))%nat \/ mu (r (S n)) = mu (r n) /\ awaited a (r (S n))).
    { destruct (act n) as [b|]; [|rewrite Hst; by right]. destruct (step_mu _ _ _ Hst) as [?|[[k ->] E]]; [by left|right]. split; [done|by apply (awaited_kept a k (r n))]. }
    destruct Hcase as [Hlt|[Emu Ha']]; [by exists (S n)|].
    destruct (IH (S n) Ha') as (m & Hm'); [by replace (S n + d)%nat with (n + S d)%nat by lia|]. exists m. by rewrite -Emu.
Qed.
Lemma run_finishes r act : reachable (r 0%nat) -> is_run r act -> fair r act -> exists n, finished (r n).
Proof.
  intros H0 Hr Hf. assert (Hb : forall b n, (mu (r n) <= b)%nat -> exists m, finished (r m)); [|by apply (Hb _ 0%nat (le_n _))].
  induction b as [b IH] using lt_wf_ind. intros n Hb. destruct (decide (finished (r n))) as [|Hn]; [by exists n|].
  destruct (somebody_awaited (r n) (start_run_inv r act n H0 Hr) Hn) as [a Ha]. destruct (Hf a n) as (m & Hm & Hc); [intros k ->; done|].
  destruct (start_next_decrease r act a n (m - n) Hr Ha) as (n' & Hlt); [by replace (n + (m - n))%nat with m by lia|]. apply (IH (mu (r n')) ltac:(lia) n'). lia.
Qed.

End pool.

(** ** The theorems *)

(** C31: With one channel the barrier works.  Behind it every thread of an online cpu has
    ended its set up; a start that succeeds has all of them serving, none failed.  A start
    that fails tells why: no memory, before any thread; the error of the first thread that
    could not be created, those before it left running; or, with all behind the barrier, of
    the first entry that has an error: the error in which that thread's set up ended, or, if
    it is serving already, one in which a wait of its ended. *)
Theorem barrier_one_channel online num_cpus create setup s :
  NoDup online -> online <> [] -> Z.of_nat (length online) < 2 ^ 31 -> (forall i, i ∈ online -> 0 <= i < Z.of_nat num_cpus) ->
  reachable online (Z.of_nat (length online)) num_cpus 1 create setup s ->
  let all_up := forall i, i ∈ online -> exists t, zts s !! (0%nat, i) = Some t /\ is_up t in
  match main s with
  | MVerify _ => all_up
  | MDone e => e = 0 /\ forall i, i ∈ online -> setup (0%nat, i) = 0 /\ exists errs, zts s !! (0%nat, i) = Some (ZtServe errs)
  | MStop (NoMemory c) e => e = - ENOMEM /\ zts s = ∅
  | MStop (NoThread c i) e => e = create (0%nat, i) /\ e <> 0 /\
    exists before after, online = before ++ i :: after /\ forall j, is_Some (zts s !! (0%nat, j)) <-> j ∈ before
  | MStop (NotUp k) e => e <> 0 /\ k.1 = 0%nat /\ k.2 ∈ online /\ all_up /\ (forall j, j ∈ online -> j < k.2 -> setup (0%nat, j) = 0) /\
    (setup k = e \/ setup k = 0 /\ exists errs, zts s !! k = Some (ZtServe errs) /\ e ∈ errs)
  | _ => True
  end.
Proof.
  intros Hnd Hne Hfew Hpos Hr. destruct (pool_inv_reachable online _ num_cpus 1 create setup eq_refl Hnd Hne ltac:(lia) s Hr) as [Ht Hm].
  rewrite /main_inv in Hm. cbv zeta. pose proof (fun i => there_up online 1 (zts s) i eq_refl) as Hup. destruct (main s) as [c|c todo| |todo|e|[c|c i|k] e]; try done.
  - destruct Hm as [Ha _]. intros i. by apply Hup.
  - destruct Hm as (He & Ha & Hv). split; [done|]. intros i Hi. destruct (Hup i Ha Hi) as (t & Et & Hu). destruct (Ht _ _ Et) as [_ Hok].
    assert (E0 : setup (0%nat, i) = 0).
    { apply (Hv eq_refl); [|by exists t]. rewrite elem_of_verify_keys. split; [apply Nat.lt_0_1|by apply Hpos]. }
    split; [done|]. destruct t as [| |errs|e']; [done..|by exists errs|]. cbn in Hok. destruct Hok. congruence.
  - destruct Hm as (He & Hc & Hd). assert (c = 0%nat) as -> by lia. split; [done|]. by apply dom_empty_inv_L.
  - destruct Hm as (He & Hn & Hc & a & b & Eon & Hd). assert (c = 0%nat) as -> by lia. split_and!; [done..|]. exists a, b. split; [done|]. intros j.
    rewrite -elem_of_dom Hd elem_of_list_to_set elem_of_app elem_of_chan_keys elem_of_row /=. split; [intros [[? _]|[_ ?]]; [lia|done]|by right].
  - destruct Hm as (Ha & Hn & (seen & todo & Ek & Hv) & Hk). specialize (Hk eq_refl). destruct k as [c i].
    assert (Hin : exists t, zts s !! (c, i) = Some t) by (destruct Hk as [(? & ? & _)|(? & ? & _)]; by eexists). destruct Hin as [t Et]. destruct (Ht _ _ Et) as [Hin _].
    assert (Hc : (c, i) ∈ verify_keys num_cpus 1) by (rewrite Ek elem_of_app elem_of_cons; tauto). apply elem_of_verify_keys in Hc as [Hc _]. cbn in Hc, Hin |- *.
    assert (c = 0%nat) as -> by lia. split_and!; [done..|intros j; by apply Hup| |].
    + intros j Hj Hlt. destruct (Hup j Ha Hj) as (u & Eu & _). apply (Hv eq_refl); [|by exists u].
      apply (verify_order num_cpus 1 seen todo 0 i j eq_refl Ek). specialize (Hpos j Hj). lia.
    + destruct Hk as [(e' & Ee & ->)|(errs & Ee & Hie)]; destruct (Ht _ _ Ee) as [_ Hok]; cbn in Hok; [left; by destruct Hok|right; split; [done|by exists errs]].
Qed.

(** ** Runs, and what goes wrong *)
Definition no_error (k : zkey) : Z := 0.
(** With two channels the barrier does not hold: the threads of the first may be through
    before the second is armed, which lets the start pass, and succeed, while a thread of
    the second has not begun; that one may still fail. *)
Lemma barrier_two_channels :
  let setup k := if decide (k.1 = 1%nat) then - EIO else 0 in
  exists s s', reachable [0] 1 1 2 no_error setup s /\ main s = MDone 0 /\ zts s !! (1%nat, 0) = Some ZtInit /\
    any_step [0] 1 1 2 no_error setup s s' /\ main s' = MDone 0 /\ zt_err <$> zts s' !! (1%nat, 0) = Some (- EIO).
Proof.
  intros setup.
  pose (m0 := <[(0%nat, 0) := ZtServe []]> (<[(0%nat, 0) := ZtReady 0]> (<[(0%nat, 0) := ZtInit]> ∅)) : gmap zkey zt_state).
  exists (ZtPool (WaitTilZero 1 0) (MDone 0) (<[(1%nat, 0) := ZtInit]> m0)), (ZtPool (WaitTilZero 1 0) (MDone 0) (<[(1%nat, 0) := ZtReady (- EIO)]> (<[(1%nat, 0) := ZtInit]> m0))).
  split_and!; [|done|done|by exists (AThread (1%nat, 0)); apply (st_zt_init _ _ _ _ _ setup)|done|done]. rewrite /reachable /ztp_start.
  eapply rtc_l; [exists AMain; apply st_arm; lia|]. eapply rtc_l; [exists AMain; by apply st_create|].
  eapply rtc_l; [exists (AThread (0%nat, 0)); by apply st_zt_init|]. eapply rtc_l; [exists (AThread (0%nat, 0)); by apply (st_zt_release _ _ _ _ _ _ _ _ _ _ 0)|].
  eapply rtc_l; [exists AMain; apply st_chan_end|]. eapply rtc_l; [exists AMain; apply st_arm; lia|]. eapply rtc_l; [exists AMain; by apply st_create|].
  eapply rtc_l; [exists AMain; apply st_chan_end|]. eapply rtc_l; [exists AMain; apply st_all_end; lia|]. eapply rtc_l; [exists AMain; by apply st_wait|].
  do 2 (eapply rtc_l; [exists AMain; by apply st_verify|]). eapply rtc_l; [exists AMain; apply st_verify_end|]. apply rtc_refl.
Qed.
(** The loop writes the errors of its waits where the start looks for those of the set up: a
    start can fail although every thread is set up and serves. *)
Lemma start_fails_all_up : exists s, reachable [0] 1 1 1 no_error no_error s /\ main s = MStop (NotUp (0%nat, 0)) (-4) /\ zts s !! (0%nat, 0) = Some (ZtServe [-4]).
Proof.
  exists (ZtPool (WaitTilZero 0 0) (MStop (NotUp (0%nat, 0)) (-4)) (<[(0%nat, 0) := ZtServe [-4]]> (<[(0%nat, 0) := ZtServe []]> (<[(0%nat, 0) := ZtReady 0]> (<[(0%nat, 0) := ZtInit]> ∅))))).
  split; [|by split]. rewrite /reachable /ztp_start.
  eapply rtc_l; [exists AMain; apply st_arm; lia|]. eapply rtc_l; [exists AMain; by apply st_create|]. eapply rtc_l; [exists AMain; apply st_chan_end|].
  eapply rtc_l; [exists (AThread (0%nat, 0)); by apply st_zt_init|]. eapply rtc_l; [exists (AThread (0%nat, 0)); by apply (st_zt_release _ _ _ _ _ _ _ _ _ _ 0)|].
  eapply rtc_l; [exists AMain; apply st_all_end; lia|]. eapply rtc_l; [exists AMain; by apply st_wait|].
  eapply rtc_l; [exists (AKernel (0%nat, 0)); by apply (st_zt_wait _ _ _ _ _ _ _ _ _ _ [] (-4))|].
  eapply rtc_l; [exists AMain; by apply st_verify_fails|]. apply rtc_refl.
Qed.

(** Two cpus, the set up of the second fails. *)
Definition fails_1 (k : zkey) : Z := if k.2 =? 1 then - EIO else 0.
Definition two_up : zt_pool :=
  ZtPool (WaitTilZero 0 0) (MStop (NotUp (0%nat, 1)) (- EIO))
    (<[(0%nat, 1) := ZtFailed (- EIO)]> (<[(0%nat, 1) := ZtReady (- EIO)]> (<[(0%nat, 0) := ZtServe []]> (<[(0%nat, 0) := ZtReady 0]>
    (<[(0%nat, 1) := ZtInit]> (<[(0%nat, 0) := ZtInit]> ∅)))))).
Lemma two_up_reached : reachable [0; 1] 2 2 1 no_error fails_1 two_up.
Proof.
  rewrite /reachable /ztp_start. eapply rtc_l; [exists AMain; apply st_arm; lia|]. do 2 (eapply rtc_l; [exists AMain; by apply st_create|]).
  eapply rtc_l; [exists AMain; apply st_chan_end|]. eapply rtc_l; [exists AMain; apply st_all_end; lia|].
  eapply rtc_l; [exists (AThread (0%nat, 0)); by apply st_zt_init|]. eapply rtc_l; [exists (AThread (0%nat, 0)); by apply (st_zt_release _ _ _ _ _ _ _ _ _ _ 0)|].
  eapply rtc_l; [exists (AThread (0%nat, 1)); by apply st_zt_init|]. eapply rtc_l; [exists (AThread (0%nat, 1)); by apply (st_zt_release _ _ _ _ _ _ _ _ _ _ (- EIO))|].
  eapply rtc_l; [exists AMain; by apply st_wait|]. eapply rtc_l; [exists AMain; by apply st_verify|]. eapply rtc_l; [exists AMain; by apply st_verify_fails|]. apply rtc_refl.
Qed.
Lemma two_nodup : NoDup [0; 1].
Proof. apply (bool_decide_unpack _). vm_compute. exact I. Qed.
Lemma two_possible i : i ∈ [0; 1] -> 0 <= i < 2.
Proof. rewrite !elem_of_cons. intros [->|[->|?%elem_of_nil]]; [lia..|done]. Qed.
Lemma barrier_one_channel_witness : reachable [0; 1] 2 2 1 no_error fails_1 two_up /\ main two_up = MStop (NotUp (0%nat, 1)) (- EIO) /\ fails_1 (0%nat, 0) = 0.
Proof.
  split; [exact two_up_reached|]. split; [reflexivity|].
  destruct (barrier_one_channel [0; 1] 2 no_error fails_1 two_up two_nodup ltac:(discriminate) ltac:(reflexivity) two_possible two_up_reached) as (_ & _ & _ & _ & H & _).
  apply (H 0); [left|reflexivity].
Defined.

(** One cpu: a run in which all goes well. *)
Definition m_init : gmap zkey zt_state := <[(0%nat, 0) := ZtInit]> ∅.
Definition m_ready : gmap zkey zt_state := <[(0%nat, 0) := ZtReady 0]> m_init.
Definition m_serve : gmap zkey zt_state := <[(0%nat, 0) := ZtServe []]> m_ready.
Definition run_ex (n : nat) : zt_pool :=
  match n with
  | 0 => ztp_start
  | 1 => ZtPool (WaitTilZero 1%Z 0) (MCreate 0 [0%Z]) ∅
  | 2 => ZtPool (WaitTilZero 1%Z 0) (MCreate 0 []) m_init
  | 3 => ZtPool (WaitTilZero 1%Z 0) (MArm 1) m_init
  | 4 => ZtPool (WaitTilZero 1%Z 0) MWait m_init
  | 5 => ZtPool (WaitTilZero 1%Z 0) MWait m_ready
  | 6 => ZtPool (WaitTilZero 0%Z 1) MWait m_serve
  | 7 => ZtPool (WaitTilZero 0%Z 0) (MVerify [(0%nat, 0%Z)]) m_serve
  | 8 => ZtPool (WaitTilZero 0%Z 0) (MVerify []) m_serve
  | _ => ZtPool (WaitTilZero 0%Z 0) (MDone 0%Z) m_serve
  end%nat.
Definition act_ex (n : nat) : option actor :=
  match n with 4 | 5 => Some (AThread (0%nat, 0%Z)) | 0 | 1 | 2 | 3 | 6 | 7 | 8 => Some AMain | _ => None end%nat.
Lemma start_run_ex_steps : is_run [0] 1 1 1 no_error no_error run_ex act_ex.
Proof.
  intros n. destruct n as [|[|[|[|[|[|[|[|[|n]]]]]]]]]; cbn [act_ex run_ex].
  - apply (st_arm [0] 1 1 1 no_error no_error wtz_init 0 ∅). lia.
  - by apply st_create.
  - apply st_chan_end.
  - apply st_all_end. lia.
  - by apply (st_zt_init [0] 1 1 1 no_error no_error).
  - by apply (st_zt_release [0] 1 1 1 no_error no_error (WaitTilZero 1 0) MWait m_ready (0%nat, 0) 0).
  - by apply (st_wait [0] 1 1 1 no_error no_error).
  - by apply st_verify.
  - apply st_verify_end.
  - done.
Qed.
Lemma start_run_ex_fair : fair [0] 1 1 1 no_error no_error run_ex act_ex.
Proof.
  intros a n Ha. exists (9 + n)%nat. split; [lia|]. right. cbn [run_ex Nat.add]. intros [s' Hst].
  inversion Hst as [| | | | | | | | | |w pc m k Hk|w pc m k e Hk|w pc m k errs e Hk]; subst; [| |by apply (Ha k)];
    rewrite /m_serve lookup_insert_Some /m_ready lookup_insert_Some /m_init lookup_insert_Some lookup_empty in Hk; naive_solver.
Qed.
