(* ===== verification/Core.v ===== *)
(** * Cpus, nodes and threads: zus-core.c

    The topology the kernel reports, the record every thread of zus has, and the loop of
    the mount thread.  The starting of the dispatcher threads is in Wtz.v. *)

From S2P Require Import Prelude.

Definition ZUS_NUMA_NO_NID : Z := 2 ^ 32 - 1.
Definition ZUS_CPU_ALL : Z := 2 ^ 32 - 1.
Definition __ZT_PLEASE_FREE : Z := 1.
(** Both positive and negative errno's come from below. *)
Definition _errno_UtoK (err : Z) : Z := if err <? 0 then err else - err.

(** ** State *)
(** The kernel's answer: one set of cpus for each node. *)
Record zufs_ioc_numa_map := ZufsIocNumaMap { possible_nodes : Z; possible_cpus : Z; online_nodes : Z; online_cpus : Z; cpu_set_per_node : list (gset Z) }.
Record zus_base_thread := ZusBaseThread {
  threadfn : Z; user_arg : Z; private : Z; one_cpu : Z; bt_nid : Z; bt_thread : Z; bt_flags : Z; bt_err : Z }.
Definition zbt_zero : zus_base_thread := ZusBaseThread 0 0 0 0 0 0 0 0.
(** Seen from one thread: [specific] is what pthread_getspecific answers it. *)
Record zus_core := ZusCore {
  possible_mask : gset Z;
  online_mask : gset Z;
  nr_cpu_ids : Z;
  numa_map : option zufs_ioc_numa_map;
  specific : option Z;
  h_zbt : gmap Z zus_base_thread }.
Definition upd_specific (f : option Z -> option Z) (s : zus_core) : zus_core :=
  ZusCore (possible_mask s) (online_mask s) (nr_cpu_ids s) (numa_map s) (f (specific s)) (h_zbt s).
Definition upd_h_zbt (f : gmap Z zus_base_thread -> gmap Z zus_base_thread) (s : zus_core) : zus_core :=
  ZusCore (possible_mask s) (online_mask s) (nr_cpu_ids s) (numa_map s) (specific s) (f (h_zbt s)).
Notation CORE := (ST zus_core).

(** ** Sets of cpus *)
(** A cpu_set_t has 1024 bits; outside of them nothing is set. *)
Definition CPU_SETSIZE : Z := 1024.
Definition CPU_ISSET (cpu : Z) (set : gset Z) : bool := (0 <=? cpu) && (cpu <? CPU_SETSIZE) && bool_decide (cpu ∈ set).
Definition CPU_SET (cpu : Z) (set : gset Z) : gset Z := if (0 <=? cpu) && (cpu <? CPU_SETSIZE) then {[cpu]} ∪ set else set.

Fixpoint cpumask_loop (fuel : nat) (nr cpu : Z) (srcp : gset Z) : Z :=
  match fuel with
  | O => u32 (-1)
  | S k => if cpu <? nr then (if CPU_ISSET (cpu + 1) srcp then u32 (cpu + 1) else cpumask_loop k nr (cpu + 1) srcp) else u32 (-1)
  end.
Definition zus_cpumask_next (nr cpu : Z) (srcp : gset Z) : Z := cpumask_loop (Z.to_nat (nr - cpu + 1)) nr cpu srcp.
(** The cpus the loop of the macro visits. *)
Fixpoint for_each_loop (fuel : nat) (nr cpu : Z) (mask : gset Z) : option (list Z) :=
  match fuel with
  | O => None
  | S k => let cpu := zus_cpumask_next nr cpu mask in if cpu <? nr then cons cpu <$> for_each_loop k nr cpu mask else Some []
  end.
Definition zus_for_each_cpu (nr : Z) (mask : gset Z) : option (list Z) := for_each_loop (S (Z.to_nat nr)) nr (-1) mask.

(** [for (node ...)] of [_set_cpumasks], over the sets of the nodes that are left. *)
Fixpoint set_nodes (cpu : Z) (l : list (gset Z)) (online : gset Z) : gset Z :=
  match l with [] => online | cpusetp :: l' => set_nodes cpu l' (if CPU_ISSET cpu cpusetp then CPU_SET cpu online else online) end.
(** [for (cpu ...)], [n] rounds left. *)
Fixpoint set_cpus (n : nat) (cpu : Z) (l : list (gset Z)) (m : gset Z * gset Z) : gset Z * gset Z :=
  match n with O => m | S k => set_cpus k (cpu + 1) l (CPU_SET cpu m.1, set_nodes cpu l m.2) end.
Definition _set_cpumasks (map : zufs_ioc_numa_map) : CORE unit :=
  assert (possible_nodes map <=? Z.of_nat (length (cpu_set_per_node map)));;
  modify (fun s => let m := set_cpus (Z.to_nat (possible_cpus map)) 0 (take (Z.to_nat (possible_nodes map)) (cpu_set_per_node map)) (possible_mask s, online_mask s) in
    ZusCore m.1 m.2 (possible_cpus map) (Some map) (specific s) (h_zbt s)).
(** [answer]: the ioctl's result and the map it fills. *)
Definition zus_numa_map_init (answer : Z * zufs_ioc_numa_map) : CORE Z :=
  if negb (answer.1 =? 0) then mret answer.1 else _set_cpumasks answer.2;; mret 0.

Definition zus_cpu_online (cpu : Z) : CORE bool := s ← gets (fun s => s); mret ((u32 cpu <? nr_cpu_ids s) && CPU_ISSET cpu (online_mask s)).
Definition zus_numa_map : CORE zufs_ioc_numa_map := o ← gets numa_map; of_option o.
Definition ___BAD_CPU (cpu : Z) : CORE bool :=
  map ← zus_numa_map;
  if possible_cpus map <=? cpu then mret true else
  on ← zus_cpu_online cpu;
  mret (negb on).
(** The first node from [node] on that has the cpu. *)
Fixpoint find_node (cpu node : Z) (l : list (gset Z)) : Z :=
  match l with [] => 0 | cpusetp :: l' => if CPU_ISSET cpu cpusetp then node else find_node cpu (node + 1) l' end.
Definition zus_cpu_to_node (cpu : Z) : CORE Z :=
  bad ← ___BAD_CPU (u32 cpu);
  if bad : bool then mret 0 else
  map ← zus_numa_map;
  mret (find_node cpu 0 (take (Z.to_nat (possible_nodes map)) (cpu_set_per_node map))).

(** ** The running thread *)
Definition zus_current_onecpu : CORE Z :=
  o ← gets specific;
  match o with None => mret (s32 ZUS_CPU_ALL) | Some p => t ← load h_zbt p; mret (s32 (one_cpu t)) end.
Definition zus_private_get : CORE Z := o ← gets specific; match o with None => mret 0 | Some p => t ← load h_zbt p; mret (private t) end.
Definition zus_private_set (v : Z) : CORE unit :=
  o ← gets specific;
  match o with
  | None => mret tt
  | Some p => update h_zbt upd_h_zbt p (fun t => ZusBaseThread (threadfn t) (user_arg t) v (one_cpu t) (bt_nid t) (bt_thread t) (bt_flags t) (bt_err t))
  end.
Definition zus_thread_self : CORE Z := o ← gets specific; mret (default 0 o).
(** [cpu] is what sched_getcpu answers. *)
Definition __zus_current_cpu (cpu : Z) : CORE Z :=
  o ← gets specific;
  match o with
  | None => mret cpu
  | Some p => t ← load h_zbt p; if one_cpu t =? ZUS_CPU_ALL then mret cpu else mret (s32 (one_cpu t))
  end.
Definition zus_current_cpu (cpu : Z) : CORE Z := __zus_current_cpu cpu.
Definition zus_current_cpu_silent (cpu : Z) : CORE Z := __zus_current_cpu cpu.
Definition zus_current_nid (cpu : Z) : CORE Z :=
  o ← gets specific;
  match o with
  | None => zus_cpu_to_node cpu
  | Some p => t ← load h_zbt p; if bt_nid t =? ZUS_NUMA_NO_NID then zus_cpu_to_node cpu else mret (s32 (bt_nid t))
  end.

(** ** Creating threads *)
Definition zus_set_numa_affinity (nid : Z) : CORE (Z + gset Z) :=
  map ← zus_numa_map;
  if possible_nodes map <=? u32 nid then mret (inl (- EINVAL)) else
  set ← of_option (cpu_set_per_node map !! Z.to_nat nid); mret (inr set).
Definition zus_set_onecpu_affinity (cpu : Z) : gset Z := CPU_SET cpu ∅.
Record zus_thread_params := ZusThreadParams { policy : Z; rr_priority : Z; tp_one_cpu : Z; tp_nid : Z }.
Definition SCHED_OTHER : Z := 0.
(** What the calls of the pthread library answer, and the thread created. *)
Record pthread_answers := PthreadAnswers { a_init : Z; a_inherit : Z; a_policy : Z; a_param : Z; a_affinity : Z; a_create : Z; a_thread : Z }.
Definition upd_zbt (zbt : Z) (f : zus_base_thread -> zus_base_thread) : CORE unit := update h_zbt upd_h_zbt zbt f.
Definition set_err (e : Z) (t : zus_base_thread) : zus_base_thread :=
  ZusBaseThread (threadfn t) (user_arg t) (private t) (one_cpu t) (bt_nid t) (bt_thread t) (bt_flags t) e.
Definition set_thread (v : Z) (t : zus_base_thread) : zus_base_thread :=
  ZusBaseThread (threadfn t) (user_arg t) (private t) (one_cpu t) (bt_nid t) v (bt_flags t) (bt_err t).
Definition set_where (cpu nid : Z) (t : zus_base_thread) : zus_base_thread :=
  ZusBaseThread (threadfn t) (user_arg t) (private t) cpu nid (bt_thread t) (bt_flags t) (bt_err t).
Definition set_fn (fn arg : Z) (t : zus_base_thread) : zus_base_thread :=
  ZusBaseThread fn arg (private t) (one_cpu t) (bt_nid t) (bt_thread t) (bt_flags t) (bt_err t).
(** The label [error]. *)
Definition create_error (zbt err : Z) : CORE Z :=
  upd_zbt zbt (set_thread 0);; upd_zbt zbt (set_err (_errno_UtoK err));; mret (_errno_UtoK err).
(** The affinity, or the error; None: there is none to set. *)
Definition create_affinity (zbt : Z) (tp : zus_thread_params) : CORE (Z + option (gset Z)) :=
  if negb (tp_one_cpu tp =? ZUS_CPU_ALL) then
    node ← zus_cpu_to_node (tp_one_cpu tp);
    upd_zbt zbt (set_where (tp_one_cpu tp) node);;
    mret (inr (Some (zus_set_onecpu_affinity (tp_one_cpu tp))))
  else if negb (tp_nid tp =? ZUS_NUMA_NO_NID) then
    r ← zus_set_numa_affinity (tp_nid tp);
    match r with
    | inl err => mret (inl err)
    | inr set => t ← load h_zbt zbt; upd_zbt zbt (set_where (one_cpu t) (tp_nid tp));; mret (inr (Some set))
    end
  else mret (inr None).
Definition __zus_thread_create (zbt : Z) (tp : zus_thread_params) (fn arg : Z) (a : pthread_answers) : CORE Z :=
  upd_zbt zbt (set_fn fn arg);;
  upd_zbt zbt (set_where ZUS_CPU_ALL ZUS_NUMA_NO_NID);;
  if negb (a_init a =? 0) then upd_zbt zbt (set_err (a_init a));; mret (a_init a) else
  if negb (a_inherit a =? 0) then create_error zbt (a_inherit a) else
  if negb (policy tp =? SCHED_OTHER) && negb (a_policy a =? 0) then create_error zbt (a_policy a) else
  if negb (policy tp =? SCHED_OTHER) && negb (a_param a =? 0) then create_error zbt (a_param a) else
  r ← create_affinity zbt tp;
  match r with
  | inl err => create_error zbt err
  | inr aff =>
    if bool_decide (aff <> None) && negb (a_affinity a =? 0) then create_error zbt (a_affinity a) else
    if negb (a_create a =? 0) then create_error zbt (a_create a) else
    upd_zbt zbt (set_thread (a_thread a));;
    mret 0
  end.
(** [mem] is what calloc answers.  With the new thread. *)
Definition zus_thread_create (mem : option Z) (tp : zus_thread_params) (fn arg : Z) (a : pthread_answers) : CORE (Z * Z) :=
  match mem with
  | None => mret (- ENOMEM, 0)
  | Some zbt =>
    modify (upd_h_zbt (<[zbt := ZusBaseThread 0 0 0 0 0 0 __ZT_PLEASE_FREE 0]>));;
    err ← __zus_thread_create zbt tp fn arg a;
    if negb (err =? 0) then modify (upd_h_zbt (delete zbt));; mret (err, 0) else
    t ← load h_zbt zbt; mret (0, bt_thread t)
  end.
(** [body] is [zbt->threadfn(zbt->user_arg)]. *)
Definition zus_glue_thread {A} (zbt : Z) (body : CORE A) : CORE A :=
  modify (upd_specific (fun _ => Some zbt));;
  ret ← body;
  modify (upd_specific (fun _ => None));;
  t ← load h_zbt zbt;
  (if negb (Z.land (bt_flags t) __ZT_PLEASE_FREE =? 0) then modify (upd_h_zbt (delete zbt)) else mret tt);;
  mret ret.
Definition zus_thread_current_init (mem : option Z) (cpu : Z) : CORE Z :=
  o ← gets specific;
  if bool_decide (o <> None) then mret (- EEXIST) else
  match mem with
  | None => mret (- ENOMEM)
  | Some zbt =>
    node ← zus_cpu_to_node (u32 cpu);
    modify (upd_h_zbt (<[zbt := ZusBaseThread 0 0 0 (u32 cpu) node 0 0 0]>));;
    modify (upd_specific (fun _ => Some zbt));;
    mret 0
  end.
Definition zus_thread_current_fini : CORE unit :=
  o ← gets specific;
  match o with
  | None => mret tt
  | Some zbt => modify (upd_specific (fun _ => None));; modify (upd_h_zbt (delete zbt))
  end.

(** ** The mount thread *)
(** The operations of the mount protocol (zus_api.h). *)
Class MountApi : Type := { ZUFS_M_MOUNT : Z; ZUFS_M_UMOUNT : Z; ZUFS_M_REMOUNT : Z; ZUFS_M_DDBG_RD : Z; ZUFS_M_DDBG_WR : Z }.
Section mount.
Context `{MountApi} {S : Type}.
(** The calls it makes, on a state of their own; [num_zts] is [g_ztp.num_zts]. *)
Record mount_calls := MountCalls {
  num_zts : S -> Z;
  start_all_threads : ST S Z;
  mount : ST S Z;
  umount : ST S Z;
  remount : ST S Z;
  ddbg_read : ST S Z;
  ddbg_write : ST S Z }.
Definition mount_switch (c : mount_calls) (op : Z) : ST S Z :=
  if op =? ZUFS_M_MOUNT then mount c
  else if op =? ZUFS_M_UMOUNT then umount c
  else if op =? ZUFS_M_REMOUNT then remount c
  else if op =? ZUFS_M_DDBG_RD then ddbg_read c
  else if op =? ZUFS_M_DDBG_WR then ddbg_write c
  else mret (- EINVAL).
(** One round: the error for the kernel. *)
Definition mount_round (c : mount_calls) (op : Z) : ST S Z :=
  n ← gets (num_zts c);
  if (op =? ZUFS_M_MOUNT) && (n =? 0) then
    err ← start_all_threads c;
    if negb (err =? 0) then mret (_errno_UtoK err) else
    err ← mount_switch c op; mret (_errno_UtoK err)
  else err ← mount_switch c op; mret (_errno_UtoK err).
(** The loop, over what [zuf_recieve_mount] answers: its error, whether the thread was
    told to stop meanwhile, the operation.  The errors sent back. *)
Fixpoint zus_mount_thread (c : mount_calls) (l : list (Z * bool * Z)) : ST S (list Z) :=
  match l with
  | [] => mret []
  | (err, stop, op) :: l' =>
    if negb (err =? 0) || stop then mret [] else
    e ← mount_round c op;
    r ← zus_mount_thread c l';
    mret (e :: r)
  end.
End mount.
Arguments mount_calls : clear implicits.
