(* ===== verification/CoreSpec.v ===== *)
(** * What the topology and the threads of zus-core.c promise

    The loops over sets of cpus visit what they should, every online cpu has its node,
    and creating a thread leaves nothing behind when it fails. *)

From stdpp Require Import sorting.
From S2P Require Import Prelude Core.

(** ** Sets of cpus *)

Lemma CPU_ISSET_spec c set : CPU_ISSET c set = true <-> 0 <= c < CPU_SETSIZE /\ c ∈ set.
Proof.
  rewrite /CPU_ISSET !andb_true_iff bool_decide_eq_true Z.leb_le Z.ltb_lt. tauto.
Qed.
Lemma CPU_SET_spec c x set : 0 <= c < CPU_SETSIZE -> x ∈ CPU_SET c set <-> x = c \/ x ∈ set.
Proof.
  intros Hc. rewrite /CPU_SET. rewrite (proj2 (Z.leb_le 0 c)); [lia|]. rewrite (proj2 (Z.ltb_lt c CPU_SETSIZE)); [lia|].
  cbn. set_solver.
Qed.
(** The set, seen as C sees it: in the order of the bits. *)
Definition cpus_of (mask : gset Z) (lo n : Z) : list Z := filter (fun c => CPU_ISSET c mask = true) (seqZ lo n).

Lemma cpus_of_cons mask lo n : 0 < n ->
  cpus_of mask lo n = (if CPU_ISSET lo mask then [lo] else []) ++ cpus_of mask (lo + 1) (n - 1).
Proof.
  intros Hn. rewrite /cpus_of (seqZ_cons lo) // filter_cons -/(Z.add lo 1).
  replace (Z.succ lo) with (lo + 1) by lia. replace (Z.pred n) with (n - 1) by lia.
  case_decide as E; [by rewrite E|]. by destruct (CPU_ISSET lo mask).
Qed.
Lemma cpus_of_nil mask lo n : n <= 0 -> cpus_of mask lo n = [].
Proof. intros Hn. by rewrite /cpus_of seqZ_nil. Qed.

(** The next cpu, or none before [nr]. *)
Lemma cpumask_loop_spec nr mask fuel cpu :
  0 <= nr <= CPU_SETSIZE -> -1 <= cpu -> nr - cpu < Z.of_nat fuel ->
  let r := cpumask_loop fuel nr cpu mask in
  (cpu < r < nr /\ cpus_of mask (cpu + 1) (nr - cpu - 1) = r :: cpus_of mask (r + 1) (nr - r - 1)) \/
  (nr <= r /\ cpus_of mask (cpu + 1) (nr - cpu - 1) = []).
Proof.
  intros Hnr. revert cpu. induction fuel as [|k IH]; intros cpu Hc Hf; cbn [cpumask_loop]; [|destruct (Z.ltb_spec cpu nr) as [L|L]].
  - right. split; [change (u32 (-1)) with (2 ^ 32 - 1); unfold CPU_SETSIZE in *; lia|]. apply cpus_of_nil. lia.
  - destruct (Z.eq_dec (cpu + 1) nr) as [E|E].
    { right. split; [|apply cpus_of_nil; lia].
      destruct (CPU_ISSET _ _); [rewrite u32_small; unfold CPU_SETSIZE in *; lia|].
      destruct (IH (cpu + 1) ltac:(lia) ltac:(lia)) as [[]|[]]; lia. }
    rewrite (cpus_of_cons mask (cpu + 1)); [lia|]. destruct (CPU_ISSET (cpu + 1) mask) eqn:S.
    + left. rewrite u32_small; [unfold CPU_SETSIZE in *; lia|]. split; [lia|]. cbn [app]. do 2 f_equal; lia.
    + replace (nr - cpu - 1 - 1) with (nr - (cpu + 1) - 1) by lia. cbn [app].
      destruct (IH (cpu + 1) ltac:(lia) ltac:(lia)) as [[]|[]]; [left|right]; (split; [lia|done]).
  - right. split; [change (u32 (-1)) with (2 ^ 32 - 1); unfold CPU_SETSIZE in *; lia|]. apply cpus_of_nil. lia.
Qed.
Lemma cpus_of_tail mask lo n r l : cpus_of mask lo n = r :: l -> lo <= r.
Proof.
  intros E. assert (Hr : r ∈ cpus_of mask lo n) by (rewrite E; left).
  rewrite /cpus_of in Hr. apply list_elem_of_filter in Hr as [_ Hr]. apply elem_of_seqZ in Hr. lia.
Qed.
Lemma for_each_loop_spec nr mask fuel cpu :
  0 <= nr <= CPU_SETSIZE -> -1 <= cpu -> nr - cpu <= Z.of_nat fuel -> (0 < fuel)%nat ->
  for_each_loop fuel nr cpu mask = Some (cpus_of mask (cpu + 1) (nr - cpu - 1)).
Proof.
  intros Hnr. revert cpu. induction fuel as [|k IH]; intros cpu Hc Hf Hp; [lia|]. cbn [for_each_loop].
  rewrite /zus_cpumask_next.
  destruct (cpumask_loop_spec nr mask (Z.to_nat (nr - cpu + 1)) cpu Hnr Hc ltac:(lia)) as [[Hr ->]|[Hr ->]].
  - rewrite (proj2 (Z.ltb_lt _ _)); [lia|]. rewrite IH; [lia|lia|lia|]. done.
  - by rewrite (proj2 (Z.ltb_ge _ _)).
Qed.

Lemma cpus_of_sorted mask lo n : StronglySorted Z.lt (cpus_of mask lo n).
Proof.
  rewrite /cpus_of /seqZ. generalize (Z.to_nat n); clear n; intros n. revert lo.
  enough (H : forall i lo, StronglySorted Z.lt (filter (fun c => CPU_ISSET c mask = true) ((fun j : nat => Z.of_nat j + lo) <$> seq i n))) by apply (H 0%nat).
  induction n as [|n IH]; intros i lo; cbn [seq fmap list_fmap]; [constructor|]. rewrite filter_cons. specialize (IH (S i) lo).
  case_decide; [|done]. constructor; [done|]. apply Forall_forall.
  intros x [_ (y & -> & Hy%elem_of_seq)%list_elem_of_fmap]%list_elem_of_filter. lia.
Qed.

(** C33: the macro zus_for_each_cpu ends, and runs its body once for each cpu of the mask
    below zus_nr_cpu_ids, in ascending order: it is the list of the bits of the mask. *)
Theorem for_each_cpu_spec (nr : Z) (mask : gset Z) :
  0 <= nr <= CPU_SETSIZE ->
  exists l, zus_for_each_cpu nr mask = Some l /\ StronglySorted Z.lt l /\ forall c, c ∈ l <-> 0 <= c < nr /\ c ∈ mask.
Proof.
  intros Hnr. exists (cpus_of mask 0 nr). split; [|split].
  - rewrite /zus_for_each_cpu for_each_loop_spec; [lia|lia|lia|lia|]. f_equal. f_equal. lia.
  - apply cpus_of_sorted.
  - intros c. rewrite /cpus_of list_elem_of_filter elem_of_seqZ CPU_ISSET_spec. unfold CPU_SETSIZE in *. split; [intros [[? ?] ?]|intros [? ?]]; repeat split; try tauto; lia.
Qed.
Lemma for_each_cpu_spec_witness :
  0 <= 4 <= CPU_SETSIZE /\ exists l, zus_for_each_cpu 4 {[0; 2; 3; 9]} = Some l /\ StronglySorted Z.lt l /\ forall c, c ∈ l <-> 0 <= c < 4 /\ c ∈ ({[0; 2; 3; 9]} : gset Z).
Proof. split; [unfold CPU_SETSIZE; lia|]. apply (for_each_cpu_spec 4 {[0; 2; 3; 9]}). unfold CPU_SETSIZE. lia. Defined.

(** ** The topology *)

Lemma set_nodes_spec cpu l online x : 0 <= cpu < CPU_SETSIZE ->
  x ∈ set_nodes cpu l online <-> x ∈ online \/ (x = cpu /\ Exists (fun set => cpu ∈ set) l).
Proof.
  intros Hc. revert online. induction l as [|set l IH]; intros online; cbn [set_nodes].
  - rewrite Exists_nil. tauto.
  - rewrite IH Exists_cons. destruct (CPU_ISSET cpu set) eqn:E.
    + apply CPU_ISSET_spec in E. rewrite CPU_SET_spec //. naive_solver.
    + assert (cpu ∉ set). { intros X. rewrite (proj2 (CPU_ISSET_spec cpu set)) // in E. } naive_solver.
Qed.
Lemma set_cpus_spec n cpu l m x : 0 <= cpu -> cpu + Z.of_nat n <= CPU_SETSIZE ->
  (x ∈ (set_cpus n cpu l m).1 <-> x ∈ m.1 \/ cpu <= x < cpu + Z.of_nat n) /\
  (x ∈ (set_cpus n cpu l m).2 <-> x ∈ m.2 \/ (cpu <= x < cpu + Z.of_nat n /\ Exists (fun set => x ∈ set) l)).
Proof.
  revert cpu m. induction n as [|n IH]; intros cpu m Hc Hn; cbn [set_cpus].
  - split; [|]; (split; [auto|intros [?|?]; [done|lia]]).
  - destruct (IH (cpu + 1) (CPU_SET cpu m.1, set_nodes cpu l m.2) ltac:(lia) ltac:(lia)) as [I1 I2].
    rewrite I1 I2 CPU_SET_spec; [lia|]. rewrite set_nodes_spec; [lia|]. cbn [fst snd]. split; split.
    + intros [[->|?]|?]; [right; lia|by left|right; lia].
    + intros [?|?]; [tauto|]. destruct (Z.eq_dec x cpu); [tauto|right; lia].
    + intros [[?|[-> ?]]|[? ?]]; [tauto|right; split; [lia|done]|right; split; [lia|done]].
    + intros [?|[? ?]]; [tauto|]. destruct (Z.eq_dec x cpu) as [->|]; [tauto|right; split; [lia|done]].
Qed.
Definition node_sets (map : zufs_ioc_numa_map) : list (gset Z) := take (Z.to_nat (possible_nodes map)) (cpu_set_per_node map).
(** What the kernel answers: a set for each node, in one page (a set has 128 bytes), and
    no more cpus than a set has bits. *)
Definition map_ok (map : zufs_ioc_numa_map) : Prop :=
  (0 <= possible_nodes map <= Z.of_nat (length (cpu_set_per_node map)) /\ Z.of_nat (length (cpu_set_per_node map)) <= PAGE_SIZE / 128) /\ 0 <= possible_cpus map <= CPU_SETSIZE.
(** The state after [zus_numa_map_init]. *)
Definition topology (map : zufs_ioc_numa_map) (s : zus_core) : Prop :=
  map_ok map /\ numa_map s = Some map /\ nr_cpu_ids s = possible_cpus map /\
  (forall c, c ∈ possible_mask s <-> 0 <= c < possible_cpus map) /\
  (forall c, c ∈ online_mask s <-> 0 <= c < possible_cpus map /\ Exists (fun set => c ∈ set) (node_sets map)).

Lemma wp_numa_map_init map s (Q : Z -> zus_core -> Prop) :
  map_ok map -> possible_mask s = ∅ -> online_mask s = ∅ ->
  (forall s', topology map s' -> specific s' = specific s -> h_zbt s' = h_zbt s -> Q 0 s') ->
  wp (zus_numa_map_init (0, map)) s Q.
Proof.
  intros [Hn Hc] E1 E2 HQ. rewrite /zus_numa_map_init /_set_cpumasks. cbn [fst snd]. rewrite Z.eqb_refl. cbn [negb].
  wp_steps; [apply Z.leb_le; lia|]. wp_steps. apply HQ; [|done|done]. split_and!; try done; cbn [possible_mask online_mask]; intros c;
    destruct (set_cpus_spec (Z.to_nat (possible_cpus map)) 0 (node_sets map) (possible_mask s, online_mask s) c ltac:(lia) ltac:(lia)) as [I1 I2].
  - rewrite I1 E1. cbn. rewrite Z2Nat.id; [lia|]. set_solver.
  - rewrite I2 E2. cbn. rewrite Z2Nat.id; [lia|]. set_solver.
Qed.

Lemma find_node_spec cpu node l : 0 <= cpu < CPU_SETSIZE -> Exists (fun set => cpu ∈ set) l ->
  exists i set, find_node cpu node l = node + Z.of_nat i /\ l !! i = Some set /\ cpu ∈ set /\
    forall j set', l !! j = Some set' -> cpu ∈ set' -> (i <= j)%nat.
Proof.
  intros Hc. revert node. induction l as [|set l IH]; intros node He; [by apply Exists_nil in He|]. cbn [find_node].
  destruct (CPU_ISSET cpu set) eqn:E.
  - exists 0%nat, set. apply CPU_ISSET_spec in E. split_and!; [lia|done|tauto|lia].
  - assert (N : cpu ∉ set). { intros X. rewrite (proj2 (CPU_ISSET_spec cpu set)) // in E. }
    apply Exists_cons in He as [?|He]; [done|]. destruct (IH (node + 1) He) as (i & set1 & -> & Hi & Hin & Hmin).
    exists (S i), set1. split_and!; [lia|done|done|]. intros [|j] set' Hj Hs; [cbn in Hj; naive_solver|]. specialize (Hmin j set' Hj Hs). lia.
Qed.
Lemma wp_cpu_to_node map s cpu (Q : Z -> zus_core -> Prop) : topology map s -> 0 <= cpu < 2 ^ 31 ->
  Q (if bool_decide (cpu ∈ online_mask s) then find_node cpu 0 (node_sets map) else 0) s ->
  wp (zus_cpu_to_node cpu) s Q.
Proof.
  intros (Hm & E & En & Hp & Ho) Hc HQ. rewrite /zus_cpu_to_node /___BAD_CPU /zus_numa_map /zus_cpu_online.
  wp_steps. rewrite E. cbn [of_option]. wp_steps. rewrite u32_small; [lia|].
  destruct (Z.leb_spec (possible_cpus map) cpu) as [L|L].
  { wp_steps. rewrite bool_decide_eq_false_2 in HQ; [rewrite Ho; lia|done]. }
  wp_steps. rewrite u32_small; [lia|]. rewrite En (proj2 (Z.ltb_lt _ _)) //. cbn [andb].
  destruct (CPU_ISSET cpu (online_mask s)) eqn:I; cbn [negb]; wp_steps.
  - apply CPU_ISSET_spec in I. rewrite E. cbn [of_option]. wp_steps. rewrite bool_decide_eq_true_2 in HQ; [tauto|done].
  - rewrite bool_decide_eq_false_2 in HQ; [|done]. intros X. rewrite (proj2 (CPU_ISSET_spec _ _)) // in I.
    split; [|done]. destruct Hm as [_ Hm]. apply Ho in X. unfold CPU_SETSIZE in *. lia.
Qed.

(** After zus_numa_map_init, zus_for_each_cpu over the online mask visits each cpu the
    kernel put in a node once and in order, and zus_cpu_to_node places each of these in
    the first node that has it; of every other cpu it says 0. *)
Theorem online_cpus_placed (map : zufs_ioc_numa_map) (s : zus_core) :
  map_ok map -> possible_mask s = ∅ -> online_mask s = ∅ ->
  wp (zus_numa_map_init (0, map)) s (fun err s1 => err = 0 /\
    (exists l, zus_for_each_cpu (nr_cpu_ids s1) (online_mask s1) = Some l /\ StronglySorted Z.lt l /\
      forall c, c ∈ l <-> 0 <= c < possible_cpus map /\ Exists (fun set => c ∈ set) (node_sets map)) /\
    (forall c, c ∈ online_mask s1 -> wp (zus_cpu_to_node c) s1 (fun node s2 => s2 = s1 /\
      exists set, cpu_set_per_node map !! Z.to_nat node = Some set /\ 0 <= node < possible_nodes map /\ c ∈ set /\
        forall n set', 0 <= n < possible_nodes map -> cpu_set_per_node map !! Z.to_nat n = Some set' -> c ∈ set' -> node <= n)) /\
    (forall c, 0 <= c < 2 ^ 31 -> c ∉ online_mask s1 -> wp (zus_cpu_to_node c) s1 (fun node s2 => s2 = s1 /\ node = 0))).
Proof.
  intros Hm E1 E2. apply (wp_numa_map_init map); [done|done|done|]. intros s1 Ht Es Eh. pose proof Ht as (_ & _ & En & Hp & Ho).
  destruct Hm as [Hm1 Hm2]. split_and!; [done| | |].
  - exists (cpus_of (online_mask s1) 0 (nr_cpu_ids s1)). rewrite En. split_and!.
    + rewrite /zus_for_each_cpu for_each_loop_spec; [lia|lia|lia|lia|]. f_equal. f_equal. lia.
    + apply cpus_of_sorted.
    + intros c. rewrite /cpus_of list_elem_of_filter elem_of_seqZ CPU_ISSET_spec Ho. unfold CPU_SETSIZE in *.
      split; [tauto|]. intros [? ?]. repeat split; try tauto; lia.
  - intros c Hc. pose proof Hc as [Hr He]%Ho. apply (wp_cpu_to_node map); [done|unfold CPU_SETSIZE in *; lia|]. split; [done|].
    rewrite bool_decide_eq_true_2 //. destruct (find_node_spec c 0 (node_sets map) ltac:(lia) He) as (i & set & -> & Hi & Hin & Hmin).
    apply lookup_take_Some in Hi as [Hi Hl]. exists set. rewrite Z.add_0_l Nat2Z.id. split_and!; [done|lia|lia|done|].
    intros n set' Hn Hs' Hin'. enough (i <= Z.to_nat n)%nat by lia. apply (Hmin (Z.to_nat n) set'); [|done]. apply lookup_take_Some. split; [done|lia].
  - intros c Hr Hc. apply (wp_cpu_to_node map); [done|lia|]. by rewrite bool_decide_eq_false_2.
Qed.
(** Five possible cpus, of which 0 and 2 are in the first node and 3 in the second. *)
Definition example_map : zufs_ioc_numa_map := ZufsIocNumaMap 2 5 2 3 [{[0; 2]}; {[2; 3]}].
Definition core_boot : zus_core := ZusCore ∅ ∅ 0 None None ∅.
Lemma online_cpus_placed_witness :
  map_ok example_map /\ possible_mask core_boot = ∅ /\ online_mask core_boot = ∅ /\
  wp (zus_numa_map_init (0, example_map)) core_boot (fun err s1 => err = 0 /\
    exists l, zus_for_each_cpu (nr_cpu_ids s1) (online_mask s1) = Some l /\ StronglySorted Z.lt l).
Proof.
  assert (Hm : map_ok example_map) by (vm_compute; repeat split; discriminate).
  split_and!; [exact Hm|reflexivity|reflexivity|].
  eapply wp_mono; [exact (online_cpus_placed example_map core_boot Hm eq_refl eq_refl)|].
  intros err s1 (H & (l & Hl & Hs & _) & _). split; [exact H|]. exists l. split; [exact Hl|exact Hs].
Defined.
Example example_cpus :
  (s ← zus_numa_map_init (0, example_map); m ← gets online_mask; n ← gets nr_cpu_ids; a ← zus_cpu_to_node 2; b ← zus_cpu_to_node 3; c ← zus_cpu_to_node 4;
   mret (zus_for_each_cpu n m, a, b, c)) core_boot ≫= (fun r => Some r.1) = Some (Some [0; 2; 3], 0, 1, 0).
Proof. vm_compute. reflexivity. Qed.

(** ** Threads *)

Lemma upd_zbt_run z f s t : h_zbt s !! z = Some t -> upd_zbt z f s = Some (tt, upd_h_zbt (<[z := f t]>) s).
Proof. rewrite /upd_zbt /update. by intros ->. Qed.
Lemma upd_h_zbt_upd f g s : upd_h_zbt f (upd_h_zbt g s) = upd_h_zbt (fun h => f (g h)) s.
Proof. by destruct s. Qed.
Lemma upd_h_zbt_eq f s h : f (h_zbt s) = h -> upd_h_zbt f s = upd_h_zbt (fun _ => h) s.
Proof. destruct s. rewrite /upd_h_zbt /=. by intros ->. Qed.
(** A state that differs from [s] in the record [t] of the thread [z] only. *)
Definition with_zbt (z : Z) (t : zus_base_thread) (s : zus_core) : zus_core := upd_h_zbt (<[z := t]>) s.
Lemma with_zbt_lookup z t s : h_zbt (with_zbt z t s) !! z = Some t.
Proof. destruct s. cbn. apply lookup_insert_eq. Qed.
Lemma with_zbt_twice z t t' s : with_zbt z t' (with_zbt z t s) = with_zbt z t' s.
Proof. destruct s. rewrite /with_zbt /upd_h_zbt /=. by rewrite insert_insert_eq. Qed.
Lemma wp_upd_zbt z f t s (Q : unit -> zus_core -> Prop) : Q tt (with_zbt z (f t) s) -> wp (upd_zbt z f) (with_zbt z t s) Q.
Proof. intros HQ. rewrite /wp (upd_zbt_run _ _ _ t) ?with_zbt_lookup // -/(with_zbt z (f t) _) with_zbt_twice. done. Qed.
Lemma topology_with_zbt map z t s : topology map s -> topology map (with_zbt z t s).
Proof. by destruct s. Qed.
Lemma errno_UtoK_neg err : err <> 0 -> _errno_UtoK err < 0.
Proof. rewrite /_errno_UtoK. destruct (Z.ltb_spec err 0); lia. Qed.
Lemma wp_create_error z err t s (Q : Z -> zus_core -> Prop) : err <> 0 ->
  (forall e t', e < 0 -> bt_err t' = e -> bt_thread t' = 0 -> Q e (with_zbt z t' s)) -> wp (create_error z err) (with_zbt z t s) Q.
Proof.
  intros He HQ. rewrite /create_error. apply wp_bind, wp_upd_zbt, wp_bind, wp_upd_zbt, wp_ret.
  apply HQ; [by apply errno_UtoK_neg|done|done].
Qed.

(** What a creation needs to succeed. *)
Definition create_ok (map : zufs_ioc_numa_map) (tp : zus_thread_params) (a : pthread_answers) : Prop :=
  a_init a = 0 /\ a_inherit a = 0 /\ (policy tp <> SCHED_OTHER -> a_policy a = 0 /\ a_param a = 0) /\
  (tp_one_cpu tp = ZUS_CPU_ALL -> tp_nid tp <> ZUS_NUMA_NO_NID -> u32 (tp_nid tp) < possible_nodes map) /\
  (tp_one_cpu tp <> ZUS_CPU_ALL \/ tp_nid tp <> ZUS_NUMA_NO_NID -> a_affinity a = 0) /\ a_create a = 0.
(** The cpu and the node of the new thread. *)
Definition create_where (map : zufs_ioc_numa_map) (online : gset Z) (tp : zus_thread_params) : Z * Z :=
  if decide (tp_one_cpu tp = ZUS_CPU_ALL) then (ZUS_CPU_ALL, tp_nid tp)
  else (tp_one_cpu tp, if bool_decide (tp_one_cpu tp ∈ online) then find_node (tp_one_cpu tp) 0 (node_sets map) else 0).
Definition params_ok (tp : zus_thread_params) : Prop :=
  (tp_one_cpu tp = ZUS_CPU_ALL \/ 0 <= tp_one_cpu tp < 2 ^ 31) /\ 0 <= tp_nid tp < 2 ^ 32.

Lemma wp_create_affinity map z tp t s (Q : Z + option (gset Z) -> zus_core -> Prop) :
  topology map s -> params_ok tp -> one_cpu t = ZUS_CPU_ALL -> bt_nid t = ZUS_NUMA_NO_NID ->
  (tp_one_cpu tp = ZUS_CPU_ALL -> tp_nid tp <> ZUS_NUMA_NO_NID -> possible_nodes map <= tp_nid tp -> Q (inl (- EINVAL)) (with_zbt z t s)) ->
  (forall o, (o = None <-> tp_one_cpu tp = ZUS_CPU_ALL /\ tp_nid tp = ZUS_NUMA_NO_NID) ->
    (tp_one_cpu tp = ZUS_CPU_ALL -> tp_nid tp <> ZUS_NUMA_NO_NID -> tp_nid tp < possible_nodes map) ->
    Q (inr o) (with_zbt z (set_where (create_where map (online_mask s) tp).1 (create_where map (online_mask s) tp).2 t) s)) ->
  wp (create_affinity z tp) (with_zbt z t s) Q.
Proof.
  intros Ht [Hc Hn] Et1 Et2 Herr Hok. rewrite /create_affinity. rewrite /create_where in Hok.
  destruct (Z.eqb_spec (tp_one_cpu tp) ZUS_CPU_ALL) as [E|E]; cbn [negb].
  - rewrite decide_True // in Hok. destruct (Z.eqb_spec (tp_nid tp) ZUS_NUMA_NO_NID) as [En|En]; cbn [negb].
    + apply wp_ret. replace t with (set_where ZUS_CPU_ALL (tp_nid tp) t); [by apply Hok|]. destruct t; cbn in *. by rewrite /set_where /= Et1 Et2 En.
    + rewrite /zus_set_numa_affinity /zus_numa_map. pose proof (topology_with_zbt map z t s Ht) as ((Hm & _) & Em & _).
      wp_step. wp_step. wp_step. wp_step. rewrite Em. cbn [of_option]. wp_step. rewrite u32_small //.
      destruct (Z.leb_spec (possible_nodes map) (tp_nid tp)) as [L|L].
      * wp_step. wp_step. by apply Herr.
      * destruct (lookup_lt_is_Some_2 (cpu_set_per_node map) (Z.to_nat (tp_nid tp)) ltac:(lia)) as [set ->]. cbn [of_option].
        wp_step. wp_step. wp_step. apply wp_bind. eapply wp_load; [apply with_zbt_lookup|]. rewrite Et1.
        apply wp_bind, wp_upd_zbt, wp_ret. apply (Hok (Some set)); [|by intros]. split; [done|by intros [_ ?]].
  - rewrite decide_False // in Hok. destruct Hc as [?|Hc]; [done|]. apply wp_bind.
    apply (wp_cpu_to_node map); [by apply topology_with_zbt|done|]. apply wp_bind, wp_upd_zbt, wp_ret.
    replace (online_mask (with_zbt z t s)) with (online_mask s) by (by destruct s). apply Hok; [|done]. split; [done|by intros [? _]].
Qed.

Lemma wp_thread_create_inner map z tp fn arg a t s (Q : Z -> zus_core -> Prop) : topology map s -> params_ok tp ->
  (forall err t', err <> 0 -> (err < 0 \/ err = a_init a) -> ~ create_ok map tp a -> Q err (with_zbt z t' s)) ->
  (create_ok map tp a -> Q 0 (with_zbt z (ZusBaseThread fn arg (private t) (create_where map (online_mask s) tp).1 (create_where map (online_mask s) tp).2 (a_thread a) (bt_flags t) (bt_err t)) s)) ->
  wp (__zus_thread_create z tp fn arg a) (with_zbt z t s) Q.
Proof.
  intros Ht Hp Hfail Hok. rewrite /__zus_thread_create. do 2 apply wp_bind, wp_upd_zbt.
  assert (Herr : forall e t', e <> 0 -> ~ create_ok map tp a -> wp (create_error z e) (with_zbt z t' s) Q).
  { intros e t' He Hn. apply wp_create_error; [done|]. intros e' t1 Hneg _ _. apply Hfail; [lia|by left|done]. }
  destruct (Z.eqb_spec (a_init a) 0) as [A1|A1]; cbn [negb].
  2: { apply wp_bind, wp_upd_zbt, wp_ret. apply Hfail; [done|by right|rewrite /create_ok; tauto]. }
  destruct (Z.eqb_spec (a_inherit a) 0) as [A2|A2]; cbn [negb]; [|apply Herr; rewrite /create_ok; tauto].
  destruct (negb (policy tp =? SCHED_OTHER) && negb (a_policy a =? 0)) eqn:A3.
  { apply andb_true_iff in A3 as [P A3]. rewrite !negb_true_iff !Z.eqb_neq in P A3. apply Herr; rewrite /create_ok; tauto. }
  destruct (negb (policy tp =? SCHED_OTHER) && negb (a_param a =? 0)) eqn:A4.
  { apply andb_true_iff in A4 as [P A4]. rewrite !negb_true_iff !Z.eqb_neq in P A4. apply Herr; rewrite /create_ok; tauto. }
  rewrite !andb_false_iff !negb_false_iff !Z.eqb_eq in A3 A4.
  apply wp_bind, (wp_create_affinity map); [done|done|done|done| |].
  { intros E1 E2 L. apply Herr; [unfold EINVAL; lia|]. intros (_ & _ & _ & X & _). specialize (X E1 E2).
    rewrite u32_small in X; [apply Hp|]. lia. }
  intros o Ho Hnid. rewrite /set_where /set_fn. cbn [threadfn user_arg private bt_thread bt_flags bt_err].
  destruct (bool_decide (o <> None) && negb (a_affinity a =? 0)) eqn:A5.
  { apply andb_true_iff in A5 as [O A5]. rewrite negb_true_iff Z.eqb_neq in A5. apply bool_decide_eq_true in O. apply Herr; [done|].
    intros (_ & _ & _ & _ & X & _). apply A5, X. destruct (Z.eq_dec (tp_one_cpu tp) ZUS_CPU_ALL); [|by left]. right. tauto. }
  destruct (Z.eqb_spec (a_create a) 0) as [A6|A6]; cbn [negb]; [|apply Herr; rewrite /create_ok; tauto].
  apply wp_bind, wp_upd_zbt, wp_ret. apply Hok. split_and!; [done|done|tauto| | |done].
  - intros E1 E2. rewrite u32_small; [apply Hp|by apply Hnid].
  - intros X. apply andb_false_iff in A5 as [A5|A5]; [|by apply negb_false_iff, Z.eqb_eq in A5].
    apply bool_decide_eq_false in A5. destruct o; [by destruct A5|]. tauto.
Qed.

(** Creating a thread succeeds exactly when every call of the library does and the
    node exists; then the record of the thread says where it runs.  When it fails nothing
    is left behind, and the error is negative but for the one of pthread_attr_init, which
    is returned as it is. *)
Theorem thread_create_spec (map : zufs_ioc_numa_map) (mem : option Z) (tp : zus_thread_params) (fn arg : Z) (a : pthread_answers) (s : zus_core) :
  topology map s -> params_ok tp -> (forall z, mem = Some z -> h_zbt s !! z = None) ->
  wp (zus_thread_create mem tp fn arg a) s (fun r s' =>
    (r.1 = 0 <-> mem <> None /\ create_ok map tp a) /\
    (r.1 = 0 -> r.2 = a_thread a /\ exists z, mem = Some z /\
      h_zbt s' = <[z := ZusBaseThread fn arg 0 (create_where map (online_mask s) tp).1 (create_where map (online_mask s) tp).2 (a_thread a) __ZT_PLEASE_FREE 0]> (h_zbt s)) /\
    (r.1 <> 0 -> h_zbt s' = h_zbt s /\ (r.1 < 0 \/ r.1 = a_init a))).
Proof.
  intros Ht Hp Hfree. rewrite /zus_thread_create. destruct mem as [z|].
  2: { apply wp_ret. cbn. split_and!; [split; [done|by intros [? _]]|done|]. intros _. split; [done|]. left. unfold ENOMEM. lia. }
  specialize (Hfree z eq_refl). apply wp_bind, wp_modify. change (upd_h_zbt (<[z:=?t]>) s) with (with_zbt z t s).
  apply wp_bind, (wp_thread_create_inner map); [done|done| |].
  - intros err t' He Hs Hn. rewrite (proj2 (Z.eqb_neq _ _) He). cbn [negb]. wp_steps. cbn [fst snd].
    split_and!; [by split; [|intros [_ ?]]|done|]. intros _. split; [|done]. destruct s; cbn in *. by rewrite delete_insert_id.
  - intros Hok. cbn [Z.eqb negb]. apply wp_bind. eapply wp_load; [apply with_zbt_lookup|]. apply wp_ret. cbn [fst snd].
    split_and!; [done| |done]. intros _. split; [done|]. exists z. split; [done|]. by destruct s.
Qed.
Definition core_example : zus_core := default core_boot (snd <$> zus_numa_map_init (0, example_map) core_boot).
Definition all_well (t : Z) : pthread_answers := PthreadAnswers 0 0 0 0 0 0 t.
Lemma core_example_topology : topology example_map core_example.
Proof.
  assert (Hm : map_ok example_map) by (vm_compute; repeat split; discriminate).
  refine (wp_run (zus_numa_map_init (0, example_map)) core_boot (fun _ s => topology example_map s) 0 _ _ _).
  - by apply wp_numa_map_init.
  - by vm_compute.
Qed.
Lemma thread_create_spec_witness :
  topology example_map core_example /\ params_ok (ZusThreadParams SCHED_OTHER 0 2 ZUS_NUMA_NO_NID) /\ h_zbt core_example !! 7 = None /\
  wp (zus_thread_create (Some 7) (ZusThreadParams SCHED_OTHER 0 2 ZUS_NUMA_NO_NID) 1 9 (all_well 77)) core_example (fun r s' => r.1 = 0 /\ r.2 = 77).
Proof.
  assert (Hp : params_ok (ZusThreadParams SCHED_OTHER 0 2 ZUS_NUMA_NO_NID)) by (split; [right|]; cbn; vm_compute; (split; [discriminate|reflexivity])).
  split_and!; [exact core_example_topology|exact Hp|reflexivity|].
  eapply wp_mono; [exact (thread_create_spec example_map (Some 7) _ 1 9 (all_well 77) core_example core_example_topology Hp (fun z _ => lookup_empty z))|].
  intros r s' (Hr & H & _). assert (E : r.1 = 0); [|split; [exact E|exact (proj1 (H E))]].
  apply Hr. split; [discriminate|]. unfold create_ok. split_and!; try reflexivity; [intros _; split; reflexivity|intros X; vm_compute in X; discriminate].
Defined.

(** A thread zus did not create can join and leave: after zus_thread_current_init it
    runs where it is, a second init is refused with -EEXIST and changes nothing, and
    zus_thread_current_fini gives back the state as it was. *)
Theorem current_init_fini (map : zufs_ioc_numa_map) (z cpu : Z) (mem : option Z) (s : zus_core) :
  topology map s -> specific s = None -> h_zbt s !! z = None -> 0 <= cpu < 2 ^ 31 ->
  wp (zus_thread_current_init (Some z) cpu) s (fun err s1 => err = 0 /\
    wp zus_current_onecpu s1 (fun c s2 => c = cpu /\ s2 = s1) /\
    wp (zus_current_nid 0) s1 (fun n s2 => s2 = s1 /\ (cpu ∈ online_mask s -> n = find_node cpu 0 (node_sets map)) /\ (cpu ∉ online_mask s -> n = 0)) /\
    wp (zus_thread_current_init mem cpu) s1 (fun err2 s2 => err2 = - EEXIST /\ s2 = s1) /\
    wp zus_thread_current_fini s1 (fun _ s2 => s2 = s)).
Proof.
  intros Ht Es Hz Hc. rewrite /zus_thread_current_init. wp_steps. rewrite Es bool_decide_eq_false_2; [by intros ?|].
  apply wp_bind. rewrite u32_small; [lia|]. apply (wp_cpu_to_node map); [done|done|].
  set (n := if bool_decide _ then _ else 0).
  assert (Hn : 0 <= n < 2 ^ 31).
  { subst n. case_bool_decide as Ho; [|lia]. destruct Ht as (Hm & _ & _ & _ & Ho').
    apply Ho' in Ho as [Hr He]. destruct Hm as [Hm1 Hm2]. destruct (find_node_spec cpu 0 (node_sets map) ltac:(lia) He) as (i & set & -> & [Hi _]%lookup_take_Some & _).
    apply lookup_lt_Some in Hi. change (4096 / 128) with 32 in Hm1. clear -Hi Hm1. lia. }
  wp_steps. split; [done|]. set (t := ZusBaseThread _ _ _ _ _ _ _ _).
  set (s1 := upd_specific _ _). assert (E1 : specific s1 = Some z) by (by destruct s). assert (E2 : h_zbt s1 !! z = Some t) by (destruct s; apply lookup_insert_eq).
  split_and!.
  - rewrite /zus_current_onecpu. wp_steps. rewrite E1. wp_steps; [exact E2|]. wp_steps. rewrite s32_small; cbn; [lia|done].
  - rewrite /zus_current_nid. wp_steps. rewrite E1. wp_steps; [exact E2|]. change (bt_nid t) with n.
    rewrite (proj2 (Z.eqb_neq n ZUS_NUMA_NO_NID)); [unfold ZUS_NUMA_NO_NID; lia|]. wp_step. rewrite s32_small; [lia|]. split; [done|]. subst n.
    split; intros X; [by rewrite bool_decide_eq_true_2|by rewrite bool_decide_eq_false_2].
  - wp_steps. rewrite E1 bool_decide_eq_true_2 //.
  - rewrite /zus_thread_current_fini. wp_steps. rewrite E1. wp_steps. subst s1. destruct s. rewrite /upd_specific /upd_h_zbt. cbn in *. subst.
    by rewrite delete_insert_id.
Qed.
Lemma current_init_fini_witness :
  topology example_map core_example /\ specific core_example = None /\ h_zbt core_example !! 9 = None /\ 0 <= 2 < 2 ^ 31 /\
  wp (zus_thread_current_init (Some 9) 2) core_example (fun err s1 => err = 0 /\ wp zus_thread_current_fini s1 (fun _ s2 => s2 = core_example)).
Proof.
  assert (Hc : 0 <= 2 < 2 ^ 31) by lia.
  split_and!; [exact core_example_topology|reflexivity|reflexivity|lia|lia|].
  eapply wp_mono; [exact (current_init_fini example_map 9 2 None core_example core_example_topology eq_refl eq_refl Hc)|].
  intros err s1 (H & _ & _ & _ & Hf). split; [exact H|exact Hf].
Defined.
