(* ===== verification/Vfs.v ===== *)
(** * The abstract file system: zus-vfs.c

    The kernel's requests and the handlers that call into the operations of a file
    system.  What a file system offers is a record of operations, as in the code: a NULL
    pointer is None.  The memory the handlers look at is an interface, so that a file
    system can keep its inodes in a state of its own. *)

From stdpp Require Import strings.
From S2P Require Import Prelude State.

(** ** Requests *)
(** The operations of the protocol (zus_api.h). *)
Inductive e_zufs_operation : Type :=
| ZUFS_OP_NULL | ZUFS_OP_BREAK | ZUFS_OP_STATFS | ZUFS_OP_SHOW_OPTIONS | ZUFS_OP_NEW_INODE | ZUFS_OP_FREE_INODE
| ZUFS_OP_EVICT_INODE | ZUFS_OP_LOOKUP | ZUFS_OP_ADD_DENTRY | ZUFS_OP_REMOVE_DENTRY | ZUFS_OP_RENAME
| ZUFS_OP_READDIR | ZUFS_OP_CLONE | ZUFS_OP_COPY | ZUFS_OP_READ | ZUFS_OP_PRE_READ | ZUFS_OP_WRITE
| ZUFS_OP_MMAP_CLOSE | ZUFS_OP_SETATTR | ZUFS_OP_SYNC | ZUFS_OP_FALLOCATE | ZUFS_OP_LLSEEK | ZUFS_OP_IOCTL
| ZUFS_OP_XATTR_GET | ZUFS_OP_XATTR_SET | ZUFS_OP_XATTR_LIST | ZUFS_OP_FIEMAP | ZUFS_OP_GET_MULTY
| ZUFS_OP_PUT_MULTY | ZUFS_OP_NOOP | ZUFS_OP_IOM_DONE | ZUFS_OP_MAX_OPT | OtherOp (n : Z).
#[export] Instance e_zufs_operation_dec : EqDecision e_zufs_operation.
Proof. solve_decision. Defined.

(** [name] is the buffer that follows, [len] the length of the name in it. *)
Record zufs_str := ZufsStr { len : Z; name : list Z }.
Record zufs_ioc_hdr := ZufsIocHdr { operation : e_zufs_operation; has_pigy_put : bool; in_len : Z; hdr_err : Z }.
(** The structs a header begins, with the fields the handlers use. *)
Inductive ioc_body : Type :=
| IocNewInode (dir_ii : Z) (tmpfile : bool) (i_nlink zus_ii _zi : Z) (str : zufs_str)
| IocEvictInode (zus_ii : Z)
| IocLookup (dir_ii : Z) (str : zufs_str) (_zi zus_ii : Z)
| IocDentry (zus_dir_ii zus_ii : Z) (str : zufs_str)
| IocRename (old_dir_ii : Z)
| IocReaddir (dir_ii : Z)
| IocClone (src_zus_ii : Z)
| IocIO (zus_ii : Z)
| IocMmapClose (zus_ii : Z)
| IocAttr (zus_ii zuf_attr : Z)
| IocSync (zus_ii : Z)
| IocSeek (zus_ii : Z)
| IocIoctl (zus_ii : Z)
| IocXattr (zus_ii : Z)
| IocFiemap (zus_ii : Z)
| IocStatfs (zus_sbi : Z)
| IocMountOptions (zus_sbi : Z)
| IocIomapDone (iomd : Z)
| IocHdrOnly.
(** [rest]: the fields only the file system looks at. *)
Record zufs_ioc (R : Type) := ZufsIoc { hdr : zufs_ioc_hdr; body : ioc_body; rest : R }.
Arguments ZufsIoc {R}. Arguments hdr {R}. Arguments body {R}. Arguments rest {R}.
Definition upd_body {R} (f : ioc_body -> ioc_body) (i : zufs_ioc R) : zufs_ioc R := ZufsIoc (hdr i) (f (body i)) (rest i).

(** ** Objects and operations *)
(** Pointers are integers, 0 is NULL; [zii_op] and [sb_op] point to the tables below. *)
Record zus_inode_info := ZusInodeInfo { zii_op : Z; zii_sbi : Z; zii_zi : Z }.
Record zus_inode := ZusInode { zi_ino : Z; zi_parent : Z }.
Record zus_zii_operations (S : Type) := ZusZiiOperations {
  op_evict : option (Z -> ST S unit);
  op_read : option (Z -> Z -> ST S Z);
  op_pre_read : option (Z -> Z -> ST S Z);
  op_write : option (Z -> Z -> ST S Z);
  op_get_put_multy : option (Z -> Z -> ST S Z);
  op_mmap_close : option (Z -> Z -> ST S Z);
  op_setattr : option (Z -> Z -> ST S Z);
  op_sync : option (Z -> Z -> ST S Z);
  op_fallocate : option (Z -> Z -> ST S Z);
  op_seek : option (Z -> Z -> ST S Z);
  op_ioctl : option (Z -> Z -> ST S Z);
  op_getxattr : option (Z -> Z -> ST S Z);
  op_setxattr : option (Z -> Z -> ST S Z);
  op_listxattr : option (Z -> Z -> ST S Z);
  op_fiemap : option (Z -> Z -> ST S Z) }.
(** [op_iget] answers its error and the inode it found. *)
Record zus_sbi_operations (S : Type) := ZusSbiOperations {
  op_new_inode : option (Z -> Z -> Z -> ST S Z);
  op_free_inode : option (Z -> ST S unit);
  op_lookup : option (Z -> zufs_str -> ST S Z);
  op_add_dentry : option (Z -> Z -> zufs_str -> ST S Z);
  op_remove_dentry : option (Z -> Z -> zufs_str -> ST S Z);
  op_iget : option (Z -> Z -> ST S (Z * Z));
  op_rename : option (Z -> ST S Z);
  op_readdir : option (Z -> Z -> ST S Z);
  op_clone : option (Z -> ST S Z);
  op_statfs : option (Z -> Z -> ST S Z);
  op_show_options : option (Z -> Z -> ST S Z) }.
Arguments op_evict {S}. Arguments op_read {S}. Arguments op_pre_read {S}. Arguments op_write {S}. Arguments op_get_put_multy {S}.
Arguments op_mmap_close {S}. Arguments op_setattr {S}. Arguments op_sync {S}. Arguments op_fallocate {S}. Arguments op_seek {S}.
Arguments op_ioctl {S}. Arguments op_getxattr {S}. Arguments op_setxattr {S}. Arguments op_listxattr {S}. Arguments op_fiemap {S}.
Arguments op_new_inode {S}. Arguments op_free_inode {S}. Arguments op_lookup {S}. Arguments op_add_dentry {S}. Arguments op_remove_dentry {S}.
Arguments op_iget {S}. Arguments op_rename {S}. Arguments op_readdir {S}. Arguments op_clone {S}. Arguments op_statfs {S}. Arguments op_show_options {S}.
Arguments ZusZiiOperations {S}. Arguments ZusSbiOperations {S}.

(** What a state must show to the handlers.  The tables of operations are constants; a
    super-block is known by the table it points to. *)
Class ZusMem (S R : Type) : Type := {
  ioc_at : S -> Z -> option (zufs_ioc R);
  set_ioc : Z -> zufs_ioc R -> S -> S;
  zii_at : S -> Z -> option zus_inode_info;
  set_zii_sbi : Z -> Z -> S -> S;
  zi_at : S -> Z -> option zus_inode;
  sb_op_at : S -> Z -> option Z;
  zii_ops : Z -> option (zus_zii_operations S);
  sbi_ops : Z -> option (zus_sbi_operations S);
  iomd_done : Z -> option (option (Z -> Z -> ST S unit)) }.
(** The super-block may be known to another state. *)
Class ZusMemLaws {S R} `{ZusMem S R} : Prop := {
  ioc_at_set p i s q : ioc_at (set_ioc p i s) q = if decide (q = p) then Some i else ioc_at s q;
  zii_at_set_ioc p i s q : zii_at (set_ioc p i s) q = zii_at s q;
  ioc_at_set_sbi z b s q : ioc_at (set_zii_sbi z b s) q = ioc_at s q;
  zii_at_set_sbi z b s s0 i q : is_Some (sb_op_at s0 b) -> zii_at s z = Some i ->
    zii_at (set_zii_sbi z b s) q = if decide (q = z) then Some (ZusInodeInfo (zii_op i) b (zii_zi i)) else zii_at s q }.
#[global] Hint Mode ZusMem ! - : typeclass_instances.

(** strncmp; None is a read outside of a buffer. *)
Fixpoint strncmp (s1 s2 : list Z) (n : nat) : option Z :=
  match n with
  | O => Some 0
  | S k =>
    c1 ← head s1; c2 ← head s2;
    if negb (c1 =? c2) then Some (c1 - c2) else if c1 =? 0 then Some 0 else strncmp (tail s1) (tail s2) k
  end.
Definition DOT : list Z := [46; 0].
Definition DOTDOT : list Z := [46; 46; 0].

Section vfs.
Context {S R : Type} `{ZusMem S R} `{MdApi}.
Notation VFS := (ST S).

Definition at_ {V} (f : S -> Z -> option V) (p : Z) : VFS V := o ← gets (fun s => f s p); of_option o.
Definition load_ioc (p : Z) : VFS (zufs_ioc R) := at_ ioc_at p.
Definition set_body (p : Z) (f : ioc_body -> ioc_body) : VFS unit := i ← load_ioc p; modify (set_ioc p (upd_body f i)).
(** [zii->op], [zii->sbi->op] and [sbi->op]. *)
Definition zii_ops_of (zii : Z) : VFS (zus_zii_operations S) := i ← at_ zii_at zii; of_option (zii_ops (zii_op i)).
Definition sbi_ops_at (sbi : Z) : VFS (zus_sbi_operations S) := o ← at_ sb_op_at sbi; of_option (sbi_ops o).
Definition sbi_of (zii : Z) : VFS Z := i ← at_ zii_at zii; mret (zii_sbi i).
Definition sbi_ops_of (zii : Z) : VFS (zus_sbi_operations S) := b ← sbi_of zii; sbi_ops_at b.

(** The inode, or NULL. *)
Definition zus_iget (sbi ino : Z) : VFS Z :=
  ops ← sbi_ops_at sbi;
  f ← of_option (op_iget ops);
  r ← f sbi ino;
  if negb (r.1 =? 0) then mret 0 else
  i ← at_ zii_at r.2;
  modify (set_zii_sbi r.2 sbi);;
  mret r.2.

Definition _new_inode (app_ptr hdr : Z) : VFS Z :=
  i ← load_ioc hdr;
  match body i with
  | IocNewInode dir_ii tmpfile _ zus_ii _zi str =>
    sbi ← sbi_of dir_ii;
    set_body hdr (fun _ => IocNewInode dir_ii tmpfile 0 zus_ii _zi str);;
    ops ← sbi_ops_at sbi;
    f ← of_option (op_new_inode ops);
    err ← f sbi app_ptr hdr;
    if negb (err =? 0) then mret err else
    i ← load_ioc hdr;
    match body i with
    | IocNewInode dir_ii tmpfile nlink zii _ str =>
      z ← at_ zii_at zii;
      set_body hdr (fun _ => IocNewInode dir_ii tmpfile nlink zii (md_addr_to_offset (zii_zi z)) str);;
      if tmpfile then mret 0 else
      ops ← sbi_ops_of dir_ii;
      f ← of_option (op_add_dentry ops);
      err ← f dir_ii zii str;
      if negb (err =? 0) then
        ops ← sbi_ops_of zii;
        f ← of_option (op_free_inode ops);
        f zii;; mret err
      else mret 0
    | _ => abort
    end
  | _ => abort
  end.

Definition _evict (hdr : Z) : VFS Z :=
  i ← load_ioc hdr;
  match body i with
  | IocEvictInode zii =>
    if zii =? 0 then mret 0 else
    if bool_decide (operation (Vfs.hdr i) = ZUFS_OP_FREE_INODE) then
      ops ← sbi_ops_of zii;
      match op_free_inode ops with Some f => f zii;; mret 0 | None => mret 0 end
    else
      ops ← zii_ops_of zii;
      match op_evict ops with Some f => f zii;; mret 0 | None => mret 0 end
  | _ => abort
  end.

Definition _lookup (hdr : Z) : VFS Z :=
  i ← load_ioc hdr;
  match body i with
  | IocLookup dir_ii str _zi zus_ii =>
    first ← (if len str =? 0 then mret 0 else of_option (head (name str)));
    if (len str =? 0) || (first =? 0) then mret 0 else
    dot ← of_option (strncmp DOT (name str) (Z.to_nat (len str)));
    ino ← (if dot =? 0 then d ← at_ zii_at dir_ii; z ← at_ zi_at (zii_zi d); mret (zi_ino z) else
           dotdot ← of_option (strncmp DOTDOT (name str) (Z.to_nat (len str)));
           if dotdot =? 0 then d ← at_ zii_at dir_ii; z ← at_ zi_at (zii_zi d); mret (zi_parent z) else
           ops ← sbi_ops_of dir_ii;
           f ← of_option (op_lookup ops);
           f dir_ii str);
    if ino =? 0 then mret (- ENOENT) else
    sbi ← sbi_of dir_ii;
    zii ← zus_iget sbi ino;
    if zii =? 0 then mret (- ENOENT) else
    z ← at_ zii_at zii;
    set_body hdr (fun _ => IocLookup dir_ii str (md_addr_to_offset (zii_zi z)) zii);;
    mret 0
  | _ => abort
  end.

Definition _dentry (hdr : Z) : VFS Z :=
  i ← load_ioc hdr;
  match body i with
  | IocDentry dir_ii zii str =>
    ops ← sbi_ops_of dir_ii;
    if bool_decide (operation (Vfs.hdr i) = ZUFS_OP_REMOVE_DENTRY) then f ← of_option (op_remove_dentry ops); f dir_ii zii str
    else f ← of_option (op_add_dentry ops); f dir_ii zii str
  | _ => abort
  end.
(** Call an operation that may be missing. *)
Definition call (f : option (VFS Z)) (missing : Z) : VFS Z := match f with Some m => m | None => mret missing end.
Definition _rename (hdr : Z) : VFS Z :=
  i ← load_ioc hdr;
  match body i with IocRename old_dir_ii => ops ← sbi_ops_of old_dir_ii; call ((fun f => f hdr) <$> op_rename ops) (- ENOTSUP) | _ => abort end.
Definition _readdir (app_ptr hdr : Z) : VFS Z :=
  i ← load_ioc hdr;
  match body i with IocReaddir dir_ii => ops ← sbi_ops_of dir_ii; call ((fun f => f app_ptr hdr) <$> op_readdir ops) (- ENOTSUP) | _ => abort end.
Definition _clone (hdr : Z) : VFS Z :=
  i ← load_ioc hdr;
  match body i with IocClone src => ops ← sbi_ops_of src; call ((fun f => f hdr) <$> op_clone ops) (- ENOTSUP) | _ => abort end.
Definition _io_read (app_ptr hdr : Z) : VFS Z :=
  i ← load_ioc hdr;
  match body i with IocIO zii => ops ← zii_ops_of zii; f ← of_option (op_read ops); f app_ptr hdr | _ => abort end.
Definition _io_pre_read (app_ptr hdr : Z) : VFS Z :=
  i ← load_ioc hdr;
  match body i with IocIO zii => ops ← zii_ops_of zii; call ((fun f => f app_ptr hdr) <$> op_pre_read ops) (- ENOTSUP) | _ => abort end.
Definition _io_write (app_ptr hdr : Z) : VFS Z :=
  i ← load_ioc hdr;
  match body i with IocIO zii => ops ← zii_ops_of zii; f ← of_option (op_write ops); f app_ptr hdr | _ => abort end.
Definition _get_put_multy (hdr : Z) : VFS Z :=
  i ← load_ioc hdr;
  match body i with IocIO zii => ops ← zii_ops_of zii; call ((fun f => f zii hdr) <$> op_get_put_multy ops) (- EIO) | _ => abort end.
Definition _mmap_close (hdr : Z) : VFS Z :=
  i ← load_ioc hdr;
  match body i with IocMmapClose zii => ops ← zii_ops_of zii; call ((fun f => f zii hdr) <$> op_mmap_close ops) 0 | _ => abort end.
Definition _setattr (hdr : Z) : VFS Z :=
  i ← load_ioc hdr;
  match body i with IocAttr zii attr => ops ← zii_ops_of zii; call ((fun f => f zii attr) <$> op_setattr ops) 0 | _ => abort end.
Definition _sync (hdr : Z) : VFS Z :=
  i ← load_ioc hdr;
  match body i with IocSync zii => ops ← zii_ops_of zii; call ((fun f => f zii hdr) <$> op_sync ops) 0 | _ => abort end.
Definition _fallocate (hdr : Z) : VFS Z :=
  i ← load_ioc hdr;
  match body i with IocIO zii => ops ← zii_ops_of zii; call ((fun f => f zii hdr) <$> op_fallocate ops) (- ENOTSUP) | _ => abort end.
Definition _seek (hdr : Z) : VFS Z :=
  i ← load_ioc hdr;
  match body i with IocSeek zii => ops ← zii_ops_of zii; call ((fun f => f zii hdr) <$> op_seek ops) (- ENOTSUP) | _ => abort end.
Definition _ioc_ioctl (hdr : Z) : VFS Z :=
  i ← load_ioc hdr;
  match body i with IocIoctl zii => ops ← zii_ops_of zii; call ((fun f => f zii hdr) <$> op_ioctl ops) (- ENOTTY) | _ => abort end.
Definition _ioc_xattr (hdr : Z) : VFS Z :=
  i ← load_ioc hdr;
  match body i with
  | IocXattr zii =>
    let op := operation (Vfs.hdr i) in
    if bool_decide (op = ZUFS_OP_XATTR_GET) then ops ← zii_ops_of zii; call ((fun f => f zii hdr) <$> op_getxattr ops) (- ENOTSUP)
    else if bool_decide (op = ZUFS_OP_XATTR_SET) then ops ← zii_ops_of zii; call ((fun f => f zii hdr) <$> op_setxattr ops) (- ENOTSUP)
    else if bool_decide (op = ZUFS_OP_XATTR_LIST) then ops ← zii_ops_of zii; call ((fun f => f zii hdr) <$> op_listxattr ops) (- ENOTSUP)
    else mret (- EFAULT)
  | _ => abort
  end.
Definition _statfs (hdr : Z) : VFS Z :=
  i ← load_ioc hdr;
  match body i with IocStatfs sbi => ops ← sbi_ops_at sbi; call ((fun f => f sbi hdr) <$> op_statfs ops) (- ENOTSUP) | _ => abort end.
Definition _fiemap (app_ptr hdr : Z) : VFS Z :=
  i ← load_ioc hdr;
  match body i with IocFiemap zii => ops ← zii_ops_of zii; call ((fun f => f app_ptr hdr) <$> op_fiemap ops) (- ENOTSUP) | _ => abort end.
Definition _show_options (hdr : Z) : VFS Z :=
  i ← load_ioc hdr;
  match body i with IocMountOptions sbi => ops ← sbi_ops_at sbi; call ((fun f => f sbi hdr) <$> op_show_options ops) 0 | _ => abort end.
Definition _iom_done (hdr : Z) : VFS Z :=
  i ← load_ioc hdr;
  match body i with
  | IocIomapDone iomd =>
    if iomd =? 0 then mret (- EINVAL) else
    done ← of_option (iomd_done iomd);
    match done with Some f => f iomd (hdr_err (Vfs.hdr i));; mret 0 | None => mret (- EINVAL) end
  | _ => abort
  end.

(** The puts that ride on a request, one header after the other.  A request has at least
    one byte and all of them are in one buffer of ZUS_MAX_OP_SIZE. *)
Definition PIGY_FUEL : nat := Z.to_nat (16 * PAGE_SIZE).
Fixpoint pigy_loop (fuel : nat) (hdr : Z) : VFS unit :=
  match fuel with
  | O => abort
  | Datatypes.S k =>
    i ← load_ioc hdr;
    if negb (has_pigy_put (Vfs.hdr i)) then mret tt else
    let hdr := hdr + in_len (Vfs.hdr i) in
    i ← load_ioc hdr;
    if negb (bool_decide (operation (Vfs.hdr i) = ZUFS_OP_PUT_MULTY)) then mret tt else
    _get_put_multy hdr;;
    pigy_loop k hdr
  end.
Definition _some_pigy_put (hdr : Z) : VFS unit := pigy_loop PIGY_FUEL hdr.

(** The switch at its end. *)
Definition command_switch (app_ptr hdr : Z) : VFS Z :=
  i ← load_ioc hdr;
  match operation (Vfs.hdr i) with
  | ZUFS_OP_NEW_INODE => _new_inode app_ptr hdr
  | ZUFS_OP_FREE_INODE | ZUFS_OP_EVICT_INODE => _evict hdr
  | ZUFS_OP_LOOKUP => _lookup hdr
  | ZUFS_OP_ADD_DENTRY | ZUFS_OP_REMOVE_DENTRY => _dentry hdr
  | ZUFS_OP_RENAME => _rename hdr
  | ZUFS_OP_READDIR => _readdir app_ptr hdr
  | ZUFS_OP_CLONE | ZUFS_OP_COPY => _clone hdr
  | ZUFS_OP_READ => _io_read app_ptr hdr
  | ZUFS_OP_PRE_READ => _io_pre_read app_ptr hdr
  | ZUFS_OP_WRITE => _io_write app_ptr hdr
  | ZUFS_OP_MMAP_CLOSE => _mmap_close hdr
  | ZUFS_OP_SETATTR => _setattr hdr
  | ZUFS_OP_SYNC => _sync hdr
  | ZUFS_OP_FALLOCATE => _fallocate hdr
  | ZUFS_OP_LLSEEK => _seek hdr
  | ZUFS_OP_IOCTL => _ioc_ioctl hdr
  | ZUFS_OP_XATTR_GET | ZUFS_OP_XATTR_SET | ZUFS_OP_XATTR_LIST => _ioc_xattr hdr
  | ZUFS_OP_STATFS => _statfs hdr
  | ZUFS_OP_FIEMAP => _fiemap app_ptr hdr
  | ZUFS_OP_SHOW_OPTIONS => _show_options hdr
  | ZUFS_OP_GET_MULTY | ZUFS_OP_PUT_MULTY => _get_put_multy hdr
  | ZUFS_OP_IOM_DONE => _iom_done hdr
  | ZUFS_OP_NOOP | ZUFS_OP_BREAK => mret 0
  | _ => mret 0
  end.
Definition zus_do_command (app_ptr hdr : Z) : VFS Z :=
  i ← load_ioc hdr;
  (if has_pigy_put (Vfs.hdr i) then _some_pigy_put hdr else mret tt);;
  command_switch app_ptr hdr.
End vfs.

Definition ZUFS_OP_name (op : e_zufs_operation) : string :=
  match op with
  | ZUFS_OP_NULL => "ZUFS_OP_NULL" | ZUFS_OP_BREAK => "ZUFS_OP_BREAK" | ZUFS_OP_STATFS => "ZUFS_OP_STATFS"
  | ZUFS_OP_SHOW_OPTIONS => "ZUFS_OP_SHOW_OPTIONS" | ZUFS_OP_NEW_INODE => "ZUFS_OP_NEW_INODE" | ZUFS_OP_FREE_INODE => "ZUFS_OP_FREE_INODE"
  | ZUFS_OP_EVICT_INODE => "ZUFS_OP_EVICT_INODE" | ZUFS_OP_LOOKUP => "ZUFS_OP_LOOKUP" | ZUFS_OP_ADD_DENTRY => "ZUFS_OP_ADD_DENTRY"
  | ZUFS_OP_REMOVE_DENTRY => "ZUFS_OP_REMOVE_DENTRY" | ZUFS_OP_RENAME => "ZUFS_OP_RENAME" | ZUFS_OP_READDIR => "ZUFS_OP_READDIR"
  | ZUFS_OP_CLONE => "ZUFS_OP_CLONE" | ZUFS_OP_COPY => "ZUFS_OP_COPY" | ZUFS_OP_READ => "ZUFS_OP_READ" | ZUFS_OP_PRE_READ => "ZUFS_OP_PRE_READ"
  | ZUFS_OP_WRITE => "ZUFS_OP_WRITE" | ZUFS_OP_MMAP_CLOSE => "ZUFS_OP_MMAP_CLOSE" | ZUFS_OP_SETATTR => "ZUFS_OP_SETATTR"
  | ZUFS_OP_SYNC => "ZUFS_OP_SYNC" | ZUFS_OP_FALLOCATE => "ZUFS_OP_FALLOCATE" | ZUFS_OP_LLSEEK => "ZUFS_OP_LLSEEK" | ZUFS_OP_IOCTL => "ZUFS_OP_IOCTL"
  | ZUFS_OP_XATTR_GET => "ZUFS_OP_XATTR_GET" | ZUFS_OP_XATTR_SET => "ZUFS_OP_XATTR_SET" | ZUFS_OP_XATTR_LIST => "ZUFS_OP_XATTR_LIST"
  | ZUFS_OP_FIEMAP => "ZUFS_OP_FIEMAP" | ZUFS_OP_GET_MULTY => "ZUFS_OP_GET_MULTY" | ZUFS_OP_PUT_MULTY => "ZUFS_OP_PUT_MULTY" | ZUFS_OP_NOOP => "ZUFS_OP_NOOP"
  | ZUFS_OP_IOM_DONE => "ZUFS_OP_IOM_DONE" | ZUFS_OP_MAX_OPT => "ZUFS_OP_MAX_OPT" | OtherOp _ => "UNKNOWN"
  end%string.
