(* ===== verification/VfsSpec.v ===== *)
(** * What the dispatcher of the abstract file system does

    zus_do_command of Vfs.v as a set of rules, one for every kind of request and for the
    puts that ride on it; and lookups for any file system that keeps a contract, which
    toyfs does (ToySpec.v). *)

From S2P Require Import Prelude State Vfs.

Section rules.
Context {S R : Type} `{ZusMem S R} `{MdApi}.

Lemma wp_at {V} (f : S -> Z -> option V) p v s (Q : V -> S -> Prop) : f s p = Some v -> Q v s -> wp (at_ f p) s Q.
Proof. intros E HQ. rewrite /at_. wp_step. wp_step. by rewrite E. Qed.
Lemma wp_of_option {A} (o : option A) a (s : S) (Q : A -> S -> Prop) : o = Some a -> Q a s -> wp (of_option o) s Q.
Proof. by intros ->. Qed.
Lemma wp_set_body p f i s (Q : unit -> S -> Prop) :
  ioc_at s p = Some i -> Q tt (set_ioc p (upd_body f i) s) -> wp (set_body p f) s Q.
Proof. intros E HQ. rewrite /set_body. apply wp_bind. eapply wp_at; [exact E|]. by wp_step. Qed.
(** [zii] is in core, with the tables it reaches. *)
Definition has_zii (s : S) (zii : Z) (i : zus_inode_info) : Prop := zii_at s zii = Some i.
Definition has_zops (s : S) (zii : Z) (ops : zus_zii_operations S) : Prop := exists i, zii_at s zii = Some i /\ zii_ops (zii_op i) = Some ops.
Definition has_sops (s : S) (zii b : Z) (ops : zus_sbi_operations S) : Prop :=
  exists i o, zii_at s zii = Some i /\ zii_sbi i = b /\ sb_op_at s b = Some o /\ sbi_ops o = Some ops.
Lemma wp_zii_ops_of s zii ops (Q : _ -> S -> Prop) : has_zops s zii ops -> Q ops s -> wp (zii_ops_of zii) s Q.
Proof. intros (i & E & Eo) HQ. rewrite /zii_ops_of. apply wp_bind. eapply wp_at; [exact E|]. by rewrite Eo. Qed.
Lemma wp_sbi_of s zii b ops (Q : _ -> S -> Prop) : has_sops s zii b ops -> Q b s -> wp (sbi_of zii) s Q.
Proof. intros (i & o & E & <- & _) HQ. rewrite /sbi_of. apply wp_bind. eapply wp_at; [exact E|]. by wp_step. Qed.
Lemma wp_sbi_ops_at s zii b ops (Q : _ -> S -> Prop) : has_sops s zii b ops -> Q ops s -> wp (sbi_ops_at b) s Q.
Proof. intros (i & o & _ & _ & E & Eo) HQ. rewrite /sbi_ops_at. apply wp_bind. eapply wp_at; [exact E|]. by rewrite Eo. Qed.
Lemma wp_sbi_ops_of s zii b ops (Q : _ -> S -> Prop) : has_sops s zii b ops -> Q ops s -> wp (sbi_ops_of zii) s Q.
Proof. intros E HQ. rewrite /sbi_ops_of. apply wp_bind. eapply wp_sbi_of; [exact E|]. eapply wp_sbi_ops_at; [exact E|done]. Qed.

(** A request that no put rides on goes straight to its handler. *)
Definition plain (s : S) (p : Z) (op : e_zufs_operation) (b : ioc_body) : Prop :=
  exists i, ioc_at s p = Some i /\ body i = b /\ operation (hdr i) = op /\ has_pigy_put (hdr i) = false.
Lemma wp_load_ioc s p op b (Q : _ -> S -> Prop) :
  plain s p op b -> (forall i, ioc_at s p = Some i -> body i = b -> operation (hdr i) = op -> Q i s) -> wp (load_ioc p) s Q.
Proof. intros (i & E & Eb & Eo & _) HQ. eapply wp_at; [exact E|]. by apply HQ. Qed.
Lemma wp_do_command s app p op b (Q : Z -> S -> Prop) : plain s p op b -> wp (command_switch app p) s Q -> wp (zus_do_command app p) s Q.
Proof.
  intros (i & E & Eb & Eo & Ep) HQ. rewrite /zus_do_command /load_ioc. apply wp_bind. eapply wp_at; [exact E|]. rewrite Ep.
  by apply wp_bind, wp_ret.
Qed.
End rules.

(** ** The dispatcher, as rules *)
Section dispatch.
Context {S R : Type} `{ZusMem S R} `{MdApi}.

(** [sbi->op], [zii->op] and [zii->sbi->op]. *)
Definition sops (s : S) (b : Z) : option (zus_sbi_operations S) := sb_op_at s b ≫= sbi_ops.
Definition zops (s : S) (zii : Z) : option (zus_zii_operations S) := zii_at s zii ≫= fun i => zii_ops (zii_op i).
Definition dops (s : S) (zii : Z) : option (zus_sbi_operations S) := zii_at s zii ≫= fun i => sops s (zii_sbi i).

(** Which inode a request is about, the operation of its table that serves it, and what the
    kernel is told when the table has none (None: the handler calls NULL). *)
Definition zii_slot (app p : Z) (op : e_zufs_operation) (b : ioc_body) (ops : zus_zii_operations S) : option (Z * option (ST S Z) * option Z) :=
  match op, b with
  | ZUFS_OP_READ, IocIO z => Some (z, (fun f => f app p) <$> op_read ops, None)
  | ZUFS_OP_WRITE, IocIO z => Some (z, (fun f => f app p) <$> op_write ops, None)
  | ZUFS_OP_PRE_READ, IocIO z => Some (z, (fun f => f app p) <$> op_pre_read ops, Some (- ENOTSUP))
  | ZUFS_OP_FALLOCATE, IocIO z => Some (z, (fun f => f z p) <$> op_fallocate ops, Some (- ENOTSUP))
  | ZUFS_OP_LLSEEK, IocSeek z => Some (z, (fun f => f z p) <$> op_seek ops, Some (- ENOTSUP))
  | ZUFS_OP_FIEMAP, IocFiemap z => Some (z, (fun f => f app p) <$> op_fiemap ops, Some (- ENOTSUP))
  | ZUFS_OP_XATTR_GET, IocXattr z => Some (z, (fun f => f z p) <$> op_getxattr ops, Some (- ENOTSUP))
  | ZUFS_OP_XATTR_SET, IocXattr z => Some (z, (fun f => f z p) <$> op_setxattr ops, Some (- ENOTSUP))
  | ZUFS_OP_XATTR_LIST, IocXattr z => Some (z, (fun f => f z p) <$> op_listxattr ops, Some (- ENOTSUP))
  | ZUFS_OP_IOCTL, IocIoctl z => Some (z, (fun f => f z p) <$> op_ioctl ops, Some (- ENOTTY))
  | ZUFS_OP_GET_MULTY, IocIO z | ZUFS_OP_PUT_MULTY, IocIO z => Some (z, (fun f => f z p) <$> op_get_put_multy ops, Some (- EIO))
  | ZUFS_OP_MMAP_CLOSE, IocMmapClose z => Some (z, (fun f => f z p) <$> op_mmap_close ops, Some 0)
  | ZUFS_OP_SETATTR, IocAttr z bits => Some (z, (fun f => f z bits) <$> op_setattr ops, Some 0)
  | ZUFS_OP_SYNC, IocSync z => Some (z, (fun f => f z p) <$> op_sync ops, Some 0)
  | ZUFS_OP_EVICT_INODE, IocEvictInode z => if z =? 0 then None else Some (z, (fun f => f z;; mret 0) <$> op_evict ops, Some 0)
  | _, _ => None
  end.
(** The same for the table of the super-block, reached from an inode or given. *)
Definition sbi_slot (app p : Z) (op : e_zufs_operation) (b : ioc_body) (ops : zus_sbi_operations S) : option ((Z + Z) * option (ST S Z) * option Z) :=
  match op, b with
  | ZUFS_OP_ADD_DENTRY, IocDentry d z str => Some (inl d, (fun f => f d z str) <$> op_add_dentry ops, None)
  | ZUFS_OP_REMOVE_DENTRY, IocDentry d z str => Some (inl d, (fun f => f d z str) <$> op_remove_dentry ops, None)
  | ZUFS_OP_RENAME, IocRename d => Some (inl d, (fun f => f p) <$> op_rename ops, Some (- ENOTSUP))
  | ZUFS_OP_READDIR, IocReaddir d => Some (inl d, (fun f => f app p) <$> op_readdir ops, Some (- ENOTSUP))
  | ZUFS_OP_CLONE, IocClone z | ZUFS_OP_COPY, IocClone z => Some (inl z, (fun f => f p) <$> op_clone ops, Some (- ENOTSUP))
  | ZUFS_OP_STATFS, IocStatfs b => Some (inr b, (fun f => f b p) <$> op_statfs ops, Some (- ENOTSUP))
  | ZUFS_OP_SHOW_OPTIONS, IocMountOptions b => Some (inr b, (fun f => f b p) <$> op_show_options ops, Some 0)
  | ZUFS_OP_FREE_INODE, IocEvictInode z => if z =? 0 then None else Some (inl z, (fun f => f z;; mret 0) <$> op_free_inode ops, Some 0)
  | _, _ => None
  end.
Definition reach (s : S) (w : Z + Z) : option (zus_sbi_operations S) := match w with inl zii => dops s zii | inr b => sops s b end.
Definition served (m : option (ST S Z)) (missing : option Z) (s : S) : option (Z * S) :=
  match m, missing with Some m, _ => m s | None, Some e => Some (e, s) | None, None => None end.
(** Codes nothing is done for. *)
Definition idle (op : e_zufs_operation) : Prop :=
  match op with ZUFS_OP_NOOP | ZUFS_OP_BREAK | ZUFS_OP_NULL | ZUFS_OP_MAX_OPT | OtherOp _ => True | _ => False end.

(** A new inode gets its name; one that cannot get it is freed again. *)
Inductive named (s : S) (d : Z) (tmp : bool) (zii : Z) (str : zufs_str) : Z -> S -> Prop :=
| named_tmp : tmp = true -> named s d tmp zii str 0 s
| named_yes ops g s' : tmp = false -> dops s d = Some ops -> op_add_dentry ops = Some g -> g d zii str s = Some (0, s') ->
    named s d tmp zii str 0 s'
| named_no ops g err s1 ops' h s' : tmp = false -> dops s d = Some ops -> op_add_dentry ops = Some g -> g d zii str s = Some (err, s1) -> err <> 0 ->
    dops s1 zii = Some ops' -> op_free_inode ops' = Some h -> h zii s1 = Some (tt, s') -> named s d tmp zii str err s'.
(** The file system makes the inode for a request with no links. *)
Inductive creates (app p : Z) (s : S) (i : zufs_ioc R) (d : Z) (tmp : bool) (z a : Z) (str : zufs_str) : Z -> S -> Prop :=
| creates_not j ops f err s' : let s1 := set_ioc p (upd_body (fun _ => IocNewInode d tmp 0 z a str) i) s in
    zii_at s d = Some j -> sops s1 (zii_sbi j) = Some ops -> op_new_inode ops = Some f -> f (zii_sbi j) app p s1 = Some (err, s') -> err <> 0 ->
    creates app p s i d tmp z a str err s'
| creates_yes j ops f s2 i2 d2 tmp2 n2 zii a2 str2 k r s' : let s1 := set_ioc p (upd_body (fun _ => IocNewInode d tmp 0 z a str) i) s in
    zii_at s d = Some j -> sops s1 (zii_sbi j) = Some ops -> op_new_inode ops = Some f -> f (zii_sbi j) app p s1 = Some (0, s2) ->
    ioc_at s2 p = Some i2 -> body i2 = IocNewInode d2 tmp2 n2 zii a2 str2 -> zii_at s2 zii = Some k ->
    named (set_ioc p (upd_body (fun _ => IocNewInode d2 tmp2 n2 zii (md_addr_to_offset (zii_zi k)) str2) i2) s2) d2 tmp2 zii str2 r s' ->
    creates app p s i d tmp z a str r s'.
(** The number a name stands for: strncmp over its length tells "." and "..". *)
Inductive names (s : S) (d : Z) (str : zufs_str) : Z -> S -> Prop :=
| names_self j k : strncmp DOT (name str) (Z.to_nat (len str)) = Some 0 -> zii_at s d = Some j -> zi_at s (zii_zi j) = Some k -> names s d str (zi_ino k) s
| names_parent x j k : strncmp DOT (name str) (Z.to_nat (len str)) = Some x -> x <> 0 -> strncmp DOTDOT (name str) (Z.to_nat (len str)) = Some 0 ->
    zii_at s d = Some j -> zi_at s (zii_zi j) = Some k -> names s d str (zi_parent k) s
| names_other x y ops f n s' : strncmp DOT (name str) (Z.to_nat (len str)) = Some x -> x <> 0 ->
    strncmp DOTDOT (name str) (Z.to_nat (len str)) = Some y -> y <> 0 -> dops s d = Some ops -> op_lookup ops = Some f ->
    f d str s = Some (n, s') -> names s d str n s'.
(** What the file system has in core for it. *)
Inductive looks_up (p : Z) (s : S) (d : Z) (str : zufs_str) : Z -> S -> Prop :=
| looks_up_empty : len str = 0 \/ head (name str) = Some 0 -> looks_up p s d str 0 s
| looks_up_none c s' : len str <> 0 -> head (name str) = Some c -> c <> 0 -> names s d str 0 s' -> looks_up p s d str (- ENOENT) s'
| looks_up_gone c n s1 j ops g e x s' : len str <> 0 -> head (name str) = Some c -> c <> 0 -> names s d str n s1 -> n <> 0 ->
    zii_at s1 d = Some j -> sops s1 (zii_sbi j) = Some ops -> op_iget ops = Some g -> g (zii_sbi j) n s1 = Some ((e, x), s') -> e <> 0 ->
    looks_up p s d str (- ENOENT) s'
| looks_up_null c n s1 j ops g s2 k : len str <> 0 -> head (name str) = Some c -> c <> 0 -> names s d str n s1 -> n <> 0 ->
    zii_at s1 d = Some j -> sops s1 (zii_sbi j) = Some ops -> op_iget ops = Some g -> g (zii_sbi j) n s1 = Some ((0, 0), s2) ->
    zii_at s2 0 = Some k -> looks_up p s d str (- ENOENT) (set_zii_sbi 0 (zii_sbi j) s2)
| looks_up_yes c n s1 j ops g x s2 k k' i : len str <> 0 -> head (name str) = Some c -> c <> 0 -> names s d str n s1 -> n <> 0 ->
    zii_at s1 d = Some j -> sops s1 (zii_sbi j) = Some ops -> op_iget ops = Some g -> g (zii_sbi j) n s1 = Some ((0, x), s2) -> x <> 0 ->
    zii_at s2 x = Some k -> zii_at (set_zii_sbi x (zii_sbi j) s2) x = Some k' -> ioc_at (set_zii_sbi x (zii_sbi j) s2) p = Some i ->
    looks_up p s d str 0 (set_ioc p (upd_body (fun _ => IocLookup d str (md_addr_to_offset (zii_zi k')) x) i) (set_zii_sbi x (zii_sbi j) s2)).
(** The request [i] at [p]: its answer and what it leaves. *)
Inductive serves (app p : Z) (s : S) (i : zufs_ioc R) : Z -> S -> Prop :=
| serves_zii ops zii m e r s' : zii_slot app p (operation (hdr i)) (body i) ops = Some (zii, m, e) -> zops s zii = Some ops ->
    served m e s = Some (r, s') -> serves app p s i r s'
| serves_sbi ops w m e r s' : sbi_slot app p (operation (hdr i)) (body i) ops = Some (w, m, e) -> reach s w = Some ops ->
    served m e s = Some (r, s') -> serves app p s i r s'
| serves_null : operation (hdr i) = ZUFS_OP_FREE_INODE \/ operation (hdr i) = ZUFS_OP_EVICT_INODE -> body i = IocEvictInode 0 -> serves app p s i 0 s
| serves_new d tmp n z a str r s' : operation (hdr i) = ZUFS_OP_NEW_INODE -> body i = IocNewInode d tmp n z a str ->
    creates app p s i d tmp z a str r s' -> serves app p s i r s'
| serves_lookup d str zi0 z0 r s' : operation (hdr i) = ZUFS_OP_LOOKUP -> body i = IocLookup d str zi0 z0 ->
    looks_up p s d str r s' -> serves app p s i r s'
| serves_iom iomd f s' : operation (hdr i) = ZUFS_OP_IOM_DONE -> body i = IocIomapDone iomd -> iomd <> 0 -> iomd_done (S := S) iomd = Some (Some f) ->
    f iomd (hdr_err (hdr i)) s = Some (tt, s') -> serves app p s i 0 s'
| serves_iom_none iomd : operation (hdr i) = ZUFS_OP_IOM_DONE -> body i = IocIomapDone iomd -> iomd = 0 \/ iomd_done (S := S) iomd = Some None ->
    serves app p s i (- EINVAL) s
| serves_idle : idle (operation (hdr i)) -> serves app p s i 0 s.
(** The puts that ride on the request at [p], [n] of them, served one after the other; their
    answers are dropped. *)
Inductive walked : nat -> S -> Z -> S -> Prop :=
| walked_last s p i : ioc_at s p = Some i -> has_pigy_put (hdr i) = false -> walked 0 s p s
| walked_other s p i j : ioc_at s p = Some i -> has_pigy_put (hdr i) = true -> ioc_at s (p + in_len (hdr i)) = Some j ->
    operation (hdr j) <> ZUFS_OP_PUT_MULTY -> walked 0 s p s
| walked_put n s p i j zii ops m e r s1 s' : ioc_at s p = Some i -> has_pigy_put (hdr i) = true -> ioc_at s (p + in_len (hdr i)) = Some j ->
    operation (hdr j) = ZUFS_OP_PUT_MULTY -> zii_slot 0 (p + in_len (hdr i)) ZUFS_OP_PUT_MULTY (body j) ops = Some (zii, m, e) ->
    zops s zii = Some ops -> served m e s = Some (r, s1) -> walked n s1 (p + in_len (hdr i)) s' -> walked (Datatypes.S n) s p s'.

(** *** Runs, taken apart *)
Lemma bind_Some {A B} (m : ST S A) (f : A -> ST S B) s r : (m ≫= f) s = Some r <-> exists a s1, m s = Some (a, s1) /\ f a s1 = Some r.
Proof. rewrite /mbind /ST_bind. destruct (m s) as [[a s1]|]; naive_solver. Qed.
Lemma at_Some {V} (f : S -> Z -> option V) p s r : at_ f p s = Some r <-> exists v, f s p = Some v /\ r = (v, s).
Proof.
  rewrite /at_ /mbind /ST_bind /gets /of_option. destruct (f s p) as [v|]; cbv [mret ST_ret abort]; split.
  - intros [= <-]. by exists v.
  - by intros (w & [= <-] & ->).
  - done.
  - by intros (w & ? & _).
Qed.
Lemma of_Some {A} (o : option A) (s : S) r : of_option o s = Some r <-> exists a, o = Some a /\ r = (a, s).
Proof.
  destruct o as [a|]; cbv [of_option mret ST_ret abort]; split.
  - intros [= <-]. by exists a.
  - by intros (w & [= <-] & ->).
  - done.
  - by intros (w & ? & _).
Qed.
Lemma zii_ops_of_Some (s : S) zii r : zii_ops_of zii s = Some r <-> exists ops, zops s zii = Some ops /\ r = (ops, s).
Proof.
  rewrite /zii_ops_of bind_Some /zops. split.
  - intros (j & s1 & (j' & Ej & [= -> ->])%at_Some & Ho%of_Some). by rewrite Ej.
  - intros (ops & Ho & ->). destruct (zii_at s zii) as [j|] eqn:Ej; [|done]. exists j, s. rewrite at_Some of_Some. split; [by exists j|by exists ops].
Qed.
Lemma sbi_ops_at_Some (s : S) b r : sbi_ops_at b s = Some r <-> exists ops, sops s b = Some ops /\ r = (ops, s).
Proof.
  rewrite /sbi_ops_at bind_Some /sops. split.
  - intros (j & s1 & (j' & Ej & [= -> ->])%at_Some & Ho%of_Some). by rewrite Ej.
  - intros (ops & Ho & ->). destruct (sb_op_at s b) as [j|] eqn:Ej; [|done]. exists j, s. rewrite at_Some of_Some. split; [by exists j|by exists ops].
Qed.
Lemma sbi_of_Some (s : S) zii r : sbi_of zii s = Some r <-> exists j, zii_at s zii = Some j /\ r = (zii_sbi j, s).
Proof.
  rewrite /sbi_of bind_Some. split.
  - intros (j & s1 & (j' & Ej & [= -> ->])%at_Some & [= <-]). by exists j'.
  - intros (j & Ej & ->). exists j, s. rewrite at_Some. split; [by exists j|done].
Qed.
Lemma sbi_ops_of_Some (s : S) zii r : sbi_ops_of zii s = Some r <-> exists ops, dops s zii = Some ops /\ r = (ops, s).
Proof.
  rewrite /sbi_ops_of bind_Some /dops. split.
  - intros (b & s1 & (j & Ej & [= -> ->])%sbi_of_Some & Ho%sbi_ops_at_Some). by rewrite Ej.
  - intros (ops & Ho & ->). destruct (zii_at s zii) as [j|] eqn:Ej; [|done]. exists (zii_sbi j), s. rewrite sbi_of_Some sbi_ops_at_Some.
    split; [by exists j|by exists ops].
Qed.
Lemma call_served m e (s : S) : call m e s = served m (Some e) s.
Proof. by destruct m. Qed.
Lemma set_body_Some p f (s : S) r : set_body p f s = Some r <-> exists i, ioc_at s p = Some i /\ r = (tt, set_ioc p (upd_body f i) s).
Proof.
  rewrite /set_body /load_ioc bind_Some. split.
  - intros (i & s1 & (i' & Ei & [= -> ->])%at_Some & [= <-]). by exists i'.
  - intros (i & Ei & ->). exists i, s. rewrite at_Some. split; [by exists i|done].
Qed.

Ltac inv_run :=
  repeat (cbn beta iota in *; match goal with
  | H : mbind _ _ _ = Some _ |- _ => apply bind_Some in H as (? & ? & ? & ?)
  | H : at_ _ _ _ = Some _ |- _ => apply at_Some in H as (? & ? & [= -> ->])
  | H : load_ioc _ _ = Some _ |- _ => apply at_Some in H as (? & ? & [= -> ->])
  | H : of_option _ _ = Some _ |- _ => apply of_Some in H as (? & ? & [= -> ->])
  | H : zii_ops_of _ _ = Some _ |- _ => apply zii_ops_of_Some in H as (? & ? & [= -> ->])
  | H : sbi_ops_at _ _ = Some _ |- _ => apply sbi_ops_at_Some in H as (? & ? & [= -> ->])
  | H : sbi_ops_of _ _ = Some _ |- _ => apply sbi_ops_of_Some in H as (? & ? & [= -> ->])
  | H : sbi_of _ _ = Some _ |- _ => apply sbi_of_Some in H as (? & ? & [= -> ->])
  | H : set_body _ _ _ = Some _ |- _ => apply set_body_Some in H as (? & ? & [= -> ->])
  | H : mret _ _ = Some _ |- _ => injection H as <- <-
  | H : modify _ _ = Some _ |- _ => injection H as <- <-
  | H : abort _ = Some _ |- _ => discriminate H
  end).
Lemma run_at {V B} (f : S -> Z -> option V) p v s (k : V -> ST S B) : f s p = Some v -> (at_ f p ≫= k) s = k v s.
Proof. intros E. apply bind_run. apply at_Some. by exists v. Qed.
Lemma run_of {A B} (o : option A) a s (k : A -> ST S B) : o = Some a -> (of_option o ≫= k) s = k a s.
Proof. by intros ->. Qed.
Lemma run_zii_ops {B} zii ops s (k : _ -> ST S B) : zops s zii = Some ops -> (zii_ops_of zii ≫= k) s = k ops s.
Proof. intros E. apply bind_run, zii_ops_of_Some. by exists ops. Qed.
Lemma run_sbi_ops {B} zii ops s (k : _ -> ST S B) : dops s zii = Some ops -> (sbi_ops_of zii ≫= k) s = k ops s.
Proof. intros E. apply bind_run, sbi_ops_of_Some. by exists ops. Qed.
Lemma run_sbi_ops_at {B} b ops s (k : _ -> ST S B) : sops s b = Some ops -> (sbi_ops_at b ≫= k) s = k ops s.
Proof. intros E. apply bind_run, sbi_ops_at_Some. by exists ops. Qed.
Lemma run_sbi {B} zii j s (k : _ -> ST S B) : zii_at s zii = Some j -> (sbi_of zii ≫= k) s = k (zii_sbi j) s.
Proof. intros E. apply bind_run, sbi_of_Some. by exists j. Qed.
Lemma run_set_body {B} p f i s (k : _ -> ST S B) : ioc_at s p = Some i -> (set_body p f ≫= k) s = k tt (set_ioc p (upd_body f i) s).
Proof. intros E. apply bind_run, set_body_Some. by exists i. Qed.

Lemma named_iff (s : S) d (tmp : bool) zii str r s' :
  ((if tmp then mret 0 else
   ops ← sbi_ops_of d; f ← of_option (op_add_dentry ops); err ← f d zii str;
   if negb (err =? 0) then ops ← sbi_ops_of zii; f ← of_option (op_free_inode ops); f zii;; mret err else mret 0) : ST S Z) s = Some (r, s')
  <-> named s d tmp zii str r s'.
Proof.
  split.
  - intros E. destruct tmp; [injection E as <- <-; by apply named_tmp|]. inv_run.
    match goal with Hc : context [negb (?e =? 0)] |- _ => destruct (Z.eqb_spec e 0) as [->|Hne]; cbn [negb] in Hc end; inv_run.
    + by eapply named_yes.
    + match goal with u : unit |- _ => destruct u end. by eapply named_no.
  - intros [Ht|ops g s2 Ht E1 E2 E3|ops g err s1 ops' h s2 Ht E1 E2 E3 Hne E4 E5 E6]; rewrite Ht //; rewrite (run_sbi_ops _ _ _ _ E1) (run_of _ _ _ _ E2) (bind_run _ _ _ _ _ E3) //.
    rewrite (proj2 (Z.eqb_neq _ _) Hne). cbn [negb]. rewrite (run_sbi_ops _ _ _ _ E4) (run_of _ _ _ _ E5) (bind_run _ _ _ _ _ E6) //.
Qed.
Lemma creates_iff app p (s : S) i d tmp n z a str r s' : ioc_at s p = Some i -> body i = IocNewInode d tmp n z a str ->
  _new_inode app p s = Some (r, s') <-> creates app p s i d tmp z a str r s'.
Proof.
  intros Ei Eb. rewrite /_new_inode /load_ioc (run_at _ _ _ _ _ Ei) Eb. split.
  - intros E. apply bind_Some in E as (b & s0 & (j & Ej & [= -> ->])%sbi_of_Some & E). rewrite (run_set_body _ _ _ _ _ Ei) in E.
    apply bind_Some in E as (ops & s0 & (ops' & Eo & [= -> ->])%sbi_ops_at_Some & E). apply bind_Some in E as (f & s0 & (f' & Ef & [= -> ->])%of_Some & E).
    apply bind_Some in E as (err & s2 & Er & E). destruct (Z.eqb_spec err 0) as [->|Hne]; cbn [negb] in E; [|injection E as <- <-; by eapply creates_not].
    apply bind_Some in E as (i2 & s0 & (i2' & Ei2 & [= -> ->])%at_Some & E). destruct (body i2') as [d2 tmp2 n2 zii a2 str2| | | | | | | | | | | | | | | | | | ] eqn:Eb2; try done.
    apply bind_Some in E as (k & s0 & (k' & Ek & [= -> ->])%at_Some & E). rewrite (run_set_body _ _ _ _ _ Ei2) in E. apply named_iff in E. by eapply creates_yes.
  - intros [j ops f err s2 s1 Ej Eo Ef Er Hne|j ops f s2 i2 d2 tmp2 n2 zii a2 str2 k r' s2' s1 Ej Eo Ef Er Ei2 Eb2 Ek Hn];
      rewrite (run_sbi _ _ _ _ Ej) (run_set_body _ _ _ _ _ Ei) (run_sbi_ops_at _ _ _ _ Eo) (run_of _ _ _ _ Ef) (bind_run _ _ _ _ _ Er).
    + by rewrite (proj2 (Z.eqb_neq _ _) Hne).
    + change (0 =? 0) with true. cbn [negb]. rewrite (run_at _ _ _ _ _ Ei2) Eb2 (run_at _ _ _ _ _ Ek) (run_set_body _ _ _ _ _ Ei2). by apply named_iff.
Qed.
Definition number_of (d : Z) (str : zufs_str) : ST S Z :=
  dot ← of_option (strncmp DOT (name str) (Z.to_nat (len str)));
  if dot =? 0 then d ← at_ zii_at d; z ← at_ zi_at (zii_zi d); mret (zi_ino z) else
  dotdot ← of_option (strncmp DOTDOT (name str) (Z.to_nat (len str)));
  if dotdot =? 0 then d ← at_ zii_at d; z ← at_ zi_at (zii_zi d); mret (zi_parent z) else
  ops ← sbi_ops_of d;
  f ← of_option (op_lookup ops);
  f d str.
Lemma names_iff d str (s : S) n s' : number_of d str s = Some (n, s') <-> names s d str n s'.
Proof.
  rewrite /number_of. split.
  - intros E. apply bind_Some in E as (x & s0 & (x' & Ex & [= -> ->])%of_Some & E). destruct (Z.eqb_spec x' 0) as [->|Hx].
    { inv_run. by eapply names_self. }
    apply bind_Some in E as (y & s0 & (y' & Ey & [= -> ->])%of_Some & E). destruct (Z.eqb_spec y' 0) as [->|Hy]; inv_run; [by eapply names_parent|by eapply names_other].
  - intros [j k Ex Ej Ek|x j k Ex Hx Ey Ej Ek|x y ops f m s2 Ex Hx Ey Hy Eo Ef Er]; rewrite (run_of _ _ _ _ Ex); [|rewrite (proj2 (Z.eqb_neq _ _) Hx) (run_of _ _ _ _ Ey)..].
    + by rewrite Z.eqb_refl (run_at _ _ _ _ _ Ej) (run_at _ _ _ _ _ Ek).
    + by rewrite Z.eqb_refl (run_at _ _ _ _ _ Ej) (run_at _ _ _ _ _ Ek).
    + by rewrite (proj2 (Z.eqb_neq _ _) Hy) (run_sbi_ops _ _ _ _ Eo) (run_of _ _ _ _ Ef).
Qed.
Lemma iget_iff b n (s : S) x s' : zus_iget b n s = Some (x, s') <-> exists ops g r s1, sops s b = Some ops /\ op_iget ops = Some g /\ g b n s = Some (r, s1) /\
  ((r.1 <> 0 /\ x = 0 /\ s' = s1) \/ (r.1 = 0 /\ x = r.2 /\ exists k, zii_at s1 x = Some k /\ s' = set_zii_sbi x b s1)).
Proof.
  rewrite /zus_iget. split.
  - intros E. apply bind_Some in E as (ops & s0 & (ops' & Eo & [= -> ->])%sbi_ops_at_Some & E). apply bind_Some in E as (g & s0 & (g' & Eg & [= -> ->])%of_Some & E).
    apply bind_Some in E as (r & s1 & Er & E). exists ops', g', r, s1. split_and!; [done..|].
    destruct (Z.eqb_spec r.1 0) as [E0|E0]; cbn [negb] in E; inv_run; [right|left; done]. split; [done|]. split; [done|]. eexists. done.
  - intros (ops & g & r & s1 & Eo & Eg & Er & Hor). rewrite (run_sbi_ops_at _ _ _ _ Eo) (run_of _ _ _ _ Eg) (bind_run _ _ _ _ _ Er).
    destruct Hor as [(Hr & -> & ->)|(Hr & -> & k & Ek & ->)].
    + by rewrite (proj2 (Z.eqb_neq _ _) Hr).
    + rewrite Hr. change (0 =? 0) with true. cbn [negb]. by rewrite (run_at _ _ _ _ _ Ek).
Qed.
Lemma looks_up_iff p (s : S) i d str zi0 z0 r s' : ioc_at s p = Some i -> body i = IocLookup d str zi0 z0 ->
  _lookup p s = Some (r, s') <-> looks_up p s d str r s'.
Proof.
  intros Ei Eb. rewrite /_lookup /load_ioc (run_at _ _ _ _ _ Ei) Eb. destruct (Z.eqb_spec (len str) 0) as [El|El].
  { rewrite (bind_run _ _ s 0 s) // orb_true_l. split; [intros [= <- <-]; apply looks_up_empty; by left|]. by intros []. }
  cbn [orb]. destruct (head (name str)) as [c|] eqn:Ec.
  2:{ split; [done|]. intros [[?|?]| | | |]; congruence. }
  rewrite (run_of _ c) //. destruct (Z.eqb_spec c 0) as [->|Hc].
  { split; [intros [= <- <-]; apply looks_up_empty; by right|]. intros [[?|?]| | | |]; done || congruence. }
  assert (Eq : forall (k : Z -> ST S Z), (dot ← of_option (strncmp DOT (name str) (Z.to_nat (len str)));
    ino ← (if dot =? 0 then d ← at_ zii_at d; z ← at_ zi_at (zii_zi d); mret (zi_ino z) else
           dotdot ← of_option (strncmp DOTDOT (name str) (Z.to_nat (len str)));
           if dotdot =? 0 then d ← at_ zii_at d; z ← at_ zi_at (zii_zi d); mret (zi_parent z) else
           ops ← sbi_ops_of d; f ← of_option (op_lookup ops); f d str);
    k ino) s = (number_of d str ≫= k) s).
  { intros k. rewrite /number_of /mbind /ST_bind. by destruct (of_option _ s) as [[x s0]|]. }
  rewrite Eq. split.
  - intros E. apply bind_Some in E as (n & s1 & En%names_iff & E). destruct (Z.eqb_spec n 0) as [->|Hn].
    { injection E as <- <-. by eapply looks_up_none. }
    apply bind_Some in E as (b & s0 & (j & Ej & [= -> ->])%sbi_of_Some & E). apply bind_Some in E as (x & s3 & Hx & E).
    apply iget_iff in Hx as (ops & g & [e x'] & s2 & Eo & Eg & Er & [(He & -> & ->)|(He & Ex & k & Ek & ->)]); cbn [fst snd] in *.
    + injection E as <- <-. by eapply looks_up_gone.
    + subst e x'. destruct (Z.eqb_spec x 0) as [->|Hx]; [injection E as <- <-; by eapply looks_up_null|]. inv_run. by eapply looks_up_yes.
  - intros [[?|?]|c' s2 _ _ _ En|c' n s1 j ops g e x s2 _ _ _ En Hn Ej Eo Eg Er He|c' n s1 j ops g s2 k _ _ _ En Hn Ej Eo Eg Er Ek|
      c' n s1 j ops g x s2 k k' i' _ _ _ En Hn Ej Eo Eg Er Hx Ek Ek' Ei']; [congruence|congruence|apply names_iff in En; rewrite (bind_run _ _ _ _ _ En)..].
    + done.
    + rewrite (proj2 (Z.eqb_neq _ _) Hn) (run_sbi _ _ _ _ Ej). rewrite (bind_run _ _ _ 0 s2) //. apply iget_iff. exists ops, g, (e, x), s2. split_and!; try done. by left.
    + rewrite (proj2 (Z.eqb_neq _ _) Hn) (run_sbi _ _ _ _ Ej). rewrite (bind_run _ _ _ 0 (set_zii_sbi 0 (zii_sbi j) s2)) //.
      apply iget_iff. exists ops, g, (0, 0), s2. split_and!; try done. right. split_and!; [done|done|by exists k].
    + rewrite (proj2 (Z.eqb_neq _ _) Hn) (run_sbi _ _ _ _ Ej). rewrite (bind_run _ _ _ x (set_zii_sbi x (zii_sbi j) s2)).
      { apply iget_iff. exists ops, g, (0, x), s2. split_and!; try done. right. split_and!; [done|done|by exists k]. }
      by rewrite (proj2 (Z.eqb_neq _ _) Hx) (run_at _ _ _ _ _ Ek') (run_set_body _ _ _ _ _ Ei').
Qed.

(** A handler is a slot of a table. *)
Ltac slot_done := match goal with |- context [?f <$> ?o] => destruct o; (exact (fun E => E) || (intros E; discriminate E)) end.
Lemma switch_iff app p (s : S) i r s' : ioc_at s p = Some i -> command_switch app p s = Some (r, s') <-> serves app p s i r s'.
Proof.
  intros Ei. rewrite /command_switch /load_ioc (run_at _ _ _ _ _ Ei). split.
  - intros E. destruct (operation (hdr i)) eqn:Eo;
      try (injection E as <- <-; apply serves_idle; by rewrite Eo).
    all: lazymatch type of E with
    | _new_inode _ _ _ = _ => destruct (body i) eqn:Eb; try (by rewrite /_new_inode /load_ioc (run_at _ _ _ _ _ Ei) Eb in E);
        eapply serves_new; [exact Eo|exact Eb|]; by eapply creates_iff
    | _lookup _ _ = _ => destruct (body i) eqn:Eb; try (by rewrite /_lookup /load_ioc (run_at _ _ _ _ _ Ei) Eb in E);
        eapply serves_lookup; [exact Eo|exact Eb|]; by eapply looks_up_iff
    | _iom_done _ _ = _ => rewrite /_iom_done /load_ioc (run_at _ _ _ _ _ Ei) in E; destruct (body i) as [ | | | | | | | | | | | | | | | | |iomd|] eqn:Eb; try done
    | _evict _ _ = _ => rewrite /_evict /load_ioc (run_at _ _ _ _ _ Ei) Eo in E; destruct (body i) as [|z| | | | | | | | | | | | | | | | |] eqn:Eb; try done;
        destruct (Z.eqb_spec z 0) as [->|Hz]; [injection E as <- <-; apply serves_null; [rewrite Eo; auto|done]|]
    | _ => rewrite /_io_read /_io_write /_io_pre_read /_fallocate /_seek /_fiemap /_ioc_xattr /_ioc_ioctl /_get_put_multy /_mmap_close /_setattr /_sync
        /_dentry /_rename /_readdir /_clone /_statfs /_show_options /load_ioc (run_at _ _ _ _ _ Ei) ?Eo in E; destruct (body i) eqn:Eb; try done
    end.
    all: repeat (case_bool_decide; try congruence).
    all: try (apply bind_Some in E as (ops & s0 & (ops' & Ho & [= -> ->])%zii_ops_of_Some & E); eapply serves_zii;
      [rewrite Eo Eb /= ?(proj2 (Z.eqb_neq _ _) Hz) //|exact Ho|revert E; slot_done]).
    all: try (apply bind_Some in E as (ops & s0 & (ops' & Ho & [= -> ->])%sbi_ops_of_Some & E); eapply serves_sbi;
      [rewrite Eo Eb /= ?(proj2 (Z.eqb_neq _ _) Hz) //|exact Ho|revert E; slot_done]).
    all: try (apply bind_Some in E as (ops & s0 & (ops' & Ho & [= -> ->])%sbi_ops_at_Some & E); eapply serves_sbi;
      [rewrite Eo Eb //|exact Ho|revert E; slot_done]).
    destruct (Z.eqb_spec iomd 0) as [->|Hz]; [injection E as <- <-; apply (serves_iom_none _ _ _ _ 0); [done|done|by left]|].
    apply bind_Some in E as (f & s0 & (f' & Ef & [= -> ->])%of_Some & E). destruct f' as [f|]; inv_run.
    + match goal with u : unit |- _ => destruct u end. by eapply serves_iom.
    + eapply serves_iom_none; [exact Eo|exact Eb|by right].
  - intros [ops z m e r0 s1 Hs Ho Hr|ops w m e r0 s1 Hs Ho Hr|Hop Eb|d tmp n z a str r0 s1 Eo Eb Hc|d str zi0 z0 r0 s1 Eo Eb Hl|iomd f s1 Eo Eb Hz Ef Er|iomd Eo Eb Hor|Hi].
    + destruct (operation (hdr i)) eqn:Eo, (body i) eqn:Eb; try discriminate; cbn [zii_slot] in Hs; try (case_match; [discriminate|]);
        injection Hs as <- <- <-; rewrite /_io_read /_io_write /_io_pre_read /_fallocate /_seek /_fiemap /_ioc_xattr /_ioc_ioctl /_get_put_multy /_mmap_close
        /_setattr /_sync /_evict /load_ioc (run_at _ _ _ _ _ Ei) Eb ?Eo; repeat case_match; try congruence; repeat (case_bool_decide; try congruence);
        rewrite (run_zii_ops _ _ _ _ Ho); revert Hr; slot_done.
    + destruct (operation (hdr i)) eqn:Eo, (body i) eqn:Eb; try discriminate; cbn [sbi_slot] in Hs; try (case_match; [discriminate|]);
        injection Hs as <- <- <-; cbn [reach] in Ho; rewrite /_dentry /_rename /_readdir /_clone /_statfs /_show_options /_evict /load_ioc (run_at _ _ _ _ _ Ei) Eb ?Eo;
        repeat case_match; try congruence; repeat (case_bool_decide; try congruence);
        first [rewrite (run_sbi_ops _ _ _ _ Ho)|rewrite (run_sbi_ops_at _ _ _ _ Ho)]; revert Hr; slot_done.
    + assert (E : _evict p s = Some (0, s)) by (rewrite /_evict /load_ioc (run_at _ _ _ _ _ Ei) Eb; done). by destruct Hop as [-> | ->].
    + rewrite Eo. by eapply creates_iff.
    + rewrite Eo. by eapply looks_up_iff.
    + rewrite Eo /_iom_done /load_ioc (run_at _ _ _ _ _ Ei) Eb (proj2 (Z.eqb_neq _ _) Hz) (run_of _ _ _ _ Ef) (bind_run _ _ _ _ _ Er) //.
    + rewrite Eo /_iom_done /load_ioc (run_at _ _ _ _ _ Ei) Eb. destruct (Z.eqb_spec iomd 0) as [|Hz]; [done|]. destruct Hor as [?|Ef]; [done|]. by rewrite (run_of _ _ _ _ Ef).
    + by destruct (operation (hdr i)).
Qed.
Lemma pigy_loop_iff fuel p (s : S) s' : pigy_loop fuel p s = Some (tt, s') <-> exists n, (n < fuel)%nat /\ walked n s p s'.
Proof.
  revert p s. induction fuel as [|k IH]; intros p s; cbn [pigy_loop]; [split; [done|]; intros (n & Hn & _); lia|]. split.
  - intros E. apply bind_Some in E as (i & s0 & (i' & Ei & [= -> ->])%at_Some & E). destruct (has_pigy_put (hdr i')) eqn:Ep; cbn [negb] in E.
    2:{ injection E as <-. exists 0%nat. split; [lia|]. by eapply walked_last. }
    apply bind_Some in E as (j & s0 & (j' & Ej & [= -> ->])%at_Some & E). case_bool_decide as Eo; cbn [negb] in E.
    2:{ injection E as <-. exists 0%nat. split; [lia|]. by eapply walked_other. }
    apply bind_Some in E as (r & s1 & Er & E). apply IH in E as (n & Hn & Hw). exists (Datatypes.S n). split; [lia|].
    rewrite /_get_put_multy /load_ioc (run_at _ _ _ _ _ Ej) in Er. destruct (body j') eqn:Eb; try done.
    apply bind_Some in Er as (ops & s0 & (ops' & Ho & [= -> ->])%zii_ops_of_Some & Er).
    eapply walked_put; [exact Ei|exact Ep|exact Ej|exact Eo|by rewrite Eb|exact Ho|by rewrite -call_served|exact Hw].
  - intros (n & Hn & Hw). destruct Hw as [s p i Ei Ep|s p i j Ei Ep Ej Eo|n s p i j zii ops m e r s1 s2 Ei Ep Ej Eo Hs Ho Hr Hw];
      rewrite /load_ioc (run_at _ _ _ _ _ Ei) Ep; cbn [negb]; [done| |]; rewrite (run_at _ _ _ _ _ Ej).
    + by rewrite bool_decide_eq_false_2.
    + rewrite bool_decide_eq_true_2 //. cbn [negb]. destruct (body j) eqn:Eb; try discriminate. injection Hs as <- <- <-.
      rewrite (bind_run _ _ _ r s1). { rewrite /_get_put_multy /load_ioc (run_at _ _ _ _ _ Ej) Eb (run_zii_ops _ _ _ _ Ho) call_served //. }
      apply IH. exists n. split; [lia|done].
Qed.

Lemma some_pigy_iff p (s : S) s' : _some_pigy_put p s = Some (tt, s') <-> exists n, (n < PIGY_FUEL)%nat /\ walked n s p s'.
Proof. rewrite /_some_pigy_put. apply pigy_loop_iff. Qed.
Lemma pigy_fuel_pos : (0 < PIGY_FUEL)%nat.
Proof. rewrite /PIGY_FUEL. apply Nat2Z.inj_lt. rewrite Z2Nat.id; lia. Qed.

(** C14: the dispatcher, for every request: zus_do_command runs to an answer if and only if the
    rules give it that answer and that state.  First the puts that ride on the request are
    served; then the request goes to the one operation of the file system that serves its
    code, whose answer is passed on; an optional operation the tables lack is answered with
    the error the kernel expects; creation, lookup, freeing and the end of an IO map make
    the calls their rules name, in that order, and no other; of a code it does not know the
    dispatcher says that it succeeded. *)
Theorem do_command_serves (app p : Z) (s : S) (r : Z) (s' : S) :
  zus_do_command app p s = Some (r, s') <->
  exists n s1 i, (n < PIGY_FUEL)%nat /\ walked n s p s1 /\ ioc_at s1 p = Some i /\ serves app p s1 i r s'.
Proof.
  rewrite /zus_do_command. split.
  - intros E. apply bind_Some in E as (i & s0 & (i' & Ei & [= -> ->])%at_Some & E). apply bind_Some in E as ([] & s1 & Ep & E).
    assert (Hi : exists j, ioc_at s1 p = Some j).
    { rewrite /command_switch in E. apply bind_Some in E as (j & s0 & (j' & Ej & _)%at_Some & _). by exists j'. }
    destruct Hi as [j Ej]. apply (switch_iff _ _ _ j) in E; [|done]. destruct (has_pigy_put (hdr i')) eqn:Eh.
    + apply some_pigy_iff in Ep as (n & Hn & Hw). exists n, s1, j. split; [exact Hn|]. split; [exact Hw|]. split; [exact Ej|exact E].
    + injection Ep as <-. exists 0%nat, s, j. split_and!; [exact pigy_fuel_pos|exact (walked_last s p i' Ei Eh)|exact Ej|exact E].
  - intros (n & s1 & j & Hn & Hw & Ej & Hs). assert (Hi : exists i, ioc_at s p = Some i) by (destruct Hw; eauto). destruct Hi as [i Ei].
    rewrite /load_ioc (run_at _ _ _ _ _ Ei). destruct (has_pigy_put (hdr i)) eqn:Eh.
    + rewrite (bind_run _ _ _ tt s1). { apply some_pigy_iff. exists n. split; [exact Hn|exact Hw]. } by eapply switch_iff.
    + destruct Hw as [s p i0 Ei0 Ep|s p i0 j0 Ei0 Ep|n s p i0 j0 zii ops m e r0 s1 s2 Ei0 Ep]; rewrite Ei0 in Ei; injection Ei as ->; [|congruence..].
      rewrite (bind_run _ _ _ tt s) //. by eapply switch_iff.
Qed.
End dispatch.

(** ** The puts that ride on a request *)
Section pigy.
Context {S R : Type} `{ZusMem S R} `{MdApi}.
Definition hdr_at (s : S) (p : Z) : option zufs_ioc_hdr := hdr <$> ioc_at s p.

(** The requests found by following [in_len] from [p] on, all below [lim]. *)
Inductive pigy_chain (s : S) (lim : Z) : Z -> list Z -> Prop :=
| chain_end p h : hdr_at s p = Some h -> has_pigy_put h = false -> pigy_chain s lim p []
| chain_other p h h' : hdr_at s p = Some h -> has_pigy_put h = true -> hdr_at s (p + in_len h) = Some h' ->
    operation h' <> ZUFS_OP_PUT_MULTY -> pigy_chain s lim p []
| chain_put p h h' l : hdr_at s p = Some h -> has_pigy_put h = true -> 0 < in_len h -> p + in_len h < lim ->
    hdr_at s (p + in_len h) = Some h' -> operation h' = ZUFS_OP_PUT_MULTY -> pigy_chain s lim (p + in_len h) l ->
    pigy_chain s lim p (p + in_len h :: l).
(** One after the other. *)
Fixpoint puts (l : list Z) : ST S unit := match l with [] => mret tt | q :: l' => _get_put_multy q;; puts l' end.

Lemma pigy_chain_length s lim p l : pigy_chain s lim p l -> l = [] \/ Z.of_nat (length l) < lim - p.
Proof. induction 1; [by left|by left|]. right. cbn [length]. destruct IHpigy_chain as [->|]; cbn; lia. Qed.
Lemma pigy_chain_hdrs s s' lim p l : (forall q, hdr_at s' q = hdr_at s q) -> pigy_chain s lim p l -> pigy_chain s' lim p l.
Proof.
  intros E. induction 1; [eapply chain_end; rewrite ?E; done|eapply chain_other; rewrite ?E; done|].
  by eapply chain_put; rewrite ?E.
Qed.
Lemma hdr_at_Some s p h : hdr_at s p = Some h -> exists i, ioc_at s p = Some i /\ hdr i = h.
Proof. rewrite /hdr_at. destruct (ioc_at s p); [|done]. intros [= <-]. eauto. Qed.
Lemma load_ioc_run s p i {B} (k : zufs_ioc R -> ST S B) : ioc_at s p = Some i -> (load_ioc p ≫= k) s = k i s.
Proof. intros E. by rewrite /load_ioc /at_ /mbind /ST_bind /gets E. Qed.
Lemma bind_ext {A B} (m : ST S A) (k k' : A -> ST S B) s :
  (forall a s', m s = Some (a, s') -> k a s' = k' a s') -> (m ≫= k) s = (m ≫= k') s.
Proof. rewrite /mbind /ST_bind. destruct (m s) as [[a s']|]; [|done]. intros E. by apply E. Qed.

Lemma pigy_loop_puts fuel lim p l s :
  (forall q s1 r s2, _get_put_multy q s1 = Some (r, s2) -> forall x, hdr_at s2 x = hdr_at s1 x) ->
  pigy_chain s lim p l -> (length l < fuel)%nat -> pigy_loop fuel p s = puts l s.
Proof.
  intros Hk. revert p l s. induction fuel as [|k IH]; intros p l s Hc Hf; [lia|]. cbn [pigy_loop].
  destruct Hc as [p h E Ep|p h h' E Ep E' Eo|p h h' l E Ep Hl Hlim E' Eo Hc];
    apply hdr_at_Some in E as (i & E & <-); rewrite (load_ioc_run _ _ _ _ E) Ep; cbn [negb]; [done| |];
    apply hdr_at_Some in E' as (j & E' & <-); rewrite (load_ioc_run _ _ _ _ E').
  - by rewrite bool_decide_eq_false_2.
  - rewrite bool_decide_eq_true_2 //. cbn [negb puts]. apply bind_ext. intros r s' Hr. apply IH; [|cbn in Hf; lia].
    eapply pigy_chain_hdrs; [|exact Hc]. exact (Hk _ _ _ _ Hr).
Qed.

(** C36: a request with puts riding on it: they are served in the order of the buffer, up to
    the first header that is no put or says that it is the last, and then the request
    itself; whatever the puts answer is dropped.  In one buffer the walk always ends. *)
Theorem pigy_put_order (s : S) (app p lim : Z) (l : list Z) :
  (forall q s1 r s2, _get_put_multy q s1 = Some (r, s2) -> forall x, hdr_at s2 x = hdr_at s1 x) ->
  pigy_chain s lim p l -> lim <= p + 16 * PAGE_SIZE ->
  zus_do_command app p s = (puts l;; command_switch app p) s.
Proof.
  intros Hk Hc Hl. rewrite /zus_do_command.
  assert (exists i, ioc_at s p = Some i) as (i & E).
  { destruct Hc as [? ? E|? ? ? E|? ? ? ? E]; apply hdr_at_Some in E as (i & ? & _); by exists i. }
  rewrite (load_ioc_run _ _ _ _ E). destruct (has_pigy_put (hdr i)) eqn:Ep.
  - rewrite /_some_pigy_put /mbind /ST_bind (pigy_loop_puts PIGY_FUEL lim p l); [done|done| |done].
    rewrite /PIGY_FUEL. destruct (pigy_chain_length _ _ _ _ Hc) as [->|]; cbn; lia.
  - destruct Hc as [? ? E' ?|? ? ? E' Ep'|? ? ? ? E' Ep']; [done| |]; rewrite /hdr_at E in E'; injection E' as <-; by rewrite Ep in Ep'.
Qed.
End pigy.

(** ** Lookup *)
(** strncmp of a literal with as many bytes of a name as it has: the name is a beginning of
    the literal. *)
Lemma strncmp_prefix lit nm buf : (forall c, c ∈ lit -> c <> 0) -> (forall c, c ∈ nm -> c <> 0) ->
  exists x, strncmp (lit ++ [0]) (nm ++ buf) (length nm) = Some x /\ (x = 0 <-> nm `prefix_of` lit).
Proof.
  revert lit. induction nm as [|c nm IH]; intros lit Hl Hn.
  { exists 0. split; [done|]. split; [intros _; apply prefix_nil|done]. }
  assert (Hc : c <> 0) by (apply Hn; left). destruct lit as [|d lit]; cbn [app length strncmp head tail].
  - exists (0 - c). cbn [mbind option_bind head]. rewrite (proj2 (Z.eqb_neq 0 c)); [lia|]. cbn [negb]. split; [done|].
    split; [lia|]. intros [k Hk]. done.
  - cbn [mbind option_bind]. assert (Hd : d <> 0) by (apply Hl; left). destruct (Z.eqb_spec d c) as [->|Hne]; cbn [negb].
    + rewrite (proj2 (Z.eqb_neq c 0) Hc). destruct (IH lit) as (x & -> & Hx).
      { intros y Hy. apply Hl. by right. } { intros y Hy. apply Hn. by right. }
      exists x. split; [done|]. rewrite Hx. split; [apply prefix_cons|]. intros [k [= ->]]. by exists k.
    + exists (d - c). split; [done|]. split; [lia|]. intros [k [= ? ?]]. done.
Qed.
Lemma prefix_of_dot nm : nm <> [] -> nm `prefix_of` [46] <-> nm = [46].
Proof.
  intros Hn. split; [|intros ->; by exists []]. intros [k Hk]. destruct nm as [|a nm]; [done|]. cbn in Hk. injection Hk as <- Hk.
  symmetry in Hk. apply app_nil in Hk as [-> _]. done.
Qed.
Lemma prefix_of_dotdot nm : nm <> [] -> nm <> [46] -> nm `prefix_of` [46; 46] <-> nm = [46; 46].
Proof.
  intros Hn H1. split; [|intros ->; by exists []]. intros [k Hk]. destruct nm as [|a [|b nm]]; [done| |]; cbn in Hk; simplify_eq/=.
  by destruct nm; simplify_eq/=.
Qed.

(** What a file system promises for lookups.  [fs_dir s d self parent m]: the inode in core
    [d] is a directory with that number, parent and names; [fs_numbered s z n]: the inode
    in core [z] is number [n]. *)
Class LookupContract (S R : Type) `{ZusMem S R} : Type := {
  fs_dir : S -> Z -> Z -> Z -> gmap (list Z) Z -> Prop;
  fs_numbered : S -> Z -> Z -> Prop;
  fs_dir_zi s d self parent m : fs_dir s d self parent m ->
    exists i, zii_at s d = Some i /\ zi_at s (zii_zi i) = Some (ZusInode self parent);
  fs_dir_ops s d self parent m : fs_dir s d self parent m ->
    exists b ops f g, has_sops s d b ops /\ op_lookup ops = Some f /\ op_iget ops = Some g /\
      (forall nm buf, nm <> [] -> wp (f d (ZufsStr (Z.of_nat (length nm)) (nm ++ buf))) s (fun n s' => s' = s /\ n = default 0 (m !! nm))) /\
      (forall n, n <> 0 -> wp (g b n) s (fun r s' => (r.1 <> 0 /\ s' = s) \/
        (r.1 = 0 /\ r.2 <> 0 /\ (forall q, ioc_at s' q = ioc_at s q) /\ (exists i, zii_at s' r.2 = Some i) /\ fs_numbered s' r.2 n))) }.
#[global] Hint Mode LookupContract ! - - : typeclass_instances.

Section lookup.
Context {S R : Type} `{!ZusMem S R} `{!MdApi} `{!ZusMemLaws (S := S) (R := R)} `{!LookupContract S R}.

Lemma wp_zus_iget s b ops g ino (Q : Z -> S -> Prop) :
  (exists o, sb_op_at s b = Some o /\ sbi_ops o = Some ops) -> op_iget ops = Some g ->
  wp (g b ino) s (fun r s' => (r.1 <> 0 /\ Q 0 s') \/ (r.1 = 0 /\ exists i, zii_at s' r.2 = Some i /\ Q r.2 (set_zii_sbi r.2 b s'))) ->
  wp (zus_iget b ino) s Q.
Proof.
  intros (o & Eo & Eops) Eg HQ. rewrite /zus_iget /sbi_ops_at. apply wp_bind, wp_bind. eapply wp_at; [exact Eo|].
  eapply wp_of_option; [exact Eops|]. apply wp_bind. eapply wp_of_option; [exact Eg|]. apply wp_bind. eapply wp_mono; [exact HQ|].
  intros r s' [[Hr Hq]|(Hr & i & Ei & Hq)].
  - rewrite (proj2 (Z.eqb_neq _ _) Hr). by apply wp_ret.
  - rewrite Hr. apply wp_bind. eapply wp_at; [exact Ei|]. by wp_steps.
Qed.

(** What a name stands for. *)
Definition resolve (self parent : Z) (m : gmap (list Z) Z) (nm : list Z) : Z :=
  if decide (nm = [46]) then self else if decide (nm = [46; 46]) then parent else default 0 (m !! nm).

Lemma hd_error_nonempty (nm buf : list Z) : nm <> [] -> exists c, head (nm ++ buf) = Some c /\ c ∈ nm.
Proof. destruct nm as [|c nm]; [done|]. intros _. exists c. split; [done|left]. Qed.
Lemma wp_lookup s p d self parent m nm buf zi0 z0 i0 (Q : Z -> S -> Prop) :
  ioc_at s p = Some i0 -> body i0 = IocLookup d (ZufsStr (Z.of_nat (length nm)) (nm ++ buf)) zi0 z0 ->
  nm <> [] -> (forall c, c ∈ nm -> c <> 0) -> fs_dir s d self parent m ->
  let n := resolve self parent m nm in
  Q (- ENOENT) s ->
  (forall s1 zii i j, n <> 0 -> zii <> 0 -> fs_numbered s1 zii n -> zii_at s1 zii = Some i -> (forall q, ioc_at s1 q = ioc_at s q) ->
    zii_at s d = Some j -> is_Some (sb_op_at s (zii_sbi j)) ->
    Q 0 (set_ioc p (upd_body (fun _ => IocLookup d (ZufsStr (Z.of_nat (length nm)) (nm ++ buf)) (md_addr_to_offset (zii_zi i)) zii) i0) (set_zii_sbi zii (zii_sbi j) s1))) ->
  wp (_lookup p) s Q.
Proof.
  intros E Eb Hne Hnul Hd n Hno Hyes. rewrite /_lookup /load_ioc. apply wp_bind. eapply wp_at; [exact E|]. rewrite Eb. cbn [len name].
  destruct (hd_error_nonempty nm buf Hne) as (c & Hc & Hcin).
  rewrite (proj2 (Z.eqb_neq (Z.of_nat (length nm)) 0)); [by destruct nm|]. cbn [orb].
  apply wp_bind. eapply wp_of_option; [exact Hc|]. rewrite (proj2 (Z.eqb_neq c 0)); [by apply Hnul|].
  rewrite Nat2Z.id. destruct (strncmp_prefix [46] nm buf) as (x & Ex & Hx); [by intros ? ->%list_elem_of_singleton|done|].
  change ([46] ++ [0]) with DOT in Ex. apply wp_bind. eapply wp_of_option; [exact Ex|].
  rewrite prefix_of_dot // in Hx.
  destruct (fs_dir_zi _ _ _ _ _ Hd) as (j & Ej & Ezi). destruct (fs_dir_ops _ _ _ _ _ Hd) as (b & ops & f & g & Hs & Ef & Eg & Hf & Hg).
  apply wp_bind.
  assert (Hgo : wp (if n =? 0 then mret (- ENOENT) else
      sbi ← sbi_of d; zii ← zus_iget sbi n;
      if zii =? 0 then mret (- ENOENT) else
      z ← at_ zii_at zii;
      set_body p (fun _ => IocLookup d (ZufsStr (Z.of_nat (length nm)) (nm ++ buf)) (md_addr_to_offset (zii_zi z)) zii);; mret 0) s Q).
  { destruct (Z.eqb_spec n 0) as [En|En]; [by apply wp_ret|]. apply wp_bind. eapply wp_sbi_of; [exact Hs|]. apply wp_bind.
    pose proof Hs as (j' & o & Ej' & Eb' & Eo & Eops). eapply wp_zus_iget; [by eauto|exact Eg|]. eapply wp_mono; [exact (Hg n En)|].
    intros r s1 [[Hr ->]|(Hr & Hz & Hioc & (i & Ei) & Hnum)]; [left; by split|]. right. split; [done|]. exists i. split; [done|].
    rewrite (proj2 (Z.eqb_neq _ _) Hz). apply wp_bind. eapply wp_at; [rewrite (zii_at_set_sbi _ _ _ s i) ?Eo // decide_True //|].
    apply wp_bind. eapply wp_set_body; [rewrite ioc_at_set_sbi Hioc; exact E|]. apply wp_ret. cbn [zii_zi].
    specialize (Hyes s1 r.2 i j' En Hz Hnum Ei Hioc Ej'). rewrite Eb' in Hyes. apply Hyes. by rewrite Eo. }
  subst n. rewrite /resolve in Hgo. destruct (Z.eqb_spec x 0) as [Ex0|Ex0].
  - rewrite decide_True in Hgo; [by apply Hx|]. apply wp_bind. eapply wp_at; [exact Ej|]. apply wp_bind. eapply wp_at; [exact Ezi|]. by apply wp_ret.
  - assert (Hd1 : nm <> [46]) by (by intros ?%Hx). rewrite decide_False // in Hgo.
    destruct (strncmp_prefix [46; 46] nm buf) as (y & Ey & Hy); [by intros ? [->|[->|[]%not_elem_of_nil]%elem_of_cons]%elem_of_cons|done|].
    change ([46; 46] ++ [0]) with DOTDOT in Ey. apply wp_bind. eapply wp_of_option; [exact Ey|]. rewrite prefix_of_dotdot // in Hy.
    destruct (Z.eqb_spec y 0) as [Ey0|Ey0].
    + rewrite decide_True in Hgo; [by apply Hy|]. apply wp_bind. eapply wp_at; [exact Ej|]. apply wp_bind. eapply wp_at; [exact Ezi|]. by apply wp_ret.
    + rewrite decide_False in Hgo; [by intros ?%Hy|]. apply wp_bind. eapply wp_sbi_ops_of; [exact Hs|]. apply wp_bind. eapply wp_of_option; [exact Ef|].
      eapply wp_mono; [exact (Hf nm buf Hne)|]. intros n s' [-> ->]. exact Hgo.
Qed.

End lookup.

