(* ===== verification/Toy.v ===== *)
(** * toyfs behind the abstract file system: the tables of fs/toyfs/common.c

    A state of toyfs together with the memory of the requests and of the applications,
    as Vfs.v wants it: the operations of toyfs take their arguments out of the request,
    run, and put their answers back. *)

From S2P Require Import Prelude Bytes CList State Pool File DirPage Dir Super Xattr Iom Inode Vfs.

(** zus_api.h: the buffer of a directory listing, and of an extent map with its flags, the
    number of extents in it and their maximum. *)
Record zufs_fiemap_extent_info := FiemapExtentInfo { fi_flags : Z; fi_extents_mapped : Z; fi_extents_max : Z; fi_extents_start : list Z }.
Class ToyApi : Type := {
  zufs_zde_emit : list Z -> list Z -> Z -> Z -> Z -> bool * list Z;
  zufs_fiemap_fill_next_extent : zufs_fiemap_extent_info -> Z -> Z -> Z -> Z -> Z * zufs_fiemap_extent_info;
  op_number : e_zufs_operation -> Z;
}.

(** The fields of the requests only toyfs looks at. *)
Inductive toy_rest : Type :=
| RestIO (io : zufs_ioc_IO) (words : list Z) (reply : option get_block_out)
| RestNew (zi : toyfs_inode) (flags : Z)
| RestRename (new_dir_ii old_zus_ii new_zus_ii : Z) (old_d_str new_d_str : zufs_str) (time flags : Z)
| RestReaddir (pos : Z) (more : bool)
| RestClone (dst_zus_ii pos_in pos_out len : Z)
| RestSeek (offset_in whence offset_out : Z)
| RestXattr (x : zufs_ioc_xattr)
| RestFiemap (start flags extents_max extents_mapped : Z)
| RestStatfs (statfs_out : option statfs64)
| RestNone.
Record toy := Toy { t_sbi : toyfs_sb_info; t_ioc : gmap Z (zufs_ioc toy_rest); t_app : gmap Z (list Z) }.
Definition upd_t_sbi (f : toyfs_sb_info -> toyfs_sb_info) (s : toy) : toy := Toy (f (t_sbi s)) (t_ioc s) (t_app s).
Definition upd_t_ioc (f : gmap Z (zufs_ioc toy_rest) -> gmap Z (zufs_ioc toy_rest)) (s : toy) : toy := Toy (t_sbi s) (f (t_ioc s)) (t_app s).
Definition upd_t_app (f : gmap Z (list Z) -> gmap Z (list Z)) (s : toy) : toy := Toy (t_sbi s) (t_ioc s) (f (t_app s)).
Notation TOY := (ST toy).

(** ** What the request and the application get and give *)
Definition on_sbi {A} (m : FS A) : TOY A := zoom t_sbi (fun t => upd_t_sbi (fun _ => t)) m.
Definition get_rest {A} (p : Z) (f : toy_rest -> option A) : TOY A := i ← load t_ioc p; of_option (f (rest i)).
Definition put_rest (p : Z) (r : toy_rest) : TOY unit := update t_ioc upd_t_ioc p (fun i => ZufsIoc (hdr i) (body i) r).
Definition get_app (a : Z) : TOY (list Z) := load t_app a.
(** The bytes land at the head of the buffer: it must have the room. *)
Definition put_app (a : Z) (bytes : list Z) : TOY unit :=
  b ← get_app a; b' ← of_option (fill bytes b); modify (upd_t_app (<[a := b']>)).
Definition str_bytes (s : zufs_str) : list Z := take (Z.to_nat (len s)) (name s).

Section toy.
Context `{MdApi} `{MallocApi} `{InodeApi} `{XattrApi} `{IomApi} `{ToyApi}.

(** ** zus_zii_operations *)
Definition toy_evict (zii : Z) : TOY unit := on_sbi (toyfs_evict zii).
Definition rest_io (r : toy_rest) : option (zufs_ioc_IO * list Z) := match r with RestIO io w _ => Some (io, w) | _ => None end.
Definition toy_read (app_ptr io : Z) : TOY Z :=
  q ← get_rest io rest_io;
  r ← on_sbi (toyfs_read q.1);
  put_app app_ptr r.1.2;; put_rest io (RestIO r.2 q.2 None);; mret r.1.1.
Definition toy_pre_read (app_ptr io : Z) : TOY Z :=
  q ← get_rest io rest_io;
  r ← on_sbi (toyfs_pre_read q.1);
  put_app app_ptr r.1.2;; put_rest io (RestIO r.2 q.2 None);; mret r.1.1.
Definition toy_write (app_ptr io : Z) : TOY Z :=
  q ← get_rest io rest_io;
  buf ← get_app app_ptr;
  r ← on_sbi (toyfs_write buf q.1);
  put_rest io (RestIO r.2 q.2 None);; mret r.1.
Definition toy_get_put_multy (zii io : Z) : TOY Z :=
  i ← load t_ioc io;
  q ← get_rest io rest_io;
  r ← on_sbi (toyfs_get_put_multy zii (GetBlockIO (io_filepos q.1) (io_rw q.1) (op_number (operation (hdr i))) q.2));
  put_rest io (RestIO q.1 q.2 r.2);; mret r.1.
Definition toy_mmap_close (zii mmap_close : Z) : TOY Z := on_sbi (toyfs_mmap_close zii).
Definition toy_setattr (zii bits : Z) : TOY Z := on_sbi (toyfs_setattr zii bits).
Definition toy_sync (zii ioc : Z) : TOY Z := on_sbi (toyfs_sync zii).
Definition toy_fallocate (zii io : Z) : TOY Z := q ← get_rest io rest_io; on_sbi (toyfs_fallocate zii q.1).
Definition toy_seek (zii ioc : Z) : TOY Z :=
  q ← get_rest ioc (fun r => match r with RestSeek i w _ => Some (i, w) | _ => None end);
  r ← on_sbi (toyfs_seek zii q.1 q.2);
  put_rest ioc (RestSeek q.1 q.2 r.2);; mret r.1.
Definition rest_xattr (r : toy_rest) : option zufs_ioc_xattr := match r with RestXattr x => Some x | _ => None end.
Definition toy_getxattr (zii ioc : Z) : TOY Z :=
  x ← get_rest ioc rest_xattr; r ← on_sbi (toyfs_getxattr zii x); put_rest ioc (RestXattr r.2);; mret r.1.
Definition toy_setxattr (zii ioc : Z) : TOY Z := x ← get_rest ioc rest_xattr; on_sbi (toyfs_setxattr zii x).
Definition toy_listxattr (zii ioc : Z) : TOY Z :=
  x ← get_rest ioc rest_xattr; r ← on_sbi (toyfs_listxattr zii x); put_rest ioc (RestXattr r.2);; mret r.1.
Definition toyfs_fiemap (app_ptr zif : Z) : TOY Z :=
  i ← load t_ioc zif;
  zii ← of_option (match body i with IocFiemap zii => Some zii | _ => None end);
  q ← get_rest zif (fun r => match r with RestFiemap a b c _ => Some (a, b, c) | _ => None end);
  buf ← get_app app_ptr;
  tii ← on_sbi (toyfs_zii_to_tii zii);
  r ← on_sbi (File._fiemap zufs_fiemap_fill_next_extent tii (FiemapExtentInfo q.1.2 0 q.2 buf) (s64 q.1.1));
  put_app app_ptr (fi_extents_start r.2);;
  put_rest zif (RestFiemap q.1.1 q.1.2 q.2 (fi_extents_mapped r.2));; mret r.1.
Definition toyfs_zii_op : zus_zii_operations toy :=
  ZusZiiOperations (Some toy_evict) (Some toy_read) (Some toy_pre_read) (Some toy_write) (Some toy_get_put_multy) (Some toy_mmap_close)
    (Some toy_setattr) (Some toy_sync) (Some toy_fallocate) (Some toy_seek) None (Some toy_getxattr) (Some toy_setxattr)
    (Some toy_listxattr) (Some toyfs_fiemap).

(** ** zus_sbi_operations *)
(** toyfs_new_inode returns a pointer; whoever calls it through the table takes the low
    half of it for an error, and NULL for success. *)
Definition toy_new_inode (sbi app_ptr ioc : Z) : TOY Z :=
  i ← load t_ioc ioc;
  q ← of_option (match body i, rest i with
    | IocNewInode dir_ii _ nlink _ _ _, RestNew zi fl => Some (dir_ii, ZufsIocNewInode (upd_i_nlink (fun _ => nlink) zi) dir_ii fl)
    | _, _ => None end);
  sym ← get_app app_ptr;
  r ← on_sbi (toyfs_new_inode sym q.2);
  mret (s32 (default 0 r)).
Definition toy_lookup (dir_ii : Z) (str : zufs_str) : TOY Z := on_sbi (toyfs_lookup dir_ii (str_bytes str)).
Definition toy_add_dentry (dir_ii zii : Z) (str : zufs_str) : TOY Z := on_sbi (toyfs_add_dentry dir_ii zii (str_bytes str)).
Definition toy_remove_dentry (dir_ii zii : Z) (str : zufs_str) : TOY Z := on_sbi (toyfs_remove_dentry dir_ii zii (str_bytes str)).
Definition toy_iget (sbi ino : Z) : TOY (Z * Z) := r ← on_sbi (toyfs_iget ino); mret (r.1, default 0 r.2).
Definition toy_rename (zir : Z) : TOY Z :=
  i ← load t_ioc zir;
  q ← of_option (match body i, rest i with IocRename d, RestRename nd o n on nn t f => Some (d, nd, o, n, (on, nn), (t, f)) | _, _ => None end);
  let '(d, nd, o, n, nms, tf) := q in
  on_sbi (toyfs_rename d nd o n (str_bytes nms.1) (str_bytes nms.2) tf.1 tf.2).
Definition toy_readdir (app_ptr zir : Z) : TOY Z :=
  i ← load t_ioc zir;
  q ← of_option (match body i, rest i with IocReaddir d, RestReaddir pos _ => Some (d, pos) | _, _ => None end);
  buf ← get_app app_ptr;
  r ← on_sbi (toyfs_readdir zufs_zde_emit q.1 q.2 buf);
  put_app app_ptr r.2;; put_rest zir (RestReaddir r.1.2 r.1.1);; mret 0.
Definition toy_clone (ioc : Z) : TOY Z :=
  i ← load t_ioc ioc;
  q ← of_option (match body i, rest i with IocClone src, RestClone dst a b n => Some (src, dst, a, b, n) | _, _ => None end);
  let '(src, dst, a, b, n) := q in on_sbi (toyfs_clone src dst a b n).
Definition toy_statfs (sbi ioc : Z) : TOY Z := r ← on_sbi toyfs_statfs; put_rest ioc (RestStatfs (Some r.2));; mret r.1.
Definition toyfs_sbi_op : zus_sbi_operations toy :=
  ZusSbiOperations (Some toy_new_inode) (Some toy_evict) (Some toy_lookup) (Some toy_add_dentry) (Some toy_remove_dentry) (Some toy_iget)
    (Some toy_rename) (Some toy_readdir) (Some toy_clone) (Some toy_statfs) None.

(** ** toyfs as the memory of the handlers: 1 is the address of each table and of the
    super-block *)
Definition TOY_SBI : Z := 1.
Definition zii_view (t : toyfs_inode_info) : zus_inode_info :=
  ZusInodeInfo (if zop t then 1 else 0) (if tii_sbi t then TOY_SBI else 0) (default 0 (zi t)).
Definition zi_view (i : toyfs_inode) : zus_inode := ZusInode (i_ino i) (i_dir_parent i).
#[export] Instance toy_mem : ZusMem toy toy_rest := {|
  ioc_at s p := t_ioc s !! p;
  set_ioc p i := upd_t_ioc (<[p := i]>);
  zii_at s p := zii_view <$> h_tii (t_sbi s) !! p;
  set_zii_sbi p b := upd_t_sbi (upd_h_tii (alter (upd_tii_sbi (fun _ => bool_decide (b = TOY_SBI))) p));
  zi_at s p := zi_view <$> h_inode (t_sbi s) !! p;
  sb_op_at s p := if p =? TOY_SBI then Some 1 else None;
  zii_ops p := if p =? 1 then Some toyfs_zii_op else None;
  sbi_ops p := if p =? 1 then Some toyfs_sbi_op else None;
  iomd_done p := None |}.
End toy.
