(* ===== verification/ToySpec.v ===== *)
(** * toyfs through the dispatcher

    toyfs keeps the contract for lookups, and a file written through the dispatcher is read
    back through it; but its creations answer the address of the inode where the table
    wants an error. *)

From S2P Require Import Prelude Bytes CList State Pool File FileInv FileSpec FileOps FileClaims DirPage Dir DirSpec DirEx DirClaims Super Itable Xattr Iom Inode Life Vfs VfsSpec Toy.

Section laws.
Context `{MdLaws} `{MallocLaws} `{InodeApi} `{XattrApi} `{IomApi} `{ToyApi}.

#[export] Instance toy_mem_laws : ZusMemLaws (S := toy) (R := toy_rest).
Proof.
  split.
  - intros p i [t io app] q. cbn. case_decide as E; [by rewrite E lookup_insert_eq|by rewrite lookup_insert_ne].
  - done.
  - done.
  - intros z b s s0 i q. cbn. intros [o Hb] Hz. destruct (Z.eqb_spec b TOY_SBI) as [->|]; [|done].
    destruct s as [t io app]. cbn in *. destruct t. cbn in *. case_decide as E.
    + subst q. rewrite lookup_alter_eq. destruct (h_tii !! z); [|done]. cbn in *. injection Hz as <-. done.
    + by rewrite lookup_alter_ne.
Qed.

(** A directory in core; every inode the table knows is in core too: the answer of
    toyfs_iget for one that is not has no record (Life.v). *)
Definition toy_dir (s : toy) (d self parent : Z) (m : gmap (list Z) Z) : Prop :=
  exists F N X it dp t i, fs_inv (t_sbi s) F N X /\ itable_is (t_sbi s) it /\ (forall n e, it !! n = Some e -> r_tii e <> None) /\
    zii_of (t_sbi s) d dp /\ h_tii (t_sbi s) !! d = Some t /\ tii_sbi t = true /\ h_tii (t_sbi s) !! 0 = None /\
    h_inode (t_sbi s) !! dp = Some i /\ i_ino i = self /\ i_dir_parent i = parent /\ dir_is (t_sbi s) X dp m.
Definition toy_numbered (s : toy) (z n : Z) : Prop := exists t, h_tii (t_sbi s) !! z = Some t /\ ino t = n.

Lemma wp_on_sbi {A} (m : FS A) s (Q : A -> toy -> Prop) :
  wp m (t_sbi s) (fun r t => Q r (upd_t_sbi (fun _ => t) s)) -> wp (on_sbi m) s Q.
Proof. intros HQ. by apply wp_zoom. Qed.
Lemma upd_t_sbi_id s : upd_t_sbi (fun _ => t_sbi s) s = s.
Proof. by destruct s. Qed.
Lemma str_bytes_app nm buf : str_bytes (ZufsStr (Z.of_nat (length nm)) (nm ++ buf)) = nm.
Proof. by rewrite /str_bytes /= Nat2Z.id take_app_length. Qed.

#[export, refine] Instance toy_lookup_contract : LookupContract toy toy_rest := {|
  fs_dir := toy_dir; fs_numbered := toy_numbered |}.
Proof.
  - intros s d self parent m (F&N&X&it&dp&t&i&_&_&_&(t'&Ht'&_&Hzi&_)&Ht&_&_&Hi&<-&<-&_). rewrite Ht in Ht'. injection Ht' as <-.
    exists (zii_view t). cbn. rewrite Ht Hzi. split; [done|]. cbn. by rewrite Hi.
  - intros s d self parent m (F&N&X&it&dp&t&i&Hfs&Hit&Hcore&Hz&Ht&Hsb&Hnull&Hi&Hself&Hpar&Hd).
    exists TOY_SBI, toyfs_sbi_op, toy_lookup, toy_iget. split_and!; [|done|done| |].
    + exists (zii_view t), 1. cbn. rewrite Ht. split_and!; [done|by rewrite /= Hsb|done|done].
    + intros nm buf Hne. rewrite /toy_lookup str_bytes_app. apply wp_on_sbi. eapply wp_mono; [by eapply wp_lookup_name|].
      intros r t' [-> ->]. by rewrite upd_t_sbi_id.
    + intros n Hn. rewrite /toy_iget. apply wp_bind, wp_on_sbi. eapply wp_mono; [by eapply wp_iget|].
      intros r t' Hr. apply wp_ret. destruct (it !! n) as [e|] eqn:E.
      * specialize (Hcore n e E). destruct (r_tii e) as [tii|]; [|done]. destruct Hr as (->&_&_&_&t1&Ht1&Hino&Htii). right. cbn [fst snd from_option id].
        split; [done|]. split; [intros ->; by rewrite Hnull in Ht1|]. split; [done|].
        split; [cbn; rewrite Htii lookup_insert_eq; by eexists|]. eexists. cbn. rewrite Htii lookup_insert_eq. by split.
      * destruct Hr as [-> ->]. left. cbn. rewrite upd_t_sbi_id. split; [unfold ENOENT; lia|done].
Defined.

(** ** Files through the dispatcher *)
Lemma zii_of_zops s zii p : zii_of (t_sbi s) zii p -> has_zops s zii toyfs_zii_op.
Proof. intros (t & Ht & _ & _ & Hop & _). exists (zii_view t). cbn. rewrite Ht. split; [done|]. by rewrite /= Hop. Qed.
Lemma wp_get_rest {A} s p i (f : toy_rest -> option A) a (Q : A -> toy -> Prop) :
  t_ioc s !! p = Some i -> f (rest i) = Some a -> Q a s -> wp (get_rest p f) s Q.
Proof. intros E Ef HQ. rewrite /get_rest. apply wp_bind. eapply wp_load; [exact E|]. by rewrite Ef. Qed.
Lemma wp_put_rest s p i r (Q : unit -> toy -> Prop) :
  t_ioc s !! p = Some i -> Q tt (upd_t_ioc (<[p := ZufsIoc (hdr i) (body i) r]>) s) -> wp (put_rest p r) s Q.
Proof. intros E HQ. rewrite /put_rest. by eapply wp_update. Qed.
Lemma wp_put_app s a bytes b (Q : unit -> toy -> Prop) :
  t_app s !! a = Some b -> (length bytes <= length b)%nat -> Q tt (upd_t_app (<[a := bytes ++ drop (length bytes) b]>) s) -> wp (put_app a bytes) s Q.
Proof.
  intros E Hl HQ. rewrite /put_app /get_app. apply wp_bind. eapply wp_load; [exact E|].
  by rewrite /fill (proj2 (Nat.leb_le _ _)).
Qed.
(** A request of that kind at [p]: what the handler and toyfs see of it. *)
Definition io_request (s : toy) (p : Z) (op : e_zufs_operation) (zii pos n : Z) : Prop :=
  exists i last rw w r, t_ioc s !! p = Some i /\ body i = IocIO zii /\ operation (hdr i) = op /\ has_pigy_put (hdr i) = false /\
    rest i = RestIO (ZufsIocIO zii pos n last rw) w r.

Lemma wp_toy_write s F N X zii ti pos n buf aw pw (Q : Z -> toy -> Prop) :
  fs_inv (t_sbi s) F N X -> ti ∈ F -> zii_of (t_sbi s) zii ti -> 0 <= pos < 2 ^ 63 -> 0 <= n < 2 ^ 64 -> n <= Z.of_nat (length buf) ->
  io_request s pw ZUFS_OP_WRITE zii pos n -> t_app s !! aw = Some buf ->
  (forall e s', e <> 0 -> t_app s' = t_app s -> Q e s') ->
  (forall t i', 0 < n <= ZUS_API_MAP_MAX_SIZE -> pos + n <= 2 ^ 50 -> fs_inv t F N X -> fs_step (t_sbi s) t F X ti -> written (t_sbi s) t ti pos n buf ->
    Q 0 (Toy t (<[pw := i']> (t_ioc s)) (t_app s))) ->
  wp (zus_do_command aw pw) s Q.
Proof.
  intros Hfs Hti Hz Hpos Hn Hbuf (i & last & rw & w & r0 & E & Eb & Eo & Ep & Er) Happ Hbad Hgood.
  eapply wp_do_command; [exists i; by split_and!|]. rewrite /command_switch /load_ioc. apply wp_bind. eapply wp_at; [exact E|]. rewrite Eo.
  rewrite /_io_write /load_ioc. apply wp_bind. eapply wp_at; [exact E|]. rewrite Eb. apply wp_bind. eapply wp_zii_ops_of; [by eapply zii_of_zops|].
  apply wp_bind. eapply wp_of_option; [done|]. rewrite /toy_write. apply wp_bind. eapply wp_get_rest; [exact E|by rewrite Er|].
  apply wp_bind. eapply wp_load; [exact Happ|]. apply wp_bind, wp_on_sbi. cbn [fst snd].
  eapply wp_mono; [by eapply wp_toyfs_write|]. intros r t (Hfs' & Hs & Hr). apply wp_bind. eapply wp_put_rest; [exact E|]. apply wp_ret.
  case_decide as Hok.
  - destruct Hr as [[-> Hw]|[-> _]]; [|apply Hbad; [cbn; unfold ENOSPC; lia|by destruct s]]. destruct Hok as [? ?].
    destruct s as [sb io app]. by apply Hgood.
  - destruct Hr as (_ & [Er1|Er1] & _); rewrite Er1; (apply Hbad; [unfold EINVAL, EFBIG; lia|by destruct s]).
Qed.
(** C13: what one process writes into a file of toyfs through the dispatcher, another reads
    back through it: the answers, the requests and the buffers of both pass the interface
    of the abstract file system. *)
Theorem vfs_write_read s F N X zii ti pos n buf out aw ar pw pr :
  fs_inv (t_sbi s) F N X -> ti ∈ F -> zii_of (t_sbi s) zii ti -> 0 <= pos < 2 ^ 63 -> 0 <= n < 2 ^ 64 ->
  n <= Z.of_nat (length buf) -> n <= Z.of_nat (length out) -> pw <> pr ->
  io_request s pw ZUFS_OP_WRITE zii pos n -> io_request s pr ZUFS_OP_READ zii pos n ->
  t_app s !! aw = Some buf -> t_app s !! ar = Some out ->
  wp (w ← zus_do_command aw pw; r ← (if w =? 0 then zus_do_command ar pr else mret 0); b ← get_app ar; mret (w, r, b)) s
    (fun '(w, r, b) _ => w = 0 -> r = 0 /\ b = take (Z.to_nat n) buf ++ drop (Z.to_nat n) out).
Proof.
  intros Hfs Hti Hz Hpos Hn Hbuf Hout Hne Hw Hr Haw Har. apply wp_bind.
  eapply (wp_toy_write s F N X zii ti pos n buf); try done.
  { intros e s' He Happ. rewrite (proj2 (Z.eqb_neq _ _) He). apply wp_bind, wp_ret, wp_bind. eapply wp_load; [rewrite Happ; exact Har|]. by apply wp_ret. }
  intros t i' Hn1 Hn2 Hfs' Hs Hwr. rewrite Z.eqb_refl. apply wp_bind. destruct Hr as (i & last & rw & w & r0 & E & Eb & Eo & Ep & Er).
  set (s1 := Toy t _ _). assert (E1 : t_ioc s1 !! pr = Some i) by by rewrite lookup_insert_ne.
  eapply wp_do_command; [exists i; by split_and!|]. rewrite /command_switch /load_ioc. apply wp_bind. eapply wp_at; [exact E1|]. rewrite Eo.
  rewrite /_io_read /load_ioc. apply wp_bind. eapply wp_at; [exact E1|]. rewrite Eb.
  assert (Hz1 : zii_of (t_sbi s1) zii ti) by by eapply fs_step_zii.
  apply wp_bind. eapply wp_zii_ops_of; [by eapply zii_of_zops|]. apply wp_bind. eapply wp_of_option; [done|]. rewrite /toy_read.
  apply wp_bind. eapply wp_get_rest; [exact E1|by rewrite Er|]. apply wp_bind, wp_on_sbi. cbn [fst snd].
  eapply wp_mono; [by eapply wp_toyfs_read|]. intros x t' [-> Hx]. rewrite upd_t_sbi_id decide_True // in Hx |- *. rewrite {}Hx. cbn [fst snd].
  destruct (fs_inv_fsize t F N X ti) as (_ & _ & _ & Hb); [done..|]. pose proof Hwr as [Hsz _].
  change (t_sbi s1) with t. replace (Z.max 0 (Z.min (pos + n) (fsize t ti) - pos)) with n by lia.
  rewrite (written_bytes (t_sbi s) t ti pos n buf Hwr); [lia|].
  assert (Hlen : length (take (Z.to_nat n) buf) = Z.to_nat n) by (rewrite length_take; lia).
  apply wp_bind. eapply wp_put_app; [exact Har|rewrite Hlen; lia|]. rewrite Hlen. apply wp_bind. eapply wp_put_rest; [exact E1|]. apply wp_ret.
  apply wp_bind. eapply wp_load; [apply lookup_insert_eq|]. by apply wp_ret.
Qed.

(** Creating an inode of toyfs through the dispatcher.  toyfs_new_inode answers the new
    inode, where the table wants an error: the low half of its address is reported as the
    error, although the inode was made and stays in core, and the request does not say
    which it is; and when no inode could be made, NULL is taken for success, and the
    handler goes on with whatever inode the request names: with none it crashes. *)
Theorem toy_create_inverted (s : toy) (app p d : Z) (tmp : bool) (n0 z0 a0 : Z) (str : zufs_str) (i : zufs_ioc toy_rest) (zi : toyfs_inode) (fl : Z) (sym : list Z) r sb :
  t_ioc s !! p = Some i -> body i = IocNewInode d tmp n0 z0 a0 str -> operation (hdr i) = ZUFS_OP_NEW_INODE -> has_pigy_put (hdr i) = false ->
  rest i = RestNew zi fl -> t_app s !! app = Some sym -> has_sops s d TOY_SBI toyfs_sbi_op ->
  toyfs_new_inode sym (ZufsIocNewInode (upd_i_nlink (fun _ => 0) zi) d fl) (t_sbi s) = Some (r, sb) ->
  match r with
  | Some tii => s32 tii <> 0 -> exists s' i', zus_do_command app p s = Some (s32 tii, s') /\ t_sbi s' = sb /\
      t_ioc s' !! p = Some i' /\ body i' = IocNewInode d tmp 0 z0 a0 str
  | None => h_tii sb !! z0 = None -> zus_do_command app p s = None
  end.
Proof.
  intros E Eb Eo Ep Er Happ Hs Hrun. set (i1 := upd_body (fun _ => IocNewInode d tmp 0 z0 a0 str) i).
  set (s1 := upd_t_ioc (<[p := i1]>) s). set (s2 := upd_t_sbi (fun _ => sb) s1).
  assert (E1 : t_ioc s1 !! p = Some i1) by apply lookup_insert_eq.
  assert (Hnew : toy_new_inode TOY_SBI app p s1 = Some (s32 (default 0 r), s2)).
  { rewrite /toy_new_inode (bind_run _ _ _ i1 s1); [by rewrite /load E1|].
    rewrite (bind_run (of_option _) _ s1 (d, ZufsIocNewInode (upd_i_nlink (fun _ => 0) zi) d fl) s1); [by rewrite /= Er|].
    rewrite (bind_run _ _ _ sym s1); [by rewrite /get_app /load Happ|].
    rewrite (bind_run _ _ _ r s2); [|done]. by rewrite /on_sbi /zoom Hrun. }
  destruct Hs as (j & o & Ej & Ebj & Eso & Eops).
  assert (Hgo : zus_do_command app p s = (if negb (s32 (default 0 r) =? 0) then mret (s32 (default 0 r)) else
    at_ zii_at z0 ≫= fun z => set_body p (fun _ => IocNewInode d tmp 0 z0 (md_addr_to_offset (zii_zi z)) str);;
      if tmp then mret 0 else ops ← sbi_ops_of d; f ← of_option (op_add_dentry ops); err ← f d z0 str;
      if negb (err =? 0) then ops ← sbi_ops_of z0; f ← of_option (op_free_inode ops); f z0;; mret err else mret 0) s2).
  { rewrite /zus_do_command (load_ioc_run _ _ i) // Ep. rewrite (bind_run (mret tt) _ s tt s) //.
    rewrite /command_switch (load_ioc_run _ _ i) // Eo /_new_inode (load_ioc_run _ _ i) // Eb.
    rewrite (bind_run (sbi_of d) _ s TOY_SBI s). { by rewrite /sbi_of /at_ /mbind /ST_bind /gets Ej /= Ebj. }
    rewrite (bind_run (set_body _ _) _ s tt s1). { by rewrite /set_body (load_ioc_run _ _ i). }
    rewrite (bind_run (sbi_ops_at TOY_SBI) _ s1 toyfs_sbi_op s1) //. rewrite (bind_run (of_option _) _ s1 toy_new_inode s1) //.
    rewrite (bind_run _ _ _ _ _ Hnew). destruct (negb _); [done|]. by rewrite (load_ioc_run _ _ i1). }
  rewrite Hgo. destruct r as [tii|]; cbn [default from_option id].
  - intros Hne. rewrite (proj2 (Z.eqb_neq _ _) Hne). cbn [negb]. exists s2, i1. by split_and!.
  - intros Hnone. change (s32 0) with 0. cbn [negb Z.eqb]. rewrite /at_ /mbind /ST_bind /gets /=. by rewrite Hnone.
Qed.
End laws.

(** ** Concrete instances: the device with two directories of DirEx.v behind the dispatcher *)
Section example.
#[local] Existing Instance example_md.
#[local] Existing Instance example_malloc.
#[local] Existing Instance example_inode_api.
#[local] Existing Instance example_iom.
#[local] Instance example_xattr : XattrApi := {| ZUFS_XATTR_SET_EMPTY := 1 |}.
#[local] Instance example_toy : ToyApi := {|
  zufs_zde_emit buf nm ino ty pos := (true, buf);
  zufs_fiemap_fill_next_extent fi _ _ _ _ := (1, fi);
  op_number op := if decide (op = Vfs.ZUFS_OP_GET_MULTY) then Inode.ZUFS_OP_GET_MULTY else Inode.ZUFS_OP_GET_MULTY + 1 |}.

Definition req (op : e_zufs_operation) (b : ioc_body) (r : toy_rest) : zufs_ioc toy_rest := ZufsIoc (ZufsIocHdr op false 0 0) b r.
Definition str_of (nm : list Z) : zufs_str := ZufsStr (Z.of_nat (length nm)) (nm ++ [0]).
Definition toy_named : toy := Toy ds_named {[100 := req ZUFS_OP_LOOKUP (IocLookup 3 (str_of nm_a) 0 0) RestNone]} ∅.
Lemma toy_named_dir : exists parent, fs_dir toy_named 3 13 parent {[nm_a := 11]}.
Proof.
  destruct ds_named_dir as (X & Hfs & Hd). eexists. exists ex_files, ex_inodes, X, ∅, dir1, (reg_tii dir1 13). eexists.
  split; [exact Hfs|]. split; [apply (itable_blank _ 0); by vm_compute|]. split; [done|]. split; [eapply reg_zii, ds_named_facts|].
  split; [apply ds_named_facts|]. split; [reflexivity|]. split; [by vm_compute|]. split; [by vm_compute|]. split; [reflexivity|]. split; [reflexivity|exact Hd].
Qed.
(** A new file is given a name and found by it: the answer is its in-core inode. *)
Definition toy_live : toy :=
  Toy (run_or (toyfs_add_dentry 3 5 nm_b) life_example) {[100 := req ZUFS_OP_LOOKUP (IocLookup 3 (str_of nm_b) 0 0) RestNone; 101 := req ZUFS_OP_LOOKUP (IocLookup 3 (str_of nm_a) 0 0) RestNone]} ∅.
Example lookup_runs :
  match zus_do_command 0 100 toy_live, zus_do_command 0 101 toy_live with
  | Some (r, s), Some (r', s') => r = 0 /\ body <$> t_ioc s !! 100 = Some (IocLookup 3 (str_of nm_b) 70144 5) /\ r' = - ENOENT
  | _, _ => False
  end.
Proof. vm_compute. auto. Qed.

(** Five bytes across a page boundary of the first file. *)
Definition io_req (op : e_zufs_operation) : zufs_ioc toy_rest := req op (IocIO 1) (RestIO (ZufsIocIO 1 4094 5 0 0) [] None).
Definition toy_files : toy :=
  Toy fs_example {[100 := io_req ZUFS_OP_WRITE; 101 := io_req ZUFS_OP_READ]} {[200 := ex_buf; 201 := [9; 9; 9; 9; 9; 9]]}.
Lemma toy_io op p : t_ioc toy_files !! p = Some (io_req op) -> io_request toy_files p op 1 4094 5.
Proof. intros E. exists (io_req op), 0, 0, [], None. by split_and!. Qed.
Lemma vfs_write_read_witness :
  wp (w ← zus_do_command 200 100; r ← (if w =? 0 then zus_do_command 201 101 else mret 0); b ← get_app 201; mret (w, r, b)) toy_files
    (fun '(w, r, b) _ => w = 0 -> r = 0 /\ b = ex_buf ++ [9]).
Proof.
  apply (vfs_write_read toy_files ex_files ex_files ∅ 1 file1 4094 5 ex_buf [9; 9; 9; 9; 9; 9] 200 201 100 101);
    [exact fs_example_inv|exact ex_in1|exact ex_zii1|lia|lia|simpl; lia|simpl; lia|discriminate|
     apply toy_io; reflexivity|apply toy_io; reflexivity|reflexivity|reflexivity].
Defined.
(** A read, and a code the dispatcher does not know. *)
Definition toy_unknown : toy := Toy fs_example {[100 := req (OtherOp 99) IocHdrOnly RestNone]} ∅.
Lemma do_command_serves_witness :
  (forall r s', toy_read 201 101 toy_files = Some (r, s') -> zus_do_command 201 101 toy_files = Some (r, s')) /\
  zus_do_command 0 100 toy_unknown = Some (0, toy_unknown).
Proof.
  split.
  - intros r s' Hr. apply (do_command_serves 201 101 toy_files r s'). exists 0%nat, toy_files, (io_req ZUFS_OP_READ).
    split; [exact pigy_fuel_pos|]. split; [apply (walked_last _ _ (io_req ZUFS_OP_READ)); reflexivity|]. split; [reflexivity|].
    destruct (zii_of_zops toy_files 1 file1 ex_zii1) as (i & Hi & Ho). eapply (serves_zii _ _ _ _ toyfs_zii_op); [reflexivity| |exact Hr]. rewrite /zops Hi. exact Ho.
  - apply (do_command_serves 0 100 toy_unknown 0 toy_unknown). exists 0%nat, toy_unknown, (req (OtherOp 99) IocHdrOnly RestNone).
    split; [exact pigy_fuel_pos|]. split; [apply (walked_last _ _ (req (OtherOp 99) IocHdrOnly RestNone)); reflexivity|]. split; [reflexivity|].
    apply serves_idle. exact I.
Defined.

(** A request that two puts ride on. *)
Definition put_req (more : bool) : zufs_ioc toy_rest :=
  ZufsIoc (ZufsIocHdr Vfs.ZUFS_OP_PUT_MULTY more 64 0) (IocIO 1) (RestIO (ZufsIocIO 1 0 4096 0 ZUFS_RW_MMAP) [] None).
Definition toy_pigy : toy :=
  Toy fs_example {[100 := ZufsIoc (ZufsIocHdr ZUFS_OP_READ true 64 0) (IocIO 1) (RestIO (ZufsIocIO 1 0 4 0 0) [] None); 164 := put_req true; 228 := put_req false]} {[200 := [1; 2; 3; 4]]}.
Lemma keeps_zii_ops {A} (P : toy -> Prop) z (k : zus_zii_operations toy -> TOY A) :
  keeps P (k toyfs_zii_op) -> keeps P (zii_ops_of z ≫= k).
Proof.
  intros Hk s a s' Hs. rewrite /zii_ops_of /at_ /mbind /ST_bind /gets. destruct (zii_at s z) as [i|]; [|done]. cbn.
  destruct (zii_op i =? 1); [|done]. by apply Hk.
Qed.
Lemma toy_puts_keep q x h : keeps (fun s : toy => hdr_at s x = h) (_get_put_multy q).
Proof.
  rewrite /_get_put_multy /load_ioc /at_. apply keeps_bind; [keeps|]. intros i. destruct (body i); try apply keeps_abort.
  apply keeps_zii_ops. cbn. rewrite /toy_get_put_multy /get_rest /put_rest. keeps.
  - intros s a1 s' Hs. rewrite /on_sbi /zoom. destruct (toyfs_get_put_multy _ _ _) as [[]|]; [|done]. by intros [= _ <-].
  - apply keeps_update. intros s v Hs Hv. rewrite /hdr_at /= in Hs |- *. destruct (decide (x = q)) as [->|].
    + rewrite lookup_insert_eq. by rewrite Hv in Hs.
    + by rewrite lookup_insert_ne.
Qed.
Lemma pigy_put_order_witness :
  pigy_chain toy_pigy 1000 100 [164; 228] /\
  zus_do_command 200 100 toy_pigy = (puts [164; 228];; command_switch 200 100) toy_pigy.
Proof.
  assert (Hc : pigy_chain toy_pigy 1000 100 [164; 228]).
  { apply (chain_put toy_pigy 1000 100 (ZufsIocHdr ZUFS_OP_READ true 64 0) (ZufsIocHdr Vfs.ZUFS_OP_PUT_MULTY true 64 0) [228]); [reflexivity|reflexivity|cbn; lia|cbn; lia|reflexivity|reflexivity|].
    apply (chain_put toy_pigy 1000 164 (ZufsIocHdr Vfs.ZUFS_OP_PUT_MULTY true 64 0) (ZufsIocHdr Vfs.ZUFS_OP_PUT_MULTY false 64 0) []); [reflexivity|reflexivity|cbn; lia|cbn; lia|reflexivity|reflexivity|].
    eapply (chain_end toy_pigy 1000 228); reflexivity. }
  split; [exact Hc|]. apply (pigy_put_order toy_pigy 200 100 1000 [164; 228]); [|exact Hc|lia].
  intros q s1 r s2 Hr x. exact (toy_puts_keep q x (hdr_at s1 x) s1 r s2 eq_refl Hr).
Defined.

(** A new file in the first directory: the kernel is told that error 5 happened. *)
Definition toy_create : toy :=
  Toy ds_example {[100 := req ZUFS_OP_NEW_INODE (IocNewInode 3 false 1 0 0 (str_of nm_a)) (RestNew (n_zi new_reg) 0)]} {[200 := []]}.
Lemma toy_create_inverted_witness :
  exists s', zus_do_command 200 100 toy_create = Some (5, s') /\ h_tii (t_sbi s') !! 5 <> None.
Proof.
  assert (E : exists sb, toyfs_new_inode [] (ZufsIocNewInode (upd_i_nlink (fun _ => 0) (n_zi new_reg)) 3 0) (t_sbi toy_create) = Some (Some 5, sb) /\ h_tii sb !! 5 <> None).
  { eexists. split; [vm_compute; reflexivity|]. vm_compute. discriminate. }
  destruct E as (sb & E & Hin).
  destruct (toy_create_inverted toy_create 200 100 3 false 1 0 0 (str_of nm_a) _ (n_zi new_reg) 0 [] (Some 5) sb
    eq_refl eq_refl eq_refl eq_refl eq_refl eq_refl (ex_intro _ _ (ex_intro _ _ (conj eq_refl (conj eq_refl (conj eq_refl eq_refl))))) E) as (s' & i' & Hr & Hsb & _).
  - vm_compute. discriminate.
  - exists s'. split; [exact Hr|]. rewrite Hsb. exact Hin.
Defined.
End example.
