(* ===== verification/Mount.v ===== *)
(** * Mounting: the first part of zus-vfs.c

    Mounts, unmounts and private mounts: the descriptors, the mappings and the super-block
    they take, and how they give them back when a step fails. *)

From S2P Require Import Prelude State Core Md.

(** ** State *)
(** What zuf_grab_pmem fills in (zus_api.h): the table of devices, whether the mapping has
    a shadow, the index of this device. *)
Record pmem_info := PmemInfo { pi_list : md_dev_list; pi_shadow : bool; pi_dev_index : Z }.
(** struct zus_sb_info; [sb_root] is z_root with its zi. *)
Record zus_sb_info := ZusSbInfo {
  sb_md : multi_devices; sb_info : pmem_info; sb_fd : Z; sb_pages : Z; sb_user_page_size : Z; sb_dev_index : Z;
  sb_root : option (Z * Z); sb_flags : Z; kern_sb_id : Z }.
(** What a private mount hands out: struct zufs_ioc_mount_private. *)
Record zip := Zip { z_fd : Z; z_in_len : Z; z_flags : Z; z_options : list Z; z_sb_id : Z; z_sbi : Z; z_zi : Z; z_ii : Z }.
(** [k_fds], [k_maps] and [k_mounts] are the kernel's: open descriptors, mappings with their
    length, descriptors with a private mount. *)
Record mnt (F : Type) := Mnt {
  k_fds : gset Z; k_maps : gmap Z Z; k_mounts : gset Z; h_sb : gmap Z zus_sb_info; h_zip : gmap Z zip; k_core : zus_core; fs : F }.
Arguments Mnt {F}. Arguments k_fds {F}. Arguments k_maps {F}. Arguments k_mounts {F}. Arguments h_sb {F}. Arguments h_zip {F}. Arguments k_core {F}. Arguments fs {F}.
Definition upd_k_fds {F} (f : gset Z -> gset Z) (s : mnt F) : mnt F := Mnt (f (k_fds s)) (k_maps s) (k_mounts s) (h_sb s) (h_zip s) (k_core s) (fs s).
Definition upd_k_maps {F} (f : gmap Z Z -> gmap Z Z) (s : mnt F) : mnt F := Mnt (k_fds s) (f (k_maps s)) (k_mounts s) (h_sb s) (h_zip s) (k_core s) (fs s).
Definition upd_k_mounts {F} (f : gset Z -> gset Z) (s : mnt F) : mnt F := Mnt (k_fds s) (k_maps s) (f (k_mounts s)) (h_sb s) (h_zip s) (k_core s) (fs s).
Definition upd_h_sb {F} (f : gmap Z zus_sb_info -> gmap Z zus_sb_info) (s : mnt F) : mnt F := Mnt (k_fds s) (k_maps s) (k_mounts s) (f (h_sb s)) (h_zip s) (k_core s) (fs s).
Definition upd_h_zip {F} (f : gmap Z zip -> gmap Z zip) (s : mnt F) : mnt F := Mnt (k_fds s) (k_maps s) (k_mounts s) (h_sb s) (f (h_zip s)) (k_core s) (fs s).
Definition upd_k_core {F} (f : zus_core -> zus_core) (s : mnt F) : mnt F := Mnt (k_fds s) (k_maps s) (k_mounts s) (h_sb s) (h_zip s) (f (k_core s)) (fs s).

(** Updates of a super-block. *)
Definition set_sb_md (m : multi_devices) (b : zus_sb_info) : zus_sb_info :=
  ZusSbInfo m (sb_info b) (sb_fd b) (sb_pages b) (sb_user_page_size b) (sb_dev_index b) (sb_root b) (sb_flags b) (kern_sb_id b).
Definition set_sb_info (i : pmem_info) (b : zus_sb_info) : zus_sb_info :=
  ZusSbInfo (let m := sb_md b in MultiDevices (pi_list i) (p_pmem_addr m) (m_t1_count m) (m_t2_count m) (devs m) (t1a m) (t2a m))
    i (sb_fd b) (sb_pages b) (sb_user_page_size b) (sb_dev_index b) (sb_root b) (sb_flags b) (kern_sb_id b).
Definition set_sb_fd (fd : Z) (b : zus_sb_info) : zus_sb_info :=
  ZusSbInfo (sb_md b) (sb_info b) fd (sb_pages b) (sb_user_page_size b) (sb_dev_index b) (sb_root b) (sb_flags b) (kern_sb_id b).
Definition set_sb_pages (a : Z) (b : zus_sb_info) : zus_sb_info :=
  ZusSbInfo (sb_md b) (sb_info b) (sb_fd b) a (sb_user_page_size b) (sb_dev_index b) (sb_root b) (sb_flags b) (kern_sb_id b).
Definition set_sb_page_size (n : Z) (b : zus_sb_info) : zus_sb_info :=
  ZusSbInfo (sb_md b) (sb_info b) (sb_fd b) (sb_pages b) n (sb_dev_index b) (sb_root b) (sb_flags b) (kern_sb_id b).
Definition set_sb_dev_index (n : Z) (b : zus_sb_info) : zus_sb_info :=
  ZusSbInfo (sb_md b) (sb_info b) (sb_fd b) (sb_pages b) (sb_user_page_size b) n (sb_root b) (sb_flags b) (kern_sb_id b).
Definition set_sb_id (n : Z) (b : zus_sb_info) : zus_sb_info :=
  ZusSbInfo (sb_md b) (sb_info b) (sb_fd b) (sb_pages b) (sb_user_page_size b) (sb_dev_index b) (sb_root b) (sb_flags b) n.
Definition set_pmem_addr (a : Z) (b : zus_sb_info) : zus_sb_info :=
  let m := sb_md b in set_sb_md (MultiDevices (mdt_list m) a (m_t1_count m) (m_t2_count m) (devs m) (t1a m) (t2a m)) b.
Definition ZUS_SBIF_ERROR : Z := 0.
Definition zus_sbi_set_flag (flag : Z) (b : zus_sb_info) : zus_sb_info :=
  ZusSbInfo (sb_md b) (sb_info b) (sb_fd b) (sb_pages b) (sb_user_page_size b) (sb_dev_index b) (sb_root b) (Z.lor (sb_flags b) (Z.shiftl 1 flag)) (kern_sb_id b).
Definition zus_sbi_test_flag (flag : Z) (b : zus_sb_info) : Z := Z.land (sb_flags b) (Z.shiftl 1 flag).

(** ** What is called *)
(** The kernel and the C library: what a call answers in a given state; errno's are
    positive. *)
Class MountSys : Type := {
  sys_open : gset Z -> Z + Z;
  sys_mmap : gmap Z Z -> Z -> Z + Z;
  grab_pmem : Z -> Z * pmem_info;
  private_mount : Z -> Z * Z;
  ZUFS_2M_SIZE : Z;
  map_mem : bool * bool;
  numa_answer : Z * zufs_ioc_numa_map;
  current_cpu : Z;
  zip_mem : gmap Z zip -> option Z;
  zbt_mem : gmap Z zus_base_thread -> option Z;
  MAP_FAILED : Z;
  sizeof_zip : Z;
  MD_DEV_MAX : nat;
}.
(** struct zus_zfi_operations, and the evict of the root's table. *)
Record zus_zfi_operations (S : Type) := ZusZfiOperations {
  sbi_alloc : ST S Z;
  sbi_free : Z -> ST S unit;
  sbi_init : Z -> ST S Z;
  sbi_fini : option (Z -> ST S Z);
  sbi_remount : option (Z -> ST S Z);
  root_evict : Z -> ST S unit }.
Arguments sbi_alloc {S}. Arguments sbi_free {S}. Arguments sbi_init {S}. Arguments sbi_fini {S}. Arguments sbi_remount {S}. Arguments root_evict {S}.
Arguments ZusZfiOperations {S}.
Record zus_fs_info (S : Type) := ZusFsInfo { zfi_op : zus_zfi_operations S; user_page_size : Z }.
Arguments zfi_op {S}. Arguments user_page_size {S}. Arguments ZusFsInfo {S}.
Definition SIZEOF_ZUS_PAGE : Z := 64.

Section mount.
Context {F : Type} `{MdApi} `{DevApi} `{MountSys}.
Notation M := (ST (mnt F)).

Definition get_sb (p : Z) : M zus_sb_info := load h_sb p.
Definition set_sb (p : Z) (f : zus_sb_info -> zus_sb_info) : M unit := update h_sb upd_h_sb p f.

(** ** Descriptors and mappings *)
(** The error and the descriptor, -1 when it failed. *)
Definition zuf_root_open_tmp : M (Z * Z) :=
  fds ← gets k_fds;
  match sys_open fds with
  | inl errno => mret (- errno, -1)
  | inr fd => modify (upd_k_fds (fun s => {[fd]} ∪ s));; mret (0, fd)
  end.
Definition close (fd : Z) : M unit := modify (upd_k_fds (fun s => s ∖ {[fd]})).
Definition zuf_root_close (fd : Z) : M Z := if 0 <=? fd then close fd;; mret (-1) else mret fd.
Definition mmap (size : Z) : M (Z + Z) :=
  maps ← gets k_maps;
  match sys_mmap maps size with
  | inl errno => mret (inl (if errno =? 0 then ENOMEM else errno))
  | inr a => modify (upd_k_maps (<[a := size]>));; mret (inr a)
  end.
(** What is left of the mapping [m] when [n] bytes at [a] are mapped no more. *)
Definition outside (a n : Z) (m : Z * Z) : list (Z * Z) :=
  if (m.1 + m.2 <=? a) || (a + n <=? m.1) then [m] else
  (if m.1 <? a then [(m.1, a - m.1)] else []) ++ (if a + n <? m.1 + m.2 then [(a + n, m.1 + m.2 - (a + n))] else []).
Definition unmap (a n : Z) (maps : gmap Z Z) : gmap Z Z := list_to_map (map_to_list maps ≫= outside a n).
(** munmap(2) refuses an address inside a page and an empty range, nothing else; the lengths
    are whole pages. *)
Definition munmap (a size : Z) : M Z :=
  if negb (a mod PAGE_SIZE =? 0) || (size <=? 0) then mret (- EINVAL) else modify (upd_k_maps (unmap a size));; mret 0.

Definition _pmem_map_size (b : zus_sb_info) : Z :=
  let size := md_p2o (blocks_t1 (sb_md b)) in if pi_shadow (sb_info b) then u64 (size + size) else size.
Definition _pmem_mmap (p : Z) : M Z :=
  b ← get_sb p;
  r ← mmap (_pmem_map_size b);
  match r with
  | inl errno => set_sb p (set_pmem_addr MAP_FAILED);; mret (- errno)
  | inr a => set_sb p (set_pmem_addr a);; mret 0
  end.
Definition _pmem_unmap (p : Z) : M Z := b ← get_sb p; munmap (p_pmem_addr (sb_md b)) (_pmem_map_size b).
Definition ALIGN (x a : Z) : Z := (x + a - 1) / a * a.
Definition _zpages_mmap_size (b : zus_sb_info) : Z := ALIGN (blocks_t1 (sb_md b) * SIZEOF_ZUS_PAGE) ZUFS_2M_SIZE.
Definition _zpages_mmap (p : Z) : M Z :=
  b ← get_sb p;
  r ← mmap (_zpages_mmap_size b);
  match r with
  | inl errno => set_sb p (set_sb_pages 0);; mret (- errno)
  | inr a => set_sb p (set_sb_pages a);; mret 0
  end.
Definition _zpages_unmap (p : Z) : M Z :=
  b ← get_sb p; if sb_pages b =? 0 then mret 0 else munmap (sb_pages b) (_zpages_mmap_size b).

(** ** The device *)
Definition md_init (p : Z) : M Z :=
  b ← get_sb p;
  r ← of_option (md_init_from_pmem_info map_mem.1 map_mem.2 (sb_md b));
  set_sb p (set_sb_md r.2);; mret r.1.
Definition _pmem_grab (zfi : zus_fs_info (mnt F)) (p sb_id : Z) : M Z :=
  r ← zuf_root_open_tmp;
  set_sb p (set_sb_fd r.2);;
  if negb (r.1 =? 0) then mret r.1 else
  let g := grab_pmem sb_id in
  set_sb p (set_sb_info g.2);;
  if negb (g.1 =? 0) then mret g.1 else
  err ← _pmem_mmap p;
  if negb (err =? 0) then mret err else
  err ← md_init p;
  if negb (err =? 0) then mret err else
  set_sb p (set_sb_dev_index (pi_dev_index g.2));;
  set_sb p (set_sb_page_size (user_page_size zfi));;
  if user_page_size zfi =? 0 then mret 0 else
  if negb (user_page_size zfi =? SIZEOF_ZUS_PAGE) then mret EINVAL else
  _zpages_mmap p.
(** md_fini only frees the maps. *)
Definition _pmem_ungrab (p : Z) : M unit :=
  _zpages_unmap p;;
  _pmem_unmap p;;
  b ← get_sb p;
  fd ← zuf_root_close (sb_fd b);
  set_sb p (set_sb_fd fd);;
  set_sb p (set_pmem_addr 0).
Definition _zus_sbi_fini (zfi : zus_fs_info (mnt F)) (p : Z) : M unit :=
  match sbi_fini (zfi_op zfi) with Some f => f p;; mret tt | None => mret tt end;;
  _pmem_ungrab p;;
  sbi_free (zfi_op zfi) p.
(** [zmi->zus_sbi], [zmi->_zi] and [zmi->zus_ii]. *)
Definition mount_reply (p : Z) : M (Z * Z * Z) :=
  b ← get_sb p;
  root ← of_option (sb_root b);
  mret (p, pmem_dpp_t (md_addr_to_offset root.2), root.1).

(** ** Mounts of the kernel *)
Definition zus_mount (zfi : zus_fs_info (mnt F)) (sb_id : Z) : M (Z * option (Z * Z * Z)) :=
  p ← sbi_alloc (zfi_op zfi);
  if p =? 0 then mret (- ENOMEM, None) else
  set_sb p (set_sb_id sb_id);;
  err ← _pmem_grab zfi p sb_id;
  err ← (if negb (err =? 0) then mret err else sbi_init (zfi_op zfi) p);
  if negb (err =? 0) then
    set_sb p (zus_sbi_set_flag ZUS_SBIF_ERROR);; _zus_sbi_fini zfi p;; mret (err, None)
  else r ← mount_reply p; mret (0, Some r).
Definition zus_umount (zfi : zus_fs_info (mnt F)) (p : Z) : M Z := _zus_sbi_fini zfi p;; mret 0.
Definition zus_remount (zfi : zus_fs_info (mnt F)) (p : Z) : M Z :=
  match sbi_remount (zfi_op zfi) with Some f => f p | None => mret 0 end.

(** ** Private mounts *)
Definition on_core {A} (m : CORE A) : M A := zoom k_core (fun c => upd_k_core (fun _ => c)) m.
Definition evict_root (zfi : zus_fs_info (mnt F)) (p : Z) : M unit :=
  b ← get_sb p; match sb_root b with Some r => root_evict (zfi_op zfi) r.1 | None => mret tt end.
(** The calls of zuf_call.h: a mount hangs on its descriptor.  With the error and the number
    of the super-block. *)
Definition zuf_private_mount (fd : Z) : M (Z * Z) :=
  if negb ((private_mount fd).1 =? 0) then mret (private_mount fd) else modify (upd_k_mounts (fun s => {[fd]} ∪ s));; mret (private_mount fd).
Definition zuf_private_umount (fd : Z) : M unit := modify (upd_k_mounts (fun s => s ∖ {[fd]})).
Definition zip_zero : zip := Zip 0 0 0 [] 0 0 0 0.
(** The labels at the end, in the order they fall through. *)
Definition fail (z err : Z) : M (Z * Z) := modify (upd_h_zip (delete z));; mret (err, 0).
Definition fail_fd (z err : Z) : M (Z * Z) := q ← load h_zip z; close (z_fd q);; fail z err.
Definition fail_alloc (z err : Z) : M (Z * Z) := on_core zus_thread_current_fini;; fail_fd z err.
Definition fail_mount (zfi : zus_fs_info (mnt F)) (z p err : Z) : M (Z * Z) := sbi_free (zfi_op zfi) p;; fail_alloc z err.
Definition fail_grab (zfi : zus_fs_info (mnt F)) (z p err : Z) : M (Z * Z) := q ← load h_zip z; zuf_private_umount (z_fd q);; fail_mount zfi z p err.
Definition fail_sbi_init (zfi : zus_fs_info (mnt F)) (z p err : Z) : M (Z * Z) :=
  evict_root zfi p;;
  match sbi_fini (zfi_op zfi) with Some f => f p;; mret tt | None => mret tt end;;
  _pmem_ungrab p;;
  fail_grab zfi z p err.
(** From [sbi_alloc] on; [fd] is the descriptor of the mount. *)
Definition private_setup (zfi : zus_fs_info (mnt F)) (z fd : Z) (options : list Z) (flags : Z) : M (Z * Z) :=
  p ← sbi_alloc (zfi_op zfi);
  if p =? 0 then fail_alloc z (- ENOMEM) else
  let zip_len := sizeof_zip + Z.of_nat (length options) + 1 in
  update h_zip upd_h_zip z (fun q => Zip (z_fd q) zip_len flags options (z_sb_id q) (z_sbi q) (z_zi q) (z_ii q));;
  g ← zuf_private_mount fd;
  if negb (g.1 =? 0) then fail_mount zfi z p g.1 else
  update h_zip upd_h_zip z (fun q => Zip (z_fd q) (z_in_len q) (z_flags q) (z_options q) g.2 (z_sbi q) (z_zi q) (z_ii q));;
  set_sb p (set_sb_id g.2);;
  err ← _pmem_grab zfi p g.2;
  if negb (err =? 0) then fail_grab zfi z p err else
  err ← sbi_init (zfi_op zfi) p;
  if negb (err =? 0) then set_sb p (zus_sbi_set_flag ZUS_SBIF_ERROR);; fail_sbi_init zfi z p err else
  m ← mount_reply p;
  update h_zip upd_h_zip z (fun q => Zip (z_fd q) (z_in_len q) (z_flags q) (z_options q) (z_sb_id q) m.1.1 m.1.2 m.2);;
  mret (0, z).
(** The error and [*zip_out]. *)
Definition zus_private_mount (zfi : zus_fs_info (mnt F)) (options : list Z) (flags : Z) : M (Z * Z) :=
  zips ← gets h_zip;
  match zip_mem zips with
  | None => mret (- ENOMEM, 0)
  | Some z =>
    modify (upd_h_zip (<[z := zip_zero]>));;
    r ← zuf_root_open_tmp;
    update h_zip upd_h_zip z (fun q => Zip r.2 (z_in_len q) (z_flags q) (z_options q) (z_sb_id q) (z_sbi q) (z_zi q) (z_ii q));;
    if negb (r.1 =? 0) then fail z r.1 else
    err ← on_core (zus_numa_map_init numa_answer);
    if negb (err =? 0) then fail_fd z err else
    zbts ← gets (fun s => h_zbt (k_core s));
    err ← on_core (zus_thread_current_init (zbt_mem zbts) current_cpu);
    if negb (err =? 0) then fail_fd z err else
    private_setup zfi z r.2 options flags
  end.
Definition zus_private_umount (zfi : zus_fs_info (mnt F)) (z : Z) : M Z :=
  q ← load h_zip z;
  evict_root zfi (z_sbi q);;
  err ← match sbi_fini (zfi_op zfi) with Some f => f (z_sbi q) | None => mret 0 end;
  _pmem_ungrab (z_sbi q);;
  zuf_private_umount (z_fd q);;
  sbi_free (zfi_op zfi) (z_sbi q);;
  on_core zus_thread_current_fini;;
  close (z_fd q);;
  modify (upd_h_zip (delete z));;
  mret err.
End mount.
