(* ===== verification/MountSpec.v ===== *)
(** * What a mount takes it gives back

    The descriptors, mappings and records a mount holds at every step, and the two ends:
    a failed mount and an unmount leave nothing; but a private mount that fails to grab
    the device does. *)

From S2P Require Import Prelude State Core CoreSpec Md MdInit Mount.

(** ** What the environment and the file system promise *)
(** Whole pages that no mapping touches. *)
Definition free_span (maps : gmap Z Z) (a n : Z) : Prop :=
  a mod PAGE_SIZE = 0 /\ 0 < n /\ maps !! a = None /\ forall x m, maps !! x = Some m -> x + m <= a \/ a + n <= x.
(** A mapping is made of pages that are free, and never at NULL; a device that is refused is
    not described. *)
Class MountSysLaws `{MountSys} : Prop := {
  sys_open_fresh fds fd : sys_open fds = inr fd -> 0 <= fd /\ fd ∉ fds;
  sys_open_errno fds e : sys_open fds = inl e -> 0 < e;
  sys_mmap_fresh maps n a : sys_mmap maps n = inr a -> a <> 0 /\ free_span maps a n;
  map_failed_odd : MAP_FAILED mod PAGE_SIZE <> 0;
  grab_refused n : (grab_pmem n).1 <> 0 -> t1_count (pi_list (grab_pmem n).2) = 0;
  sys_mmap_errno maps n e : sys_mmap maps n = inl e -> 0 <= e;
  zip_mem_fresh zips z : zip_mem zips = Some z -> z <> 0 /\ zips !! z = None;
  zbt_mem_fresh zbts z : zbt_mem zbts = Some z -> zbts !! z = None }.

(** What no operation of a file system touches. *)
Definition frame {F} (s s' : mnt F) : Prop :=
  k_fds s' = k_fds s /\ k_maps s' = k_maps s /\ k_mounts s' = k_mounts s /\ h_zip s' = h_zip s /\ k_core s' = k_core s.
Definition md_fresh `{MountSys} (m : multi_devices) : Prop := length (devs m) = MD_DEV_MAX /\ bn_gcd (t1a m) = 0 /\ bn_gcd (t2a m) = 0.
Definition sb_fresh `{MountSys} (b : zus_sb_info) : Prop :=
  p_pmem_addr (sb_md b) = 0 /\ sb_pages b = 0 /\ sb_root b = None /\ md_fresh (sb_md b) /\ t1_count (mdt_list (sb_md b)) = 0.
Definition with_root (r : option (Z * Z)) (b : zus_sb_info) : zus_sb_info :=
  ZusSbInfo (sb_md b) (sb_info b) (sb_fd b) (sb_pages b) (sb_user_page_size b) (sb_dev_index b) r (sb_flags b) (kern_sb_id b).
(** A new super-block is cleared memory; an operation is given one that exists; setting it up
    can only give it its root. *)
Class ZfiContract {F} `{MountSys} (ops : zus_zfi_operations (mnt F)) : Prop := {
  alloc_contract s : wp (sbi_alloc ops) s (fun p s' => frame s s' /\
    ((p = 0 /\ h_sb s' = h_sb s) \/ (p <> 0 /\ h_sb s !! p = None /\ exists b, sb_fresh b /\ h_sb s' = <[p := b]> (h_sb s))));
  free_contract s p b : h_sb s !! p = Some b -> wp (sbi_free ops p) s (fun _ s' => frame s s' /\ h_sb s' = delete p (h_sb s));
  init_contract s p b : h_sb s !! p = Some b -> wp (sbi_init ops p) s (fun err s' => frame s s' /\
    exists r, h_sb s' = <[p := with_root r b]> (h_sb s) /\ (err = 0 -> r <> None));
  fini_contract f s p b : sbi_fini ops = Some f -> h_sb s !! p = Some b -> wp (f p) s (fun err s' => frame s s' /\ h_sb s' = h_sb s);
  evict_contract s z : wp (root_evict ops z) s (fun _ s' => frame s s' /\ h_sb s' = h_sb s) }.

Section spec.
Context {F : Type} `{DevLaws} `{MountSysLaws}.
Implicit Types (s t : mnt F) (b : zus_sb_info).

(** ** The resources of a super-block *)
(** Only the table of devices decides how much is mapped. *)
Definition sizes_of b : Z * Z := (_pmem_map_size b, _zpages_mmap_size b).
Lemma sizes_of_eq b b' : mdt_list (sb_md b') = mdt_list (sb_md b) -> sb_info b' = sb_info b -> sizes_of b' = sizes_of b.
Proof. intros E1 E2. by rewrite /sizes_of /_pmem_map_size /_zpages_mmap_size !blocks_t1_sum E1 E2. Qed.
Definition holds_fd s0 s b : Prop :=
  (k_fds s = k_fds s0 /\ sb_fd b < 0) \/ (k_fds s = {[sb_fd b]} ∪ k_fds s0 /\ sb_fd b ∉ k_fds s0 /\ 0 <= sb_fd b).
Definition holds_maps s0 s b : Prop :=
  exists maps, (maps = k_maps s0 /\ (_pmem_map_size b = 0 \/ p_pmem_addr (sb_md b) = MAP_FAILED) \/
      maps = <[p_pmem_addr (sb_md b) := _pmem_map_size b]> (k_maps s0) /\ free_span (k_maps s0) (p_pmem_addr (sb_md b)) (_pmem_map_size b)) /\
    (k_maps s = maps /\ sb_pages b = 0 \/
     k_maps s = <[sb_pages b := _zpages_mmap_size b]> maps /\ free_span maps (sb_pages b) (_zpages_mmap_size b) /\ sb_pages b <> 0).
(** [s] is [s0] with the super-block [b] at [p] and what it holds. *)
Definition opened s0 s (p : Z) b : Prop :=
  h_sb s = <[p := b]> (h_sb s0) /\ h_sb s0 !! p = None /\ holds_fd s0 s b /\
  k_mounts s = k_mounts s0 /\ h_zip s = h_zip s0 /\ k_core s = k_core s0.
Definition holds s0 s (p : Z) b : Prop :=
  h_sb s = <[p := b]> (h_sb s0) /\ h_sb s0 !! p = None /\ holds_fd s0 s b /\ holds_maps s0 s b /\
  k_mounts s = k_mounts s0 /\ h_zip s = h_zip s0 /\ k_core s = k_core s0.
Lemma no_blocks b : t1_count (mdt_list (sb_md b)) = 0 -> _pmem_map_size b = 0.
Proof. intros E. by rewrite /_pmem_map_size blocks_t1_sum E p2o_page /u64; destruct (pi_shadow (sb_info b)). Qed.
Lemma opened_holds s0 s p b : opened s0 s p b -> k_maps s = k_maps s0 -> sb_pages b = 0 -> _pmem_map_size b = 0 -> holds s0 s p b.
Proof.
  intros (E & Hp & Hfd & Er) Em Ep Es. split; [done|]. split; [done|]. split; [done|]. split; [|done].
  exists (k_maps s0). split; left; [|done]. split; [done|by left].
Qed.

Lemma holds_upd s0 s p b f : holds s0 s p b -> sb_fd (f b) = sb_fd b -> sb_pages (f b) = sb_pages b ->
  p_pmem_addr (sb_md (f b)) = p_pmem_addr (sb_md b) -> sizes_of (f b) = sizes_of b ->
  holds s0 (upd_h_sb (<[p := f b]>) s) p (f b).
Proof.
  intros (E & Hp & Hfd & (maps & Hm1 & Hm2) & Er) E1 E2 E3 [= E4 E5]. split.
  { destruct s; cbn in *. by rewrite E insert_insert_eq. }
  split; [done|]. split; [destruct s; by rewrite /holds_fd E1|]. split; [|by destruct s].
  exists maps. rewrite E2 E3 E4 E5. by destruct s.
Qed.
Lemma wp_set_sb s0 s p b f (Q : unit -> mnt F -> Prop) : holds s0 s p b -> Q tt (upd_h_sb (<[p := f b]>) s) -> wp (set_sb p f) s Q.
Proof. intros (E & _) HQ. eapply wp_update; [rewrite E; apply lookup_insert_eq|done]. Qed.
Lemma holds_lookup s0 s p b : holds s0 s p b -> h_sb s !! p = Some b.
Proof. intros (E & _). rewrite E. apply lookup_insert_eq. Qed.
Lemma holds_frame s0 s s' p b : holds s0 s p b -> frame s s' -> h_sb s' = h_sb s -> holds s0 s' p b.
Proof.
  intros (E & Hp & Hfd & Hm & E1 & E2 & E3) (F1 & F2 & F3 & F4 & F5) Es. split; [by rewrite Es|]. split; [done|].
  split; [by rewrite /holds_fd F1|]. split; [by rewrite /holds_maps F2|]. by rewrite F3 F4 F5.
Qed.

(** ** Giving everything back *)
(** Unmapping what was mapped last. *)
Lemma unmap_own maps a n : free_span maps a n -> unmap a n (<[a := n]> maps) = maps.
Proof.
  intros (_ & Hn & Ha & Hdis). rewrite /unmap.
  assert (Hp : map_to_list (<[a := n]> maps) ≫= outside a n ≡ₚ map_to_list maps).
  { rewrite map_to_list_insert //. cbn [mbind list_bind]. assert (outside a n (a, n) = []) as ->.
    { rewrite /outside /=. destruct (Z.leb_spec (a + n) a), (Z.ltb_spec a a), (Z.ltb_spec (a + n) (a + n)); cbn; (lia || done). }
    cbn [app]. assert (Hall : forall x, x ∈ map_to_list maps -> outside a n x = [x]).
    { intros [x m] Hx%elem_of_map_to_list. rewrite /outside /=. destruct (Hdis x m Hx) as [?|?]; [rewrite (proj2 (Z.leb_le _ _)) //|rewrite (proj2 (Z.leb_le (a + n) x)) // orb_true_r //]. }
    revert Hall. induction (map_to_list maps) as [|x l IH]; [done|]. intros Hall. cbn [mbind list_bind].
    rewrite Hall; [by left|]. cbn [app]. f_equiv. apply IH. intros y Hy. apply Hall. by right. }
  rewrite (list_to_map_proper _ (map_to_list maps)) ?list_to_map_to_list //. rewrite Hp. apply NoDup_fst_map_to_list.
Qed.
Lemma wp_munmap_own s a n maps (Q : Z -> mnt F -> Prop) : k_maps s = <[a := n]> maps -> free_span maps a n ->
  Q 0 (upd_k_maps (fun _ => maps) s) -> wp (munmap a n) s Q.
Proof.
  intros E Hf HQ. pose proof Hf as (Ha & Hn & _). rewrite /munmap Ha (proj2 (Z.leb_gt n 0) Hn). cbn [negb orb Z.eqb]. wp_steps.
  destruct s; cbn in *. by rewrite /upd_k_maps /= E unmap_own.
Qed.
Lemma wp_munmap_none s a n (Q : Z -> mnt F -> Prop) : a mod PAGE_SIZE <> 0 \/ n = 0 -> Q (- EINVAL) s -> wp (munmap a n) s Q.
Proof.
  intros Hor HQ. rewrite /munmap. assert (negb (a mod PAGE_SIZE =? 0) || (n <=? 0) = true) as ->; [|by wp_step].
  apply orb_true_iff. destruct Hor as [Ha| ->]; [left|by right]. by apply negb_true_iff, Z.eqb_neq.
Qed.
Lemma wp_pmem_ungrab s0 s p b (Q : unit -> mnt F -> Prop) : holds s0 s p b ->
  (forall s' b', frame s0 s' -> h_sb s' = <[p := b']> (h_sb s0) -> fs s' = fs s -> Q tt s') -> wp (_pmem_ungrab p) s Q.
Proof.
  intros Hh HQ. rewrite /_pmem_ungrab /_zpages_unmap /_pmem_unmap /get_sb. pose proof (holds_lookup _ _ _ _ Hh) as Eb.
  destruct Hh as (E & Hp & Hfd & (maps & Hm1 & Hm2) & E1 & E2 & E3). unfold holds_fd in Hfd.
  assert (Hmaps : forall (K : mnt F -> Prop) s1, s1 = upd_k_maps (fun _ => maps) s -> K (upd_k_maps (fun _ => k_maps s0) s) ->
    wp (munmap (p_pmem_addr (sb_md b)) (_pmem_map_size b)) s1 (fun _ => K)).
  { intros K s1 -> HK. destruct Hm1 as [(-> & Hor)|(-> & Hno)]; [|by eapply wp_munmap_own].
    apply wp_munmap_none; [|done]. destruct Hor as [Ea|Ea]; [by right|left]. rewrite Ea. apply map_failed_odd. }
  assert (Hgo : forall s1, s1 = upd_k_maps (fun _ => maps) s -> wp (b ← load h_sb p; munmap (p_pmem_addr (sb_md b)) (_pmem_map_size b)) s1 (fun _ s2 =>
    wp (b ← load h_sb p; fd ← zuf_root_close (sb_fd b); set_sb p (set_sb_fd fd);; set_sb p (set_pmem_addr 0)) s2 Q)).
  { intros s1 ->. apply wp_bind. eapply wp_load; [destruct s; exact Eb|]. apply Hmaps; [done|].
    apply wp_bind. eapply wp_load; [destruct s; exact Eb|]. rewrite /zuf_root_close /close. apply wp_bind.
    rewrite /set_sb. destruct (Z.leb_spec 0 (sb_fd b)) as [L|L]; wp_steps; try (destruct s; exact Eb); try (destruct s; apply lookup_insert_eq).
    all: eapply HQ; [|destruct s; cbn in *; rewrite insert_insert_eq E insert_insert_eq; done|by destruct s].
    all: destruct s; cbn in *; split_and!; try done; cbn.
    - destruct Hfd as [[_ ?]|(-> & Hn & _)]; [lia|]. set_solver.
    - destruct Hfd as [[-> _]|(_ & _ & ?)]; [done|lia]. }
  apply wp_bind, wp_bind. eapply wp_load; [exact Eb|]. destruct (Z.eqb_spec (sb_pages b) 0) as [Ep|Ep].
  - apply wp_ret. apply wp_bind. apply Hgo. destruct Hm2 as [[Em _]|(_ & _ & ?)]; [|done]. destruct s; cbn in *. by rewrite Em.
  - destruct Hm2 as [[_ ?]|(Em & Hno & _)]; [done|]. eapply wp_munmap_own; [exact Em|exact Hno|]. by apply wp_bind, Hgo.
Qed.

(** ** Taking it *)
Lemma md_init_keeps m1 m2 md r : md_init_from_pmem_info m1 m2 md = Some r -> mdt_list r.2 = mdt_list md /\ p_pmem_addr r.2 = p_pmem_addr md.
Proof.
  assert (HI : forall n get upd i o a m m', (forall f x, mdt_list (upd f x) = mdt_list x /\ p_pmem_addr (upd f x) = p_pmem_addr x) ->
    init_devs n i o a get upd m = Some m' -> mdt_list m' = mdt_list m /\ p_pmem_addr m' = p_pmem_addr m).
  { intros n get upd i o a m m' Hu. revert i o m. induction n as [|n IH]; intros i o m; cbn [init_devs]; [by intros [= <-]|].
    destruct (devs m !! _); [|done]. destruct (dev_ids _ !! _); [|done]. cbn. destruct (_gcd _ _); [|done]. cbn.
    intros Hr. destruct (IH _ _ _ Hr) as [-> ->]. by rewrite !(proj1 (Hu _ _)) !(proj2 (Hu _ _)). }
  assert (HU : (forall f x, mdt_list (upd_t1a f x) = mdt_list x /\ p_pmem_addr (upd_t1a f x) = p_pmem_addr x) /\
               (forall f x, mdt_list (upd_t2a f x) = mdt_list x /\ p_pmem_addr (upd_t2a f x) = p_pmem_addr x)) by done.
  rewrite /md_init_from_pmem_info. intros Hr. set (md0 := MultiDevices _ _ _ _ _ _ _) in Hr.
  destruct (init_devs _ _ _ _ t1a _ md0) as [a|] eqn:Ea; [|done]. apply HI in Ea as [A1 A2]; [|apply HU].
  cbn [mbind option_bind] in Hr. destruct (init_devs _ _ _ _ t2a _ a) as [b|] eqn:Eb; [|done]. apply HI in Eb as [B1 B2]; [|apply HU].
  change (mdt_list md) with (mdt_list md0). change (p_pmem_addr md) with (p_pmem_addr md0). rewrite -A1 -A2 -B1 -B2.
  clear -Hr. cbn [mbind option_bind] in Hr. destruct (negb (m_t1_count b =? 0)); [destruct (_map_setup m1 _ _ _ _) as [[e1 a1]|]; [|done]|]; cbn in Hr.
  - destruct (negb (e1 =? 0)); [by injection Hr as <-|]. destruct (negb (m_t2_count b =? 0)); [|by injection Hr as <-].
    cbn in Hr. destruct (_map_setup m2 _ _ _ _) as [[e2 a2]|]; [|done]. by injection Hr as <-.
  - destruct (negb (m_t2_count b =? 0)); [|by injection Hr as <-].
    cbn in Hr. destruct (_map_setup m2 _ _ _ _) as [[e2 a2]|]; [|done]. by injection Hr as <-.
Qed.

(** The table the kernel hands out can be set up (MdInit.v: when every device has blocks and
    there are fewer than 2^32). *)
Definition md_ready (l : md_dev_list) : Prop := forall md, mdt_list md = l -> md_fresh md -> is_Some (md_init_from_pmem_info map_mem.1 map_mem.2 md).

Lemma wp_mmap s n (Q : Z + Z -> mnt F -> Prop) : (forall e, 0 < e -> Q (inl e) s) ->
  (forall a, free_span (k_maps s) a n -> a <> 0 -> Q (inr a) (upd_k_maps (<[a := n]>) s)) -> wp (mmap n) s Q.
Proof.
  intros He Ha. rewrite /mmap. wp_step. wp_step. destruct (sys_mmap (k_maps s) n) as [e|a] eqn:E.
  - wp_step. apply He. pose proof (sys_mmap_errno _ _ _ E). destruct (Z.eqb_spec e 0); unfold ENOMEM; lia.
  - destruct (sys_mmap_fresh _ _ _ E) as (?&?). wp_steps. by apply Ha.
Qed.
(** Steps of [_pmem_grab] keep these. *)
Definition same_sb b b' : Prop := sb_fd b' = sb_fd b /\ sb_root b' = sb_root b /\ mdt_list (sb_md b') = mdt_list (sb_md b) /\ sb_info b' = sb_info b.
Lemma wp_pmem_mmap s0 s p b (Q : Z -> mnt F -> Prop) :
  opened s0 s p b -> k_maps s = k_maps s0 -> sb_pages b = 0 ->
  (forall err s' b', holds s0 s' p b' -> fs s' = fs s -> same_sb b b' -> sb_pages b' = 0 -> (md_fresh (sb_md b) -> md_fresh (sb_md b')) -> err = 0 \/ err < 0 -> Q err s') ->
  wp (_pmem_mmap p) s Q.
Proof.
  intros Hh Em Ep HQ. assert (Eb : h_sb s !! p = Some b) by (destruct Hh as (E & _); rewrite E; apply lookup_insert_eq). rewrite /_pmem_mmap /get_sb. apply wp_bind. eapply wp_load; [exact Eb|].
  destruct Hh as (A1 & A2 & A3 & A6). apply wp_bind, wp_mmap.
  - intros e He. apply wp_bind. eapply wp_update; [exact Eb|]. apply wp_ret. apply (HQ _ _ (set_pmem_addr MAP_FAILED b)); [|by destruct s|done|done|done|by right; lia].
    split; [destruct s; cbn in *; by rewrite A1 insert_insert_eq|]. split; [done|]. split; [by destruct s|]. split; [|by destruct s].
    exists (k_maps s0). split; [left; split; [done|by right]|]. left. by destruct s.
  - intros a Ha Ha0. apply wp_bind. eapply wp_update; [destruct s; exact Eb|]. apply wp_ret. apply (HQ _ _ (set_pmem_addr a b)); [|by destruct s|done|done|done|by left].
    split; [destruct s; cbn in *; by rewrite A1 insert_insert_eq|]. split; [done|]. split; [by destruct s|]. split; [|by destruct s].
    assert (Es : _pmem_map_size (set_pmem_addr a b) = _pmem_map_size b) by (by injection (sizes_of_eq b (set_pmem_addr a b) eq_refl eq_refl)).
    exists (<[a := _pmem_map_size b]> (k_maps s0)). rewrite Es. rewrite Em in Ha. split; [right; by split|]. left. split; [|done]. destruct s; cbn in *. by rewrite Em.
Qed.
Lemma wp_zpages_mmap s0 s p b (Q : Z -> mnt F -> Prop) :
  holds s0 s p b -> sb_pages b = 0 ->
  (forall err s' b', holds s0 s' p b' -> fs s' = fs s -> same_sb b b' -> err = 0 \/ err < 0 -> Q err s') ->
  wp (_zpages_mmap p) s Q.
Proof.
  intros Hh Ep HQ. pose proof (holds_lookup _ _ _ _ Hh) as Eb. rewrite /_zpages_mmap /get_sb. apply wp_bind. eapply wp_load; [exact Eb|].
  pose proof Hh as (A1 & A2 & A3 & (maps & A4 & A5) & A6). destruct A5 as [[A5 _]|(_ & _ & ?)]; [|done]. apply wp_bind, wp_mmap.
  - intros e He. apply wp_bind. eapply wp_update; [exact Eb|]. apply wp_ret. apply (HQ _ _ (set_sb_pages 0 b)); [|by destruct s|done|by right; lia].
    by apply holds_upd.
  - intros a Ha Ha0. apply wp_bind. eapply wp_update; [destruct s; exact Eb|]. apply wp_ret. apply (HQ _ _ (set_sb_pages a b)); [|by destruct s|done|by left].
    split; [destruct s; cbn in *; by rewrite A1 insert_insert_eq|]. split; [done|]. split; [by destruct s|]. split; [|by destruct s].
    exists maps. split; [exact A4|]. right. rewrite A5 in Ha. split; [|by split]. destruct s; cbn in *. by rewrite A5.
Qed.
Lemma same_sb_trans b1 b2 b3 : same_sb b1 b2 -> same_sb b2 b3 -> same_sb b1 b3.
Proof. rewrite /same_sb. intros (E1&E2&E3&E4) (E5&E6&E7&E8). by rewrite E5 E6 E7 E8. Qed.
Lemma same_sb_sizes b b' : same_sb b b' -> sizes_of b' = sizes_of b.
Proof. intros (_&_&E1&E2). by apply sizes_of_eq. Qed.
Lemma wp_grab_rest s0 s p b (zfi : zus_fs_info (mnt F)) di (Q : Z -> mnt F -> Prop) :
  holds s0 s p b -> sb_pages b = 0 -> md_ready (mdt_list (sb_md b)) -> md_fresh (sb_md b) ->
  (forall err s' b', holds s0 s' p b' -> fs s' = fs s -> same_sb b b' -> Q err s') ->
  wp (err ← md_init p;
    if negb (err =? 0) then mret err else
    set_sb p (set_sb_dev_index di);;
    set_sb p (set_sb_page_size (user_page_size zfi));;
    if user_page_size zfi =? 0 then mret 0 else
    if negb (user_page_size zfi =? SIZEOF_ZUS_PAGE) then mret EINVAL else
    _zpages_mmap p) s Q.
Proof.
  intros Hh Ep Hmd Hmf HQ. rewrite /md_init /get_sb. apply wp_bind, wp_bind. eapply wp_load; [by eapply holds_lookup|].
  destruct (Hmd (sb_md b) eq_refl Hmf) as [r Er]. destruct (md_init_keeps _ _ _ _ Er) as [K1 K2]. rewrite Er. apply wp_bind, wp_ret, wp_bind.
  eapply wp_set_sb; [exact Hh|]. set (b1 := set_sb_md r.2 b). assert (S1 : same_sb b b1) by by split_and!.
  assert (Hh1 : holds s0 (upd_h_sb (<[p := b1]>) s) p b1) by (apply (holds_upd s0 s p b (set_sb_md r.2)); [done|done|done|done|by apply same_sb_sizes]).
  apply wp_ret. destruct (negb (r.1 =? 0)); [apply wp_ret; eapply HQ; [exact Hh1|by destruct s|done]|].
  apply wp_bind. eapply wp_set_sb; [exact Hh1|]. set (b2 := set_sb_dev_index di b1). assert (S2 : same_sb b b2) by by split_and!.
  pose proof (holds_upd _ _ _ _ (set_sb_dev_index di) Hh1 eq_refl eq_refl eq_refl eq_refl) as Hh2. fold b2 in Hh2 |- *.
  apply wp_bind. eapply wp_set_sb; [exact Hh2|]. set (b3 := set_sb_page_size _ b2). assert (S3 : same_sb b b3) by by split_and!.
  pose proof (holds_upd _ _ _ _ (set_sb_page_size (user_page_size zfi)) Hh2 eq_refl eq_refl eq_refl eq_refl) as Hh3. fold b3 in Hh3 |- *.
  repeat case_match; try (apply wp_ret; eapply HQ; [exact Hh3|by destruct s|done]).
  eapply wp_zpages_mmap; [exact Hh3|done|]. intros err s' b' Hh' Ef Hs _. eapply HQ; [exact Hh'|rewrite Ef; by destruct s|by eapply same_sb_trans].
Qed.

Lemma wp_pmem_grab s0 s p b (zfi : zus_fs_info (mnt F)) id (Q : Z -> mnt F -> Prop) :
  h_sb s = <[p := b]> (h_sb s0) -> h_sb s0 !! p = None -> frame s0 s -> sb_fresh b -> md_ready (pi_list (grab_pmem id).2) ->
  (forall err s' b', holds s0 s' p b' -> fs s' = fs s -> sb_root b' = None -> (0 <= sb_fd b' \/ err < 0) ->
     ((grab_pmem id).1 <> 0 -> err <> 0) -> Q err s') ->
  wp (_pmem_grab zfi p id) s Q.
Proof.
  intros E Hp (F1 & F2 & F3 & F4 & F5) (Ba & Bp & Br & Bm & Bt) Hmd HQ. rewrite /_pmem_grab /zuf_root_open_tmp. apply wp_bind. wp_step. wp_step.
  destruct (sys_open (k_fds s)) as [e|fd] eqn:Eo.
  - wp_step. apply wp_bind. eapply wp_update; [rewrite E; apply lookup_insert_eq|]. cbn [fst snd].
    pose proof (sys_open_errno _ _ Eo). rewrite (proj2 (Z.eqb_neq (- e) 0)); [lia|]. cbn [negb]. apply wp_ret.
    eapply (HQ _ _ (set_sb_fd (-1) b)); [|by destruct s|done|by right; lia|lia].
    apply opened_holds; [|by destruct s|done|by apply no_blocks].
    split; [destruct s; cbn in *; by rewrite E insert_insert_eq|]. split; [done|]. split; [left; by destruct s|]. by destruct s.
  - destruct (sys_open_fresh _ _ Eo) as [Hfd Hfresh]. wp_step. wp_step. apply wp_bind. eapply wp_update; [destruct s; cbn in *; rewrite E; apply lookup_insert_eq|].
    cbn [fst snd]. rewrite Z.eqb_refl. cbn [negb]. set (b1 := set_sb_fd fd b). set (s1 := upd_h_sb _ _).
    assert (E1 : h_sb s1 = <[p := b1]> (h_sb s0)) by (destruct s; cbn in *; by rewrite E insert_insert_eq).
    apply wp_bind. eapply wp_update; [rewrite E1; apply lookup_insert_eq|]. set (b2 := set_sb_info _ b1). set (s2 := upd_h_sb _ s1).
    assert (Hh2 : opened s0 s2 p b2).
    { split; [destruct s1; cbn in *; by rewrite E1 insert_insert_eq|]. split; [done|].
      split; [right; destruct s; cbn in *; subst; by split_and!|]. by destruct s. }
    assert (Ef : fs s2 = fs s) by by destruct s. destruct (Z.eqb_spec (grab_pmem id).1 0) as [Eg|Eg]; cbn [negb].
    2: { apply wp_ret. eapply (HQ _ _ b2); [|exact Ef|done|by left|done].
         apply opened_holds; [exact Hh2|by destruct s|done|]. apply no_blocks. by apply grab_refused. }
    apply wp_bind. eapply wp_pmem_mmap; [exact Hh2|by destruct s; cbn in *; subst|done|].
    intros err s3 b3 Hh3 Ef3 (S1 & S2 & S3 & S4) Hp3 Hmf Herr. destruct (Z.eqb_spec err 0) as [->|Hne]; cbn [negb].
    + eapply wp_grab_rest; [exact Hh3|done|by rewrite S3|by apply Hmf|]. intros e s4 b4 Hh4 Ef4 (T1 & T2 & _). eapply HQ; [exact Hh4|by rewrite Ef4 Ef3|by rewrite T2 S2|left; by rewrite T1 S1|done].
    + apply wp_ret. eapply HQ; [exact Hh3|by rewrite Ef3|by rewrite S2|left; by rewrite S1|done].
Qed.

(** ** Mounts of the kernel *)
Section zfi.
Context (zfi : zus_fs_info (mnt F)) `{!ZfiContract (zfi_op zfi)}.

Lemma frame_refl s : frame s s.
Proof. done. Qed.
Lemma wp_sbi_fini_op s p b (Q : unit -> mnt F -> Prop) : h_sb s !! p = Some b ->
  (forall s', frame s s' -> h_sb s' = h_sb s -> Q tt s') -> wp (match sbi_fini (zfi_op zfi) with Some f => f p;; mret tt | None => mret tt end) s Q.
Proof.
  intros Eb HQ. destruct (sbi_fini (zfi_op zfi)) as [f|] eqn:Ef; [|apply wp_ret; by apply HQ; [apply frame_refl|]].
  apply wp_bind. eapply wp_mono; [by eapply fini_contract|]. intros e s' [Hf Es]. by apply wp_ret, HQ.
Qed.
Lemma frame_trans s1 s2 s3 : frame s1 s2 -> frame s2 s3 -> frame s1 s3.
Proof. rewrite /frame. intros (E1&E2&E3&E4&E5) (F1&F2&F3&F4&F5). by rewrite F1 F2 F3 F4 F5. Qed.
Lemma wp_sbi_fini_all s0 s p b (Q : unit -> mnt F -> Prop) : holds s0 s p b ->
  (forall s', frame s0 s' -> h_sb s' = h_sb s0 -> Q tt s') -> wp (_zus_sbi_fini zfi p) s Q.
Proof.
  intros Hh HQ. rewrite /_zus_sbi_fini. apply wp_bind. eapply wp_sbi_fini_op; [by eapply holds_lookup|]. intros s1 Hf1 E1.
  apply wp_bind. eapply wp_pmem_ungrab; [by eapply holds_frame|]. intros s2 b' Hf2 E2 _.
  eapply wp_mono; [eapply free_contract; rewrite E2; apply lookup_insert_eq|]. intros u s3 [Hf3 E3]. destruct u. apply HQ; [by eapply frame_trans|].
  rewrite E3 E2. apply delete_insert_id. by destruct Hh as (_ & ? & _).
Qed.
Lemma holds_root s0 s s' p b r : holds s0 s p b -> frame s s' -> h_sb s' = <[p := with_root r b]> (h_sb s) -> holds s0 s' p (with_root r b).
Proof.
  intros Hh Hf E. pose proof (holds_upd _ _ _ _ (with_root r) Hh eq_refl eq_refl eq_refl eq_refl) as Hh'.
  eapply holds_frame; [exact Hh'| |]; [by destruct s|]. rewrite E. by destruct s.
Qed.

(** C15: a mount is all or nothing.  When a step fails, whichever it is, the descriptor,
    the mappings and the super-block taken so far are given back and the error is
    reported; when all succeed the reply has the root, and the unmount leaves the
    descriptors, the mappings and the records as they were before the mount. *)
Theorem zus_mount_spec (sb_id : Z) s : md_ready (pi_list (grab_pmem sb_id).2) ->
  wp (zus_mount zfi sb_id) s (fun r s' =>
    (r.1 <> 0 -> r.2 = None /\ frame s s' /\ h_sb s' = h_sb s) /\
    (r.1 = 0 -> exists p a i, r.2 = Some (p, a, i) /\
      wp (zus_umount zfi p) s' (fun err s'' => err = 0 /\ frame s s'' /\ h_sb s'' = h_sb s))).
Proof.
  intros Hmd. match goal with |- wp _ s ?P => set (Q := P) end. rewrite /zus_mount. apply wp_bind. eapply wp_mono; [apply alloc_contract|].
  intros p s1 (Hf1 & [[-> E1]|(Hp0 & Hp & b & Hb & E1)]).
  { apply wp_ret. by split. }
  rewrite (proj2 (Z.eqb_neq _ _) Hp0). apply wp_bind. eapply wp_update; [rewrite E1; apply lookup_insert_eq|].
  apply wp_bind. eapply (wp_pmem_grab s _ p (set_sb_id sb_id b)); [destruct s1; cbn in *; by rewrite E1 insert_insert_eq|done|by destruct s1|done|done|].
  intros err s2 b2 Hh2 _ _ _ _. apply wp_bind.
  assert (Hbad : forall s3 b3 e, holds s s3 p b3 -> e <> 0 -> wp (set_sb p (zus_sbi_set_flag ZUS_SBIF_ERROR);; _zus_sbi_fini zfi p;; mret (e, None)) s3 Q).
  { intros s3 b3 e Hh3 He. apply wp_bind. eapply wp_set_sb; [exact Hh3|].
    pose proof (holds_upd _ _ _ _ (zus_sbi_set_flag ZUS_SBIF_ERROR) Hh3 eq_refl eq_refl eq_refl eq_refl) as Hh4.
    apply wp_bind. eapply wp_sbi_fini_all; [exact Hh4|]. intros s' Hf' E'. apply wp_ret. by split. }
  destruct (Z.eqb_spec err 0) as [->|Hne]; cbn [negb].
  2: { apply wp_ret. rewrite (proj2 (Z.eqb_neq _ _) Hne). by eapply Hbad. }
  eapply wp_mono; [eapply init_contract; by eapply holds_lookup|]. intros e s3 (Hf3 & r & E3 & Hr). pose proof (holds_root _ _ _ _ _ _ Hh2 Hf3 E3) as Hh3.
  destruct (Z.eqb_spec e 0) as [->|Hne]; cbn [negb]; [|by eapply Hbad].
  apply wp_bind. rewrite /mount_reply /get_sb. apply wp_bind. eapply wp_load; [by eapply holds_lookup|]. cbn [sb_root with_root].
  destruct r as [[rz rzi]|]; [|by destruct (Hr eq_refl)]. apply wp_bind, wp_ret, wp_ret, wp_ret. split; [done|]. intros _. eexists _, _, _. split; [done|].
  rewrite /zus_umount. apply wp_bind. eapply wp_sbi_fini_all; [exact Hh3|]. intros s' Hf' E'. by apply wp_ret.
Qed.

(** ** Private mounts *)
(** The thread joined zus, and the request [q] is at [z]. *)
Definition joined s t (z : Z) (q : zip) : Prop :=
  h_zip t = <[z := q]> (h_zip s) /\ h_zip s !! z = None /\
  exists zb r, specific (k_core t) = Some zb /\ h_zbt (k_core t) = <[zb := r]> (h_zbt (k_core s)) /\ h_zbt (k_core s) !! zb = None.
(** The records are as in [s]; the rest as said. *)
Definition left_with s s' (fds : gset Z) (maps : gmap Z Z) (mounts : gset Z) (sbs : gmap Z zus_sb_info) : Prop :=
  h_zip s' = h_zip s /\ specific (k_core s') = None /\ h_zbt (k_core s') = h_zbt (k_core s) /\
  k_fds s' = fds /\ k_maps s' = maps /\ k_mounts s' = mounts /\ h_sb s' = sbs.
Lemma wp_leave s t z q err (Q : Z * Z -> mnt F -> Prop) : joined s t z q ->
  (forall s', left_with s s' (k_fds t ∖ {[z_fd q]}) (k_maps t) (k_mounts t) (h_sb t) -> Q (err, 0) s') -> wp (fail_alloc z err) t Q.
Proof.
  intros (E1 & Hz & zb & r & E2 & E3 & Hzb) HQ. rewrite /fail_alloc /fail_fd /fail /close /on_core /zus_thread_current_fini.
  apply wp_bind, wp_zoom. apply wp_bind, wp_gets. rewrite E2. wp_steps; [destruct t; cbn in *; rewrite E1; apply lookup_insert_eq|]. wp_steps.
  apply HQ. destruct t as [? ? ? ? ? core ?], core. cbn in *. subst. rewrite /left_with /=. by rewrite !delete_insert_id.
Qed.
Lemma joined_frame s t t' z q : joined s t z q -> frame t t' -> joined s t' z q.
Proof. intros (E1 & E2 & E3) (_ & _ & _ & F4 & F5). by rewrite /joined F4 F5. Qed.
Lemma joined_zip s t z q f : joined s t z q -> h_zip t !! z = Some q /\ joined s (upd_h_zip (<[z := f q]>) t) z (f q).
Proof. intros (E1 & E2 & E3). split; [by rewrite E1 lookup_insert_eq|]. destruct t; cbn in *. by rewrite /joined /= E1 insert_insert_eq. Qed.

Lemma wp_fail_mount s t z q p b err (Q : Z * Z -> mnt F -> Prop) : joined s t z q -> h_sb t !! p = Some b ->
  (forall s', left_with s s' (k_fds t ∖ {[z_fd q]}) (k_maps t) (k_mounts t) (delete p (h_sb t)) -> Q (err, 0) s') -> wp (fail_mount zfi z p err) t Q.
Proof.
  intros Hj Eb HQ. rewrite /fail_mount. apply wp_bind. eapply wp_mono; [by eapply free_contract|]. intros _ t' [Hf Es].
  eapply wp_leave; [by eapply joined_frame|]. destruct Hf as (F1 & F2 & F3 & _). rewrite F1 F2 F3 Es. exact HQ.
Qed.
Lemma wp_fail_grab s t z q p b err (Q : Z * Z -> mnt F -> Prop) : joined s t z q -> h_sb t !! p = Some b ->
  (forall s', left_with s s' (k_fds t ∖ {[z_fd q]}) (k_maps t) (k_mounts t ∖ {[z_fd q]}) (delete p (h_sb t)) -> Q (err, 0) s') -> wp (fail_grab zfi z p err) t Q.
Proof.
  intros Hj Eb HQ. rewrite /fail_grab. apply wp_bind. eapply wp_load; [by apply (joined_zip s t z q id)|].
  apply wp_bind. rewrite /zuf_private_umount. apply wp_modify. set (t1 := upd_k_mounts _ t).
  eapply (wp_fail_mount s t1 z q p b); [by destruct t|by destruct t|]. by destruct t.
Qed.
(** The same, written out in an unmount. *)
Lemma wp_teardown s t z q p b err (Q : Z -> mnt F -> Prop) : joined s t z q -> h_sb t !! p = Some b ->
  (forall s', left_with s s' (k_fds t ∖ {[z_fd q]}) (k_maps t) (k_mounts t ∖ {[z_fd q]}) (delete p (h_sb t)) -> Q err s') ->
  wp (zuf_private_umount (z_fd q);; sbi_free (zfi_op zfi) p;; on_core zus_thread_current_fini;; close (z_fd q);; modify (upd_h_zip (delete z));; mret err) t Q.
Proof.
  intros Hj Eb HQ. apply wp_bind, wp_modify. set (t1 := upd_k_mounts _ t). apply wp_bind.
  eapply wp_mono; [apply (free_contract t1 p b); by destruct t|]. intros _ t2 [Hf Es].
  assert (Hj2 : joined s t2 z q) by (apply (joined_frame s t1); [by destruct t|done]).
  destruct Hj2 as (E1 & Hz & zb & r & E2 & E3 & Hzb). rewrite /on_core /zus_thread_current_fini /close.
  apply wp_bind, wp_zoom. apply wp_bind, wp_gets. rewrite E2. wp_steps. apply HQ. destruct Hf as (F1 & F2 & F3 & _).
  destruct t as [? ? ? ? ? ? ?], t2 as [? ? ? ? ? core ?], core. cbn in *. subst. rewrite /left_with /=. by rewrite !delete_insert_id.
Qed.
Lemma wp_evict_root t p b (Q : unit -> mnt F -> Prop) : h_sb t !! p = Some b ->
  (forall t', frame t t' -> h_sb t' = h_sb t -> Q tt t') -> wp (evict_root zfi p) t Q.
Proof.
  intros Eb HQ. rewrite /evict_root /get_sb. apply wp_bind. eapply wp_load; [exact Eb|]. destruct (sb_root b) as [r|]; [|by apply wp_ret, HQ].
  eapply wp_mono; [apply evict_contract|]. intros [] t' [Hf Es]. by apply HQ.
Qed.
(** Until the thread joined: the request and perhaps a descriptor. *)
Lemma wp_fail_fd s t z q err (Q : Z * Z -> mnt F -> Prop) : h_zip t = <[z := q]> (h_zip s) -> h_zip s !! z = None ->
  specific (k_core t) = None -> h_zbt (k_core t) = h_zbt (k_core s) ->
  (forall s', left_with s s' (k_fds t ∖ {[z_fd q]}) (k_maps t) (k_mounts t) (h_sb t) -> Q (err, 0) s') -> wp (fail_fd z err) t Q.
Proof.
  intros E1 Hz E2 E3 HQ. rewrite /fail_fd /fail /close. apply wp_bind. eapply wp_load; [rewrite E1; apply lookup_insert_eq|]. wp_steps.
  apply HQ. destruct t as [? ? ? ? ? core ?], core. cbn in *. subst. rewrite /left_with /=. by rewrite !delete_insert_id.
Qed.

(** What a private mount needs of the process: no descriptor of the kernel is a stale mount,
    and the thread is not one of zus. *)
Definition private_ok s : Prop :=
  k_mounts s ⊆ k_fds s /\ specific (k_core s) = None /\ possible_mask (k_core s) = ∅ /\ online_mask (k_core s) = ∅ /\
  map_ok numa_answer.2 /\ 0 <= current_cpu < 2 ^ 31.
Definition all_back s s' : Prop := left_with s s' (k_fds s) (k_maps s) (k_mounts s) (h_sb s).

(** [s0]: what [s] becomes for the duration of the mount [q], but for its super-block. *)
Definition mounted s s0 (q : zip) : Prop :=
  k_fds s0 = {[z_fd q]} ∪ k_fds s /\ k_maps s0 = k_maps s /\ k_mounts s0 = {[z_fd q]} ∪ k_mounts s /\ h_sb s0 = h_sb s /\
  z_fd q ∉ k_fds s /\ k_mounts s ⊆ k_fds s.
Lemma holds_joined s s0 u p b z q : holds s0 u p b -> joined s s0 z q -> joined s u z q.
Proof. intros (_&_&_&_&_&K1&K2) Hj. rewrite /joined in Hj |- *. by rewrite K1 K2. Qed.
(** Once the super-block is ungrabbed, its records are all that is left to drop. *)
Lemma ungrab_back s s0 u p b b' q s' : mounted s s0 q -> holds s0 u p b -> forall u', frame s0 u' -> h_sb u' = <[p := b']> (h_sb s0) ->
  left_with s s' (k_fds u' ∖ {[z_fd q]}) (k_maps u') (k_mounts u' ∖ {[z_fd q]}) (delete p (h_sb u')) -> all_back s s'.
Proof.
  intros (G1 & G2 & G3 & G4 & Hfd & Hmf) (_ & A & _) u' (K1 & K2 & K3 & _) E. rewrite K1 K2 K3 E delete_insert_id // G1 G2 G3 G4 /all_back.
  replace (({[z_fd q]} ∪ k_fds s) ∖ {[z_fd q]}) with (k_fds s) by set_solver.
  by replace (({[z_fd q]} ∪ k_mounts s) ∖ {[z_fd q]}) with (k_mounts s) by set_solver.
Qed.
Lemma wp_ungrab_joined s s0 u p b z q {A} (m : ST (mnt F) A) (Q : A -> mnt F -> Prop) :
  mounted s s0 q -> joined s s0 z q -> holds s0 u p b ->
  (forall u' b', joined s u' z q -> h_sb u' !! p = Some b' -> (forall s', left_with s s' (k_fds u' ∖ {[z_fd q]}) (k_maps u') (k_mounts u' ∖ {[z_fd q]}) (delete p (h_sb u')) -> all_back s s') ->
    wp m u' Q) -> wp (_pmem_ungrab p;; m) u Q.
Proof.
  intros HM Hj Hh HQ. apply wp_bind. eapply wp_pmem_ungrab; [exact Hh|]. intros u' b' Hf E _.
  apply (HQ u' b'); [by eapply joined_frame|rewrite E; apply lookup_insert_eq|]. intros s'. by eapply ungrab_back.
Qed.
Lemma wp_private_umount_back s s0 u p b z q : mounted s s0 q -> joined s s0 z q -> z_sbi q = p -> holds s0 u p b ->
  wp (zus_private_umount zfi z) u (fun _ s' => all_back s s').
Proof.
  intros HM Hj <- Hh. rewrite /zus_private_umount. apply wp_bind. eapply wp_load; [apply (joined_zip s u z q (fun q => q)); by eapply holds_joined|].
  apply wp_bind. eapply wp_evict_root; [by eapply holds_lookup|]. intros u1 Hf1 E1. pose proof (holds_frame _ _ _ _ _ Hh Hf1 E1) as Hh1. apply wp_bind.
  assert (Hend : forall (u2 : mnt F) (e : Z), holds s0 u2 (z_sbi q) b -> wp (_pmem_ungrab (z_sbi q);; zuf_private_umount (z_fd q);; sbi_free (zfi_op zfi) (z_sbi q);;
    on_core zus_thread_current_fini;; close (z_fd q);; modify (upd_h_zip (delete z));; mret e) u2 (fun _ s' => all_back s s')).
  { intros u2 e Hh2. eapply wp_ungrab_joined; [exact HM|exact Hj|exact Hh2|]. intros u3 b3 Hj3 E3 HB. by eapply wp_teardown. }
  destruct (sbi_fini (zfi_op zfi)) as [f|] eqn:Efini; [|by apply wp_ret, Hend].
  eapply wp_mono; [eapply fini_contract; [exact Efini|by eapply holds_lookup]|]. intros e u2 [Hf2 E2]. apply Hend. by eapply holds_frame.
Qed.
Lemma wp_fail_sbi_init_back s s0 u p b z q err (Q : Z * Z -> mnt F -> Prop) : mounted s s0 q -> joined s s0 z q -> holds s0 u p b ->
  (forall s', all_back s s' -> Q (err, 0) s') -> wp (fail_sbi_init zfi z p err) u Q.
Proof.
  intros HM Hj Hh HQ. rewrite /fail_sbi_init. apply wp_bind. eapply wp_evict_root; [by eapply holds_lookup|]. intros u1 Hf1 E1.
  pose proof (holds_frame _ _ _ _ _ Hh Hf1 E1) as Hh1. apply wp_bind. eapply wp_sbi_fini_op; [by eapply holds_lookup|]. intros u2 Hf2 E2.
  eapply wp_ungrab_joined; [exact HM|exact Hj|by eapply holds_frame|]. intros u3 b3 Hj3 E3 HB. eapply wp_fail_grab; [exact Hj3|exact E3|].
  intros s' Hs'. by apply HQ, HB.
Qed.
(** The device is grabbed and the file system set up, the request is complete. *)
Lemma wp_private_grab s s0 t p b z q id (Q : Z * Z -> mnt F -> Prop) :
  mounted s s0 q -> joined s s0 z q -> h_sb t = <[p := b]> (h_sb s0) -> h_sb s0 !! p = None -> frame s0 t -> sb_fresh b ->
  md_ready (pi_list (grab_pmem id).2) ->
  (forall err s', err <> 0 -> all_back s s' -> Q (err, 0) s') ->
  (forall err s' fds maps, err <> 0 -> left_with s s' fds maps (k_mounts s) (h_sb s) -> k_fds s ⊆ fds -> Q (err, 0) s') ->
  (forall s', wp (zus_private_umount zfi z) s' (fun _ s'' => all_back s s'') -> Q (0, z) s') ->
  wp (err ← _pmem_grab zfi p id;
    if negb (err =? 0) then fail_grab zfi z p err else
    err ← sbi_init (zfi_op zfi) p;
    if negb (err =? 0) then set_sb p (zus_sbi_set_flag ZUS_SBIF_ERROR);; fail_sbi_init zfi z p err else
    m ← mount_reply p;
    update h_zip upd_h_zip z (fun q => Zip (z_fd q) (z_in_len q) (z_flags q) (z_options q) (z_sb_id q) m.1.1 m.1.2 m.2);;
    mret (0, z)) t Q.
Proof.
  intros HM Hj Et Hp Hf Hb Hmd Hback Hleak Hgood. apply wp_bind. apply (wp_pmem_grab s0 t p b); [done|done|done|done|done|].
  intros err u b1 Hh _ _ _ _. destruct (Z.eqb_spec err 0) as [->|He]; cbn [negb].
  2: { eapply wp_fail_grab; [by eapply holds_joined|by eapply holds_lookup|]. intros s' Hs'. pose proof HM as (G1 & _ & G3 & G4 & Hfd & Hmf).
       destruct Hh as (A1 & A2 & A3 & _ & A5 & _). rewrite A1 A5 G3 delete_insert_id // G4 in Hs'.
       replace (({[z_fd q]} ∪ k_mounts s) ∖ {[z_fd q]}) with (k_mounts s) in Hs' by set_solver. eapply Hleak; [exact He|exact Hs'|].
       destruct A3 as [[-> _]|[-> _]]; rewrite G1; set_solver. }
  apply wp_bind. eapply wp_mono; [eapply init_contract; by eapply holds_lookup|]. intros e u1 (Hf1 & r & E3 & Hr).
  pose proof (holds_root _ _ _ _ _ _ Hh Hf1 E3) as Hh1. destruct (Z.eqb_spec e 0) as [->|He]; cbn [negb].
  - rewrite /mount_reply /get_sb. apply wp_bind, wp_bind. eapply wp_load; [by eapply holds_lookup|]. cbn [sb_root with_root].
    destruct r as [root|]; [|by destruct (Hr eq_refl)]. apply wp_bind, wp_ret, wp_ret.
    set (f := fun q => Zip (z_fd q) (z_in_len q) (z_flags q) (z_options q) (z_sb_id q) p (pmem_dpp_t (md_addr_to_offset root.2)) root.1).
    destruct (joined_zip _ _ _ _ f (holds_joined _ _ _ _ _ _ _ Hh1 Hj)) as [Eq5 _]. destruct (joined_zip _ _ _ _ f Hj) as [_ Hj6].
    apply wp_bind. eapply wp_update; [exact Eq5|]. apply wp_ret. apply Hgood.
    eapply (wp_private_umount_back s (upd_h_zip (<[z := f q]>) s0) _ p _ z (f q)); [by destruct s0|exact Hj6|done|].
    destruct Hh1 as (A1 & A2 & A3 & A4 & A5 & A6 & A7). split; [by destruct u1|]. split; [by destruct s0|]. split; [by destruct u1, s0|]. split; [by destruct u1, s0|].
    split; [by destruct u1, s0|]. split; [|by destruct u1, s0]. by rewrite /upd_h_zip /= A6.
  - apply wp_bind. eapply wp_set_sb; [exact Hh1|]. pose proof (holds_upd _ _ _ _ (zus_sbi_set_flag ZUS_SBIF_ERROR) Hh1 eq_refl eq_refl eq_refl eq_refl) as Hh2.
    eapply wp_fail_sbi_init_back; [exact HM|exact Hj|exact Hh2|]. intros s' Hs'. by apply Hback.
Qed.
(** The part from [sbi_alloc] on, in the state [t] the joined thread has. *)
Lemma wp_private_setup s t z q options flags (Q : Z * Z -> mnt F -> Prop) :
  joined s t z q -> k_mounts s ⊆ k_fds s -> z_fd q ∉ k_fds s -> (forall fd, md_ready (pi_list (grab_pmem (private_mount fd).2).2)) ->
  k_fds t = {[z_fd q]} ∪ k_fds s -> k_maps t = k_maps s -> k_mounts t = k_mounts s -> h_sb t = h_sb s ->
  (forall err s', err <> 0 -> all_back s s' -> Q (err, 0) s') ->
  (forall err s' fds maps, err <> 0 -> left_with s s' fds maps (k_mounts s) (h_sb s) -> k_fds s ⊆ fds -> Q (err, 0) s') ->
  (forall s', wp (zus_private_umount zfi z) s' (fun _ s'' => all_back s s'') -> Q (0, z) s') ->
  wp (private_setup zfi z (z_fd q) options flags) t Q.
Proof.
  intros Hj Hmf Hfd Hmd Ef Em Emt Es Hback Hleak Hgood. rewrite /private_setup. apply wp_bind. eapply wp_mono; [apply alloc_contract|].
  assert (Hx : k_fds t ∖ {[z_fd q]} = k_fds s) by (rewrite Ef; set_solver).
  intros p t1 (Hf1 & Halloc). pose proof (joined_frame _ _ _ _ _ Hj Hf1) as Hj1. destruct Hf1 as (F1 & F2 & F3 & F4 & F5).
  destruct Halloc as [[-> E1]|(Hp0 & Hp & b & Hb & E1)].
  { rewrite Z.eqb_refl. eapply wp_leave; [exact Hj1|]. intros s' Hs'. apply Hback; [done|]. by rewrite F1 F2 F3 E1 Hx Em Emt Es in Hs'. }
  rewrite (proj2 (Z.eqb_neq _ _) Hp0).
  destruct (joined_zip _ _ _ _ (fun q => Zip (z_fd q) (sizeof_zip + Z.of_nat (length options) + 1) flags options (z_sb_id q) (z_sbi q) (z_zi q) (z_ii q)) Hj1) as [Eq1 Hj2].
  apply wp_bind. eapply wp_update; [exact Eq1|]. set (q2 := Zip _ _ _ _ _ _ _ _) in Hj2 |- *. set (t2 := upd_h_zip _ t1) in Hj2 |- *.
  assert (Eb2 : h_sb t2 !! p = Some b) by (destruct t1; cbn in *; rewrite E1; apply lookup_insert_eq).
  rewrite /zuf_private_mount. apply wp_bind. destruct (Z.eqb_spec (private_mount (z_fd q)).1 0) as [Eg|Eg]; cbn [negb].
  2: { apply wp_ret. rewrite (proj2 (Z.eqb_neq _ _) Eg). cbn [negb]. eapply wp_fail_mount; [exact Hj2|exact Eb2|]. intros s' Hs'. apply Hback; [done|].
       destruct t1; cbn in *; subst. rewrite Es in Hp Hs'. rewrite Hx Em Emt delete_insert_id // in Hs'. }
  apply wp_bind, wp_modify, wp_ret. rewrite Eg Z.eqb_refl. cbn [negb]. set (id := (private_mount (z_fd q)).2). set (t3 := upd_k_mounts _ t2).
  assert (Hj3 : joined s t3 z q2) by by destruct t1.
  destruct (joined_zip _ _ _ _ (fun q => Zip (z_fd q) (z_in_len q) (z_flags q) (z_options q) id (z_sbi q) (z_zi q) (z_ii q)) Hj3) as [Eq3 Hj4].
  apply wp_bind. eapply wp_update; [exact Eq3|]. set (q4 := Zip _ _ _ _ id _ _ _) in Hj4 |- *. set (t4 := upd_h_zip _ t3) in Hj4 |- *.
  apply wp_bind. eapply wp_update; [by destruct t1|]. set (t5 := upd_h_sb _ t4).
  apply (wp_private_grab s (upd_h_sb (fun _ => h_sb s) t4) t5 p (set_sb_id id b) z q4);
    [|by destruct t1|destruct t1; cbn in *; by rewrite E1 Es insert_insert_eq|destruct t1; cbn in *; by rewrite -Es|by destruct t1|done|apply Hmd|done|done|done].
  destruct t1; cbn in *; subst. rewrite /mounted /=. by rewrite Ef Em Emt.
Qed.

(** Joining: the topology is read and the thread is given its record. *)
Lemma wp_numa_core c (Q : Z -> zus_core -> Prop) : specific c = None -> possible_mask c = ∅ -> online_mask c = ∅ -> map_ok numa_answer.2 ->
  (forall err, err <> 0 -> Q err c) -> (forall c', topology numa_answer.2 c' -> specific c' = None -> h_zbt c' = h_zbt c -> Q 0 c') ->
  wp (zus_numa_map_init numa_answer) c Q.
Proof.
  intros Es Ep Eo Hm Hbad Hgood. destruct (Z.eqb_spec numa_answer.1 0) as [E0|E0].
  - rewrite (surjective_pairing numa_answer) E0. apply wp_numa_map_init; [done|done|done|]. intros c1 Ht Es1 Eh1. apply Hgood; [done|by rewrite Es1|done].
  - rewrite /zus_numa_map_init (proj2 (Z.eqb_neq _ _) E0). cbn [negb]. by apply wp_ret, Hbad.
Qed.
Lemma wp_thread_core map c mem cpu (Q : Z -> zus_core -> Prop) : topology map c -> specific c = None -> 0 <= cpu < 2 ^ 31 ->
  (forall zb, mem = Some zb -> h_zbt c !! zb = None) ->
  (forall err, err <> 0 -> Q err c) -> (forall c' zb r, specific c' = Some zb -> h_zbt c' = <[zb := r]> (h_zbt c) -> h_zbt c !! zb = None -> Q 0 c') ->
  wp (zus_thread_current_init mem cpu) c Q.
Proof.
  intros Ht Es Hc Hfr Hbad Hgood. rewrite /zus_thread_current_init. wp_step. wp_step. rewrite Es bool_decide_eq_false_2; [by intros X|].
  destruct mem as [zb|]; [|apply wp_ret, Hbad; unfold ENOMEM; lia]. apply wp_bind. rewrite u32_small; [lia|].
  apply (wp_cpu_to_node map); [done|lia|]. wp_steps. eapply Hgood; [by destruct c|by destruct c|by apply Hfr].
Qed.

(** C16: a private mount runs to its end whatever fails.  When it succeeds, the private
    unmount leaves the descriptors, the mappings, the mounts, the records and the thread
    as they were; when it fails, the records, the mounts and the thread are as they were,
    and no descriptor that was open is closed. *)
Theorem private_mount_spec (options : list Z) (flags : Z) s : private_ok s ->
  (forall fd, md_ready (pi_list (grab_pmem (private_mount fd).2).2)) ->
  wp (zus_private_mount zfi options flags) s (fun r s' =>
    (r.1 = 0 -> wp (zus_private_umount zfi r.2) s' (fun _ s'' => all_back s s'')) /\
    (r.1 <> 0 -> r.2 = 0 /\ exists fds maps, left_with s s' fds maps (k_mounts s) (h_sb s) /\ k_fds s ⊆ fds)).
Proof.
  intros (Hmf & Es & Ep & Eo & Hnm & Hcpu) Hmd. match goal with |- wp _ s ?P => set (Q := P) end.
  assert (Hback : forall err s', err <> 0 -> all_back s s' -> Q (err, 0) s') by (intros err s' He Hb; split; [done|]; intros _; split; [done|]; by exists (k_fds s), (k_maps s)).
  assert (Hleak : forall err s' fds maps, err <> 0 -> left_with s s' fds maps (k_mounts s) (h_sb s) -> k_fds s ⊆ fds -> Q (err, 0) s')
    by (intros err s' fds maps He Hb Hsub; split; [done|]; intros _; split; [done|]; by exists fds, maps).
  rewrite /zus_private_mount. wp_step. wp_step. destruct (zip_mem (h_zip s)) as [z|] eqn:Ez; [|apply wp_ret, Hback; [unfold ENOMEM; lia|by rewrite /all_back /left_with]].
  destruct (zip_mem_fresh _ _ Ez) as [Hz0 Hz]. apply wp_bind, wp_modify. rewrite /zuf_root_open_tmp. apply wp_bind. wp_step. wp_step.
  change (k_fds (upd_h_zip _ s)) with (k_fds s). destruct (sys_open (k_fds s)) as [e|fd] eqn:Efd.
  { pose proof (sys_open_errno _ _ Efd). wp_step. apply wp_bind. eapply wp_update; [apply lookup_insert_eq|]. cbn [fst snd].
    rewrite (proj2 (Z.eqb_neq (- e) 0)); [lia|]. rewrite /fail. wp_steps. apply Hback; [lia|]. destruct s; cbn in *. rewrite /all_back /left_with /= insert_insert_eq. by rewrite delete_insert_id. }
  destruct (sys_open_fresh _ _ Efd) as [Hfd0 Hfd]. wp_step. wp_step. apply wp_bind. eapply wp_update; [apply lookup_insert_eq|]. cbn [fst snd]. rewrite Z.eqb_refl. cbn [negb].
  set (q := Zip fd _ _ _ _ _ _ _). set (t := upd_h_zip _ (upd_k_fds _ _)).
  assert (Ht : k_fds t = {[fd]} ∪ k_fds s /\ k_maps t = k_maps s /\ k_mounts t = k_mounts s /\ h_sb t = h_sb s /\ h_zip t = <[z := q]> (h_zip s) /\ k_core t = k_core s).
  { destruct s; cbn in *. by rewrite insert_insert_eq. }
  destruct Ht as (E1 & E2 & E3 & E4 & E5 & E6).
  assert (Hclose : forall err c', err <> 0 -> specific c' = None -> h_zbt c' = h_zbt (k_core s) -> wp (fail_fd z err) (upd_k_core (fun _ => c') t) Q).
  { intros err c' He Hc1 Hc2. eapply (wp_fail_fd s _ z q); [by destruct t|done|by destruct t|by destruct t|]. intros s' Hs'. apply Hback; [done|].
    rewrite /all_back. replace (k_fds s) with (k_fds t ∖ {[z_fd q]}) by (rewrite E1; cbn; set_solver). rewrite -E2 -E3 -E4. by destruct t. }
  apply wp_bind, wp_zoom. rewrite E6. apply wp_numa_core; [done|done|done|done| |].
  { intros err He. rewrite (proj2 (Z.eqb_neq _ _) He). cbn [negb]. by apply Hclose. }
  intros c1 Htop Es1 Eh1. rewrite Z.eqb_refl. cbn [negb]. apply wp_bind, wp_gets, wp_bind, wp_zoom. cbn [k_core upd_k_core].
  apply (wp_thread_core numa_answer.2); [done|done|done|by apply zbt_mem_fresh| |].
  { intros err He. rewrite (proj2 (Z.eqb_neq _ _) He). cbn [negb]. by apply Hclose. }
  intros c2 zb r Es2 Eh2 Hzb. rewrite Z.eqb_refl. cbn [negb]. change fd with (z_fd q). rewrite Eh1 in Eh2 Hzb.
  eapply (wp_private_setup s _ z q); [|done|done|done|by destruct t|by destruct t|by destruct t|by destruct t|done|done|].
  - split; [by destruct t|]. split; [done|]. exists zb, r. by destruct t.
  - intros s' Hu. split; [by intros _|done].
Qed.
End zfi.
End spec.

(** ** Concrete instances *)
(** A positive number not in the set. *)
Definition fresh_Z (X : gset Z) : Z := Z.of_nat (fresh ({[0%nat]} ∪ set_map (C := gset Z) (D := gset nat) Z.to_nat X)).
Lemma fresh_Z_spec X : 0 < fresh_Z X /\ fresh_Z X ∉ X.
Proof.
  rewrite /fresh_Z. set (Y := _ ∪ _). pose proof (is_fresh Y) as Hf. split.
  - destruct (fresh Y) eqn:E; [|lia]. exfalso. apply Hf. subst Y. set_solver.
  - intros Hin. apply Hf. subst Y. apply elem_of_union. right. apply elem_of_map. exists (Z.of_nat (fresh ({[0%nat]} ∪ set_map (C := gset Z) (D := gset nat) Z.to_nat X))).
    split; [by rewrite Nat2Z.id|done].
Qed.
(** The first page behind all mappings. *)
Definition above (maps : gmap Z Z) : Z := map_fold (fun x m r => Z.max r (Z.max x (x + m) + 1)) PAGE_SIZE maps.
Lemma above_spec maps : PAGE_SIZE <= above maps /\ forall x m, maps !! x = Some m -> x < above maps /\ x + m < above maps.
Proof.
  rewrite /above. apply (map_fold_weak_ind (fun r maps => PAGE_SIZE <= r /\ forall x m, maps !! x = Some m -> x < r /\ x + m < r)); [by split|].
  intros x m maps' r Hx [Hr IH]. split; [lia|]. intros y n. rewrite lookup_insert. case_decide as E; [subst; intros [= <-]; lia|].
  intros Hy. specialize (IH y n Hy). lia.
Qed.
Definition page_above (maps : gmap Z Z) : Z := ALIGN (above maps) PAGE_SIZE.
Lemma page_above_free maps n : 0 < n -> page_above maps <> 0 /\ free_span maps (page_above maps) n.
Proof.
  intros Hn. destruct (above_spec maps) as [Hp Ha]. assert (Hge : above maps <= page_above maps).
  { rewrite /page_above /ALIGN. pose proof (Z.div_mod (above maps + 4096 - 1) 4096 ltac:(lia)). pose proof (Z.mod_pos_bound (above maps + 4096 - 1) 4096 ltac:(lia)). lia. }
  split; [lia|]. split_and!; [apply Z_mod_mult|done| |].
  - destruct (maps !! page_above maps) as [m|] eqn:E; [|done]. specialize (Ha _ _ E). lia.
  - intros x m Hx. specialize (Ha _ _ Hx). lia.
Qed.
Section example.
#[local] Existing Instance example_md.
#[local] Existing Instance example_dev.
#[local] Existing Instance example_dev_laws.

(** One device of 16 pages; the kernel refuses to hand out the super-block 7, and private
    mounts are given the number [id]. *)
Definition example_info : pmem_info := PmemInfo (MdDevList 0 1 0 0 [MdDevId [] 16 0]) false 0.
Definition example_sys (id : Z) : MountSys := {|
  sys_open fds := inr (fresh_Z fds);
  sys_mmap maps n := if n <=? 0 then inl 22 else inr (page_above maps);
  grab_pmem n := if n =? 7 then (- EIO, PmemInfo (MdDevList 0 0 0 0 []) false 0) else (0, example_info);
  private_mount fd := (0, id);
  ZUFS_2M_SIZE := 2 ^ 21;
  map_mem := (true, true);
  numa_answer := (0, example_map);
  current_cpu := 2;
  zip_mem zips := Some (fresh_Z (dom zips));
  zbt_mem zbts := Some (fresh_Z (dom zbts));
  MAP_FAILED := -1;
  sizeof_zip := 100;
  MD_DEV_MAX := 2 |}.
#[local] Existing Instance example_sys.
#[local] Instance example_sys_laws id : @MountSysLaws (example_sys id).
Proof.
  split; cbn; try done.
  - intros fds fd [= <-]. pose proof (fresh_Z_spec fds). split; [lia|tauto].
  - intros maps n a. destruct (Z.leb_spec n 0); intros [= <-]. by apply page_above_free.
  - intros n. by destruct (n =? 7).
  - intros maps n e. destruct (n <=? 0); by intros [= <-].
  - intros zips z [= <-]. pose proof (fresh_Z_spec (dom zips)) as [? ?%not_elem_of_dom]. split; [lia|done].
  - intros zbts z [= <-]. by pose proof (fresh_Z_spec (dom zbts)) as [? ?%not_elem_of_dom].
Qed.
Definition zero_md : multi_devices := MultiDevices (MdDevList 0 0 0 0 []) 0 0 0 (replicate 2 (MdDevInfo 0 0 0 0 0)) (MdDevLarray 0 None) (MdDevLarray 0 None).
Definition zero_sb : zus_sb_info := ZusSbInfo zero_md example_info 0 0 0 0 None 0 0.
Definition example_ops : zus_zfi_operations (mnt unit) :=
  ZusZfiOperations (fun s => let p := fresh_Z (dom (h_sb s)) in Some (p, upd_h_sb (<[p := zero_sb]>) s))
    (fun p => modify (upd_h_sb (delete p))) (fun p => set_sb p (with_root (Some (50, 60)));; mret 0) (Some (fun p => mret 0)) None (fun z => mret tt).
Instance example_contract id : @ZfiContract unit (example_sys id) example_ops.
Proof.
  split.
  - intros s. rewrite /wp /=. split; [done|]. right. pose proof (fresh_Z_spec (dom (h_sb s))) as [? ?%not_elem_of_dom].
    split; [lia|]. split; [done|]. exists zero_sb. done.
  - intros s p b E. by rewrite /wp /=.
  - intros s p b E. cbn. wp_step. eapply wp_update; [exact E|]. wp_step. split; [done|]. by exists (Some (50, 60)).
  - intros f s p b [= <-] E. by rewrite /wp /=.
  - intros s z. by rewrite /wp /=.
Qed.
Definition example_zfi : zus_fs_info (mnt unit) := ZusFsInfo example_ops 64.
Definition mnt_boot : mnt unit := Mnt ∅ ∅ ∅ ∅ ∅ core_boot tt.
#[local] Existing Instance MdInit.example_dev_laws.
Lemma example_md_ready id : @md_ready _ _ (example_sys id) (pi_list example_info).
Proof.
  intros md El (Hl & H1 & H2).
  destruct (md_init_run md 1 0) as (md' & Hr & _); rewrite ?El; [done|done|cbn; lia|rewrite Hl; cbn; lia| | | |done|done|].
  - repeat constructor.
  - by rewrite blocks_t1_sum El.
  - by rewrite blocks_t2_sum El.
  - by exists (0, md').
Qed.
(** The runs below: the private mounts are given the number 5. *)
Definition sys_ok : MountSys := example_sys 5.
#[local] Existing Instance sys_ok.
Lemma zus_mount_spec_witness :
  md_ready (pi_list (grab_pmem 5).2) /\ wp (zus_mount example_zfi 5) mnt_boot (fun r s' => r.1 = 0 -> exists p a i, r.2 = Some (p, a, i) /\
    wp (zus_umount example_zfi p) s' (fun err s'' => err = 0 /\ frame mnt_boot s'' /\ h_sb s'' = h_sb mnt_boot)).
Proof.
  split; [exact (example_md_ready 5)|]. eapply wp_mono; [exact (zus_mount_spec example_zfi 5 mnt_boot (example_md_ready 5))|].
  intros r s' Hq. exact (proj2 Hq).
Defined.
Lemma mnt_boot_private id : @private_ok _ (example_sys id) mnt_boot.
Proof. split; [done|]. do 3 (split; [done|]). split; [vm_compute; repeat split; discriminate|done]. Qed.
Lemma private_mount_spec_witness :
  private_ok mnt_boot /\ wp (zus_private_mount example_zfi [111; 112] 0) mnt_boot (fun r s' =>
    r.1 = 0 -> wp (zus_private_umount example_zfi r.2) s' (fun _ s'' => all_back mnt_boot s'')).
Proof.
  split; [exact (mnt_boot_private 5)|].
  eapply wp_mono; [exact (private_mount_spec example_zfi [111; 112] 0 mnt_boot (mnt_boot_private 5) (fun _ => example_md_ready 5))|].
  intros r s' Hq. exact (proj1 Hq).
Defined.
(** What is left of a private mount: its error, and the open descriptors and mappings. *)
Definition after_private (id : Z) : option (Z * list Z * list (Z * Z)) :=
  match @zus_private_mount unit _ _ (example_sys id) example_zfi [] 0 mnt_boot with
  | Some (r, s) => Some (r.1, elements (k_fds s), map_to_list (k_maps s))
  | None => None
  end.
(** The mount succeeds; where the kernel refuses to hand out the super-block it fails, and the
    descriptor of the device stays open. *)
Example private_mount_ends : (fst <$> (fst <$> after_private 5), after_private 7) = (Some 0, Some (- EIO, [2], [])).
Proof. vm_compute. reflexivity. Qed.
End example.
