(* ===== verification/CStr.v ===== *)
(** * C strings: bytes up to a NUL, and the functions of the C library on them

    A character is its byte, 0 to 255.  A string is read from the memory that starts at
    its pointer; [None] is a read past the memory. *)

From stdpp Require Import strings.
From S2P Require Import Prelude.

(** A string literal. *)
Fixpoint chars (s : string) : list Z :=
  match s with EmptyString => [] | String a s' => Z.of_nat (Ascii.nat_of_ascii a) :: chars s' end.
Fixpoint cstr (mem : list Z) : option (list Z) :=
  match mem with [] => None | c :: m => if c =? 0 then Some [] else cons c <$> cstr m end.
Definition cstr_at (off : nat) (mem : list Z) : option (list Z) := cstr (drop off mem).
(** In the C locale. *)
Definition isspace (c : Z) : bool := (c =? 32) || ((9 <=? c) && (c <=? 13)).
Definition isdigit (c : Z) : bool := (48 <=? c) && (c <=? 57).
(** How far a loop [for (; f(c); ++p)] goes. *)
Fixpoint span_len (f : Z -> bool) (mem : list Z) : option nat :=
  match mem with [] => None | c :: m => if f c then S <$> span_len f m else Some 0%nat end.
(** Bytes written at a position: None past the end. *)
Definition put_at (pos : nat) (w : list Z) (mem : list Z) : option (list Z) :=
  if (pos + length w <=? length mem)%nat then Some (take pos mem ++ w ++ drop (pos + length w) mem) else None.
(** [snprintf] of the text [w]: all but the last byte of [n] are for it. *)
Definition snprintf (pos : nat) (n : Z) (w : list Z) (mem : list Z) : option (list Z) :=
  if n =? 0 then Some mem else put_at pos (take (Z.to_nat (n - 1)) w ++ [0]) mem.
(** [%d] *)
Fixpoint dec_digits (fuel : nat) (n : Z) : list Z :=
  match fuel with
  | O => []
  | S k => if n <? 10 then [48 + n] else dec_digits k (n / 10) ++ [48 + n mod 10]
  end.
Definition dec (n : Z) : list Z := if n <? 0 then 45 :: dec_digits 10 (- n) else dec_digits 10 n.
(** [strtoul(s, &leftover, 10)] on 64 bits; the string and what is left of it. *)
Fixpoint digits_val (acc : Z) (s : list Z) : Z * list Z :=
  match s with
  | c :: s' => if isdigit c then digits_val (acc * 10 + (c - 48)) s' else (acc, s)
  | [] => (acc, [])
  end.
Fixpoint skip_spaces (s : list Z) : list Z :=
  match s with c :: s' => if isspace c then skip_spaces s' else s | [] => [] end.
Definition strtoul (s : list Z) : Z * list Z :=
  let t := skip_spaces s in
  let '(neg, t) := match t with 45 :: t' => (true, t') | 43 :: t' => (false, t') | _ => (false, t) end in
  match t with
  | c :: _ =>
    if isdigit c then
      let r := digits_val 0 t in
      (if 2 ^ 64 <=? r.1 then 2 ^ 64 - 1 else if neg : bool then u64 (- r.1) else r.1, r.2)
    else (0, s)
  | [] => (0, s)
  end.
(** Does [s] contain [w]? *)
Fixpoint prefix_of (w s : list Z) : bool :=
  match w, s with [], _ => true | c :: w', d :: s' => (c =? d) && prefix_of w' s' | _, [] => false end.
Fixpoint strstr (s w : list Z) : bool :=
  prefix_of w s || match s with _ :: s' => strstr s' w | [] => false end.
(** The rest behind the last [c], as [strrchr(s, c) + 1]. *)
Fixpoint strrchr_rest (c : Z) (s : list Z) : option (list Z) :=
  match s with
  | [] => None
  | d :: s' => match strrchr_rest c s' with Some r => Some r | None => if d =? c then Some s' else None end
  end.

(** ** Laws *)
Lemma cstr_app s t : 0 ∉ s -> cstr (s ++ 0 :: t) = Some s.
Proof.
  induction s as [|c s IH]; [done|]. intros Hn. cbn [cstr app]. case (Z.eqb_spec c 0) as [->|]; [set_solver|].
  rewrite IH //. set_solver.
Qed.
Lemma cstr_no_nul mem s : cstr mem = Some s -> 0 ∉ s.
Proof.
  revert s. induction mem as [|c m IH]; intros s; [done|]. cbn [cstr]. case (Z.eqb_spec c 0) as [->|Hc]; [intros [= <-]; set_solver|].
  destruct (cstr m) as [t|] eqn:E; [|done]. intros [= <-]. pose proof (IH _ eq_refl). set_solver.
Qed.
Lemma span_len_app f s c t : Forall (fun x => f x = true) s -> f c = false -> span_len f (s ++ c :: t) = Some (length s).
Proof. induction 1 as [|x s Hx _ IH]; intros Hc; cbn [span_len app length]; [by rewrite Hc|]. by rewrite Hx IH. Qed.
(** Every memory with a byte that stops the loop is such a split. *)
Lemma span_split f (s : list Z) : exists a b, s = a ++ b /\ Forall (fun x => f x = true) a /\ (b = [] \/ exists c b', b = c :: b' /\ f c = false).
Proof.
  induction s as [|c s (a & b & -> & Ha & Hb)]; [by exists [], []; split_and!; [|constructor|left]|].
  destruct (f c) eqn:E; [exists (c :: a), b|exists [], (c :: a ++ b)].
  - split_and!; [done|by constructor|done].
  - split_and!; [done|constructor|right; by eexists _, _].
Qed.
Lemma put_at_spec pos w mem : (pos + length w <= length mem)%nat -> put_at pos w mem = Some (take pos mem ++ w ++ drop (pos + length w) mem).
Proof. intros Hl. rewrite /put_at. by rewrite (proj2 (Nat.leb_le _ _) Hl). Qed.
Lemma put_at_app a w b v : length v = length w -> put_at (length a) w (a ++ v ++ b) = Some (a ++ w ++ b).
Proof.
  intros E. rewrite put_at_spec; [rewrite !length_app; lia|]. rewrite take_app_length. f_equal. f_equal. f_equal.
  rewrite -drop_drop drop_app_length -E drop_app_length //.
Qed.
Lemma skip_spaces_none s : match s with c :: _ => isspace c = false | [] => True end -> skip_spaces s = s.
Proof. destruct s as [|c s]; [done|]. cbn. by intros ->. Qed.

Lemma insert_at (a b : list Z) x y : <[length a := x]> (a ++ y :: b) = (a ++ [x]) ++ b.
Proof. induction a as [|z a IH]; [done|]. cbn. by rewrite IH. Qed.

(** A number printed is read back. *)
Lemma digits_val_app acc s t : Forall (fun c => isdigit c = true) s -> digits_val acc (s ++ t) = digits_val (digits_val acc s).1 t.
Proof. intros Hs. revert acc. induction Hs as [|c s Hc _ IH]; intros acc; [done|]. cbn [digits_val app]. by rewrite Hc IH. Qed.
Lemma digits_val_rest acc s : Forall (fun c => isdigit c = true) s -> digits_val acc s = ((digits_val acc s).1, []).
Proof. intros Hs. revert acc. induction Hs as [|c s Hc _ IH]; intros acc; [done|]. cbn [digits_val]. by rewrite Hc IH. Qed.
Lemma isdigit_48 n : 0 <= n < 10 -> isdigit (48 + n) = true.
Proof. intros Hn. rewrite /isdigit. apply andb_true_iff. split; apply Z.leb_le; lia. Qed.
Lemma dec_digits_spec fuel n : 0 <= n < 10 ^ Z.of_nat fuel -> (0 < fuel)%nat ->
  Forall (fun c => isdigit c = true) (dec_digits fuel n) /\ dec_digits fuel n <> [] /\ forall acc, (digits_val acc (dec_digits fuel n)).1 = acc * 10 ^ Z.of_nat (length (dec_digits fuel n)) + n.
Proof.
  revert n. induction fuel as [|k IH]; intros n Hn Hk; [lia|]. cbn [dec_digits]. destruct (Z.ltb_spec n 10) as [L|L].
  - split_and!; [repeat constructor; apply isdigit_48; lia|done|]. intros acc. cbn [digits_val]. rewrite isdigit_48; [lia|]. cbn [fst length]. lia.
  - assert (Hd : 0 <= n / 10 < 10 ^ Z.of_nat k).
    { rewrite Nat2Z.inj_succ Z.pow_succ_r in Hn; [lia|]. split; [apply Z.div_pos; lia|apply Z.div_lt_upper_bound; lia]. }
    assert (Hk' : (0 < k)%nat) by (destruct k; [cbn in Hd; lia|lia]). destruct (IH _ Hd Hk') as (I1 & I2 & I3).
    pose proof (Z.mod_pos_bound n 10 ltac:(lia)) as Hm. split_and!.
    + apply Forall_app. split; [done|]. repeat constructor. by apply isdigit_48.
    + by destruct (dec_digits k (n / 10)).
    + intros acc. rewrite digits_val_app // I3. cbn [digits_val]. rewrite isdigit_48 //. cbn [fst]. rewrite length_app Nat2Z.inj_add Z.pow_add_r; [lia|lia|].
      change (10 ^ Z.of_nat (length [48 + n mod 10])) with 10. pose proof (Z.div_mod n 10 ltac:(lia)). lia.
Qed.
Lemma strtoul_dec n : 0 <= n < 10 ^ 10 -> strtoul (dec n) = (n, []).
Proof.
  intros Hn. rewrite /dec (proj2 (Z.ltb_ge _ _) (proj1 Hn)). destruct (dec_digits_spec 10 n Hn ltac:(lia)) as (Hd & Hne & Hv).
  destruct (dec_digits 10 n) as [|c s] eqn:E; [done|]. apply Forall_cons in Hd as [Hc Hs]. pose proof Hc as [L1%Z.leb_le L2%Z.leb_le]%andb_true_iff.
  rewrite /strtoul skip_spaces_none.
  { rewrite /isspace. apply orb_false_iff. split; [apply Z.eqb_neq; lia|]. apply andb_false_iff. right. apply Z.leb_gt. lia. }
  assert (Em : forall A (f g : list Z -> A) d, match c :: s with 45 :: t' => f t' | 43 :: t' => g t' | _ => d end = d).
  { intros A f g d. destruct c as [|p|p]; [lia| |lia]. do 6 (destruct p as [p|p|]; try reflexivity; try lia). }
  rewrite Em Hc. rewrite (digits_val_rest 0 (c :: s)); [by constructor|]. cbn [fst snd]. rewrite Hv.
  replace (0 * _ + n) with n by lia. by rewrite (proj2 (Z.leb_gt _ _)) //; lia.
Qed.
