(* ===== verification/Printz.v ===== *)
(** * Dynamic debug messages: printz.c

    The registry of the debug messages of the loaded file systems: its entries lie in the
    libraries, and the modules point at them.  Reading pages through their descriptions;
    writing takes a command, splits it into words in place and switches the entries it
    selects. *)

From stdpp Require Import strings.
From S2P Require Import Prelude CStr.

(** ** Data *)
(** struct _ddebug of printz.h; [dd_modname] points to the module. *)
Record _ddebug := Ddebug {
  dd_id : Z; dd_modname : Z; dd_function : list Z; dd_filename : list Z; dd_lineno : Z; dd_format : list Z; dd_active : bool }.
Record module_ddbg := ModuleDdbg { m_name : list Z; n_dbg_entries : Z; dbg_entries : list Z }.
(** The array [modules] up to [mod_count]; [h_mod] has the modules, [h_dd] the entries. *)
Record ddbg_db := DdbgDb { modules : list Z; next_id : Z; h_mod : gmap Z module_ddbg; h_dd : gmap Z _ddebug }.
Definition upd_h_dd (f : gmap Z _ddebug -> gmap Z _ddebug) (s : ddbg_db) : ddbg_db := DdbgDb (modules s) (next_id s) (h_mod s) (f (h_dd s)).
Definition upd_h_mod (f : gmap Z module_ddbg -> gmap Z module_ddbg) (s : ddbg_db) : ddbg_db := DdbgDb (modules s) (next_id s) (f (h_mod s)) (h_dd s).
Notation DB := (ST ddbg_db).
Definition ZUS_LIBFS_MAX_NR : nat := 16.
Definition ZUS_LIBFS_MAX_PATH : Z := 256.
(** What the kernel passes (zus_api.h): [zdi_msg] is the memory of the message. *)
Record zufs_ddbg_info := ZufsDdbgInfo { zdi_id : Z; zdi_len : Z; zdi_msg : list Z }.

(** ** Registration *)
Definition _init_ddbg (a modname : Z) : DB unit :=
  modify (fun s => DdbgDb (modules s) (u32 (next_id s + 1)) (h_mod s) (h_dd s));;
  id ← gets next_id;
  update h_dd upd_h_dd a (fun dd =>
    Ddebug id modname (dd_function dd) (default (dd_filename dd) (strrchr_rest 47 (dd_filename dd))) (dd_lineno dd) (dd_format dd) (dd_active dd)).
(** The loop over the section of the library; an entry takes 56 bytes. *)
Definition SIZEOF_DDEBUG : Z := 56.
Fixpoint init_entries (n : nat) (iter modd : Z) : DB unit :=
  match n with
  | O => mret tt
  | S k =>
    _init_ddbg iter modd;;
    update h_mod upd_h_mod modd (fun m => ModuleDdbg (m_name m) (n_dbg_entries m) (dbg_entries m ++ [iter]));;
    init_entries k (iter + SIZEOF_DDEBUG) modd
  end.
(** [start], [stop]: what dlsym answers for the two ends of the section; [mem]: calloc. *)
Definition zus_add_module_ddbg (fs_name : list Z) (start stop mem : option Z) : DB Z :=
  if ZUS_LIBFS_MAX_PATH <=? Z.of_nat (length fs_name) then mret (- EINVAL) else
  match start, stop with
  | None, _ | _, None => mret (- EINVAL)
  | Some iter, Some stop =>
    let n_dbg := s32 ((stop - iter) / SIZEOF_DDEBUG) in
    mods ← gets modules;
    assert (Nat.ltb (length mods) ZUS_LIBFS_MAX_NR);;
    match mem with
    | None => mret (- ENOMEM)
    | Some modd =>
      modify (upd_h_mod (<[modd := ModuleDdbg fs_name (u16 n_dbg) []]>));;
      init_entries (Z.to_nat n_dbg) iter modd;;
      modify (fun s => DdbgDb (modules s ++ [modd]) (next_id s) (h_mod s) (h_dd s));;
      mret 0
    end
  end.
(** The count of the modules stays. *)
Fixpoint free_modules (mods : list Z) : DB unit :=
  match mods with
  | [] => mret tt
  | m :: mods => if m =? 0 then mret tt else load h_mod m;; modify (upd_h_mod (delete m));; free_modules mods
  end.
Definition zus_free_ddbg_db : DB unit := mods ← gets modules; free_modules mods.

(** ** Reading *)
(** The loop of [_copy_format] from the [i]th byte of the buffer on. *)
Fixpoint copy_loop (fmt : list Z) (i sz : nat) (buff : list Z) : list Z :=
  match fmt with
  | [] => <[i := 0]> buff
  | c :: fmt =>
    if negb (i <? sz)%nat then <[i := 0]> buff else
    if (c =? 10) || (c =? 9) then
      if (sz <? i + 2)%nat then buff else copy_loop fmt (i + 2) sz (<[S i := if c =? 10 then 110 else 116]> (<[i := 92]> buff))
    else copy_loop fmt (S i) sz (<[i := c]> buff)
  end.
Definition MAX_FORMAT_SIZE : nat := 512.
Definition _copy_format (fmt buff : list Z) (sz : nat) : list Z := copy_loop fmt 0 sz buff.
(** file:line [module] function =p, the format in quotes, and a newline. *)
Definition ddbg_line (dd : _ddebug) (modname format : list Z) : list Z :=
  dd_filename dd ++ chars ":" ++ dec (s32 (dd_lineno dd)) ++ chars " [" ++ modname ++ chars "] " ++ dd_function dd ++ chars " =" ++
  chars (if dd_active dd then "p" else "_") ++ [32; 34] ++ format ++ [34; 10].
(** The locals: the last id, the room, the position in the message, and [format]. *)
Record reading := Reading { r_id : Z; r_sz : Z; r_pos : nat; r_msg : list Z; r_format : list Z }.
(** With whether to go to [out]. *)
Fixpoint read_entries (es : list Z) (r : reading) : DB (bool * reading) :=
  match es with
  | [] => mret (false, r)
  | a :: es =>
    if negb (0 <? r_sz r) then mret (false, r) else
    ddbg ← load h_dd a;
    if dd_id ddbg <=? r_id r then read_entries es r else
    let format := _copy_format (dd_format ddbg) (r_format r) MAX_FORMAT_SIZE in
    f ← of_option (cstr format);
    m ← load h_mod (dd_modname ddbg);
    let line := ddbg_line ddbg (m_name m) f in
    let buff_jmp := Z.of_nat (length line) in
    msg ← of_option (snprintf (r_pos r) (r_sz r) line (r_msg r));
    if r_sz r <? buff_jmp then
      msg ← of_option (put_at (r_pos r) [0] msg);
      mret (true, Reading (r_id r) (r_sz r) (r_pos r) msg format)
    else read_entries es (Reading (dd_id ddbg) (r_sz r - buff_jmp) (r_pos r + length line) msg format)
  end.
Definition entries_of (m : module_ddbg) : list Z := take (Z.to_nat (n_dbg_entries m)) (dbg_entries m).
Fixpoint read_modules (mods : list Z) (r : reading) : DB reading :=
  match mods with
  | [] => mret r
  | m :: mods =>
    modd ← load h_mod m;
    o ← read_entries (entries_of modd) r;
    if o.1 : bool then mret o.2 else read_modules mods o.2
  end.
(** [garbage]: what is on the stack where [format] is. *)
Definition zus_ddbg_read (garbage : list Z) (zdi : zufs_ddbg_info) : DB (Z * zufs_ddbg_info) :=
  mods ← gets modules;
  r ← read_modules mods (Reading (zdi_id zdi) (zdi_len zdi) 0 (zdi_msg zdi) garbage);
  s ← of_option (cstr (r_msg r));
  mret (0, ZufsDdbgInfo (r_id r) (Z.of_nat (length s)) (r_msg r)).

(** ** Commands *)
Inductive ddbg_cmd := DDBG_CMD_UNSET | DDBG_CMD_ENABLE | DDBG_CMD_DISABLE.
#[global] Instance ddbg_cmd_dec : EqDecision ddbg_cmd.
Proof. solve_decision. Defined.
Definition MAX_DDBG_CMD_TOKENS : nat := 9.
Definition NO_LINE_NUMBER : Z := u32 (-1).
(** A pointer into the message is its offset. *)
Record ddbg_ctl := DdbgCtl {
  tokens : list nat; modname : option nat; function : option nat; filename : option nat; lineno : Z; format : option nat; cmd : ddbg_cmd }.

(** From the byte [buf] on; with the error, the message and the tokens. *)
Fixpoint tokenize_loop (fuel : nat) (buf : nat) (msg : list Z) (toks : list nat) : option (Z * list Z * list nat) :=
  match fuel with
  | O => None
  | S k =>
    c ← msg !! buf;
    if c =? 0 then Some (0, msg, toks) else
    n ← span_len isspace (drop buf msg);
    let buf := (buf + n)%nat in
    c ← msg !! buf;
    if (c =? 0) || (c =? 35) then Some (0, msg, toks) else
    let quoted := (c =? 34) || (c =? 39) in
    let buf := if quoted then S buf else buf in
    n ← span_len (fun x => negb (x =? 0) && (if quoted then negb (x =? c) else negb (isspace x))) (drop buf msg);
    let end_ := (buf + n)%nat in
    e ← msg !! end_;
    if quoted && (e =? 0) then Some (- EINVAL, msg, toks) else
    if bool_decide (length toks = MAX_DDBG_CMD_TOKENS) then Some (- EINVAL, msg, toks) else
    if e =? 0 then tokenize_loop k end_ msg (toks ++ [buf]) else tokenize_loop k (S end_) (<[end_ := 0]> msg) (toks ++ [buf])
  end.
Definition _tokenize (msg : list Z) : option (Z * list Z * list nat) := tokenize_loop (S (length msg)) 0 msg [].

Inductive ddbg_crit := DDBG_CRIT_MOD | DDBG_CRIT_FUNC | DDBG_CRIT_FILE | DDBG_CRIT_LINENO | DDBG_CRIT_FMT | DDBG_CRIT_ENABLE | DDBG_CRIT_DISABLE.
(** None for -EINVAL. *)
Definition _token_type (token : list Z) : option ddbg_crit :=
  if bool_decide (token = chars "module") then Some DDBG_CRIT_MOD else
  if bool_decide (token = chars "func") then Some DDBG_CRIT_FUNC else
  if bool_decide (token = chars "file") then Some DDBG_CRIT_FILE else
  if bool_decide (token = chars "line") then Some DDBG_CRIT_LINENO else
  if bool_decide (token = chars "format") then Some DDBG_CRIT_FMT else
  if bool_decide (token = chars "+p") then Some DDBG_CRIT_ENABLE else
  if bool_decide (token = chars "-p") then Some DDBG_CRIT_DISABLE else None.
Definition set_modname (t : nat) (d : ddbg_ctl) : ddbg_ctl := DdbgCtl (tokens d) (Some t) (function d) (filename d) (lineno d) (format d) (cmd d).
Definition set_function (t : nat) (d : ddbg_ctl) : ddbg_ctl := DdbgCtl (tokens d) (modname d) (Some t) (filename d) (lineno d) (format d) (cmd d).
Definition set_filename (t : nat) (d : ddbg_ctl) : ddbg_ctl := DdbgCtl (tokens d) (modname d) (function d) (Some t) (lineno d) (format d) (cmd d).
Definition set_lineno (n : Z) (d : ddbg_ctl) : ddbg_ctl := DdbgCtl (tokens d) (modname d) (function d) (filename d) n (format d) (cmd d).
Definition set_format (t : nat) (d : ddbg_ctl) : ddbg_ctl := DdbgCtl (tokens d) (modname d) (function d) (filename d) (lineno d) (Some t) (cmd d).
Definition set_cmd (c : ddbg_cmd) (d : ddbg_ctl) : ddbg_ctl := DdbgCtl (tokens d) (modname d) (function d) (filename d) (lineno d) (format d) c.
(** The loop over the tokens that are left. *)
Fixpoint parse_loop (msg : list Z) (toks : list nat) (ddc : ddbg_ctl) : option (Z * ddbg_ctl) :=
  match toks with
  | [] => Some (if bool_decide (cmd ddc = DDBG_CMD_UNSET) then - EINVAL else 0, ddc)
  | t :: toks =>
    token ← cstr_at t msg;
    match _token_type token, toks with
    | None, _ => Some (- EINVAL, ddc)
    | Some DDBG_CRIT_ENABLE, _ => parse_loop msg toks (set_cmd DDBG_CMD_ENABLE ddc)
    | Some DDBG_CRIT_DISABLE, _ => parse_loop msg toks (set_cmd DDBG_CMD_DISABLE ddc)
    | Some _, [] => Some (- EINVAL, ddc)
    | Some DDBG_CRIT_MOD, a :: toks => parse_loop msg toks (set_modname a ddc)
    | Some DDBG_CRIT_FUNC, a :: toks => parse_loop msg toks (set_function a ddc)
    | Some DDBG_CRIT_FILE, a :: toks => parse_loop msg toks (set_filename a ddc)
    | Some DDBG_CRIT_FMT, a :: toks => parse_loop msg toks (set_format a ddc)
    | Some DDBG_CRIT_LINENO, a :: toks =>
      num ← cstr_at a msg;
      let r := strtoul num in
      if negb (bool_decide (r.2 = [])) then Some (- EINVAL, set_lineno (u32 r.1) ddc) else parse_loop msg toks (set_lineno (u32 r.1) ddc)
    end
  end.
Definition _parse (msg : list Z) (ddc : ddbg_ctl) : option (Z * ddbg_ctl) := parse_loop msg (tokens ddc) ddc.

(** [p && strcmp(p, s)]: is there a pattern that [s] is not? *)
Definition differs (p : option (list Z)) (s : list Z) : bool := match p with Some w => negb (bool_decide (w = s)) | None => false end.
(** The string of a pointer that may be NULL. *)
Definition string_at (msg : list Z) (p : option nat) : option (option (list Z)) :=
  match p with Some t => Some <$> cstr_at t msg | None => Some None end.
Fixpoint process_entries (es : list Z) (file func fmt : option (list Z)) (line : Z) (enable : bool) : DB unit :=
  match es with
  | [] => mret tt
  | a :: es =>
    ddbg ← load h_dd a;
    (if differs file (dd_filename ddbg) || differs func (dd_function ddbg) ||
        (negb (line =? NO_LINE_NUMBER) && negb (line =? dd_lineno ddbg)) ||
        match fmt with Some w => negb (strstr (dd_format ddbg) w) | None => false end
     then mret tt
     else update h_dd upd_h_dd a (fun dd => Ddebug (dd_id dd) (dd_modname dd) (dd_function dd) (dd_filename dd) (dd_lineno dd) (dd_format dd) enable));;
    process_entries es file func fmt line enable
  end.
Fixpoint process_modules (mods : list Z) (name file func fmt : option (list Z)) (line : Z) (enable : bool) : DB unit :=
  match mods with
  | [] => mret tt
  | m :: mods =>
    modd ← load h_mod m;
    (if differs name (m_name modd) then mret tt else process_entries (entries_of modd) file func fmt line enable);;
    process_modules mods name file func fmt line enable
  end.
Definition _process (msg : list Z) (ddc : ddbg_ctl) : DB Z :=
  name ← of_option (string_at msg (modname ddc));
  file ← of_option (string_at msg (filename ddc));
  func ← of_option (string_at msg (function ddc));
  fmt ← of_option (string_at msg (format ddc));
  mods ← gets modules;
  process_modules mods name file func fmt (lineno ddc) (bool_decide (cmd ddc = DDBG_CMD_ENABLE));;
  mret 0.
(** With the message as it leaves it. *)
Definition zus_ddbg_write (zdi : zufs_ddbg_info) : DB (Z * list Z) :=
  t ← of_option (_tokenize (zdi_msg zdi));
  let '(err, msg, toks) := t in
  if negb (err =? 0) then mret (err, msg) else
  p ← of_option (_parse msg (DdbgCtl toks None None None NO_LINE_NUMBER None DDBG_CMD_UNSET));
  if negb (p.1 =? 0) then mret (p.1, msg) else
  err ← _process msg p.2;
  mret (err, msg).
