(* ===== verification/PrintzLex.v ===== *)
(** * Splitting a command into words

    The grammar of commands, and that [_tokenize], which cuts the words out of the message
    in place, recognises exactly the commands of the grammar with at most nine words. *)

From stdpp Require Import strings.
From S2P Require Import Prelude Bytes CStr Printz.

Definition is_quote (c : Z) : Prop := c = 34 \/ c = 39.
Definition space (c : Z) : Prop := isspace c = true.
Definition black (c : Z) : Prop := isspace c = false.
(** [lexes s ws]: the words of [s] are [ws]. *)
Inductive lexes : list Z -> list (list Z) -> Prop :=
| lx_end : lexes [] []
| lx_space c s ws : space c -> lexes s ws -> lexes (c :: s) ws
| lx_comment s : lexes (35 :: s) []
| lx_quote q w s ws : is_quote q -> q ∉ w -> lexes s ws -> lexes (q :: w ++ q :: s) (w :: ws)
| lx_word c w s ws : ~ is_quote c -> c <> 35 -> Forall black (c :: w) -> (s = [] \/ exists d s', s = d :: s' /\ space d) ->
    lexes s ws -> lexes (c :: w ++ s) ((c :: w) :: ws).

(** ** The grammar is unambiguous *)
Definition stops (P : Z -> Prop) (b : list Z) : Prop := b = [] \/ exists c b', b = c :: b' /\ ~ P c.
Lemma split_unique (P : Z -> Prop) a b a' b' : a ++ b = a' ++ b' -> Forall P a -> Forall P a' -> stops P b -> stops P b' -> a = a' /\ b = b'.
Proof.
  revert a'. induction a as [|x a IH]; intros [|y a'] E Ha Ha' Hb Hb'; cbn in E.
  - done.
  - exfalso. apply Forall_cons in Ha' as [Hy _]. destruct Hb as [->|(c & b0 & -> & Hc)]; [done|]. injection E as -> _. done.
  - exfalso. apply Forall_cons in Ha as [Hx _]. destruct Hb' as [->|(c & b0 & -> & Hc)]; [done|]. injection E as <- _. done.
  - injection E as -> E. apply Forall_cons in Ha as [_ Ha]. apply Forall_cons in Ha' as [_ Ha']. by destruct (IH a' E Ha Ha' Hb Hb') as [-> ->].
Qed.
Lemma quote_black c : is_quote c -> black c.
Proof. by intros [-> | ->]. Qed.
Lemma lexes_space c s ws : space c -> lexes (c :: s) ws <-> lexes s ws.
Proof.
  intros Hc. split; [|by constructor]. inversion 1 as [|? ? ? ? Hl|?|q w s' ws' Hq|d w s' ws' Hd Hd' Hb]; subst; try done.
  - pose proof (quote_black _ Hq) as Hb. by rewrite /black Hc in Hb.
  - apply Forall_cons in Hb as [Hb _]. by rewrite /black Hc in Hb.
Qed.
Lemma lexes_spaces sp s ws : Forall space sp -> lexes (sp ++ s) ws <-> lexes s ws.
Proof. induction 1 as [|c sp Hc _ IH]; [done|]. by rewrite /= lexes_space. Qed.
Lemma lexes_quote_inv q s ws : is_quote q -> lexes (q :: s) ws -> exists w r ws', s = w ++ q :: r /\ q ∉ w /\ ws = w :: ws' /\ lexes r ws'.
Proof.
  intros Hq. inversion 1 as [|? ? ? Hs|?|? w r ws'|? w s' ws' Hd]; subst; [|by destruct Hq|by eexists _, _, _|done].
  by rewrite /space (quote_black _ Hq) in Hs.
Qed.
Lemma lexes_word_inv c s ws : ~ is_quote c -> c <> 35 -> black c -> lexes (c :: s) ws ->
  exists w r ws', s = w ++ r /\ Forall black w /\ stops black r /\ ws = (c :: w) :: ws' /\ lexes r ws'.
Proof.
  intros Hq Hc Hb. inversion 1 as [|? ? ? Hs|?|? w r ws' Hq'|? w r ws' Hd Hd' Hbw Hr]; subst; [|done|done|].
  - by rewrite /space Hb in Hs.
  - apply Forall_cons in Hbw as [_ Hbw]. exists w, r, ws'. split_and!; try done. destruct Hr as [->|(d & s' & -> & Hsp)]; [by left|].
    right. exists d, s'. split; [done|]. by rewrite /black Hsp.
Qed.

Lemma lexes_fun s ws ws' : lexes s ws -> lexes s ws' -> ws = ws'.
Proof.
  intros H. revert ws'. induction H as [|c s ws Hc _ IH|s|q w s ws Hq Hw _ IH|c w s ws Hq Hc Hb Hs _ IH]; intros ws' H'.
  - by inversion H'.
  - apply IH. by apply lexes_space in H'.
  - inversion H' as [|? ? ? Hs|?|? ? ? ? Hq|? ? ? ? Hq]; subst; [done|done|by destruct Hq|done].
  - apply lexes_quote_inv in H' as (w' & r & ws0 & E & Hw' & -> & Hl); [|done].
    destruct (split_unique (fun x => x <> q) w (q :: s) w' (q :: r) E) as [-> [= ->]].
    1-2: apply Forall_forall; by intros x Hx ->.
    1-2: right; eexists _, _; split; [done|tauto].
    f_equal. by apply IH.
  - apply lexes_word_inv in H' as (w' & r & ws0 & E & Hw' & Hst & -> & Hl); [|done|done|by apply Forall_cons in Hb as [? _]].
    destruct (split_unique black w s w' r E) as [-> ->]; [by apply Forall_cons in Hb as [_ ?]|done| |done|f_equal; by apply IH].
    destruct Hs as [->|(d & s' & -> & Hd)]; [by left|]. right. exists d, s'. split; [done|]. by rewrite /black Hd.
Qed.

(** ** The tokenizer *)
Lemma lookup_at (pre : list Z) c post : (pre ++ c :: post) !! length pre = Some c.
Proof. by rewrite lookup_app_r // Nat.sub_diag. Qed.
(** The predicates the loops stop at. *)
Definition in_quote (q x : Z) : bool := negb (x =? 0) && negb (x =? q).
Definition in_word (x : Z) : bool := negb (x =? 0) && negb (isspace x).
Lemma in_quote_all q w : q ∉ w -> 0 ∉ w -> Forall (fun x => in_quote q x = true) w.
Proof.
  intros Hq H0. apply Forall_forall. intros x Hx. rewrite /in_quote. apply andb_true_iff. split; apply negb_true_iff, Z.eqb_neq; intros ->; done.
Qed.
Lemma in_word_all w : Forall black w -> 0 ∉ w -> Forall (fun x => in_word x = true) w.
Proof.
  intros Hw H0. apply Forall_forall. intros x Hx. rewrite Forall_forall in Hw. rewrite /in_word (Hw x Hx) andb_true_r. apply negb_true_iff, Z.eqb_neq. intros ->. done.
Qed.
Lemma span_at f pre s c post : Forall (fun x => f x = true) s -> f c = false -> span_len f (drop (length pre) (pre ++ s ++ c :: post)) = Some (length s).
Proof. intros Hs Hc. rewrite drop_app_length. by apply span_len_app. Qed.

(** What the loop does of a message whose rest is [s]. *)
Definition tok_ok (pre s tail : list Z) (toks : list nat) (o : option (Z * list Z * list nat)) : Prop :=
  exists err s' new, o = Some (err, pre ++ s' ++ 0 :: tail, toks ++ new) /\ length s' = length s /\
    (err = 0 -> exists ws, lexes s ws /\ (length toks + length ws <= MAX_DDBG_CMD_TOKENS)%nat /\
       Forall2 (fun t w => cstr_at t (pre ++ s' ++ 0 :: tail) = Some w) new ws) /\
    (err <> 0 -> err = - EINVAL /\ forall ws, lexes s ws -> (MAX_DDBG_CMD_TOKENS < length toks + length ws)%nat).
Lemma tok_done pre s tail toks : lexes s [] -> (length toks <= MAX_DDBG_CMD_TOKENS)%nat -> tok_ok pre s tail toks (Some (0, pre ++ s ++ 0 :: tail, toks)).
Proof.
  intros Hl Ht. exists 0, s, []. rewrite app_nil_r. split_and!; try done. intros _. exists []. split_and!; [done|cbn; lia|constructor].
Qed.
Lemma tok_bad pre s tail toks : (forall ws, lexes s ws -> (MAX_DDBG_CMD_TOKENS < length toks + length ws)%nat) ->
  tok_ok pre s tail toks (Some (- EINVAL, pre ++ s ++ 0 :: tail, toks)).
Proof. intros Hl. exists (- EINVAL), s, []. rewrite app_nil_r. by split_and!. Qed.
(** A word [w] behind [a], up to [b]; the rest is [r].  Cutting it off has overwritten the
    byte behind it, or there was none. *)
Lemma tok_word pre a w b r tail toks s o : s = a ++ w ++ b ++ r -> 0 ∉ w -> (length b <= 1)%nat -> (b = [] -> r = []) ->
  (forall ws, lexes s ws -> exists ws', ws = w :: ws' /\ lexes r ws') -> (forall ws, lexes r ws -> lexes s (w :: ws)) ->
  tok_ok (pre ++ a ++ w ++ zero_bytes (length b)) r tail (toks ++ [(length pre + length a)%nat]) o -> tok_ok pre s tail toks o.
Proof.
  intros -> Hw Hb Hbr Hinv Hlex (err & s' & new & -> & Hl & Hok & Hbad). set (z := zero_bytes (length b)) in *.
  exists err, (a ++ w ++ z ++ s'), ((length pre + length a)%nat :: new). rewrite -!(assoc_L (++)) in Hok |- *. split; [done|].
  split; [rewrite !length_app Hl /z length_replicate; lia|]. split.
  - intros He. destruct (Hok He) as (ws & Hws & Hlen & Hall). exists (w :: ws). rewrite length_app /= in Hlen.
    split; [by apply Hlex|]. split; [cbn; lia|]. constructor; [|exact Hall].
    rewrite /cstr_at -drop_drop drop_app_length drop_app_length. destruct b as [|e [|e' b]]; cbn in Hb; [| |lia].
    + rewrite (Hbr eq_refl) in Hl. destruct s' as [|? ?]; [|done]. by apply cstr_app.
    + by apply (cstr_app w (s' ++ 0 :: tail)).
  - intros He. destruct (Hbad He) as [-> Hn]. split; [done|]. intros ws Hws. destruct (Hinv ws Hws) as (ws' & -> & Hws').
    specialize (Hn ws' Hws'). rewrite length_app /= in Hn. cbn. lia.
Qed.
Lemma tok_spaces pre sp r tail toks o : Forall space sp -> tok_ok (pre ++ sp) r tail toks o -> tok_ok pre (sp ++ r) tail toks o.
Proof.
  intros Hsp (err & s' & new & -> & Hl & Hok & Hbad). exists err, (sp ++ s'), new. rewrite -!(assoc_L (++)) in Hok |- *.
  split_and!; [done|by rewrite !length_app Hl| |].
  - intros He. destruct (Hok He) as (ws & Hws & Hrest). exists ws. by rewrite lexes_spaces.
  - intros He. destruct (Hbad He) as [-> Hn]. split; [done|]. intros ws. rewrite lexes_spaces //. apply Hn.
Qed.
Lemma not_elem_app {A} (x : A) a b : x ∉ a ++ b -> x ∉ a /\ x ∉ b.
Proof. rewrite elem_of_app. tauto. Qed.
Lemma zero_stops f s tail : f 0 = false -> Forall (fun x => f x = true) s -> forall pre, span_len f (drop (length pre) (pre ++ s ++ 0 :: tail)) = Some (length s).
Proof. intros H0 Hs pre. by apply span_at. Qed.
Lemma drop_skip (P X : list Z) c : drop (S (length P)) (P ++ c :: X) = X.
Proof. induction P as [|x P IH]; [by rewrite /= drop_0|exact IH]. Qed.
Lemma lookup_skip (P X : list Z) c n : (P ++ c :: X) !! (S (length P) + n)%nat = X !! n.
Proof. induction P as [|x P IH]; [done|exact IH]. Qed.
Lemma lookup_word (P W X : list Z) d : (P ++ W ++ d :: X) !! (length P + length W)%nat = Some d.
Proof. rewrite (assoc_L (++)) -length_app. apply lookup_at. Qed.
(** The two ends a word can have, [n] being where the loop goes on. *)
Section step.
Variables (k : nat) (tail : list Z).
Hypothesis IH : forall pre s toks, 0 ∉ s -> (length s < k)%nat -> (length toks <= MAX_DDBG_CMD_TOKENS)%nat ->
  tok_ok pre s tail toks (tokenize_loop k (length pre) (pre ++ s ++ 0 :: tail) toks).
Lemma tok_last pre a w toks s : s = a ++ w -> 0 ∉ w -> (0 < k)%nat -> (length toks < MAX_DDBG_CMD_TOKENS)%nat ->
  (forall ws, lexes s ws -> exists ws', ws = w :: ws' /\ lexes [] ws') -> lexes s [w] ->
  tok_ok pre s tail toks (tokenize_loop k (length pre + length a + length w) (pre ++ s ++ 0 :: tail) (toks ++ [(length pre + length a)%nat])).
Proof.
  intros Es Hw Hk Ht Hinv Hlex. apply (tok_word pre a w [] []); [by rewrite !app_nil_r|done|cbn; lia|done|done| |].
  - intros ws Hws. inversion Hws; subst. exact Hlex.
  - cbn [length zero_bytes replicate]. rewrite app_nil_r Es. rewrite -!(assoc_L (++)).
    replace (length pre + length a + length w)%nat with (length (pre ++ a ++ w)) by (rewrite !length_app; lia).
    pose proof (IH (pre ++ a ++ w) [] (toks ++ [(length pre + length a)%nat])) as Hk'. rewrite -!(assoc_L (++)) in Hk'. apply Hk'; [set_solver|done|rewrite length_app /=; lia].
Qed.
Lemma tok_next pre a w e r toks s : s = a ++ w ++ e :: r -> 0 ∉ w -> 0 ∉ r -> (length s < S k)%nat -> (length toks < MAX_DDBG_CMD_TOKENS)%nat ->
  (forall ws, lexes s ws -> exists ws', ws = w :: ws' /\ lexes r ws') -> (forall ws, lexes r ws -> lexes s (w :: ws)) ->
  tok_ok pre s tail toks (tokenize_loop k (S (length pre + length a + length w))
    (<[(length pre + length a + length w)%nat := 0]> (pre ++ s ++ 0 :: tail)) (toks ++ [(length pre + length a)%nat])).
Proof.
  intros Es Hw Hr Hk Ht Hinv Hlex. apply (tok_word pre a w [e] r); [done|done|cbn; lia|done|done|done|].
  change (zero_bytes (length [e])) with [0]. set (pre' := pre ++ a ++ w ++ [0]).
  replace (S _) with (length pre') by (rewrite /pre' !length_app /=; lia).
  replace (<[_ := 0]> _) with (pre' ++ r ++ 0 :: tail).
  - apply IH; [done|rewrite Es !length_app /= in Hk; lia|rewrite length_app /=; lia].
  - assert (E : pre ++ s ++ 0 :: tail = (pre ++ a ++ w) ++ e :: r ++ 0 :: tail) by by rewrite Es -!(assoc_L (++)).
    replace (length pre + length a + length w)%nat with (length (pre ++ a ++ w) + 0)%nat by (rewrite !length_app; lia).
    rewrite E insert_app_r /= /pre'. by rewrite -!(assoc_L (++)).
Qed.
(** The rest of the round: the word starts at [buf]. *)
Definition cut (quoted : bool) (f : Z -> bool) (buf : nat) (msg : list Z) (toks : list nat) : option (Z * list Z * list nat) :=
  n ← span_len f (drop buf msg);
  e ← msg !! (buf + n)%nat;
  if quoted && (e =? 0) then Some (- EINVAL, msg, toks) else
  if bool_decide (length toks = MAX_DDBG_CMD_TOKENS) then Some (- EINVAL, msg, toks) else
  if e =? 0 then tokenize_loop k (buf + n) msg (toks ++ [buf]) else tokenize_loop k (S (buf + n)) (<[(buf + n)%nat := 0]> msg) (toks ++ [buf]).
Lemma tok_quote P c b toks : is_quote c -> c <> 0 -> 0 ∉ b -> (length (c :: b) < S k)%nat -> (length toks <= MAX_DDBG_CMD_TOKENS)%nat ->
  tok_ok P (c :: b) tail toks (cut true (in_quote c) (S (length P)) (P ++ c :: b ++ 0 :: tail) toks).
Proof.
  intros Hq Hc0 H0 Hf Ht. rewrite /cut.
  destruct (span_split (fun x => negb (x =? c)) b) as (w & r & -> & Hw & Hr). apply not_elem_app in H0 as [Hw0 Hr0].
  assert (Hqw : c ∉ w) by (intros Hin; rewrite Forall_forall in Hw; specialize (Hw _ Hin); cbn in Hw; by rewrite Z.eqb_refl in Hw).
  rewrite drop_skip -(assoc_L (++)). pose proof (in_quote_all c w Hqw Hw0) as Hin. 
  destruct Hr as [->|(d & r' & -> & Hd%negb_false_iff%Z.eqb_eq)].
  + rewrite (span_len_app _ w 0 tail Hin); [done|]. cbn [mbind option_bind app]. rewrite lookup_skip lookup_at /=.
    rewrite app_nil_r. apply (tok_bad P (c :: w)). intros ws (w' & r & ws' & E & _)%lexes_quote_inv; [|done]. exfalso. apply Hqw. rewrite -(app_nil_r w) E. set_solver.
  + subst d. rewrite (span_len_app _ w c (r' ++ 0 :: tail) Hin); [by rewrite /in_quote Z.eqb_refl andb_false_r|]. cbn [mbind option_bind app].
    rewrite lookup_skip lookup_at. cbn [mbind option_bind]. rewrite (proj2 (Z.eqb_neq _ _) Hc0). cbn [andb].
    assert (Hinv : forall ws, lexes (c :: w ++ c :: r') ws -> exists ws', ws = w :: ws' /\ lexes r' ws').
    { intros ws (w' & r & ws' & E & Hw' & -> & Hl)%lexes_quote_inv; [|done]. exists ws'.
      destruct (split_unique (fun x => x <> c) w (c :: r') w' (c :: r)) as [-> [= ->]]; try done.
      - apply Forall_forall. intros x Hx ->. done.
      - apply Forall_forall. intros x Hx ->. done.
      - right. eexists _, _. split; [done|]. tauto.
      - right. eexists _, _. split; [done|]. tauto. }
    case_bool_decide as Hlen.
    * change (c :: w ++ c :: r' ++ 0 :: tail) with ((c :: w) ++ (c :: r') ++ 0 :: tail). rewrite (assoc_L (++) (c :: w)). apply (tok_bad P ((c :: w) ++ c :: r')).
      intros ws Hws. destruct (Hinv ws Hws) as (ws' & -> & _). cbn [length]. lia.
    * apply not_elem_of_cons in Hr0 as [_ Hr0].
      pose proof (tok_next P [c] w c r' toks (c :: w ++ c :: r') eq_refl Hw0 Hr0) as Hnext.
      rewrite Nat.add_1_r /= -(assoc_L (++)) /= in Hnext. apply Hnext; [cbn [length] in Hf |- *; lia|lia|done|]. intros ws Hws. by apply lx_quote.
Qed.
Lemma tok_plain P c b toks : ~ is_quote c -> c <> 35 -> c <> 0 -> black c -> 0 ∉ b -> (length (c :: b) < S k)%nat -> (length toks <= MAX_DDBG_CMD_TOKENS)%nat ->
  tok_ok P (c :: b) tail toks (cut false in_word (length P) (P ++ c :: b ++ 0 :: tail) toks).
Proof.
  intros Hq Hc35 Hc0 Hc H0' Hf Ht. rewrite /cut. cbn [andb]. assert (H0 : 0 ∉ c :: b) by set_solver.
  destruct (span_split (fun x => negb (isspace x)) b) as (w0 & r & -> & Hw & Hr).
  set (w := c :: w0). assert (Hb : Forall black w).
  { constructor; [done|]. eapply Forall_impl; [exact Hw|]. intros x. apply negb_true_iff. }
  change (c :: w0 ++ r) with (w ++ r) in H0 |- *. apply not_elem_app in H0 as [Hw0 Hr0]. pose proof (in_word_all w Hb Hw0) as Hin. 
  change (c :: (w0 ++ r) ++ 0 :: tail) with ((w ++ r) ++ 0 :: tail).
  assert (Hinv : forall ws, lexes (w ++ r) ws -> exists ws', ws = w :: ws' /\ lexes r ws').
  { intros ws (w' & r' & ws' & E & Hbw & Hst & -> & Hl)%lexes_word_inv; [|done|done|done]. exists ws'.
    destruct (split_unique black w0 r w' r') as [-> ->]; try done; [by apply Forall_cons in Hb as [_ ?]|].
    destruct Hr as [->|(d & b' & -> & Hd)]; [by left|]. right. exists d, b'. split; [done|]. rewrite /black. intros E'. by rewrite E' in Hd. }
  assert (Hspace : r = [] \/ exists d s', r = d :: s' /\ space d).
  { destruct Hr as [->|(d & b' & -> & Hd)]; [by left|]. right. exists d, b'. split; [done|]. by apply negb_false_iff in Hd. }
  assert (Hlex : forall ws, lexes r ws -> lexes (w ++ r) (w :: ws)) by (intros ws Hws; by apply lx_word).
  assert (Hbad : length toks = MAX_DDBG_CMD_TOKENS -> tok_ok P (w ++ r) tail toks (Some (- EINVAL, P ++ (w ++ r) ++ 0 :: tail, toks))).
  { intros E. apply tok_bad. intros ws Hws. destruct (Hinv ws Hws) as (ws' & -> & _). cbn [length]. lia. }
  rewrite drop_app_length -(assoc_L (++)).
  destruct Hspace as [->|(d & r' & -> & Hd)].
  + rewrite !app_nil_r in Hinv Hlex Hbad |- *. rewrite (span_len_app _ w 0 tail Hin); [done|]. cbn [mbind option_bind app]. rewrite lookup_word /=.
    case_bool_decide as Hlen; [by apply Hbad|]. pose proof (tok_last P [] w toks w eq_refl Hw0) as Hl. rewrite !Nat.add_0_r in Hl.
    apply Hl; [cbn in Hf; lia|lia|exact Hinv|apply Hlex, lx_end].
  + rewrite (span_len_app _ w d (r' ++ 0 :: tail) Hin); [by rewrite /in_word Hd andb_false_r|]. cbn [mbind option_bind app]. rewrite lookup_word. cbn [mbind option_bind].
    assert (d <> 0) as Hd0 by (intros ->; by apply Hr0; left). rewrite (proj2 (Z.eqb_neq _ _) Hd0).
    case_bool_decide as Hlen; [change (w ++ d :: r' ++ 0 :: tail) with (w ++ (d :: r') ++ 0 :: tail); rewrite (assoc_L (++) w); by apply Hbad|].
    apply not_elem_of_cons in Hr0 as [_ Hr0].
    pose proof (tok_next P [] w d r' toks (w ++ d :: r') eq_refl Hw0 Hr0) as Hnext.
    rewrite !Nat.add_0_r -(assoc_L (++)) in Hnext. apply Hnext; [change (c :: w0 ++ d :: r') with (w ++ d :: r') in Hf; lia|lia|..].
    * intros ws Hws. destruct (Hinv ws Hws) as (ws' & -> & Hl). exists ws'. split; [done|]. by apply lexes_space in Hl.
    * intros ws Hws. by apply Hlex, lx_space.
Qed.
End step.
Lemma tokenize_loop_spec tail fuel : forall pre s toks, 0 ∉ s -> (length s < fuel)%nat -> (length toks <= MAX_DDBG_CMD_TOKENS)%nat ->
  tok_ok pre s tail toks (tokenize_loop fuel (length pre) (pre ++ s ++ 0 :: tail) toks).
Proof.
  induction fuel as [|k IH]; intros pre s toks H0 Hf Ht; [lia|].
  destruct (span_split isspace s) as (sp & r & -> & Hsp & Hr). cbn [tokenize_loop]. rewrite -(assoc_L (++)).
  assert (Hspan : span_len isspace (drop (length pre) (pre ++ sp ++ r ++ 0 :: tail)) = Some (length sp)).
  { destruct Hr as [->|(c & b' & -> & Hc)]; by apply span_at. }
  apply not_elem_app in H0 as [Hsp0 H0].
  assert (Hgo : forall o, tok_ok (pre ++ sp) r tail toks o -> tok_ok pre (sp ++ r) tail toks o) by (intros o; by apply tok_spaces).
  destruct (sp ++ r) as [|c0 s0] eqn:Es.
  { apply app_eq_nil in Es as [-> ->]. rewrite lookup_at /=. by apply (tok_done pre []); [constructor|]. }
  assert (Hc0 : (pre ++ sp ++ r ++ 0 :: tail) !! length pre = Some c0).
  { rewrite (assoc_L (++) sp) Es. apply lookup_at. }
  assert (c0 <> 0).
  { intros ->. assert (Hin : 0 ∈ sp ++ r) by (rewrite Es; by left). apply elem_of_app in Hin as [|]; done. }
  rewrite Hc0. cbn [mbind option_bind]. rewrite (proj2 (Z.eqb_neq _ _) H) Hspan. cbn [mbind option_bind]. rewrite -(length_app pre sp).
  apply Hgo. rewrite -Es length_app in Hf. clear Hgo Hc0 Hspan Es H c0 s0. rewrite (assoc_L (++) pre). set (P := pre ++ sp).
  destruct Hr as [->|(c & b & -> & Hc)].
  { cbn [app]. rewrite lookup_at /=. by apply (tok_done P []); [constructor|]. }
  cbn [app]. rewrite lookup_at. cbn [mbind option_bind].
  assert (c <> 0) as Hc0 by (intros ->; apply H0; by left). rewrite (proj2 (Z.eqb_neq _ _) Hc0).
  destruct (Z.eqb_spec c 35) as [->|Hc35]; [by apply (tok_done P (35 :: b)); [apply lx_comment|]|]. cbn [orb].
  destruct ((c =? 34) || (c =? 39)) eqn:Eq; cbn [andb].
  - apply (tok_quote k tail IH P c b toks); [|done|by apply not_elem_of_cons in H0 as [_ ?]|lia|done].
    apply orb_true_iff in Eq as [E%Z.eqb_eq|E%Z.eqb_eq]; [by left|by right].
  - apply (tok_plain k tail IH P c b toks); [|done|done|done|by apply not_elem_of_cons in H0 as [_ ?]|lia|done].
    apply orb_false_iff in Eq as [E1%Z.eqb_neq E2%Z.eqb_neq]. by intros [-> | ->].
Qed.

Lemma tokenize_run s tail : 0 ∉ s -> tok_ok [] s tail [] (_tokenize (s ++ 0 :: tail)).
Proof. intros H0. apply (tokenize_loop_spec tail _ []); [done|rewrite length_app /=; lia|cbn; lia]. Qed.
(** C34: _tokenize recognises the grammar: of a command with at most nine words it answers
    those words, each a string inside the message, whose length it does not change; any
    other command, with an open quote or with more words, is refused with -EINVAL.  It
    always ends. *)
Theorem tokenize_spec s tail : 0 ∉ s -> exists err msg toks,
  _tokenize (s ++ 0 :: tail) = Some (err, msg, toks) /\ length msg = length (s ++ 0 :: tail) /\
  (err = 0 -> exists ws, lexes s ws /\ (length ws <= 9)%nat /\ Forall2 (fun t w => cstr_at t msg = Some w) toks ws) /\
  (err <> 0 -> err = - EINVAL /\ forall ws, lexes s ws -> (9 < length ws)%nat).
Proof.
  intros H0. destruct (tokenize_run s tail H0) as (err & s' & new & E & Hl & Hok & Hbad).
  exists err, (s' ++ 0 :: tail), new. split; [exact E|]. split; [by rewrite !length_app Hl|]. by split.
Qed.
Definition command_example : list Z := chars "func '_x y' line 12  +p # write".
Lemma tokenize_spec_witness : 0 ∉ command_example /\ exists err msg toks, _tokenize (command_example ++ [0; 7]) = Some (err, msg, toks) /\
  length msg = length (command_example ++ [0; 7]).
Proof.
  assert (H0 : 0 ∉ command_example) by (apply (bool_decide_unpack _); vm_compute; exact I).
  split; [exact H0|]. destruct (tokenize_spec command_example [7] H0) as (err & msg & toks & E & Hl & _). exists err, msg, toks. split; [exact E|exact Hl].
Defined.
(** Its five words. *)
Example tokenize_runs : exists msg toks, _tokenize (command_example ++ [0; 7]) = Some (0, msg, toks) /\
  (fun t => cstr_at t msg) <$> toks = Some <$> [chars "func"; chars "_x y"; chars "line"; chars "12"; chars "+p"].
Proof. eexists _, _. by vm_compute. Qed.

(** ** Writing words down *)
Definition plain (w : list Z) : bool :=
  match w with c :: _ => negb ((c =? 34) || (c =? 39)) && negb (c =? 35) && forallb (fun x => negb (isspace x)) w | [] => false end.
Definition word_text (w : list Z) : list Z := if plain w then w ++ [32] else 34 :: w ++ [34; 32].
Definition text (ws : list (list Z)) : list Z := ws ≫= word_text.
Lemma lexes_text ws : Forall (fun w => 34 ∉ w) ws -> lexes (text ws) ws.
Proof.
  induction 1 as [|w ws Hw _ IH]; [apply lx_end|]. cbn [text mbind list_bind]. rewrite -/(text ws) /word_text. destruct (plain w) eqn:Ep.
  - destruct w as [|c w]; [done|]. cbn [plain] in Ep. apply andb_true_iff in Ep as [[Eq Ec]%andb_true_iff Eb]. rewrite -(assoc_L (++)) /=.
    apply lx_word.
    + apply negb_true_iff, orb_false_iff in Eq as [E1%Z.eqb_neq E2%Z.eqb_neq]. by intros [-> | ->].
    + apply negb_true_iff, Z.eqb_neq in Ec. done.
    + apply Forall_forall. intros x Hx. rewrite forallb_forall in Eb. apply negb_true_iff, (Eb x). by apply list_elem_of_In.
    + right. by exists 32, (text ws).
    + by apply lx_space.
  - rewrite /= -(assoc_L (++)) /=. apply lx_quote; [by left|done|]. by apply lx_space.
Qed.
Lemma text_no_nul ws : Forall (fun w => 0 ∉ w) ws -> 0 ∉ text ws.
Proof.
  induction 1 as [|w ws Hw _ IH]; [set_solver|]. cbn [text mbind list_bind]. rewrite -/(text ws) /word_text. destruct (plain w); set_solver.
Qed.
