(* ===== verification/PrintzSpec.v ===== *)
(** * What the debug registry promises

    A command switches exactly the messages it selects; reading pages through the
    messages in order and loses none; loading a library keeps the registry in order. *)

From stdpp Require Import strings.
From S2P Require Import Prelude Bytes CStr Printz PrintzLex.

(** ** The registry *)
Definition entries_in (h : gmap Z module_ddbg) (mods : list Z) : list Z :=
  mods ≫= (fun m => match h !! m with Some modd => entries_of modd | None => [] end).
Definition all_entries (s : ddbg_db) : list Z := entries_in (h_mod s) (modules s).
(** The modules and their entries exist. *)
Definition db_ok (s : ddbg_db) : Prop :=
  (forall m, m ∈ modules s -> is_Some (h_mod s !! m)) /\ (forall a, a ∈ all_entries s -> is_Some (h_dd s !! a)).

(** ** Commands *)
Record query := Query {
  q_module : option (list Z); q_func : option (list Z); q_file : option (list Z); q_line : option Z; q_format : option (list Z); q_enable : bool }.
Definition clause (kw : list Z) (o : option (list Z)) : list (list Z) := match o with Some w => [kw; w] | None => [] end.
Definition query_words (q : query) : list (list Z) :=
  clause (chars "module") (q_module q) ++ clause (chars "func") (q_func q) ++ clause (chars "file") (q_file q) ++
  clause (chars "line") (dec <$> q_line q) ++ clause (chars "format") (q_format q) ++ [if q_enable q then chars "+p" else chars "-p"].
Definition word_ok (w : list Z) : Prop := 0 ∉ w /\ 34 ∉ w.
Definition opt_ok (o : option (list Z)) : Prop := match o with Some w => word_ok w | None => True end.
(** A query that can be written: no quotes in its strings, and at most four criteria. *)
Definition query_ok (q : query) : Prop :=
  opt_ok (q_module q) /\ opt_ok (q_func q) /\ opt_ok (q_file q) /\ opt_ok (q_format q) /\
  (forall n, q_line q = Some n -> 0 <= n < NO_LINE_NUMBER) /\ (length (query_words q) <= 9)%nat.
(** Which entries a query is about. *)
Definition is_opt {A} `{EqDecision A} (o : option A) (x : A) : bool := match o with Some y => bool_decide (y = x) | None => true end.
Definition matches (q : query) (d : _ddebug) : bool :=
  is_opt (q_file q) (dd_filename d) && is_opt (q_func q) (dd_function d) && is_opt (q_line q) (dd_lineno d) &&
  match q_format q with Some w => strstr (dd_format d) w | None => true end.
Definition selects (q : query) (h : gmap Z module_ddbg) (a m : Z) : bool :=
  match h !! m with Some modd => is_opt (q_module q) (m_name modd) && bool_decide (a ∈ entries_of modd) | None => false end.
Definition selected (q : query) (s : ddbg_db) (a : Z) (d : _ddebug) : bool := existsb (selects q (h_mod s) a) (modules s) && matches q d.
Definition set_active (b : bool) (d : _ddebug) : _ddebug :=
  Ddebug (dd_id d) (dd_modname d) (dd_function d) (dd_filename d) (dd_lineno d) (dd_format d) b.
(** The registry with the entries [f] picks switched. *)
Definition switched (s s' : ddbg_db) (b : bool) (f : Z -> _ddebug -> bool) : Prop :=
  modules s' = modules s /\ next_id s' = next_id s /\ h_mod s' = h_mod s /\
  forall a, h_dd s' !! a = (fun d => if f a d then set_active b d else d) <$> h_dd s !! a.

(** ** Switching *)
Definition line_of (q : query) : Z := default NO_LINE_NUMBER (q_line q).
Lemma matches_code q d : (forall n, q_line q = Some n -> n <> NO_LINE_NUMBER) ->
  (differs (q_file q) (dd_filename d) || differs (q_func q) (dd_function d) ||
   (negb (line_of q =? NO_LINE_NUMBER) && negb (line_of q =? dd_lineno d)) ||
   match q_format q with Some w => negb (strstr (dd_format d) w) | None => false end) = negb (matches q d).
Proof.
  intros Hn. rewrite /matches !negb_andb. f_equal; [|by destruct (q_format q)]. f_equal; [f_equal; [by destruct (q_file q)|by destruct (q_func q)]|].
  rewrite /line_of. destruct (q_line q) as [n|]; cbn [default is_opt].
  - rewrite (proj2 (Z.eqb_neq _ _) (Hn n eq_refl)). cbn. case_bool_decide as E; [by rewrite E Z.eqb_refl|by rewrite (proj2 (Z.eqb_neq _ _) E)].
  - by rewrite Z.eqb_refl.
Qed.
Lemma matches_set_active q d b : matches q (set_active b d) = matches q d.
Proof. done. Qed.
Lemma switched_refl s b : switched s s b (fun _ _ => false).
Proof. split_and!; try done. intros a. by destruct (h_dd s !! a). Qed.
Lemma switched_trans s s1 s2 b f g h : (forall a d c, g a (set_active c d) = g a d) -> (forall a d, h a d = f a d || g a d) ->
  switched s s1 b f -> switched s1 s2 b g -> switched s s2 b h.
Proof.
  intros Hg Hh (E1 & E2 & E3 & E4) (F1 & F2 & F3 & F4). split_and!; [by rewrite F1|by rewrite F2|by rewrite F3|]. intros a. rewrite F4 E4.
  destruct (h_dd s !! a) as [d|]; [|done]. cbn. f_equal. rewrite Hh. destruct (f a d); cbn; [rewrite Hg|]; by destruct (g a d).
Qed.
Lemma wp_process_entries q es s (Q : unit -> ddbg_db -> Prop) : (forall n, q_line q = Some n -> n <> NO_LINE_NUMBER) ->
  (forall a, a ∈ es -> is_Some (h_dd s !! a)) ->
  (forall s', switched s s' (q_enable q) (fun a d => bool_decide (a ∈ es) && matches q d) -> Q tt s') ->
  wp (process_entries es (q_file q) (q_func q) (q_format q) (line_of q) (q_enable q)) s Q.
Proof.
  intros Hn. revert s. induction es as [|x es IH]; intros s Hes HQ; cbn [process_entries].
  { apply wp_ret, HQ. split_and!; try done. intros a. by destruct (h_dd s !! a). }
  destruct (Hes x ltac:(by left)) as [d Hd]. apply wp_bind. eapply wp_load; [exact Hd|]. rewrite matches_code //.
  assert (Hstep : forall s1, switched s s1 (q_enable q) (fun a d => bool_decide (a = x) && matches q d) ->
    wp (process_entries es (q_file q) (q_func q) (q_format q) (line_of q) (q_enable q)) s1 Q).
  { intros s1 Hs1. apply IH.
    - intros a Ha. destruct Hs1 as (_ & _ & _ & E). rewrite E fmap_is_Some. apply Hes. by right.
    - intros s' Hs'. apply HQ. eapply (switched_trans s s1 s'); [| |exact Hs1|exact Hs']; [done|].
      intros a e. cbn. destruct (matches q e); rewrite ?andb_false_r // !andb_true_r. 
      rewrite (bool_decide_ext (a ∈ x :: es) (a = x \/ a ∈ es)); [apply elem_of_cons|]. apply bool_decide_or. }
  apply wp_bind. destruct (matches q d) eqn:Em; cbn [negb].
  - eapply wp_update; [exact Hd|]. apply Hstep. split_and!; try done. intros a. destruct s; cbn in *. destruct (decide (a = x)) as [->|Hne].
    + rewrite lookup_insert_eq Hd /= bool_decide_true // Em //.
    + rewrite lookup_insert_ne //. rewrite bool_decide_false //. by match goal with |- ?h !! _ = _ => destruct (h !! a) end.
  - apply wp_ret. apply Hstep. split_and!; try done. intros a. destruct (h_dd s !! a) as [e|] eqn:E; [|done]. cbn. f_equal.
    case_bool_decide as Ha; [|done]. subst a. rewrite Hd in E. injection E as <-. by rewrite Em.
Qed.
Lemma wp_process_modules q mods s (Q : unit -> ddbg_db -> Prop) : (forall n, q_line q = Some n -> n <> NO_LINE_NUMBER) ->
  (forall m, m ∈ mods -> is_Some (h_mod s !! m)) -> (forall a, a ∈ entries_in (h_mod s) mods -> is_Some (h_dd s !! a)) ->
  (forall s', switched s s' (q_enable q) (fun a d => existsb (selects q (h_mod s) a) mods && matches q d) -> Q tt s') ->
  wp (process_modules mods (q_module q) (q_file q) (q_func q) (q_format q) (line_of q) (q_enable q)) s Q.
Proof.
  intros Hn. revert s. induction mods as [|m mods IH]; intros s Hm Hes HQ; cbn [process_modules].
  { apply wp_ret, HQ, switched_refl. }
  destruct (Hm m ltac:(by left)) as [modd Hd]. apply wp_bind. eapply wp_load; [exact Hd|].
  assert (Ein : entries_in (h_mod s) (m :: mods) = entries_of modd ++ entries_in (h_mod s) mods) by by rewrite /entries_in /= Hd.
  assert (Hstep : forall s1, switched s s1 (q_enable q) (fun a d => selects q (h_mod s) a m && matches q d) ->
    wp (process_modules mods (q_module q) (q_file q) (q_func q) (q_format q) (line_of q) (q_enable q)) s1 Q).
  { intros s1 Hs1. pose proof Hs1 as (_ & _ & E & Ed). apply IH; rewrite ?E.
    - intros a Ha. apply Hm. by right.
    - intros a Ha. rewrite Ed fmap_is_Some. apply Hes. rewrite Ein. apply elem_of_app. by right.
    - intros s' Hs'. apply HQ. eapply (switched_trans s s1 s'); [| |exact Hs1|exact Hs']; [done|]. intros a d. cbn. apply andb_orb_distrib_l. }
  apply wp_bind. assert (Esel : forall a, selects q (h_mod s) a m = is_opt (q_module q) (m_name modd) && bool_decide (a ∈ entries_of modd)) by (intros a; by rewrite /selects Hd).
  assert (Edif : differs (q_module q) (m_name modd) = negb (is_opt (q_module q) (m_name modd))) by by destruct (q_module q).
  rewrite Edif. destruct (is_opt (q_module q) (m_name modd)); cbn [negb].
  - apply wp_process_entries; [done|intros a Ha; apply Hes; rewrite Ein; apply elem_of_app; by left|]. intros s1 Hs1. apply Hstep.
    destruct Hs1 as (A & B & C & D). split_and!; try done. intros a. by rewrite D Esel.
  - apply wp_ret. apply Hstep. split_and!; try done. intros a. rewrite Esel. by destruct (h_dd s !! a).
Qed.

(** ** Parsing *)
Section parse.
Variables (msg : list Z).
Notation is_word := (fun (t : nat) (w : list Z) => cstr_at t msg = Some w).
Lemma parse_clause kw set o ws toks d :
  (forall t a rest d, cstr_at t msg = Some kw -> parse_loop msg (t :: a :: rest) d = parse_loop msg rest (set a d)) ->
  Forall2 is_word toks (clause kw o ++ ws) ->
  exists toks' p, Forall2 is_word toks' ws /\ string_at msg p = Some o /\
    parse_loop msg toks d = parse_loop msg toks' (match p with Some a => set a d | None => d end).
Proof.
  intros Hset Hall. destruct o as [w|]; cbn [clause app] in Hall; [|by exists toks, None].
  apply Forall2_cons_inv_r in Hall as (t & toks1 & Ht & Hall & ->). apply Forall2_cons_inv_r in Hall as (a & toks2 & Ha & Hall & ->).
  exists toks2, (Some a). split; [done|]. split; [by rewrite /= Ha|]. by apply Hset.
Qed.
Lemma parse_line o ws toks d : (forall n, o = Some n -> 0 <= n < NO_LINE_NUMBER) ->
  Forall2 is_word toks (clause (chars "line") (dec <$> o) ++ ws) ->
  exists toks', Forall2 is_word toks' ws /\ parse_loop msg toks d = parse_loop msg toks' (match o with Some n => set_lineno n d | None => d end).
Proof.
  intros Ho Hall. destruct o as [n|]; cbn [clause app fmap option_fmap option_map] in Hall; [|by exists toks].
  apply Forall2_cons_inv_r in Hall as (t & toks1 & Ht & Hall & ->). apply Forall2_cons_inv_r in Hall as (a & toks2 & Ha & Hall & ->).
  exists toks2. split; [done|]. cbn [parse_loop]. rewrite Ht. cbn [mbind option_bind].
  change (_token_type (chars "line")) with (Some DDBG_CRIT_LINENO). cbn iota. rewrite Ha. cbn [mbind option_bind].
  specialize (Ho n eq_refl). unfold NO_LINE_NUMBER in Ho. change (u32 (-1)) with 4294967295 in Ho.
  rewrite strtoul_dec; [lia|]. cbn [fst snd]. rewrite u32_small; [lia|]. by rewrite bool_decide_true.
Qed.
Lemma parse_end b toks d : Forall2 is_word toks [if b : bool then chars "+p" else chars "-p"] ->
  parse_loop msg toks d = Some (0, set_cmd (if b then DDBG_CMD_ENABLE else DDBG_CMD_DISABLE) d).
Proof.
  intros Hall. apply Forall2_cons_inv_r in Hall as (t & toks1 & Ht & Hall & ->). apply Forall2_nil_inv_r in Hall as ->.
  cbn [parse_loop]. rewrite Ht. by destruct b.
Qed.
(** A keyword takes the token behind it. *)
Ltac keyword := intros t a rest d Ht; cbn [parse_loop]; rewrite Ht; reflexivity.
(** What a query parses to. *)
Lemma parse_query q toks : query_ok q -> Forall2 is_word toks (query_words q) ->
  exists ddc, _parse msg (DdbgCtl toks None None None NO_LINE_NUMBER None DDBG_CMD_UNSET) = Some (0, ddc) /\
    string_at msg (modname ddc) = Some (q_module q) /\ string_at msg (function ddc) = Some (q_func q) /\ string_at msg (filename ddc) = Some (q_file q) /\
    string_at msg (format ddc) = Some (q_format q) /\ lineno ddc = line_of q /\ bool_decide (cmd ddc = DDBG_CMD_ENABLE) = q_enable q.
Proof.
  intros (_ & _ & _ & _ & Hline & _) Hall. rewrite /_parse /query_words in Hall |- *. cbn [tokens]. set (d0 := DdbgCtl _ _ _ _ _ _ _).
  destruct (parse_clause (chars "module") set_modname _ _ toks d0 ltac:(keyword) Hall) as (t1 & p1 & H1 & S1 & ->).
  destruct (parse_clause (chars "func") set_function _ _ t1 (match p1 with Some a => set_modname a d0 | None => d0 end) ltac:(keyword) H1) as (t2 & p2 & H2 & S2 & ->).
  match goal with |- context [parse_loop msg t2 ?d] => set (d2 := d) end.
  destruct (parse_clause (chars "file") set_filename _ _ t2 d2 ltac:(keyword) H2) as (t3 & p3 & H3 & S3 & ->).
  match goal with |- context [parse_loop msg t3 ?d] => set (d3 := d) end.
  destruct (parse_line _ _ t3 d3 Hline H3) as (t4 & H4 & ->).
  match goal with |- context [parse_loop msg t4 ?d] => set (d4 := d) end.
  destruct (parse_clause (chars "format") set_format _ _ t4 d4 ltac:(keyword) H4) as (t5 & p5 & H5 & S5 & ->).
  rewrite (parse_end _ _ _ H5). eexists. split; [reflexivity|]. 
  subst d4 d3 d2 d0. destruct p1, p2, p3, p5; destruct (q_line q) eqn:El; destruct (q_enable q); cbn in *; split_and!; try done; by rewrite /line_of El.
Qed.
End parse.

(** ** A command *)
Lemma dec_chars n : 0 <= n < 10 ^ 10 -> Forall (fun c => 48 <= c <= 57) (dec n).
Proof.
  intros Hn. rewrite /dec (proj2 (Z.ltb_ge _ _) (proj1 Hn)). eapply Forall_impl; [exact (proj1 (dec_digits_spec 10 n Hn ltac:(lia)))|].
  intros c [L1%Z.leb_le L2%Z.leb_le]%andb_true_iff. lia.
Qed.
Lemma clause_ok kw o : word_ok kw -> opt_ok o -> Forall word_ok (clause kw o).
Proof. intros Hk Ho. destruct o; [|by apply Forall_nil]. apply Forall_cons. split; [done|]. apply Forall_cons. split; [done|]. by apply Forall_nil. Qed.
Lemma query_words_ok q : query_ok q -> Forall word_ok (query_words q).
Proof.
  intros (H1 & H2 & H3 & H4 & H5 & _). assert (K : forall w, bool_decide (0 ∉ w /\ 34 ∉ w) = true -> word_ok w) by (intros w Hw; by apply bool_decide_eq_true in Hw).
  rewrite /query_words. repeat apply Forall_app_2; try (apply clause_ok; [by apply K|done]).
  - apply clause_ok; [by apply K|]. destruct (q_line q) as [n|] eqn:E; [|done]. specialize (H5 n eq_refl).
    unfold NO_LINE_NUMBER in H5. change (u32 (-1)) with 4294967295 in H5. pose proof (dec_chars n ltac:(lia)) as Hd. rewrite Forall_forall in Hd.
    split; intros Hin; specialize (Hd _ Hin); lia.
  - apply Forall_cons. split; [|by apply Forall_nil]. destruct (q_enable q); by apply K.
Qed.
Definition query_text (q : query) : list Z := text (query_words q).

(** C35: a command written for a query does what the query says: the debug messages it
    matches, those of the module, function, file and line it names whose format contains
    its text, are switched on (off), and no others; nothing else of the registry changes. *)
Theorem ddbg_write_spec q tail id len s : query_ok q -> db_ok s ->
  wp (zus_ddbg_write (ZufsDdbgInfo id len (query_text q ++ 0 :: tail))) s (fun r s' =>
    r.1 = 0 /\ switched s s' (q_enable q) (selected q s)).
Proof.
  intros Hq [Hm Hes]. pose proof (query_words_ok q Hq) as Hw. rewrite /zus_ddbg_write. cbn [zdi_msg].
  assert (Hlex : lexes (query_text q) (query_words q)) by (apply lexes_text; eapply Forall_impl; [exact Hw|]; by intros w [_ ?]).
  assert (H0 : 0 ∉ query_text q) by (apply text_no_nul; eapply Forall_impl; [exact Hw|]; by intros w [? _]).
  destruct (tokenize_run (query_text q) tail H0) as (err & s0 & toks & E & _ & Hok & Hbad). cbn [app] in *. rewrite E. apply wp_bind, wp_ret.
  pose proof Hq as (_ & _ & _ & _ & Hline & Hlen).
  destruct (Z.eq_dec err 0) as [->|Hne].
  2: { exfalso. destruct (Hbad Hne) as [_ Hmany]. specialize (Hmany _ Hlex). cbn in Hmany. unfold MAX_DDBG_CMD_TOKENS in Hmany. lia. }
  destruct (Hok eq_refl) as (ws & Hws & _ & Hall). rewrite (lexes_fun _ _ _ Hws Hlex) in Hall. rewrite Z.eqb_refl. cbn [negb].
  destruct (parse_query _ q toks Hq Hall) as (ddc & Ep & S1 & S2 & S3 & S4 & El & Ec). rewrite Ep. apply wp_bind, wp_ret. cbn [fst snd]. rewrite Z.eqb_refl. cbn [negb].
  apply wp_bind. rewrite /_process S1 S2 S3 S4 El Ec. do 5 (apply wp_bind; apply wp_ret || apply wp_gets).
  apply wp_bind, wp_process_modules; [intros n En; specialize (Hline n En); lia|done|done|]. intros s' Hs'. by apply wp_ret, wp_ret.
Qed.
