(* ===== verification/PrintzRead.v ===== *)
(** * Reading the debug messages page by page

    A page is the longest beginning of the descriptions behind the last number read that
    fits; page after page the reader sees every message once. *)

From stdpp Require Import strings.
From Stdlib Require Import Sorted.
From S2P Require Import Prelude Bytes CStr Printz PrintzSpec.

(** ** The copy of a format *)
Definition escape (fmt : list Z) : list Z := fmt ≫= (fun c => if c =? 10 then [92; 110] else if c =? 9 then [92; 116] else [c]).
Lemma copy_loop_spec sz fmt : forall a b, (length a + length (escape fmt) <= sz)%nat -> (sz < length (a ++ b))%nat ->
  exists b', copy_loop fmt (length a) sz (a ++ b) = a ++ escape fmt ++ 0 :: b' /\ length (copy_loop fmt (length a) sz (a ++ b)) = length (a ++ b).
Proof.
  induction fmt as [|c fmt IH]; intros a b Hf Hs; cbn [copy_loop escape mbind list_bind app] in *.
  { destruct b as [|x b]; [rewrite app_nil_r in Hs; cbn in *; lia|]. exists b. rewrite length_insert. split; [|done].
    by rewrite insert_at -(assoc_L (++)). }
  fold (escape fmt) in Hf |- *. rewrite length_app in Hf. assert (Hlt : (length a < sz)%nat).
  { destruct (c =? 10); [cbn in Hf; lia|]. destruct (c =? 9); cbn in Hf; lia. }
  rewrite (proj2 (Nat.ltb_lt _ _) Hlt). cbn [negb]. rewrite length_app in Hs.
  assert (H2 : forall x, (length a + 2 + length (escape fmt) <= sz)%nat -> exists b', copy_loop fmt (length a + 2) sz (<[S (length a) := x]> (<[length a := 92]> (a ++ b))) = a ++ 92 :: x :: escape fmt ++ 0 :: b' /\
    length (copy_loop fmt (length a + 2) sz (<[S (length a) := x]> (<[length a := 92]> (a ++ b)))) = length (a ++ b)).
  { intros x Hle. destruct b as [|y [|z b]]; [cbn in Hs; lia|cbn in Hs; lia|].
    assert (Ei : <[S (length a) := x]> (<[length a := 92]> (a ++ y :: z :: b)) = (a ++ [92; x]) ++ b).
    { rewrite insert_at. replace (S (length a)) with (length (a ++ [92])) by (rewrite length_app /=; lia). rewrite insert_at. by rewrite -!(assoc_L (++)). }
    rewrite Ei. replace (length a + 2)%nat with (length (a ++ [92; x])) by (rewrite length_app /=; lia).
    destruct (IH (a ++ [92; x]) b) as (b' & E & El); [rewrite length_app /=; lia|rewrite !length_app /= in Hs |- *; lia|].
    exists b'. split; [by rewrite E -!(assoc_L (++))|]. rewrite El !length_app /=. lia. }
  destruct (Z.eqb_spec c 10) as [->|H10]; cbn [orb].
  { rewrite (proj2 (Nat.ltb_ge _ _)); [cbn in Hf; lia|]. by apply H2; cbn in Hf; lia. }
  destruct (Z.eqb_spec c 9) as [->|H9]; cbn [orb].
  { rewrite (proj2 (Nat.ltb_ge _ _)); [cbn in Hf; lia|]. by apply H2; cbn in Hf; lia. }
  destruct b as [|y b]; [cbn in Hs; lia|]. rewrite insert_at. replace (S (length a)) with (length (a ++ [c])) by (rewrite length_app /=; lia).
  destruct (IH (a ++ [c]) b) as (b' & E & El); [rewrite length_app /=; cbn in Hf; lia|rewrite !length_app /= in Hs |- *; lia|].
  exists b'. split; [by rewrite E -!(assoc_L (++))|]. rewrite El !length_app /=. lia.
Qed.
Lemma escape_no_nul fmt : 0 ∉ fmt -> 0 ∉ escape fmt.
Proof.
  intros H0 (c & Hc & Hin)%list_elem_of_bind. destruct (c =? 10); [set_solver|]. destruct (c =? 9); [set_solver|]. set_solver.
Qed.
Lemma copy_format_spec fmt buff : 0 ∉ fmt -> (length (escape fmt) <= MAX_FORMAT_SIZE)%nat -> (MAX_FORMAT_SIZE < length buff)%nat ->
  cstr (_copy_format fmt buff MAX_FORMAT_SIZE) = Some (escape fmt) /\ length (_copy_format fmt buff MAX_FORMAT_SIZE) = length buff.
Proof.
  intros H0 Hf Hb. destruct (copy_loop_spec MAX_FORMAT_SIZE fmt [] buff Hf Hb) as (b' & E & El). split; [|exact El].
  rewrite /_copy_format E. by apply cstr_app, escape_no_nul.
Qed.

(** ** Entries and their lines *)
(** The entry [a] has the number [x.1] and the line [x.2]. *)
Definition described (s : ddbg_db) (a : Z) (x : Z * list Z) : Prop :=
  exists d modd, h_dd s !! a = Some d /\ h_mod s !! dd_modname d = Some modd /\ x = (dd_id d, ddbg_line d (m_name modd) (escape (dd_format d))) /\
    0 ∉ x.2 /\ 0 ∉ dd_format d /\ (length (escape (dd_format d)) <= MAX_FORMAT_SIZE)%nat.
Definition lines (l : list (Z * list Z)) : list Z := l ≫= snd.
Lemma described_nonempty s a x : described s a x -> (0 < length x.2)%nat.
Proof. intros (d & modd & _ & _ & -> & _). cbn [snd]. rewrite /ddbg_line !length_app. cbn. lia. Qed.
(** [l1] is the longest beginning that fits. *)
Definition page_ok (room : Z) (l1 l2 : list (Z * list Z)) : Prop :=
  Z.of_nat (length (lines l1)) <= room /\ match l2 with [] => True | x :: _ => room < Z.of_nat (length (lines l1) + length x.2) end.
Definition last_id (id : Z) (l : list (Z * list Z)) : Z := default id (fst <$> last l).
Lemma last_id_cons id x l : last_id id (x :: l) = last_id x.1 l.
Proof. rewrite /last_id. destruct l as [|y l]; [done|]. change (last (x :: y :: l)) with (last (y :: l)). by destruct (last (y :: l)) eqn:E; [|apply last_None in E]. Qed.

Lemma read_entries_full s es r : r_sz r <= 0 -> read_entries es r s = Some (false, r, s).
Proof. intros Hr. destruct es as [|a es]; [done|]. cbn [read_entries]. by rewrite (proj2 (Z.ltb_ge _ _) Hr). Qed.
Lemma read_entries_app s es1 es2 r : read_entries (es1 ++ es2) r s = (o ← read_entries es1 r; if o.1 : bool then mret o else read_entries es2 o.2) s.
Proof.
  revert r. induction es1 as [|a es1 IH]; intros r; [done|]. cbn [read_entries app].
  destruct (Z.ltb_spec 0 (r_sz r)) as [L|L]; cbn [negb]; [|rewrite /mbind /ST_bind /= read_entries_full //].
  rewrite /mbind /ST_bind /load. destruct (h_dd s !! a) as [d|]; [|done]. rewrite /mbind /ST_bind in IH.
  destruct (dd_id d <=? r_id r); [apply IH|]. destruct (cstr _) as [f|]; [cbn [of_option mret ST_ret]|done].
  destruct (h_mod s !! _) as [m|]; [|done]. destruct (snprintf _ _ _ _) as [msg|]; [cbn [of_option mret ST_ret]|done].
  destruct (r_sz r <? _); [by destruct (put_at _ _ _)|apply IH].
Qed.
Lemma read_entries_keeps s es r : keeps (eq s) (read_entries es r).
Proof. revert r. induction es as [|a es IH]; intros r; cbn [read_entries]; repeat first [progress keeps|progress cbv zeta|apply IH]. Qed.
Lemma read_modules_run s mods r : (forall m, m ∈ mods -> is_Some (h_mod s !! m)) ->
  read_modules mods r s = (o ← read_entries (entries_in (h_mod s) mods) r; mret o.2) s.
Proof.
  revert r. induction mods as [|m mods IH]; intros r Hm; [done|]. destruct (Hm m ltac:(by left)) as [modd Hd].
  assert (Ein : entries_in (h_mod s) (m :: mods) = entries_of modd ++ entries_in (h_mod s) mods) by by rewrite /entries_in /= Hd.
  cbn [read_modules]. rewrite Ein. rewrite /mbind /ST_bind /load Hd. rewrite read_entries_app. rewrite /mbind /ST_bind.
  destruct (read_entries (entries_of modd) r s) as [[o t]|] eqn:E; [|done]. pose proof (read_entries_keeps s _ _ s _ _ eq_refl E) as <-.
  destruct o as [out o]. cbn [fst snd]. destruct out; [done|]. rewrite IH; [|done]. intros m' Hm'. apply Hm. by right.
Qed.

(** ** The loop *)
Lemma put_line pos sz line msg : (pos + sz <= length msg)%nat -> (0 < sz)%nat -> 0 ∉ take pos msg -> 0 ∉ line ->
  exists msg', snprintf pos (Z.of_nat sz) line msg = Some msg' /\ length msg' = length msg /\
    cstr msg' = Some (take pos msg ++ take (sz - 1) line) /\ take pos msg' = take pos msg /\
    ((length line < sz)%nat -> take (pos + length line) msg' = take pos msg ++ line).
Proof.
  intros Hl Hsz Hd H0. rewrite /snprintf. rewrite (proj2 (Z.eqb_neq _ _)); [lia|]. replace (Z.to_nat (Z.of_nat sz - 1)) with (sz - 1)%nat by lia.
  set (w := take (sz - 1) line). assert (Hw : (length w <= sz - 1)%nat) by (rewrite /w length_take; lia).
  rewrite put_at_spec; [rewrite length_app /=; lia|]. eexists. split; [done|]. assert (Hp : length (take pos msg) = pos) by (rewrite length_take; lia).
  split_and!.
  - rewrite !length_app length_take length_drop /=. lia.
  - rewrite -(assoc_L (++)) (assoc_L (++) (take pos msg)). apply cstr_app. rewrite elem_of_app. intros [|Hin]; [done|]. apply H0. rewrite -(take_drop (sz - 1) line). apply elem_of_app. by left.
  - by rewrite take_app_length'.
  - intros Hs. assert (Ew : w = line) by (rewrite /w firstn_all2 //; lia). rewrite Ew -!(assoc_L (++)) (assoc_L (++) (take pos msg)). rewrite take_app_length' // length_app Hp //.
Qed.

Definition readable (r : reading) : Prop :=
  0 < r_sz r /\ (r_pos r + Z.to_nat (r_sz r) <= length (r_msg r))%nat /\ 0 ∉ take (r_pos r) (r_msg r) /\ (MAX_FORMAT_SIZE < length (r_format r))%nat.
(** What the loop does of the entries [l1 ++ l2] that are left. *)
Definition has_read (r r' : reading) (l1 l2 : list (Z * list Z)) : Prop :=
  page_ok (r_sz r) l1 l2 /\ r_id r' = last_id (r_id r) l1 /\ (l1 ++ l2 = [] -> r' = r) /\
  (l1 ++ l2 <> [] -> cstr (r_msg r') = Some (take (r_pos r) (r_msg r) ++ take (Z.to_nat (r_sz r) - 1) (lines l1))).
Lemma filter_all {A} (P : A -> Prop) `{forall x, Decision (P x)} l : Forall P l -> filter P l = l.
Proof. induction 1 as [|x l Hx _ IH]; [done|]. by rewrite filter_cons decide_True // IH. Qed.
Lemma filter_id_sorted id x (l : list (Z * list Z)) : StronglySorted (fun x y => x.1 < y.1) (x :: l) -> id < x.1 ->
  filter (fun y => id < y.1) l = filter (fun y => x.1 < y.1) l.
Proof.
  intros [_ Hx]%StronglySorted_inv Hid. rewrite Forall_forall in Hx. trans l; [|symmetry]; apply filter_all, Forall_forall; intros y Hy; specialize (Hx _ Hy); cbn in *; lia.
Qed.
Lemma wp_read_entries es ds r s : Forall2 (described s) es ds -> StronglySorted (fun x y => x.1 < y.1) ds -> readable r ->
  wp (read_entries es r) s (fun o s' => s' = s /\ exists l1 l2, filter (fun x => r_id r < x.1) ds = l1 ++ l2 /\ has_read r o.2 l1 l2).
Proof.
  intros Hall. revert r. induction Hall as [|a x es ds Hx Hall IH]; intros r Hsort (Hsz & Hpos & Hno & Hfmt); cbn [read_entries].
  { apply wp_ret. split; [done|]. exists [], []. split; [done|]. split; [split; [cbn; lia|done]|done]. }
  rewrite (proj2 (Z.ltb_lt _ _) Hsz). cbn [negb]. pose proof Hx as (d & modd & Hd & Hmod & -> & H0 & Hf0 & Hesc).
  pose proof (described_nonempty _ _ _ Hx) as Hlen. set (line := ddbg_line _ _ _) in *. cbn [snd fst] in H0, Hlen.
  apply wp_bind. eapply wp_load; [exact Hd|]. rewrite filter_cons. cbn [fst].
  destruct (Z.leb_spec (dd_id d) (r_id r)) as [L|L].
  { rewrite decide_False; [lia|]. apply IH; [by apply StronglySorted_inv in Hsort as [? _]|done]. }
  rewrite decide_True // (filter_id_sorted _ _ _ Hsort L).
  destruct (copy_format_spec (dd_format d) (r_format r) Hf0 Hesc Hfmt) as [Ec El]. rewrite Ec. apply wp_bind, wp_ret, wp_bind.
  eapply wp_load; [exact Hmod|]. fold line.
  destruct (put_line (r_pos r) (Z.to_nat (r_sz r)) line (r_msg r)) as (msg & Es & Em & Ecs & Et & Efit); [done|lia|done|done|].
  rewrite Z2Nat.id in Es; [lia|]. rewrite Es. apply wp_bind, wp_ret. set (rest := filter _ ds).
  assert (Hsort' : StronglySorted (fun x y => x.1 < y.1) ds) by by apply StronglySorted_inv in Hsort as [? _].
  destruct (Z.ltb_spec (r_sz r) (Z.of_nat (length line))) as [Lbig|Lfit].
  - (* it does not fit *)
    destruct (put_line (r_pos r) 1 [] msg) as (msg' & Es' & _ & Ecs' & _); [lia|lia|by rewrite Et|set_solver|].
    rewrite /snprintf /= in Es'. rewrite Es'. apply wp_bind, wp_ret, wp_ret. split; [done|]. exists [], ((dd_id d, line) :: rest). split; [done|].
    split_and!; [split; cbn; lia|done|done|]. intros _. cbn [snd r_msg]. rewrite Ecs' Et /= take_nil //.
  - set (r1 := Reading _ _ _ _ _). destruct (Z.eqb_spec (r_sz r) (Z.of_nat (length line))) as [Eq|Hne].
    + (* it fits but for its last byte: nothing more does *)
      rewrite /wp read_entries_full; [cbn; lia|]. split; [done|]. exists [(dd_id d, line)], rest. split; [done|].
      assert (El1 : lines [(dd_id d, line)] = line) by by rewrite /lines /= app_nil_r.
      split_and!; [|by rewrite last_id_cons|done|].
      * rewrite /page_ok El1. split; [lia|]. destruct rest as [|y rest'] eqn:Er; [done|].
        assert (Hy : y ∈ ds) by (assert (Hin : y ∈ rest) by (rewrite Er; by left); by apply list_elem_of_filter in Hin as [_ ?]).
        apply list_elem_of_lookup in Hy as [n Hn]. destruct (Forall2_lookup_r _ _ _ _ _ Hall Hn) as (a' & _ & Hy). pose proof (described_nonempty _ _ _ Hy). lia.
      * intros _. cbn [snd r_msg]. by rewrite Ecs El1.
    + assert (Hlt : (length line < Z.to_nat (r_sz r))%nat) by lia. specialize (Efit Hlt).
      eapply wp_mono.
      { apply (IH r1 Hsort'). split_and!; cbn [r1 r_sz r_pos r_msg r_format]; [lia|rewrite Em; lia| |by rewrite El].
        rewrite Efit elem_of_app. by intros [?|?]. }
      intros o s' (-> & l1 & l2 & El12 & (Hp1 & Hp2) & Hid & Hsame & Hmsg). cbn [r1 r_id r_sz r_pos r_msg] in Hid, Hmsg, El12, Hp1, Hp2.
      split; [done|]. exists ((dd_id d, line) :: l1), l2. split; [by rewrite /rest El12|].
      assert (Elines : lines ((dd_id d, line) :: l1) = line ++ lines l1) by done.
      split; [|split; [by rewrite Hid last_id_cons|split; [done|]]].
      * rewrite /page_ok Elines length_app. split; [lia|]. destruct l2; [done|lia].
      * intros _. rewrite Elines. destruct (decide (l1 ++ l2 = [])) as [E|E].
        { rewrite (Hsame E). apply app_eq_nil in E as [-> ->]. cbn [r1 r_msg]. by rewrite Ecs app_nil_r. }
        rewrite (Hmsg E) Efit -(assoc_L (++)). f_equal. f_equal. rewrite take_app_ge; [lia|]. f_equal. f_equal. lia.
Qed.

(** Reading answers a page: of the messages behind the last number read, in order, the
    longest beginning whose lines fit into the buffer; the number goes to the last of
    them.  A page that fills the buffer to the last byte loses that byte, its newline;
    nothing else is lost or comes twice. *)
Theorem ddbg_read_spec garbage zdi ds s :
  Forall2 (described s) (all_entries s) ds -> StronglySorted (fun x y => x.1 < y.1) ds ->
  (forall m, m ∈ modules s -> is_Some (h_mod s !! m)) ->
  0 < zdi_len zdi <= Z.of_nat (length (zdi_msg zdi)) -> is_Some (cstr (zdi_msg zdi)) -> (MAX_FORMAT_SIZE < length garbage)%nat ->
  wp (zus_ddbg_read garbage zdi) s (fun r s' => s' = s /\ r.1 = 0 /\
    exists l1 l2, filter (fun x => zdi_id zdi < x.1) ds = l1 ++ l2 /\ page_ok (zdi_len zdi) l1 l2 /\ zdi_id r.2 = last_id (zdi_id zdi) l1 /\
      (l1 ++ l2 <> [] -> cstr (zdi_msg r.2) = Some (take (Z.to_nat (zdi_len zdi) - 1) (lines l1)) /\
        zdi_len r.2 = Z.of_nat (length (take (Z.to_nat (zdi_len zdi) - 1) (lines l1))))).
Proof.
  intros Hds Hsort Hm Hlen [old Hold] Hg. rewrite /zus_ddbg_read. apply wp_bind, wp_gets, wp_bind. set (r := Reading _ _ _ _ _).
  eapply wp_eq; [by apply read_modules_run|]. apply wp_bind. eapply wp_mono.
  { apply (wp_read_entries _ ds r s Hds Hsort). split_and!; cbn; [lia|lia|set_solver|done]. }
  intros [out o] s' (-> & l1 & l2 & El & Hp & Hid & Hsame & Hmsg). apply wp_ret. cbn [snd] in *.
  destruct (decide (l1 ++ l2 = [])) as [E|E].
  - rewrite (Hsame E). cbn [r r_msg]. rewrite Hold. apply wp_bind, wp_ret, wp_ret. split; [done|]. split; [done|]. exists l1, l2. split; [done|]. split; [done|].
    cbn [r_id]. split; [by rewrite -Hid (Hsame E)|]. by intros [].
  - specialize (Hmsg E). cbn [r r_pos r_sz r_msg take app] in Hmsg. rewrite Hmsg. apply wp_bind, wp_ret, wp_ret. split; [done|]. split; [done|].
    exists l1, l2. split; [done|]. split; [done|]. split; [done|]. intros _. by split.
Qed.
