(* ===== verification/PrintzInit.v ===== *)
(** * Loading a library into the debug registry

    The new messages get numbers behind all others, in the order in which they lie. *)

From stdpp Require Import strings sorting.
From Stdlib Require Import Sorted.
From S2P Require Import Prelude Bytes CStr Printz PrintzSpec PrintzRead.

(** The registry is in order: its modules exist, and [ds] are the numbers and lines of its
    entries, the numbers ascending. *)
Definition db_inv (s : ddbg_db) (ds : list (Z * list Z)) : Prop :=
  (forall m, m ∈ modules s -> is_Some (h_mod s !! m)) /\ Forall2 (described s) (all_entries s) ds /\
  StronglySorted (fun x y => x.1 < y.1) ds /\ Forall (fun x => x.1 <= next_id s) ds /\ 0 <= next_id s.
(** The entries of a section. *)
Definition section_of (iter : Z) (n : nat) : list Z := (fun i => iter + SIZEOF_DDEBUG * Z.of_nat i) <$> seq 0 n.
Lemma section_S iter n : section_of iter (S n) = iter :: section_of (iter + SIZEOF_DDEBUG) n.
Proof.
  rewrite /section_of. change (seq 0 (S n)) with (0%nat :: seq 1 n). rewrite fmap_cons. f_equal; [lia|].
  rewrite -(fmap_S_seq 0 n) -list_fmap_compose. apply list_fmap_ext. intros i j _. cbn. lia.
Qed.
Lemma section_length iter n : length (section_of iter n) = n.
Proof. by rewrite /section_of length_fmap length_seq. Qed.
Lemma section_gt iter n a : a ∈ section_of (iter + SIZEOF_DDEBUG) n -> iter < a.
Proof. intros (i & -> & _)%list_elem_of_fmap. unfold SIZEOF_DDEBUG. lia. Qed.
(** An entry after [_init_ddbg]. *)
Definition inited (id modname : Z) (dd : _ddebug) : _ddebug :=
  Ddebug id modname (dd_function dd) (default (dd_filename dd) (strrchr_rest 47 (dd_filename dd))) (dd_lineno dd) (dd_format dd) (dd_active dd).
Definition add_entries (l : list Z) (m : module_ddbg) : module_ddbg := ModuleDdbg (m_name m) (n_dbg_entries m) (dbg_entries m ++ l).

Lemma wp_init_entries n iter modd s m (Q : unit -> ddbg_db -> Prop) :
  h_mod s !! modd = Some m -> 0 <= next_id s -> next_id s + Z.of_nat n < 2 ^ 32 ->
  (forall a, a ∈ section_of iter n -> is_Some (h_dd s !! a)) ->
  (forall s', modules s' = modules s -> next_id s' = next_id s + Z.of_nat n -> h_mod s' = <[modd := add_entries (section_of iter n) m]> (h_mod s) ->
    (forall a, a ∉ section_of iter n -> h_dd s' !! a = h_dd s !! a) ->
    (forall i a d, section_of iter n !! i = Some a -> h_dd s !! a = Some d -> h_dd s' !! a = Some (inited (next_id s + 1 + Z.of_nat i) modd d)) -> Q tt s') ->
  wp (init_entries n iter modd) s Q.
Proof.
  revert iter s m Q. induction n as [|n IH]; intros iter s m Q Hm Hid Hmax Hes HQ; cbn [init_entries].
  { apply wp_ret, HQ; try done; try lia. rewrite /add_entries app_nil_r. destruct m. by rewrite insert_id. }
  rewrite section_S in Hes HQ. destruct (Hes iter ltac:(by left)) as [d Hd]. rewrite /_init_ddbg. apply wp_bind. wp_steps; [exact Hd|exact Hm|].
  assert (Eu : u32 (next_id s + 1) = next_id s + 1) by (apply u32_small; lia). cbn [next_id]. rewrite Eu. set (s1 := upd_h_mod _ _).
  assert (E1 : modules s1 = modules s /\ next_id s1 = next_id s + 1 /\ h_mod s1 = <[modd := add_entries [iter] m]> (h_mod s) /\ h_dd s1 = <[iter := inited (next_id s + 1) modd d]> (h_dd s)) by done.
  destruct E1 as (E1 & E2 & E3 & E4). clearbody s1.
  assert (Hout : iter ∉ section_of (iter + SIZEOF_DDEBUG) n) by (intros Hin%section_gt; lia).
  apply (IH (iter + SIZEOF_DDEBUG) s1 (add_entries [iter] m)); [by rewrite E3 lookup_insert_eq|lia|lia| |].
  { intros a Ha. rewrite E4. destruct (decide (a = iter)) as [->|Hne]; [by rewrite lookup_insert_eq|]. rewrite lookup_insert_ne //. apply Hes. by right. }
  intros s' F1 F2 F3 F4 F5. apply HQ.
  - by rewrite F1.
  - rewrite F2 E2. lia.
  - rewrite F3 E3 insert_insert_eq /add_entries. cbn. by rewrite -(assoc_L (++)).
  - intros a [Ha1 Ha2]%not_elem_of_cons. rewrite F4 // E4 lookup_insert_ne //.
  - intros [|i] a d' Hi Hd'.
    + injection Hi as <-. rewrite Hd in Hd'. injection Hd' as <-. rewrite F4 // E4 lookup_insert_eq Z.add_0_r //.
    + cbn in Hi. assert (Hne : a <> iter). { intros ->. by apply Hout, (list_elem_of_lookup_2 _ i). }
      rewrite (F5 i a d'); [done|by rewrite E4 lookup_insert_ne|]. rewrite E2. f_equal. f_equal. lia.
Qed.

(** What a library may hold: the entries of its section are not registered yet, and their
    texts are C strings whose format fits. *)
Definition entry_fits (d : _ddebug) : Prop :=
  0 ∉ dd_filename d /\ 0 ∉ dd_function d /\ 0 ∉ dd_format d /\ (length (escape (dd_format d)) <= MAX_FORMAT_SIZE)%nat.
Definition library_ok (s : ddbg_db) (iter : Z) (n : nat) : Prop :=
  forall a, a ∈ section_of iter n -> a ∉ all_entries s /\ exists d, h_dd s !! a = Some d /\ entry_fits d.
Lemma dec_no_nul n : - 2 ^ 31 <= n < 2 ^ 31 -> 0 ∉ dec n.
Proof.
  assert (H : forall fuel m, 0 <= m -> 0 ∉ dec_digits fuel m).
  { induction fuel as [|k IH]; intros m Hm; cbn [dec_digits]; [set_solver|]. destruct (m <? 10); [rewrite list_elem_of_singleton; lia|].
    rewrite elem_of_app. intros [Hin|Hin]; [by apply (IH (m / 10)); [apply Z.div_pos; lia|]|]. apply list_elem_of_singleton in Hin.
    pose proof (Z.mod_pos_bound m 10 ltac:(lia)). lia. }
  intros Hn. rewrite /dec. destruct (Z.ltb_spec n 0); [|by apply H]. intros [E|Hin]%elem_of_cons; [done|]. apply (H 10%nat (- n)); [lia|done].
Qed.
Lemma strrchr_no_nul c s r : strrchr_rest c s = Some r -> 0 ∉ s -> 0 ∉ r.
Proof.
  revert r. induction s as [|d s IH]; intros r; cbn [strrchr_rest]; [done|]. destruct (strrchr_rest c s) as [r'|].
  - intros [= <-] [_ H0]%not_elem_of_cons. by apply (IH r').
  - destruct (d =? c); [|done]. by intros [= <-] [_ H0]%not_elem_of_cons.
Qed.
Lemma line_no_nul id modname name d : entry_fits d -> 0 ∉ name -> 0 ∉ ddbg_line (inited id modname d) name (escape (dd_format d)).
Proof.
  intros (H1 & H2 & H3 & _) Hn. rewrite /ddbg_line !not_elem_of_app. cbn [dd_filename dd_lineno dd_function dd_active inited].
  assert (Hs : - 2 ^ 31 <= s32 (dd_lineno d) < 2 ^ 31).
  { rewrite /s32. pose proof (Z.mod_pos_bound (dd_lineno d) (2 ^ 32) ltac:(lia)). destruct (Z.ltb_spec (dd_lineno d mod 2 ^ 32) (2 ^ 31)); lia. }
  assert (K : forall s, bool_decide (0 ∉ chars s) = true -> 0 ∉ chars s) by (intros s Hs'; by apply bool_decide_eq_true in Hs').
  split_and!; try done; try (by apply K); try (by apply dec_no_nul); [|by destruct (dd_active d); apply K|set_solver|by apply escape_no_nul|set_solver].
  destruct (strrchr_rest 47 (dd_filename d)) as [r|] eqn:E; [|done]. by apply (strrchr_no_nul 47 (dd_filename d)).
Qed.

Lemma entries_in_ext h h' mods : (forall m, m ∈ mods -> h !! m = h' !! m) -> entries_in h mods = entries_in h' mods.
Proof.
  induction mods as [|m mods IH]; intros Hm; [done|]. rewrite /entries_in /= (Hm m); [by left|]. f_equal. apply IH. intros m' Hm'. apply Hm. by right.
Qed.
(** Entries numbered from [start] on. *)
Lemma numbered {A} (P : A -> Z * list Z -> Prop) l start : (forall i a, l !! i = Some a -> exists x, P a x /\ x.1 = start + Z.of_nat i) ->
  exists new, Forall2 P l new /\ fst <$> new = seqZ start (Z.of_nat (length l)) /\ StronglySorted (fun x y => x.1 < y.1) new /\
    Forall (fun x => start <= x.1 < start + Z.of_nat (length l)) new.
Proof.
  revert start. induction l as [|a l IH]; intros start Hl; [by exists []; split_and!; constructor|].
  destruct (Hl 0%nat a eq_refl) as (x & Hx & Ex). destruct (IH (start + 1)) as (new & I1 & I2 & I3 & I4).
  { intros i b Hb. destruct (Hl (S i) b Hb) as (y & Hy & Ey). exists y. split; [done|lia]. }
  exists (x :: new). split; [by constructor|]. rewrite Z.add_0_r in Ex. split_and!.
  - rewrite fmap_cons I2 Ex. cbn [length]. rewrite (seqZ_cons start); [lia|]. f_equal. f_equal; lia.
  - constructor; [done|]. eapply Forall_impl; [exact I4|]. intros y Hy. cbn in *. lia.
  - constructor; [cbn [length]; lia|]. eapply Forall_impl; [exact I4|]. intros y Hy. cbn in *. lia.
Qed.

(** Loading a library puts its messages at the end of the registry, with the next
    numbers, none left out, and leaves the registry in order. *)
Theorem add_module_spec (name : list Z) (iter modd : Z) (n : nat) s ds :
  db_inv s ds -> library_ok s iter n -> (Z.of_nat (length name) < 256) -> 0 ∉ name -> (length (modules s) < 16)%nat -> Z.of_nat n < 2 ^ 16 ->
  next_id s + Z.of_nat n < 2 ^ 32 -> h_mod s !! modd = None ->
  wp (zus_add_module_ddbg name (Some iter) (Some (iter + SIZEOF_DDEBUG * Z.of_nat n)) (Some modd)) s (fun err s' => err = 0 /\
    all_entries s' = all_entries s ++ section_of iter n /\ exists new, db_inv s' (ds ++ new) /\ fst <$> new = seqZ (next_id s + 1) (Z.of_nat n)).
Proof.
  intros (Hmods & Hds & Hsort & Hids & Hid0) Hlib Hname H0 Hfew Hn Hmax Hfresh. rewrite /zus_add_module_ddbg. unfold ZUS_LIBFS_MAX_PATH.
  rewrite (proj2 (Z.leb_gt _ _) Hname). replace (iter + SIZEOF_DDEBUG * Z.of_nat n - iter) with (Z.of_nat n * SIZEOF_DDEBUG) by lia.
  rewrite Z.div_mul // s32_small; [lia|]. apply wp_bind, wp_gets, wp_bind, wp_assert; [by apply Nat.ltb_lt|]. apply wp_bind, wp_modify, wp_bind.
  rewrite Nat2Z.id. set (s0 := upd_h_mod _ s). assert (E0 : u16 (Z.of_nat n) = Z.of_nat n) by (apply Z.mod_small; lia).
  assert (Hne : forall m, m ∈ modules s -> m <> modd) by (intros m Hm ->; destruct (Hmods _ Hm); congruence).
  eapply (wp_init_entries n iter modd s0); [apply lookup_insert_eq|done|done|intros a Ha; destruct (Hlib a Ha) as (_ & d & Hd & _); by exists d|].
  intros s1 F1 F2 F3 F4 F5. apply wp_bind, wp_modify, wp_ret. split; [done|]. set (s2 := DdbgDb _ _ _ _).
  assert (Eh : h_mod s2 = <[modd := ModuleDdbg name (Z.of_nat n) (section_of iter n)]> (h_mod s)).
  { cbn [s2 h_mod]. rewrite F3 /s0 /= insert_insert_eq /add_entries /= E0 //. }
  assert (Eall : all_entries s2 = all_entries s ++ section_of iter n).
  { rewrite /all_entries Eh. cbn [s2 modules]. rewrite F1 /entries_in bind_app -!/(entries_in _ _). cbn [modules s0 upd_h_mod]. f_equal.
    - apply entries_in_ext. intros m Hm. rewrite lookup_insert_ne //. intros ->. by destruct (Hne m Hm).
    - cbn. rewrite lookup_insert_eq /entries_of. cbn [n_dbg_entries dbg_entries]. by rewrite Nat2Z.id app_nil_r firstn_all2 // section_length. }
  split; [exact Eall|].
  destruct (numbered (described s2) (section_of iter n) (next_id s + 1)) as (new & N1 & N2 & N3 & N4).
  { intros i a Hi. pose proof (list_elem_of_lookup_2 _ _ _ Hi) as Hin. destruct (Hlib a Hin) as (_ & d & Hd & Hfit).
    eexists (_, _). split; [|]. 
    - eexists _, _. split; [exact (F5 i a d Hi Hd)|]. split; [by rewrite Eh lookup_insert_eq|]. split; [reflexivity|]. cbn [dd_format inited snd].
      split; [by apply line_no_nul|]. by destruct Hfit as (_ & _ & ? & ?).
    - cbn. lia. }
  rewrite section_length in N2 N4. exists new. split; [|exact N2]. split; [|split; [|split; [|split]]].
  - intros m. cbn [s2 modules]. rewrite F1 elem_of_app list_elem_of_singleton Eh. intros [Hm| ->]; [|by rewrite lookup_insert_eq].
    rewrite lookup_insert_ne; [intros ->; by destruct (Hne m Hm)|]. by apply Hmods.
  - rewrite Eall. apply Forall2_app; [|exact N1]. apply Forall2_lookup. intros i. destruct (all_entries s !! i) as [a|] eqn:Ea.
    + destruct (Forall2_lookup_l _ _ _ _ _ Hds Ea) as (x & Ex & d & modd' & Hd & Hm & Hrest). rewrite Ex. constructor. exists d, modd'.
      split; [|split; [|exact Hrest]].
      * cbn [s2 h_dd]. rewrite F4; [|exact Hd]. intros Hin. destruct (Hlib a Hin) as [Hno _]. by apply Hno, (list_elem_of_lookup_2 _ i).
      * rewrite Eh lookup_insert_ne //. intros ->. congruence.
    + apply lookup_ge_None in Ea. rewrite (Forall2_length _ _ _ Hds) in Ea. apply lookup_ge_None in Ea. rewrite Ea. constructor.
  - apply StronglySorted_app_2; [|exact Hsort|exact N3]. intros x y Hx Hy. rewrite !Forall_forall in Hids N4. specialize (Hids _ Hx). specialize (N4 _ Hy). cbn in *. lia.
  - apply Forall_app. cbn [s2 next_id]. rewrite F2. cbn [s0 next_id upd_h_mod]. split; eapply Forall_impl; [exact Hids| |exact N4|]; intros x Hx; cbn in *; lia.
  - cbn [s2 next_id]. rewrite F2. cbn. lia.
Qed.
