(* ===== verification/PrintzEx.v ===== *)
(** * A registry with one library

    Concrete inputs for the theorems of the other files, and what goes wrong at the ends of
    buffers. *)

From stdpp Require Import strings.
From Stdlib Require Import Sorted.
From S2P Require Import Prelude Bytes CStr Printz PrintzLex PrintzSpec PrintzRead PrintzInit.

(** Two messages of a library, at the addresses 1000 and 1056, before it is loaded. *)
Definition dd1 : _ddebug := Ddebug 0 0 (chars "_write") (chars "fs/toyfs/file.c") 391 (chars "off=%d" ++ [10]) false.
Definition dd2 : _ddebug := Ddebug 0 0 (chars "_lookup") (chars "namei.c") 27 (chars "name=%s") true.
Definition db_boot : ddbg_db := DdbgDb [] 0 ∅ {[1000 := dd1; 1056 := dd2]}.
(** And after. *)
Definition db_loaded : ddbg_db :=
  DdbgDb [8] 2 {[8 := ModuleDdbg (chars "toyfs") 2 [1000; 1056]]} {[1000 := inited 1 8 dd1; 1056 := inited 2 8 dd2]}.
Example load_runs : zus_add_module_ddbg (chars "toyfs") (Some 1000) (Some 1112) (Some 8) db_boot = Some (0, db_loaded).
Proof. vm_compute. reflexivity. Qed.
Lemma add_module_spec_witness :
  db_inv db_boot [] /\ library_ok db_boot 1000 2 /\
  wp (zus_add_module_ddbg (chars "toyfs") (Some 1000) (Some 1112) (Some 8)) db_boot (fun err s' => err = 0 /\
    all_entries s' = [1000; 1056] /\ exists new, db_inv s' new /\ fst <$> new = [1; 2]).
Proof.
  assert (Hinv : db_inv db_boot []).
  { split; [intros m Hm; by apply elem_of_nil in Hm|]. split; [constructor|]. split; [constructor|]. split; [constructor|cbn; lia]. }
  assert (Hlib : library_ok db_boot 1000 2).
  { intros a Ha. split; [cbn; apply not_elem_of_nil|]. cbn in Ha. apply elem_of_cons in Ha as [->|[->|Ha%elem_of_nil]%elem_of_cons]; [exists dd1|exists dd2|done].
    1-2: split; [reflexivity|]; split_and!; try (apply (bool_decide_unpack _); vm_compute; exact I); apply Nat.leb_le; reflexivity. }
  split; [exact Hinv|]. split; [exact Hlib|].
  refine (add_module_spec (chars "toyfs") 1000 8 2 db_boot [] Hinv Hlib _ _ _ _ _ _); try reflexivity; try (cbn; lia).
  apply (bool_decide_unpack _); vm_compute; exact I.
Defined.

(** Its lines. *)
Definition lines_loaded : list (Z * list Z) :=
  [(1, chars "file.c:391 [toyfs] _write =_ " ++ [34] ++ chars "off=%d\n" ++ [34; 10]); (2, chars "namei.c:27 [toyfs] _lookup =p " ++ [34] ++ chars "name=%s" ++ [34; 10])].
Lemma db_loaded_described : Forall2 (described db_loaded) (all_entries db_loaded) lines_loaded.
Proof.
  change (all_entries db_loaded) with [1000; 1056].
  repeat (apply Forall2_cons; split); [exists (inited 1 8 dd1)|exists (inited 2 8 dd2)|by apply Forall2_nil];
    eexists; (split; [reflexivity|]); (split; [reflexivity|]); (split; [vm_compute; reflexivity|]);
    (split; [apply (bool_decide_unpack _); vm_compute; exact I|]); (split; [apply (bool_decide_unpack _); vm_compute; exact I|]); apply Nat.leb_le; reflexivity.
Qed.
Lemma db_loaded_modules m : m ∈ modules db_loaded -> is_Some (h_mod db_loaded !! m).
Proof. intros ->%list_elem_of_singleton. by eexists. Qed.
(** 50 bytes: the first line has 40. *)
Definition page_example : zufs_ddbg_info := ZufsDdbgInfo 0 50 (replicate 64 0).
Lemma ddbg_read_spec_witness :
  0 < zdi_len page_example /\ wp (zus_ddbg_read (replicate 513 1) page_example) db_loaded (fun r s' => s' = db_loaded /\ r.1 = 0 /\
    exists l1 l2, lines_loaded = l1 ++ l2 /\ page_ok 50 l1 l2 /\ zdi_id r.2 = last_id 0 l1).
Proof.
  split; [reflexivity|]. eapply wp_mono.
  - apply (ddbg_read_spec (replicate 513 1) page_example lines_loaded db_loaded db_loaded_described); [|exact db_loaded_modules| |by eexists|].
    + repeat constructor.
    + cbn [zdi_len zdi_msg page_example]. rewrite length_replicate. lia.
    + rewrite length_replicate. unfold MAX_FORMAT_SIZE. lia.
  - intros r s' (E1 & E2 & l1 & l2 & El & Hp & Hid & _). split; [exact E1|]. split; [exact E2|]. exists l1, l2. split; [exact El|]. split; [exact Hp|exact Hid].
Defined.
Example read_runs : (fun '(r, _) => (zdi_id r.2, zdi_len r.2)) <$> zus_ddbg_read (replicate 513 1) page_example db_loaded = Some (1, 40).
Proof. vm_compute. reflexivity. Qed.

(** [module toyfs file file.c +p] *)
Definition query_example : query := Query (Some (chars "toyfs")) None (Some (chars "file.c")) None None true.
Lemma ddbg_write_spec_witness : query_ok query_example /\ wp (zus_ddbg_write (ZufsDdbgInfo 0 64 (query_text query_example ++ 0 :: []))) db_loaded (fun r s' =>
  r.1 = 0 /\ switched db_loaded s' true (selected query_example db_loaded)).
Proof.
  assert (Hq : query_ok query_example).
  { split_and!; try exact I; try (intros n [=]); try (cbn; lia); try (split; apply (bool_decide_unpack _); vm_compute; exact I). }
  split; [exact Hq|]. apply (ddbg_write_spec query_example [] 0 64 db_loaded Hq). split; [exact db_loaded_modules|].
  intros a Ha. change (all_entries db_loaded) with [1000; 1056] in Ha. apply elem_of_cons in Ha as [->|[->|Ha%elem_of_nil]%elem_of_cons]; [by eexists|by eexists|done].
Defined.
Example write_text : query_text query_example = chars "module toyfs file file.c +p ".
Proof. vm_compute. reflexivity. Qed.
(** The whole of a buffer but for its NUL: the newline is lost. *)
Example read_cuts_newline : (fun '(r, _) => (zdi_id r.2, last (default [] (cstr (zdi_msg r.2))))) <$> zus_ddbg_read (replicate 513 1) (ZufsDdbgInfo 0 40 (replicate 64 0)) db_loaded = Some (1, Some 34).
Proof. vm_compute. reflexivity. Qed.
(** A newline as the 512th character of a format: the copy has no NUL. *)
Example copy_format_unterminated : cstr (_copy_format (replicate 511 120 ++ [10]) (replicate 513 1) MAX_FORMAT_SIZE) = None.
Proof. vm_compute. reflexivity. Qed.
