(* ===== verification/Movnt.v ===== *)
(** * Copies to persistent memory: nvml_movnt.c and movnt.h

    Memory byte by byte, and for each byte whether its last store has reached the
    persistent medium: a plain store sits in the cache until its line is flushed; a
    non-temporal one, and what clwb or clflushopt write back, is on its way until the next
    fence. *)

From S2P Require Import Prelude.

(** ** Memory *)
Inductive status := Dirty | Streamed.
#[global] Instance status_dec : EqDecision status.
Proof. solve_decision. Defined.
(** [bytes_at] has the mapped bytes; [volatile] those that are not persistent yet. *)
Record pm := Pm { bytes_at : gmap Z Z; volatile : gmap Z status }.
Notation PM := (ST pm).

Fixpoint get_bytes (m : gmap Z Z) (a : Z) (n : nat) : option (list Z) :=
  match n with O => Some [] | S k => b ← m !! a; l ← get_bytes m (a + 1) k; Some (b :: l) end.
Fixpoint put_bytes {A} (a : Z) (l : list A) (m : gmap Z A) : gmap Z A :=
  match l with [] => m | b :: l' => put_bytes (a + 1) l' (<[a := b]> m) end.
Definition load_bytes (a : Z) (n : nat) : PM (list Z) := m ← gets bytes_at; of_option (get_bytes m a n).
(** A store to bytes that are not mapped faults. *)
Definition store (k : status) (a : Z) (l : list Z) : PM unit :=
  load_bytes a (length l);;
  modify (fun s => Pm (put_bytes a l (bytes_at s)) (put_bytes a (replicate (length l) k) (volatile s))).

(** ** Instructions *)
Definition CACHELINE_ALIGN : Z := 64.
Definition CACHELINE_MASK : Z := CACHELINE_ALIGN - 1.
Definition _mm_loadu_si128 (a : Z) : PM (list Z) := load_bytes a 16.
(** It faults on an address that is not aligned. *)
Definition _mm_stream_si128 (a : Z) (v : list Z) : PM unit := assert (a mod 16 =? 0);; store Streamed a v.
Definition _mm_stream_si32 (a : Z) (v : list Z) : PM unit := store Streamed a v.
(** The line of [p] goes to the medium. *)
Definition _mm_clflush (p : Z) : PM unit :=
  modify (fun s => Pm (bytes_at s) (filter (fun kv => ~ (kv.1 / CACHELINE_ALIGN = p / CACHELINE_ALIGN /\ kv.2 = Dirty)) (volatile s))).
(** clflushopt and clwb are only ordered by a fence. *)
Definition write_back (p : Z) : PM unit :=
  modify (fun s => Pm (bytes_at s) (map_imap (fun x k => Some (if bool_decide (x / CACHELINE_ALIGN = p / CACHELINE_ALIGN) then Streamed else k)) (volatile s))).
Definition _mm_sfence : PM unit := modify (fun s => Pm (bytes_at s) (filter (fun kv => kv.2 <> Streamed) (volatile s))).
(** memmove and memset of the C library. *)
Definition memmove (dest src len : Z) : PM unit := l ← load_bytes src (Z.to_nat len); store Dirty dest l.
Definition memset (dest c len : Z) : PM unit := store Dirty dest (replicate (Z.to_nat len) c).

(** ** nvml_movnt.c *)
Fixpoint flush_loop (fuel : nat) (uptr end_ : Z) : PM unit :=
  match fuel with
  | O => abort
  | S k => if uptr <? end_ then _mm_clflush uptr;; flush_loop k (u64 (uptr + CACHELINE_ALIGN)) end_ else mret tt
  end.
Definition flush_clflush (addr len : Z) : PM unit :=
  flush_loop (Z.to_nat (len / CACHELINE_ALIGN) + 3) (Z.ldiff addr (CACHELINE_ALIGN - 1)) (u64 (addr + len)).
Definition pmem_flush (addr len : Z) : PM unit := flush_clflush addr len.

Definition CHUNK_SHIFT : Z := 7.
Definition CHUNK_MASK : Z := 127.
Definition DWORD_SHIFT : Z := 2.
Definition DWORD_MASK : Z := 3.
Definition MOVNT_SHIFT : Z := 4.
Definition MOVNT_MASK : Z := 15.
Definition MOVNT_THRESHOLD : Z := 256.

(** [for (i = 0; i < cnt; i++)] with the two pointers. *)
Fixpoint repeat_step (n : nat) (step : Z * Z -> PM (Z * Z)) (p : Z * Z) : PM (Z * Z) :=
  match n with O => mret p | S k => p ← step p; repeat_step k step p end.
Fixpoint loads (l : list Z) : PM (list (list Z)) :=
  match l with [] => mret [] | a :: l' => v ← _mm_loadu_si128 a; r ← loads l'; mret (v :: r) end.
Fixpoint streams (l : list (Z * list Z)) : PM unit :=
  match l with [] => mret tt | (a, v) :: l' => _mm_stream_si128 a v;; streams l' end.
Definition up8 (p : Z * Z) : PM (Z * Z) := v ← load_bytes p.2 1; store Dirty p.1 v;; mret (p.1 + 1, p.2 + 1).
Definition up32 (p : Z * Z) : PM (Z * Z) := v ← load_bytes p.2 4; _mm_stream_si32 p.1 v;; mret (p.1 + 4, p.2 + 4).
Definition up128 (p : Z * Z) : PM (Z * Z) := v ← _mm_loadu_si128 p.2; _mm_stream_si128 p.1 v;; mret (p.1 + 16, p.2 + 16).
(** Eight registers, xmm0 to xmm7. *)
Definition up_chunk (p : Z * Z) : PM (Z * Z) :=
  xmm ← loads ((fun i => p.2 + 16 * i) <$> [0; 1; 2; 3; 4; 5; 6; 7]);
  streams (zip ((fun i => p.1 + 16 * i) <$> [0; 1; 2; 3; 4; 5; 6; 7]) xmm);;
  mret (p.1 + 128, p.2 + 128).
Definition down8 (p : Z * Z) : PM (Z * Z) := v ← load_bytes (p.2 - 1) 1; store Dirty (p.1 - 1) v;; mret (p.1 - 1, p.2 - 1).
Definition down32 (p : Z * Z) : PM (Z * Z) := v ← load_bytes (p.2 - 4) 4; _mm_stream_si32 (p.1 - 4) v;; mret (p.1 - 4, p.2 - 4).
Definition down128 (p : Z * Z) : PM (Z * Z) := v ← _mm_loadu_si128 (p.2 - 16); _mm_stream_si128 (p.1 - 16) v;; mret (p.1 - 16, p.2 - 16).
Definition down_chunk (p : Z * Z) : PM (Z * Z) :=
  xmm ← loads ((fun i => p.2 - 16 * i) <$> [1; 2; 3; 4; 5; 6; 7; 8]);
  streams (zip ((fun i => p.1 - 16 * i) <$> [1; 2; 3; 4; 5; 6; 7; 8]) xmm);;
  mret (p.1 - 128, p.2 - 128).

(** The branch that copies forward: to the cache line boundary, chunks, 16 bytes, words and
    bytes. *)
Definition move_up (dest1 src len : Z) : PM unit :=
  let cnt := Z.land dest1 CACHELINE_MASK in
  a ← (if 0 <? cnt then
         let cnt := Z.min (CACHELINE_ALIGN - cnt) len in
         repeat_step (Z.to_nat cnt) up8 (dest1, src);;
         pmem_flush dest1 cnt;;
         mret (dest1 + cnt, src + cnt, len - cnt)
       else mret (dest1, src, len));
  let len := a.2 in
  p ← repeat_step (Z.to_nat (Z.shiftr len CHUNK_SHIFT)) up_chunk a.1;
  let len := Z.land len CHUNK_MASK in
  p ← (if negb (len =? 0) then repeat_step (Z.to_nat (Z.shiftr len MOVNT_SHIFT)) up128 p else mret p);
  let len := Z.land len MOVNT_MASK in
  if negb (len =? 0) then
    p ← repeat_step (Z.to_nat (Z.shiftr len DWORD_SHIFT)) up32 p;
    let cnt := Z.land len DWORD_MASK in
    repeat_step (Z.to_nat cnt) up8 p;;
    pmem_flush p.1 cnt
  else mret tt.
(** And the one that copies backward, from the ends. *)
Definition move_down (dest1 src len : Z) : PM unit :=
  let dest1 := dest1 + len in
  let src := src + len in
  let cnt := Z.land dest1 CACHELINE_MASK in
  a ← (if 0 <? cnt then
         let cnt := Z.min cnt len in
         p ← repeat_step (Z.to_nat cnt) down8 (dest1, src);
         pmem_flush p.1 cnt;;
         mret (dest1 - cnt, src - cnt, len - cnt)
       else mret (dest1, src, len));
  let len := a.2 in
  p ← repeat_step (Z.to_nat (Z.shiftr len CHUNK_SHIFT)) down_chunk a.1;
  let len := Z.land len CHUNK_MASK in
  p ← (if negb (len =? 0) then repeat_step (Z.to_nat (Z.shiftr len MOVNT_SHIFT)) down128 p else mret p);
  let len := Z.land len MOVNT_MASK in
  if negb (len =? 0) then
    p ← repeat_step (Z.to_nat (Z.shiftr len DWORD_SHIFT)) down32 p;
    let cnt := Z.land len DWORD_MASK in
    p ← repeat_step (Z.to_nat cnt) down8 p;
    pmem_flush p.1 cnt
  else mret tt.
Definition memmove_nodrain_movnt (pmemdest src len : Z) : PM Z :=
  if (len =? 0) || (src =? pmemdest) then mret pmemdest else
  if len <? MOVNT_THRESHOLD then
    memmove pmemdest src len;;
    pmem_flush pmemdest len;;
    mret pmemdest
  else
    (if len <=? u64 (pmemdest - src) then move_up pmemdest src len else move_down pmemdest src len);;
    _mm_sfence;;
    mret pmemdest.
Definition pmem_memmove_persist (pmemdest src len : Z) : PM Z := memmove_nodrain_movnt pmemdest src len;; mret pmemdest.

(** ** movnt.h *)
Definition CACHELINE_SHIFT : Z := 6.
Definition CACHELINE_SIZE : Z := Z.shiftl 1 CACHELINE_SHIFT.
Fixpoint cl_flush_loop (fuel : nat) (flush : Z -> PM unit) (buf i len : Z) : PM unit :=
  match fuel with
  | O => abort
  | S k => if i <? len then flush (buf + i);; cl_flush_loop k flush buf (u32 (i + CACHELINE_SIZE)) len else mret tt
  end.
Definition cl_flush (buf len : Z) : PM unit :=
  let len := u32 (u32 len + Z.land buf (CACHELINE_SIZE - 1)) in
  cl_flush_loop (Z.to_nat (len / CACHELINE_SIZE) + 2) _mm_clflush buf 0 len.
(** Eight quad words to the line, [cachelines] times; it runs at least once. *)
Fixpoint _memzero_nt_cachelines (dst : Z) (cachelines : nat) : PM unit :=
  match cachelines with
  | O => mret tt
  | S k => store Streamed dst (replicate 64 0);; _memzero_nt_cachelines (dst + 64) k
  end.
Definition memzero_nt (dst len : Z) : PM unit :=
  a ← (if negb (Z.land dst (CACHELINE_SIZE - 1) =? 0) then
         let prefix_len := Z.min (CACHELINE_SIZE - Z.land dst (CACHELINE_SIZE - 1)) len in
         memset dst 0 prefix_len;;
         cl_flush dst prefix_len;;
         mret (dst + prefix_len, len - prefix_len)
       else mret (dst, len));
  let '(dst, len) := a in
  let cachelines := Z.shiftr len CACHELINE_SHIFT in
  (if negb (cachelines =? 0) then _memzero_nt_cachelines dst (Z.to_nat cachelines) else mret tt);;
  let len := len - Z.shiftl cachelines CACHELINE_SHIFT in
  let dst := dst + Z.shiftl cachelines CACHELINE_SHIFT in
  if 0 <? len then memset dst 0 len;; cl_flush dst len else mret tt.
Definition a_clflushopt (p : Z) : PM unit := write_back p.
Definition a_clwb (p : Z) : PM unit := write_back p.
Definition __cl_flush_wb (buf len : Z) : PM unit :=
  let len := u32 (u32 len + Z.land buf (CACHELINE_SIZE - 1)) in
  cl_flush_loop (Z.to_nat (len / CACHELINE_SIZE) + 2) a_clwb buf 0 len;;
  _mm_sfence.
Definition __cl_flush_opt (buf len : Z) : PM unit :=
  let len := u32 (u32 len + Z.land buf (CACHELINE_SIZE - 1)) in
  cl_flush_loop (Z.to_nat (len / CACHELINE_SIZE) + 2) a_clflushopt buf 0 len;;
  _mm_sfence.

(** ** What the processor has *)
Section cpuid.
(** The four registers after cpuid. *)
Variable cpuid : Z -> Z -> list Z.
Definition EAX_IDX : nat := 0.
Definition EBX_IDX : nat := 1.
Definition CLFLUSHOPT_FUNC : Z := 7.
Definition CLFLUSHOPT_BIT : Z := Z.shiftl 1 23.
Definition CLWB_FUNC : Z := 7.
Definition CLWB_BIT : Z := Z.shiftl 1 24.
Definition cpuid_check (func : Z) (reg : nat) (bit : Z) : bool :=
  if nth EAX_IDX (cpuid 0 0) 0 <? func then false else negb (Z.land (nth reg (cpuid func 0) 0) bit =? 0).
Definition clflushopt_avail : bool := cpuid_check CLFLUSHOPT_FUNC EBX_IDX CLFLUSHOPT_BIT.
Definition clwb_avail : bool := cpuid_check CLWB_FUNC EBX_IDX CLWB_BIT.
(** The pointers [cl_flush_opt] and [cl_flush_wb]. *)
Definition clflush_init : (Z -> Z -> PM unit) * (Z -> Z -> PM unit) :=
  if clwb_avail then (__cl_flush_opt, __cl_flush_wb)
  else if clflushopt_avail then (__cl_flush_opt, __cl_flush_opt)
  else (cl_flush, cl_flush).
End cpuid.
