(* ===== verification/MovntSpec.v ===== *)
(** * Copies to persistent memory: what they promise

    The copy is memmove, for ranges that overlap in any way, never touches a byte
    outside the two ranges, and what it wrote is on the medium when it returns. *)

From S2P Require Import Prelude Movnt.

(** ** Bytes *)
Lemma get_bytes_some m n : forall a, (forall x, a <= x < a + Z.of_nat n -> is_Some (m !! x)) ->
  exists l, get_bytes m a n = Some l /\ length l = n /\ forall i, (i < n)%nat -> l !! i = m !! (a + Z.of_nat i).
Proof.
  induction n as [|n IH]; intros a Hm; cbn [get_bytes]; [exists []; split_and!; [done|done|lia]|].
  destruct (Hm a ltac:(lia)) as [b Hb]. destruct (IH (a + 1)) as (l & El & Hl & Hi); [intros x Hx; apply Hm; lia|].
  exists (b :: l). rewrite Hb El /=. split; [done|]. split; [by rewrite Hl|]. intros [|i] Hlt; [by rewrite Z.add_0_r|].
  cbn. rewrite Hi; [lia|]. f_equal. lia.
Qed.
Lemma get_bytes_ext m m' n : forall a, (forall x, a <= x < a + Z.of_nat n -> m !! x = m' !! x) -> get_bytes m a n = get_bytes m' a n.
Proof.
  induction n as [|n IH]; intros a Hm; [done|]. cbn. rewrite (Hm a); [lia|]. rewrite (IH (a + 1)) //. intros x Hx. apply Hm. lia.
Qed.
Lemma get_bytes_inv m n : forall a l, get_bytes m a n = Some l -> length l = n /\ forall i, (i < n)%nat -> m !! (a + Z.of_nat i) = l !! i.
Proof.
  induction n as [|n IH]; intros a l; cbn; [intros [= <-]; split; [done|lia]|]. destruct (m !! a) as [b|] eqn:Eb; [|done]. cbn.
  destruct (get_bytes m (a + 1) n) as [l'|] eqn:El; [|done]. intros [= <-]. destruct (IH _ _ El) as [Hl Hi]. split; [by cbn; rewrite Hl|].
  intros [|i] Hlt; [by rewrite Z.add_0_r|]. cbn. rewrite -Hi; [lia|]. f_equal. lia.
Qed.
Lemma put_bytes_lookup {A} (l : list A) : forall a m x,
  put_bytes a l m !! x = if decide (a <= x < a + Z.of_nat (length l)) then l !! Z.to_nat (x - a) else m !! x.
Proof.
  induction l as [|b l IH]; intros a m x; cbn [put_bytes length]; [case_decide; [lia|done]|]. rewrite IH. destruct (decide (x = a)) as [->|Hne].
  - rewrite decide_False; [lia|]. rewrite lookup_insert_eq. case_decide; [by rewrite Z.sub_diag|lia].
  - rewrite lookup_insert_ne //. do 2 case_decide; try lia; [|done]. replace (Z.to_nat (x - a)) with (S (Z.to_nat (x - (a + 1)))) by lia. done.
Qed.
Lemma wp_load_bytes s a n l (Q : list Z -> pm -> Prop) : get_bytes (bytes_at s) a n = Some l -> Q l s -> wp (load_bytes a n) s Q.
Proof. intros E HQ. rewrite /load_bytes. apply wp_bind, wp_gets. rewrite E. by apply wp_ret. Qed.
Definition stored (s s' : pm) (k : status) (a : Z) (l : list Z) : Prop :=
  (forall x, bytes_at s' !! x = if decide (a <= x < a + Z.of_nat (length l)) then l !! Z.to_nat (x - a) else bytes_at s !! x) /\
  (forall x, volatile s' !! x = if decide (a <= x < a + Z.of_nat (length l)) then Some k else volatile s !! x).
Lemma wp_store s k a l (Q : unit -> pm -> Prop) : (forall x, a <= x < a + Z.of_nat (length l) -> is_Some (bytes_at s !! x)) ->
  (forall s', stored s s' k a l -> Q tt s') -> wp (store k a l) s Q.
Proof.
  intros Hm HQ. rewrite /store. destruct (get_bytes_some _ _ _ Hm) as (l0 & El & _). apply wp_bind. eapply wp_load_bytes; [exact El|].
  apply wp_modify, HQ. split; intros x; cbn [bytes_at volatile]; rewrite put_bytes_lookup //. rewrite length_replicate. case_decide; [|done].
  apply lookup_replicate_2. lia.
Qed.

(** ** Flushing *)
Definition flushed (s s' : pm) (a n : Z) : Prop :=
  bytes_at s' = bytes_at s /\ (forall x, volatile s' !! x = volatile s !! x \/ volatile s' !! x = None) /\
  forall x, a <= x < a + n -> volatile s' !! x <> Some Dirty.
Lemma flushed_trans s1 s2 s3 a n b c d e : flushed s1 s2 a n -> flushed s2 s3 b c -> (forall x, d <= x < d + e -> a <= x < a + n \/ b <= x < b + c) -> flushed s1 s3 d e.
Proof.
  intros (B1 & V1 & D1) (B2 & V2 & D2) Hx. split; [congruence|]. split.
  - intros x. destruct (V2 x) as [->| ->]; [apply V1|by right].
  - intros x [H|H]%Hx; [|by apply D2]. destruct (V2 x) as [->| ->]; [by apply D1|done].
Qed.
Lemma wp_clflush s p (Q : unit -> pm -> Prop) : (forall s', flushed s s' (64 * (p / 64)) 64 -> Q tt s') -> wp (_mm_clflush p) s Q.
Proof.
  intros HQ. apply wp_modify, HQ. rewrite /flushed /CACHELINE_ALIGN. cbn [bytes_at volatile]. split; [done|]. split.
  - intros x. destruct (volatile s !! x) as [k|] eqn:E.
    + destruct (decide (x / 64 = p / 64 /\ k = Dirty)) as [H|H].
      * right. apply map_lookup_filter_None. right. intros k'. rewrite E. intros [= <-] Hn. by apply Hn.
      * left. by apply map_lookup_filter_Some.
    + right. apply map_lookup_filter_None. by left.
  - intros x Hx [_ Hn]%map_lookup_filter_Some. apply Hn. split; [|done]. cbn. pose proof (Z.div_mod x 64). pose proof (Z.mod_pos_bound x 64).
    pose proof (Z.div_mod p 64). symmetry. apply (Z.div_unique x 64 (p / 64) (x - 64 * (p / 64))); lia.
Qed.
Lemma wp_flush_loop end_ : end_ + 64 <= 2 ^ 64 -> forall fuel uptr s (Q : unit -> pm -> Prop), uptr mod 64 = 0 -> 0 <= uptr -> end_ - uptr <= 64 * Z.of_nat fuel ->
  (forall s', flushed s s' uptr (end_ - uptr) -> Q tt s') -> wp (flush_loop (S fuel) uptr end_) s Q.
Proof.
  intros Hend. induction fuel as [|fuel IH]; intros uptr s Q Hal H0 Hf HQ; cbn [flush_loop].
  - destruct (Z.ltb_spec uptr end_); [lia|]. apply wp_ret, HQ. split; [done|]. split; [by left|]. lia.
  - destruct (Z.ltb_spec uptr end_) as [Hlt|Hge].
    2: { apply wp_ret, HQ. split; [done|]. split; [by left|]. lia. }
    apply wp_bind, wp_clflush. intros s1 H1. rewrite /CACHELINE_ALIGN u64_small; [lia|].
    replace (64 * (uptr / 64)) with uptr in H1 by (pose proof (Z.div_mod uptr 64); lia).
    apply IH; [rewrite Z.add_mod // Hal //|lia|lia|]. intros s2 H2. apply HQ. eapply flushed_trans; [exact H1|exact H2|]. lia.
Qed.
Lemma wp_pmem_flush s a n (Q : unit -> pm -> Prop) : 0 <= a -> 0 <= n -> a + n + 64 <= 2 ^ 64 -> (forall s', flushed s s' a n -> Q tt s') -> wp (pmem_flush a n) s Q.
Proof.
  intros Ha Hn Hmax HQ. rewrite /pmem_flush /flush_clflush /CACHELINE_ALIGN u64_small; [lia|].
  assert (E : Z.ldiff a (64 - 1) = 64 * (a / 64)).
  { change (64 - 1) with (Z.ones 6). rewrite Z.ldiff_ones_r // Z.shiftl_mul_pow2 // Z.shiftr_div_pow2 //. change (2 ^ 6) with 64. lia. }
  rewrite E. pose proof (Z.div_mod a 64). pose proof (Z.mod_pos_bound a 64). pose proof (Z.div_mod n 64). pose proof (Z.mod_pos_bound n 64).
  pose proof (Z.div_pos n 64). pose proof (Z.div_pos a 64).
  replace (Z.to_nat (n / 64) + 3)%nat with (S (Z.to_nat (n / 64) + 2)) by lia.
  apply wp_flush_loop; [lia|rewrite Z.mul_comm Z.mod_mul //|lia|lia|]. intros s' (B & V & D). apply HQ. split; [done|]. split; [done|].
  intros x Hx. apply D. lia.
Qed.
Lemma wp_sfence s (Q : unit -> pm -> Prop) : (forall s', bytes_at s' = bytes_at s ->
  (forall x, volatile s' !! x = if decide (volatile s !! x = Some Streamed) then None else volatile s !! x) -> Q tt s') -> wp _mm_sfence s Q.
Proof.
  intros HQ. apply wp_modify, HQ; [done|]. intros x. cbn [volatile]. case_decide as E.
  - apply map_lookup_filter_None. right. intros k. rewrite E. intros [= <-]. by intros [].
  - destruct (volatile s !! x) as [k|] eqn:Ek; [|apply map_lookup_filter_None; by left]. apply map_lookup_filter_Some. split; [done|]. cbn. congruence.
Qed.

(** ** One copy *)
Section copy.
Variables (s0 : pm) (dst src len : Z).
Hypothesis range_dst : 0 <= dst /\ dst + len + 64 <= 2 ^ 64.
Hypothesis range_src : 0 <= src /\ src + len <= 2 ^ 64.
Hypothesis mapped_dst : forall x, dst <= x < dst + len -> is_Some (bytes_at s0 !! x).
Hypothesis mapped_src : forall x, src <= x < src + len -> is_Some (bytes_at s0 !! x).

(** The bytes from [lo] to [hi] of the destination are copied; of these only those of [D]
    may be dirty. *)
Definition moved (s : pm) (lo hi : Z) (D : Z -> Prop) : Prop :=
  (forall x, bytes_at s !! x = if decide (lo <= x < hi) then bytes_at s0 !! (x - (dst - src)) else bytes_at s0 !! x) /\
  (forall x, lo <= x < hi -> ~ D x -> volatile s !! x <> Some Dirty) /\
  (forall x, ~ lo <= x < hi -> volatile s !! x = volatile s0 !! x \/ volatile s !! x = None).
(** In a direction, [x] is how far the copy is. *)
Variable up : bool.
Hypothesis safe : if up then dst < src \/ len <= dst - src else src < dst.
Definition cur (s : pm) (x : Z) (D : Z -> Prop) : Prop := if up then moved s dst x D else moved s x (dst + len) D.
Definition adv (x n : Z) : Z := if up then x + n else x - n.
Definition piece (x n : Z) : Z := if up then x else x - n.
Definition room (x n : Z) : Prop := dst <= piece x n /\ piece x n + n <= dst + len.
Definition front (x : Z) : Z * Z := (x, x - (dst - src)).

Lemma moved_weaken s lo hi (D D' : Z -> Prop) : (forall x, D x -> D' x) -> moved s lo hi D -> moved s lo hi D'.
Proof. intros HD (B & V & O). split; [done|]. split; [|done]. intros x Hx Hn. apply V; [done|]. intros ?. by apply Hn, HD. Qed.
Lemma cur_weaken s x (D D' : Z -> Prop) : (forall x, D x -> D' x) -> cur s x D -> cur s x D'.
Proof. rewrite /cur. destruct up; apply moved_weaken. Qed.
Lemma moved_flushed s s' lo hi (D : Z -> Prop) a n : moved s lo hi D -> flushed s s' a n -> (forall x, D x -> a <= x < a + n) -> moved s' lo hi (fun _ => False).
Proof.
  intros (B & V & O) (FB & FV & FD) HD. split; [by rewrite FB|]. split.
  - intros x Hx _ E. destruct (decide (a <= x < a + n)) as [Ha|Ha]; [by apply (FD x Ha)|]. apply (V x Hx); [by intros ?%HD|]. destruct (FV x) as [<-|]; congruence.
  - intros x Hx. destruct (FV x) as [->| ->]; [by apply O|by right].
Qed.
Lemma cur_flushed s s' x (D : Z -> Prop) a n : cur s x D -> flushed s s' a n -> (forall x, D x -> a <= x < a + n) -> cur s' x (fun _ => False).
Proof. rewrite /cur. destruct up; apply moved_flushed. Qed.

(** What is read has not been written over. *)
Lemma moved_original s lo hi D a n : moved s lo hi D -> dst <= a -> a + Z.of_nat n <= dst + len ->
  (a - (dst - src) + Z.of_nat n <= lo \/ hi <= a - (dst - src)) ->
  exists l, get_bytes (bytes_at s0) (a - (dst - src)) n = Some l /\ get_bytes (bytes_at s) (a - (dst - src)) n = Some l.
Proof.
  intros (B & _) H1 H2 Hd. destruct (get_bytes_some (bytes_at s0) n (a - (dst - src))) as (l & El & _); [intros x Hx; apply mapped_src; lia|].
  exists l. split; [done|]. rewrite -El. apply get_bytes_ext. intros x Hx. rewrite B decide_False //. lia.
Qed.
Lemma cur_original s x D a n m : cur s x D -> room x m -> piece x m <= a -> a + Z.of_nat n <= piece x m + m ->
  exists l, get_bytes (bytes_at s0) (a - (dst - src)) n = Some l /\ get_bytes (bytes_at s) (a - (dst - src)) n = Some l.
Proof.
  rewrite /cur /room /piece => Hc Hr H1 H2. destruct up; eapply moved_original; try exact Hc; lia.
Qed.
Lemma moved_store s s' lo hi (D : Z -> Prop) k a l lo' hi' : moved s lo hi D -> stored s s' k a l ->
  get_bytes (bytes_at s0) (a - (dst - src)) (length l) = Some l -> (k = Dirty -> forall x, a <= x < a + Z.of_nat (length l) -> D x) ->
  (forall x, lo' <= x < hi' <-> lo <= x < hi \/ a <= x < a + Z.of_nat (length l)) -> moved s' lo' hi' D.
Proof.
  intros (B & V & O) (SB & SV) El HD Hx'. apply get_bytes_inv in El as [_ El]. split; [|split].
  - intros x. rewrite SB. destruct (decide (a <= x < a + Z.of_nat (length l))) as [Ha|Ha].
    + rewrite decide_True; [apply Hx'; by right|]. rewrite -El; [lia|]. f_equal. lia.
    + rewrite B. repeat case_decide; try done; exfalso; match goal with H : ~ _ |- _ => apply H end; naive_solver.
  - intros x Hx Hn. rewrite SV. destruct (decide (a <= x < a + Z.of_nat (length l))) as [Ha|Ha].
    + intros [= ->]. by apply Hn, HD.
    + apply V; [|done]. by apply Hx' in Hx as [?|?].
  - intros x Hx. rewrite SV. rewrite decide_False; [intros ?; apply Hx, Hx'; by right|]. apply O. intros ?. apply Hx, Hx'. by left.
Qed.
Lemma moved_mapped s lo hi D x : moved s lo hi D -> dst <= lo -> hi <= dst + len -> dst <= x < dst + len -> is_Some (bytes_at s !! x).
Proof. intros (B & _) Hl Hh Hx. rewrite B. case_decide; [apply mapped_src; lia|by apply mapped_dst]. Qed.
Lemma wp_cur_store s x D k l (Q : unit -> pm -> Prop) : cur s x D -> room x (Z.of_nat (length l)) ->
  get_bytes (bytes_at s0) (piece x (Z.of_nat (length l)) - (dst - src)) (length l) = Some l ->
  (k = Dirty -> forall y, piece x (Z.of_nat (length l)) <= y < piece x (Z.of_nat (length l)) + Z.of_nat (length l) -> D y) ->
  (forall s', cur s' (adv x (Z.of_nat (length l))) D -> Q tt s') -> wp (store k (piece x (Z.of_nat (length l))) l) s Q.
Proof.
  intros Hc Hr El HD HQ. apply wp_store.
  - intros y Hy. rewrite /cur /room /piece in Hc Hr Hy. destruct up; eapply moved_mapped; try exact Hc; lia.
  - intros s' Hs. apply HQ. rewrite /cur /adv /room /piece in Hc Hs El HD Hr |- *. destruct up; (eapply moved_store; [exact Hc|exact Hs|exact El|exact HD|]); intros y; lia.
Qed.

(** ** The steps of the loops *)
Definition step_ok (step : Z * Z -> PM (Z * Z)) (n : Z) (A D : Z -> Prop) : Prop :=
  forall s x, cur s x D -> room x n -> A x -> (forall y, piece x n <= y < piece x n + n -> D y \/ n <> 1) ->
    wp (step (front x)) s (fun p s' => p = front (adv x n) /\ cur s' (adv x n) D).
Lemma wp_repeat step n A D : step_ok step n A D -> 0 < n -> (forall x, A x -> A (adv x n)) ->
  forall k s x, cur s x D -> room x (n * Z.of_nat k) -> A x -> (forall y, piece x (n * Z.of_nat k) <= y < piece x (n * Z.of_nat k) + n * Z.of_nat k -> D y \/ n <> 1) ->
    wp (repeat_step k step (front x)) s (fun p s' => p = front (adv x (n * Z.of_nat k)) /\ cur s' (adv x (n * Z.of_nat k)) D).
Proof.
  intros Hstep Hn HA. induction k as [|k IH]; intros s x Hc Hr Hx HD; cbn [repeat_step].
  - apply wp_ret. rewrite Z.mul_0_r. assert (adv x 0 = x) as -> by (rewrite /adv; destruct up; lia). done.
  - apply wp_bind. assert (Hk : n * Z.of_nat (S k) = n + n * Z.of_nat k) by lia. rewrite Hk in Hr HD |- *.
    assert (Hp : 0 <= n * Z.of_nat k) by lia. set (m := n * Z.of_nat k) in *. eapply wp_mono.
    { apply Hstep; [exact Hc| |exact Hx|].
      - rewrite /room /piece in Hr |- *. destruct up; lia.
      - intros y Hy. apply HD. rewrite /piece in Hy |- *. destruct up; lia. }
    intros p s' [-> Hc']. assert (adv x (n + m) = adv (adv x n) m) as -> by (rewrite /adv; destruct up; lia). apply IH; [exact Hc'| |by apply HA|].
    + rewrite /room /piece /adv in Hr |- *. destruct up; lia.
    + intros y Hy. apply HD. rewrite /piece /adv in Hy |- *. destruct up; lia.
Qed.
(** A load followed by a store of the same bytes. *)
Lemma wp_load_store {A} s x D n a b (st : Z -> list Z -> PM unit) k (c : PM A) (Q : A -> pm -> Prop) : cur s x D -> room x (Z.of_nat n) ->
  a = piece x (Z.of_nat n) - (dst - src) -> b = piece x (Z.of_nat n) ->
  (k = Dirty -> forall y, piece x (Z.of_nat n) <= y < piece x (Z.of_nat n) + Z.of_nat n -> D y) ->
  (forall l s (R : unit -> pm -> Prop), length l = n -> wp (store k b l) s R -> wp (st b l) s R) ->
  (forall s', cur s' (adv x (Z.of_nat n)) D -> wp c s' Q) ->
  wp (v ← load_bytes a n; st b v;; c) s Q.
Proof.
  intros Hc Hr -> -> HD Hst HQ. destruct (cur_original s x D (piece x (Z.of_nat n)) n (Z.of_nat n)) as (l & E0 & E); [done|done|lia|lia|].
  pose proof (get_bytes_inv _ _ _ _ E0) as [Hl _]. apply wp_bind. eapply wp_load_bytes; [exact E|]. apply wp_bind, Hst; [done|].
  revert Hc Hr HD HQ E0. rewrite -Hl. intros Hc Hr HD HQ E0. by eapply wp_cur_store.
Qed.
Ltac direction := rewrite /room /piece /adv /front in *; destruct up; cbn [fst snd]; try (f_equal; lia); try lia.
Lemma step8 D : step_ok (if up then up8 else down8) 1 (fun _ => True) D.
Proof.
  intros s x Hc Hr _ HD. assert (HD' : Dirty = Dirty -> forall y, piece x (Z.of_nat 1) <= y < piece x (Z.of_nat 1) + Z.of_nat 1 -> D y).
  { intros _ y Hy. by destruct (HD y Hy). }
  assert (E : (if up then up8 else down8) (front x) = (v ← load_bytes (piece x 1 - (dst - src)) 1; store Dirty (piece x 1) v;; mret (front (adv x 1)))).
  { rewrite /up8 /down8 /front /piece /adv. destruct up; cbn [fst snd].
    - by replace (x - (dst - src) + 1) with (x + 1 - (dst - src)) by lia.
    - by replace (x - (dst - src) - 1) with (x - 1 - (dst - src)) by lia. }
  rewrite E. eapply (wp_load_store s x D 1 _ _ (store Dirty) Dirty); [done|done|done|done|exact HD'|done|]. intros s' Hc'. by apply wp_ret.
Qed.
Lemma step32 D : step_ok (if up then up32 else down32) 4 (fun _ => True) D.
Proof.
  intros s x Hc Hr _ _.
  assert (E : (if up then up32 else down32) (front x) = (v ← load_bytes (piece x 4 - (dst - src)) 4; _mm_stream_si32 (piece x 4) v;; mret (front (adv x 4)))).
  { rewrite /up32 /down32 /front /piece /adv. destruct up; cbn [fst snd].
    - by replace (x - (dst - src) + 4) with (x + 4 - (dst - src)) by lia.
    - by replace (x - (dst - src) - 4) with (x - 4 - (dst - src)) by lia. }
  rewrite E. eapply (wp_load_store s x D 4 _ _ _mm_stream_si32 Streamed); [done|done|done|done|done|done|]. intros s' Hc'. by apply wp_ret.
Qed.
Definition aligned (x : Z) : Prop := x mod 16 = 0.
Lemma aligned_adv x : aligned x -> aligned (adv x 16).
Proof. rewrite /aligned /adv => Hx. destruct up; [rewrite Z.add_mod // Hx //|rewrite Zminus_mod Hx //]. Qed.
Lemma aligned_piece x : aligned x -> aligned (piece x 16).
Proof. rewrite /piece => Hx. destruct up; [done|]. rewrite /aligned Zminus_mod Hx //. Qed.
Lemma wp_stream s a l (Q : unit -> pm -> Prop) : aligned a -> wp (store Streamed a l) s Q -> wp (_mm_stream_si128 a l) s Q.
Proof. intros Ha HQ. apply wp_bind, wp_assert; [by rewrite Ha|done]. Qed.
Lemma step128 D : step_ok (if up then up128 else down128) 16 aligned D.
Proof.
  intros s x Hc Hr Ha _.
  assert (E : (if up then up128 else down128) (front x) = (v ← load_bytes (piece x 16 - (dst - src)) 16; _mm_stream_si128 (piece x 16) v;; mret (front (adv x 16)))).
  { rewrite /up128 /down128 /front /piece /adv. destruct up; cbn [fst snd].
    - by replace (x - (dst - src) + 16) with (x + 16 - (dst - src)) by lia.
    - by replace (x - (dst - src) - 16) with (x - 16 - (dst - src)) by lia. }
  rewrite E. eapply (wp_load_store s x D 16 _ _ _mm_stream_si128 Streamed); [done|done|done|done|done|intros; apply wp_stream; [by apply aligned_piece|done]|].
  intros s' Hc'. by apply wp_ret.
Qed.
(** The eight pieces of a chunk. *)
Fixpoint pieces (k : nat) (x : Z) : list Z := match k with O => [] | S k => piece x 16 :: pieces k (adv x 16) end.
Lemma pieces_within k : forall x a, a ∈ pieces k x -> piece x (16 * Z.of_nat k) <= a /\ a + 16 <= piece x (16 * Z.of_nat k) + 16 * Z.of_nat k.
Proof.
  induction k as [|k IH]; intros x a; cbn [pieces]; [by intros ?%elem_of_nil|]. intros [->|Ha]%elem_of_cons; [rewrite /piece; destruct up; lia|].
  apply IH in Ha. rewrite /piece /adv in Ha |- *. destruct up; lia.
Qed.
Lemma wp_loads s x D m l (Q : list (list Z) -> pm -> Prop) : cur s x D -> room x m -> (forall a, a ∈ l -> piece x m <= a /\ a + 16 <= piece x m + m) ->
  (forall vs, Forall2 (fun a v => get_bytes (bytes_at s0) (a - (dst - src)) 16 = Some v) l vs -> Q vs s) -> wp (loads ((fun a => a - (dst - src)) <$> l)) s Q.
Proof.
  intros Hc Hr. revert Q. induction l as [|a l IH]; intros Q Hl HQ; cbn [loads fmap list_fmap]; [by apply wp_ret, HQ|].
  destruct (Hl a ltac:(by left)) as [H1 H2]. destruct (cur_original s x D a 16 m) as (v & E0 & E); [done|done|done|done|].
  apply wp_bind. rewrite /_mm_loadu_si128. eapply wp_load_bytes; [exact E|]. apply wp_bind, IH; [intros b Hb; apply Hl; by right|].
  intros vs Hvs. apply wp_ret, HQ. by constructor.
Qed.
Lemma wp_streams k D : forall s x vs (Q : unit -> pm -> Prop), cur s x D -> room x (16 * Z.of_nat k) -> aligned x ->
  Forall2 (fun a v => get_bytes (bytes_at s0) (a - (dst - src)) 16 = Some v) (pieces k x) vs ->
  (forall s', cur s' (adv x (16 * Z.of_nat k)) D -> Q tt s') -> wp (streams (zip (pieces k x) vs)) s Q.
Proof.
  induction k as [|k IH]; intros s x vs Q Hc Hr Ha Hvs HQ; cbn [pieces] in *.
  - apply Forall2_nil_inv_l in Hvs as ->. apply wp_ret, HQ. assert (adv x (16 * Z.of_nat 0) = x) as -> by (rewrite /adv; destruct up; lia). done.
  - apply Forall2_cons_inv_l in Hvs as (v & vs' & Ev & Hvs & ->). cbn [zip zip_with streams]. apply wp_bind, wp_stream; [by apply aligned_piece|].
    pose proof (get_bytes_inv _ _ _ _ Ev) as [Hl _]. assert (E16 : Z.of_nat (length v) = 16) by lia.
    pose proof (wp_cur_store s x D Streamed v) as Hst. rewrite E16 Hl in Hst. apply Hst; [done| |done|done|].
    { rewrite /room /piece in Hr |- *. destruct up; lia. }
    intros s1 Hc1. apply IH; [done| |by apply aligned_adv|done|].
    { rewrite /room /piece /adv in Hr |- *. destruct up; lia. }
    intros s2 Hc2. apply HQ. assert (adv x (16 * Z.of_nat (S k)) = adv (adv x 16) (16 * Z.of_nat k)) as -> by (rewrite /adv; destruct up; lia). done.
Qed.
Ltac list_lia := repeat (apply (f_equal2 cons); [lia|]); reflexivity.
Lemma chunk_run x : (if up then up_chunk else down_chunk) (front x) =
  (xmm ← loads ((fun a => a - (dst - src)) <$> pieces 8 x); streams (zip (pieces 8 x) xmm);; mret (front (adv x 128))).
Proof.
  rewrite /front. cbn [pieces fmap list_fmap]. rewrite /piece /adv. destruct up; rewrite /up_chunk /down_chunk; cbn [fst snd fmap list_fmap].
  - match goal with |- (loads ?a ≫= (fun xmm => streams (zip ?c xmm);; mret ?e)) = (loads ?b ≫= (fun xmm => streams (zip ?d xmm);; mret ?f)) =>
      assert (a = b) as -> by list_lia; assert (c = d) as -> by list_lia; assert (e = f) as -> by (f_equal; lia) end. done.
  - match goal with |- (loads ?a ≫= (fun xmm => streams (zip ?c xmm);; mret ?e)) = (loads ?b ≫= (fun xmm => streams (zip ?d xmm);; mret ?f)) =>
      assert (a = b) as -> by list_lia; assert (c = d) as -> by list_lia; assert (e = f) as -> by (f_equal; lia) end. done.
Qed.
Lemma step_chunk D : step_ok (if up then up_chunk else down_chunk) 128 aligned D.
Proof.
  intros s x Hc Hr Ha _. rewrite chunk_run. apply wp_bind. eapply (wp_loads s x D 128); [done|done|apply (pieces_within 8)|].
  intros vs Hvs. apply wp_bind. eapply (wp_streams 8 D); [done|done|done|done|]. intros s' Hc'. by apply wp_ret.
Qed.

(** ** The phases *)
Lemma low_bits n k : 0 <= n -> 0 <= k -> Z.land n (2 ^ k - 1) = n mod 2 ^ k.
Proof. intros Hn Hk. by rewrite -Z.land_ones // Z.ones_equiv. Qed.
Lemma cur_dirty s x (D : Z -> Prop) : cur s x (fun _ => False) -> cur s x D.
Proof. by apply cur_weaken. Qed.
(** Chunks and 16 bytes, from an aligned place. *)
Lemma wp_middle {A} s x n (c : Z * Z -> PM A) (Q : A -> pm -> Prop) : cur s x (fun _ => False) -> room x n -> aligned x -> 0 <= n ->
  (forall s', cur s' (adv x (n - n mod 16)) (fun _ => False) -> wp (c (front (adv x (n - n mod 16)))) s' Q) ->
  wp (p ← repeat_step (Z.to_nat (Z.shiftr n CHUNK_SHIFT)) (if up then up_chunk else down_chunk) (front x);
      p ← (if negb (Z.land n CHUNK_MASK =? 0) then repeat_step (Z.to_nat (Z.shiftr (Z.land n CHUNK_MASK) MOVNT_SHIFT)) (if up then up128 else down128) p else mret p);
      c p) s Q.
Proof.
  intros Hc Hr Ha Hn HQ. rewrite /CHUNK_SHIFT /CHUNK_MASK /MOVNT_SHIFT !Z.shiftr_div_pow2 //. rewrite (low_bits n 7) //. change (2 ^ 7) with 128. change (2 ^ 4) with 16.
  pose proof (Z.div_mod n 128 ltac:(lia)) as Hd. pose proof (Z.mod_pos_bound n 128 ltac:(lia)). pose proof (Z.div_pos n 128 ltac:(lia) ltac:(lia)).
  set (q := n / 128) in *. set (r := n mod 128) in *.
  pose proof (Z.div_mod r 16 ltac:(lia)) as Hd'. pose proof (Z.mod_pos_bound r 16 ltac:(lia)). pose proof (Z.div_pos r 16 ltac:(lia) ltac:(lia)).
  assert (Er : n mod 16 = r mod 16) by (rewrite (_ : r = n + (-8 * q) * 16); [lia|rewrite Z.mod_add //; lia]).
  rewrite Er in HQ. set (q2 := r / 16) in *. set (r2 := r mod 16) in *.
  assert (Hal : forall k y, aligned y -> aligned (adv y (16 * k))).
  { intros k y Hy. rewrite /aligned /adv in Hy |- *. destruct up; [rewrite Z.add_mod // Hy|rewrite Zminus_mod Hy]; rewrite (Z.mul_comm 16) Z.mod_mul //. }
  apply wp_bind. eapply wp_mono.
  { apply (wp_repeat _ 128 aligned (fun _ => False) (step_chunk _)); [lia|intros y Hy; apply (Hal 8 y Hy)|exact Hc| |exact Ha|intros; by right].
    rewrite Z2Nat.id //. rewrite /room /piece in Hr |- *. destruct up; lia. }
  intros p s1 [-> Hc1]. rewrite Z2Nat.id // in Hc1 |- *. apply wp_bind.
  assert (Ha1 : aligned (adv x (128 * q))) by (replace (128 * q) with (16 * (8 * q)) by lia; by apply Hal).
  assert (Hend : adv (adv x (128 * q)) (16 * q2) = adv x (n - r2)) by (rewrite /adv; destruct up; lia).
  destruct (Z.eqb_spec r 0) as [E|E]; cbn [negb].
  - apply wp_ret. assert (adv x (n - r2) = adv x (128 * q)) as Ex; [|rewrite Ex in HQ; by apply HQ].
    f_equal. assert (r2 = 0) by (rewrite /r2 E //). lia.
  - eapply wp_mono.
    { apply (wp_repeat _ 16 aligned (fun _ => False) (step128 _)); [lia|apply (Hal 1)|exact Hc1| |exact Ha1|intros; by right].
      rewrite Z2Nat.id //. rewrite /room /piece /adv in Hr |- *. destruct up; lia. }
    intros p s2 [-> Hc2]. rewrite Z2Nat.id // Hend in Hc2 |- *. by apply HQ.
Qed.
(** Some bytes, and the flush of what they wrote. *)
Lemma wp_bytes {A} s x n (c : Z * Z -> PM A) (Q : A -> pm -> Prop) : cur s x (fun _ => False) -> room x n -> 0 <= n ->
  (forall s' D, cur s' (adv x n) D -> (forall y, D y -> piece x n <= y < piece x n + n) -> wp (c (front (adv x n))) s' Q) ->
  wp (p ← repeat_step (Z.to_nat n) (if up then up8 else down8) (front x); c p) s Q.
Proof.
  intros Hc Hr Hn HQ. apply wp_bind. set (D := fun y => piece x n <= y < piece x n + n). eapply wp_mono.
  { apply (wp_repeat _ 1 (fun _ => True) D (step8 _)); [lia|done|by apply cur_dirty|by rewrite Z2Nat.id // Z.mul_1_l|done|].
    rewrite Z2Nat.id // Z.mul_1_l. intros y Hy. by left. }
  intros p s' [-> Hc']. rewrite Z2Nat.id // Z.mul_1_l in Hc' |- *. by apply (HQ s' D).
Qed.
Lemma wp_words {A} s x n (c : Z * Z -> PM A) (Q : A -> pm -> Prop) : cur s x (fun _ => False) -> room x n -> 0 <= n ->
  (forall s', cur s' (adv x (n - n mod 4)) (fun _ => False) -> wp (c (front (adv x (n - n mod 4)))) s' Q) ->
  wp (p ← repeat_step (Z.to_nat (Z.shiftr n DWORD_SHIFT)) (if up then up32 else down32) (front x); c p) s Q.
Proof.
  intros Hc Hr Hn HQ. rewrite /DWORD_SHIFT Z.shiftr_div_pow2 //. change (2 ^ 2) with 4.
  pose proof (Z.div_mod n 4 ltac:(lia)). pose proof (Z.mod_pos_bound n 4 ltac:(lia)). pose proof (Z.div_pos n 4 ltac:(lia) ltac:(lia)).
  apply wp_bind. eapply wp_mono.
  { apply (wp_repeat _ 4 (fun _ => True) (fun _ => False) (step32 _)); [lia|done|exact Hc| |done|intros; by right].
    rewrite Z2Nat.id //. rewrite /room /piece in Hr |- *. destruct up; lia. }
  intros p s' [-> Hc']. rewrite Z2Nat.id // in Hc' |- *. replace (4 * (n / 4)) with (n - n mod 4) in Hc' |- * by lia. by apply HQ.
Qed.
Lemma cur_end s (D : Z -> Prop) x : x = (if up then dst + len else dst) -> cur s x D -> moved s dst (dst + len) D.
Proof. rewrite /cur => ->. by destruct up. Qed.
End copy.

Section move.
Variables (s0 : pm) (dst src len : Z).
Hypothesis range_dst : 0 <= dst /\ dst + len + 64 <= 2 ^ 64.
Hypothesis range_src : 0 <= src /\ src + len <= 2 ^ 64.
Hypothesis mapped_dst : forall x, dst <= x < dst + len -> is_Some (bytes_at s0 !! x).
Hypothesis mapped_src : forall x, src <= x < src + len -> is_Some (bytes_at s0 !! x).
Notation moved := (moved s0 dst src).
Lemma moved_none : moved s0 dst dst (fun _ => False) /\ moved s0 (dst + len) (dst + len) (fun _ => False).
Proof. split; (split; [intros x; rewrite decide_False //; lia|split; [lia|by left]]). Qed.

Lemma wp_move_up (Q : unit -> pm -> Prop) : 64 <= len -> dst < src \/ len <= dst - src ->
  (forall s', moved s' dst (dst + len) (fun _ => False) -> Q tt s') -> wp (move_up dst src len) s0 Q.
Proof.
  intros Hlen Hsafe HQ. rewrite /move_up. set (cnt := Z.land dst CACHELINE_MASK).
  assert (Ecnt : cnt = dst mod 64) by (rewrite /cnt /CACHELINE_MASK /CACHELINE_ALIGN (low_bits dst 6) //; lia).
  pose proof (Z.mod_pos_bound dst 64 ltac:(lia)) as Hcnt. rewrite -Ecnt in Hcnt.
  set (n0 := if decide (0 < cnt) then 64 - cnt else 0).
  assert (Hn0 : 0 <= n0 <= 63) by (rewrite /n0; case_decide; lia).
  assert (Hal : aligned (dst + n0)).
  { rewrite /aligned. pose proof (Z.div_mod dst 64 ltac:(lia)) as Hd. rewrite -Ecnt in Hd. rewrite /n0. case_decide.
    - replace (dst + (64 - cnt)) with (4 * (dst / 64 + 1) * 16) by lia. apply Z.mod_mul. lia.
    - replace (dst + 0) with (4 * (dst / 64) * 16) by lia. apply Z.mod_mul. lia. }
  apply wp_bind.
  assert (Hpre : forall R : Z * Z * Z -> pm -> Prop, (forall s1, moved s1 dst (dst + n0) (fun _ => False) -> R (front dst src (dst + n0), len - n0) s1) ->
    wp (if 0 <? cnt then let cnt0 := Z.min (CACHELINE_ALIGN - cnt) len in
          repeat_step (Z.to_nat cnt0) up8 (dst, src);; pmem_flush dst cnt0;; mret (dst + cnt0, src + cnt0, len - cnt0)
        else mret (dst, src, len)) s0 R).
  { intros R HR. rewrite /n0 in HR Hn0. destruct (Z.ltb_spec 0 cnt) as [Hc|Hc].
    - rewrite decide_True // in HR Hn0. cbv zeta. rewrite /CACHELINE_ALIGN Z.min_l; [lia|].
      assert (Ef : (dst, src) = front dst src dst) by (rewrite /front; f_equal; lia). rewrite Ef.
      eapply (wp_bytes s0 dst src len range_dst range_src mapped_dst mapped_src true Hsafe s0 dst (64 - cnt)).
      + apply moved_none.
      + rewrite /room /piece. lia.
      + lia.
      + intros s1 D Hc1 HD. apply wp_bind, wp_pmem_flush; [lia|lia|lia|]. intros s2 Hf. apply wp_ret.
        replace (src + (64 - cnt)) with (dst + (64 - cnt) - (dst - src)) by lia. apply HR.
        eapply moved_flushed; [exact Hc1|exact Hf|exact HD].
    - rewrite decide_False in HR Hn0; [lia|]. apply wp_ret. specialize (HR s0). rewrite Z.add_0_r Z.sub_0_r /front in HR.
      replace (dst - (dst - src)) with src in HR by lia. apply HR, moved_none. }
  apply Hpre. clear Hpre. intros s1 H1. cbn [fst snd]. set (n := len - n0).
  eapply (wp_middle s0 dst src len range_dst range_src mapped_dst mapped_src true Hsafe s1 (dst + n0) n); [exact H1|rewrite /room /piece; lia|done|lia|].
  cbn [adv]. intros s2 H2. rewrite /MOVNT_MASK /DWORD_MASK.
  assert (El : Z.land (Z.land n CHUNK_MASK) 15 = n mod 16).
  { rewrite -Z.land_assoc. change (Z.land CHUNK_MASK 15) with (2 ^ 4 - 1). apply low_bits; lia. }
  rewrite El. pose proof (Z.mod_pos_bound n 16 ltac:(lia)) as Hr.
  destruct (Z.eqb_spec (n mod 16) 0) as [E|E]; cbn [negb].
  { apply wp_ret, HQ. eapply (cur_end s0 dst src len true Hsafe s2); [|exact H2]. lia. }
  set (m := n mod 16) in *. pose proof (Z.mod_pos_bound m 4 ltac:(lia)) as Hr4. pose proof (Z.mod_le m 4 ltac:(lia) ltac:(lia)).
  eapply (wp_words s0 dst src len range_dst range_src mapped_dst mapped_src true Hsafe s2 _ m); [exact H2|rewrite /room /piece; lia|lia|].
  cbn [adv]. intros s3 H3. replace (Z.land m 3) with (m mod 4) by (symmetry; apply (low_bits m 2); lia).
  eapply (wp_bytes s0 dst src len range_dst range_src mapped_dst mapped_src true Hsafe s3 _ (m mod 4)); [exact H3|rewrite /room /piece; lia|lia|].
  cbn [adv piece]. intros s4 D H4 HD. cbn [front fst]. apply wp_pmem_flush; [lia|lia|lia|]. intros s5 Hf. apply HQ.
  eapply (cur_end s0 dst src len true Hsafe s5); [|eapply moved_flushed; [exact H4|exact Hf|exact HD]]. lia.
Qed.
Lemma wp_move_down (Q : unit -> pm -> Prop) : 64 <= len -> src < dst ->
  (forall s', moved s' dst (dst + len) (fun _ => False) -> Q tt s') -> wp (move_down dst src len) s0 Q.
Proof.
  intros Hlen Hsafe HQ. rewrite /move_down. cbv zeta. set (e := dst + len). set (cnt := Z.land e CACHELINE_MASK).
  assert (Ecnt : cnt = e mod 64) by (rewrite /cnt /CACHELINE_MASK /CACHELINE_ALIGN (low_bits e 6) //; lia).
  pose proof (Z.mod_pos_bound e 64 ltac:(lia)) as Hcnt. rewrite -Ecnt in Hcnt.
  assert (Hal : aligned (e - cnt)).
  { rewrite /aligned. pose proof (Z.div_mod e 64 ltac:(lia)) as Hd. rewrite -Ecnt in Hd.
    replace (e - cnt) with (4 * (e / 64) * 16) by lia. apply Z.mod_mul. lia. }
  apply wp_bind.
  assert (Hpre : forall R : Z * Z * Z -> pm -> Prop, (forall s1, moved s1 (e - cnt) (dst + len) (fun _ => False) -> R (front dst src (e - cnt), len - cnt) s1) ->
    wp (if 0 <? cnt then
          p ← repeat_step (Z.to_nat (Z.min cnt len)) down8 (e, src + len); pmem_flush p.1 (Z.min cnt len);; mret (e - Z.min cnt len, src + len - Z.min cnt len, len - Z.min cnt len)
        else mret (e, src + len, len)) s0 R).
  { intros R HR. destruct (Z.ltb_spec 0 cnt) as [Hc|Hc].
    - rewrite Z.min_l; [lia|].
      assert (Ef : (e, src + len) = front dst src e) by (rewrite /front; f_equal; lia). rewrite Ef.
      eapply (wp_bytes s0 dst src len range_dst range_src mapped_dst mapped_src false Hsafe s0 e cnt).
      + apply moved_none.
      + rewrite /room /piece. lia.
      + lia.
      + cbn [adv piece]. intros s1 D Hc1 HD. cbn [front fst]. apply wp_bind, wp_pmem_flush; [lia|lia|lia|]. intros s2 Hf. apply wp_ret.
        replace (src + len - cnt) with (e - cnt - (dst - src)) by lia. apply HR. eapply moved_flushed; [exact Hc1|exact Hf|exact HD].
    - apply wp_ret. specialize (HR s0). replace cnt with 0 in HR by lia. rewrite !Z.sub_0_r /front in HR.
      replace (e - (dst - src)) with (src + len) in HR by lia. apply HR, moved_none. }
  apply Hpre. clear Hpre. intros s1 H1. cbn [fst snd]. set (n := len - cnt).
  eapply (wp_middle s0 dst src len range_dst range_src mapped_dst mapped_src false Hsafe s1 (e - cnt) n); [exact H1|rewrite /room /piece; lia|done|lia|].
  cbn [adv]. intros s2 H2. rewrite /MOVNT_MASK /DWORD_MASK.
  assert (El : Z.land (Z.land n CHUNK_MASK) 15 = n mod 16).
  { rewrite -Z.land_assoc. change (Z.land CHUNK_MASK 15) with (2 ^ 4 - 1). apply low_bits; lia. }
  rewrite El. pose proof (Z.mod_pos_bound n 16 ltac:(lia)) as Hr.
  destruct (Z.eqb_spec (n mod 16) 0) as [E|E]; cbn [negb].
  { apply wp_ret, HQ. eapply (cur_end s0 dst src len false Hsafe s2); [|exact H2]. lia. }
  set (m := n mod 16) in *. pose proof (Z.mod_pos_bound m 4 ltac:(lia)) as Hr4. pose proof (Z.mod_le m 4 ltac:(lia) ltac:(lia)).
  eapply (wp_words s0 dst src len range_dst range_src mapped_dst mapped_src false Hsafe s2 _ m); [exact H2|rewrite /room /piece; lia|lia|].
  cbn [adv]. intros s3 H3. replace (Z.land m 3) with (m mod 4) by (symmetry; apply (low_bits m 2); lia).
  eapply (wp_bytes s0 dst src len range_dst range_src mapped_dst mapped_src false Hsafe s3 _ (m mod 4)); [exact H3|rewrite /room /piece; lia|lia|].
  cbn [adv piece]. intros s4 D H4 HD. cbn [front fst]. apply wp_pmem_flush; [lia|lia|lia|]. intros s5 Hf. apply HQ.
  eapply (cur_end s0 dst src len false Hsafe s5); [|eapply moved_flushed; [exact H4|exact Hf|exact HD]]. lia.
Qed.

(** The short copy. *)
Lemma wp_memmove (Q : unit -> pm -> Prop) : 0 <= len -> (forall s', moved s' dst (dst + len) (fun x => dst <= x < dst + len) ->
  (forall x, dst <= x < dst + len -> volatile s' !! x = Some Dirty) -> Q tt s') -> wp (memmove dst src len) s0 Q.
Proof.
  intros Hlen HQ. rewrite /memmove. destruct (get_bytes_some (bytes_at s0) (Z.to_nat len) src) as (l & El & Hl & Hi); [intros x Hx; apply mapped_src; lia|].
  apply wp_bind. eapply wp_load_bytes; [exact El|]. apply wp_store; [intros x Hx; apply mapped_dst; lia|]. intros s' (B & V).
  rewrite Hl Z2Nat.id // in B V. apply HQ; [|intros x Hx; by rewrite V decide_True]. split; [|split].
  - intros x. rewrite B. case_decide; [|done]. rewrite Hi; [lia|]. f_equal. lia.
  - intros x Hx Hn. by destruct (Hn Hx).
  - intros x Hx. left. by rewrite V decide_False.
Qed.
Definition copied (s' : pm) : Prop :=
  forall x, bytes_at s' !! x = if decide (dst <= x < dst + len) then bytes_at s0 !! (x - dst + src) else bytes_at s0 !! x.
Definition persistent (s' : pm) : Prop :=
  (forall x, dst <= x < dst + len -> volatile s' !! x = None) /\ forall x, volatile s' !! x = volatile s0 !! x \/ volatile s' !! x = None.
Lemma moved_copied s' D : moved s' dst (dst + len) D -> copied s'.
Proof. intros (B & _) x. rewrite B. case_decide; [|done]. f_equal. lia. Qed.
Lemma wp_memmove_nodrain (Q : Z -> pm -> Prop) : 0 <= len -> 
  (forall s', copied s' -> (len <> 0 -> src <> dst -> persistent s') -> Q dst s') ->
  wp (memmove_nodrain_movnt dst src len) s0 Q.
Proof.
  intros Hlen HQ. rewrite /memmove_nodrain_movnt. destruct (Z.eqb_spec len 0) as [E0|N0]; cbn [orb].
  { apply wp_ret, HQ; [|lia]. intros x. case_decide; [lia|done]. }
  destruct (Z.eqb_spec src dst) as [Es|Ns].
  { apply wp_ret, HQ; [|lia]. intros x. case_decide; [f_equal; lia|done]. }
  rewrite /MOVNT_THRESHOLD. destruct (Z.ltb_spec len 256) as [Lt|Ge].
  - apply wp_bind, wp_memmove; [done|]. intros s1 H1 HD. apply wp_bind, wp_pmem_flush; [lia|lia|lia|]. intros s2 Hf. apply wp_ret.
    pose proof (moved_flushed s0 dst src s1 s2 dst (dst + len) _ dst len H1 Hf ltac:(done)) as H2. apply HQ; [by eapply moved_copied|]. intros _ _.
    destruct Hf as (_ & FV & FD). destruct H2 as (_ & _ & O2).
    assert (Hin : forall x, dst <= x < dst + len -> volatile s2 !! x = None).
    { intros x Hx. destruct (FV x) as [E|]; [|done]. rewrite HD // in E. by destruct (FD x Hx). }
    split; [exact Hin|]. intros x. destruct (decide (dst <= x < dst + len)) as [Hx|Hx]; [right; by apply Hin|by apply O2].
  - assert (Hall : wp (if len <=? u64 (dst - src) then move_up dst src len else move_down dst src len) s0 (fun _ s1 => moved s1 dst (dst + len) (fun _ => False))).
    { rewrite /u64. destruct (Z.lt_ge_cases dst src) as [Hlt|Hge].
      - rewrite -(Z.mod_add (dst - src) 1) // Z.mod_small; [lia|]. rewrite (proj2 (Z.leb_le _ _)); [lia|]. apply wp_move_up; [lia|by left|done].
      - rewrite Z.mod_small; [lia|]. destruct (Z.leb_spec len (dst - src)); [apply wp_move_up; [lia|by right|done]|apply wp_move_down; [lia|lia|done]]. }
    apply wp_bind. eapply wp_mono; [exact Hall|]. intros u s1 H1. cbn beta in H1. apply wp_bind, wp_sfence. intros s2 B2 V2. apply wp_ret. apply HQ.
    + intros x. rewrite B2. by apply (moved_copied s1 _ H1).
    + intros _ _. destruct H1 as (_ & V1 & O1).
      assert (Hin : forall x, dst <= x < dst + len -> volatile s2 !! x = None).
      { intros x Hx. rewrite V2. case_decide as E; [done|]. specialize (V1 x Hx ltac:(tauto)). by destruct (volatile s1 !! x) as [[]|]. }
      split; [exact Hin|]. intros x. destruct (decide (dst <= x < dst + len)) as [Hx|Hx]; [right; by apply Hin|].
      rewrite V2. case_decide; [by right|by apply O1].
Qed.
End move.

(** C9: The copy is memmove: whatever the two ranges, apart, overlapping from either side or
    the same, memory ends up as the C library's memmove leaves it; no byte outside of
    the two ranges is touched, and the aligned instructions get aligned addresses. *)
Theorem memmove_equiv s dst src len : 0 <= len -> 0 <= dst /\ dst + len + 64 <= 2 ^ 64 -> 0 <= src /\ src + len <= 2 ^ 64 ->
  (forall x, dst <= x < dst + len -> is_Some (bytes_at s !! x)) -> (forall x, src <= x < src + len -> is_Some (bytes_at s !! x)) ->
  wp (memmove dst src len) s (fun _ t => wp (pmem_memmove_persist dst src len) s (fun r s' => r = dst /\ bytes_at s' = bytes_at t)).
Proof.
  intros Hlen Hd Hs Hmd Hms. apply wp_memmove; [done..|]. intros t Ht _. rewrite /pmem_memmove_persist. apply wp_bind.
  apply (wp_memmove_nodrain s dst src len Hd Hs Hmd Hms); [done|]. intros s' Hc _. apply wp_ret. split; [done|]. apply map_eq. intros x. rewrite Hc. symmetry. exact (moved_copied s dst src len t _ Ht x).
Qed.
(** C10: And it is durable: when it returns, every byte it wrote is on the persistent medium,
    and no other byte became volatile, unless there was nothing to copy. *)
Theorem memmove_durable s dst src len : 0 < len -> src <> dst -> 0 <= dst /\ dst + len + 64 <= 2 ^ 64 -> 0 <= src /\ src + len <= 2 ^ 64 ->
  (forall x, dst <= x < dst + len -> is_Some (bytes_at s !! x)) -> (forall x, src <= x < src + len -> is_Some (bytes_at s !! x)) ->
  wp (pmem_memmove_persist dst src len) s (fun _ s' =>
    (forall x, dst <= x < dst + len -> volatile s' !! x = None) /\ forall x, volatile s' !! x = volatile s !! x \/ volatile s' !! x = None).
Proof.
  intros Hlen Hne Hd Hs Hmd Hms. rewrite /pmem_memmove_persist. apply wp_bind. apply (wp_memmove_nodrain s dst src len Hd Hs Hmd Hms); [lia|]. intros s' _ Hp. apply wp_ret.
  apply Hp; [lia|done].
Qed.

(** ** Zeroing *)
Lemma wp_cl_flush_loop buf len : 0 <= buf -> len + 64 < 2 ^ 32 -> forall fuel i s (Q : unit -> pm -> Prop), i mod 64 = 0 -> 0 <= i -> len - i <= 64 * Z.of_nat fuel ->
  (forall s', flushed s s' (64 * (buf / 64) + i) (len - i) -> Q tt s') -> wp (cl_flush_loop (S fuel) _mm_clflush buf i len) s Q.
Proof.
  intros Hbuf Hlen. induction fuel as [|fuel IH]; intros i s Q Hal H0 Hf HQ; cbn [cl_flush_loop].
  - destruct (Z.ltb_spec i len); [lia|]. apply wp_ret, HQ. split; [done|]. split; [by left|]. lia.
  - destruct (Z.ltb_spec i len) as [Hlt|Hge].
    2: { apply wp_ret, HQ. split; [done|]. split; [by left|]. lia. }
    apply wp_bind, wp_clflush. intros s1 H1. change CACHELINE_SIZE with 64. rewrite u32_small; [lia|].
    assert (E : 64 * ((buf + i) / 64) = 64 * (buf / 64) + i).
    { pose proof (Z.div_mod i 64 ltac:(lia)) as Hi. rewrite Hal in Hi. rewrite (_ : buf + i = buf + (i / 64) * 64); [lia|]. rewrite Z.div_add //. lia. }
    rewrite E in H1. apply IH; [rewrite Z.add_mod // Hal //|lia|lia|]. intros s2 H2. apply HQ. eapply flushed_trans; [exact H1|exact H2|]. lia.
Qed.
Lemma wp_cl_flush s a n (Q : unit -> pm -> Prop) : 0 <= a -> 0 <= n -> n + 128 < 2 ^ 32 -> (forall s', flushed s s' a n -> Q tt s') -> wp (cl_flush a n) s Q.
Proof.
  intros Ha Hn Hmax HQ. rewrite /cl_flush. change CACHELINE_SIZE with 64. rewrite (low_bits a 6) //. change (2 ^ 6) with 64.
  pose proof (Z.mod_pos_bound a 64 ltac:(lia)). pose proof (Z.div_mod a 64 ltac:(lia)). rewrite (u32_small n); [lia|]. rewrite u32_small; [lia|].
  set (len := n + a mod 64). pose proof (Z.div_mod len 64 ltac:(lia)). pose proof (Z.mod_pos_bound len 64 ltac:(lia)). pose proof (Z.div_pos len 64 ltac:(lia) ltac:(lia)).
  replace (Z.to_nat (len / 64) + 2)%nat with (S (Z.to_nat (len / 64) + 1)) by lia.
  apply wp_cl_flush_loop; [lia|lia|done|lia|lia|]. intros s' (B & V & D). apply HQ. split; [done|]. split; [done|]. intros x Hx. apply D. lia.
Qed.

(** ** Whatever the processor has *)
(** Each line is written back, at the latest by the fence. *)
Definition written_back (s s' : pm) (a n : Z) : Prop :=
  bytes_at s' = bytes_at s /\ (forall x, volatile s' !! x = volatile s !! x \/ (is_Some (volatile s !! x) /\ volatile s' !! x = Some Streamed)) /\
  forall x, a <= x < a + n -> volatile s' !! x <> Some Dirty.
Lemma wp_write_back s p (Q : unit -> pm -> Prop) : (forall s', written_back s s' (64 * (p / 64)) 64 -> Q tt s') -> wp (write_back p) s Q.
Proof.
  intros HQ. apply wp_modify, HQ. rewrite /written_back /CACHELINE_ALIGN. cbn [bytes_at volatile]. split; [done|]. split.
  - intros x. rewrite map_lookup_imap. destruct (volatile s !! x) as [k|]; [|by left]. cbn. destruct (bool_decide _); [right; split; [by eexists|done]|by left].
  - intros x Hx. rewrite map_lookup_imap. destruct (volatile s !! x) as [k|]; [|done]. cbn. rewrite bool_decide_eq_true_2; [|done].
    symmetry. apply (Z.div_unique x 64 (p / 64) (x - 64 * (p / 64))); lia.
Qed.
Lemma wp_weak_loop buf len : 0 <= buf -> len + 64 < 2 ^ 32 -> forall fuel i s (Q : unit -> pm -> Prop), i mod 64 = 0 -> 0 <= i -> len - i <= 64 * Z.of_nat fuel ->
  (forall s', written_back s s' (64 * (buf / 64) + i) (len - i) -> Q tt s') -> wp (cl_flush_loop (S fuel) write_back buf i len) s Q.
Proof.
  intros Hbuf Hlen. induction fuel as [|fuel IH]; intros i s Q Hal H0 Hf HQ; cbn [cl_flush_loop].
  - destruct (Z.ltb_spec i len); [lia|]. apply wp_ret, HQ. split; [done|]. split; [by left|]. lia.
  - destruct (Z.ltb_spec i len) as [Hlt|Hge].
    2: { apply wp_ret, HQ. split; [done|]. split; [by left|]. lia. }
    apply wp_bind, wp_write_back. intros s1 (B1 & V1 & D1). change CACHELINE_SIZE with 64. rewrite u32_small; [lia|].
    assert (E : 64 * ((buf + i) / 64) = 64 * (buf / 64) + i).
    { pose proof (Z.div_mod i 64 ltac:(lia)) as Hi. rewrite Hal in Hi. rewrite (_ : buf + i = buf + (i / 64) * 64); [lia|]. rewrite Z.div_add //. lia. }
    rewrite E in D1. apply IH; [rewrite Z.add_mod // Hal //|lia|lia|]. intros s2 (B2 & V2 & D2). apply HQ. split; [congruence|]. split.
    + intros x. destruct (V2 x) as [->|[[k Hk] ->]]; [apply V1|]. right. split; [|done]. destruct (V1 x) as [<-|[? _]]; [by exists k|done].
    + intros x Hx. destruct (decide (64 * (buf / 64) + (i + 64) <= x)) as [Hx2|Hx2]; [apply D2; lia|].
      destruct (V2 x) as [->|[_ ->]]; [apply D1; lia|done].
Qed.
(** Whichever instructions the processor has, the flush functions that are installed
    bring every byte of the range that was in the cache to the medium, and change no byte
    of memory. *)
Theorem clflush_init_spec cpuid buf n s : 0 <= buf -> 0 <= n -> n + 192 < 2 ^ 32 ->
  forall f, f = (clflush_init cpuid).1 \/ f = (clflush_init cpuid).2 ->
  wp (f buf n) s (fun _ s' => bytes_at s' = bytes_at s /\
    (forall x, buf <= x < buf + n -> volatile s !! x = Some Dirty -> volatile s' !! x = None) /\
    forall x, volatile s' !! x = volatile s !! x \/ volatile s' !! x = None).
Proof.
  intros Hbuf Hn Hmax f Hf.
  assert (Hweak : wp (cl_flush_loop (Z.to_nat (u32 (u32 n + Z.land buf (CACHELINE_SIZE - 1)) / CACHELINE_SIZE) + 2) write_back buf 0
      (u32 (u32 n + Z.land buf (CACHELINE_SIZE - 1)));; _mm_sfence) s (fun _ s' => bytes_at s' = bytes_at s /\
    (forall x, buf <= x < buf + n -> volatile s !! x = Some Dirty -> volatile s' !! x = None) /\
    forall x, volatile s' !! x = volatile s !! x \/ volatile s' !! x = None)).
  { change CACHELINE_SIZE with 64. rewrite (low_bits buf 6) //. change (2 ^ 6) with 64.
    pose proof (Z.mod_pos_bound buf 64 ltac:(lia)). pose proof (Z.div_mod buf 64 ltac:(lia)). rewrite (u32_small n); [lia|]. rewrite u32_small; [lia|].
    set (len := n + buf mod 64). pose proof (Z.div_mod len 64 ltac:(lia)). pose proof (Z.mod_pos_bound len 64 ltac:(lia)). pose proof (Z.div_pos len 64 ltac:(lia) ltac:(lia)).
    replace (Z.to_nat (len / 64) + 2)%nat with (S (Z.to_nat (len / 64) + 1)) by lia.
    apply wp_bind, wp_weak_loop; [lia|lia|done|lia|lia|]. intros s1 (B1 & V1 & D1). apply wp_sfence. intros s2 B2 V2. split; [congruence|]. split.
    - intros x Hx Ex. rewrite V2. case_decide as E; [done|]. destruct (V1 x) as [E1|[_ E1]]; [|congruence]. exfalso. apply (D1 x); [lia|congruence].
    - intros x. rewrite V2. case_decide as E; [by right|]. destruct (V1 x) as [E1|[_ E1]]; [by left|congruence]. }
  assert (Hstrong : wp (cl_flush buf n) s (fun _ s' => bytes_at s' = bytes_at s /\
    (forall x, buf <= x < buf + n -> volatile s !! x = Some Dirty -> volatile s' !! x = None) /\
    forall x, volatile s' !! x = volatile s !! x \/ volatile s' !! x = None)).
  { apply wp_cl_flush; [lia|lia|lia|]. intros s' (B & V & D). split; [done|]. split; [|done]. intros x Hx Ex. destruct (V x) as [E|]; [|done].
    by destruct (D x Hx); rewrite E. }
  rewrite /clflush_init in Hf. destruct (clwb_avail cpuid), (clflushopt_avail cpuid); destruct Hf as [-> | ->]; assumption.
Qed.
Section zero.
Variables (s0 : pm) (dst len : Z).
Hypothesis mapped : forall x, dst <= x < dst + len -> is_Some (bytes_at s0 !! x).
(** The bytes up to [hi] are zero; those from [d] on may be dirty. *)
Definition zeroed (s : pm) (hi d : Z) : Prop :=
  (forall x, bytes_at s !! x = if decide (dst <= x < hi) then Some 0 else bytes_at s0 !! x) /\
  (forall x, dst <= x < hi -> x < d -> volatile s !! x <> Some Dirty) /\
  (forall x, ~ dst <= x < hi -> volatile s !! x = volatile s0 !! x \/ volatile s !! x = None).
Lemma wp_zero k s hi n (Q : unit -> pm -> Prop) : zeroed s hi hi -> dst <= hi -> hi + Z.of_nat n <= dst + len ->
  (forall s', zeroed s' (hi + Z.of_nat n) (match k with Dirty => hi | Streamed => hi + Z.of_nat n end) -> Q tt s') -> wp (store k hi (replicate n 0)) s Q.
Proof.
  intros (B & V & O) Hlo Hhi HQ. set (d := match k with Dirty => _ | Streamed => _ end) in HQ. apply wp_store.
  - intros x Hx. rewrite length_replicate in Hx. rewrite B. destruct (decide (dst <= x < hi)); [by eexists|apply mapped; lia].
  - intros s' (SB & SV). rewrite length_replicate in SB, SV. apply HQ. split; [|split].
    + intros x. rewrite SB. destruct (decide (hi <= x < hi + Z.of_nat n)).
      * rewrite lookup_replicate_2; [lia|]. rewrite decide_True //. lia.
      * rewrite B. repeat case_decide; done || lia.
    + intros x Hx Hd. rewrite SV. destruct (decide (hi <= x < hi + Z.of_nat n)).
      * rewrite /d in Hd. destruct k; [lia|done].
      * apply V; lia.
    + intros x Hx. rewrite SV decide_False; [lia|]. apply O. lia.
Qed.
Lemma zeroed_flushed s s' hi d n : zeroed s hi d -> flushed s s' d n -> hi <= d + n -> zeroed s' hi hi.
Proof.
  intros (B & V & O) (FB & FV & FD) Hn. split; [by rewrite FB|]. split.
  - intros x Hx _ E. destruct (decide (x < d)) as [Hd|Hd]; [|apply (FD x); [lia|done]]. destruct (FV x) as [E'|E']; [|congruence]. apply (V x Hx Hd). congruence.
  - intros x Hx. destruct (FV x) as [->| ->]; [by apply O|by right].
Qed.
Lemma wp_cachelines k : forall s hi (Q : unit -> pm -> Prop), zeroed s hi hi -> dst <= hi -> hi + 64 * Z.of_nat k <= dst + len ->
  (forall s', zeroed s' (hi + 64 * Z.of_nat k) (hi + 64 * Z.of_nat k) -> Q tt s') -> wp (_memzero_nt_cachelines hi k) s Q.
Proof.
  induction k as [|k IH]; intros s hi Q Hz Hlo Hhi HQ; cbn [_memzero_nt_cachelines].
  - apply wp_ret, HQ. by rewrite Z.mul_0_r Z.add_0_r.
  - apply wp_bind, (wp_zero Streamed s hi 64); [done|done|lia|]. intros s1 H1. change (Z.of_nat 64) with 64 in H1.
    apply IH; [done|lia|lia|]. intros s2 H2. apply HQ. by replace (hi + 64 * Z.of_nat (S k)) with (hi + 64 + 64 * Z.of_nat k) by lia.
Qed.
(** A memset and the flush of it. *)
Lemma wp_zero_bytes {A} s hi n (c : PM A) (Q : A -> pm -> Prop) : zeroed s hi hi -> 0 <= dst -> dst <= hi -> hi + n <= dst + len -> 0 <= n -> n + 128 < 2 ^ 32 ->
  (forall s', zeroed s' (hi + n) (hi + n) -> wp c s' Q) -> wp (memset hi 0 n;; cl_flush hi n;; c) s Q.
Proof.
  intros Hz Hd Hlo Hhi Hn Hmax HQ. apply wp_bind, (wp_zero Dirty s hi (Z.to_nat n)); [done|done|lia|]. intros s1 H1. cbv beta iota in H1. rewrite Z2Nat.id // in H1.
  apply wp_bind, wp_cl_flush; [lia|lia|lia|]. intros s2 H2. apply HQ. eapply zeroed_flushed; [exact H1|exact H2|lia].
Qed.
End zero.
(** C11: Zeroing a range leaves zeros in it and nothing else changed; no byte of it stays in
    the cache only: what is not on the medium is in the write buffer, for the caller's
    fence. *)
Theorem memzero_spec s dst len : 0 <= dst -> 0 <= len -> (forall x, dst <= x < dst + len -> is_Some (bytes_at s !! x)) ->
  wp (memzero_nt dst len) s (fun _ s' =>
    (forall x, bytes_at s' !! x = if decide (dst <= x < dst + len) then Some 0 else bytes_at s !! x) /\
    (forall x, dst <= x < dst + len -> volatile s' !! x <> Some Dirty) /\
    (forall x, ~ dst <= x < dst + len -> volatile s' !! x = volatile s !! x \/ volatile s' !! x = None)).
Proof.
  intros Hd Hlen Hm. rewrite /memzero_nt. change (CACHELINE_SIZE - 1) with (2 ^ 6 - 1). rewrite (low_bits dst 6) //. change (2 ^ 6) with 64. change CACHELINE_SIZE with 64.
  pose proof (Z.mod_pos_bound dst 64 ltac:(lia)). set (off := dst mod 64) in *. set (n0 := if decide (off = 0) then 0 else Z.min (64 - off) len).
  assert (Hn0 : 0 <= n0 <= len) by (rewrite /n0; case_decide; lia).
  assert (Hpre : forall R : Z * Z -> pm -> Prop, (forall s1, zeroed s dst s1 (dst + n0) (dst + n0) -> R (dst + n0, len - n0) s1) ->
    wp (if negb (off =? 0) then memset dst 0 (Z.min (64 - off) len);; cl_flush dst (Z.min (64 - off) len);; mret (dst + Z.min (64 - off) len, len - Z.min (64 - off) len)
        else mret (dst, len)) s R).
  { assert (Hz0 : zeroed s dst s dst dst) by (split; [intros x; rewrite decide_False //; lia|split; [lia|by left]]).
    intros R HR. rewrite /n0 in HR. destruct (Z.eqb_spec off 0) as [E|E]; cbn [negb].
    - rewrite decide_True // Z.add_0_r Z.sub_0_r in HR. by apply wp_ret, HR.
    - rewrite decide_False // in HR. apply (wp_zero_bytes s dst len Hm); [done|lia|lia|lia|lia|lia|]. intros s1 Hz1. by apply wp_ret, HR. }
  apply wp_bind, Hpre. clear Hpre. intros s1 Hz1. set (n := len - n0). rewrite /CACHELINE_SHIFT Z.shiftr_div_pow2 // Z.shiftl_mul_pow2 //. change (2 ^ 6) with 64.
  pose proof (Z.div_mod n 64 ltac:(lia)). pose proof (Z.mod_pos_bound n 64 ltac:(lia)). pose proof (Z.div_pos n 64 ltac:(lia) ltac:(lia)). set (q := n / 64) in *.
  assert (Hmid : forall R : unit -> pm -> Prop, (forall s2, zeroed s dst s2 (dst + n0 + q * 64) (dst + n0 + q * 64) -> R tt s2) ->
    wp (if negb (q =? 0) then _memzero_nt_cachelines (dst + n0) (Z.to_nat q) else mret tt) s1 R).
  { intros R HR. destruct (Z.eqb_spec q 0) as [E|E]; cbn [negb].
    - apply wp_ret, HR. by rewrite E Z.add_0_r.
    - apply (wp_cachelines s dst len Hm); [done|lia|lia|]. intros s2. rewrite Z2Nat.id // (Z.mul_comm 64). apply HR. }
  apply wp_bind, Hmid. clear Hmid. intros s2 Hz2. destruct (Z.ltb_spec 0 (n - q * 64)) as [Hl|Hl].
  - apply wp_bind, (wp_zero s dst len Hm Dirty s2 (dst + n0 + q * 64) (Z.to_nat (n - q * 64))); [done|lia|lia|]. intros s3 Hz3.
    cbv beta iota in Hz3. rewrite Z2Nat.id in Hz3; [lia|]. apply wp_cl_flush; [lia|lia|lia|]. intros s4 Hf.
    pose proof (zeroed_flushed s dst _ _ _ _ _ Hz3 Hf ltac:(lia)) as (B & V & O).
    replace (dst + n0 + q * 64 + (n - q * 64)) with (dst + len) in * by lia. split; [done|]. split; [|done]. intros x Hx. apply V; [done|lia].
  - apply wp_ret. destruct Hz2 as (B & V & O). replace (dst + n0 + q * 64) with (dst + len) in * by lia. split; [done|]. split; [|done]. intros x Hx. apply V; [done|lia].
Qed.

(** ** Two examples *)
(** 400 bytes at 1000; 300 of them move by 50, over themselves. *)
Definition mem_example : pm := Pm (put_bytes 1000 (seqZ 0 400) ∅) ∅.
Lemma mem_example_mapped x : 1000 <= x < 1400 -> is_Some (bytes_at mem_example !! x).
Proof.
  intros Hx. rewrite /mem_example /bytes_at put_bytes_lookup length_seqZ decide_True; [lia|]. rewrite lookup_seqZ_lt; [lia|]. by eexists.
Qed.
Lemma memmove_equiv_witness : wp (memmove 1050 1000 300) mem_example (fun _ t => wp (pmem_memmove_persist 1050 1000 300) mem_example (fun r s' => r = 1050 /\ bytes_at s' = bytes_at t)).
Proof.
  apply (memmove_equiv mem_example 1050 1000 300); [lia|lia|lia| |]; intros x Hx; apply mem_example_mapped; lia.
Defined.
Lemma memmove_durable_witness : 0 < 300 /\ wp (pmem_memmove_persist 1050 1000 300) mem_example (fun _ s' => forall x, 1050 <= x < 1350 -> volatile s' !! x = None).
Proof.
  split; [lia|]. eapply wp_mono; [apply (memmove_durable mem_example 1050 1000 300); [lia|lia|lia|lia| |]; intros x Hx; apply mem_example_mapped; lia|].
  intros r s' [H _]. exact H.
Defined.
Lemma memzero_spec_witness : wp (memzero_nt 1010 200) mem_example (fun _ s' => bytes_at s' !! 1100 = Some 0).
Proof.
  eapply wp_mono; [apply (memzero_spec mem_example 1010 200); [lia|lia|]; intros x Hx; apply mem_example_mapped; lia|].
  intros u s' [H _]. exact (H 1100).
Defined.
Definition mem_dirty : pm := Pm (put_bytes 1000 (seqZ 0 100) ∅) (put_bytes 1000 (replicate 100 Dirty) ∅).
Lemma clflush_init_spec_witness : volatile mem_dirty !! 1050 = Some Dirty /\
  wp ((clflush_init (fun _ _ => [7; CLFLUSHOPT_BIT; 0; 0])).2 1000 100) mem_dirty (fun _ s' => volatile s' !! 1050 = None).
Proof.
  assert (E : volatile mem_dirty !! 1050 = Some Dirty) by reflexivity. split; [exact E|].
  eapply wp_mono; [apply (clflush_init_spec (fun _ _ => [7; CLFLUSHOPT_BIT; 0; 0]) 1000 100 mem_dirty); [lia|lia|lia|right; reflexivity]|].
  intros u s' (_ & H & _). apply H; [lia|exact E].
Defined.
(** Down and up: the bytes, and that nothing is volatile. *)
Example move_runs :
  (fun '(_, s') => (get_bytes (bytes_at s') 1045 10, volatile s')) <$> pmem_memmove_persist 1050 1000 300 mem_example = Some (Some [45; 46; 47; 48; 49; 0; 1; 2; 3; 4], ∅) /\
  (fun '(_, s') => (get_bytes (bytes_at s') 995 5, get_bytes (bytes_at s') 1295 10, volatile s')) <$> pmem_memmove_persist 1000 1050 300 mem_example =
    Some (None, Some [345; 346; 347; 348; 349; 300; 301; 302; 303; 304], ∅).
Proof. split; vm_compute; reflexivity. Qed.
