(* ===== verification/Zt.v ===== *)
(** * The handler threads: the dispatchers of zus-core.c

    What a handler thread (ZT) takes from the kernel, the loop in which it serves, and how
    the threads are stopped.  The starting of the threads is in Wtz.v, the command a thread
    executes in Vfs.v. *)

From S2P Require Import Prelude Core.

(** ** State *)
(** A thread by its channel and cpu: the indices of [g_ztp.zts]. *)
Notation zkey := (nat * nat)%type.
(** The header of an operation (zus_api.h). *)
Record zufs_ioc_hdr := ZufsIocHdr { hdr_err : Z; hdr_flags : Z; hdr_operation : Z; hdr_offset : Z }.
(** struct _zu_thread: [zt_thread] and [zt_err] are the fields of its [zbt]; [op_hdr] is 0
    until the thread is set up. *)
Record _zu_thread := ZuThread { zt_fd : Z; zt_api_mem : Z; zt_stop : bool; zt_op_hdr : Z; zt_thread : Z; zt_err : Z }.
Definition zt_zero : _zu_thread := ZuThread 0 0 false 0 0 0.
(** What the process has from the kernel: descriptors, and mappings with their length. *)
Notation res := (Z + Z * Z)%type.
(** [k_res] tells who took a resource: a thread, or somebody else; [k_chan] is the channel
    a descriptor is registered for; [k_log] are the calls of ZU_IOC_BREAK_ALL, the last
    first, each with the channel of its descriptor.  [h_op] are the buffers of operations,
    [zts] the tables of [g_ztp]. *)
Record ztp_state (F : Type) := ZtpState {
  k_res : gmap res (option zkey); k_chan : gmap Z nat; k_log : list (option nat);
  h_op : gmap Z zufs_ioc_hdr; zts : gmap nat (list _zu_thread); zt_fs : F }.
Arguments ZtpState {F}. Arguments k_res {F}. Arguments k_chan {F}. Arguments k_log {F}. Arguments h_op {F}. Arguments zts {F}. Arguments zt_fs {F}.
Definition upd_res {F : Type} (f : gmap res (option zkey) -> gmap res (option zkey)) (s : ztp_state F) : ztp_state F := ZtpState (f (k_res s)) (k_chan s) (k_log s) (h_op s) (zts s) (zt_fs s).
Definition upd_chan {F : Type} (f : gmap Z nat -> gmap Z nat) (s : ztp_state F) : ztp_state F := ZtpState (k_res s) (f (k_chan s)) (k_log s) (h_op s) (zts s) (zt_fs s).
Definition upd_log {F : Type} (f : list (option nat) -> list (option nat)) (s : ztp_state F) : ztp_state F := ZtpState (k_res s) (k_chan s) (f (k_log s)) (h_op s) (zts s) (zt_fs s).
Definition upd_h_op {F : Type} (f : gmap Z zufs_ioc_hdr -> gmap Z zufs_ioc_hdr) (s : ztp_state F) : ztp_state F := ZtpState (k_res s) (k_chan s) (k_log s) (f (h_op s)) (zts s) (zt_fs s).
Definition upd_zts {F : Type} (f : gmap nat (list _zu_thread) -> gmap nat (list _zu_thread)) (s : ztp_state F) : ztp_state F := ZtpState (k_res s) (k_chan s) (k_log s) (h_op s) (f (zts s)) (zt_fs s).

Definition set_fd (fd : Z) (t : _zu_thread) : _zu_thread := ZuThread fd (zt_api_mem t) (zt_stop t) (zt_op_hdr t) (zt_thread t) (zt_err t).
Definition set_api_mem (a : Z) (t : _zu_thread) : _zu_thread := ZuThread (zt_fd t) a (zt_stop t) (zt_op_hdr t) (zt_thread t) (zt_err t).
Definition set_stop (t : _zu_thread) : _zu_thread := ZuThread (zt_fd t) (zt_api_mem t) true (zt_op_hdr t) (zt_thread t) (zt_err t).
Definition set_op_hdr (op : Z) (t : _zu_thread) : _zu_thread := ZuThread (zt_fd t) (zt_api_mem t) (zt_stop t) op (zt_thread t) (zt_err t).
Definition set_joined (t : _zu_thread) : _zu_thread := ZuThread (zt_fd t) (zt_api_mem t) (zt_stop t) (zt_op_hdr t) 0 (zt_err t).
Definition set_zt_err (e : Z) (t : _zu_thread) : _zu_thread := ZuThread (zt_fd t) (zt_api_mem t) (zt_stop t) (zt_op_hdr t) (zt_thread t) e.

Definition ZUS_MAX_OP_SIZE : Z := PAGE_SIZE * 16.
(** From zus_api.h. *)
Class ZtApi : Type := { ZUS_API_MAP_MAX_SIZE : Z; ZUFS_H_INTR : Z; MAP_FAILED : Z }.
(** What the kernel answers while a thread sets up: a descriptor or an errno, the error of
    ZU_IOC_INIT_THREAD, and the addresses of the two mappings. *)
Record zt_answers := ZtAnswers { a_open : Z + Z; a_zt_init : Z; a_api : Z + Z; a_buff : Z + Z }.

Section zt.
Context {F : Type} `{ZtApi}.
Notation M := (ST (ztp_state F)).
(** [zus_do_command(app_ptr, hdr)]; the error it returns. *)
Variable do_command : Z -> zufs_ioc_hdr -> ST F Z.

Definition ent (s : ztp_state F) (k : zkey) : option _zu_thread := zts s !! k.1 ≫= (.!! k.2).
Definition get_zt (k : zkey) : M _zu_thread := fun s => match ent s k with Some t => Some (t, s) | None => None end.
Definition set_zt (k : zkey) (f : _zu_thread -> _zu_thread) : M unit := get_zt k;; modify (upd_zts (alter (alter f k.2) k.1)).
Definition take_res (k : zkey) (r : res) : M unit := modify (upd_res (<[r := Some k]>)).
Definition errno_or (dflt errno : Z) : Z := if errno =? 0 then dflt else errno.

(** ** Setting up *)
Definition zuf_root_open_tmp (k : zkey) (a : Z + Z) : M Z :=
  match a with
  | inl errno => set_zt k (set_fd (-1));; mret (- errno)
  | inr fd => take_res k (inl fd);; set_zt k (set_fd fd);; mret 0
  end.
Definition zuf_root_close (k : zkey) : M unit :=
  t ← get_zt k;
  if 0 <=? zt_fd t then modify (upd_res (delete (inl (zt_fd t))));; modify (upd_chan (delete (zt_fd t)));; set_zt k (set_fd (-1)) else mret tt.
Definition zuf_zt_init (k : zkey) (err : Z) : M Z :=
  t ← get_zt k;
  if err =? 0 then modify (upd_chan (<[zt_fd t := k.1]>));; mret 0 else mret err.
Definition _zu_mmap (k : zkey) (a : Z + Z) : M Z :=
  match a with
  | inl errno => set_zt k (set_api_mem MAP_FAILED);; mret (- errno_or ENOMEM errno)
  | inr p => take_res k (inr (p, ZUS_API_MAP_MAX_SIZE));; set_zt k (set_api_mem p);; mret 0
  end.
Definition _zu_unmap (k : zkey) : M unit :=
  t ← get_zt k;
  modify (upd_res (delete (inr (zt_api_mem t, ZUS_API_MAP_MAX_SIZE))));; set_zt k (set_api_mem 0).
(** The error and the buffer, whose content the kernel has cleared. *)
Definition _zu_ioc_buff_mmap (k : zkey) (a : Z + Z) : M (Z * Z) :=
  match a with
  | inl errno => mret (- errno_or ENOMEM errno, 0)
  | inr p => take_res k (inr (p, ZUS_MAX_OP_SIZE));; modify (upd_h_op (<[p := ZufsIocHdr 0 0 0 0]>));; mret (0, p)
  end.
Definition _zu_ioc_buff_unmap (op : Z) : M unit := modify (upd_res (delete (inr (op, ZUS_MAX_OP_SIZE))));; modify (upd_h_op (delete op)).

(** [zt->zbt.err = ...] *)
Definition keep_err (k : zkey) (m : M Z) : M Z := e ← m; set_zt k (set_zt_err e);; mret e.
(** Up to [wtz_release]: the buffer of operations, or None at the label [fail]. *)
Definition zt_setup (k : zkey) (a : zt_answers) : M (option Z) :=
  e ← keep_err k (zuf_root_open_tmp k (a_open a));
  if negb (e =? 0) then mret None else
  e ← keep_err k (zuf_zt_init k (a_zt_init a));
  if negb (e =? 0) then mret None else
  e ← keep_err k (_zu_mmap k (a_api a));
  if negb (e =? 0) then mret None else
  r ← _zu_ioc_buff_mmap k (a_buff a);
  set_zt k (set_zt_err r.1);;
  if negb (r.1 =? 0) then mret None else
  set_zt k (set_op_hdr r.2);;
  mret (Some r.2).

(** ** Serving *)
(** What [zuf_wait_opt] answers: its error, and the operation when the kernel has filled it
    in. *)
Record wait_answer := WaitAnswer { w_err : Z; w_op : option zufs_ioc_hdr }.
Definition zuf_wait_opt (k : zkey) (op : Z) (a : wait_answer) : M unit :=
  modify (upd_h_op (fun h => match w_op a with Some o => <[op := o]> h | None => h end));;
  set_zt k (set_zt_err (w_err a)).
Definition on_fs {A} (m : ST F A) : M A := zoom zt_fs (fun f s => ZtpState (k_res s) (k_chan s) (k_log s) (h_op s) (zts s) f) m.
Definition _do_op (k : zkey) (op : Z) : M Z :=
  t ← get_zt k;
  o ← load h_op op;
  on_fs (do_command (zt_api_mem t + hdr_offset o) o).
(** The command is executed after an error of the wait, too.  The error for the kernel. *)
Definition zt_serve (k : zkey) (op : Z) : M Z :=
  err ← _do_op k op;
  o ← load h_op op;
  modify (upd_h_op (<[op := ZufsIocHdr (_errno_UtoK err) (hdr_flags o) (hdr_operation o) (hdr_offset o)]>));;
  mret (_errno_UtoK err).
Definition zt_exit (k : zkey) (op : Z) : M unit := _zu_ioc_buff_unmap op;; _zu_unmap k;; zuf_root_close k.
(** The loop, over the kernel's answers, each with whether the thread is told to stop while
    it works on it; a thread that is never told waits for ever, and its run has no
    result.  The errors sent back. *)
Fixpoint zt_loop (k : zkey) (op : Z) (l : list (wait_answer * bool)) : M (list Z) :=
  t ← get_zt k;
  if zt_stop t then mret [] else
  match l with
  | [] => abort
  | (a, stop) :: l' =>
    zuf_wait_opt k op a;;
    e ← zt_serve k op;
    (if stop : bool then set_zt k set_stop else mret tt);;
    r ← zt_loop k op l'; mret (e :: r)
  end.
(** The thread: None when it failed. *)
Definition zu_thread (k : zkey) (a : zt_answers) (l : list (wait_answer * bool)) : M (option (list Z)) :=
  o ← zt_setup k a;
  match o with
  | None => mret None
  | Some op => r ← zt_loop k op l; zt_exit k op;; mret (Some r)
  end.

(** ** From a thread *)
(** [is_zt]: the running thread is a handler thread. *)
Definition zus_zt_signal_pending (is_zt : bool) (k : zkey) : M Z :=
  if negb is_zt then mret 0 else
  t ← get_zt k; o ← load h_op (zt_op_hdr t); mret (Z.land (hdr_flags o) ZUFS_H_INTR).

(** ** Stopping *)
(** Its error is ignored. *)
Definition zuf_break_all (fd : Z) : M unit := modify (fun s => upd_log (cons (k_chan s !! fd)) s).
(** The threads of a pool while it is stopped: a thread that sets up, at the head of its
    loop, waiting in the kernel, executing a command, or returned, with its success. *)
Inductive zt_pc := PInit | PLoop (op : Z) | PWait (op : Z) | PServe (op : Z) | PGone (ok : bool).
(** Where [zus_stop_all_threads] is: before channel [c]; in [_zus_stop_chan_threads], which
    sets the flags, breaks the waits and joins; behind the loop. *)
Inductive stop_pc := SChan (c : nat) | SFlag (c i : nat) | SBreak (c : nat) | SJoin (c i : nat) | SFree (c : nat) | SDone.
Record run_state := RunState { sh : ztp_state F; pcs : gmap zkey zt_pc; at_pc : stop_pc }.
(** Who makes a step: the thread that stops the others, one of these, or the kernel, which
    hands an operation to a thread. *)
Inductive actor := AMain | AThread (k : zkey) | AKernel (k : zkey).
(** What the kernel can answer: what it gives is not in use. *)
Definition answers_ok (s : ztp_state F) (a : zt_answers) : Prop :=
  match a_open a with inl errno => 0 < errno | inr fd => 0 <= fd /\ k_res s !! inl fd = None end /\
  match a_api a with inl errno => 0 <= errno | inr p => k_res s !! inr (p, ZUS_API_MAP_MAX_SIZE) = None end /\
  match a_buff a with inl errno => 0 <= errno | inr p => k_res s !! inr (p, ZUS_MAX_OP_SIZE) = None /\ a_api a <> inr p end.
Section stop.
(** [g_ztp.num_zts] and [g_ztp.max_channels]; does the wait of a thread return, by the calls
    of ZU_IOC_BREAK_ALL so far? *)
Context (num_zts max_channels : nat) (wakes : list (option nat) -> zkey -> bool).
Inductive stop_step : actor -> run_state -> run_state -> Prop :=
| ss_no_chan s p c : (c < max_channels)%nat -> zts s !! c = None -> stop_step AMain (RunState s p (SChan c)) (RunState s p (SChan (S c)))
| ss_chan s p c l : (c < max_channels)%nat -> zts s !! c = Some l -> stop_step AMain (RunState s p (SChan c)) (RunState s p (SFlag c 0))
| ss_flag s s' p c i : (i < num_zts)%nat -> set_zt (c, i) set_stop s = Some (tt, s') ->
    stop_step AMain (RunState s p (SFlag c i)) (RunState s' p (SFlag c (S i)))
| ss_flags_end s p c i : (num_zts <= i)%nat -> stop_step AMain (RunState s p (SFlag c i)) (RunState s p (SBreak c))
| ss_break s s' p c : (t ← get_zt (c, 0%nat); zuf_break_all (zt_fd t)) s = Some (tt, s') ->
    stop_step AMain (RunState s p (SBreak c)) (RunState s' p (SJoin c 0))
| ss_no_join s p c i t : (i < num_zts)%nat -> ent s (c, i) = Some t -> zt_thread t = 0 ->
    stop_step AMain (RunState s p (SJoin c i)) (RunState s p (SJoin c (S i)))
| ss_join s s' p c i t ok : (i < num_zts)%nat -> ent s (c, i) = Some t -> zt_thread t <> 0 -> p !! (c, i) = Some (PGone ok) ->
    set_zt (c, i) set_joined s = Some (tt, s') ->
    stop_step AMain (RunState s p (SJoin c i)) (RunState s' p (SJoin c (S i)))
| ss_joins_end s p c i : (num_zts <= i)%nat -> stop_step AMain (RunState s p (SJoin c i)) (RunState s p (SFree c))
| ss_free s p c : stop_step AMain (RunState s p (SFree c)) (RunState (upd_zts (delete c) s) p (SChan (S c)))
| ss_end s p c : (max_channels <= c)%nat -> stop_step AMain (RunState s p (SChan c)) (RunState (upd_zts (fun _ => ∅) s) p SDone)
| ss_init s s' p m k a o : p !! k = Some PInit -> answers_ok s a -> zt_setup k a s = Some (o, s') ->
    stop_step (AThread k) (RunState s p m) (RunState s' (<[k := match o with Some op => PLoop op | None => PGone false end]> p) m)
| ss_wait s p m k op t : p !! k = Some (PLoop op) -> ent s k = Some t -> zt_stop t = false ->
    stop_step (AThread k) (RunState s p m) (RunState s (<[k := PWait op]> p) m)
| ss_exit s s' p m k op t : p !! k = Some (PLoop op) -> ent s k = Some t -> zt_stop t = true -> zt_exit k op s = Some (tt, s') ->
    stop_step (AThread k) (RunState s p m) (RunState s' (<[k := PGone true]> p) m)
| ss_woken s s' p m k op a : p !! k = Some (PWait op) -> wakes (k_log s) k = true -> zuf_wait_opt k op a s = Some (tt, s') ->
    stop_step (AThread k) (RunState s p m) (RunState s' (<[k := PServe op]> p) m)
| ss_operation s s' p m k op a : p !! k = Some (PWait op) -> zuf_wait_opt k op a s = Some (tt, s') ->
    stop_step (AKernel k) (RunState s p m) (RunState s' (<[k := PServe op]> p) m)
| ss_serve s s' p m k op e : p !! k = Some (PServe op) -> zt_serve k op s = Some (e, s') ->
    stop_step (AThread k) (RunState s p m) (RunState s' (<[k := PLoop op]> p) m).
End stop.
End zt.
Arguments run_state : clear implicits. Arguments RunState {F}. Arguments sh {F}. Arguments pcs {F}. Arguments at_pc {F}.
