(* ===== verification/ZtSpec.v ===== *)
(** * What the handler threads promise

    A thread gives back what it took, or leaves exactly what it had taken when it failed;
    every fair run of the stop ends, if no operation arrives meanwhile. *)

From S2P Require Import Prelude Core Zt.

Section spec.
Context {F : Type} `{ZtApi}.
Notation M := (ST (ztp_state F)).
Implicit Types s : ztp_state F.

(** ** What a thread can change *)
(** A step of thread [k]: nothing of the others. *)
Record local (k : zkey) (s s' : ztp_state F) : Prop := Local {
  lc_res r o : o <> Some k -> k_res s' !! r = Some o <-> k_res s !! r = Some o;
  lc_chan fd k' : k' <> k -> k_res s !! inl fd = Some (Some k') -> k_chan s' !! fd = k_chan s !! fd;
  lc_op op k' : k' <> k -> k_res s !! inr (op, ZUS_MAX_OP_SIZE) = Some (Some k') -> h_op s' !! op = h_op s !! op;
  lc_ent k' : k' <> k -> ent s' k' = ent s k';
  lc_self t : ent s k = Some t -> exists t', ent s' k = Some t' /\ zt_thread t' = zt_thread t /\ zt_stop t' = zt_stop t;
  lc_dom c : length <$> zts s' !! c = length <$> zts s !! c;
  lc_log : k_log s' = k_log s }.
Lemma local_refl k s : local k s s.
Proof. split; naive_solver. Qed.
Lemma local_trans k s1 s2 s3 : local k s1 s2 -> local k s2 s3 -> local k s1 s3.
Proof.
  intros [A1 A2 A3 A4 A5 A6 A7] [B1 B2 B3 B4 B5 B6 B7]. split.
  - intros r o Ho. by rewrite B1 // A1.
  - intros fd k' Hk Hr. rewrite (B2 fd k') //; [|by apply (A2 fd k')]. apply A1; [congruence|done].
  - intros op k' Hk Hr. rewrite (B3 op k') //; [|by apply (A3 op k')]. apply A1; [congruence|done].
  - intros k' Hk. by rewrite B4 // A4.
  - intros t (t1&E1&T1&S1)%A5. destruct (B5 _ E1) as (t2&E2&T2&S2). exists t2. by rewrite T2 S2.
  - intros c. by rewrite B6 A6.
  - by rewrite B7 A7.
Qed.
(** Nothing of what others took changes. *)
Definition others (k : zkey) (s s' : ztp_state F) : Prop := forall r o, o <> Some k -> k_res s' !! r = Some o <-> k_res s !! r = Some o.
Lemma others_trans k s1 s2 s3 : others k s1 s2 -> others k s2 s3 -> others k s1 s3.
Proof. intros A B r o Ho. by rewrite B // A. Qed.
Definition mine (k : zkey) (s : ztp_state F) (R : list res) : Prop := forall r, k_res s !! r = Some (Some k) <-> r ∈ R.

(** ** The calls *)
Lemma ent_alter s k f k' : ent (upd_zts (alter (alter f k.2) k.1) s) k' = (if decide (k' = k) then f else id) <$> ent s k'.
Proof.
  rewrite /ent /upd_zts /=. destruct k as [c i], k' as [c' i']. cbn [fst snd]. destruct (decide (c' = c)) as [->|Hc].
  - rewrite lookup_alter_eq. destruct (zts s !! c) as [l|]; [|by case_decide]. cbn. destruct (decide (i' = i)) as [->|Hi].
    + rewrite list_lookup_alter_eq. by rewrite decide_True.
    + rewrite list_lookup_alter_ne //. rewrite decide_False; [naive_solver|]. by destruct (l !! i').
  - rewrite lookup_alter_ne //. rewrite decide_False; [naive_solver|]. by destruct (zts s !! c' ≫= _).
Qed.
Lemma wp_get_zt s k t Q : ent s k = Some t -> Q t s -> wp (get_zt k) s Q.
Proof. rewrite /wp /get_zt. by intros ->. Qed.
Lemma wp_set_zt s k f t Q : ent s k = Some t -> Q tt (upd_zts (alter (alter f k.2) k.1) s) -> wp (set_zt k f) s Q.
Proof. intros E HQ. rewrite /set_zt. apply wp_bind. by apply (wp_get_zt _ _ _ _ E). Qed.
Lemma local_set k s f : (forall t, zt_thread (f t) = zt_thread t /\ zt_stop (f t) = zt_stop t) -> local k s (upd_zts (alter (alter f k.2) k.1) s).
Proof.
  intros Hf. split; try done.
  - intros k' Hk. rewrite ent_alter decide_False //. by destruct (ent s k').
  - intros t E. rewrite ent_alter decide_True // E. exists (f t). split; [done|apply Hf].
  - intros c. cbn [zts upd_zts]. destruct (decide (c = k.1)) as [->|Hc]; [|by rewrite lookup_alter_ne].
    rewrite lookup_alter_eq. destruct (zts s !! k.1); [|done]. cbn. by rewrite length_alter.
Qed.
Lemma local_take k s r : k_res s !! r = None -> local k s (upd_res (<[r := Some k]>) s).
Proof.
  intros Hr. split; try done; [|intros t E; by exists t].
  intros r' o Ho. cbn [k_res upd_res]. destruct (decide (r' = r)) as [->|Hn].
  - rewrite lookup_insert_eq Hr. naive_solver.
  - by rewrite lookup_insert_ne.
Qed.
Lemma local_drop k s r : k_res s !! r = Some (Some k) -> local k s (upd_res (delete r) s).
Proof.
  intros Hr. split; try done; [|intros t E; by exists t].
  intros r' o Ho. cbn [k_res upd_res]. destruct (decide (r' = r)) as [->|Hn].
  - rewrite lookup_delete_eq Hr. naive_solver.
  - by rewrite lookup_delete_ne.
Qed.
Lemma local_chan k s fd f : (forall k', k' <> k -> k_res s !! inl fd <> Some (Some k')) -> (forall m fd', fd' <> fd -> f m !! fd' = m !! fd') -> local k s (upd_chan f s).
Proof.
  intros Hr Hf. split; try done; [|intros t E; by exists t]. intros fd' k' Hk E. cbn [k_chan upd_chan]. apply Hf. intros ->.
  by apply (Hr k' Hk).
Qed.
Lemma local_h_op k s op f : (forall k', k' <> k -> k_res s !! inr (op, ZUS_MAX_OP_SIZE) <> Some (Some k')) -> (forall m op', op' <> op -> f m !! op' = m !! op') -> local k s (upd_h_op f s).
Proof.
  intros Hr Hf. split; try done; [|intros t E; by exists t]. intros op' k' Hk E. cbn [h_op upd_h_op]. apply Hf. intros ->.
  by apply (Hr k' Hk).
Qed.

(** The file system is not concerned. *)
Lemma keeps_set f k g : keeps (fun s => zt_fs s = f) (set_zt k g).
Proof. rewrite /set_zt. apply keeps_bind; [|intros _; by apply keeps_modify]. intros s x s' Hs. rewrite /get_zt. destruct (ent s k); [|done]. by intros [= _ <-]. Qed.
Lemma keeps_wait f k op a : keeps (fun s => zt_fs s = f) (zuf_wait_opt k op a).
Proof. rewrite /zuf_wait_opt. keeps. apply keeps_set. Qed.
Lemma keeps_get f k : keeps (fun s => zt_fs s = f) (get_zt k).
Proof. intros s x s' Hs. rewrite /get_zt. destruct (ent s k); [|done]. by intros [= _ <-]. Qed.
Lemma keeps_exit f k op : keeps (fun s => zt_fs s = f) (zt_exit k op).
Proof. rewrite /zt_exit /_zu_ioc_buff_unmap /_zu_unmap /zuf_root_close. keeps; first [apply keeps_get|apply keeps_set]. Qed.
Lemma keeps_setup f k a : keeps (fun s => zt_fs s = f) (zt_setup k a).
Proof.
  rewrite /zt_setup /keep_err /zuf_root_open_tmp /zuf_zt_init /_zu_mmap /_zu_ioc_buff_mmap /take_res. keeps; first [apply keeps_get|apply keeps_set].
Qed.

(** ** Setting up *)
(** What is taken until the first failure, and how the setup ends. *)
Definition taken (a : zt_answers) : list res :=
  match a_open a with
  | inl _ => []
  | inr fd => inl fd :: if negb (a_zt_init a =? 0) then [] else
    match a_api a with
    | inl _ => []
    | inr p => inr (p, ZUS_API_MAP_MAX_SIZE) :: match a_buff a with inl _ => [] | inr q => [inr (q, ZUS_MAX_OP_SIZE)] end
    end
  end.
Definition setup_err (a : zt_answers) : Z :=
  match a_open a with
  | inl e => - e
  | inr fd => if negb (a_zt_init a =? 0) then a_zt_init a else
    match a_api a with
    | inl e => - errno_or ENOMEM e
    | inr p => match a_buff a with inl e => - errno_or ENOMEM e | inr q => 0 end
    end
  end.
(** A thread that serves, with what it has. *)
Definition serving (k : zkey) (op : Z) (s : ztp_state F) : Prop := exists t,
  ent s k = Some t /\ 0 <= zt_fd t /\ k_chan s !! zt_fd t = Some k.1 /\ is_Some (h_op s !! op) /\ zt_op_hdr t = op /\
  mine k s [inl (zt_fd t); inr (zt_api_mem t, ZUS_API_MAP_MAX_SIZE); inr (op, ZUS_MAX_OP_SIZE)].

Lemma mine_take k s r R : mine k s R -> mine k (upd_res (<[r := Some k]>) s) (r :: R).
Proof.
  intros HR r'. cbn [k_res upd_res]. rewrite elem_of_cons. destruct (decide (r' = r)) as [->|Hn]; [rewrite lookup_insert_eq; naive_solver|].
  rewrite lookup_insert_ne // HR. naive_solver.
Qed.
Lemma mine_drop k s r R : mine k s R -> mine k (upd_res (delete r) s) (filter (fun x => x <> r) R).
Proof.
  intros HR r'. cbn [k_res upd_res]. rewrite list_elem_of_filter. destruct (decide (r' = r)) as [->|Hn]; [rewrite lookup_delete_eq; naive_solver|].
  rewrite lookup_delete_ne // HR. naive_solver.
Qed.
Lemma errno_or_neq e : 0 <= e -> - errno_or ENOMEM e <> 0.
Proof. rewrite /errno_or /ENOMEM. destruct (Z.eqb_spec e 0); lia. Qed.
Definition keeps_flags (f : _zu_thread -> _zu_thread) : Prop := forall t, zt_thread (f t) = zt_thread t /\ zt_stop (f t) = zt_stop t.
Lemma wp_set k f s t Q : ent s k = Some t -> keeps_flags f ->
  (forall s', local k s s' -> ent s' k = Some (f t) -> k_res s' = k_res s -> k_chan s' = k_chan s -> h_op s' = h_op s -> Q tt s') ->
  wp (set_zt k f) s Q.
Proof.
  intros E Hf HQ. apply (wp_set_zt _ _ _ _ _ E), HQ; try done; [by apply local_set|]. by rewrite ent_alter decide_True // E.
Qed.
Lemma wp_take_res k r s t R Q : ent s k = Some t -> k_res s !! r = None -> mine k s R ->
  (forall s', local k s s' -> ent s' k = Some t -> mine k s' (r :: R) -> k_chan s' = k_chan s -> h_op s' = h_op s ->
    (forall x, x <> r -> k_res s' !! x = k_res s !! x) -> Q tt s') ->
  wp (take_res k r) s Q.
Proof.
  intros E Hr HR HQ. apply wp_modify, HQ; try done; [by apply local_take|by apply mine_take|]. intros x Hx. cbn [k_res upd_res]. by rewrite lookup_insert_ne.
Qed.
Lemma mine_res k s s' R : k_res s' = k_res s -> mine k s R -> mine k s' R.
Proof. intros E HR r. by rewrite E. Qed.
Lemma mine_equiv k s R R' : (forall r, r ∈ R <-> r ∈ R') -> mine k s R -> mine k s R'.
Proof. intros E HR r. by rewrite HR. Qed.
Lemma mine_not_other k s R r k' : mine k s R -> r ∈ R -> k' <> k -> k_res s !! r <> Some (Some k').
Proof. intros HR Hr Hk E. apply HR in Hr. rewrite Hr in E. congruence. Qed.

Lemma wp_root_open k a s t Q : ent s k = Some t -> mine k s [] ->
  match a with inl e => 0 < e | inr fd => 0 <= fd /\ k_res s !! inl fd = None end ->
  (forall e s' t', local k s s' -> ent s' k = Some t' -> k_chan s' = k_chan s -> h_op s' = h_op s ->
    match a with
    | inl errno => e = - errno /\ e <> 0 /\ mine k s' []
    | inr fd => e = 0 /\ zt_fd t' = fd /\ mine k s' [inl fd] /\ forall x, x <> inl fd -> k_res s' !! x = k_res s !! x
    end -> Q e s') ->
  wp (zuf_root_open_tmp k a) s Q.
Proof.
  intros E HR Ha HQ. destruct a as [errno|fd]; cbn [zuf_root_open_tmp].
  - apply wp_bind, (wp_set _ _ _ _ _ E); [done|]. intros s' L E' Er Ec Eh. apply wp_ret, (HQ _ _ _ L E' Ec Eh). split_and!; [done|lia|by apply (mine_res _ s)].
  - destruct Ha as [Hfd Hfr]. apply wp_bind, (wp_take_res _ _ _ _ _ _ E Hfr HR). intros s1 L1 E1 M1 C1 H1 O1.
    apply wp_bind, (wp_set _ _ _ _ _ E1); [done|]. intros s2 L2 E2 Er Ec Eh. apply wp_ret, (HQ _ _ _ (local_trans _ _ _ _ L1 L2) E2).
    + by rewrite Ec C1.
    + by rewrite Eh H1.
    + split_and!; [done|done|by apply (mine_res _ s1)|]. intros x Hx. by rewrite Er O1.
Qed.
Lemma wp_zt_init k err s t R Q : ent s k = Some t -> mine k s R -> inl (zt_fd t) ∈ R ->
  (forall s', local k s s' -> ent s' k = Some t -> k_res s' = k_res s -> h_op s' = h_op s -> (err = 0 -> k_chan s' !! zt_fd t = Some k.1) -> Q err s') ->
  wp (zuf_zt_init k err) s Q.
Proof.
  intros E HR Hin HQ. apply wp_bind, (wp_get_zt _ _ _ _ E). destruct (Z.eqb_spec err 0) as [->|Hn].
  - apply wp_bind, wp_modify, wp_ret, HQ; try done.
    + apply local_chan with (fd := zt_fd t); [intros k' Hk; by apply (mine_not_other _ _ _ _ _ HR Hin)|]. intros m fd' Hfd. by rewrite lookup_insert_ne.
    + intros _. cbn [k_chan upd_chan]. by rewrite lookup_insert_eq.
  - apply wp_ret, HQ; try done. apply local_refl.
Qed.
Lemma wp_zu_mmap k a s t R Q : ent s k = Some t -> mine k s R ->
  match a with inl e => 0 <= e | inr p => k_res s !! inr (p, ZUS_API_MAP_MAX_SIZE) = None end ->
  (forall e s' t', local k s s' -> ent s' k = Some t' -> zt_fd t' = zt_fd t -> k_chan s' = k_chan s -> h_op s' = h_op s ->
    match a with
    | inl errno => e = - errno_or ENOMEM errno /\ e <> 0 /\ mine k s' R
    | inr p => e = 0 /\ zt_api_mem t' = p /\ mine k s' (inr (p, ZUS_API_MAP_MAX_SIZE) :: R) /\ forall x, x <> inr (p, ZUS_API_MAP_MAX_SIZE) -> k_res s' !! x = k_res s !! x
    end -> Q e s') ->
  wp (_zu_mmap k a) s Q.
Proof.
  intros E HR Ha HQ. destruct a as [errno|p]; cbn [_zu_mmap].
  - apply wp_bind, (wp_set _ _ _ _ _ E); [done|]. intros s' L E' Er Ec Eh. apply wp_ret, (HQ _ _ _ L E' eq_refl Ec Eh).
    split_and!; [done|by apply errno_or_neq|by apply (mine_res _ s)].
  - apply wp_bind, (wp_take_res _ _ _ _ _ _ E Ha HR). intros s1 L1 E1 M1 C1 H1 O1.
    apply wp_bind, (wp_set _ _ _ _ _ E1); [done|]. intros s2 L2 E2 Er Ec Eh. apply wp_ret, (HQ _ _ _ (local_trans _ _ _ _ L1 L2) E2 eq_refl).
    + by rewrite Ec C1.
    + by rewrite Eh H1.
    + split_and!; [done|done|by apply (mine_res _ s1)|]. intros x Hx. by rewrite Er O1.
Qed.
Lemma wp_buff_mmap k a s t R Q : ent s k = Some t -> mine k s R ->
  match a with inl e => 0 <= e | inr p => k_res s !! inr (p, ZUS_MAX_OP_SIZE) = None end ->
  (forall r s', local k s s' -> ent s' k = Some t -> k_chan s' = k_chan s ->
    match a with
    | inl errno => r.1 = - errno_or ENOMEM errno /\ r.1 <> 0 /\ mine k s' R
    | inr p => r = (0, p) /\ h_op s' !! p = Some (ZufsIocHdr 0 0 0 0) /\ mine k s' (inr (p, ZUS_MAX_OP_SIZE) :: R)
    end -> Q r s') ->
  wp (_zu_ioc_buff_mmap k a) s Q.
Proof.
  intros E HR Ha HQ. destruct a as [errno|p]; cbn [_zu_ioc_buff_mmap].
  - apply wp_ret, HQ; [apply local_refl|done|done|]. split_and!; [done|by apply errno_or_neq|done].
  - apply wp_bind, (wp_take_res _ _ _ _ _ _ E Ha HR). intros s1 L1 E1 M1 C1 H1 O1. apply wp_bind, wp_modify, wp_ret, HQ.
    + apply (local_trans _ _ _ _ L1). apply local_h_op with (op := p); [|intros m op' Hop; by rewrite lookup_insert_ne].
      intros k' Hk. apply (mine_not_other _ _ _ _ _ M1); [left|done].
    + done.
    + done.
    + split_and!; [done|cbn [h_op upd_h_op]; by rewrite lookup_insert_eq|done].
Qed.
Lemma wp_err k e s t Q : ent s k = Some t ->
  (forall s', local k s s' -> ent s' k = Some (set_zt_err e t) -> k_res s' = k_res s -> k_chan s' = k_chan s -> h_op s' = h_op s -> Q e s') ->
  wp (set_zt k (set_zt_err e);; mret e) s Q.
Proof. intros E HQ. apply wp_bind, (wp_set _ _ _ _ _ E); [done|]. intros. by apply wp_ret, HQ. Qed.

(** The setup: what is taken is what it has taken until the first failure. *)
Definition setup_post k a s (o : option Z) s' : Prop :=
  local k s s' /\ mine k s' (taken a) /\ (exists t, ent s' k = Some t /\ zt_err t = setup_err a) /\
  match o with None => setup_err a <> 0 | Some op => setup_err a = 0 /\ serving k op s' /\ h_op s' !! op = Some (ZufsIocHdr 0 0 0 0) /\ inr <$> (zt_api_mem <$> ent s' k) = Some (a_api a) end.
Lemma wp_zt_setup k a s t : ent s k = Some t -> mine k s [] -> answers_ok s a -> wp (zt_setup k a) s (setup_post k a s).
Proof.
  intros E HR (Ho & Hp & Hb). rewrite /zt_setup /keep_err. apply wp_bind, wp_bind, (wp_root_open _ _ _ _ _ E HR Ho). intros e s1 t1 L1 E1 C1 O1 P1.
  apply (wp_err _ _ _ _ _ E1). intros s2 L2 E2 Er2 Ec2 Eo2. pose proof (local_trans _ _ _ _ L1 L2) as L02.
  destruct (a_open a) as [errno|fd] eqn:Ea.
  { destruct P1 as (-> & Hne & M1). rewrite (proj2 (Z.eqb_neq _ _) Hne). apply wp_ret. rewrite /setup_post /taken /setup_err Ea.
    split_and!; [done|by apply (mine_res _ s1)|by eexists|done]. }
  destruct P1 as (-> & Hfd & M1 & O1'). cbn [Z.eqb negb]. pose proof (mine_res _ _ _ _ Er2 M1) as M2.
  set (t2 := set_zt_err 0 t1) in *. assert (Hfd2 : zt_fd t2 = fd) by done.
  apply wp_bind, wp_bind, (wp_zt_init _ _ _ _ _ _ E2 M2); [rewrite Hfd2; left|]. intros s3 L3 E3 Er3 Eo3 C3.
  apply (wp_err _ _ _ _ _ E3). intros s4 L4 E4 Er4 Ec4 Eo4. pose proof (local_trans _ _ _ _ L02 (local_trans _ _ _ _ L3 L4)) as L04.
  assert (M4 : mine k s4 [inl fd]) by (apply (mine_res _ s3); [done|]; by apply (mine_res _ s2)).
  destruct (Z.eqb_spec (a_zt_init a) 0) as [Ei|Ei]; cbn [negb].
  2:{ apply wp_ret. rewrite /setup_post /taken /setup_err Ea (proj2 (Z.eqb_neq _ _) Ei). cbn [negb]. split_and!; [done|done|by eexists|done]. }
  assert (K4 : forall x, x <> inl fd -> k_res s4 !! x = k_res s !! x) by (intros x Hx; by rewrite Er4 Er3 Er2 O1').
  apply wp_bind, wp_bind, (wp_zu_mmap _ _ _ _ _ _ E4 M4).
  { destruct (a_api a); [done|]. by rewrite K4. }
  intros e5 s5 t5 L5 E5 F5 C5 O5 P5. apply (wp_err _ _ _ _ _ E5). intros s6 L6 E6 Er6 Ec6 Eo6.
  pose proof (local_trans _ _ _ _ L04 (local_trans _ _ _ _ L5 L6)) as L06. destruct (a_api a) as [errno|p] eqn:Ep.
  { destruct P5 as (-> & Hne & M5). rewrite (proj2 (Z.eqb_neq _ _) Hne). apply wp_ret. rewrite /setup_post /taken /setup_err Ea Ei Ep. cbn [Z.eqb negb].
    split_and!; [done|by apply (mine_res _ s5)|by eexists|done]. }
  destruct P5 as (-> & Hp5 & M5 & O5'). cbn [Z.eqb negb]. pose proof (mine_res _ _ _ _ Er6 M5) as M6.
  apply wp_bind, (wp_buff_mmap _ _ _ _ _ _ E6 M6).
  { destruct (a_buff a) as [|q] eqn:Eb; [done|]. destruct Hb as [Hq Hpq]. rewrite Er6 O5'; [congruence|]. by rewrite K4. }
  intros r s7 L7 E7 C7 P7. apply wp_bind, (wp_set _ _ _ _ _ E7); [done|]. intros s8 L8 E8 Er8 Ec8 Eo8.
  pose proof (local_trans _ _ _ _ L06 (local_trans _ _ _ _ L7 L8)) as L08. destruct (a_buff a) as [errno|q] eqn:Eb.
  { destruct P7 as (Hr & Hne & M7). rewrite (proj2 (Z.eqb_neq _ _) Hne). apply wp_ret. rewrite /setup_post /taken /setup_err Ea Ei Ep Eb -Hr. cbn [Z.eqb negb].
    split_and!; [done| |by eexists|done]. apply (mine_res _ s7); [done|]. revert M7. apply mine_equiv. set_solver. }
  destruct P7 as (-> & Hop & M7). cbn [fst snd Z.eqb negb]. apply wp_bind, (wp_set _ _ _ _ _ E8); [done|]. intros s9 L9 E9 Er9 Ec9 Eo9. apply wp_ret.
  assert (M9 : mine k s9 [inl fd; inr (p, ZUS_API_MAP_MAX_SIZE); inr (q, ZUS_MAX_OP_SIZE)]).
  { apply (mine_res _ s7); [by rewrite Er9 Er8|]. revert M7. apply mine_equiv. set_solver. }
  rewrite /setup_post /taken /setup_err Ea Ei Ep Eb. cbn [Z.eqb negb]. split_and!; [by apply (local_trans _ _ _ _ L08)|done|by eexists|done| |by rewrite Eo9 Eo8|by rewrite E9 /= Hp5].
  exists (set_op_hdr q (set_zt_err 0 (set_zt_err 0 t5))). cbn [zt_fd zt_api_mem zt_op_hdr set_op_hdr set_zt_err]. rewrite F5 Hp5. change (zt_fd (set_zt_err (a_zt_init a) t2)) with (zt_fd t1). rewrite Hfd.
  split_and!; try done; [apply Ho| |rewrite Eo9 Eo8 Hop; by eexists]. rewrite Ec9 Ec8 C7 Ec6 C5 Ec4 -{1}Hfd2. by apply C3.
Qed.

(** ** Serving *)
Lemma serving_mono k op s s' : serving k op s -> local k s s' -> ent s' k = ent s k -> k_res s' = k_res s -> k_chan s' = k_chan s -> is_Some (h_op s' !! op) ->
  serving k op s'.
Proof. intros (t & E & Hfd & Hc & _ & Ho & HR) L E' Er Ec Hop. exists t. rewrite E' Ec. split_and!; try done. by apply (mine_res _ s). Qed.
Lemma wp_wait_full k op a s o : serving k op s -> h_op s !! op = Some o ->
  wp (zuf_wait_opt k op a) s (fun _ s' => local k s s' /\ serving k op s' /\ h_op s' !! op = Some (default o (w_op a)) /\ zt_api_mem <$> ent s' k = zt_api_mem <$> ent s k).
Proof.
  intros (t & E & Hfd & Hc & Hh & Ho & HR) Eo. apply wp_bind, wp_modify. cbn beta.
  set (s1 := upd_h_op _ s). assert (L1 : local k s s1).
  { apply local_h_op with (op := op).
    - intros k' Hk. apply (mine_not_other _ _ _ _ _ HR); [set_solver|done].
    - intros m op' Hop. destruct (w_op a); [|done]. by rewrite lookup_insert_ne. }
  assert (E1 : ent s1 k = Some t) by done. apply (wp_set _ _ _ _ _ E1); [done|]. intros s2 L2 E2 Er Ec Eh.
  assert (Eo2 : h_op s2 !! op = Some (default o (w_op a))) by (rewrite Eh /s1; cbn [h_op upd_h_op]; destruct (w_op a); by rewrite ?lookup_insert_eq).
  split_and!; [by apply (local_trans _ _ _ _ L1)| |done|by rewrite E2 E].
  exists (set_zt_err (w_err a) t). split_and!; [done|done|by rewrite Ec|by eexists|done|by apply (mine_res _ s)].
Qed.
Lemma wp_zuf_wait_opt k op a s : serving k op s -> wp (zuf_wait_opt k op a) s (fun _ s' => local k s s' /\ serving k op s').
Proof. intros Hs. pose proof Hs as (t & _ & _ & _ & [o Ho] & _). eapply wp_mono; [by apply (wp_wait_full k op a s o)|]. cbn beta. tauto. Qed.
Lemma wp_zt_exit k op s : serving k op s -> wp (zt_exit k op) s (fun _ s' => local k s s' /\ mine k s' [] /\ zt_fd <$> ent s' k = Some (-1)).
Proof.
  intros (t & E & Hfd & Hc & Hh & Ho & HR). rewrite /zt_exit /_zu_ioc_buff_unmap. apply wp_bind, wp_bind, wp_modify. cbn beta. apply wp_modify. cbn beta.
  set (s1 := upd_res _ s). set (s2 := upd_h_op _ s1).
  assert (L1 : local k s s1) by (apply local_drop, HR; set_solver). pose proof (mine_drop k s (inr (op, ZUS_MAX_OP_SIZE)) _ HR) as M1. fold s1 in M1.
  assert (L2 : local k s1 s2).
  { apply local_h_op with (op := op); [|intros m op' Hop; by rewrite lookup_delete_ne]. intros k' Hk. cbn [k_res upd_res s1]. by rewrite lookup_delete_eq. }
  assert (E2 : ent s2 k = Some t) by done. rewrite /_zu_unmap. apply wp_bind, wp_bind, (wp_get_zt _ _ _ _ E2), wp_bind, wp_modify. cbn beta. set (s3 := upd_res _ s2).
  pose proof (mine_drop k s2 (inr (zt_api_mem t, ZUS_API_MAP_MAX_SIZE)) _ M1) as M3. fold s3 in M3.
  assert (L3 : local k s s3).
  { apply (local_trans _ _ _ _ L1), (local_trans _ _ _ _ L2). destruct (k_res s2 !! inr (zt_api_mem t, ZUS_API_MAP_MAX_SIZE)) as [o|] eqn:Er.
    - apply local_drop. cbn [k_res upd_res upd_h_op s1 s2] in Er |- *. apply lookup_delete_Some in Er as [Hn _]. rewrite lookup_delete_ne //. apply HR. set_solver.
    - rewrite /s3 /upd_res delete_id //. destruct s2. apply local_refl. }
  assert (E3 : ent s3 k = Some t) by done. apply (wp_set _ _ _ _ _ E3); [done|]. intros s4 L4 E4 Er4 Ec4 Eh4.
  rewrite /zuf_root_close. apply wp_bind, (wp_get_zt _ _ _ _ E4). cbn [zt_fd set_api_mem]. rewrite (proj2 (Z.leb_le _ _) Hfd).
  apply wp_bind, wp_modify. cbn beta. apply wp_bind, wp_modify. cbn beta. set (s5 := upd_res _ s4). set (s6 := upd_chan _ s5).
  assert (Hin : k_res s4 !! inl (zt_fd t) = Some (Some k)).
  { rewrite Er4. apply M3. rewrite !list_elem_of_filter. set_solver. }
  assert (L6 : local k s s6).
  { apply (local_trans _ _ _ _ L3), (local_trans _ _ _ _ L4), (local_trans _ _ _ _ (local_drop _ _ _ Hin)). apply local_chan with (fd := zt_fd t).
    - intros k' Hk. cbn [k_res upd_res]. by rewrite lookup_delete_eq.
    - intros m fd' Hn. by rewrite lookup_delete_ne. }
  assert (E6 : ent s6 k = Some (set_api_mem 0 t)) by done. apply (wp_set _ _ _ _ _ E6); [done|]. intros s7 L7 E7 Er7 _ _.
  split_and!; [by apply (local_trans _ _ _ _ L6)| |by rewrite E7]. apply (mine_res _ _ _ _ Er7).
  eapply mine_equiv; [|apply (mine_drop k s4), (mine_res _ s3), M3; done]. intros r. rewrite !list_elem_of_filter. set_solver.
Qed.

Section serve.
(** A command always has an answer, and keeps the file system well formed. *)
Context (do_command : Z -> zufs_ioc_hdr -> ST F Z) (fs_ok : F -> Prop).
Hypothesis serves : forall p o f, fs_ok f -> wp (do_command p o) f (fun _ f' => fs_ok f').

(** The header with the answer. *)
Definition replied (o : zufs_ioc_hdr) (e : Z) : zufs_ioc_hdr := ZufsIocHdr e (hdr_flags o) (hdr_operation o) (hdr_offset o).
Lemma wp_serve_full k op s o t : serving k op s -> fs_ok (zt_fs s) -> h_op s !! op = Some o -> ent s k = Some t ->
  wp (zt_serve do_command k op) s (fun e s' => local k s s' /\ serving k op s' /\ fs_ok (zt_fs s') /\ ent s' k = ent s k /\
    exists err, do_command (zt_api_mem t + hdr_offset o) o (zt_fs s) = Some (err, zt_fs s') /\ e = _errno_UtoK err /\ h_op s' !! op = Some (replied o e)).
Proof.
  intros Hsv Hfs Hop E. pose proof Hsv as (t' & E' & Hfd & Hc & _ & Ho & HR). rewrite E in E'. injection E' as <-.
  destruct (wp_exists _ _ _ (serves (zt_api_mem t + hdr_offset o) o (zt_fs s) Hfs)) as (err & f & Erun & Hf).
  rewrite /zt_serve /_do_op. apply wp_bind, wp_bind, (wp_get_zt _ _ _ _ E), wp_bind, (wp_load _ _ _ _ _ Hop), wp_zoom. rewrite /wp Erun.
  set (s1 := ZtpState _ _ _ _ _ f). assert (L1 : local k s s1) by (split; try done; intros t' E'; by exists t').
  change (wp (o ← load h_op op; modify (upd_h_op (<[op:=replied o (_errno_UtoK err)]>));; mret (_errno_UtoK err)) s1
    (fun e s' => local k s s' /\ serving k op s' /\ fs_ok (zt_fs s') /\ ent s' k = ent s k /\
      exists err', Some (err, f) = Some (err', zt_fs s') /\ e = _errno_UtoK err' /\ h_op s' !! op = Some (replied o e))).
  assert (Hop1 : h_op s1 !! op = Some o) by done. apply wp_bind, (wp_load _ _ _ _ _ Hop1), wp_bind, wp_modify, wp_ret. set (s2 := upd_h_op _ s1).
  assert (L2 : local k s s2).
  { apply (local_trans _ _ _ _ L1), local_h_op with (op := op); [|intros m op' Hn; by rewrite lookup_insert_ne]. intros k' Hk. apply (mine_not_other _ _ _ _ _ HR); [set_solver|done]. }
  assert (Eo2 : h_op s2 !! op = Some (replied o (_errno_UtoK err))) by (cbn [h_op upd_h_op s2]; by rewrite lookup_insert_eq).
  split_and!; [done| |done|done|by exists err]. apply (serving_mono _ _ _ _ Hsv L2); done.
Qed.
Lemma wp_zt_serve k op s : serving k op s -> fs_ok (zt_fs s) ->
  wp (zt_serve do_command k op) s (fun e s' => local k s s' /\ serving k op s' /\ fs_ok (zt_fs s') /\ ent s' k = ent s k).
Proof.
  intros Hs Hf. pose proof Hs as (t & E & _ & _ & [o Ho] & _). eapply wp_mono; [by apply (wp_serve_full k op s o t)|]. cbn beta. tauto.
Qed.

(** What the commands of a run do to the file system, and their answers: [api] is where
    the shared area is mapped, [o] what the buffer of operations holds. *)
Fixpoint commands (api : Z) (o : zufs_ioc_hdr) (l : list wait_answer) : ST F (list Z) :=
  match l with
  | [] => mret []
  | a :: l' =>
    let o := default o (w_op a) in
    err ← do_command (api + hdr_offset o) o;
    r ← commands api (replied o (_errno_UtoK err)) l';
    mret (_errno_UtoK err :: r)
  end.
Lemma commands_cons api o a l f err f' r f'' : do_command (api + hdr_offset (default o (w_op a))) (default o (w_op a)) f = Some (err, f') ->
  commands api (replied (default o (w_op a)) (_errno_UtoK err)) l f' = Some (r, f'') -> commands api o (a :: l) f = Some (_errno_UtoK err :: r, f'').
Proof. intros E1 E2. cbn [commands]. rewrite (bind_run _ _ _ _ _ E1). by rewrite (bind_run _ _ _ _ _ E2). Qed.
Lemma wp_loop_round k op a s o t : serving k op s -> fs_ok (zt_fs s) -> h_op s !! op = Some o -> ent s k = Some t ->
  wp (zuf_wait_opt k op a;; zt_serve do_command k op) s (fun e s' => local k s s' /\ serving k op s' /\ fs_ok (zt_fs s') /\
    (exists t', ent s' k = Some t' /\ zt_api_mem t' = zt_api_mem t /\ zt_stop t' = zt_stop t) /\
    exists err, do_command (zt_api_mem t + hdr_offset (default o (w_op a))) (default o (w_op a)) (zt_fs s) = Some (err, zt_fs s') /\
      e = _errno_UtoK err /\ h_op s' !! op = Some (replied (default o (w_op a)) e)).
Proof.
  intros Hsv Hfs Ho E. apply wp_bind. eapply wp_mono; [eapply (wp_keeps (fun x => zt_fs x = zt_fs s)); [apply keeps_wait|done|by apply (wp_wait_full k op a s o)]|].
  cbn beta. intros _ s1 [(L1 & S1 & O1 & A1) Ef]. pose proof S1 as (t1 & E1 & _). rewrite E1 E in A1. injection A1 as A1.
  eapply wp_mono; [apply (wp_serve_full k op s1 (default o (w_op a)) t1 S1); [by rewrite Ef|done..]|]. cbn beta. intros e s2 (L2 & S2 & F2 & E2 & Hr).
  pose proof (local_trans _ _ _ _ L1 L2) as L. rewrite A1 Ef in Hr. split_and!; try done.
  destruct (lc_self _ _ _ L _ E) as (t2 & E2' & _ & Hs2). exists t2. split_and!; try done. rewrite E2 E1 in E2'. by injection E2' as <-.
Qed.
(** The answers of a thread that is told to stop with the last one. *)
Definition until_stop (l : list wait_answer) (a : wait_answer) : list (wait_answer * bool) := ((fun w => (w, false)) <$> l) ++ [(a, true)].
Lemma wp_zt_loop k op l a s t o : ent s k = Some t -> zt_stop t = false -> serving k op s -> fs_ok (zt_fs s) -> h_op s !! op = Some o ->
  wp (zt_loop do_command k op (until_stop l a)) s (fun r s' => serving k op s' /\ others k s s' /\ commands (zt_api_mem t) o (l ++ [a]) (zt_fs s) = Some (r, zt_fs s')).
Proof.
  revert s t o. induction l as [|b l IH]; intros s t o E Hst Hsv Hfs Ho; cbn [until_stop fmap list_fmap app zt_loop]; apply wp_bind, (wp_get_zt _ _ _ _ E); rewrite Hst;
    apply wp_assoc; apply wp_bind; (eapply wp_mono; [by apply (wp_loop_round k op _ s o t)|]); cbn beta; intros e s1 (L1 & S1 & F1 & (t1 & E1 & A1 & Hs1) & err & Hrun & -> & O1).
  - apply wp_bind, (wp_set_zt _ _ _ _ _ E1). set (s2 := upd_zts _ s1). assert (E2 : ent s2 k = Some (set_stop t1)) by (by rewrite ent_alter decide_True // E1).
    apply wp_bind, wp_bind, (wp_get_zt _ _ _ _ E2). cbn [zt_stop set_stop]. apply wp_ret, wp_ret. split_and!.
    + destruct S1 as (t1' & E1' & S1). rewrite E1 in E1'. injection E1' as <-. exists (set_stop t1). split; [exact E2|exact S1].
    + exact (lc_res _ _ _ L1).
    + by apply (commands_cons _ _ _ _ _ _ (zt_fs s1) []).
  - apply wp_bind, wp_ret, wp_bind. eapply wp_mono; [apply (IH s1 t1 _ E1 ltac:(by rewrite Hs1) S1 F1 O1)|]. cbn beta. intros r s2 (S2 & O2 & Hc). apply wp_ret.
    rewrite A1 in Hc. split_and!; [done|apply (others_trans _ _ s1); [exact (lc_res _ _ _ L1)|done]|by apply (commands_cons _ _ _ _ _ _ (zt_fs s1))].
Qed.

(** C17: the handler thread.  When the kernel answers its setup, it serves every operation
    until it is told to stop - the answers it sends and what becomes of the file system are
    those of the commands, one after the other - and then has given back its descriptor and
    both of its mappings.  When an answer is an error, it keeps exactly what it had taken
    before that, and its [zbt.err] is the error.  Either way nothing of what others have
    taken changes. *)
Theorem zu_thread_spec (k : zkey) (a : zt_answers) (l : list wait_answer) (last : wait_answer) (s : ztp_state F) (t : _zu_thread) :
  ent s k = Some t -> zt_stop t = false -> mine k s [] -> answers_ok s a -> fs_ok (zt_fs s) ->
  wp (zu_thread do_command k a (until_stop l last)) s (fun r s' => others k s s' /\
    match r with
    | Some errs => setup_err a = 0 /\ mine k s' [] /\
      exists p, a_api a = inr p /\ commands p (ZufsIocHdr 0 0 0 0) (l ++ [last]) (zt_fs s) = Some (errs, zt_fs s')
    | None => setup_err a <> 0 /\ mine k s' (taken a) /\ zt_err <$> ent s' k = Some (setup_err a)
    end).
Proof.
  intros E Hst HR Ha Hfs. apply wp_bind. eapply wp_mono; [eapply (wp_keeps (fun x => zt_fs x = zt_fs s)); [apply keeps_setup|done|by apply (wp_zt_setup _ _ _ _ E)]|].
  cbn beta. intros o s1 [(L1 & M1 & (t1 & E1 & He1) & Ho) Ef]. destruct o as [op|].
  2:{ apply wp_ret. split_and!; [exact (lc_res _ _ _ L1)|done|done|by rewrite E1 -He1]. }
  destruct Ho as (Hz & Hsv & Hop & Hapi). rewrite E1 in Hapi. injection Hapi as Hapi. destruct (lc_self _ _ _ L1 _ E) as (t1' & E1' & _ & Hs1). rewrite E1 in E1'. injection E1' as <-.
  apply wp_bind. eapply wp_mono; [apply (wp_zt_loop k op l last s1 t1 (ZufsIocHdr 0 0 0 0) E1); [by rewrite Hs1|done|by rewrite Ef|exact Hop]|]. cbn beta. intros r s2 (S2 & O2 & Hc).
  apply wp_bind. eapply wp_mono; [eapply (wp_keeps (fun x => zt_fs x = zt_fs s2)); [apply keeps_exit|done|by apply wp_zt_exit]|]. cbn beta. intros _ s3 [(L3 & M3 & _) Ef3]. apply wp_ret.
  split_and!; try done; [apply (others_trans _ _ s1); [exact (lc_res _ _ _ L1)|]; apply (others_trans _ _ s2); [done|exact (lc_res _ _ _ L3)]|].
  exists (zt_api_mem t1). split; [done|]. by rewrite Ef3 -Ef.
Qed.
End serve.
End spec.

Section example.
#[local] Instance zt_api_one : ZtApi := {| ZUS_API_MAP_MAX_SIZE := 2 ^ 20; ZUFS_H_INTR := 1; MAP_FAILED := -1 |}.
Definition echo_cmd (p : Z) (o : zufs_ioc_hdr) : ST (list Z) Z := fun l => Some (- hdr_operation o, l ++ [p]).
Definition one_thread : ztp_state (list Z) := ZtpState {[inl 3 := None]} ∅ [] ∅ {[0%nat := [ZuThread 0 0 false 0 77 0]]} [].
Definition answers_ex : zt_answers := ZtAnswers (inr 5) 0 (inr 1000) (inr 2000).
Lemma zu_thread_spec_witness :
  exists s', zu_thread echo_cmd (0%nat, 0%nat) answers_ex (until_stop [WaitAnswer 0 (Some (ZufsIocHdr 0 0 7 64))] (WaitAnswer (-4) None)) one_thread = Some (Some [-7; -7], s') /\
    mine (0%nat, 0%nat) s' [] /\ zt_fs s' = [1064; 1064].
Proof.
  assert (Hm : mine (0%nat, 0%nat) one_thread []) by (intros r; cbn [k_res one_thread]; rewrite lookup_singleton_Some; set_solver).
  assert (Ha : answers_ok one_thread answers_ex) by by split_and!.
  destruct (wp_exists _ _ _ (zu_thread_spec echo_cmd (fun _ => True) (fun _ _ _ _ => I) (0%nat, 0%nat) answers_ex [WaitAnswer 0 (Some (ZufsIocHdr 0 0 7 64))] (WaitAnswer (-4) None)
    one_thread (ZuThread 0 0 false 0 77 0) eq_refl eq_refl Hm Ha I)) as (r & s' & Hrun & Hpost).
  destruct r as [errs|]; [|destruct Hpost as (_ & Hn & _); by destruct Hn]. destruct Hpost as (_ & _ & Hm' & p & [= <-] & Hc).
  assert (Hc' : Some ([-7; -7], [1064; 1064]) = Some (errs, zt_fs s')) by exact Hc. injection Hc' as <- Hf. exists s'. by split_and!.
Defined.
End example.
