(* ===== verification/ZtStop.v ===== *)
(** * Stopping the handler threads

    The interleavings of [zus_stop_all_threads] with the threads it stops: an invariant of
    every step, and that fair runs end. *)

From stdpp Require Import relations.
From S2P Require Import Prelude Core Zt ZtSpec.

Section stop.
Context {F : Type} `{ZtApi}.
Context (do_command : Z -> zufs_ioc_hdr -> ST F Z) (fs_ok : F -> Prop).
Context (num_zts max_channels : nat) (wakes : list (option nat) -> zkey -> bool).
Notation step := (stop_step do_command num_zts max_channels wakes).
Implicit Types s : ztp_state F.
Implicit Types x : run_state F.

(** ** The invariant *)
Definition has_thread s (k : zkey) : Prop := exists t, ent s k = Some t /\ zt_thread t <> 0.
Definition pc_inv s (k : zkey) (pc : zt_pc) : Prop :=
  match pc with
  | PInit => has_thread s k /\ mine k s []
  | PLoop op | PWait op | PServe op => has_thread s k /\ serving k op s
  | PGone true => mine k s []
  | PGone false => True
  end.
Definition gone (p : gmap zkey zt_pc) (k : zkey) : Prop := match p !! k with None | Some (PGone _) => True | _ => False end.
#[global] Instance gone_dec p k : Decision (gone p k).
Proof. rewrite /gone. destruct (p !! k) as [[]|]; apply _. Defined.
Definition flagged s (c n : nat) : Prop := forall i t, (i < n)%nat -> ent s (c, i) = Some t -> zt_stop t = true.
(** What each position of the stop knows. *)
Definition phase_inv s (p : gmap zkey zt_pc) (m : stop_pc) : Prop :=
  match m with
  | SChan c => (c <= max_channels)%nat /\ forall k, (k.1 < c)%nat -> gone p k
  | SFlag c i => (forall k, (k.1 < c)%nat -> gone p k) /\ is_Some (zts s !! c) /\ (i <= num_zts)%nat /\ flagged s c i
  | SBreak c => (forall k, (k.1 < c)%nat -> gone p k) /\ is_Some (zts s !! c) /\ flagged s c num_zts
  | SJoin c i => (forall k, (k.1 < c)%nat -> gone p k) /\ is_Some (zts s !! c) /\ (i <= num_zts)%nat /\ flagged s c num_zts /\
      Some c ∈ k_log s /\ forall j, (j < i)%nat -> gone p (c, j)
  | SFree c => is_Some (zts s !! c) /\ forall k, (k.1 <= c)%nat -> gone p k
  | SDone => zts s = ∅ /\ forall k, gone p k
  end.
Definition is_set_up (pc : zt_pc) : Prop := match pc with PLoop _ | PWait _ | PServe _ => True | _ => False end.
(** [x0] is where the run began. *)
Record stop_inv (x0 x : run_state F) : Prop := StopInv {
  si_tables c l : zts (sh x) !! c = Some l -> length l = num_zts /\ (c < max_channels)%nat;
  si_threads k pc : pcs x !! k = Some pc -> pc_inv (sh x) k pc;
  si_created k t : ent (sh x) k = Some t -> zt_thread t <> 0 -> is_Some (pcs x !! k);
  si_owners r k : k_res (sh x) !! r = Some (Some k) -> is_Some (pcs x !! k);
  si_others r : k_res (sh x) !! r = Some None <-> k_res (sh x0) !! r = Some None;
  si_served k pc0 : pcs x0 !! k = Some pc0 -> is_set_up pc0 -> exists pc, pcs x !! k = Some pc /\ pc <> PInit /\ pc <> PGone false;
  si_fs : fs_ok (zt_fs (sh x));
  si_phase : phase_inv (sh x) (pcs x) (at_pc x) }.
(** Where the stop begins: the threads of the table are anywhere: not created, setting up,
    serving, or returned after a set up that failed. *)
Record stop_start (x : run_state F) : Prop := StopStart {
  st_at : at_pc x = SChan 0;
  st_tables c l : zts (sh x) !! c = Some l -> length l = num_zts /\ (c < max_channels)%nat;
  st_threads k pc : pcs x !! k = Some pc -> pc_inv (sh x) k pc;
  st_created k t : ent (sh x) k = Some t -> zt_thread t <> 0 -> is_Some (pcs x !! k);
  st_owners r k : k_res (sh x) !! r = Some (Some k) -> is_Some (pcs x !! k);
  st_fs : fs_ok (zt_fs (sh x)) }.
Lemma start_inv x : stop_start x -> stop_inv x x.
Proof.
  intros [A B C D E G]. split; try done.
  - intros k pc Hk Hs. exists pc. split; [done|]. by destruct pc.
  - rewrite A. split; [lia|]. intros k Hk. lia.
Qed.
(** The call that breaks a channel is made with the descriptor of its first thread: the
    kernel knows that one for the channel. *)
Definition heard (a : actor) x : Prop :=
  match a, at_pc x with
  | AMain, SBreak c => exists t, ent (sh x) (c, 0%nat) = Some t /\ k_chan (sh x) !! zt_fd t = Some c
  | _, _ => True
  end.
(** It does while that thread is set up and has not returned. *)
Lemma set_up_heard x0 x c pc : stop_inv x0 x -> at_pc x = SBreak c -> pcs x !! (c, 0%nat) = Some pc -> is_set_up pc -> heard AMain x.
Proof.
  intros Hi Ea Hk Hs. rewrite /heard Ea. pose proof (si_threads _ _ Hi _ _ Hk) as Hpc.
  destruct pc as [|op|op|op|ok]; try done; destruct Hpc as (_ & t & E & _ & Hc & _); by exists t.
Qed.

(** ** Steps of a thread *)
Lemma gone_insert p k pc k' : k' <> k -> gone (<[k := pc]> p) k' <-> gone p k'.
Proof. intros Hk. by rewrite /gone lookup_insert_ne. Qed.
Lemma serving_other k k' op s s' : local k s s' -> k' <> k -> serving k' op s -> serving k' op s'.
Proof.
  intros [L1 L2 L3 L4 _ _ _] Hk (t & E & Hfd & Hc & Ho & Hop & HR). exists t. rewrite (L4 k') // (L2 _ k') //; [apply HR; set_solver|].
  rewrite (L3 _ k') //; [apply HR; set_solver|]. split_and!; try done. intros r. rewrite L1; [congruence|]. apply HR.
Qed.
Lemma pc_inv_other k k' pc s s' : local k s s' -> k' <> k -> pc_inv s k' pc -> pc_inv s' k' pc.
Proof.
  intros L Hk. assert (Hth : has_thread s k' -> has_thread s' k') by (intros (t & E & Ht); exists t; by rewrite (lc_ent _ _ _ L)).
  assert (Hm : mine k' s [] -> mine k' s' []) by (intros HR r; rewrite (lc_res _ _ _ L); [congruence|apply HR]).
  destruct pc as [|op|op|op|[]]; cbn [pc_inv]; try tauto; intros [H1 H2]; (split; [by apply Hth|by apply (serving_other k _ _ s)]).
Qed.
Lemma has_thread_local k s s' : local k s s' -> has_thread s k -> has_thread s' k.
Proof. intros L (t & E & Ht). destruct (lc_self _ _ _ L _ E) as (t' & E' & Ht' & _). exists t'. by rewrite Ht'. Qed.
Lemma zts_local k s s' c : local k s s' -> is_Some (zts s' !! c) <-> is_Some (zts s !! c).
Proof. intros L. pose proof (lc_dom _ _ _ L c) as E. destruct (zts s' !! c), (zts s !! c); naive_solver. Qed.
Lemma flagged_local k s s' c n : local k s s' -> flagged s c n -> flagged s' c n.
Proof.
  intros L Hf i t Hi E. destruct (decide ((c, i) = k)) as [<-|Hk]; [|rewrite (lc_ent _ _ _ L) // in E; by apply (Hf i)].
  destruct (ent s (c, i)) as [t0|] eqn:E0.
  - destruct (lc_self _ _ _ L _ E0) as (t' & E' & _ & Hs). rewrite E in E'. injection E' as <-. rewrite Hs. by apply (Hf i).
  - exfalso. revert E E0. rewrite /ent. cbn [fst snd]. pose proof (lc_dom _ _ _ L c) as El. destruct (zts s' !! c) as [l'|], (zts s !! c) as [l|]; try done.
    cbn in El |- *. injection El as El. intros E1%lookup_lt_Some E2%lookup_ge_None. lia.
Qed.
Lemma phase_local k pc s s' p m : local k s s' -> ~ gone p k -> phase_inv s p m -> phase_inv s' (<[k := pc]> p) m.
Proof.
  intros L Hn. assert (Hg : forall k', gone p k' -> gone (<[k := pc]> p) k') by (intros k' Hk'; apply gone_insert; [intros ->; done|done]).
  assert (Hf : forall c n, flagged s c n -> flagged s' c n) by (intros c n; by apply flagged_local with k).
  assert (Hz : zts s = ∅ -> zts s' = ∅).
  { intros Ez. apply map_eq. intros c. pose proof (zts_local _ _ _ c L) as Hc. rewrite Ez lookup_empty in Hc |- *. destruct (zts s' !! c); [|done].
    destruct (proj1 Hc) as [? ?]; [by eexists|done]. }
  destruct m; cbn [phase_inv]; rewrite ?(zts_local _ _ _ _ L) ?(lc_log _ _ _ L); naive_solver.
Qed.
(** A thread's step keeps the invariant, if what the thread becomes fits. *)
Lemma thread_inv x0 s s' p m k pc pc' :
  stop_inv x0 (RunState s p m) -> p !! k = Some pc -> ~ gone p k -> local k s s' -> pc_inv s' k pc' -> fs_ok (zt_fs s') -> (pc <> PInit -> pc' <> PInit /\ pc' <> PGone false) ->
  stop_inv x0 (RunState s' (<[k := pc']> p) m).
Proof.
  intros [A B C E G I J K] Hk Hg L Hpc Hfs Hs. cbn [sh pcs at_pc] in *. split; cbn [sh pcs at_pc].
  - intros c l Hl. pose proof (lc_dom _ _ _ L c) as El. rewrite Hl in El. destruct (zts s !! c) as [l0|] eqn:E0; [|done].
    injection El as El. rewrite El. by apply A.
  - intros k' q. rewrite lookup_insert_Some. intros [[<- <-]|[Hn Hq']]; [done|]. by apply (pc_inv_other k _ _ s), B.
  - intros k' t Et Ht. rewrite lookup_insert_is_Some'. destruct (decide (k' = k)) as [->|Hn]; [by left|]. right. rewrite (lc_ent _ _ _ L) // in Et. by apply (C _ t).
  - intros r k' Hr. rewrite lookup_insert_is_Some'. destruct (decide (k' = k)) as [->|Hn]; [by left|]. right. apply (E r), (lc_res _ _ _ L), Hr. congruence.
  - intros r. rewrite (lc_res _ _ _ L) //.
  - intros k' pc0 Hop Hup. destruct (I _ _ Hop Hup) as (q & Hq' & N1 & N2). destruct (decide (k' = k)) as [->|Hn].
    + exists pc'. rewrite lookup_insert_eq. split; [done|]. apply Hs. congruence.
    + exists q. by rewrite lookup_insert_ne.
  - done.
  - by apply phase_local with s.
Qed.

(** ** Steps of the stopper *)
Lemma main_inv x0 s s' p m m' :
  stop_inv x0 (RunState s p m) -> k_res s' = k_res s -> zt_fs s' = zt_fs s ->
  (forall c l', zts s' !! c = Some l' -> exists l, zts s !! c = Some l /\ length l = length l') ->
  (forall k pc, p !! k = Some pc -> pc_inv s k pc -> pc_inv s' k pc) ->
  (forall k t', ent s' k = Some t' -> zt_thread t' <> 0 -> exists t, ent s k = Some t /\ zt_thread t <> 0) ->
  phase_inv s' p m' -> stop_inv x0 (RunState s' p m').
Proof.
  intros [A B C E G I J K] Er Ef Hz Hpc He Hph. cbn [sh pcs at_pc] in *. split; cbn [sh pcs at_pc]; rewrite ?Er ?Ef; try done.
  - intros c l' (l & Hl & <-)%Hz. by apply A.
  - intros k pc Hk. by apply Hpc, B.
  - intros k t' Et Ht. destruct (He _ _ Et Ht) as (t & Et0 & Ht0). by apply (C _ t).
Qed.
(** The fields that a thread has from its setup stay. *)
Definition keeps_setup_of (f : _zu_thread -> _zu_thread) : Prop := forall t, zt_fd (f t) = zt_fd t /\ zt_api_mem (f t) = zt_api_mem t /\ zt_op_hdr (f t) = zt_op_hdr t.
Lemma serving_set k f k' op s : keeps_setup_of f -> serving k' op s -> serving k' op (upd_zts (alter (alter f k.2) k.1) s).
Proof.
  intros Hf (t & E & Hfd & Hc & Ho & Hop & HR). destruct (Hf t) as (F1 & F2 & F3).
  exists (if decide (k' = k) then f t else t). rewrite ent_alter E. split; [by case_decide|]. case_decide; [rewrite F1 F2 F3|]; by split_and!.
Qed.
Lemma pc_inv_set k f k' pc s : keeps_setup_of f -> (k' = k -> forall t, zt_thread t <> 0 -> zt_thread (f t) <> 0) ->
  pc_inv s k' pc -> pc_inv (upd_zts (alter (alter f k.2) k.1) s) k' pc.
Proof.
  intros Hf Ht. assert (Hth : has_thread s k' -> has_thread (upd_zts (alter (alter f k.2) k.1) s) k').
  { intros (t & E & Hn). exists (if decide (k' = k) then f t else t). rewrite ent_alter E. case_decide; (split; [done|auto]). }
  destruct pc as [|op|op|op|[]]; cbn [pc_inv]; try done; intros [H1 H2]; (split; [by apply Hth|]); try done; by apply serving_set.
Qed.
Lemma set_main x0 s p m m' k f : stop_inv x0 (RunState s p m) -> keeps_setup_of f ->
  (forall t, zt_thread (f t) <> 0 -> zt_thread t <> 0) -> (~ gone p k -> forall t, zt_thread t <> 0 -> zt_thread (f t) <> 0) ->
  phase_inv (upd_zts (alter (alter f k.2) k.1) s) p m' -> stop_inv x0 (RunState (upd_zts (alter (alter f k.2) k.1) s) p m').
Proof.
  intros Hi Hf Hb Ht Hph. apply (main_inv x0 s _ p m); try done.
  - cbn [zts upd_zts]. intros c l'. destruct (decide (c = k.1)) as [->|Hn]; [|rewrite lookup_alter_ne //; intros Hl; by exists l'].
    rewrite lookup_alter_eq. destruct (zts s !! k.1) as [l|]; [|done]. intros [= <-]. exists l. by rewrite length_alter.
  - intros k' pc Hk Hpc. destruct (decide (gone p k')) as [Hg|Hg].
    + rewrite /gone Hk in Hg. destruct pc as [|op|op|op|[]]; done.
    + apply pc_inv_set; [done| |done]. intros ->. by apply Ht.
  - intros k' t'. rewrite ent_alter. destruct (ent s k') as [t|]; [|done]. cbn. case_decide; intros [= <-] Ht'; exists t; split; auto.
Qed.
Lemma set_zt_run k f s u s' : set_zt k f s = Some (u, s') -> s' = upd_zts (alter (alter f k.2) k.1) s /\ is_Some (ent s k).
Proof. rewrite /set_zt /mbind /ST_bind /get_zt. destruct (ent s k); [|done]. intros [= _ <-]. by split; [|eexists]. Qed.
Lemma zts_set k f s c : is_Some (zts (upd_zts (alter (alter f k.2) k.1) s) !! c) <-> is_Some (zts s !! c).
Proof.
  cbn [zts upd_zts]. destruct (decide (c = k.1)) as [->|Hn]; [|by rewrite lookup_alter_ne]. rewrite lookup_alter_eq. destruct (zts s !! k.1); cbn; split; by intros [? ?].
Qed.
Lemma flagged_set k f s c n : (forall t, zt_stop t = true -> zt_stop (f t) = true) -> flagged s c n -> flagged (upd_zts (alter (alter f k.2) k.1) s) c n.
Proof.
  intros Hf Hfl i t Hi. rewrite ent_alter. destruct (ent s (c, i)) as [t0|] eqn:E; [|done]. cbn. pose proof (Hfl i t0 Hi E). case_decide; intros [= <-]; cbn; auto.
Qed.

Hypothesis num_pos : (0 < num_zts)%nat.
Lemma live_thread x0 x k : stop_inv x0 x -> ~ gone (pcs x) k -> has_thread (sh x) k.
Proof.
  intros Hi Hg. rewrite /gone in Hg. destruct (pcs x !! k) as [pc|] eqn:E; [|done]. pose proof (si_threads _ _ Hi _ _ E) as Hpc.
  by destruct pc as [|op|op|op|ok]; try destruct Hpc.
Qed.
Lemma no_table_gone x0 x k : stop_inv x0 x -> zts (sh x) !! k.1 = None -> gone (pcs x) k.
Proof.
  intros Hi Hz. destruct (decide (gone (pcs x) k)) as [|Hg]; [done|]. destruct (live_thread _ _ _ Hi Hg) as (t & E & _). by rewrite /ent Hz in E.
Qed.
Lemma gone_below x0 x c : stop_inv x0 x -> (forall k, (k.1 < c)%nat -> gone (pcs x) k) -> (forall i, (i < num_zts)%nat -> gone (pcs x) (c, i)) ->
  forall k, (k.1 <= c)%nat -> gone (pcs x) k.
Proof.
  intros Hi Hlt Hc [c' i] Hk. cbn in Hk. destruct (decide (c' = c)) as [->|]; [|apply Hlt; cbn; lia].
  destruct (decide (gone (pcs x) (c, i))) as [|Hg]; [done|]. destruct (live_thread _ _ _ Hi Hg) as (t & E & _). apply Hc.
  rewrite /ent in E. cbn in E. destruct (zts (sh x) !! c) as [l|] eqn:El; [|done]. apply lookup_lt_Some in E. by destruct (si_tables _ _ Hi _ _ El) as [<- _].
Qed.
(** Nothing but the position changes. *)
Lemma goto_inv x0 s p m m' : stop_inv x0 (RunState s p m) -> phase_inv s p m' -> stop_inv x0 (RunState s p m').
Proof. intros Hi. apply (main_inv x0 s s p m m' Hi); try done; naive_solver. Qed.
Lemma flag_inv x0 s p c i : stop_inv x0 (RunState s p (SFlag c i)) -> (i < num_zts)%nat ->
  stop_inv x0 (RunState (upd_zts (alter (alter set_stop i) c) s) p (SFlag c (S i))).
Proof.
  intros Hi Hlt. destruct (si_phase _ _ Hi) as (P1 & P2 & P3 & P4). cbn [sh pcs at_pc] in *.
  apply (set_main x0 s p (SFlag c i) _ (c, i)); try done. cbn [phase_inv fst snd]. split_and!; [done|by apply (zts_set (c, i))|lia|].
  intros j t Hj. rewrite (ent_alter s (c, i)). destruct (ent s (c, j)) as [t0|] eqn:E; [|done]. cbn.
  case_decide as Ed; intros [= <-]; [done|]. apply (P4 j t0); [|done]. assert (j <> i) by congruence. lia.
Qed.
Lemma break_inv x0 s p c t : stop_inv x0 (RunState s p (SBreak c)) -> k_chan s !! zt_fd t = Some c ->
  stop_inv x0 (RunState (upd_log (cons (k_chan s !! zt_fd t)) s) p (SJoin c 0)).
Proof.
  intros Hi E. destruct (si_phase _ _ Hi) as (P1 & P2 & P3). cbn [sh pcs at_pc] in *.
  apply (main_inv x0 s _ p (SBreak c) _ Hi); try done; [intros c' l Hl; by exists l|intros k t' Et Ht; by exists t'|].
  cbn [phase_inv]. split_and!; try done; [lia|cbn; rewrite E; by left|intros j Hj; lia].
Qed.
Lemma join_inv x0 s p c i ok : stop_inv x0 (RunState s p (SJoin c i)) -> (i < num_zts)%nat -> p !! (c, i) = Some (PGone ok) ->
  stop_inv x0 (RunState (upd_zts (alter (alter set_joined i) c) s) p (SJoin c (S i))).
Proof.
  intros Hi Hlt Hg. destruct (si_phase _ _ Hi) as (P1 & P2 & P3 & P4 & P5 & P6). cbn [sh pcs at_pc] in *.
  assert (Hgo : gone p (c, i)) by (by rewrite /gone Hg).
  apply (set_main x0 s p (SJoin c i) _ (c, i)); try done. cbn [phase_inv fst snd]. split_and!; [done|by apply (zts_set (c, i))|lia|by apply (flagged_set (c, i))|done|].
  intros j Hj. destruct (decide (j = i)) as [->|]; [done|]. apply P6. lia.
Qed.
Lemma free_inv x0 s p c : stop_inv x0 (RunState s p (SFree c)) -> stop_inv x0 (RunState (upd_zts (delete c) s) p (SChan (S c))).
Proof.
  intros Hi. destruct (si_phase _ _ Hi) as ([l Hl] & P2). cbn [sh pcs at_pc] in *. destruct (si_tables _ _ Hi _ _ Hl) as [_ Hc].
  assert (He : forall k, k.1 <> c -> ent (upd_zts (delete c) s) k = ent s k) by (intros k Hk; by rewrite /ent /= lookup_delete_ne).
  apply (main_inv x0 s _ p (SFree c) _ Hi); try done.
  - cbn [zts upd_zts]. intros c' l' [_ Hl']%lookup_delete_Some. by exists l'.
  - intros k pc Hk. destruct (decide (gone p k)) as [Hg|Hg]; [rewrite /gone Hk in Hg; by destruct pc|].
    assert (Hn : k.1 <> c) by (intros E; apply Hg, P2; lia).
    assert (Hth : has_thread s k -> has_thread (upd_zts (delete c) s) k) by (intros (t & E & Ht); exists t; by rewrite He).
    assert (Hsv : forall op, serving k op s -> serving k op (upd_zts (delete c) s)) by (intros op (t & E & Hr); exists t; by rewrite He).
    destruct pc as [|op|op|op|[]]; cbn [pc_inv]; try done; intros [H1 H2]; (split; [by apply Hth|]); try done; by apply Hsv.
  - intros k t. destruct (decide (k.1 = c)) as [E|Hn]; [rewrite /ent /= E lookup_delete_eq; done|]. rewrite He //. intros E Ht. by exists t.
  - cbn [phase_inv]. split; [lia|]. intros k Hk. apply P2. lia.
Qed.
Lemma end_inv x0 s p c : stop_inv x0 (RunState s p (SChan c)) -> (max_channels <= c)%nat -> stop_inv x0 (RunState (upd_zts (fun _ => ∅) s) p SDone).
Proof.
  intros Hi Hc. destruct (si_phase _ _ Hi) as [_ P2]. cbn [sh pcs at_pc] in *.
  assert (Hg : forall k, gone p k).
  { intros k. destruct (zts s !! k.1) as [l|] eqn:E; [|by apply (no_table_gone x0 (RunState s p (SChan c)))].
    destruct (si_tables _ _ Hi _ _ E) as [_ Hl]. apply P2. lia. }
  apply (main_inv x0 s _ p (SChan c) _ Hi); try done.
  intros k pc Hk. specialize (Hg k). rewrite /gone Hk in Hg. by destruct pc.
Qed.
Lemma main_step_inv x0 x x' : stop_inv x0 x -> step AMain x x' -> heard AMain x -> stop_inv x0 x'.
Proof.
  intros Hi Hst Hh. inversion Hst as [s p c Hc Hz|s p c l Hc Hz|s s' p c i Hlt Hrun|s p c i Hle|s s' p c Hrun|s p c i t Hlt E Ht|s s' p c i t ok Hlt E Ht Hg Hrun|s p c i Hle|s p c|s p c Hc| | | | | |];
    subst; pose proof (si_phase _ _ Hi) as Hph; cbn [sh pcs at_pc phase_inv] in Hph.
  - apply (goto_inv _ _ _ _ _ Hi). cbn [phase_inv]. split; [lia|]. intros k Hk. destruct (decide (k.1 = c)) as [Ek|]; [|apply Hph; lia].
    apply (no_table_gone x0 _ k Hi). by rewrite Ek.
  - apply (goto_inv _ _ _ _ _ Hi). cbn [phase_inv]. split_and!; [apply Hph|by eexists|lia|intros i t Hlt; lia].
  - destruct (set_zt_run _ _ _ _ _ Hrun) as [-> _]. by apply flag_inv.
  - apply (goto_inv _ _ _ _ _ Hi). cbn [phase_inv]. destruct Hph as (P1 & P2 & P3 & P4). split_and!; [done|done|]. by replace num_zts with i by lia.
  - destruct Hh as (t & E & Hc). cbn [sh] in E, Hc. revert Hrun. rewrite /mbind /ST_bind /get_zt E. intros [= <-]. by apply break_inv.
  - apply (goto_inv _ _ _ _ _ Hi). destruct Hph as (P1 & P2 & P3 & P4 & P5 & P6). cbn [phase_inv]. split_and!; try done.
    intros j Hj. destruct (decide (j = i)) as [->|]; [|apply P6; lia]. destruct (decide (gone p (c, i))) as [|Hg]; [done|].
    destruct (live_thread _ _ _ Hi Hg) as (t' & E' & Ht'). cbn [sh] in E'. congruence.
  - destruct (set_zt_run _ _ _ _ _ Hrun) as [-> _]. by apply (join_inv _ _ _ _ _ ok).
  - apply (goto_inv _ _ _ _ _ Hi). destruct Hph as (P1 & P2 & P3 & P4 & P5 & P6). cbn [phase_inv]. split; [done|].
    apply (gone_below x0 _ c Hi P1). intros j Hj. apply P6. lia.
  - by apply free_inv.
  - by apply (end_inv _ _ _ c).
Qed.

Hypothesis serves : forall p o f, fs_ok f -> wp (do_command p o) f (fun _ f' => fs_ok f').
Lemma fs_keeps {A} (m : ST (ztp_state F) A) s a s' : (forall f, keeps (fun s => zt_fs s = f) m) -> m s = Some (a, s') -> zt_fs s' = zt_fs s.
Proof. intros Hk E. by apply (Hk (zt_fs s) s a s'). Qed.
Lemma not_gone p k pc : p !! k = Some pc -> (forall ok, pc <> PGone ok) -> ~ gone p k.
Proof. rewrite /gone. intros -> Hn. destruct pc; try tauto. by destruct (Hn ok). Qed.
Lemma wait_inv x0 s s' p m k op a u : stop_inv x0 (RunState s p m) -> p !! k = Some (PWait op) -> zuf_wait_opt k op a s = Some (u, s') ->
  stop_inv x0 (RunState s' (<[k := PServe op]> p) m).
Proof.
  intros Hi Hk Hrun. destruct (si_threads _ _ Hi _ _ Hk) as [Hth Hsv]. destruct (wp_run _ _ _ _ _ (wp_zuf_wait_opt k op a s Hsv) Hrun) as [L S'].
  apply (thread_inv _ s s' p m k (PWait op)); try done.
  - by apply (not_gone _ _ _ Hk).
  - split; [by apply (has_thread_local k s)|done].
  - rewrite (fs_keeps _ _ _ _ (fun f => keeps_wait f k op a) Hrun). apply Hi.
Qed.
Lemma thread_step_inv x0 a x x' : stop_inv x0 x -> step a x x' -> a <> AMain -> stop_inv x0 x'.
Proof.
  intros Hi Hst Ha. destruct Hst as [| | | | | | | | | |s s' p m k a o Hk Hans Hrun|s p m k op t Hk E Hs|s s' p m k op t Hk E Hs Hrun|s s' p m k op a Hk Hw Hrun|s s' p m k op a Hk Hrun|s s' p m k op e Hk Hrun];
    try done.
  - destruct (si_threads _ _ Hi _ _ Hk) as [Hth HR]. pose proof Hth as (t & E & _). cbn [sh] in E, HR.
    destruct (wp_run _ _ _ _ _ (wp_zt_setup k a s t E HR Hans) Hrun) as (L & M' & _ & Ho).
    apply (thread_inv _ s s' p m k PInit); try done.
    + by apply (not_gone _ _ _ Hk).
    + destruct o as [op|]; [split; [by apply (has_thread_local k s)|apply Ho]|done].
    + rewrite (fs_keeps _ _ _ _ (fun f => keeps_setup f k a) Hrun). apply Hi.
  - apply (thread_inv _ s s p m k (PLoop op)); try done.
    + by apply (not_gone _ _ _ Hk).
    + apply local_refl.
    + apply (si_threads _ _ Hi _ _ Hk).
    + apply Hi.
  - destruct (si_threads _ _ Hi _ _ Hk) as [Hth Hsv]. destruct (wp_run _ _ _ _ _ (wp_zt_exit k op s Hsv) Hrun) as (L & M' & _).
    apply (thread_inv _ s s' p m k (PLoop op)); try done.
    + by apply (not_gone _ _ _ Hk).
    + rewrite (fs_keeps _ _ _ _ (fun f => keeps_exit f k op) Hrun). apply Hi.
  - by apply (wait_inv _ s s' p m k op a tt).
  - by apply (wait_inv _ s s' p m k op a tt).
  - destruct (si_threads _ _ Hi _ _ Hk) as [Hth Hsv]. destruct (wp_run _ _ _ _ _ (wp_zt_serve do_command fs_ok serves k op s Hsv (si_fs _ _ Hi)) Hrun) as (L & S' & Hfs & _).
    apply (thread_inv _ s s' p m k (PServe op)); try done.
    + by apply (not_gone _ _ _ Hk).
    + split; [by apply (has_thread_local k s)|done].
Qed.
Lemma stop_step_inv x0 a x x' : stop_inv x0 x -> step a x x' -> heard a x -> stop_inv x0 x'.
Proof. intros Hi Hst Hh. destruct a; [by apply (main_step_inv x0 x)|by eapply thread_step_inv..]. Qed.

(** ** Progress *)
Hypothesis wakes_broken : forall log c i, Some c ∈ log -> wakes log (c, i) = true.
Definition enabled (a : actor) x : Prop := exists x', step a x x'.
(** Whom the stop waits for. *)
Definition turn x : actor :=
  match at_pc x with SJoin c i => if decide (gone (pcs x) (c, i)) then AMain else AThread (c, i) | _ => AMain end.
Lemma has_ent x0 x c i : stop_inv x0 x -> is_Some (zts (sh x) !! c) -> (i < num_zts)%nat -> exists t, ent (sh x) (c, i) = Some t.
Proof.
  intros Hi [l El] Hlt. destruct (si_tables _ _ Hi _ _ El) as [Hl _]. rewrite /ent /= El /=. destruct (lookup_lt_is_Some_2 l i) as [t Et]; [lia|by exists t].
Qed.
Lemma set_zt_runs k f s t : ent s k = Some t -> set_zt k f s = Some (tt, upd_zts (alter (alter f k.2) k.1) s).
Proof. intros E. by rewrite /set_zt /mbind /ST_bind /get_zt E. Qed.
(** A thread that is told to stop can always do something, once its channel is broken. *)
Lemma thread_enabled x0 x k : stop_inv x0 x -> ~ gone (pcs x) k -> Some k.1 ∈ k_log (sh x) -> (forall t, ent (sh x) k = Some t -> zt_stop t = true) -> enabled (AThread k) x.
Proof.
  intros Hi Hg Hlog Hs. rewrite /gone in Hg. destruct (pcs x !! k) as [pc|] eqn:E; [|done]. pose proof (si_threads _ _ Hi _ _ E) as Hpc.
  destruct x as [s p m]. cbn [sh pcs at_pc] in *. destruct pc as [|op|op|op|ok]; [destruct Hpc as [(t & Et & _) HR]|destruct Hpc as [(t & Et & _) Hsv]..|done].
  - set (a := ZtAnswers (inl 1) 0 (inl 1) (inl 1)). assert (Ha : answers_ok s a) by (by repeat split).
    destruct (wp_exists _ _ _ (wp_zt_setup k a s t Et HR Ha)) as (o & s' & Hrun & _). eexists. by apply (ss_init _ _ _ _ s s' p m k a o).
  - destruct (wp_exists _ _ _ (wp_zt_exit k op s Hsv)) as ([] & s' & Hrun & _). eexists. apply (ss_exit _ _ _ _ s s' p m k op t); [done..|by apply Hs|done].
  - destruct (wp_exists _ _ _ (wp_zuf_wait_opt k op (WaitAnswer 0 None) s Hsv)) as ([] & s' & Hrun & _). eexists.
    apply (ss_woken _ _ _ _ s s' p m k op (WaitAnswer 0 None)); [done| |done]. destruct k as [c i]. by apply wakes_broken.
  - destruct (wp_exists _ _ _ (wp_zt_serve do_command fs_ok serves k op s Hsv (si_fs _ _ Hi))) as (e & s' & Hrun & _). eexists. by apply (ss_serve _ _ _ _ s s' p m k op e).
Qed.
Lemma main_enabled x0 x : stop_inv x0 x -> at_pc x <> SDone -> turn x = AMain -> enabled AMain x.
Proof.
  intros Hi Hd Ht. pose proof (si_phase _ _ Hi) as Hph. rewrite /turn in Ht. rewrite /enabled. destruct x as [s p m]. cbn [sh pcs at_pc] in *. destruct m as [c|c i|c|c i|c|]; cbn [phase_inv] in Hph.
  - destruct (decide (c < max_channels)%nat) as [Hc|Hc]; [|eexists; apply ss_end; lia].
    destruct (zts s !! c) as [l|] eqn:El; eexists; [by apply (ss_chan _ _ _ _ s p c l)|by apply ss_no_chan].
  - destruct Hph as (_ & Hz & Hle & _). destruct (decide (i < num_zts)%nat) as [Hlt|Hge]; [|eexists; apply ss_flags_end; lia].
    destruct (has_ent _ _ c i Hi Hz Hlt) as [t Et]. eexists. apply ss_flag; [done|]. by apply (set_zt_runs _ _ _ t).
  - destruct Hph as (_ & Hz & _). destruct (has_ent _ _ c 0%nat Hi Hz num_pos) as [t Et]. cbn [sh] in Et. eexists. apply ss_break.
    by rewrite /mbind /ST_bind /get_zt Et.
  - destruct Hph as (_ & Hz & Hle & _). destruct (decide (i < num_zts)%nat) as [Hlt|Hge]; [|eexists; apply ss_joins_end; lia].
    destruct (has_ent _ _ c i Hi Hz Hlt) as [t Et]. cbn [sh] in Et. destruct (Z.eq_dec (zt_thread t) 0) as [E0|Hn]; [eexists; by apply (ss_no_join _ _ _ _ s p c i t)|].
    destruct (si_created _ _ Hi _ _ Et Hn) as [pc Epc]. cbn [pcs] in Epc. case_decide as Hg; [|done]. rewrite /gone Epc in Hg.
    destruct pc as [|op|op|op|ok]; try done. eexists. eapply (ss_join _ _ _ _ s _ p c i t ok); try done. by apply (set_zt_runs _ _ _ t).
  - eexists. apply ss_free.
  - done.
Qed.
Lemma turn_enabled x0 x : stop_inv x0 x -> at_pc x <> SDone -> enabled (turn x) x.
Proof.
  intros Hi Hd. destruct (turn x) as [|k|k] eqn:Et; [by apply (main_enabled x0)| |].
  - rewrite /turn in Et. pose proof (si_phase _ _ Hi) as Hph. destruct (at_pc x) as [| | |c i| |] eqn:Ea; try done. case_decide as Hg; [done|]. injection Et as <-.
    destruct Hph as (_ & Hz & Hle & Hf & Hlog & _). apply (thread_enabled x0); try done. intros t E. apply (Hf i t); [|done].
    destruct (decide (i < num_zts)%nat) as [|Hge]; [done|]. rewrite /ent /= in E. destruct Hz as [l El]. rewrite El in E. cbn in E. apply lookup_lt_Some in E.
    destruct (si_tables _ _ Hi _ _ El). lia.
  - rewrite /turn in Et. destruct (at_pc x); try done. by case_decide.
Qed.

(** ** Termination *)
(** The steps the stop has left. *)
Definition chan_steps (c : nat) : nat := (max_channels - c) * (2 * num_zts + 6).
Definition steps_left (m : stop_pc) : nat :=
  match m with
  | SChan c => chan_steps c + 1
  | SFlag c i => chan_steps (S c) + 1 + (2 * num_zts + 5 - i)
  | SBreak c => chan_steps (S c) + 1 + (num_zts + 4)
  | SJoin c i => chan_steps (S c) + 1 + (num_zts + 3 - i)
  | SFree c => chan_steps (S c) + 2
  | SDone => 0
  end.
(** The steps of a thread that is told to stop and whose wait is broken. *)
Definition rank (o : option zt_pc) : nat :=
  match o with Some (PWait _) => 3 | Some PInit | Some (PServe _) => 2 | Some (PLoop _) => 1 | _ => 0 end.
Definition mu x : nat := 4 * steps_left (at_pc x) + match at_pc x with SJoin c i => rank (pcs x !! (c, i)) | _ => 0 end.
Lemma chan_steps_S c : (c < max_channels)%nat -> (chan_steps c = chan_steps (S c) + (2 * num_zts + 6))%nat.
Proof. intros Hc. rewrite /chan_steps. replace (max_channels - c)%nat with (S (max_channels - S c)) by lia. cbn [Nat.mul]. lia. Qed.
Lemma rank_le o : (rank o <= 3)%nat.
Proof. destruct o as [[]|]; cbn; lia. Qed.
Lemma main_decreases x0 x x' : stop_inv x0 x -> step AMain x x' -> (mu x' < mu x)%nat.
Proof.
  intros Hi Hst. pose proof (si_phase _ _ Hi) as Hph.
  inversion Hst as [s p c Hc Hz|s p c l Hc Hz|s s' p c i Hlt Hrun|s p c i Hle|s s' p c Hrun|s p c i t Hlt E Ht|s s' p c i t ok Hlt E Ht Hg Hrun|s p c i Hle|s p c|s p c Hc| | | | | |];
    subst; cbn [sh pcs at_pc phase_inv] in Hph; rewrite /mu; cbn [at_pc pcs steps_left].
  - rewrite (chan_steps_S c) //. lia.
  - rewrite (chan_steps_S c) //. lia.
  - lia.
  - lia.
  - pose proof (rank_le (p !! (c, 0%nat))). lia.
  - pose proof (rank_le (p !! (c, S i))). lia.
  - pose proof (rank_le (p !! (c, S i))). lia.
  - lia.
  - lia.
  - lia.
Qed.
(** Another thread does not disturb, and the thread that is waited for gets on. *)
Lemma thread_decreases x0 a k x x' : stop_inv x0 x -> step a x x' -> a = AThread k \/ a = AKernel k ->
  (mu x' < mu x)%nat \/ mu x' = mu x /\ turn x' = turn x /\ turn x <> AThread k.
Proof.
  intros Hi Hst Ha. pose proof (si_phase _ _ Hi) as Hph.
  assert (Hcase : exists s s' p m pc pc', x = RunState s p m /\ x' = RunState s' (<[k := pc']> p) m /\ p !! k = Some pc /\ ~ gone p k /\
    ((rank (Some pc') < rank (Some pc))%nat \/ exists t, ent s k = Some t /\ zt_stop t = false)).
  { destruct Hst as [| | | | | | | | | |s s' p m k' a o Hk Hans Hrun|s p m k' op t Hk E Hs|s s' p m k' op t Hk E Hs Hrun|s s' p m k' op a Hk Hw Hrun|s s' p m k' op a Hk Hrun|s s' p m k' op e Hk Hrun];
      try (destruct Ha; done); assert (k' = k) as -> by (destruct Ha as [[= ->]|[= ->]]; done).
    - exists s, s', p, m, PInit, (match o with Some op => PLoop op | None => PGone false end). split_and!; [done..|by apply (not_gone _ _ _ Hk)|left; destruct o; cbn; lia].
    - exists s, s, p, m, (PLoop op), (PWait op). split_and!; [done..|by apply (not_gone _ _ _ Hk)|right; by exists t].
    - exists s, s', p, m, (PLoop op), (PGone true). split_and!; [done..|by apply (not_gone _ _ _ Hk)|left; cbn; lia].
    - exists s, s', p, m, (PWait op), (PServe op). split_and!; [done..|by apply (not_gone _ _ _ Hk)|left; cbn; lia].
    - exists s, s', p, m, (PWait op), (PServe op). split_and!; [done..|by apply (not_gone _ _ _ Hk)|left; cbn; lia].
    - exists s, s', p, m, (PServe op), (PLoop op). split_and!; [done..|by apply (not_gone _ _ _ Hk)|left; cbn; lia]. }
  destruct Hcase as (s & s' & p & m & pc & pc' & -> & -> & Hk & Hg & Hr). rewrite /mu /turn. cbn [sh pcs at_pc] in *.
  destruct m as [c|c i|c|c i|c|]; try (right; done).
  destruct (decide ((c, i) = k)) as [<-|Hn].
  - left. rewrite lookup_insert_eq Hk. destruct Hr as [Hr|(t & E & Hs)]; [lia|]. exfalso.
    destruct Hph as (_ & [l El] & Hle & Hf & _). destruct (si_tables _ _ Hi _ _ El) as [Hl _]. cbn [sh] in El, Hf. rewrite (Hf i t) // in Hs.
    rewrite /ent /= El in E. cbn in E. apply lookup_lt_Some in E. lia.
  - right. rewrite lookup_insert_ne //. split; [done|]. pose proof (gone_insert p k pc' (c, i) Hn) as Hgi.
    repeat case_decide; try tauto; (split; [done|congruence]).
Qed.
Lemma turn_kind x : turn x = AMain \/ exists k, turn x = AThread k.
Proof. rewrite /turn. destruct (at_pc x); auto. case_decide; eauto. Qed.
Lemma step_progress x0 a x x' : stop_inv x0 x -> step a x x' ->
  (mu x' < mu x)%nat \/ mu x' = mu x /\ turn x' = turn x /\ turn x <> a.
Proof.
  intros Hi Hst. destruct a as [|k|k]; [left; by apply (main_decreases x0)| |].
  - apply (thread_decreases x0 (AThread k)); auto.
  - destruct (thread_decreases x0 (AKernel k) k x x' Hi Hst ltac:(by right)) as [?|(E1 & E2 & _)]; [by left|right].
    split_and!; [done|done|]. destruct (turn_kind x) as [->|[k' ->]]; done.
Qed.

(** An infinite run: at each time somebody steps, or nobody. *)
Definition is_run (r : nat -> run_state F) (act : nat -> option actor) : Prop := forall n,
  match act n with Some a => step a (r n) (r (S n)) /\ heard a (r n) | None => r (S n) = r n end.
(** Who can always step does; the kernel need not. *)
Definition fair (r : nat -> run_state F) (act : nat -> option actor) : Prop := forall a n,
  (forall k, a <> AKernel k) -> exists m, (n <= m)%nat /\ (act m = Some a \/ ~ enabled a (r m)).
Lemma run_inv r act n : stop_start (r 0%nat) -> is_run r act -> stop_inv (r 0%nat) (r n).
Proof.
  intros Hs Hr. induction n as [|n IH]; [by apply start_inv|]. specialize (Hr n). destruct (act n) as [a|]; [|by rewrite Hr].
  destruct Hr as [Hst Hq]. by apply (stop_step_inv _ a (r n)).
Qed.
Lemma done_dec x : {at_pc x = SDone} + {at_pc x <> SDone}.
Proof. destruct (at_pc x); by (left + right). Qed.
(** Until the one whose turn it is steps, nothing gets worse. *)
Lemma next_decrease r act n d : stop_start (r 0%nat) -> is_run r act ->
  act (n + d)%nat = Some (turn (r n)) \/ ~ enabled (turn (r n)) (r (n + d)%nat) -> exists m, at_pc (r m) = SDone \/ (mu (r m) < mu (r n))%nat.
Proof.
  intros Hs Hr. revert n. induction d as [|d IH]; intros n Hm; (destruct (done_dec (r n)) as [Ed|Hd]; [exists n; by left|]); pose proof (run_inv r act n Hs Hr) as Hi.
  - rewrite Nat.add_0_r in Hm. destruct Hm as [Ha|Hn]; [|destruct Hn; by apply (turn_enabled (r 0%nat))].
    exists (S n). right. pose proof (Hr n) as Hst. rewrite Ha in Hst. destruct Hst as [Hst _].
    by destruct (step_progress _ _ _ _ Hi Hst) as [?|(_ & _ & ?)].
  - pose proof (Hr n) as Hst. assert (Hcase : (mu (r (S n)) < mu (r n))%nat \/ mu (r (S n)) = mu (r n) /\ turn (r (S n)) = turn (r n)).
    { destruct (act n) as [a|]; [|rewrite Hst; by right]. destruct Hst as [Hst _]. destruct (step_progress _ _ _ _ Hi Hst) as [?|(? & ? & _)]; tauto. }
    destruct Hcase as [Hlt|[Emu Etu]]; [exists (S n); by right|].
    destruct (IH (S n)) as (m & Hm'); [rewrite Etu; by replace (S n + d)%nat with (n + S d)%nat by lia|]. exists m. by rewrite -Emu.
Qed.
Lemma run_ends r act : stop_start (r 0%nat) -> is_run r act -> fair r act -> exists n, at_pc (r n) = SDone.
Proof.
  intros Hs Hr Hf. assert (H0 : forall b n, (mu (r n) <= b)%nat -> exists m, at_pc (r m) = SDone); [|by apply (H0 _ 0%nat (le_n _))].
  induction b as [b IH] using lt_wf_ind. intros n Hb.
  destruct (Hf (turn (r n)) n) as (m & Hm & Hc); [intros k E; destruct (turn_kind (r n)) as [E'|[k' E']]; by rewrite E' in E|].
  destruct (next_decrease r act n (m - n) Hs Hr) as (n' & [Ed|Hlt]); [by replace (n + (m - n))%nat with m by lia|by exists n'|].
  apply (IH (mu (r n')) ltac:(lia) n'). lia.
Qed.

(** C18: the stop of the handler threads, wherever each of them is when it begins.  In every
    fair run of [zus_stop_all_threads] with the threads it stops and the kernel, in which the
    call that breaks a channel is heard - the first thread of the channel has its descriptor
    registered and has not returned yet ([set_up_heard]; without it the stop may wait for
    ever, [stop_can_hang]) - the stop returns.  Then every thread has returned and the tables
    are freed; whoever was set up when it began has given back all it took, and only a thread
    whose set up failed leaves what it had taken; nothing that others took is gone. *)
Theorem stop_all_ends (r : nat -> run_state F) (act : nat -> option actor) :
  stop_start (r 0%nat) -> is_run r act -> fair r act ->
  exists n, at_pc (r n) = SDone /\ zts (sh (r n)) = ∅ /\ (forall k, gone (pcs (r n)) k) /\
    (forall y k, k_res (sh (r n)) !! y = Some (Some k) -> pcs (r n) !! k = Some (PGone false)) /\
    (forall k pc, pcs (r 0%nat) !! k = Some pc -> is_set_up pc -> pcs (r n) !! k = Some (PGone true)) /\
    (forall y, k_res (sh (r n)) !! y = Some None <-> k_res (sh (r 0%nat)) !! y = Some None).
Proof.
  intros Hs Hr Hf. destruct (run_ends r act Hs Hr Hf) as [n Ed]. exists n. pose proof (run_inv r act n Hs Hr) as Hi.
  pose proof (si_phase _ _ Hi) as Hph. rewrite Ed in Hph. destruct Hph as [Hz Hg]. split_and!; try done.
  - intros y k Hx. destruct (si_owners _ _ Hi _ _ Hx) as [pc Hpc]. pose proof (Hg k) as Hgk. rewrite /gone Hpc in Hgk. destruct pc as [| | | |ok]; try done.
    destruct ok; [|done]. pose proof (si_threads _ _ Hi _ _ Hpc y) as Hm. apply Hm in Hx. by apply elem_of_nil in Hx.
  - intros k pc0 Hk Hup. destruct (si_served _ _ Hi _ _ Hk Hup) as (pc & Hpc & N1 & N2). pose proof (Hg k) as Hgk. rewrite /gone Hpc in Hgk. destruct pc as [| | | |ok]; try done.
    by destruct ok.
  - intros y. apply (si_others _ _ Hi).
Qed.
End stop.

(** ** A run, and a run that hangs *)
Section example.
#[local] Instance zt_api_ex : ZtApi := {| ZUS_API_MAP_MAX_SIZE := 2 ^ 20; ZUFS_H_INTR := 1; MAP_FAILED := -1 |}.
(** A file system that counts the commands. *)
Definition count_cmd (p : Z) (o : zufs_ioc_hdr) : ST nat Z := fun n => Some (0, S n).
(** A kernel that wakes the threads of the channels it was told to break, and no other. *)
Definition wakes_chan (log : list (option nat)) (k : zkey) : bool := bool_decide (Some k.1 ∈ log).
Lemma wakes_chan_broken log c i : Some c ∈ log -> wakes_chan log (c, i) = true.
Proof. intros Hc. by apply bool_decide_eq_true. Qed.
Lemma count_serves p o f : True -> wp (count_cmd p o) f (fun _ _ => True).
Proof. done. Qed.
Definition snd_or {A B} (o : option (A * B)) (d : B) : B := match o with Some r => r.2 | None => d end.

Definition s0 : ztp_state nat := ZtpState
  {[inl 3 := None; inl 5 := Some (0%nat, 0%nat); inr (1000, 2 ^ 20) := Some (0%nat, 0%nat); inr (2000, ZUS_MAX_OP_SIZE) := Some (0%nat, 0%nat)]}
  {[5 := 0%nat]} [] {[2000 := ZufsIocHdr 0 0 0 0]} {[0%nat := [ZuThread 5 1000 false 2000 77 0]]} 0%nat.
Definition k00 : zkey := (0%nat, 0%nat).
Definition s1 := snd_or (set_zt k00 set_stop s0) s0.
Definition s2 := snd_or ((t ← get_zt k00; zuf_break_all (zt_fd t)) s1) s1.
Definition s3 := snd_or (zuf_wait_opt k00 2000 (WaitAnswer (-4) None) s2) s2.
Definition s4 := snd_or (zt_serve count_cmd k00 2000 s3) s3.
Definition s5 := snd_or (zt_exit k00 2000 s4) s4.
Definition s6 := snd_or (set_zt k00 set_joined s5) s5.
Definition at_k (pc : zt_pc) : gmap zkey zt_pc := {[k00 := pc]}.
Definition run_ex (n : nat) : run_state nat :=
  match n with
  | 0 => RunState s0 (at_k (PWait 2000)) (SChan 0)
  | 1 => RunState s0 (at_k (PWait 2000)) (SFlag 0 0)
  | 2 => RunState s1 (at_k (PWait 2000)) (SFlag 0 1)
  | 3 => RunState s1 (at_k (PWait 2000)) (SBreak 0)
  | 4 => RunState s2 (at_k (PWait 2000)) (SJoin 0 0)
  | 5 => RunState s3 (at_k (PServe 2000)) (SJoin 0 0)
  | 6 => RunState s4 (at_k (PLoop 2000)) (SJoin 0 0)
  | 7 => RunState s5 (at_k (PGone true)) (SJoin 0 0)
  | 8 => RunState s6 (at_k (PGone true)) (SJoin 0 1)
  | 9 => RunState s6 (at_k (PGone true)) (SFree 0)
  | 10 => RunState (upd_zts (delete 0%nat) s6) (at_k (PGone true)) (SChan 1)
  | _ => RunState (upd_zts (fun _ => ∅) (upd_zts (delete 0%nat) s6)) (at_k (PGone true)) SDone
  end%nat.
Definition act_ex (n : nat) : option actor :=
  match n with 4 | 5 | 6 => Some (AThread k00) | 0 | 1 | 2 | 3 | 7 | 8 | 9 | 10 => Some AMain | _ => None end%nat.
Notation step_ex := (stop_step count_cmd 1 1 wakes_chan).
Lemma run_ex_steps : is_run count_cmd 1 1 wakes_chan run_ex act_ex.
Proof.
  assert (H01 : (0 < 1)%nat) by lia. intros n. destruct n as [|[|[|[|[|[|[|[|[|[|[|n]]]]]]]]]]]; cbn [act_ex run_ex]; [..|done]; (split; [|first [done|by exists (ZuThread 5 1000 true 2000 77 0)]]).
  - by apply (ss_chan _ _ _ _ _ _ _ [ZuThread 5 1000 false 2000 77 0]).
  - by apply ss_flag.
  - by apply ss_flags_end.
  - by apply ss_break.
  - by apply (ss_woken _ _ _ _ s2 s3 (at_k (PWait 2000)) (SJoin 0 0) k00 2000 (WaitAnswer (-4) None)).
  - by apply (ss_serve _ _ _ _ s3 s4 (at_k (PServe 2000)) (SJoin 0 0) k00 2000 0).
  - by apply (ss_exit _ _ _ _ s4 s5 (at_k (PLoop 2000)) (SJoin 0 0) k00 2000 (ZuThread 5 1000 true 2000 77 (-4))).
  - by apply (ss_join _ _ _ _ s5 s6 (at_k (PGone true)) 0%nat 0%nat (ZuThread (-1) 0 true 2000 77 (-4)) true).
  - by apply ss_joins_end.
  - by apply ss_free.
  - by apply ss_end.
Qed.
Lemma done_stuck {F} (do_command : Z -> zufs_ioc_hdr -> ST F Z) num max wakes s p a :
  (forall k, gone p k) -> ~ enabled do_command num max wakes a (RunState s p SDone).
Proof. intros Hg [x' Hst]. inversion Hst; subst; pose proof (Hg k) as Hk; rewrite /gone in Hk; by simplify_option_eq. Qed.
Lemma at_k_gone k : gone (at_k (PGone true)) k.
Proof. rewrite /gone /at_k. destruct (decide (k = k00)) as [->|Hn]; [done|]. by rewrite lookup_singleton_ne. Qed.
Lemma run_ex_fair : fair count_cmd 1 1 wakes_chan run_ex act_ex.
Proof. intros a n _. exists (11 + n)%nat. split; [lia|]. right. apply done_stuck. exact at_k_gone. Qed.
Lemma run_ex_start : stop_start (fun _ => True) 1 1 (run_ex 0).
Proof.
  split; cbn [run_ex sh pcs at_pc].
  - done.
  - intros c l. cbn [zts s0]. rewrite lookup_singleton_Some. intros [<- <-]. cbn. lia.
  - intros k pc. rewrite lookup_singleton_Some. intros [<- <-]. split; [by exists (ZuThread 5 1000 false 2000 77 0)|].
    exists (ZuThread 5 1000 false 2000 77 0). split_and!; try done. intros r. cbn [k_res s0]. rewrite !lookup_insert_Some lookup_empty. set_solver.
  - intros [c i] t. rewrite /ent. cbn [zts s0 fst snd]. destruct (decide (c = 0%nat)) as [->|Hn]; [|by rewrite lookup_singleton_ne].
    rewrite lookup_singleton_eq. destruct i; [by eexists|done].
  - intros r k. cbn [k_res s0]. rewrite !lookup_insert_Some lookup_empty. intros Hr.
    assert (k = k00) as -> by (rewrite /k00; naive_solver). by eexists.
  - done.
Qed.
Lemma stop_all_ends_witness : exists n, at_pc (run_ex n) = SDone.
Proof.
  destruct (stop_all_ends count_cmd (fun _ => True) 1 1 wakes_chan (le_n _) count_serves wakes_chan_broken run_ex act_ex run_ex_start run_ex_steps run_ex_fair) as (n & Hn & _).
  exists n. exact Hn.
Defined.

(** Two threads that wait; an operation arrives at the first one when the stop begins: it
    sees its flag and closes its descriptor before the stop breaks the channel with it: the
    break is not heard. *)
Definition h0 : ztp_state nat := ZtpState
  {[inl 5 := Some (0%nat, 0%nat); inr (1000, 2 ^ 20) := Some (0%nat, 0%nat); inr (2000, ZUS_MAX_OP_SIZE) := Some (0%nat, 0%nat);
    inl 6 := Some (0%nat, 1%nat); inr (3000, 2 ^ 20) := Some (0%nat, 1%nat); inr (4000, ZUS_MAX_OP_SIZE) := Some (0%nat, 1%nat)]}
  {[5 := 0%nat; 6 := 0%nat]} [] {[2000 := ZufsIocHdr 0 0 0 0; 4000 := ZufsIocHdr 0 0 0 0]}
  {[0%nat := [ZuThread 5 1000 false 2000 77 0; ZuThread 6 3000 false 4000 78 0]]} 0%nat.
Definition k01 : zkey := (0%nat, 1%nat).
Definition pcs0 : gmap zkey zt_pc := {[k00 := PWait 2000; k01 := PWait 4000]}.
Definition an_op : wait_answer := WaitAnswer 0 (Some (ZufsIocHdr 0 0 1 0)).
Definition h1 := snd_or (zuf_wait_opt k00 2000 an_op h0) h0.
Definition h2 := snd_or (set_zt k00 set_stop h1) h1.
Definition h3 := snd_or (zt_serve count_cmd k00 2000 h2) h2.
Definition h4 := snd_or (zt_exit k00 2000 h3) h3.
Definition h5 := snd_or (set_zt k01 set_stop h4) h4.
Definition h6 := snd_or ((t ← get_zt k00; zuf_break_all (zt_fd t)) h5) h5.
Definition h7 := snd_or (set_zt k00 set_joined h6) h6.
Definition hung : run_state nat := RunState h7 (<[k00 := PGone true]> (<[k00 := PLoop 2000]> (<[k00 := PServe 2000]> pcs0))) (SJoin 0 1).
Definition any_step (x x' : run_state nat) : Prop := exists a, stop_step count_cmd 2 1 wakes_chan a x x'.
Lemma hung_start : stop_start (fun _ => True) 2 1 (RunState h0 pcs0 (SChan 0)).
Proof.
  split; cbn [sh pcs at_pc].
  - done.
  - intros c l. cbn [zts h0]. rewrite lookup_singleton_Some. intros [<- <-]. cbn. lia.
  - intros k pc. rewrite /pcs0 lookup_insert_Some lookup_singleton_Some. intros [[<- <-]|[_ [<- <-]]]; (split; [by eexists|]).
    + exists (ZuThread 5 1000 false 2000 77 0). split_and!; try done. intros r. cbn [k_res h0]. rewrite !lookup_insert_Some lookup_empty /k00. set_solver.
    + exists (ZuThread 6 3000 false 4000 78 0). split_and!; try done. intros r. cbn [k_res h0]. rewrite !lookup_insert_Some lookup_empty /k01. set_solver.
  - intros [c i] t. rewrite /ent. cbn [zts h0 fst snd]. destruct (decide (c = 0%nat)) as [->|Hn]; [|by rewrite lookup_singleton_ne].
    rewrite lookup_singleton_eq. destruct i as [|[|i]]; [by eexists..|done].
  - intros r k. cbn [k_res h0]. rewrite !lookup_insert_Some lookup_empty. intros Hr.
    assert (k = k00 \/ k = k01) as [-> | ->] by (rewrite /k00 /k01; naive_solver); by eexists.
  - done.
Qed.
Lemma hung_reached : rtc any_step (RunState h0 pcs0 (SChan 0)) hung.
Proof.
  eapply rtc_l; [exists AMain; by apply (ss_chan _ _ _ _ _ _ _ [ZuThread 5 1000 false 2000 77 0; ZuThread 6 3000 false 4000 78 0]); [lia|]|].
  eapply rtc_l; [exists (AKernel k00); by apply (ss_operation _ _ _ _ h0 h1 pcs0 (SFlag 0 0) k00 2000 an_op)|].
  eapply rtc_l; [exists AMain; apply (ss_flag _ _ _ _ h1 h2); [lia|done]|].
  eapply rtc_l; [exists (AThread k00); by apply (ss_serve _ _ _ _ h2 h3 _ _ k00 2000 0)|].
  eapply rtc_l; [exists (AThread k00); by apply (ss_exit _ _ _ _ h3 h4 _ _ k00 2000 (ZuThread 5 1000 true 2000 77 0))|].
  eapply rtc_l; [exists AMain; apply (ss_flag _ _ _ _ h4 h5); [lia|done]|].
  eapply rtc_l; [exists AMain; apply ss_flags_end; lia|].
  eapply rtc_l; [exists AMain; by apply (ss_break _ _ _ _ h5 h6)|].
  eapply rtc_l; [exists AMain; by apply (ss_join _ _ _ _ h6 h7 _ 0%nat 0%nat (ZuThread (-1) 0 true 2000 77 0) true); [lia|..]|].
  apply rtc_refl.
Qed.
Lemma hung_pcs k pc : pcs hung !! k = Some pc -> k = k00 /\ pc = PGone true \/ k = k01 /\ pc = PWait 4000.
Proof. cbn [hung pcs]. rewrite /pcs0 !lookup_insert_Some lookup_empty. naive_solver. Qed.
(** When the break is not heard the stop can wait for ever: the second thread sleeps in the kernel,
    nobody will break its channel, and the stop joins it. *)
Lemma stop_can_hang : exists x0 x, stop_start (fun _ => True) 2 1 x0 /\ rtc any_step x0 x /\ at_pc x = SJoin 0 1 /\
  forall a, (forall k, a <> AKernel k) -> ~ enabled count_cmd 2 1 wakes_chan a x.
Proof.
  exists (RunState h0 pcs0 (SChan 0)), hung. split_and!; [exact hung_start|exact hung_reached|done|].
  intros a Ha [x' Hst]. inversion Hst as [| | | | |s p c i t Hi Et Et0|s s' p c i t ok Hi Et Et0 Hg Hrun|s p c i Hle| | |s s' p m k an o Hk Hans Hrun|s p m k op t Hk|s s' p m k op t Hk|s s' p m k op an Hk Hw|s s' p m k op an Hk|s s' p m k op e Hk]; subst;
    try (destruct (hung_pcs _ _ Hk) as [[-> E]|[-> E]]; first [done|injection E as ->]).
  - change (ent h7 (0%nat, 1%nat)) with (Some (ZuThread 6 3000 true 4000 78 0)) in Et. injection Et as <-. discriminate Et0.
  - destruct (hung_pcs _ _ Hg) as [[[=] _]|[_ [=]]].
  - lia.
  - by destruct (Ha k01).
Qed.
End example.
