(* ===== verification/T2.v ===== *)
(** * Tier-2 IO of multi-devices: the end of md_zus.c, the buffer of zus-core.c

    The device table is written to and read from the tier-2 devices by IO maps that the
    kernel executes; the map lies in a buffer that is allocated once. *)

From S2P Require Import Prelude State Iom Fba Md MdSpec.

(** ** State *)
(** What the calls of the kernel answer while the buffer is allocated. *)
Record buf_answers := BufAnswers { b_open : Z + Z; b_ioctl : Z; b_mmap : Z + Z }.
(** What ZU_IOC_IOMAP_EXEC does: its result, errno, the error in the header, and the memory
    and the devices behind it. *)
Record exec_answer := ExecAnswer { e_ret : Z; e_errno : Z; e_hdr : Z; e_mem : gmap Z md_dev_table; e_disk : gmap Z md_dev_table }.
(** md.h and md_def.h: the devices of tier 2, the field id_index, which is one of the bytes
    under the checksum; the kernel. *)
Class T2Api : Type := {
  md_t2_dev : multi_devices -> Z -> md_dev_info;
  set_id_index : Z -> md_dev_table -> md_dev_table;
  MAP_FAILED : Z;
  sys_exec : list Z -> gmap Z md_dev_table -> gmap Z md_dev_table -> exec_answer }.
(** [t2_mem] are the tables in memory by their address, [t2_disk] those on the devices by
    their block; [io_words] is the map in the buffer. *)
Record t2_state := T2State { t2_fds : gset Z; t2_maps : gset (Z * Z); g_io_fba : fba; io_words : list Z; t2_mem : gmap Z md_dev_table; t2_disk : gmap Z md_dev_table }.
Definition upd_t2_fds (f : gset Z -> gset Z) (s : t2_state) : t2_state := T2State (f (t2_fds s)) (t2_maps s) (g_io_fba s) (io_words s) (t2_mem s) (t2_disk s).
Definition upd_t2_maps (f : gset (Z * Z) -> gset (Z * Z)) (s : t2_state) : t2_state := T2State (t2_fds s) (f (t2_maps s)) (g_io_fba s) (io_words s) (t2_mem s) (t2_disk s).
Definition upd_g_io_fba (f : fba -> fba) (s : t2_state) : t2_state := T2State (t2_fds s) (t2_maps s) (f (g_io_fba s)) (io_words s) (t2_mem s) (t2_disk s).
Definition upd_io_words (f : list Z -> list Z) (s : t2_state) : t2_state := T2State (t2_fds s) (t2_maps s) (g_io_fba s) (f (io_words s)) (t2_mem s) (t2_disk s).
Definition upd_t2_mem (f : gmap Z md_dev_table -> gmap Z md_dev_table) (s : t2_state) : t2_state := T2State (t2_fds s) (t2_maps s) (g_io_fba s) (io_words s) (f (t2_mem s)) (t2_disk s).
Definition upd_t2_disk (f : gmap Z md_dev_table -> gmap Z md_dev_table) (s : t2_state) : t2_state := T2State (t2_fds s) (t2_maps s) (g_io_fba s) (io_words s) (t2_mem s) (f (t2_disk s)).
Notation T2M := (ST t2_state).

Section t2.
Context `{MdApi} `{DevApi} `{IomApi} `{T2Api}.

(** ** The buffer *)
Definition set_fba_fd (fd : Z) (f : fba) : fba := Fba fd (fba_ptr f) (fba_size f).
Definition set_fba_ptr (p : Z) (f : fba) : fba := Fba (fba_fd f) p (fba_size f).
Definition set_fba_size (n : Z) (f : fba) : fba := Fba (fba_fd f) (fba_ptr f) n.
Definition fba_root_close : T2M unit :=
  f ← gets g_io_fba;
  if 0 <=? fba_fd f then modify (upd_t2_fds (fun s => s ∖ {[fba_fd f]}));; modify (upd_g_io_fba (set_fba_fd (-1))) else mret tt.
(** The buffer is mapped with zeros: its words. *)
Definition _alloc_buff_mmap (a : Z + Z) : T2M Z :=
  f ← gets g_io_fba;
  match a with
  | inl errno => modify (upd_g_io_fba (set_fba_ptr MAP_FAILED));; mret (- (if errno =? 0 then ENOMEM else errno))
  | inr p => modify (upd_t2_maps (fun m => {[(p, fba_size f)]} ∪ m));; modify (upd_g_io_fba (set_fba_ptr p));;
             modify (upd_io_words (fun _ => replicate (Z.to_nat ((fba_size f - off_exec_iom_e) / 8)) 0));; mret 0
  end.
(** The label [error]. *)
Definition exec_buff_error (err : Z) : T2M Z := fba_root_close;; mret err.
Definition zus_alloc_exec_buff (max_bytes : Z) (a : buf_answers) : T2M Z :=
  match b_open a with
  | inl errno => modify (upd_g_io_fba (set_fba_fd (-1)));; mret (- errno)
  | inr fd =>
    modify (upd_t2_fds (fun s => {[fd]} ∪ s));; modify (upd_g_io_fba (set_fba_fd fd));;
    if negb (b_ioctl a =? 0) then exec_buff_error (b_ioctl a) else
    modify (upd_g_io_fba (set_fba_size max_bytes));;
    err ← _alloc_buff_mmap (b_mmap a);
    if negb (err =? 0) then exec_buff_error err else mret 0
  end.
Definition _init_g_fba (a : buf_answers) : T2M Z :=
  f ← gets g_io_fba;
  if negb (fba_fd f =? 0) then mret 0 else zus_alloc_exec_buff PAGE_SIZE a.

(** ** Maps *)
Definition zero_build : zus_iomap_build := ZusIomapBuild 0 0 0 0 [] false false.
(** The map is written through the buffer's pointer: it must be mapped. *)
Definition _iomb_start (a : buf_answers) : T2M (Z * zus_iomap_build) :=
  err ← _init_g_fba a;
  if negb (err =? 0) then mret (err, zero_build) else
  f ← gets g_io_fba;
  maps ← gets t2_maps;
  assert (bool_decide ((fba_ptr f, fba_size f) ∈ maps));;
  ws ← gets io_words;
  r ← of_option (_zus_iom_start true (_zus_iom_init_4_ioc_exec ws PAGE_SIZE));
  mret (0, r.2).
(** The error of the builder; [done] prints it. *)
Definition _zus_iom_ioc_exec_submit (b : zus_iomap_build) : T2M Z :=
  r ← of_option (_zus_iom_end b);
  modify (upd_io_words (fun _ => words r.2));;
  m ← gets t2_mem; d ← gets t2_disk;
  let a := sys_exec (take (Z.to_nat (iom_n r.2)) (words r.2)) m d in
  modify (upd_t2_mem (fun _ => e_mem a));; modify (upd_t2_disk (fun _ => e_disk a));;
  let err := if negb (e_ret a =? 0) then - e_errno a else e_hdr a in
  mret (if negb (err =? 0) && (e_hdr a =? 0) then - e_errno a else e_hdr a).

Definition md_t2_mdt_read (md : multi_devices) (dev_index mdt : Z) (a : buf_answers) : T2M Z :=
  r ← _iomb_start a;
  if negb (r.1 =? 0) then mret r.1 else
  e ← of_option (_zus_iom_enc_t2_zusmem_read 0 mdt PAGE_SIZE r.2);
  _zus_iom_ioc_exec_submit e.2.
Definition set_sum (sum : Z) (t : md_dev_table) : md_dev_table := MdDevTable sum (s_static t) (s_magic t) (s_uuid t) (s_dev_list t).
(** The table as device [i] of tier 2 gets it. *)
Definition stamp (i : Z) (t : md_dev_table) : md_dev_table :=
  let t := set_id_index (t1_count (s_dev_list t) + i) t in set_sum (md_calc_csum t) t.
(** The loop from [i] on, [n] rounds. *)
Fixpoint write_loop (n : nat) (i : Z) (md : multi_devices) (mdt : Z) (a : buf_answers) : T2M Z :=
  match n with
  | O => mret 0
  | S k =>
    let bn := md_o2p (d_offset (md_t2_dev md i)) in
    r ← _iomb_start a;
    if negb (r.1 =? 0) then mret r.1 else
    update t2_mem upd_t2_mem mdt (stamp i);;
    e ← of_option (_zus_iom_enc_t2_zusmem_write bn mdt PAGE_SIZE r.2);
    err ← _zus_iom_ioc_exec_submit e.2;
    if negb (err =? 0) then mret err else write_loop k (i + 1) md mdt a
  end.
Definition md_t2_mdt_write (md : multi_devices) (mdt : Z) (a : buf_answers) : T2M Z := write_loop (Z.to_nat (m_t2_count md)) 0 md mdt a.
End t2.
