(* ===== verification/T2Spec.v ===== *)
(** * What the tier-2 IO of multi-devices promises

    The table that is written is on every device of tier 2, each with its own index and the
    checksum for it; the buffer is allocated all or nothing. *)

From S2P Require Import Prelude State Iom Fba Md MdSpec T2.

(** What is relied on: the kernel executes the maps of one operation, when it answers
    success; the setter of id_index sets that and no other field that is looked at; a page
    has room for an operation. *)
Class T2Laws `{MdApi} `{DevApi} `{IomApi} `{!T2Api} : Prop := {
  exec_write bn ptr m d t : m !! ptr = Some t ->
    let a := sys_exec (op_words (ZusmemWrite bn ptr PAGE_SIZE)) m d in
    e_ret a = 0 -> e_hdr a = 0 -> e_mem a = m /\ e_disk a = <[bn := t]> d;
  exec_read bn ptr m d t : d !! bn = Some t ->
    let a := sys_exec (op_words (ZusmemRead bn ptr PAGE_SIZE)) m d in
    e_ret a = 0 -> e_hdr a = 0 -> e_mem a = <[ptr := t]> m /\ e_disk a = d;
  exec_errno ws m d : e_ret (sys_exec ws m d) <> 0 -> 0 < e_errno (sys_exec ws m d);
  set_id_index_list i t : s_dev_list (set_id_index i t) = MdDevList i (t1_count (s_dev_list t)) (t2_count (s_dev_list t)) (rmem_count (s_dev_list t)) (dev_ids (s_dev_list t));
  set_id_index_over i j sum t : set_id_index j (set_sum sum (set_id_index i t)) = set_sum sum (set_id_index j t);
  set_id_index_magic i t : s_magic (set_id_index i t) = s_magic t;
  set_id_index_uuid i t : s_uuid (set_id_index i t) = s_uuid t;
  version_stamp i sum t : mdt_major_version (set_sum sum (set_id_index i t)) = mdt_major_version t /\ mdt_minor_version (set_sum sum (set_id_index i t)) = mdt_minor_version t;
  off_exec_page : 0 <= off_exec_iom_e /\ off_exec_iom_e + 32 <= PAGE_SIZE /\ off_exec_iom_e mod 8 = 0 }.

Section spec.
Context `{MdApi} `{DevApi} `{IomApi} `{!T2Api} `{!T2Laws}.

(** ** The buffer *)
Definition page_words : Z := (PAGE_SIZE - off_exec_iom_e) / 8.
(** The buffer is there; it is not yet, and the kernel will give it. *)
Definition ready (s : t2_state) : Prop :=
  fba_fd (g_io_fba s) <> 0 /\ (fba_ptr (g_io_fba s), fba_size (g_io_fba s)) ∈ t2_maps s /\ Z.of_nat (length (io_words s)) = page_words.
Definition answers_all (a : buf_answers) : Prop := (exists fd, b_open a = inr fd /\ 0 < fd) /\ b_ioctl a = 0 /\ exists p, b_mmap a = inr p.
Definition can_start (a : buf_answers) (s : t2_state) : Prop := ready s \/ fba_fd (g_io_fba s) = 0 /\ answers_all a.
Lemma page_words_ge : 4 <= page_words.
Proof. pose proof off_exec_page. rewrite /page_words. apply Z.div_le_lower_bound; lia. Qed.
(** What the calls do not touch. *)
Definition same_tables (s s' : t2_state) : Prop := t2_mem s' = t2_mem s /\ t2_disk s' = t2_disk s.

Lemma wp_exec_buff a s : answers_all a -> wp (zus_alloc_exec_buff PAGE_SIZE a) s (fun err s' => err = 0 /\ ready s' /\ same_tables s s').
Proof.
  intros ((fd & Eo & Hfd) & Ei & p & Em). rewrite /zus_alloc_exec_buff Eo. do 4 wp_step. rewrite Ei. cbn [Z.eqb negb]. rewrite /_alloc_buff_mmap Em. wp_steps.
  cbn [Z.eqb negb]. wp_steps. split_and!; try done. split_and!; cbn; [lia|set_solver|].
  rewrite length_replicate Z2Nat.id //. change ((PAGE_SIZE - off_exec_iom_e) / 8) with page_words. pose proof page_words_ge. lia.
Qed.


(** ** Maps *)
(** The map of one operation: its words and nothing else. *)
Lemma build_one ws o : Z.of_nat (length ws) = page_words -> (length (op_words o) <= 3)%nat ->
  exists b0 b1 b2, _zus_iom_start true (_zus_iom_init_4_ioc_exec ws PAGE_SIZE) = Some (tt, b0) /\ enc_op o b0 = Some (0, b1) /\ _zus_iom_end b1 = Some (tt, b2) /\
    take (Z.to_nat (iom_n b2)) (words b2) = op_words o /\ length (words b2) = length ws.
Proof.
  intros Hws Ho. pose proof page_words_ge as Hpw. destruct off_exec_page as (Hoff1 & Hoff2 & Hoff3).
  assert (Hend : 8 * page_words = PAGE_SIZE - off_exec_iom_e).
  { symmetry. apply Z.div_exact; [done|]. by rewrite Zminus_mod Hoff3. }
  destruct (wp_exists (_zus_iom_start true) (_zus_iom_init_4_ioc_exec ws PAGE_SIZE) (fun _ b => iom_ok b /\ cur_iom_e b = 0 /\ end_iom_e b = 8 * page_words /\ length (words b) = length ws))
    as ([] & b0 & E0 & Hok & Hc & He & Hl).
  { rewrite /_zus_iom_start. do 4 wp_step. apply wp_bind, wp_put_word; [cbn; lia|]. wp_step. rewrite /iom_ok /=. rewrite length_insert. lia. }
  destruct (wp_exists (enc_op o) b0 (fun r b => r = 0 /\ appended b0 b (op_words o) /\ iom_ok b)) as (r & b1 & E1 & -> & Hap & Hok1).
  { apply wp_enc_op; [done|intros Hn; lia|by intros b' ? ?]. }
  destruct Hap as (A1 & A2 & _ & A4 & A5). rewrite Hc in A1, A5. change (Z.to_nat 0) with 0%nat in A5. rewrite take_0 app_nil_l in A5.
  destruct (wp_exists _zus_iom_end b1 (fun _ b => take (Z.to_nat (iom_n b)) (words b) = op_words o /\ length (words b) = length ws)) as ([] & b2 & E2 & Hw & Hl2).
  { rewrite /_zus_iom_end /_zus_iom_len. do 4 wp_step. rewrite (proj2 (Z.ltb_lt _ _)); [lia|]. rewrite /_zus_iom_enc_type_val. apply wp_bind, wp_put_word; [lia|]. wp_steps. cbn.
    rewrite length_insert A4 Hl. split; [|done]. rewrite take_insert_ge //. }
  by exists b0, b1, b2.
Qed.
Lemma wp_iomb_start a s (Q : Z * zus_iomap_build -> t2_state -> Prop) : can_start a s ->
  (forall s', ready s' -> same_tables s s' -> forall ws b, Z.of_nat (length ws) = page_words -> _zus_iom_start true (_zus_iom_init_4_ioc_exec ws PAGE_SIZE) = Some (tt, b) -> Q (0, b) s') ->
  wp (_iomb_start a) s Q.
Proof.
  intros Hc HQ. rewrite /_iomb_start. apply wp_bind. apply (wp_mono _ _ (fun err s' => err = 0 /\ ready s' /\ same_tables s s')).
  { rewrite /_init_g_fba. do 2 wp_step. destruct Hc as [Hr|[E0 Ha]].
    - rewrite (proj2 (Z.eqb_neq _ _) (proj1 Hr)). cbn [negb]. wp_step. by split_and!.
    - rewrite E0. cbn [Z.eqb negb]. by apply wp_exec_buff. }
  intros err s' (-> & Hr & Hs). cbn [Z.eqb negb]. do 4 wp_step. destruct (Hr) as (_ & Hm & Hw).
  destruct (build_one (io_words s') Wbinv Hw ltac:(cbn; lia)) as (b & _ & _ & E & _).
  wp_step. wp_step; [by apply bool_decide_eq_true|]. do 2 wp_step. apply wp_bind. rewrite E. apply wp_ret, wp_ret. by apply (HQ s' Hr Hs (io_words s')).
Qed.

(** Submitting the map of one operation; its error, and when there is none. *)
Definition exec_err (x : exec_answer) : Z :=
  let err := if negb (e_ret x =? 0) then - e_errno x else e_hdr x in if negb (err =? 0) && (e_hdr x =? 0) then - e_errno x else e_hdr x.
Lemma exec_err_zero ws m d : exec_err (sys_exec ws m d) = 0 <-> e_ret (sys_exec ws m d) = 0 /\ e_hdr (sys_exec ws m d) = 0.
Proof.
  pose proof (exec_errno ws m d) as He. rewrite /exec_err. destruct (Z.eqb_spec (e_ret (sys_exec ws m d)) 0) as [E|E]; cbn [negb].
  - destruct (Z.eqb_spec (e_hdr (sys_exec ws m d)) 0); cbn [negb andb]; lia.
  - specialize (He E). rewrite (proj2 (Z.eqb_neq _ 0)); [lia|]. cbn [negb andb]. destruct (Z.eqb_spec (e_hdr (sys_exec ws m d)) 0); lia.
Qed.
Lemma wp_submit o ws b s (Q : Z -> t2_state -> Prop) : ready s -> Z.of_nat (length ws) = page_words -> (length (op_words o) <= 3)%nat ->
  _zus_iom_start true (_zus_iom_init_4_ioc_exec ws PAGE_SIZE) = Some (tt, b) ->
  (forall s', let x := sys_exec (op_words o) (t2_mem s) (t2_disk s) in ready s' -> t2_mem s' = e_mem x -> t2_disk s' = e_disk x -> Q (exec_err x) s') ->
  wp (e ← of_option (enc_op o b); _zus_iom_ioc_exec_submit e.2) s Q.
Proof.
  intros Hr Hws Ho Eb HQ. destruct (build_one ws o Hws Ho) as (b0 & b1 & b2 & E0 & E1 & E2 & Hw & Hl). rewrite Eb in E0. injection E0 as <-.
  rewrite E1. apply wp_bind, wp_ret. rewrite /_zus_iom_ioc_exec_submit. cbn [snd]. rewrite E2. apply wp_bind, wp_ret. cbn [snd]. wp_steps. rewrite Hw. apply HQ; try done.
  destruct Hr as (R1 & R2 & R3). split_and!; [done|done|]. cbn. by rewrite Hl.
Qed.

(** ** Writing and reading tables *)
Lemma stamp_over i j t : stamp j (stamp i t) = stamp j t.
Proof.
  rewrite /stamp. cbn [s_dev_list set_sum]. rewrite set_id_index_list. cbn [t1_count]. rewrite set_id_index_over. done.
Qed.
Definition bn_of (md : multi_devices) (i : Z) : Z := md_o2p (d_offset (md_t2_dev md i)).
Definition bns (md : multi_devices) (i : Z) (n : nat) : list Z := bn_of md <$> seqZ i (Z.of_nat n).
Lemma wp_t2_write_loop n i md mdt a s t : can_start a s -> t2_mem s !! mdt = Some t -> NoDup (bns md i n) ->
  wp (write_loop n i md mdt a) s (fun err s' =>
    (err = 0 -> can_start a s' /\ (forall j, i <= j < i + Z.of_nat n -> t2_disk s' !! bn_of md j = Some (stamp j t)) /\
      (forall b, b ∉ bns md i n -> t2_disk s' !! b = t2_disk s !! b)) /\
    ((forall ws m d, e_ret (sys_exec ws m d) = 0 /\ e_hdr (sys_exec ws m d) = 0) -> err = 0)).
Proof.
  revert i s t. induction n as [|n IH]; intros i s t Hc Ht Hnd; cbn [write_loop].
  { wp_step. split; [|done]. intros _. split_and!; [done|intros j Hj; lia|done]. }
  apply wp_bind, wp_iomb_start; [done|]. intros s1 R1 [Em1 Ed1] ws b Hws Eb. cbn [fst snd Z.eqb negb].
  apply wp_bind, (wp_update t2_mem upd_t2_mem mdt _ t); [by rewrite Em1|]. set (s2 := upd_t2_mem _ s1).
  assert (Et2 : t2_mem s2 !! mdt = Some (stamp i t)) by (cbn; by rewrite lookup_insert_eq).
  apply wp_assoc, wp_bind. change (_zus_iom_enc_t2_zusmem_write ?bn ?p ?l b) with (enc_op (ZusmemWrite bn p l) b).
  apply (wp_submit _ ws); [done|done|done|done|]. cbv zeta. fold (bn_of md i). set (x := sys_exec _ _ _). intros s3 R3 Em3 Ed3.
  destruct (Z.eqb_spec (exec_err x) 0) as [Ee|Ee]; cbn [negb].
  2:{ wp_step. split; [done|]. intros Hall. by apply exec_err_zero. }
  apply exec_err_zero in Ee as [Ee1 Ee2]. destruct (exec_write _ _ _ _ _ Et2 Ee1 Ee2) as [Em Ed]. fold x in Em, Ed.
  assert (Hbns : bns md i (S n) = bn_of md i :: bns md (i + 1) n).
  { rewrite /bns seqZ_cons; [lia|]. cbn. do 3 f_equal; lia. }
  rewrite Hbns in Hnd. apply NoDup_cons in Hnd as [Hni Hnd].
  eapply wp_mono; [apply (IH (i + 1) s3 (stamp i t)); [by left|by rewrite Em3 Em|done]|]. cbn beta. intros err s' [He Hall]. split; [|done].
  intros E0. destruct (He E0) as (Hc' & Hd & Hf). split; [done|]. split.
  - intros j Hj. destruct (Z.eq_dec j i) as [->|Hn]; [|rewrite Hd; [lia|]; by rewrite stamp_over].
    rewrite Hf // Ed3 Ed. by rewrite lookup_insert_eq.
  - intros b' Hb'. rewrite Hbns in Hb'. apply not_elem_of_cons in Hb' as [Hb1 Hb2]. rewrite Hf // Ed3 Ed lookup_insert_ne //. cbn. by rewrite Ed1.
Qed.
Lemma wp_mdt_read md dev_index ptr a s t : can_start a s -> t2_disk s !! 0 = Some t ->
  wp (md_t2_mdt_read md dev_index ptr a) s (fun err s' =>
    (err = 0 -> can_start a s' /\ t2_mem s' !! ptr = Some t /\ t2_disk s' = t2_disk s) /\
    ((forall ws m d, e_ret (sys_exec ws m d) = 0 /\ e_hdr (sys_exec ws m d) = 0) -> err = 0)).
Proof.
  intros Hc Ht. apply wp_bind, wp_iomb_start; [done|]. intros s1 R1 [Em1 Ed1] ws b Hws Eb. cbn [fst snd Z.eqb negb].
  change (_zus_iom_enc_t2_zusmem_read ?bn ?p ?l b) with (enc_op (ZusmemRead bn p l) b).
  apply (wp_submit _ ws); [done|done|done|done|]. cbv zeta. set (x := sys_exec _ _ _). intros s3 R3 Em3 Ed3. split; [|intros Hall; by apply exec_err_zero].
  intros [Ee1 Ee2]%exec_err_zero. destruct (exec_read 0 ptr (t2_mem s1) (t2_disk s1) t) as [Em Ed]; [by rewrite Ed1|done|done|]. fold x in Em, Ed.
  split_and!; [by left|rewrite Em3 Em; by rewrite lookup_insert_eq|by rewrite Ed3 Ed Ed1].
Qed.

(** A table of which each device can have its copy. *)
Definition table_ok (mc : mdt_check) (t : md_dev_table) : Prop :=
  let l := s_dev_list t in
  s_magic t = mc_magic mc /\ mc_major_ver mc = u32 (mdt_major_version t) /\ u32 (mdt_minor_version t) <= mc_minor_ver mc /\
  0 <= t1_count l /\ 0 <= t2_count l /\ 0 <= rmem_count l /\ Z.of_nat (length (dev_ids l)) = t1_count l + t2_count l + rmem_count l /\
  Forall (fun id => md_p2o (__dev_id_blocks id) <> 0 /\ Z.land (md_p2o (__dev_id_blocks id)) (mc_alloc_mask mc) = 0) (dev_ids l).
Lemma stamp_accepted mc t i : table_ok mc t -> 0 <= i < t2_count (s_dev_list t) -> md_mdt_check (stamp i t) (Some t) mc = Some true.
Proof.
  intros (K1 & K2 & K3 & K4 & K5 & K6 & K7 & K8) Hi. apply mdt_check_accepts. rewrite /stamp. cbv zeta.
  destruct (version_stamp (t1_count (s_dev_list t) + i) (md_calc_csum (set_id_index (t1_count (s_dev_list t) + i) t)) t) as [-> ->].
  cbn [s_magic s_dev_list s_uuid s_sum set_sum]. rewrite set_id_index_magic set_id_index_uuid set_id_index_list. cbn [t1_count t2_count rmem_count id_index dev_ids].
  split_and!; try done; try lia.
  - intros m [= <-]. split_and!; try done. intros j Hj. destruct (lookup_lt_is_Some_2 (dev_ids (s_dev_list t)) j) as [d Ed]; [lia|]. by exists d, d.
  - destruct (lookup_lt_is_Some_2 (dev_ids (s_dev_list t)) (Z.to_nat (t1_count (s_dev_list t) + i))) as [d Ed]; [lia|]. exists d. split; [done|].
    by apply (proj1 (Forall_lookup _ _) K8 _ _ Ed).
Qed.

(** C26: the device table on tier 2.  When [md_t2_mdt_write] succeeds, every tier-2 device has
    the table in its first block, with its own index and the checksum for that, and
    [md_mdt_check] accepts each of the copies against the main table; no other block has
    changed.  [md_t2_mdt_read] answers one of them - that of the first device, whichever
    device was asked for.  Both succeed when the kernel does. *)
Theorem mdt_write_read (md : multi_devices) (mdt dev_index ptr : Z) (a : buf_answers) (s : t2_state) (t : md_dev_table) (mc : mdt_check) :
  can_start a s -> t2_mem s !! mdt = Some t -> table_ok mc t -> m_t2_count md = t2_count (s_dev_list t) ->
  NoDup (bns md 0 (Z.to_nat (m_t2_count md))) -> 0 < m_t2_count md -> bn_of md 0 = 0 ->
  wp (err ← md_t2_mdt_write md mdt a; err' ← (if err =? 0 then md_t2_mdt_read md dev_index ptr a else mret err); mret (err, err')) s (fun r s' =>
    (r.1 = 0 -> r.2 = 0 ->
      (forall i, 0 <= i < m_t2_count md -> t2_disk s' !! bn_of md i = Some (stamp i t) /\ md_mdt_check (stamp i t) (Some t) mc = Some true) /\
      (forall b, b ∉ bns md 0 (Z.to_nat (m_t2_count md)) -> t2_disk s' !! b = t2_disk s !! b) /\
      t2_mem s' !! ptr = Some (stamp 0 t)) /\
    ((forall ws m d, e_ret (sys_exec ws m d) = 0 /\ e_hdr (sys_exec ws m d) = 0) -> r = (0, 0))).
Proof.
  intros Hc Ht Hok Hcnt Hnd Hpos Hb0. apply wp_bind. eapply wp_mono; [by apply (wp_t2_write_loop _ 0 md mdt a s t)|]. cbn beta. intros err s1 [Hw Hall]. rewrite Z2Nat.id in Hw; [lia|].
  destruct (Z.eqb_spec err 0) as [->|Hne]; [|apply wp_bind, wp_ret, wp_ret; split; [done|intros Hx; by destruct (Hne (Hall Hx))]].
  destruct (Hw eq_refl) as (Hc1 & Hd & Hf). apply wp_bind.
  eapply wp_mono; [apply (wp_mdt_read md dev_index ptr a s1 (stamp 0 t) Hc1)|].
  { pose proof (Hd 0 ltac:(lia)) as E. by rewrite Hb0 in E. }
  cbn beta. intros err' s2 [Hr Hall']. apply wp_ret. cbn [fst snd]. split; [|intros Hx; by rewrite (Hall' Hx)].
  intros _ E. destruct (Hr E) as (_ & Hm & Ed). rewrite Ed. split_and!; [|done|done].
  intros i Hi. split; [by apply Hd|]. apply stamp_accepted; [done|lia].
Qed.

(** ** Errors *)
(** The buffer is allocated all or nothing: after an error its descriptor is closed and
    nothing is mapped. *)
Lemma exec_buff_all_or_nothing max_bytes a s :
  match b_open a with inl e => 0 < e | inr fd => 0 <= fd /\ fd ∉ t2_fds s end -> match b_mmap a with inl e => 0 <= e | inr _ => True end ->
  wp (zus_alloc_exec_buff max_bytes a) s (fun err s' =>
    (err <> 0 -> fba_fd (g_io_fba s') = -1 /\ t2_fds s' = t2_fds s /\ t2_maps s' = t2_maps s) /\
    (err = 0 -> exists fd p, b_open a = inr fd /\ b_mmap a = inr p /\ g_io_fba s' = Fba fd p max_bytes /\ t2_fds s' = {[fd]} ∪ t2_fds s /\ t2_maps s' = {[(p, max_bytes)]} ∪ t2_maps s)).
Proof.
  intros Ho Hm. rewrite /zus_alloc_exec_buff. destruct (b_open a) as [e|fd]; [wp_steps; split; [done|lia]|]. destruct Ho as [Hfd Hfr]. do 4 wp_step.
  assert (Hcl : forall t2 e, t2_fds t2 = {[fd]} ∪ t2_fds s -> fba_fd (g_io_fba t2) = fd -> t2_maps t2 = t2_maps s -> e <> 0 ->
    wp (exec_buff_error e) t2 (fun err s' => (err <> 0 -> fba_fd (g_io_fba s') = -1 /\ t2_fds s' = t2_fds s /\ t2_maps s' = t2_maps s) /\
      (err = 0 -> exists fd' p, (inr fd : Z + Z) = inr fd' /\ b_mmap a = inr p /\ g_io_fba s' = Fba fd' p max_bytes /\ t2_fds s' = {[fd']} ∪ t2_fds s /\ t2_maps s' = {[(p, max_bytes)]} ∪ t2_maps s))).
  { intros t2 e E1 E2 E3 Hne. rewrite /exec_buff_error /fba_root_close. do 3 wp_step. rewrite E2 (proj2 (Z.leb_le _ _) Hfd). wp_steps. split; [|done]. intros _. cbn. rewrite E1 E3. split_and!; [done|set_solver|done]. }
  destruct (Z.eqb_spec (b_ioctl a) 0) as [Ei|Ei]; cbn [negb]; [|by apply Hcl]. do 3 wp_step. rewrite /_alloc_buff_mmap. destruct (b_mmap a) as [e|p].
  - wp_steps. assert (Hn : - (if e =? 0 then ENOMEM else e) <> 0) by (destruct (Z.eqb_spec e 0); rewrite /ENOMEM; lia).
    rewrite (proj2 (Z.eqb_neq _ _) Hn). cbn [negb]. by apply Hcl.
  - wp_steps. cbn [Z.eqb negb]. wp_steps. split; [done|]. intros _. by exists fd, p.
Qed.
(** After an allocation that failed the next call takes the buffer for there: it writes the
    map through a null pointer. *)
Lemma start_after_failure a a' s e : g_io_fba s = Fba 0 0 0 -> t2_maps s = ∅ -> b_open a = inl e -> 0 < e ->
  exists s', _iomb_start a s = Some ((- e, zero_build), s') /\ _iomb_start a' s' = None.
Proof.
  intros Ef Em Eo He. eexists. rewrite /_iomb_start /_init_g_fba /zus_alloc_exec_buff. split.
  - rewrite /mbind /ST_bind /gets /=. rewrite Ef Eo /= /mret /ST_ret /=. rewrite (proj2 (Z.eqb_neq (- e) 0)); [lia|]. done.
  - rewrite /mbind /ST_bind /gets /= Ef /= /mret /ST_ret /=. rewrite Em. done.
Qed.
End spec.

Section example.
#[local] Existing Instance example_md.
#[local] Existing Instance example_dev.
#[local] Instance iom_page : IomApi := {|
  _zufs_iom_enc_type_val t v := v * 8 + t; _zufs_iom_enc_bn bn pool := bn;
  IOM_WBINV := 1; IOM_DISCARD := 2; IOM_UNMAP := 3; IOM_T2_WRITE := 4; IOM_T2_READ := 5; IOM_T2_ZUSMEM_WRITE := 6;
  IOM_T2_ZUSMEM_READ := 7; off_exec_iom_e := 64; off_io_iom_e := 128 |}.
(** A kernel that executes one operation, and refuses what it does not know. *)
Definition exec_one (ws : list Z) (m d : gmap Z md_dev_table) : exec_answer :=
  match ws with
  | [w; ptr; _] =>
    if w mod 8 =? 6 then match m !! ptr with Some t => ExecAnswer 0 0 0 m (<[w / 8 := t]> d) | None => ExecAnswer (-1) 14 0 m d end
    else match d !! (w / 8) with Some t => ExecAnswer 0 0 0 (<[ptr := t]> m) d | None => ExecAnswer (-1) 14 0 m d end
  | _ => ExecAnswer (-1) 22 0 m d
  end.
#[local] Instance t2_ex : T2Api := {|
  md_t2_dev md i := nth (Z.to_nat (m_t1_count md + i)) (devs md) (MdDevInfo 0 0 0 0 0);
  set_id_index i t := MdDevTable (s_sum t) (i :: tail (s_static t)) (s_magic t) (s_uuid t)
    (MdDevList i (t1_count (s_dev_list t)) (t2_count (s_dev_list t)) (rmem_count (s_dev_list t)) (dev_ids (s_dev_list t)));
  MAP_FAILED := -1; sys_exec := exec_one |}.
#[local] Instance t2_ex_laws : T2Laws.
Proof.
  split; try done.
  - intros bn ptr m d t E. cbn [op_words sys_exec t2_ex exec_one _zufs_iom_enc_type_val iom_page IOM_T2_ZUSMEM_WRITE]. rewrite Z.add_comm Z_mod_plus_full E. change (6 mod 8 =? 6) with true. cbv zeta iota. cbn [e_mem e_disk]. rewrite Z.div_add //.
  - intros bn ptr m d t E. cbn [op_words sys_exec t2_ex exec_one _zufs_iom_enc_type_val iom_page IOM_T2_ZUSMEM_READ]. rewrite Z.add_comm Z_mod_plus_full Z.div_add // E. done.
  - intros ws m d. cbn [sys_exec t2_ex]. rewrite /exec_one. destruct ws as [|w [|p [|x [|y l]]]]; cbn; try lia. destruct (w mod 8 =? 6); repeat case_match; cbn; lia.
Qed.
(** Two devices of tier 2, 16 blocks each. *)
Definition devs_ex : multi_devices :=
  MultiDevices (MdDevList 0 0 2 0 []) 0 0 2 [MdDevInfo 0 0 65536 0 0; MdDevInfo 65536 1 65536 0 0] (MdDevLarray 0 None) (MdDevLarray 0 None).
Definition table_ex : md_dev_table := MdDevTable 0 [0; 5; 6] 7 [9] (MdDevList 0 0 2 0 [MdDevId [1] 16 0; MdDevId [2] 16 0]).
Definition t2_start : t2_state := T2State ∅ ∅ (Fba 0 0 0) [] {[100 := table_ex]} ∅.
Lemma mdt_write_read_witness : exists s',
  (err ← md_t2_mdt_write devs_ex 100 (BufAnswers (inr 4) 0 (inr 8192)); err' ← (if err =? 0 then md_t2_mdt_read devs_ex 1 200 (BufAnswers (inr 4) 0 (inr 8192)) else mret err); mret (err, err')) t2_start = Some ((0, 0), s') /\
  t2_mem s' !! 200 = Some (stamp 0 table_ex) /\ t2_disk s' !! 16 = Some (stamp 1 table_ex).
Proof.
  assert (Hok : table_ok mc_example table_ex).
  { split_and!; try done. repeat constructor; done. }
  assert (Hc : can_start (BufAnswers (inr 4) 0 (inr 8192)) t2_start) by (right; split; [done|split_and!; [by exists 4|done|by exists 8192]]).
  assert (Hnd : NoDup (bns devs_ex 0 (Z.to_nat (m_t2_count devs_ex)))) by (vm_compute; repeat constructor; set_solver).
  destruct (wp_exists _ _ _ (mdt_write_read devs_ex 100 1 200 (BufAnswers (inr 4) 0 (inr 8192)) t2_start table_ex mc_example Hc eq_refl Hok eq_refl Hnd eq_refl eq_refl)) as (r & s' & Hrun & Hpost & _).
  assert (Er : r = (0, 0)).
  { assert (Hv : fst <$> ((err ← md_t2_mdt_write devs_ex 100 (BufAnswers (inr 4) 0 (inr 8192)); err' ← (if err =? 0 then md_t2_mdt_read devs_ex 1 200 (BufAnswers (inr 4) 0 (inr 8192)) else mret err); mret (err, err')) t2_start) = Some (0, 0)) by (vm_compute; reflexivity).
    rewrite Hrun in Hv. by injection Hv. }
  subst r. destruct (Hpost eq_refl eq_refl) as (Hd & _ & Hm). exists s'. split_and!; [exact Hrun|exact Hm|].
  destruct (Hd 1 ltac:(split; [discriminate|reflexivity])) as [Hd1 _]. exact Hd1.
Defined.
End example.
