(* ===== verification/Loader.v ===== *)
(** * Loading file systems: fs-loader.c

    The libraries named by the environment are opened, each registers its file system, and
    their debug messages are added to the registry of Printz.v. *)

From stdpp Require Import strings.
From S2P Require Import Prelude CStr Printz.

Definition EBADF : Z := 9.
(** ** The dynamic linker *)
(** dlopen answers a handle or 0; dlsym for "register_fs", the function by what it answers
    for a descriptor after the calls of such functions so far, the last first, each with its
    handle and descriptor; dlsym for the two ends of the section of messages; calloc. *)
Class DlSys : Type := {
  dlopen : list Z -> Z;
  dl_register : Z -> option (list (Z * Z) -> Z -> Z);
  dl_section : Z -> option Z * option Z;
  dl_calloc : gmap Z module_ddbg -> option Z }.
(** [dl_refs]: the handles that dlopen gave and dlclose did not take back, one for each
    time; [dl_calls]: the calls of [register_fs] so far. *)
Record ldr := Ldr { g_dl_list : list Z; dl_refs : list Z; dl_calls : list (Z * Z); ddbg : ddbg_db }.
Definition upd_dl_list (f : list Z -> list Z) (s : ldr) : ldr := Ldr (f (g_dl_list s)) (dl_refs s) (dl_calls s) (ddbg s).
Definition upd_dl_refs (f : list Z -> list Z) (s : ldr) : ldr := Ldr (g_dl_list s) (f (dl_refs s)) (dl_calls s) (ddbg s).
Definition upd_dl_calls (f : list (Z * Z) -> list (Z * Z)) (s : ldr) : ldr := Ldr (g_dl_list s) (dl_refs s) (f (dl_calls s)) (ddbg s).
Notation LD := (ST ldr).
Fixpoint drop_one (x : Z) (l : list Z) : list Z :=
  match l with [] => [] | y :: l' => if decide (y = x) then l' else y :: drop_one x l' end.
Definition dlclose (h : Z) : LD unit := modify (upd_dl_refs (drop_one h)).
Definition on_ddbg {A} (m : DB A) : LD A := zoom ddbg (fun d s => Ldr (g_dl_list s) (dl_refs s) (dl_calls s) d) m.

Section loader.
Context `{DlSys}.

(** ** One library *)
(** The path is cut to the buffer, silently.  The error and the handle. *)
Definition _try_load_from (path : list Z) : LD (Z * Z) :=
  let h := dlopen (take (Z.to_nat (ZUS_LIBFS_MAX_PATH - 1)) path) in
  if h =? 0 then mret (- ENOENT, 0) else modify (upd_dl_refs (cons h));; mret (0, h).
Definition ZUS_LIBFS_DIR : list Z := chars "/usr/lib/zufs".
(** The label [found]. *)
Definition load_found (fd : Z) (fs_name : list Z) (h : Z) : LD (Z * Z) :=
  match dl_register h with
  | None => dlclose h;; mret (- EBADF, 0)
  | Some register_fn =>
    err ← gets (fun s => register_fn (dl_calls s) fd);
    modify (upd_dl_calls (cons (h, fd)));;
    if negb (err =? 0) then dlclose h;; mret (err, 0) else
    mem ← gets (fun s => dl_calloc (h_mod (ddbg s)));
    on_ddbg (zus_add_module_ddbg fs_name (dl_section h).1 (dl_section h).2 mem);;
    mret (0, h)
  end.
Definition _load_one_fs (fd : Z) (fs_name : list Z) : LD (Z * Z) :=
  r ← _try_load_from (ZUS_LIBFS_DIR ++ chars "/lib" ++ fs_name ++ chars ".so");
  if r.1 =? 0 then load_found fd fs_name r.2 else
  if negb (r.1 =? - ENOENT) then mret (r.1, 0) else
  r ← _try_load_from (chars "lib" ++ fs_name ++ chars ".so");
  if r.1 =? 0 then load_found fd fs_name r.2 else
  if negb (r.1 =? - ENOENT) then mret (r.1, 0) else
  r ← _try_load_from fs_name;
  if r.1 =? 0 then load_found fd fs_name r.2 else mret (r.1, 0).

(** ** All *)
(** [strsep(&s, ",")]: the field, and what [s] points to then. *)
Fixpoint strsep (s : list Z) : list Z * option (list Z) :=
  match s with
  | [] => ([], None)
  | c :: s' => if c =? 44 then ([], Some s') else (c :: (strsep s').1, (strsep s').2)
  end.
(** The loop, with [err] as it is; the slot must exist. *)
Fixpoint load_loop (fuel : nat) (fd : Z) (s : option (list Z)) (lib_no : nat) (err : Z) : LD Z :=
  match s with
  | None => mret err
  | Some s =>
    match fuel with
    | O => abort
    | S k =>
      let p := (strsep s).1 in
      if bool_decide (p = []) then load_loop k fd (strsep s).2 lib_no err else
      r ← _load_one_fs fd p;
      if negb (r.1 =? 0) then mret r.1 else
      l ← gets g_dl_list;
      assert (Nat.ltb lib_no (length l));;
      modify (upd_dl_list (<[lib_no := r.2]>));;
      load_loop k fd (strsep s).2 (S lib_no) r.1
    end
  end.
(** [env]: the variable ZUFS_LIBFS_LIST; [mem]: does strdup succeed? *)
Definition _load_libfs (fd : Z) (env : option (list Z)) (mem : bool) : LD Z :=
  match env with
  | None | Some [] => mret 0
  | Some s => if negb mem then mret (- ENOMEM) else load_loop (S (length s)) fd (Some s) 0 0
  end.
Definition _unload_libfs (h : Z) : LD unit := if negb (h =? 0) then dlclose h else mret tt.
Definition zus_register_all (fd : Z) (env : option (list Z)) (mem : bool) : LD Z :=
  err ← _load_libfs fd env mem;
  if negb (err =? 0) then mret err else mret 0.
Fixpoint unload_slots (l : list Z) : LD unit :=
  match l with [] => mret tt | h :: l' => (if negb (h =? 0) then _unload_libfs h else mret tt);; unload_slots l' end.
Definition zus_unregister_all : LD unit :=
  on_ddbg zus_free_ddbg_db;;
  l ← gets g_dl_list;
  unload_slots l.
End loader.
