(* ===== verification/LoaderSpec.v ===== *)
(** * What the loading of file systems promises

    The libraries at the paths of the names in the environment are loaded, in order and up to
    the first that fails, and unregistering closes exactly what was opened. *)

From stdpp Require Import strings.
From S2P Require Import Prelude Bytes CStr Printz PrintzSpec PrintzRead PrintzInit Loader.

(** ** The fields of a list *)
(** Fields with commas between them. *)
Fixpoint join (parts : list (list Z)) : list Z :=
  match parts with [] => [] | [p] => p | p :: ps => p ++ 44 :: join ps end.
Lemma strsep_last p : 44 ∉ p -> strsep p = (p, None).
Proof. induction p as [|c p IH]; [done|]. intros [Hc Hp]%not_elem_of_cons. cbn [strsep]. rewrite (proj2 (Z.eqb_neq _ _)); [congruence|]. by rewrite IH. Qed.
Lemma strsep_field p s : 44 ∉ p -> strsep (p ++ 44 :: s) = (p, Some s).
Proof. induction p as [|c p IH]; [done|]. intros [Hc Hp]%not_elem_of_cons. cbn [strsep app]. rewrite (proj2 (Z.eqb_neq _ _)); [congruence|]. by rewrite IH. Qed.
(** Every string is such a list. *)
Lemma join_split s : exists parts, s = join parts /\ parts <> [] /\ Forall (fun p => 44 ∉ p) parts.
Proof.
  induction s as [|c s (parts & -> & Hne & Hf)]; [exists [[]]; split_and!; [done|done|repeat constructor; set_solver]|].
  destruct (decide (c = 44)) as [->|Hc].
  - exists ([] :: parts). split_and!; [|done|constructor; [set_solver|done]]. by destruct parts.
  - destruct parts as [|p ps]; [done|]. apply Forall_cons in Hf as [Hp Hps]. exists ((c :: p) :: ps). split_and!; [by destruct ps|done|]. constructor; [set_solver|done].
Qed.

Section spec.
Context `{DlSys}.

(** ** One library *)
Definition paths (name : list Z) : list (list Z) := [ZUS_LIBFS_DIR ++ chars "/lib" ++ name ++ chars ".so"; chars "lib" ++ name ++ chars ".so"; name].
Definition cut (path : list Z) : list Z := take (Z.to_nat (ZUS_LIBFS_MAX_PATH - 1)) path.
(** The registration of a library after [calls]: the calls then, and its error or the
    handle. *)
Definition register (fd : Z) (calls : list (Z * Z)) (h : Z) : list (Z * Z) * (Z + Z) :=
  match dl_register h with
  | None => (calls, inl (- EBADF))
  | Some f => ((h, fd) :: calls, if f calls fd =? 0 then inr h else inl (f calls fd))
  end.
(** The first of the paths that opens; then its registration. *)
Definition resolve (fd : Z) (calls : list (Z * Z)) (name : list Z) : list (Z * Z) * (Z + Z) :=
  match filter (fun h => h <> 0) ((fun p => dlopen (cut p)) <$> paths name) with [] => (calls, inl (- ENOENT)) | h :: _ => register fd calls h end.
(** The registry of messages: at most [n] modules, which exist; the sections of the
    libraries are in memory, and calloc answers what is not in use. *)
Definition sections_in (d : gmap Z _ddebug) : Prop := forall h i j a,
  dl_section h = (Some i, Some j) -> a ∈ section_of i (Z.to_nat (s32 ((j - i) / SIZEOF_DDEBUG))) -> is_Some (d !! a).
Definition db_ok (n : nat) (d : ddbg_db) : Prop :=
  (length (modules d) <= n)%nat /\ NoDup (modules d) /\ (forall m, m ∈ modules d -> m <> 0 /\ is_Some (h_mod d !! m)) /\ sections_in (h_dd d).
Hypothesis calloc_fresh : forall m p, dl_calloc m = Some p -> p <> 0 /\ m !! p = None.

Lemma wp_init_total n iter modd d : is_Some (h_mod d !! modd) -> (forall a, a ∈ section_of iter n -> is_Some (h_dd d !! a)) ->
  wp (init_entries n iter modd) d (fun _ d' => modules d' = modules d /\ (forall a, is_Some (h_dd d !! a) -> is_Some (h_dd d' !! a)) /\ (forall m, is_Some (h_mod d !! m) -> is_Some (h_mod d' !! m))).
Proof.
  revert iter d. induction n as [|n IH]; intros iter d [m Hm] Hs; cbn [init_entries]; [by apply wp_ret|].
  rewrite section_S in Hs. destruct (Hs iter ltac:(by left)) as [e He]. rewrite /_init_ddbg. apply wp_bind. wp_steps; [exact He|exact Hm|].
  set (d1 := upd_h_mod _ _). assert (E1 : modules d1 = modules d) by done.
  assert (E2 : forall a, is_Some (h_dd d !! a) -> is_Some (h_dd d1 !! a)) by (intros a Ha; cbn; rewrite lookup_insert_is_Some'; by right).
  assert (E3 : forall x, is_Some (h_mod d !! x) -> is_Some (h_mod d1 !! x)) by (intros x Hx; cbn; rewrite lookup_insert_is_Some'; by right). clearbody d1.
  eapply wp_mono; [apply (IH _ d1); [apply E3; by exists m|intros a Ha; apply E2, Hs; by right]|]. cbn beta. intros _ d2 (F1 & F2 & F3). rewrite F1 E1. split_and!; auto.
Qed.
Lemma wp_add_module n name h mem d : db_ok n d -> (n < 16)%nat -> mem = dl_calloc (h_mod d) ->
  wp (zus_add_module_ddbg name (dl_section h).1 (dl_section h).2 mem) d (fun _ d' => db_ok (S n) d').
Proof.
  intros (Hl & Hnd & Hm & Hsec) Hn Emem.
  assert (Hsame : db_ok (S n) d) by (split_and!; [lia|done|done|done]). rewrite /zus_add_module_ddbg.
  destruct (ZUS_LIBFS_MAX_PATH <=? Z.of_nat (length name)); [by apply wp_ret|].
  destruct (dl_section h) as [[i|] [j|]] eqn:Es; cbn [fst snd]; try (by apply wp_ret).
  do 3 wp_step. wp_step; [apply Nat.ltb_lt; unfold ZUS_LIBFS_MAX_NR; lia|]. destruct mem as [p|]; [|by apply wp_ret].
  destruct (calloc_fresh _ _ (eq_sym Emem)) as [Hp0 Hpf]. do 3 wp_step. set (d1 := upd_h_mod _ d).
  eapply wp_mono; [apply (wp_init_total _ i p d1); [cbn; rewrite lookup_insert_eq; by eexists|intros a Ha; by apply (Hsec h i j a)]|].
  cbn beta. intros _ d2 (F1 & F2 & F3). wp_steps. split_and!; cbn [modules h_mod h_dd]; rewrite ?F1.
  - rewrite length_app /=. cbn. lia.
  - apply NoDup_app. split_and!; [done| |repeat constructor; set_solver]. intros m Hin Hmp. apply list_elem_of_singleton in Hmp as ->. destruct (Hm _ Hin) as [_ [x Hx]]. congruence.
  - intros m. rewrite elem_of_app list_elem_of_singleton. intros [Hin| ->]; (split; [|apply F3; cbn; rewrite lookup_insert_is_Some']); [by apply Hm|right; by apply Hm|done|by left].
  - intros h' i' j' a Eh Ha. apply F2. by apply (Hsec h' i' j').
Qed.
Lemma wp_free_modules l d : NoDup l -> (forall m, m ∈ l -> is_Some (h_mod d !! m)) -> wp (free_modules l) d (fun _ _ => True).
Proof.
  revert d. induction l as [|m l IH]; intros d Hnd Hm; cbn [free_modules]; [by wp_step|]. destruct (m =? 0); [by wp_step|]. apply NoDup_cons in Hnd as [Hni Hnd].
  destruct (Hm m ltac:(left)) as [x Hx]. wp_step. wp_step; [exact Hx|]. do 2 wp_step. apply IH; [done|]. intros m' Hin. cbn. rewrite lookup_delete_ne; [intros ->; done|]. apply Hm. by right.
Qed.
Definition one_post (r : list (Z * Z) * (Z + Z)) n (s : ldr) (x : Z * Z) (s' : ldr) : Prop :=
  g_dl_list s' = g_dl_list s /\ dl_calls s' = r.1 /\ db_ok (S n) (ddbg s') /\
  match r.2 with inl e => x.1 = e /\ e <> 0 /\ dl_refs s' = dl_refs s | inr h => x = (0, h) /\ h <> 0 /\ dl_refs s' = h :: dl_refs s end.
Lemma db_ok_S n d : db_ok n d -> db_ok (S n) d.
Proof. intros (Hl & ? & ? & ?). split_and!; [lia|done..]. Qed.
Lemma wp_load_found fd name h n s : h <> 0 -> db_ok n (ddbg s) -> (n < 16)%nat ->
  wp (load_found fd name h) (upd_dl_refs (cons h) s) (one_post (register fd (dl_calls s) h) n s).
Proof.
  intros Hh Hdb Hn. rewrite /load_found /register. destruct (dl_register h) as [f|].
  2:{ rewrite /dlclose. wp_steps. rewrite /one_post. cbn [fst snd]. split_and!; [done|done|by apply db_ok_S|done|done|]. cbn. by rewrite decide_True. }
  do 4 wp_step. cbn [dl_calls upd_dl_refs]. destruct (Z.eqb_spec (f (dl_calls s) fd) 0) as [E|E]; cbn [negb].
  2:{ rewrite /dlclose. wp_steps. rewrite /one_post. cbn [fst snd]. split_and!; [done|done|by apply db_ok_S|done|done|]. cbn. by rewrite decide_True. }
  do 3 wp_step. rewrite /on_ddbg. wp_step. eapply wp_mono; [by apply (wp_add_module n)|]. cbn beta. intros _ d' Hd'. wp_steps. rewrite /one_post. cbn [fst snd]. by split_and!.
Qed.
Lemma wp_load_one fd name n s : db_ok n (ddbg s) -> (n < 16)%nat -> wp (_load_one_fs fd name) s (one_post (resolve fd (dl_calls s) name) n s).
Proof.
  intros Hdb Hn. rewrite /_load_one_fs /_try_load_from /resolve /paths /cut. cbn [fmap list_fmap].
  set (h1 := dlopen (take _ (ZUS_LIBFS_DIR ++ _))). set (h2 := dlopen (take _ (chars "lib" ++ _))). set (h3 := dlopen (take _ name)).
  assert (Hgo : forall h, h <> 0 -> wp (load_found fd name h) (upd_dl_refs (cons h) s) (one_post (register fd (dl_calls s) h) n s)) by (intros h Hh; by apply wp_load_found).
  apply wp_bind. destruct (Z.eqb_spec h1 0) as [E1|E1]; [|do 3 wp_step; cbn [fst snd Z.eqb]; rewrite filter_cons decide_True //; by apply Hgo].
  wp_step. cbn [fst Z.eqb negb ENOENT Z.opp]. rewrite filter_cons decide_False; [by intros ?|]. apply wp_bind.
  destruct (Z.eqb_spec h2 0) as [E2|E2]; [|do 3 wp_step; cbn [fst snd Z.eqb]; rewrite filter_cons decide_True //; by apply Hgo].
  wp_step. cbn [fst Z.eqb negb ENOENT Z.opp]. rewrite filter_cons decide_False; [by intros ?|]. apply wp_bind.
  destruct (Z.eqb_spec h3 0) as [E3|E3]; [|do 3 wp_step; cbn [fst snd Z.eqb]; rewrite filter_cons decide_True //; by apply Hgo].
  wp_step. cbn [fst snd Z.eqb ENOENT Z.opp]. rewrite filter_cons decide_False; [by intros ?|]. change (- ENOENT =? 0) with false. wp_step. split_and!; [done|done|by apply db_ok_S|done..].
Qed.

(** ** All *)
(** The libraries that are loaded, and the error that ends it. *)
Fixpoint load_names (fd : Z) (calls : list (Z * Z)) (names : list (list Z)) : list Z * Z :=
  match names with
  | [] => ([], 0)
  | name :: names' =>
    match resolve fd calls name with
    | (_, inl e) => ([], e)
    | (calls', inr h) => let r := load_names fd calls' names' in (h :: r.1, r.2)
    end
  end.
Definition fields (parts : list (list Z)) : list (list Z) := filter (fun p => p <> []) parts.
Lemma fields_nil ps : fields ([] :: ps) = fields ps.
Proof. rewrite /fields filter_cons. case_decide as E; [by destruct E|done]. Qed.
Lemma fields_cons p ps : p <> [] -> fields (p :: ps) = p :: fields ps.
Proof. intros Hp. rewrite /fields filter_cons. by case_decide. Qed.
(** The slots of the loop: [hs] are taken. *)
Definition slots (hs : list Z) : list Z := hs ++ replicate (16 - length hs) 0.
Lemma slots_insert hs h : (length hs < 16)%nat -> <[length hs := h]> (slots hs) = slots (hs ++ [h]).
Proof.
  intros Hl. rewrite /slots length_app /=. rewrite insert_app_r_alt // Nat.sub_diag. replace (16 - length hs)%nat with (S (16 - (length hs + 1))) by lia. cbn [replicate].
  by rewrite -app_assoc.
Qed.
Lemma join_length p ps : (length p <= length (join (p :: ps)))%nat /\ (ps <> [] -> length (join (p :: ps)) = (length p + S (length (join ps)))%nat).
Proof. destruct ps as [|q ps]; [done|]. cbn [join]. rewrite length_app. cbn. split; [lia|done]. Qed.
Lemma wp_load_loop parts : forall fuel fd s hs refs err, parts <> [] -> Forall (fun p => 44 ∉ p) parts -> (length (join parts) < fuel)%nat ->
  g_dl_list s = slots hs -> dl_refs s = rev hs ++ refs -> db_ok (length hs) (ddbg s) -> (length hs + length (fields parts) <= 16)%nat -> err = 0 ->
  wp (load_loop fuel fd (Some (join parts)) (length hs) err) s (fun e s' => let r := load_names fd (dl_calls s) (fields parts) in
    e = r.2 /\ g_dl_list s' = slots (hs ++ r.1) /\ dl_refs s' = rev (hs ++ r.1) ++ refs /\ db_ok (S (length hs + length (fields parts))) (ddbg s')).
Proof.
  assert (Hdb_le : forall n m d, (n <= m)%nat -> db_ok n d -> db_ok m d) by (intros n m d Hle (Hl & ? & ? & ?); split_and!; [lia|done..]).
  induction parts as [|p ps IH]; [done|]. intros fuel fd s hs refs err _ [Hp Hps]%Forall_cons Hfuel El Er Hdb Hlen ->. destruct fuel as [|k]; [lia|]. cbn [load_loop].
  assert (Hsep : strsep (join (p :: ps)) = (p, match ps with [] => None | _ => Some (join ps) end)).
  { destruct ps as [|q ps]; [by apply strsep_last|]. by apply strsep_field. }
  rewrite Hsep. cbn [fst snd]. destruct (join_length p ps) as [Hj1 Hj2].
  (* what comes behind *)
  assert (Hnext : forall s1 hs1, g_dl_list s1 = slots hs1 -> dl_refs s1 = rev hs1 ++ refs -> db_ok (length hs1) (ddbg s1) -> (length hs1 + length (fields ps) <= 16)%nat ->
    wp (load_loop k fd (match ps with [] => None | _ => Some (join ps) end) (length hs1) 0) s1 (fun e s' => let r := load_names fd (dl_calls s1) (fields ps) in
      e = r.2 /\ g_dl_list s' = slots (hs1 ++ r.1) /\ dl_refs s' = rev (hs1 ++ r.1) ++ refs /\ db_ok (S (length hs1 + length (fields ps))) (ddbg s'))).
  { intros s1 hs1 E1 E2 E3 E4. destruct ps as [|q ps].
    - destruct k; cbn [load_loop]; wp_step; cbn; rewrite app_nil_r; (split_and!; [done..|eapply Hdb_le; [|done]; lia]).
    - apply IH; try done. specialize (Hj2 ltac:(done)). lia. }
  case_bool_decide as Ep.
  - subst p. rewrite fields_nil in Hlen |- *. by apply Hnext.
  - rewrite (fields_cons p ps Ep) in Hlen |- *. cbn [length] in Hlen. cbn [load_names length].
    apply wp_bind. eapply wp_mono; [apply (wp_load_one fd p (length hs) s Hdb); lia|]. cbn beta. intros x s1 (L1 & C1 & D1 & R1). destruct (resolve fd (dl_calls s) p) as [calls' [e|h]]; cbn [fst snd] in C1, R1.
    + destruct R1 as (-> & Hne & R1). rewrite (proj2 (Z.eqb_neq _ _) Hne). cbn [negb]. wp_step. cbn [fst snd]. rewrite app_nil_r. split_and!; [done|by rewrite L1|by rewrite R1|].
      eapply Hdb_le; [|done]. lia.
    + destruct R1 as (-> & Hh & R1). cbn [fst snd Z.eqb negb]. do 3 wp_step. wp_step; [rewrite L1 El /slots length_app length_replicate; apply Nat.ltb_lt; lia|]. do 2 wp_step.
      replace (S (length hs)) with (length (hs ++ [h])) by (rewrite length_app; cbn; lia).
      eapply wp_mono; [apply (Hnext _ (hs ++ [h]))|].
      * cbn. rewrite L1 El. apply slots_insert. lia.
      * cbn. by rewrite R1 Er rev_app_distr.
      * rewrite length_app Nat.add_comm. exact D1.
      * rewrite length_app. cbn. lia.
      * cbn beta zeta. cbn [dl_calls upd_dl_list]. rewrite C1. intros e s2 (-> & G2 & R2 & D2). cbn [fst snd]. rewrite -!app_assoc in G2 R2. split_and!; [done|done|done|].
        eapply Hdb_le; [|done]. rewrite length_app. cbn. lia.
Qed.

(** ** Unloading *)
Lemma drop_one_perm x l : x ∈ l -> x :: drop_one x l ≡ₚ l.
Proof.
  induction l as [|y l IH]; [set_solver|]. cbn [drop_one]. intros Hx. case_decide as E; [by subst|]. assert (Hin : x ∈ l) by set_solver.
  rewrite -{2}(IH Hin). apply perm_swap.
Qed.
Lemma wp_unload_slots hs n refs s : Forall (fun h => h <> 0) hs -> dl_refs s ≡ₚ hs ++ refs ->
  wp (unload_slots (hs ++ replicate n 0)) s (fun _ s' => dl_refs s' ≡ₚ refs).
Proof.
  revert s. induction hs as [|h hs IH]; intros s Hne Hp; cbn [app unload_slots].
  - induction n as [|n IHn]; cbn [replicate unload_slots]; [by wp_step|]. apply wp_bind, wp_ret. exact IHn.
  - apply Forall_cons in Hne as [Hh Hne]. rewrite /_unload_libfs (proj2 (Z.eqb_neq _ _) Hh). cbn [negb]. rewrite /dlclose. do 2 wp_step. apply IH; [done|].
    cbn. apply (Permutation_cons_inv (a := h)). rewrite drop_one_perm; [by rewrite Hp; left|]. by rewrite Hp.
Qed.
Lemma load_names_nonzero fd calls names : Forall (fun h => h <> 0) (load_names fd calls names).1.
Proof.
  revert calls. induction names as [|name names IH]; intros calls; cbn [load_names]; [constructor|]. destruct (resolve fd calls name) as [calls' [e|h]] eqn:E; [constructor|]. constructor; [|apply IH].
  revert E. rewrite /resolve /register. destruct (filter _ _) as [|h' l] eqn:Ef; [done|]. assert (Hh : h' <> 0).
  { assert (Hin : h' ∈ filter (fun h => h <> 0) ((fun p => dlopen (cut p)) <$> paths name)) by (rewrite Ef; left). by apply list_elem_of_filter in Hin as [? _]. }
  destruct (dl_register h') as [f|]; [|done]. destruct (f calls fd =? 0); [|done]. by intros [= _ <-].
Qed.
(** C39: loading the file systems.  The variable names libraries between its commas, at most
    as many as there are slots; empty names are left out.  They are loaded in order, each
    from the first that opens of its three paths, as far as these fit the buffer, up to the
    first that cannot be opened or does not register; its error is the answer, and it is
    closed again.  The table holds those that were loaded, and [zus_unregister_all] closes
    these and nothing else.  Without the memory for a copy of the variable nothing happens. *)
Theorem register_all_spec (fd : Z) (parts : list (list Z)) (mem : bool) (s : ldr) :
  parts <> [] -> Forall (fun p => 44 ∉ p) parts -> (length (fields parts) <= ZUS_LIBFS_MAX_NR)%nat ->
  g_dl_list s = replicate ZUS_LIBFS_MAX_NR 0 -> db_ok 0 (ddbg s) ->
  wp (zus_register_all fd (Some (join parts)) mem) s (fun err s' => let r := load_names fd (dl_calls s) (fields parts) in
    if mem || bool_decide (join parts = []) then
      err = r.2 /\ g_dl_list s' = r.1 ++ replicate (ZUS_LIBFS_MAX_NR - length r.1) 0 /\ dl_refs s' = rev r.1 ++ dl_refs s /\
      wp zus_unregister_all s' (fun _ s'' => dl_refs s'' ≡ₚ dl_refs s)
    else err = - ENOMEM /\ s' = s).
Proof.
  intros Hne Hf Hlen El Hdb. rewrite /zus_register_all. destruct (mem || _) eqn:Em.
  2:{ apply orb_false_iff in Em as [-> Ej%bool_decide_eq_false]. apply wp_bind. rewrite /_load_libfs. destruct (join parts); [done|]. cbn [negb]. wp_step. change (- ENOMEM =? 0) with false. cbn [negb]. by wp_step. }
  apply wp_bind.
  apply (wp_mono _ _ (fun e s' => let r := load_names fd (dl_calls s) (fields parts) in
    e = r.2 /\ g_dl_list s' = slots r.1 /\ dl_refs s' = rev r.1 ++ dl_refs s /\ exists n, db_ok n (ddbg s'))).
  - rewrite /_load_libfs. assert (Hnil : join parts = [] -> fields parts = []).
    { destruct parts as [|p [|q ps]]; [done| |]; cbn [join]; [intros ->; apply fields_nil|by destruct p]. }
    destruct (join parts) as [|c str] eqn:Ej.
    + rewrite (Hnil eq_refl). wp_step. split_and!; [done|by rewrite El|done|by exists 0%nat].
    + rewrite bool_decide_false // orb_false_r in Em. rewrite Em. cbn [negb]. rewrite -Ej. eapply wp_mono; [apply (wp_load_loop parts _ fd s [] (dl_refs s) 0); try done; lia|].
      cbn beta zeta. intros e s' (E1 & E2 & E3 & E4). split_and!; try done. by eexists.
  - cbn beta zeta. intros e s' (-> & E2 & E3 & n & E4). set (r := load_names fd (dl_calls s) (fields parts)) in *.
    assert (Hun : wp zus_unregister_all s' (fun _ s'' => dl_refs s'' ≡ₚ dl_refs s)).
    { rewrite /zus_unregister_all /on_ddbg /zus_free_ddbg_db. do 4 wp_step. destruct E4 as (_ & Hnd & Hm & _).
      eapply wp_mono; [apply wp_free_modules; [done|]; intros m Hin; by apply Hm|]. cbn beta. intros _ d _. do 2 wp_step.
      cbn [g_dl_list]. rewrite E2. apply wp_unload_slots; [apply load_names_nonzero|]. cbn. rewrite E3. apply Permutation_app_tail. symmetry. apply Permutation_rev. }
    destruct (r.2 =? 0) eqn:Ez; cbn [negb]; wp_step; (split_and!; [|done|done|done]); [|done]. symmetry. by apply Z.eqb_eq.
Qed.
End spec.

(** A kernel that refuses a second file system of the same library.  Three names and an
    empty one; the second is found in the search path, the third does not register. *)
Section example.
#[local] Instance dl_ex : DlSys := {|
  dlopen p := if decide (p = ZUS_LIBFS_DIR ++ chars "/libtoyfs.so") then 11 else if decide (p = chars "libfoofs.so") then 12 else if decide (p = chars "bar") then 13 else 0;
  dl_register h := Some (fun calls fd => if bool_decide (h ∈ calls.*1) then - EEXIST else if h =? 13 then -22 else 0); dl_section h := (None, None); dl_calloc m := None |}.
Definition ldr_start : ldr := Ldr (replicate 16 0) [] [] (DdbgDb [] 0 ∅ ∅).
Lemma register_all_spec_witness :
  exists s', zus_register_all 5 (Some (chars "toyfs,,foofs,bar")) true ldr_start = Some (-22, s') /\ dl_refs s' = [12; 11] /\
    wp zus_unregister_all s' (fun _ s'' => dl_refs s'' ≡ₚ []).
Proof.
  assert (Hc : forall m p, dl_calloc m = Some p -> p <> 0 /\ m !! p = None) by (intros m p E; discriminate E).
  assert (Hdb : db_ok 0 (ddbg ldr_start)) by (split_and!; [done|constructor|intros m Hm; by apply elem_of_nil in Hm|by intros h i j a Hs]).
  assert (Hf : Forall (fun p => 44 ∉ p) [chars "toyfs"; []; chars "foofs"; chars "bar"]) by (repeat constructor; vm_compute; set_solver).
  assert (Hl : (length (fields [chars "toyfs"; []; chars "foofs"; chars "bar"]) <= ZUS_LIBFS_MAX_NR)%nat) by (vm_compute; lia).
  destruct (wp_exists _ _ _ (register_all_spec Hc 5 [chars "toyfs"; []; chars "foofs"; chars "bar"] true ldr_start ltac:(discriminate) Hf Hl eq_refl Hdb)) as (e & s' & Hrun & Hpost).
  cbv zeta in Hpost. cbn [orb] in Hpost. change (dl_calls ldr_start) with (@nil (Z * Z)) in Hpost. assert (Er : load_names 5 [] (fields [chars "toyfs"; []; chars "foofs"; chars "bar"]) = ([11; 12], -22)) by (vm_compute; reflexivity).
  rewrite Er in Hpost. destruct Hpost as (-> & _ & Hrefs & Hun). exists s'. split_and!; [exact Hrun|exact Hrefs|exact Hun].
Defined.
End example.
