(* ===== verification/Mkfs.v ===== *)
(** * mkfs of toyfs: fs/toyfs/mkfs.c, and the times of zus.h

    The program that writes a device table and a root inode to a device; what it writes is
    checked against the check of device tables. *)

From S2P Require Import Prelude State Super Md MdSpec MdInit.

(** ** Times *)
Definition NSEC_PER_SEC : Z := 1000000000.
Record timespec := Timespec { tv_sec : Z; tv_nsec : Z }.
(** [X / y] and [X % y]; the remainder goes into 32 bits without a sign. *)
Definition _z_div_s64_rem (X y : Z) : Z * Z := (Z.quot X y, u32 (Z.rem X y)).
Definition timespec_to_zt (t : timespec) : Z := u64 (tv_sec t * NSEC_PER_SEC + tv_nsec t).
Definition zt_to_timespec (mt : Z) : timespec := let r := _z_div_s64_rem (s64 mt) NSEC_PER_SEC in Timespec r.1 r.2.

(** A time from the epoch on comes back; of one before it, the nanoseconds do not. *)
Lemma timespec_roundtrip t : 0 <= tv_sec t < 2 ^ 33 -> 0 <= tv_nsec t < NSEC_PER_SEC -> zt_to_timespec (timespec_to_zt t) = t.
Proof.
  destruct t as [s n]. cbn [tv_sec tv_nsec]. intros Hs Hn. rewrite /zt_to_timespec /timespec_to_zt /_z_div_s64_rem. cbn [tv_sec tv_nsec fst snd].
  unfold NSEC_PER_SEC in *. rewrite s64_u64; [lia|]. rewrite Z.quot_div_nonneg; [lia..|]. rewrite Z.rem_mod_nonneg; [lia..|].
  rewrite Z.div_add_l; [lia|]. rewrite Z.div_small // Z.add_0_r. rewrite Z.add_comm Z_mod_plus_full Z.mod_small // u32_small //. lia.
Qed.
Example timespec_before_epoch : zt_to_timespec (timespec_to_zt (Timespec (-1) 500000000)) = Timespec 0 3794967296.
Proof. vm_compute. reflexivity. Qed.

(** ** The device *)
Inductive file_kind := FBlk | FReg | FOther.
(** What open, fstat and ioctl(BLKGETSIZE64) answer. *)
Record open_answers := OpenAnswers { o_fd : Z; o_fstat : Z; o_kind : file_kind; o_ioctl : Z; o_bdev_size : Z; o_st_size : Z }.
(** What lseek, write and fsync answer. *)
Record write_answers := WriteAnswers { w_lseek : Z; w_write : Z; w_fsync : Z }.
Inductive dev_page := SuperBlock (t : md_dev_table) | RootInode (i : toyfs_inode).
Definition EXIT_FAILURE : Z := 1.
(** The program ends with a status, or goes on. *)
Notation "'RUN' A" := (Z + A)%type (at level 20).
(** md_def.h and zus_api.h; [mdt_static] are the bytes of a table from [s_version] on: the
    version, the flags, the blocks of tier 1, the list of devices and the time. *)
Class MkfsApi : Type := {
  ZUFS_ALLOC_MASK : Z;
  ZUFS_MINORS_PER_MAJOR : Z;
  MDT_SIZE : Z;
  sizeof_inode : Z;
  mdt_static : Z -> Z -> Z -> list Z -> md_dev_list -> Z -> list Z }.
Definition TOYFS_MAJOR_VERSION : Z := 14.
Definition TOYFS_MINOR_VERSION : Z := 1.

Section mkfs.
Context `{MdApi} `{DevApi} `{!MkfsApi}.

Definition min_size : Z := 2 ^ 20.
Definition toyfs_open_blkdev (a : open_answers) : RUN (Z * Z) :=
  if o_fd a <=? 0 then inl EXIT_FAILURE else
  if negb (o_fstat a =? 0) then inl EXIT_FAILURE else
  match o_kind a with
  | FOther => inl EXIT_FAILURE
  | FBlk =>
    if negb (o_ioctl a =? 0) then inl EXIT_FAILURE else
    if o_bdev_size a <? min_size then inl EXIT_FAILURE else inr (o_fd a, s64 (o_bdev_size a))
  | FReg => if o_st_size a <? min_size then inl EXIT_FAILURE else inr (o_fd a, o_st_size a)
  end.
(** [super_uuid]: what uuid_generate gives; [dev_uuid]: what uuid_parse makes of the
    argument; [now]: clock_gettime. *)
Definition toyfs_fill_dev_table (dev_size : Z) (super_uuid : list Z) (dev_uuid : option (list Z)) (now : timespec) : RUN md_dev_table :=
  match dev_uuid with
  | None => inl EXIT_FAILURE
  | Some dev_uuid =>
    let s_t1_blocks := md_o2p (Z.ldiff dev_size ZUFS_ALLOC_MASK) in
    let s_dev_list := MdDevList 0 1 0 0 [MdDevId dev_uuid s_t1_blocks 0] in
    let t := MdDevTable 0 (mdt_static (TOYFS_MAJOR_VERSION * ZUFS_MINORS_PER_MAJOR + TOYFS_MINOR_VERSION) 0 s_t1_blocks super_uuid s_dev_list (timespec_to_zt now))
      TOYFS_SUPER_MAGIC super_uuid s_dev_list in
    inr (MdDevTable (md_calc_csum t) (s_static t) (s_magic t) (s_uuid t) (Md.s_dev_list t))
  end.
(** Both of the write functions: [size] bytes of [p] at [off]. *)
Definition write_at (off size : Z) (p : dev_page) (a : write_answers) (img : gmap Z dev_page) : RUN (gmap Z dev_page) :=
  if negb (w_lseek a =? off) then inl EXIT_FAILURE else
  if negb (w_write a =? size) then inl EXIT_FAILURE else
  if negb (w_fsync a =? 0) then inl EXIT_FAILURE else inr (<[off := p]> img).
Definition toyfs_write_super_block (t : md_dev_table) : write_answers -> gmap Z dev_page -> RUN (gmap Z dev_page) := write_at 0 MDT_SIZE (SuperBlock t).
Definition toyfs_fill_root_inode : toyfs_inode := ToyfsInode 0 0 2 0 [] 0 0 0 0 1 0 0 0 0 (replicate 32 0).
Definition toyfs_write_root_inode (i : toyfs_inode) : write_answers -> gmap Z dev_page -> RUN (gmap Z dev_page) := write_at PAGE_SIZE sizeof_inode (RootInode i).
(** The program: its status, or what is on the device after it returned 0. *)
Definition mkfs_main (argc : Z) (a : open_answers) (super_uuid : list Z) (dev_uuid : option (list Z)) (now : timespec) (wa wb : write_answers) (img : gmap Z dev_page) : RUN (gmap Z dev_page) :=
  if negb (argc =? 3) then inl EXIT_FAILURE else
  match toyfs_open_blkdev a with
  | inl e => inl e
  | inr (fd, dev_size) =>
    match toyfs_fill_dev_table dev_size super_uuid dev_uuid now with
    | inl e => inl e
    | inr t =>
      match toyfs_write_super_block t wa img with
      | inl e => inl e
      | inr img => toyfs_write_root_inode toyfs_fill_root_inode wb img
      end
    end
  end.
End mkfs.

(** What is relied on: alignments are powers of two; the version is in the bytes under the
    checksum; a device of tier 1 has as many blocks as its entry says. *)
Class MkfsLaws `{MdApi} `{DevApi} `{!MkfsApi} : Prop := {
  alloc_mask_ones : exists k, 12 <= k <= 40 /\ ZUFS_ALLOC_MASK = Z.ones k;
  minors_fit : TOYFS_MINOR_VERSION < ZUFS_MINORS_PER_MAJOR < 2 ^ 16;
  static_major sum v flags b u l w m u' l' : 0 <= v < 2 ^ 32 -> mdt_major_version (MdDevTable sum (mdt_static v flags b u l w) m u' l') = v / ZUFS_MINORS_PER_MAJOR;
  static_minor sum v flags b u l w m u' l' : 0 <= v < 2 ^ 32 -> mdt_minor_version (MdDevTable sum (mdt_static v flags b u l w) m u' l') = v mod ZUFS_MINORS_PER_MAJOR;
  dev_id_blocks u b : 0 <= b < 2 ^ 51 -> __dev_id_blocks (MdDevId u b 0) = b }.
Section spec.
Context `{MdApi} `{DevApi} `{!MkfsApi} `{!MkfsLaws} `{!DevLaws}.

Lemma aligned_blocks size : 0 <= size < 2 ^ 62 ->
  let b := md_o2p (Z.ldiff size ZUFS_ALLOC_MASK) in
  0 <= b < 2 ^ 51 /\ md_p2o b = Z.ldiff size ZUFS_ALLOC_MASK /\ Z.land (md_p2o b) ZUFS_ALLOC_MASK = 0 /\ (md_p2o b = 0 <-> size <= ZUFS_ALLOC_MASK).
Proof.
  intros Hs. destruct alloc_mask_ones as (k & Hk & ->). rewrite Z.ldiff_ones_r; [lia|]. rewrite Z.shiftl_mul_pow2; [lia|]. rewrite Z.shiftr_div_pow2; [lia|].
  set (q := size / 2 ^ k). assert (Hq0 : 0 <= q) by (apply Z.div_pos; lia).
  assert (Hpk : 2 ^ k = PAGE_SIZE * 2 ^ (k - 12)) by (replace k with (12 + (k - 12)) at 1 by lia; rewrite Z.pow_add_r; [lia..|done]).
  assert (Hp : 0 < 2 ^ (k - 12)) by (apply Z.pow_pos_nonneg; lia). pose proof (Z.mul_div_le size (2 ^ k) ltac:(lia)) as Hle. fold q in Hle.
  assert (Hb : q * 2 ^ k = md_p2o (q * 2 ^ (k - 12))) by (rewrite p2o_page Hpk; lia).
  assert (Hlt : 0 <= q * 2 ^ (k - 12) < 2 ^ 51) by (split; [lia|nia]). cbv zeta. rewrite Hb o2p_p2o //. split_and!; try lia.
  - rewrite -Hb Z.land_ones; [lia|]. by rewrite Z.mod_mul; [lia|].
  - rewrite -Hb Z.ones_equiv. pose proof (Z.mod_pos_bound size (2 ^ k) ltac:(lia)) as Hr. pose proof (Z.div_mod size (2 ^ k) ltac:(lia)) as Hd. fold q in Hd.
    assert (HP : 0 < 2 ^ k) by lia. revert Hr Hd HP. generalize (size mod 2 ^ k) (2 ^ k). intros r P Hr Hd HP. split; [nia|]. intros Hle'. destruct (Z.eq_dec q 0) as [->|]; [lia|]. nia.
Qed.
(** The check of toyfs's version and magic. *)
Definition toyfs_check : mdt_check := MdtCheck ZUFS_ALLOC_MASK TOYFS_MAJOR_VERSION TOYFS_MINOR_VERSION TOYFS_SUPER_MAGIC.

(** C27: mkfs.  With a device of [size] bytes, at least 1M, and calls that succeed, mkfs ends
    well; the first page of the device has a table of one device with the size rounded
    down to the alignment, the second the root inode.  The check of device tables accepts
    the table if and only if the size reaches the alignment, 2M: a smaller device is
    formatted and cannot be mounted. *)
Theorem mkfs_spec (a : open_answers) (size : Z) (super_uuid dev_uuid : list Z) (now : timespec) (img : gmap Z dev_page) :
  0 < o_fd a -> o_fstat a = 0 -> (o_kind a = FReg /\ o_st_size a = size \/ o_kind a = FBlk /\ o_ioctl a = 0 /\ o_bdev_size a = size) ->
  min_size <= size < 2 ^ 62 ->
  exists img' t, mkfs_main 3 a super_uuid (Some dev_uuid) now (WriteAnswers 0 MDT_SIZE 0) (WriteAnswers PAGE_SIZE sizeof_inode 0) img = inr img' /\
    img' !! 0 = Some (SuperBlock t) /\ img' !! PAGE_SIZE = Some (RootInode toyfs_fill_root_inode) /\
    (exists id, dev_ids (Md.s_dev_list t) = [id] /\ md_p2o (__dev_id_blocks id) = Z.ldiff size ZUFS_ALLOC_MASK) /\
    (md_mdt_check t None toyfs_check = Some true <-> ZUFS_ALLOC_MASK < size).
Proof.
  intros Hfd Hst Hkind Hsize. assert (Hopen : toyfs_open_blkdev a = inr (o_fd a, size)).
  { rewrite /toyfs_open_blkdev (proj2 (Z.leb_gt _ _) Hfd) Hst. cbn [Z.eqb negb].
    destruct Hkind as [[-> ->]|(-> & -> & ->)]; cbn [Z.eqb negb]; (rewrite (proj2 (Z.ltb_ge _ _)); [lia|]); [done|]. rewrite s64_small //. unfold min_size in *. lia. }
  rewrite /mkfs_main. cbn [Z.eqb negb Pos.eqb]. rewrite Hopen /toyfs_fill_dev_table. set (l := MdDevList 0 1 0 0 _). set (t0 := MdDevTable 0 _ _ _ l). set (t := MdDevTable (md_calc_csum t0) _ _ _ _).
  exists (<[PAGE_SIZE := RootInode toyfs_fill_root_inode]> (<[0 := SuperBlock t]> img)), t.
  unfold min_size in *. destruct (aligned_blocks size ltac:(lia)) as (Hb & Hp2o & Hal & Hz).
  assert (Eid : __dev_id_blocks (MdDevId dev_uuid (md_o2p (Z.ldiff size ZUFS_ALLOC_MASK)) 0) = md_o2p (Z.ldiff size ZUFS_ALLOC_MASK)) by by apply dev_id_blocks.
  split_and!.
  - rewrite /toyfs_write_super_block /write_at. cbn [w_lseek w_write w_fsync]. rewrite !Z.eqb_refl. cbn [negb]. rewrite /toyfs_write_root_inode /write_at. cbn [w_lseek w_write w_fsync]. by rewrite !Z.eqb_refl.
  - by rewrite lookup_insert_ne // lookup_insert_eq.
  - by rewrite lookup_insert_eq.
  - eexists. split; [reflexivity|]. by rewrite Eid.
  - rewrite mdt_check_accepts. cbn [t t0 Md.s_dev_list l s_static s_magic s_sum s_uuid mc_magic mc_major_ver mc_minor_ver mc_alloc_mask toyfs_check id_index t1_count t2_count dev_ids].
    pose proof minors_fit as Hm. unfold TOYFS_MINOR_VERSION, TOYFS_MAJOR_VERSION in *.
    rewrite static_major; [lia|]. rewrite static_minor; [lia|].
    rewrite Z.div_add_l; [lia|]. rewrite Z.div_small; [lia|]. rewrite (Z.add_comm (14 * _)) Z_mod_plus_full Z.mod_small; [lia|].
    change (u32 (14 + 0)) with 14. change (u32 1) with 1. split.
    + intros (_ & _ & _ & _ & _ & _ & id & [= <-] & Hne & _). rewrite Eid in Hne. lia.
    + intros Hlt. split_and!; try done. eexists. split; [reflexivity|]. rewrite Eid. split; [lia|done].
Qed.
End spec.

Section example.
#[local] Existing Instance example_md.
#[local] Instance dev_mk : DevApi := {|
  mdt_major_version t := nth 0 (s_static t) 0 / 256; mdt_minor_version t := nth 0 (s_static t) 0 mod 256; __dev_id_blocks := di_blocks; __dev_id_nid := di_nid;
  blocks_t1 md := foldr Z.add 0 (di_blocks <$> take (Z.to_nat (t1_count (mdt_list md))) (dev_ids (mdt_list md)));
  blocks_t2 md := foldr Z.add 0 (di_blocks <$> take (Z.to_nat (t2_count (mdt_list md))) (drop (Z.to_nat (t1_count (mdt_list md))) (dev_ids (mdt_list md)))) |}.
#[local] Instance mkfs_ex : MkfsApi := {| ZUFS_ALLOC_MASK := 2 ^ 21 - 1; ZUFS_MINORS_PER_MAJOR := 256; MDT_SIZE := 2048; sizeof_inode := 128; mdt_static v f b u l w := [v; f; b; w] |}.
#[local] Instance mkfs_ex_laws : MkfsLaws.
Proof. split; try done. exists 21. done. Qed.
#[local] Instance dev_mk_laws : DevLaws.
Proof.
  split; cbn [md_o2p md_p2o example_md blocks_t1 blocks_t2 dev_mk __dev_id_blocks]; try done. intros n Hn. rewrite Z.mul_comm Z.div_mul //.
Qed.
Definition small_dev (size : Z) : open_answers := OpenAnswers 3 0 FReg 0 0 size.
(** A device of 1M is formatted, and refused by the check. *)
Lemma mkfs_spec_witness : exists img' t,
  mkfs_main 3 (small_dev (2 ^ 20)) [1] (Some [2]) (Timespec 5 6) (WriteAnswers 0 MDT_SIZE 0) (WriteAnswers PAGE_SIZE sizeof_inode 0) ∅ = inr img' /\
  img' !! 0 = Some (SuperBlock t) /\ md_mdt_check t None toyfs_check <> Some true.
Proof.
  destruct (mkfs_spec (small_dev (2 ^ 20)) (2 ^ 20) [1] [2] (Timespec 5 6) ∅ eq_refl eq_refl (or_introl (conj eq_refl eq_refl)) ltac:(split; [discriminate|reflexivity]))
    as (img' & t & Hrun & Hs & _ & _ & Hchk).
  exists img', t. split; [exact Hrun|]. split; [exact Hs|]. intros Hok. apply Hchk in Hok. discriminate Hok.
Defined.
End example.
