(* ===== verification/Daemon.v ===== *)
(** * The daemon: main.c, signals.c, and the ends of zus-core.c and utils.c

    The options of the command line, the order in which the daemon starts its parts, and how
    it stops them.  Calls into other parts are recorded as events, in order. *)

From stdpp Require Import strings.
From S2P Require Import Prelude CStr Core.

(** ** The command line *)
Definition SCHED_FIFO : Z := 1.
Definition SCHED_RR : Z := 2.
(** [ZTP_INIT] *)
Definition ZTP_INIT : zus_thread_params := ZusThreadParams 0 0 ZUS_CPU_ALL ZUS_NUMA_NO_NID.
Inductive zus_mlock_mode := MLOCK_NONE | MLOCK_CURRENT | MLOCK_ALL.
Definition mlock_val (m : zus_mlock_mode) : Z := match m with MLOCK_NONE => 0 | MLOCK_CURRENT => 1 | MLOCK_ALL => 2 end.
Definition MCL_CURRENT : Z := 1.
Definition MCL_FUTURE : Z := 2.
(** [strtol(s, NULL, 10)], which stops at the ends of [long]; [atoi] and [atol] are that. *)
Definition strtol (s : list Z) : Z :=
  let '(neg, t) := match skip_spaces s with 45 :: t' => (true, t') | 43 :: t' => (false, t') | t => (false, t) end in
  let v := (digits_val 0 t).1 in
  Z.max (- 2 ^ 63) (Z.min (2 ^ 63 - 1) (if neg : bool then - v else v)).
Definition atoi (s : list Z) : Z := s32 (strtol s).
Definition atol (s : list Z) : Z := strtol s.
(** What the options set: the variables of [main], [g_DBGMASK] and [g_mlock]. *)
Record options := Options { o_tp : zus_thread_params; g_DBGMASK : Z; g_mlock : Z; o_pa_size : Z; o_mcheck : bool }.
Definition set_policy (p : Z) (optarg : option (list Z)) (o : options) : options :=
  let tp := o_tp o in
  Options (ZusThreadParams p (match optarg with Some s => atoi s | None => rr_priority tp end) (tp_one_cpu tp) (tp_nid tp)) (g_DBGMASK o) (g_mlock o) (o_pa_size o) (o_mcheck o).
Section options.
(** [strtol(s, NULL, 0)] *)
Variable strtol0 : list Z -> Z.
(** [op] and [optarg], as getopt_long answers them: the character of an option. *)
Definition parse_option (o : options) (op : Z * option (list Z)) : options :=
  let '(c, optarg) := op in
  if c =? 114 then set_policy SCHED_RR optarg o
  else if c =? 102 then set_policy SCHED_FIFO optarg o
  else if c =? 110 then set_policy SCHED_OTHER optarg o
  else if c =? 100 then Options (o_tp o) (match optarg with Some s => u64 (strtol0 s) | None => 1 end) (g_mlock o) (o_pa_size o) (o_mcheck o)
  else if c =? 108 then Options (o_tp o) (g_DBGMASK o) (match optarg with Some s => atoi s | None => g_mlock o end) (o_pa_size o) (o_mcheck o)
  else if c =? 109 then Options (o_tp o) (g_DBGMASK o) (g_mlock o) (o_pa_size o) true
  else if c =? 112 then Options (o_tp o) (g_DBGMASK o) (g_mlock o) (match optarg with Some s => atol s | None => o_pa_size o end) (o_mcheck o)
  else o.
Definition parse_options (dbg mlock : Z) (l : list (Z * option (list Z))) : options := fold_left parse_option l (Options ZTP_INIT dbg mlock 0 false).
End options.
Definition mlock_flags (mlock : Z) : Z :=
  if mlock =? mlock_val MLOCK_ALL then Z.lor MCL_CURRENT MCL_FUTURE else if mlock =? mlock_val MLOCK_CURRENT then MCL_CURRENT else 0.

(** ** The parts *)
Inductive event :=
  | Usage | Mlockall (flags : Z) | RegisterSigactions | Setrlimit (cur max : Z) | SetupPa (size : Z) | SlabInit
  | CreateThread (path : option (list Z)) | StopThreads | UnregisterAll | Join (t : Z).
(** [mnt_thread] and [mnt_stop] are fields of [g_mount]; a thread in [joinable] has not been
    joined yet. *)
Record daemon := DaemonState { mnt_thread : Z; mnt_stop : bool; mnt_where : Z * Z; root_path : list Z; joinable : gset Z; events : list event }.
Definition upd_thread (t : Z) (s : daemon) : daemon := DaemonState t (mnt_stop s) (mnt_where s) (root_path s) (joinable s) (events s).
Definition upd_stop (s : daemon) : daemon := DaemonState (mnt_thread s) true (mnt_where s) (root_path s) (joinable s) (events s).
Definition upd_where (w : Z * Z) (s : daemon) : daemon := DaemonState (mnt_thread s) (mnt_stop s) w (root_path s) (joinable s) (events s).
Definition upd_path (p : list Z) (s : daemon) : daemon := DaemonState (mnt_thread s) (mnt_stop s) (mnt_where s) p (joinable s) (events s).
Definition upd_joinable (f : gset Z -> gset Z) (s : daemon) : daemon := DaemonState (mnt_thread s) (mnt_stop s) (mnt_where s) (root_path s) (f (joinable s)) (events s).
Definition upd_events (f : list event -> list event) (s : daemon) : daemon := DaemonState (mnt_thread s) (mnt_stop s) (mnt_where s) (root_path s) (joinable s) (f (events s)).
Notation DM := (ST daemon).
Definition emit (e : event) : DM unit := modify (upd_events (fun l => l ++ [e])).
(** What the calls answer: mlockall; getrlimit with the limits, and setrlimit, by their
    errno; the sizes of the page allocator; the slabs; the creation of the mount thread. *)
Record main_answers := MainAnswers {
  a_mlockall : Z; a_getrlimit : Z * Z * Z; a_setrlimit : Z; a_pa_size : Z; a_slab : Z; a_mount_thread : Z + Z }.
(** Joining a thread that was joined before is undefined. *)
Definition pthread_join (t : Z) : DM unit :=
  j ← gets joinable;
  assert (bool_decide (t ∈ j));;
  modify (upd_joinable (fun j => j ∖ {[t]}));; emit (Join t).

Definition ZUS_MAX_FILES : Z := 65536.
Definition zus_increase_max_files (a : main_answers) : DM Z :=
  let '(errno, cur, max) := a_getrlimit a in
  if negb (errno =? 0) then mret (- errno) else
  let cur := if cur <? ZUS_MAX_FILES then ZUS_MAX_FILES else cur in
  let max := if max <? ZUS_MAX_FILES then ZUS_MAX_FILES else max in
  emit (Setrlimit cur max);;
  if negb (a_setrlimit a =? 0) then mret (- a_setrlimit a) else mret 0.
(** [size]: the bytes of [g_zus_root_path_stor], which starts with zeros: the string in it. *)
Definition ZUF_DEF_PATH : list Z := chars "/sys/fs/zuf".
Section main.
Variable root_path_size : Z.
Definition zus_init_zuf (zuf_path : option (list Z)) : DM Z :=
  modify (upd_path (take (Z.to_nat (root_path_size - 1)) (default ZUF_DEF_PATH zuf_path)));; mret 0.
Definition zus_mount_thread_start (zuf_path : option (list Z)) (a : main_answers) : DM Z :=
  zus_init_zuf zuf_path;;
  emit (CreateThread zuf_path);;
  match a_mount_thread a with
  | inl err => modify (upd_thread 0);; mret err
  | inr t => modify (upd_thread t);; modify (upd_joinable (fun j => {[t]} ∪ j));; modify (upd_where (0, 0));; mret 0
  end.
Definition zus_mount_thread_stop : DM unit :=
  emit StopThreads;;
  modify upd_stop;;
  t ← gets mnt_thread;
  (if negb (t =? 0) then pthread_join t else mret tt);;
  modify (upd_thread 0);;
  emit UnregisterAll.
Definition zus_join : DM unit := t ← gets mnt_thread; pthread_join t.

(** [args] are the arguments behind the options; [stop] is what is called at the label
    [stop]. *)
Definition main_to (stop : DM unit) (o : options) (args : list (list Z)) (a : main_answers) : DM Z :=
  if (1 <? length args)%nat then emit Usage;; mret 1 else
  let path := head args in
  let flags := mlock_flags (g_mlock o) in
  err ← (if negb (flags =? 0) then emit (Mlockall flags);; mret (a_mlockall a) else mret 0);
  if negb (err =? 0) then mret err else
  emit RegisterSigactions;;
  err ← zus_increase_max_files a;
  if negb (err =? 0) then mret err else
  emit (SetupPa (o_pa_size o));;
  if negb (a_pa_size a =? 0) then mret (a_pa_size a) else
  emit SlabInit;;
  if negb (a_slab a =? 0) then mret (a_slab a) else
  err ← zus_mount_thread_start path a;
  (if negb (err =? 0) then mret tt else zus_join);;
  stop;;
  mret err.
Definition main : options -> list (list Z) -> main_answers -> DM Z := main_to zus_mount_thread_stop.
End main.

(** ** Signals *)
Inductive sig_kind := SigInfo | SigExit | SigAbort | SigBus.
(** By the numbers of Linux. *)
Definition zus_register_sigactions : list (Z * sig_kind) := [
  (1, SigInfo); (2, SigExit); (3, SigExit); (4, SigAbort); (5, SigInfo); (7, SigBus); (8, SigAbort); (9, SigAbort); (10, SigExit); (11, SigAbort);
  (12, SigInfo); (13, SigInfo); (14, SigInfo); (15, SigExit); (16, SigAbort); (17, SigInfo); (18, SigInfo); (19, SigExit); (20, SigExit); (21, SigExit);
  (22, SigExit); (23, SigInfo); (24, SigExit); (25, SigExit); (26, SigExit); (27, SigInfo); (28, SigInfo); (29, SigInfo); (30, SigExit); (31, SigExit)].
(** What a handler does: goes on, or ends the process with a status; an abort has none. *)
Inductive sig_end := Goes | Exits (status : Z) | Aborts.
Definition handle (signum : Z) (k : sig_kind) : DM sig_end :=
  match k with
  | SigInfo => mret Goes
  | SigExit => zus_mount_thread_stop;; mret (Exits (if signum =? 15 then 0 else 1))
  | SigAbort | SigBus => mret Aborts
  end.
