(* ===== verification/DaemonSpec.v ===== *)
(** * What the daemon's main program promises

    What the options amount to, the order of starting and stopping on every path, and the
    signals. *)

From stdpp Require Import strings.
From S2P Require Import Prelude CStr Core Daemon.

(** ** Options *)
Section options.
Variable strtol0 : list Z -> Z.
Definition is_policy (c : Z) : option Z := if c =? 114 then Some SCHED_RR else if c =? 102 then Some SCHED_FIFO else if c =? 110 then Some SCHED_OTHER else None.
Definition policies (l : list (Z * option (list Z))) : list (Z * option (list Z)) := omap (fun op => (fun p => (p, op.2)) <$> is_policy op.1) l.
(** The last option about the policy says which one; the priority is the last one given,
    with whatever policy. *)
Lemma parse_policy l o : o_tp (fold_left (parse_option strtol0) l o) =
  ZusThreadParams (default (policy (o_tp o)) (fst <$> last (policies l))) (default (rr_priority (o_tp o)) (atoi <$> last (omap snd (policies l)))) (tp_one_cpu (o_tp o)) (tp_nid (o_tp o)).
Proof.
  induction l as [|[c arg] l IH] using rev_ind; [by destruct o as [[] ? ? ? ?]|].
  rewrite fold_left_app /policies omap_app !omap_app. fold (policies l). cbn [fold_left omap list_omap fst snd]. rewrite /is_policy.
  set (x := fold_left _ l o) in *. rewrite /parse_option.
  destruct (Z.eqb_spec c 114) as [->|]; [|destruct (Z.eqb_spec c 102) as [->|]; [|destruct (Z.eqb_spec c 110) as [->|]]]; cbn [Z.eqb Pos.eqb option_fmap fmap option_map omap list_omap snd fst];
    try (rewrite last_snoc; rewrite /set_policy IH; cbn [o_tp rr_priority tp_one_cpu tp_nid fmap option_fmap option_map fst default from_option]; destruct arg as [s|]; [by rewrite last_snoc|by rewrite app_nil_r]).
  rewrite !app_nil_r. repeat case_match; done.
Qed.
End options.
(** The help says that a policy of 20 is the default, and FIFO: without options it is
    SCHED_OTHER with 0; a priority given for one policy is used with another. *)
Example no_options : o_tp (parse_options (fun _ => 0) 0 1 []) = ZusThreadParams SCHED_OTHER 0 ZUS_CPU_ALL ZUS_NUMA_NO_NID.
Proof. reflexivity. Qed.
Example priority_of_another : o_tp (parse_options (fun _ => 0) 0 1 [(110, Some (chars "5")); (114, None)]) = ZusThreadParams SCHED_RR 5 ZUS_CPU_ALL ZUS_NUMA_NO_NID.
Proof. vm_compute. reflexivity. Qed.

(** ** Starting and stopping *)
(** The stages before the mount thread: what each does and its error. *)
Definition rlimit_stage (a : main_answers) : list event * Z :=
  let '(errno, cur, max) := a_getrlimit a in
  if errno =? 0 then ([Setrlimit (Z.max cur ZUS_MAX_FILES) (Z.max max ZUS_MAX_FILES)], - a_setrlimit a) else ([], - errno).
Definition stages (o : options) (a : main_answers) : list (list event * Z) := [
  (if mlock_flags (g_mlock o) =? 0 then ([], 0) else ([Mlockall (mlock_flags (g_mlock o))], a_mlockall a));
  ([RegisterSigactions], 0); rlimit_stage a; ([SetupPa (o_pa_size o)], a_pa_size a); ([SlabInit], a_slab a)].
(** Up to the first error. *)
Fixpoint run_stages (l : list (list event * Z)) : list event * Z :=
  match l with
  | [] => ([], 0)
  | (es, err) :: l' => if err =? 0 then (es ++ (run_stages l').1, (run_stages l').2) else (es, err)
  end.
Lemma run_stages_ok l : (run_stages l).2 = 0 <-> Forall (fun st => st.2 = 0) l.
Proof.
  induction l as [|[es e] l IH]; [done|]. cbn [run_stages]. rewrite Forall_cons -IH. cbn [snd].
  destruct (Z.eqb_spec e 0) as [->|Hn]; cbn [snd]; tauto.
Qed.
Definition only_events (es : list event) (s s' : daemon) : Prop :=
  events s' = events s ++ es /\ mnt_thread s' = mnt_thread s /\ mnt_stop s' = mnt_stop s /\ joinable s' = joinable s /\ root_path s' = root_path s.
Section main.
Variable size : Z.
Lemma wp_emit e s (Q : unit -> daemon -> Prop) : Q tt (upd_events (fun l => l ++ [e]) s) -> wp (emit e) s Q.
Proof. intros HQ. by apply wp_modify. Qed.
Lemma wp_increase a s : wp (zus_increase_max_files a) s (fun err s' => err = (rlimit_stage a).2 /\ only_events (rlimit_stage a).1 s s').
Proof.
  rewrite /zus_increase_max_files /rlimit_stage. destruct (a_getrlimit a) as [[errno cur] max]. destruct (Z.eqb_spec errno 0) as [->|]; cbn [negb].
  - apply wp_bind, wp_emit.
    assert (Em : forall x, (if x <? ZUS_MAX_FILES then ZUS_MAX_FILES else x) = Z.max x ZUS_MAX_FILES) by (intros x; destruct (Z.ltb_spec x ZUS_MAX_FILES); lia).
    rewrite !Em. destruct (Z.eqb_spec (a_setrlimit a) 0) as [->|]; cbn [negb]; apply wp_ret; by split_and!.
  - apply wp_ret. split; [done|]. split_and!; [by rewrite app_nil_r|done..].
Qed.

(** From the creation of the mount thread on, with [Q] behind the stages. *)
Notation stage_post := (list event -> daemon -> Z -> daemon -> Prop).
Definition main_post (Q : stage_post) (r : list event * Z) (s : daemon) (err : Z) (s' : daemon) : Prop :=
  if r.2 =? 0 then Q r.1 s err s' else err = r.2 /\ only_events r.1 s s'.
(** The mount thread could not be created: it is stopped like a running one. *)
Definition not_created (path : option (list Z)) (e : Z) : stage_post := fun es s err s' =>
  err = e /\ events s' = events s ++ es ++ [CreateThread path; StopThreads; UnregisterAll] /\
  mnt_thread s' = 0 /\ mnt_stop s' = true /\ joinable s' = joinable s /\ root_path s' = take (Z.to_nat (size - 1)) (default ZUF_DEF_PATH path).
(** It ran and is joined; its handle is still there. *)
Definition joined (path : option (list Z)) (t : Z) : stage_post := fun es s err s' =>
  err = 0 /\ events s' = events s ++ es ++ [CreateThread path; Join t] /\
  mnt_thread s' = t /\ mnt_stop s' = mnt_stop s /\ joinable s' = joinable s ∖ {[t]} /\ root_path s' = take (Z.to_nat (size - 1)) (default ZUF_DEF_PATH path).
Definition stable (Q : stage_post) : Prop := forall es es' s s1 err s', only_events es s s1 -> Q es' s1 err s' -> Q (es ++ es') s err s'.
Lemma not_created_stable path e : stable (not_created path e).
Proof. intros es es' s s1 err s' (E1 & E2 & E3 & E4 & E5) (-> & Ev & H1 & H2 & H3 & H4). rewrite /not_created Ev E1 H3 E4 -!app_assoc. by split_and!. Qed.
Lemma joined_stable path t : stable (joined path t).
Proof. intros es es' s s1 err s' (E1 & E2 & E3 & E4 & E5) (-> & Ev & H1 & H2 & H3 & H4). rewrite /joined Ev E1 H3 E4 H2 E3 -!app_assoc. by split_and!. Qed.
Section stages.
Context (Q : stage_post) (HQ : stable Q).
Lemma post_step es l s s1 err s' : only_events es s s1 -> main_post Q (run_stages l) s1 err s' -> main_post Q (run_stages ((es, 0) :: l)) s err s'.
Proof.
  intros Hes. rewrite /main_post. cbn [run_stages Z.eqb fst snd]. destruct ((run_stages l).2 =? 0); [by apply HQ|].
  destruct Hes as (E1 & E2 & E3 & E4 & E5). intros (-> & Ev & H1 & H2 & H3 & H4). split; [done|]. rewrite /only_events Ev E1 H1 H2 H3 H4 -!app_assoc. by split_and!.
Qed.
(** A stage: its work, then the rest if there is no error. *)
Lemma wp_stage es err l (m : DM Z) (rest : DM Z) s :
  wp m s (fun x s' => x = err /\ only_events es s s') ->
  (err = 0 -> forall s', only_events es s s' -> wp rest s' (main_post Q (run_stages l) s')) ->
  wp (x ← m; if negb (x =? 0) then mret x else rest) s (main_post Q (run_stages ((es, err) :: l)) s).
Proof.
  intros Hm Hrest. apply wp_bind. eapply wp_mono; [exact Hm|]. cbn beta. intros x s1 [-> Hs]. destruct (Z.eqb_spec err 0) as [->|Hn]; cbn [negb].
  - eapply wp_mono; [by apply Hrest|]. intros err s' Hp. by apply (post_step _ _ _ s1).
  - apply wp_ret. rewrite /main_post. cbn [run_stages]. rewrite (proj2 (Z.eqb_neq _ _) Hn). cbn [snd fst]. rewrite (proj2 (Z.eqb_neq _ _) Hn). by split.
Qed.
(** A stage of one event. *)
Lemma wp_event ev err l (rest : DM Z) s :
  (err = 0 -> forall s', wp rest s' (main_post Q (run_stages l) s')) ->
  wp (emit ev;; if negb (err =? 0) then mret err else rest) s (main_post Q (run_stages (([ev], err) :: l)) s).
Proof.
  intros Hrest. apply (wp_eq _ (x ← (emit ev;; mret err); if negb (x =? 0) then mret x else rest)); [done|].
  apply wp_stage; [apply wp_bind, wp_emit, wp_ret; by split_and!|]. intros E s' _. by apply Hrest.
Qed.
(** All of them. *)
Lemma wp_main_to stop o args a s : (length args <= 1)%nat ->
  ((run_stages (stages o a)).2 = 0 ->
    forall s, wp (err ← zus_mount_thread_start size (head args) a; (if negb (err =? 0) then mret tt else zus_join);; stop;; mret err) s (main_post Q ([], 0) s)) ->
  wp (main_to size stop o args a) s (main_post Q (run_stages (stages o a)) s).
Proof.
  intros Ha Hst. rewrite /main_to. assert (El : (1 <? length args)%nat = false) by (apply Nat.ltb_ge; lia). rewrite El.
  rewrite /stages. set (f := mlock_flags (g_mlock o)). set (m := if f =? 0 then ([], 0) else ([Mlockall f], a_mlockall a)).
  assert (Em : m = (m.1, m.2)) by by destruct m. rewrite Em. apply wp_stage.
  { rewrite /m. destruct (f =? 0); cbn [negb]; [apply wp_ret|apply wp_bind, wp_emit, wp_ret]; (split; [done|]); split_and!; try done. by rewrite app_nil_r. }
  intros H1 s1 _. apply (wp_event RegisterSigactions 0). intros _ s2. assert (Er : rlimit_stage a = ((rlimit_stage a).1, (rlimit_stage a).2)) by by destruct (rlimit_stage a).
  rewrite Er. apply wp_stage; [apply wp_increase|]. intros H2 s3 _. apply wp_event. intros H3 s4. apply wp_event. intros H4 s5. apply Hst.
  apply run_stages_ok. rewrite /stages -/f -/m. by repeat constructor.
Qed.
End stages.
(** What is behind the stages. *)
Lemma wp_not_created path a s e : a_mount_thread a = inl e -> e <> 0 ->
  wp (err ← zus_mount_thread_start size path a; (if negb (err =? 0) then mret tt else zus_join);; zus_mount_thread_stop;; mret err) s (main_post (not_created path e) ([], 0) s).
Proof.
  intros Ea He. rewrite /zus_mount_thread_start /zus_init_zuf /emit Ea. wp_steps. rewrite (proj2 (Z.eqb_neq _ _) He). cbn [negb]. apply wp_bind, wp_ret. rewrite /zus_mount_thread_stop /emit. wp_steps.
  cbn [Z.eqb mnt_thread upd_thread upd_stop upd_events negb]. wp_steps. rewrite /main_post. cbn [snd fst Z.eqb app]. split_and!; try done. cbn. by rewrite -!app_assoc.
Qed.
Lemma wp_joined path a s t : a_mount_thread a = inr t -> t <> 0 ->
  wp (err ← zus_mount_thread_start size path a; (if negb (err =? 0) then mret tt else zus_join);; mret tt;; mret err) s (main_post (joined path t) ([], 0) s).
Proof.
  intros Ea Ht. rewrite /zus_mount_thread_start /zus_init_zuf /emit Ea. wp_steps. cbn [Z.eqb negb]. rewrite /zus_join /pthread_join /emit.
  wp_steps; [apply bool_decide_true; cbn; set_solver|]. rewrite /main_post. cbn [snd fst Z.eqb app]. split_and!; try done; [cbn; by rewrite -!app_assoc|]. cbn. set_solver.
Qed.
(** What is called last is called in the state in which a program without it would end. *)
Lemma stop_stage {A} (m : DM Z) e (k k' : DM A) (ret : Z -> DM A) s y : wp m s (fun x _ => x = e) -> e = 0 ->
  (x ← m; if negb (x =? 0) then ret x else k') s = Some y -> (forall s1, k' s1 = Some y -> k s1 = None) -> (x ← m; if negb (x =? 0) then ret x else k) s = None.
Proof.
  intros Hm -> Hk Hn. destruct (wp_exists _ _ _ Hm) as (x & s1 & E & ->). revert Hk. rewrite /mbind /ST_bind E. cbn [Z.eqb negb]. apply Hn.
Qed.
Lemma stop_event {A} ev e (k k' : DM A) (ret : Z -> DM A) s y : e = 0 ->
  (emit ev;; if negb (e =? 0) then ret e else k') s = Some y -> (forall s1, k' s1 = Some y -> k s1 = None) -> (emit ev;; if negb (e =? 0) then ret e else k) s = None.
Proof. intros -> Hk Hn. revert Hk. rewrite /mbind /ST_bind /emit. cbn [Z.eqb negb]. apply Hn. Qed.
Lemma main_to_stop stop o args a s err s' : (length args <= 1)%nat -> (run_stages (stages o a)).2 = 0 ->
  main_to size (mret tt) o args a s = Some (err, s') -> stop s' = None -> main_to size stop o args a s = None.
Proof.
  intros Ha Hok Hrun Hst. revert Hrun. rewrite /main_to. assert (El : (1 <? length args)%nat = false) by (apply Nat.ltb_ge; lia). rewrite El.
  set (f := mlock_flags (g_mlock o)) in *. apply run_stages_ok in Hok. rewrite /stages -/f !Forall_cons in Hok. cbn [snd] in Hok. destruct Hok as (H1 & _ & H2 & H3 & H4 & _).
  intros Hrun.
  refine (stop_stage _ 0 _ _ mret _ _ _ eq_refl Hrun _); [destruct (f =? 0); cbn [negb]; rewrite /emit; by wp_steps|].
  clear Hrun. intros s1 Hrun. refine (stop_event RegisterSigactions 0 _ _ mret _ _ eq_refl Hrun _). clear s1 Hrun. intros s1 Hrun.
  refine (stop_stage _ 0 _ _ mret _ _ _ eq_refl Hrun _); [eapply wp_mono; [apply wp_increase|]; cbn beta; by intros x s2 [-> _]|].
  clear s1 Hrun. intros s1 Hrun. refine (stop_event _ _ _ _ mret _ _ H3 Hrun _). clear s1 Hrun. intros s1 Hrun. refine (stop_event _ _ _ _ mret _ _ H4 Hrun _). clear s1 Hrun. intros s1.
  rewrite /mbind /ST_bind. destruct (zus_mount_thread_start size (head args) a s1) as [[x s2]|]; [|done].
  destruct ((if negb (x =? 0) then mret tt else zus_join) s2) as [[[] s3]|]; [|done]. cbn. intros [= -> ->]. by rewrite Hst.
Qed.
Lemma stop_again s : mnt_thread s <> 0 -> mnt_thread s ∉ joinable s -> zus_mount_thread_stop s = None.
Proof.
  intros Ht Hj. rewrite /zus_mount_thread_stop /emit /pthread_join. rewrite /mbind /ST_bind. cbn. rewrite (proj2 (Z.eqb_neq _ _) Ht). cbn. by rewrite bool_decide_false.
Qed.

(** C40: the main program.  With more than one argument it prints its usage.  Else it starts
    its parts in one order and ends with the error of the first that fails, and nothing
    behind that is started; when the mount thread cannot be created, that is stopped like a
    running one, and the error is the answer.  Where the mount thread is created the daemon
    waits for it to end, and reaches its last call, with the thread joined and its handle
    still there; that call joins it once more, which is undefined: there is no run of the
    whole that is defined. *)
Theorem main_spec (o : options) (args : list (list Z)) (a : main_answers) (s : daemon) :
  (forall e, a_mount_thread a = inl e -> e <> 0) -> (forall t, a_mount_thread a = inr t -> t <> 0) ->
  let r := run_stages (stages o a) in
  if (1 <? length args)%nat then wp (main size o args a) s (fun err s' => err = 1 /\ only_events [Usage] s s')
  else if negb (r.2 =? 0) then wp (main size o args a) s (fun err s' => err = r.2 /\ only_events r.1 s s')
  else match a_mount_thread a with
  | inl e => wp (main size o args a) s (not_created (head args) e r.1 s)
  | inr t => wp (main_to size (mret tt) o args a) s (joined (head args) t r.1 s) /\ main size o args a s = None
  end.
Proof.
  intros He Ht. cbv zeta. destruct (Nat.ltb_spec 1 (length args)) as [Ha|Ha].
  { rewrite /main /main_to (proj2 (Nat.ltb_lt _ _) Ha). apply wp_bind, wp_emit, wp_ret. by split_and!. }
  destruct (a_mount_thread a) as [e|t] eqn:Ea.
  - assert (Hw : wp (main size o args a) s (main_post (not_created (head args) e) (run_stages (stages o a)) s)).
    { apply wp_main_to; [apply not_created_stable|lia|]. intros _ s'. apply wp_not_created; [done|by apply He]. }
    rewrite /main_post in Hw. by destruct (_ =? 0).
  - set (r := run_stages (stages o a)). destruct (Z.eqb_spec r.2 0) as [E0|Hn]; cbn [negb].
    + assert (Hw : wp (main_to size (mret tt) o args a) s (joined (head args) t r.1 s)).
      { assert (Hw : wp (main_to size (mret tt) o args a) s (main_post (joined (head args) t) r s)) by (apply wp_main_to; [apply joined_stable|lia|intros _ s'; apply wp_joined; auto]).
        rewrite /main_post E0 in Hw. exact Hw. }
      split; [done|]. destruct (wp_exists _ _ _ Hw) as (err & s' & Hrun & _ & _ & H1 & _ & H2 & _). apply (main_to_stop _ _ _ _ s err s'); [lia|done|done|].
      apply stop_again; rewrite H1; [by apply Ht|]. rewrite H2. set_solver.
    + assert (Hw : wp (main size o args a) s (main_post (joined (head args) t) r s)) by (apply wp_main_to; [apply joined_stable|lia|done]).
      by rewrite /main_post (proj2 (Z.eqb_neq _ _) Hn) in Hw.
Qed.
End main.

Section example.
Definition all_well (r : Z + Z) : main_answers := MainAnswers 0 (0, 1024, 4096) 0 0 0 r.
Definition not_started : daemon := DaemonState 0 false (0, 0) [] ∅ [].
Definition some_options : options := parse_options (fun _ => 0) 0 1 [(102, Some (chars "20")); (112, Some (chars "1048576"))].
Lemma main_spec_witness : main 4096 some_options [] (all_well (inr 77)) not_started = None /\
  exists s', main_to 4096 (mret tt) some_options [] (all_well (inr 77)) not_started = Some (0, s') /\
  events s' = [Mlockall MCL_CURRENT; RegisterSigactions; Setrlimit 65536 65536; SetupPa 1048576; SlabInit; CreateThread None; Join 77].
Proof.
  assert (He : forall e, inr 77 = inl e :> Z + Z -> e <> 0) by discriminate. assert (Ht : forall t, inr 77 = inr t :> Z + Z -> t <> 0) by (intros t [= <-]; discriminate).
  destruct (main_spec 4096 some_options [] (all_well (inr 77)) not_started He Ht) as [Hw Hn]. split; [exact Hn|].
  destruct (wp_exists _ _ _ Hw) as (err & s' & Hrun & Hpost). destruct Hpost as (-> & Hev & _). exists s'. split; [exact Hrun|]. rewrite Hev. vm_compute. reflexivity.
Defined.
(** A signal that ends the daemon before [main] has joined the mount thread joins it. *)
Example exit_signal : (handle 15 SigExit (DaemonState 77 false (0, 0) [] {[77]} [])) = Some (Exits 0, DaemonState 0 true (0, 0) [] ∅ [StopThreads; Join 77; UnregisterAll]).
Proof. vm_compute. reflexivity. Qed.
(** Every signal is registered once; that of abort is not. *)
Lemma sigactions_once : NoDup zus_register_sigactions.*1 /\ 6 ∉ zus_register_sigactions.*1.
Proof. split; [apply (bool_decide_unpack _); vm_compute; exact I|]. apply (bool_decide_unpack _). vm_compute. exact I. Qed.
End example.
